(* ===== verification/_CoqProject ===== *)
-Q . S2P
Prelude.v
Sha256.v
GoText.v
TextFacts.v
JsonText.v
Calendar.v
Delivery.v
SmtpStream.v
Provider.v
SmtpClient.v
Database.v
UuidText.v
WebhookHttp.v
Suppression.v
Message.v
Queue.v
Worker.v
QueueInv.v
QueueOps.v
MessageOps.v
QueueClaim.v
QueueFinish.v
QueueRecover.v
Demo.v
QueueSpec.v
System.v
Frames.v
QueueRules.v
Runs.v
MessageRules.v
SubmitRules.v
Limiter.v
AesGcm.v
Credentials.v
Auth.v
Storage.v
Receive.v
Admission.v
SmtpSession.v
Webhook.v
WebhookSpec.v
Ownership.v
OwnershipSpec.v
Fingerprint.v
ApiReceive.v
Paging.v
Retention.v
Reclaim.v
ArchiveLife.v
ArchiveSpec.v
FeedbackParse.v
Feedback.v
Publication.v
Collect.v
FeedbackSpec.v
PublicationSpec.v
CollectSpec.v
ProviderAdmin.v
ProviderSpec.v
JsonTokens.v
JsonMessage.v
Templates.v
SendJson.v
Catalog.v
CatalogSpec.v
SendKeys.v
HttpSend.v
Sandbox.v
ServeMux.v
HttpAdmin.v
HttpAdminSpec.v
Console.v
Config.v
ConfigSpec.v
