(* ===== verification/Prelude.v ===== *)
(** * RelayTale: a verification development

    RelayTale ([src/]) is a mail relay: it accepts messages from SMTP clients
    and from websites, stores each message and its recipients durably, and
    delivers them to configured SMTP providers with at most one transmission
    that may have been delivered, unless an operator decides otherwise.  It
    also notifies websites of what happened through webhooks.

    ** The parts and how they interact

    An SMTP session ([internal/smtpserver]) authenticates an account
    ([internal/auth]), checks the sender and the recipients, and hands the data
    to the receiver ([internal/message/receive.go]), which writes the archive
    ([internal/storage]) and then, in one transaction, the message and its
    recipients ([internal/message/postgres.go]).  Websites submit through
    [internal/message/api_receive.go] and [idempotency.go] with a key, budgets
    and streams; the archive is written inside that transaction.  Workers
    ([internal/queue]) claim messages fairly within quotas and circuit
    breakers, ask for permission to transmit ([ArmData]), hold the SMTP
    conversation ([internal/smtpclient]), let [internal/delivery] decide what
    the evidence means, and record it ([Finish]); lapsed leases are recovered
    and operators resolve what stayed unknown.  [internal/suppression] blocks
    addresses, [internal/encryption] seals provider passwords,
    [internal/resource] bounds concurrent work, [internal/webhook] sends
    notifications from an outbox.  [internal/operations] takes archives of
    finished messages away and reclaims files no message refers to.
    [internal/feedback] collects delivery reports of other mail systems as
    evidence, which operators may associate with a delivery and publish to the
    website, and which never changes a delivery.  [internal/api] serves
    websites (submission, templates, cancellation, a sandbox) and operators
    (the administration interface, by tokens or by the browser console).
    [internal/config] decides what all of them start with.  They share the
    database, which one gateway at a time may own ([internal/database]).

    ** Which file models what

    - [Prelude], [GoText], [TextFacts], [JsonText], [Calendar], [UuidText],
      [Paging], [Sha256], [AesGcm]: the Go language and standard library as far
      as the code uses them: int64 wrap-around, time and calendar dates, record
      update, strings, UTF-8, JSON and decimal text, base64, UUID text, ordered
      pages of a table, SHA-256, HMAC, hex, AES-256-GCM (checked against
      published vectors);
    - [Delivery]: [internal/delivery] (the decision table, budgets, jitter);
    - [SmtpStream], [SmtpClient], [Provider]: [internal/smtpclient] as a state
      and writer monad over an arbitrary network [Net]; every byte sent is an
      action of the trace;
    - [Database]: the tables of [migrations/] as finite maps, transactions as a
      monad [M] with statement failures, [SKIP LOCKED] and lost commit answers
      ([World]), and the program logic [triple];
    - [Suppression], [Message], [Queue]: [internal/suppression],
      [internal/message], [internal/queue], one definition per function;
      [Worker]: what a worker reports;
    - [QueueInv], [QueueOps], [MessageOps], [QueueClaim], [QueueFinish],
      [QueueRecover], [Frames]: the invariant of the queue, and a lemma per
      operation that it is kept and what it leaves alone;
    - [System]: workers, sweeps, operators and submitters as a transition
      system over one database, and its theorems; [Demo]: the concrete run the
      witnesses use;
    - [QueueSpec], [QueueRules]: contracts of [ArmData] and [Claim], fairness
      of streams, message status; [MessageRules], [SubmitRules]: canonical
      request data, idempotency, budgets, cancellation;
    - [Limiter]: [internal/resource] with interleaved callers; [Auth]:
      [internal/auth]; [Storage]: [internal/storage]; [Receive]: the receiver;
      [Admission], [SmtpSession]: [internal/smtpserver]; [Credentials]:
      [internal/encryption];
    - [WebhookHttp], [Webhook], [WebhookSpec]: [internal/webhook];
    - [Ownership], [OwnershipSpec]: [internal/database/ownership.go] and
      [auxiliary.go], the owner rows and advisory locks that decide which
      process may act, with sessions that end at any time;
    - [Fingerprint], [ApiReceive]: the request fingerprint with its exact JSON
      document, and the submission of a website from its first byte to the
      commit ([internal/message/idempotency.go], [api_receive.go]);
    - [Retention], [Reclaim]: [internal/operations/cleanup.go], [lifecycle.go]
      and [archive_recovery.go]; [ArchiveLife], [ArchiveSpec]: the life of the
      archives under all of these and reception, as a transition system over
      the files and the database that may stop anywhere, and its theorems;
    - [FeedbackParse], [Feedback], [Publication], [Collect]:
      [internal/feedback]: [parse.go] and [explain.go]; [decision.go],
      [service.go] and [inspect.go]; [publication.go] and [candidates.go];
      [collect.go]; [FeedbackSpec], [PublicationSpec], [CollectSpec]: their
      theorems;
    - [ProviderAdmin], [ProviderSpec]: [internal/provider], the operations on
      providers and quota groups and their theorems;
    - [JsonTokens], [JsonMessage], [SendJson]: a website's JSON message
      ([internal/api/send_json.go], [send_attachments.go] and the JSON of
      [send_templates.go]), from its tokens to the bytes of the message;
      [Templates]: their expansion; [Catalog], [CatalogSpec]: publication,
      retirement and drafts ([template_catalog.go], [template_retirement.go],
      [template_drafts.go]);
    - [SendKeys], [HttpSend]: [send.go] and [send_cancel.go], the keys of
      websites and the handler of their requests; [Sandbox]: the simulations of
      [sandbox.go];
    - [ServeMux]: the router of net/http; [HttpAdmin], [HttpAdminSpec]:
      [admin.go], [admin_write.go], [admin_quota_groups.go],
      [admin_templates.go] and [feedback_publication.go], a definition per
      handler that writes; [Console]: the sessions of [browser.go];
    - [Config], [ConfigSpec]: [internal/config/config.go] and what it calls in
      [internal/encryption] and [internal/webhook];
    - [Runs]: reasoning about whole transactions, shared by [FeedbackSpec],
      [PublicationSpec], [CollectSpec] and [ProviderSpec].

    ** What the theorems show

    - No duplicate delivery by the system itself: [System.claim_never_resends],
      [System.armed_forever], over every interleaving, crash and lost commit
      answer; they rest on the invariant [System.reachable_consistent] and on
      the append-only history [System.history_immutable].  Other programs are
      steps that leave deliveries alone ([System.elsewhere]), which
      [FeedbackSpec] and [ProviderSpec] discharge for feedback and for the
      administration of providers.
    - Permission to transmit: [System.arm_data_grants]; limits and
      eligibility of claims: [QueueSpec.claim_within_quota]; no stream waits
      for more than one round: [QueueRules.streams_take_turns].
    - The client never shows credentials or mail before TLS, sends DATA at most
      once and only after the fence ([SmtpClient.send_wire_safety]), and its
      result says exactly what is certain ([SmtpClient.send_result_contract]);
      framing is a round trip ([SmtpStream]).  The policy never retries what
      may have been delivered ([Delivery]).
    - Accepted means durable: [Receive.accepted_is_durable] composes the
      archive, the transaction and the worker's verified read;
      [SmtpSession.data_accepts] lifts it to the reply the client sees, and
      [SmtpSession.session_envelope] says what a session lets through and how
      often it may authenticate.
    - Submission: one message per key, budgets, cancellation ([SubmitRules]);
      what a website's submission did, files included
      ([ApiReceive.website_submission]); equal fingerprints exactly for equal
      requests, up to collisions ([Fingerprint.fingerprint_identifies]).
    - Archives: an available archive is always the exact bytes that were
      accepted ([ArchiveSpec.archive_never_lost]), only finished messages lose
      theirs ([only_finished_expire]), the operations are runs of the life
      ([operations_are_runs]), and the preflight tells what a purge would do
      ([Retention.lifecycle_agrees]).
    - Feedback: advisory ([FeedbackSpec.feedback_is_advisory]); strict parsing
      and its explanation agree ([FeedbackParse.strict_reports]); inspection is
      exact, links and reviews rest on evidence, and publications move one way
      ([PublicationSpec]); the collector leaves no gaps
      ([CollectSpec.collector_leaves_no_gaps]).
    - Resources and admission: budgets, order and progress ([Limiter]), limits
      ([Admission]); accounts, passwords, archives, keys: round trips and exact
      specifications ([Auth], [Storage], [Credentials]).
    - Webhooks: at-least-once delivery within eight attempts, fixed
      destinations, public addresses only, signatures that verify.
    - Providers: any administration keeps them well-formed and never touches a
      delivery ([ProviderSpec.provider_administration]); changes are fenced by
      revisions and exact ([ProviderSpec.manage_fenced]).
    - One owner: [OwnershipSpec.ownership_exclusive].
    - Websites over HTTP: JSON is read exactly as written, without repeated
      keys ([JsonTokens.uniqueJSON_exact], [JsonMessage.decodeJSONMessage_exact]);
      no text of a request can add a header field ([SendJson.json_message_lines]);
      templates expand exactly ([Templates.resolve_exact]) and their versions
      identify them ([Templates.version_identifies]); the catalogue keeps its
      limits and history ([CatalogSpec.catalog_invariant]) and startup loads
      exactly what is in force ([CatalogSpec.startup_templates],
      [SendKeys.startup_configuration]); requests are admitted within limits
      with a key's token ([HttpSend.http_admission]) and an answer says what
      was done ([HttpSend.http_answers]); the sandbox only simulates
      ([Sandbox.sandbox_only_simulates]).
    - Operators: a change needs a configured principal or a live session with
      the role for it, and leaves one audit entry
      ([HttpAdminSpec.management_authority], [Console.console_sessions]).
    - Configuration: [ConfigSpec.load_exact] says what is accepted and which
      source each setting has.

    ** Bounds and fuel

    Fuel is the length of the input wherever recursion is not structural
    (UTF-8, JSON text, header reading, network chunks), and each such
    definition has a lemma or a property that this is enough; decimal text has
    19 digits, enough for an int64.  Delays, sizes and counters that Go keeps
    in 64 bits wrap with [i64] where the code could overflow.

    ** What is an argument

    Third-party and system code is a parameter: net/mail, MIME, uuid and
    net/url parsers, encoding/json's tokens and its decoding into structs,
    html/template, Unicode lower case, the YAML decoder and durations, Argon2,
    cookies, the SASL library, the network, mailboxes, the file system's
    answers, the PostgreSQL server (through [World]); text is ordered by its
    bytes.  Hypotheses about
    them say only what their documentation says (a key of 32 bytes, a nonce of
    12, addresses and identifiers of their width).

    ** What is not modelled

    - HTTP handlers that only read (status, search, statistics, the
      inspection of a message, the lists of the administration interface), the
      code of the web pages and the command line: queries and rendering;
    - archive scans, inventories, exports, capacity reports and histories, DNS
      diagnostics, the IMAP client, backup and recovery, metrics: reports, or
      pure I/O around external programs;
    - CHECK constraints and guard triggers of the schema, except the ones a
      theorem relies on (retired identifiers, links and reviews of feedback,
      simulations):
      they only make a statement fail, and any statement may fail in the model.
      The trigger that captures events into the outbox is modelled in every
      transaction that records one ([Database.insert_event]);
    - timers, contexts and logging, except where they change an outcome. *)

From Stdlib Require Export ZArith Lia String Ascii.
From Stdlib Require Export Strings.Byte.
From stdpp Require Export base tactics list gmap strings.

(** ** Notation scope of the development *)

Declare Scope relay_scope.
Delimit Scope relay_scope with relay.
Open Scope Z_scope.
Open Scope relay_scope.

(** ** Machine integers

    Go's [int], [int64] and [time.Duration] are 64-bit two's complement. *)

Definition i64 (z : Z) : Z := (z + 2 ^ 63) mod 2 ^ 64 - 2 ^ 63.

Lemma i64_small (z : Z) : - 2 ^ 63 <= z < 2 ^ 63 -> i64 z = z.
Proof. intros H. unfold i64. rewrite Z.mod_small; lia. Qed.

Lemma i64_range (z : Z) : - 2 ^ 63 <= i64 z < 2 ^ 63.
Proof. unfold i64. pose proof (Z.mod_pos_bound (z + 2 ^ 63) (2 ^ 64)). lia. Qed.

(** ** Record update

    [r <| f := v |>] is the record [r] with field [f] set to [v].  A record
    opts in by giving its eta expansion; the setter of one field abstracts
    that field in the expansion. *)

Class Eta (R : Type) := eta : R -> R.
Class Setter {R T : Type} (proj : R -> T) := set_with : (T -> T) -> R -> R.

Ltac solve_setter :=
  lazymatch goal with
  | |- @Setter ?R ?T ?proj =>
      let upd := fresh "upd" in
      let r := fresh "r" in
      refine (fun (upd : T -> T) (r : R) => _);
      let whole := constr:(@eta R _ r) in
      let whole := eval cbv [eta] in whole in
      let whole := lazymatch whole with
                   | ?inst r => let i := eval red in inst in
                                eval cbv beta in (i r)
                   | ?w => w
                   end in
      let whole := eval pattern (proj r) in whole in
      lazymatch whole with
      | ?ctx _ => let body := eval cbv beta in (ctx (upd (proj r))) in exact body
      end
  end.

#[export] Hint Extern 1 (Setter _) => solve_setter : typeclass_instances.

Definition set {R T : Type} (proj : R -> T) {S : Setter proj} (v : T) (r : R) : R :=
  S (fun _ => v) r.
Arguments set {R T} proj {S} v r /.

Notation "r <| f := v |>" := (set f v r)
  (at level 1, left associativity, format "r  <|  f  :=  v  |>") : relay_scope.

(** ** Time

    An instant ([time.Time], [timestamptz]) is a number of nanoseconds since
    Go's zero time, so that [t.IsZero()] is [t = 0]; a nullable column is an
    [option].  A [time.Duration] is a number of nanoseconds in an int64. *)

Abbreviation Time := Z.
Definition Second : Z := 1000000000.
Definition Minute : Z := 60 * Second.
Definition Hour : Z := 60 * Minute.
Definition IsZero (t : Time) : bool := t =? 0.
Definition Before (t u : Time) : bool := t <? u.
Definition After (t u : Time) : bool := u <? t.

(** ** Identifiers

    Row identifiers and claim tokens are UUIDs, 128-bit numbers here; where the
    code uses an empty string for "none" the model uses an [option]. *)

Abbreviation UUID := N.

(** ** Strings

    Go strings are byte strings; [string] is Stdlib's type of 8-bit
    characters.  [HasPrefix] is [strings.HasPrefix]. *)

Definition HasPrefix (s pre : string) : bool := String.prefix pre s.

#[export] Instance byte_eq_decision : EqDecision byte := Byte.byte_eq_dec.
Definition CR : byte := x0d.
Definition LF : byte := x0a.
Definition DOT : byte := x2e.
Definition is_byte (b c : byte) : bool := bool_decide (b = c).

Definition bytes_of (s : string) : list byte := list_byte_of_string s.

(** The membership test of a Go [switch] over constants, or of SQL [IN]. *)
Definition one_of {A : Type} `{EqDecision A} (x : A) (xs : list A) : bool :=
  existsb (fun y => bool_decide (x = y)) xs.

Arguments one_of : simpl never.

Lemma one_of_true {A : Type} `{EqDecision A} (x : A) (xs : list A) :
  one_of x xs = true <-> x ∈ xs.
Proof.
  unfold one_of. rewrite existsb_exists. split.
  - intros (y & Hin & Heq). apply bool_decide_eq_true in Heq as ->.
    by apply list_elem_of_In.
  - intros Hin. exists x. rewrite bool_decide_eq_true. split; [|done].
    by apply list_elem_of_In.
Qed.

(** ** Automation

    [relay] collects the facts that turn boolean tests of the code into
    propositions; [bsimpl] rewrites with them everywhere. *)

Create HintDb relay.
Create Rewrite HintDb relay.
#[export] Hint Rewrite
  andb_true_iff andb_false_iff orb_true_iff orb_false_iff negb_true_iff negb_false_iff
  Z.ltb_lt Z.leb_le Z.eqb_eq Z.ltb_ge Z.leb_gt Z.eqb_neq Z.geb_le
  @bool_decide_eq_true @bool_decide_eq_false
  String.eqb_eq String.eqb_neq @one_of_true : relay.

Lemma is_byte_true (b c : byte) : is_byte b c = true <-> b = c.
Proof. apply bool_decide_eq_true. Qed.
Lemma is_byte_false (b c : byte) : is_byte b c = false <-> b <> c.
Proof. apply bool_decide_eq_false. Qed.
#[export] Hint Rewrite is_byte_true is_byte_false : relay.

Ltac bsimpl := autorewrite with relay in *.

(** Split on the innermost [if] or [match] scrutinee of the goal, keeping
    the equation. *)
Ltac case_goal :=
  match goal with
  | |- context [match ?x with _ => _ end] =>
      lazymatch x with
      | context [match _ with _ => _ end] => fail
      | _ => destruct x eqn:?
      end
  end.

Ltac case_hyp H :=
  match type of H with
  | context [match ?x with _ => _ end] =>
      lazymatch x with
      | context [match _ with _ => _ end] => fail
      | _ => destruct x eqn:?
      end
  end.
