(* ===== verification/Sha256.v ===== *)
(** * SHA-256, hexadecimal text and HMAC

    The parts of Go's [crypto/sha256], [crypto/hmac], [encoding/hex] and
    [encoding/binary] that the program computes with: the retry jitter of
    [internal/delivery/decision.go], the request fingerprint and key digest
    of [internal/message/idempotency.go] and the webhook signature of
    [internal/webhook/http.go].  SHA-256 follows FIPS 180-4 on 32-bit words
    kept in [N]; the published test vectors are evaluated at the end. *)

From S2P Require Import Prelude.
Local Open Scope N_scope.

Module Sha.

Definition add32 (x y : N) : N := (x + y) mod 2 ^ 32.
Definition rotr (n x : N) : N :=
  N.lor (N.shiftr x n) (N.shiftl x (32 - n) mod 2 ^ 32).
Definition not32 (x : N) : N := N.lxor x (2 ^ 32 - 1).

Definition choose (x y z : N) : N := N.lxor (N.land x y) (N.land (not32 x) z).
Definition majority (x y z : N) : N :=
  N.lxor (N.land x y) (N.lxor (N.land x z) (N.land y z)).
Definition big0 (x : N) : N := N.lxor (rotr 2 x) (N.lxor (rotr 13 x) (rotr 22 x)).
Definition big1 (x : N) : N := N.lxor (rotr 6 x) (N.lxor (rotr 11 x) (rotr 25 x)).
Definition small0 (x : N) : N := N.lxor (rotr 7 x) (N.lxor (rotr 18 x) (N.shiftr x 3)).
Definition small1 (x : N) : N := N.lxor (rotr 17 x) (N.lxor (rotr 19 x) (N.shiftr x 10)).

Definition round_constants : list N :=
 [1116352408; 1899447441; 3049323471; 3921009573; 961987163; 1508970993; 2453635748; 2870763221;
  3624381080; 310598401; 607225278; 1426881987; 1925078388; 2162078206; 2614888103; 3248222580;
  3835390401; 4022224774; 264347078; 604807628; 770255983; 1249150122; 1555081692; 1996064986;
  2554220882; 2821834349; 2952996808; 3210313671; 3336571891; 3584528711; 113926993; 338241895;
  666307205; 773529912; 1294757372; 1396182291; 1695183700; 1986661051; 2177026350; 2456956037;
  2730485921; 2820302411; 3259730800; 3345764771; 3516065817; 3600352804; 4094571909; 275423344;
  430227734; 506948616; 659060556; 883997877; 958139571; 1322822218; 1537002063; 1747873779;
  1955562222; 2024104815; 2227730452; 2361852424; 2428436474; 2756734187; 3204031479; 3329325298].

Definition initial_hash : list N :=
 [1779033703; 3144134277; 1013904242; 2773480762; 1359893119; 2600822924; 528734635; 1541459225].

(** Big-endian words of a byte string. *)
Fixpoint words (bs : list byte) : list N :=
  match bs with
  | a :: b :: c :: d :: rest =>
      (Byte.to_N a * 2 ^ 24 + Byte.to_N b * 2 ^ 16 + Byte.to_N c * 2 ^ 8 + Byte.to_N d)
      :: words rest
  | _ => []
  end.

Definition byte_of (n : N) : byte :=
  match Byte.of_N (n mod 256) with Some b => b | None => x00 end.

Definition be32 (w : N) : list byte :=
  [byte_of (N.shiftr w 24); byte_of (N.shiftr w 16); byte_of (N.shiftr w 8); byte_of w].

Definition be64 (n : N) : list byte := be32 (N.shiftr n 32) ++ be32 (n mod 2 ^ 32).

(** Append 0x80, zero bytes up to 56 modulo 64 and the 64-bit bit length. *)
Definition pad (bs : list byte) : list byte :=
  let len := List.length bs in
  let zeros := ((119 - len mod 64) mod 64)%nat in
  bs ++ x80 :: repeat x00 zeros ++ be64 (N.of_nat len * 8).

(** The schedule is built newest word first: positions 1, 6, 14 and 15
    counted from the head are the words at distance 2, 7, 15 and 16. *)
Fixpoint schedule (n : nat) (ws : list N) : list N :=
  match n with
  | O => ws
  | S k =>
      let at_ i := nth i ws 0 in
      schedule k (add32 (add32 (small1 (at_ 1%nat)) (at_ 6%nat))
                        (add32 (small0 (at_ 14%nat)) (at_ 15%nat)) :: ws)
  end.

Definition one_round (h : list N) (kw : N * N) : list N :=
  match h with
  | [a; b; c; d; e; f; g; h'] =>
      let t1 := add32 (add32 h' (big1 e)) (add32 (choose e f g) (add32 (fst kw) (snd kw))) in
      let t2 := add32 (big0 a) (majority a b c) in
      [add32 t1 t2; a; b; c; add32 d t1; e; f; g]
  | _ => h
  end.

Definition compress (h : list N) (block : list N) : list N :=
  let ws := rev (schedule 48 (rev block)) in
  zip_with add32 h (fold_left one_round (combine round_constants ws) h).

Fixpoint blocks (fuel : nat) (ws : list N) : list (list N) :=
  match fuel with
  | O => []
  | S k => match ws with
           | [] => []
           | _ => firstn 16 ws :: blocks k (skipn 16 ws)
           end
  end.

(** [sha256.Sum256] *)
Definition Sum256 (bs : list byte) : list byte :=
  let ws := words (pad bs) in
  concat (map be32 (fold_left compress (blocks (List.length ws) ws) initial_hash)).

(** A digest has 32 bytes. *)
Lemma rounds_length kws h : List.length (fold_left one_round kws h) = List.length h.
Proof.
  revert h. induction kws as [|kw kws IH]; intros h; [reflexivity|]. cbn [fold_left]. rewrite IH.
  destruct h as [|a [|b [|c [|d [|e [|f [|g [|x [|]]]]]]]]]; reflexivity.
Qed.

Lemma compress_length h block : List.length (compress h block) = List.length h.
Proof. unfold compress. rewrite length_zip_with, rounds_length. lia. Qed.

Lemma Sum256_length bs : List.length (Sum256 bs) = 32%nat.
Proof.
  unfold Sum256. assert (H : forall l h, List.length h = 8%nat -> List.length (concat (map be32 (fold_left compress l h))) = 32%nat).
  { induction l as [|b l IH]; intros h Hh.
    - destruct h as [|h1 [|h2 [|h3 [|h4 [|h5 [|h6 [|h7 [|h8 [|]]]]]]]]]; try discriminate Hh. reflexivity.
    - cbn [fold_left]. apply IH. rewrite compress_length. exact Hh. }
  apply H. reflexivity.
Qed.

(** [hmac.New(sha256.New, key)] over a whole message *)
Definition xor_byte (k : N) (b : byte) : byte := byte_of (N.lxor k (Byte.to_N b)).
Definition hmac_key (key : list byte) : list byte :=
  let k := if (64 <? List.length key)%nat then Sum256 key else key in
  k ++ repeat x00 (64 - List.length k).
Definition hmac (key msg : list byte) : list byte :=
  let k := hmac_key key in
  Sum256 (map (xor_byte 92) k ++ Sum256 (map (xor_byte 54) k ++ msg)).

End Sha.

(** ** Hexadecimal text: [hex.EncodeToString] and [hex.DecodeString] *)

Definition hex_digit (n : N) : ascii :=
  if n <? 10 then ascii_of_N (48 + n) else ascii_of_N (87 + n).

Fixpoint EncodeToString (bs : list byte) : string :=
  match bs with
  | [] => EmptyString
  | b :: rest =>
      let n := Byte.to_N b in
      String (hex_digit (n / 16)) (String (hex_digit (n mod 16)) (EncodeToString rest))
  end.

Definition hex_value (c : ascii) : option N :=
  let n := N_of_ascii c in
  if (48 <=? n) && (n <=? 57) then Some (n - 48)
  else if (97 <=? n) && (n <=? 102) then Some (n - 87)
  else if (65 <=? n) && (n <=? 70) then Some (n - 55)
  else None.

Fixpoint DecodeString (s : string) : option (list byte) :=
  match s with
  | EmptyString => Some []
  | String _ EmptyString => None
  | String a (String b rest) =>
      match hex_value a, hex_value b, DecodeString rest with
      | Some x, Some y, Some bs => Some (Sha.byte_of (16 * x + y) :: bs)
      | _, _, _ => None
      end
  end.

Example sha256_empty :
  EncodeToString (Sha.Sum256 []) =
  "e3b0c44298fc1c149afbf4c8996fb92427ae41e4649b934ca495991b7852b855"%string.
Proof. vm_compute. reflexivity. Qed.

Example sha256_abc :
  EncodeToString (Sha.Sum256 (bytes_of "abc")) =
  "ba7816bf8f01cfea414140de5dae2223b00361a396177a9cb410ff61f20015ad"%string.
Proof. vm_compute. reflexivity. Qed.

Example sha256_two_blocks :
  EncodeToString (Sha.Sum256 (bytes_of "abcdbcdecdefdefgefghfghighijhijkijkljklmklmnlmnomnopnopq")) =
  "248d6a61d20638b8e5c026930c3e6039a33ce45964ff2167f6ecedd419db06c1"%string.
Proof. vm_compute. reflexivity. Qed.

Example hmac_rfc4231_case2 :
  EncodeToString (Sha.hmac (bytes_of "Jefe") (bytes_of "what do ya want for nothing?")) =
  "5bdcc146bf60754e6a042426089575c75a003f089d2739839dec58b964ec3843"%string.
Proof. vm_compute. reflexivity. Qed.

Lemma decode_one (b : byte) (rest : string) (bs : list byte) :
  DecodeString rest = Some bs ->
  DecodeString (String (hex_digit (Byte.to_N b / 16)) (String (hex_digit (Byte.to_N b mod 16)) rest))
  = Some (b :: bs).
Proof. intros H. destruct b; cbn [DecodeString]; rewrite H; vm_compute; reflexivity. Qed.

(** Hexadecimal text decodes back to the bytes it encodes. *)
Lemma hex_roundtrip (bs : list byte) : DecodeString (EncodeToString bs) = Some bs.
Proof. induction bs as [|b bs IH]; [done|]. exact (decode_one b _ _ IH). Qed.

Lemma EncodeToString_length (bs : list byte) : String.length (EncodeToString bs) = (2 * List.length bs)%nat.
Proof. induction bs as [|b bs IH]; [reflexivity|]. cbn [EncodeToString String.length List.length]. rewrite IH. lia. Qed.

Lemma EncodeToString_inj (a b : list byte) : EncodeToString a = EncodeToString b -> a = b.
Proof. intros H. apply (f_equal DecodeString) in H. rewrite !hex_roundtrip in H. congruence. Qed.
