(* ===== verification/GoText.v ===== *)
(** * Text functions of Go's standard library

    The functions of [strings], [encoding/base64], [unicode/utf8] and [fmt]
    that the SMTP client applies to server replies.  Strings are byte
    strings.  Case conversion and white space are those of ASCII: bytes above
    127 have no case and are not spaces. *)

From S2P Require Import Prelude.

Fixpoint string_rev (acc s : string) : string :=
  match s with EmptyString => acc | String c rest => string_rev (String c acc) rest end.

Definition is_space (c : ascii) : bool :=
  let n := N_of_ascii c in (n =? 32)%N || ((9 <=? n)%N && (n <=? 13)%N).

Definition lower_char (c : ascii) : ascii :=
  let n := N_of_ascii c in if (65 <=? n)%N && (n <=? 90)%N then ascii_of_N (n + 32) else c.

Fixpoint ToLower (s : string) : string :=
  match s with EmptyString => EmptyString | String c rest => String (lower_char c) (ToLower rest) end.

Definition EqualFold (a b : string) : bool := String.eqb (ToLower a) (ToLower b).

Fixpoint TrimLeft (s : string) : string :=
  match s with
  | EmptyString => EmptyString
  | String c rest => if is_space c then TrimLeft rest else s
  end.
Definition TrimSpace (s : string) : string :=
  string_rev EmptyString (TrimLeft (string_rev EmptyString (TrimLeft s))).

(** [strings.Split] with a one-byte separator *)
Fixpoint split_at (sep : ascii) (cur s : string) : list string :=
  match s with
  | EmptyString => [string_rev EmptyString cur]
  | String c rest =>
      if Ascii.eqb c sep then string_rev EmptyString cur :: split_at sep EmptyString rest
      else split_at sep (String c cur) rest
  end.
Definition Split (s : string) (sep : ascii) : list string := split_at sep EmptyString s.

Fixpoint fields_at (cur s : string) : list string :=
  let flush := match cur with EmptyString => [] | _ => [string_rev EmptyString cur] end in
  match s with
  | EmptyString => flush
  | String c rest => if is_space c then flush ++ fields_at EmptyString rest
                     else fields_at (String c cur) rest
  end.
Definition Fields (s : string) : list string := fields_at EmptyString s.

Fixpoint Join (l : list string) (sep : string) : string :=
  match l with
  | [] => EmptyString
  | [x] => x
  | x :: rest => (x ++ sep ++ Join rest sep)%string
  end.

Fixpoint ContainsAny (s chars : string) : bool :=
  match s with
  | EmptyString => false
  | String c rest =>
      existsb (Ascii.eqb c) (list_ascii_of_string chars) || ContainsAny rest chars
  end.

Fixpoint drop (n : nat) (s : string) : string :=
  match n, s with
  | S k, String _ rest => drop k rest
  | _, _ => s
  end.

Fixpoint take (n : nat) (s : string) : string :=
  match n, s with
  | S k, String c rest => String c (take k rest)
  | _, _ => EmptyString
  end.

(** [strings.ReplaceAll] for a nonempty [old]; the fuel is the length of the
    input, one unit per byte consumed. *)
Fixpoint replace_fuel (fuel : nat) (s old new : string) : string :=
  match fuel with
  | O => s
  | S k =>
      match s with
      | EmptyString => EmptyString
      | String c rest =>
          if HasPrefix s old then (new ++ replace_fuel k (drop (String.length old) s) old new)%string
          else String c (replace_fuel k rest old new)
      end
  end.
Definition ReplaceAll (s old new : string) : string := replace_fuel (String.length s) s old new.

(** [base64.StdEncoding.EncodeToString] *)
Definition base64_char (n : N) : ascii :=
  if (n <? 26)%N then ascii_of_N (65 + n)
  else if (n <? 52)%N then ascii_of_N (71 + n)
  else if (n <? 62)%N then ascii_of_N (n - 4)
  else if (n =? 62)%N then "+"%char else "/"%char.

Fixpoint base64 (bs : list byte) : string :=
  let hi n k := base64_char (N.shiftr n k mod 64) in
  match bs with
  | [] => EmptyString
  | [a] =>
      let n := (Byte.to_N a * 65536)%N in
      String (hi n 18%N) (String (hi n 12%N) "==")
  | [a; b] =>
      let n := (Byte.to_N a * 65536 + Byte.to_N b * 256)%N in
      String (hi n 18%N) (String (hi n 12%N) (String (hi n 6%N) "="))
  | a :: b :: c :: rest =>
      let n := (Byte.to_N a * 65536 + Byte.to_N b * 256 + Byte.to_N c)%N in
      String (hi n 18%N) (String (hi n 12%N) (String (hi n 6%N) (String (hi n 0%N) (base64 rest))))
  end.

(** [base64.StdEncoding.DecodeString]: line breaks are skipped, padding is
    required and must end the input. *)
Definition base64_value (c : ascii) : option N :=
  let n := N_of_ascii c in
  if (65 <=? n)%N && (n <=? 90)%N then Some (n - 65)%N
  else if (97 <=? n)%N && (n <=? 122)%N then Some (n - 71)%N
  else if (48 <=? n)%N && (n <=? 57)%N then Some (n + 4)%N
  else if (n =? 43)%N then Some 62%N else if (n =? 47)%N then Some 63%N else None.

Definition byte_of_N (n : N) : byte :=
  match Byte.of_N (n mod 256) with Some b => b | None => x00 end.

Fixpoint base64_groups (cs : list ascii) : option (list byte) :=
  match cs with
  | [] => Some []
  | a :: b :: c :: d :: rest =>
      match base64_value a, base64_value b with
      | Some x, Some y =>
          match base64_value c, base64_value d with
          | Some z, Some t =>
              let n := (x * 262144 + y * 4096 + z * 64 + t)%N in
              match base64_groups rest with
              | Some bs => Some (byte_of_N (N.shiftr n 16) :: byte_of_N (N.shiftr n 8)
                                 :: byte_of_N n :: bs)
              | None => None
              end
          | Some z, None =>
              if Ascii.eqb d "=" && bool_decide (rest = []) then
                let n := (x * 262144 + y * 4096 + z * 64)%N in
                Some [byte_of_N (N.shiftr n 16); byte_of_N (N.shiftr n 8)]
              else None
          | None, _ =>
              if Ascii.eqb c "=" && Ascii.eqb d "=" && bool_decide (rest = []) then
                Some [byte_of_N (N.shiftr (x * 262144 + y * 4096) 16)]
              else None
          end
      | _, _ => None
      end
  | _ => None
  end.

Definition base64_decode (s : string) : option (list byte) :=
  base64_groups (List.filter (fun c => negb (Ascii.eqb c "010" || Ascii.eqb c "013"))
                   (list_ascii_of_string s)).

Lemma base64_decode_example : base64_decode "aGVsbG8hIQ==" = Some (bytes_of "hello!!").
Proof. reflexivity. Qed.

(** The number of bytes of the UTF-8 sequence a string starts with, 0 when it
    starts with an invalid one (Unicode table 3-7). *)
Definition cont (lo hi : N) (s : string) : bool :=
  match s with String c _ => let n := N_of_ascii c in (lo <=? n)%N && (n <=? hi)%N | _ => false end.

Definition utf8_len (s : string) : nat :=
  match s with
  | EmptyString => 0
  | String c r1 =>
      let n := N_of_ascii c in
      let two lo hi := cont lo hi r1 in
      let three lo hi := cont lo hi r1 && cont 128 191 (drop 1 r1) in
      let four lo hi := cont lo hi r1 && cont 128 191 (drop 1 r1) && cont 128 191 (drop 2 r1) in
      if (n <? 128)%N then 1
      else if (194 <=? n)%N && (n <=? 223)%N then if two 128%N 191%N then 2 else 0
      else if (n =? 224)%N then if three 160%N 191%N then 3 else 0
      else if (n =? 237)%N then if three 128%N 159%N then 3 else 0
      else if (225 <=? n)%N && (n <=? 239)%N then if three 128%N 191%N then 3 else 0
      else if (n =? 240)%N then if four 144%N 191%N then 4 else 0
      else if (n =? 244)%N then if four 128%N 143%N then 4 else 0
      else if (241 <=? n)%N && (n <=? 243)%N then if four 128%N 191%N then 4 else 0
      else 0
  end%nat.

Fixpoint valid_fuel (fuel : nat) (s : string) : bool :=
  match fuel with
  | O => true
  | S k => match s with
           | EmptyString => true
           | _ => match utf8_len s with O => false | n => valid_fuel k (drop n s) end
           end
  end.
Definition ValidString (s : string) : bool := valid_fuel (String.length s) s.

(** [strings.ToValidUTF8]: each run of invalid bytes becomes one replacement. *)
Fixpoint to_valid_fuel (fuel : nat) (s repl : string) (inrun : bool) : string :=
  match fuel with
  | O => EmptyString
  | S k =>
      match s with
      | EmptyString => EmptyString
      | String _ rest =>
          match utf8_len s with
          | O => ((if inrun then EmptyString else repl) ++ to_valid_fuel k rest repl true)%string
          | n => (take n s ++ to_valid_fuel k (drop n s) repl false)%string
          end
      end
  end.
Definition ToValidUTF8 (s repl : string) : string := to_valid_fuel (String.length s) s repl false.

(** [fmt.Sscanf] with one [%d]: an optional sign and decimal digits that fit
    an int64; the rest of the input on success. *)
Definition digit (c : ascii) : option Z :=
  let n := N_of_ascii c in if (48 <=? n)%N && (n <=? 57)%N then Some (Z.of_N n - 48) else None.
Fixpoint digits (acc : Z) (seen : bool) (s : string) : option (Z * string) :=
  match s with
  | String c rest =>
      match digit c with
      | Some d => digits (acc * 10 + d) true rest
      | None => if seen then Some (acc, s) else None
      end
  | EmptyString => if seen then Some (acc, s) else None
  end.
Definition scan_int (s : string) : option (Z * string) :=
  let signed neg rest :=
    match digits 0 false rest with
    | Some (n, tail) =>
        let v := if neg : bool then - n else n in
        if (- 2 ^ 63 <=? v) && (v <? 2 ^ 63) then Some (v, tail) else None
    | None => None
    end in
  match s with
  | String "-" rest => signed true rest
  | String "+" rest => signed false rest
  | _ => signed false s
  end.

Example replace_all_example : ReplaceAll "a secret and secret" "secret" "x" = "a x and x"%string.
Proof. reflexivity. Qed.
Example base64_example : base64 (bytes_of "hello!!") = "aGVsbG8hIQ=="%string.
Proof. reflexivity. Qed.
Example fields_example : Fields "  AUTH PLAIN  LOGIN " = ["AUTH"; "PLAIN"; "LOGIN"]%string.
Proof. reflexivity. Qed.
Example valid_utf8_example :
  ValidString (string_of_list_byte [xe2; x82; xac]) = true /\
  ValidString (string_of_list_byte [xc0; x80]) = false.
Proof. split; reflexivity. Qed.
