(* ===== verification/TextFacts.v ===== *)
(** * Facts about Go strings

    Lemmas on concatenation, prefixes and splitting, the character class of key
    names, and decimal text with its round trip. *)

From S2P Require Import Prelude GoText.

(** ** Concatenation, prefixes, lower case *)

Lemma append_nil r : (EmptyString ++ r)%string = r.
Proof. reflexivity. Qed.

Lemma append_cons c l r : (String c l ++ r)%string = String c (l ++ r)%string.
Proof. reflexivity. Qed.

Lemma string_tail c c' (a b : string) : String c a = String c' b -> a = b.
Proof. by intros [= _ ->]. Qed.

Lemma take_drop n s : (take n s ++ drop n s)%string = s.
Proof. revert n. induction s as [|c s IH]; intros [|n]; try done. exact (f_equal (String c) (IH n)). Qed.

Lemma length_take n s : (n <= String.length s)%nat -> String.length (take n s) = n.
Proof. revert n. induction s as [|c s IH]; intros [|n] Hn; simpl in *; try lia. rewrite IH; lia. Qed.

Lemma length_ToLower s : String.length (ToLower s) = String.length s.
Proof. induction s as [|c s IH]; simpl; congruence. Qed.

Lemma lower_char_idem c : lower_char (lower_char c) = lower_char c.
Proof. destruct c as [[] [] [] [] [] [] [] []]; vm_compute; reflexivity. Qed.

Lemma ToLower_idem s : ToLower (ToLower s) = ToLower s.
Proof. induction s as [|c s IH]; simpl; [done|]. by rewrite lower_char_idem, IH. Qed.

Lemma ToLower_append l r : ToLower (l ++ r) = (ToLower l ++ ToLower r)%string.
Proof. induction l as [|c l IH]; [done|]. rewrite !append_cons. simpl. by rewrite IH. Qed.

Lemma take_exact l r : take (String.length l) (l ++ r) = l.
Proof. induction l as [|c l IH]; [by destruct r|]. rewrite append_cons. simpl. by rewrite IH. Qed.

Lemma drop_exact l r : drop (String.length l) (l ++ r) = r.
Proof. induction l as [|c l IH]; [by destruct r|]. rewrite append_cons. simpl. by rewrite IH. Qed.

Lemma append_assoc (a b c : string) : ((a ++ b) ++ c)%string = (a ++ b ++ c)%string.
Proof. induction a as [|x a IH]; [done|]. rewrite !append_cons. by rewrite IH. Qed.

Lemma length_append (a b : string) : String.length (a ++ b) = (String.length a + String.length b)%nat.
Proof. induction a as [|x a IH]; [done|]. rewrite append_cons. simpl. by rewrite IH. Qed.

Lemma prefix_append (p s : string) : HasPrefix (p ++ s) p = true.
Proof.
  unfold HasPrefix. induction p as [|c p IH]; [by destruct s|]. rewrite append_cons. simpl.
  by destruct (ascii_dec c c).
Qed.

Lemma string_rev_append s acc : string_rev acc s = (string_rev EmptyString s ++ acc)%string.
Proof.
  revert acc. induction s as [|c s IH]; intros acc; [done|]. cbn [string_rev]. rewrite IH, (IH (String c EmptyString)).
  by rewrite append_assoc.
Qed.

Lemma string_rev_rev s : string_rev EmptyString (string_rev EmptyString s) = s.
Proof.
  assert (Hgen : forall acc, string_rev EmptyString (string_rev acc s) = (string_rev EmptyString acc ++ s)%string).
  { induction s as [|c s IH]; intros acc; cbn [string_rev].
    - induction (string_rev EmptyString acc) as [|x r IHr]; [done|]. rewrite append_cons. by f_equal.
    - rewrite IH. cbn [string_rev]. rewrite (string_rev_append acc (String c EmptyString)). by rewrite append_assoc. }
  apply Hgen.
Qed.

(** Splitting at a separator that does not occur in the parts. *)
Lemma split_at_clean sep cur s :
  (forall c, c ∈ list_ascii_of_string s -> c <> sep) ->
  split_at sep cur s = [string_rev EmptyString (string_rev cur s)].
Proof.
  revert cur. induction s as [|c s IH]; intros cur Hs; [done|]. cbn [split_at string_rev].
  destruct (Ascii.eqb_spec c sep) as [->|_]; [destruct (Hs sep); [by left|done]|].
  apply IH. intros x Hx. apply Hs. by right.
Qed.

Lemma split_at_two sep cur a b :
  (forall c, c ∈ list_ascii_of_string a -> c <> sep) ->
  split_at sep cur (a ++ String sep b) = string_rev EmptyString (string_rev cur a) :: split_at sep EmptyString b.
Proof.
  revert cur. induction a as [|c a IH]; intros cur Ha.
  - rewrite append_nil. cbn [split_at string_rev]. by rewrite Ascii.eqb_refl.
  - rewrite append_cons. cbn [split_at string_rev].
    destruct (Ascii.eqb_spec c sep) as [->|_]; [destruct (Ha sep); [by left|done]|].
    apply IH. intros x Hx. apply Ha. by right.
Qed.

(** ** Character classes *)

Fixpoint all_chars (p : ascii -> bool) (s : string) : bool :=
  match s with EmptyString => true | String c rest => p c && all_chars p rest end.

(** [[A-Za-z0-9_-]] *)
Definition name_char (c : ascii) : bool :=
  let n := N_of_ascii c in
  ((65 <=? n) && (n <=? 90) || (97 <=? n) && (n <=? 122) || (48 <=? n) && (n <=? 57) || (n =? 95) || (n =? 45))%N.

Lemma all_chars_elem p s : all_chars p s = true <-> forall c, c ∈ list_ascii_of_string s -> p c = true.
Proof.
  induction s as [|c s IH]; simpl.
  - split; [|done]. intros _ c Hc. by apply elem_of_nil in Hc.
  - rewrite andb_true_iff, IH. split.
    + intros [Hc Hs] x Hx. apply elem_of_cons in Hx as [->|Hx]; auto.
    + intros H. split; [apply H; by left|]. intros x Hx. apply H. by right.
Qed.

Lemma elem_append c (a b : string) :
  c ∈ list_ascii_of_string (a ++ b) <-> c ∈ list_ascii_of_string a \/ c ∈ list_ascii_of_string b.
Proof.
  induction a as [|x a IH].
  - rewrite append_nil. split; [by right|]. intros [H|H]; [by apply elem_of_nil in H|done].
  - rewrite append_cons. cbn [list_ascii_of_string]. rewrite !elem_of_cons, IH. tauto.
Qed.

(** ** Decimal text: [strconv.FormatInt] and [strconv.ParseInt], base 10 *)

Definition digit_text (n : Z) : ascii := ascii_of_N (Z.to_N (48 + n)).

(** The digits of [n] before [acc]; an int64 has at most 19. *)
Fixpoint decimal (fuel : nat) (n : Z) (acc : string) : string :=
  match fuel with
  | O => acc
  | S k => if n <? 10 then String (digit_text n) acc else decimal k (n / 10) (String (digit_text (n mod 10)) acc)
  end.

Definition FormatInt (z : Z) : string :=
  if z <? 0 then String "-" (decimal 19 (- z) "") else decimal 19 z "".

Definition ParseInt (s : string) : option Z :=
  match scan_int s with Some (v, EmptyString) => Some v | _ => None end.

(** A property of the ten digits holds when it holds of each. *)
Lemma digit_cases (P : Z -> Prop) d :
  (forall k : nat, (k < 10)%nat -> P (Z.of_nat k)) -> 0 <= d < 10 -> P d.
Proof. intros H Hd. rewrite <- (Z2Nat.id d) by lia. apply H. lia. Qed.

Lemma digit_of_text n : 0 <= n < 10 -> digit (digit_text n) = Some n.
Proof.
  intros Hn. pattern n. apply digit_cases; [|exact Hn]. intros k Hk. do 10 (destruct k as [|k]; [reflexivity|]). lia.
Qed.

Lemma digits_decimal fuel n acc :
  0 <= n < 10 ^ Z.of_nat fuel -> (0 < fuel)%nat ->
  exists p, forall a seen, digits a seen (decimal fuel n acc) = digits (a * p + n) true acc.
Proof.
  revert n acc. induction fuel as [|fuel IH]; intros n acc Hn Hf; [lia|]. cbn [decimal].
  destruct (Z.ltb_spec n 10).
  - exists 10. intros a seen. cbn [digits]. by rewrite digit_of_text by lia.
  - rewrite Nat2Z.inj_succ, Z.pow_succ_r in Hn by lia.
    pose proof (Z.div_mod n 10) as Hd. pose proof (Z.mod_pos_bound n 10).
    destruct (IH (n / 10) (String (digit_text (n mod 10)) acc)) as [p Hp].
    + split; [by apply Z.div_pos; lia|]. apply Z.div_lt_upper_bound; lia.
    + destruct fuel; [simpl in Hn; lia|lia].
    + exists (10 * p). intros a seen. rewrite Hp. cbn [digits]. rewrite digit_of_text by lia. f_equal. lia.
Qed.

(** The text starts with a digit. *)
Lemma decimal_head fuel n acc :
  0 <= n < 10 ^ Z.of_nat fuel -> (0 < fuel)%nat ->
  exists d rest, 0 <= d < 10 /\ decimal fuel n acc = String (digit_text d) rest.
Proof.
  revert n acc. induction fuel as [|fuel IH]; intros n acc Hn Hf; [lia|]. cbn [decimal].
  destruct (Z.ltb_spec n 10); [exists n, acc; split; [lia|done]|].
  rewrite Nat2Z.inj_succ, Z.pow_succ_r in Hn by lia. apply IH.
  - split; [by apply Z.div_pos; lia|]. apply Z.div_lt_upper_bound; lia.
  - destruct fuel; [simpl in Hn; lia|lia].
Qed.

Lemma ParseInt_FormatInt z : - 2 ^ 63 <= z < 2 ^ 63 -> ParseInt (FormatInt z) = Some z.
Proof.
  intros Hz. unfold FormatInt, ParseInt, scan_int. destruct (Z.ltb_spec z 0).
  - destruct (digits_decimal 19 (- z) "") as [p Hp]; [lia|lia|]. rewrite Hp. cbn [digits].
    replace (- (0 * p + - z)) with z by lia. by destruct (Z.leb_spec (- 2 ^ 63) z), (Z.ltb_spec z (2 ^ 63)); try lia.
  - destruct (digits_decimal 19 z "") as [p Hp]; [lia|lia|].
    destruct (decimal_head 19 z "") as (d & rest & Hd & E); [lia|lia|]. rewrite E in *.
    assert (digits 0 false (String (digit_text d) rest) = Some (z, EmptyString)) as H0 by (rewrite Hp; cbn [digits]; f_equal; f_equal; lia).
    assert ((- 2 ^ 63 <=? z) && (z <? 2 ^ 63) = true) as Hb by lia. clear E Hp. revert H0.
    pattern d. apply digit_cases; [|exact Hd]. intros k Hk. do 10 (destruct k as [|k]; [intros ->; by rewrite Hb|]). lia.
Qed.

Lemma ParseInt_range s v : ParseInt s = Some v -> - 2 ^ 63 <= v < 2 ^ 63.
Proof.
  unfold ParseInt. destruct (scan_int s) as [[v' r]|] eqn:E; [|done]. destruct r; [|done]. intros [= ->].
  revert E. unfold scan_int. intros E. repeat case_hyp E; simplify_eq; lia.
Qed.
