(* ===== verification/JsonText.v ===== *)
(** * JSON text

    [json.Marshal] of strings, numbers, arrays and objects, as the code uses it
    for values it hashes, and what the text gives back: a quoted string, a
    number and an array can be read off the front of a longer text, so a
    document determines its values. *)

From S2P Require Import Prelude Sha256 GoText TextFacts.

(** ** Writing *)

Definition quote : ascii := "034".
Definition backslash : ascii := "092".
Definition escaped (c : ascii) : string := String backslash (String c EmptyString).
Definition unicode_escape (n : N) : string :=
  (escaped "u" ++ "00" ++ String (hex_digit (n / 16)) (String (hex_digit (n mod 16)) EmptyString))%string.

Definition escape_char (c : ascii) : string :=
  let n := N_of_ascii c in
  if (n =? 34)%N || (n =? 92)%N then escaped c
  else if (n =? 8)%N then escaped "b" else if (n =? 12)%N then escaped "f"
  else if (n =? 10)%N then escaped "n" else if (n =? 13)%N then escaped "r" else if (n =? 9)%N then escaped "t"
  else if (n <? 32)%N || (n =? 60)%N || (n =? 62)%N || (n =? 38)%N then unicode_escape n
  else String c EmptyString.

(** Invalid bytes become U+FFFD; U+2028 and U+2029 are escaped. *)
Fixpoint escape_fuel (fuel : nat) (s : string) : string :=
  match fuel, s with
  | S k, String c rest =>
      if (N_of_ascii c <? 128)%N then (escape_char c ++ escape_fuel k rest)%string
      else match utf8_len s with
      | O => (escaped "u" ++ "fffd" ++ escape_fuel k rest)%string
      | n =>
          let rune := take n s in
          let text := if String.eqb rune (String "226" (String "128" (String "168" EmptyString))) then (escaped "u" ++ "2028")%string
                      else if String.eqb rune (String "226" (String "128" (String "169" EmptyString))) then (escaped "u" ++ "2029")%string
                      else rune in
          (text ++ escape_fuel k (drop n s))%string
      end
  | _, _ => EmptyString
  end.
Definition quoted (s : string) : string :=
  (String quote (escape_fuel (String.length s) s) ++ String quote EmptyString)%string.

Fixpoint commas (l : list string) : string :=
  match l with [] => EmptyString | [s] => s | s :: rest => (s ++ "," ++ commas rest)%string end.
Definition object (fields : list (string * string)) : string :=
  ("{" ++ commas (map (fun kv => quoted (fst kv) ++ ":" ++ snd kv)%string fields) ++ "}")%string.
Definition array (items : list string) : string := ("[" ++ commas items ++ "]")%string.

(** ** Reading back *)

(** One character of a quoted string, and what follows. *)
Definition unescape (s : string) : option (ascii * string) :=
  match s with
  | String c rest =>
      if Ascii.eqb c backslash then
        match rest with
        | String e tail =>
            if Ascii.eqb e "u" then
              match tail with
              | String _ (String _ (String h (String l more))) =>
                  match hex_value h, hex_value l with
                  | Some x, Some y => Some (ascii_of_N (16 * x + y), more)
                  | _, _ => None
                  end
              | _ => None
              end
            else if Ascii.eqb e "b" then Some (ascii_of_N 8, tail) else if Ascii.eqb e "f" then Some (ascii_of_N 12, tail)
            else if Ascii.eqb e "n" then Some (ascii_of_N 10, tail) else if Ascii.eqb e "r" then Some (ascii_of_N 13, tail)
            else if Ascii.eqb e "t" then Some (ascii_of_N 9, tail) else Some (e, tail)
        | EmptyString => None
        end
      else Some (c, rest)
  | EmptyString => None
  end.

Lemma unescape_escape c rest : unescape (escape_char c ++ rest) = Some (c, rest).
Proof. destruct c as [[] [] [] [] [] [] [] []]; reflexivity. Qed.

(** No character is written as text that starts with the closing quote. *)
Lemma escape_not_quote c rest tail : (escape_char c ++ rest)%string <> String quote tail.
Proof. destruct c as [[] [] [] [] [] [] [] []]; discriminate. Qed.

Definition ascii_text (s : string) : Prop := forall c, c ∈ list_ascii_of_string s -> (N_of_ascii c < 128)%N.

Lemma ascii_text_cons c s : ascii_text (String c s) <-> (N_of_ascii c < 128)%N /\ ascii_text s.
Proof.
  unfold ascii_text. cbn [list_ascii_of_string]. setoid_rewrite elem_of_cons. split.
  - intros H. split; [apply H; by left|]. intros x Hx. apply H. by right.
  - intros [H1 H2] x [->|Hx]; auto.
Qed.

Lemma escape_fuel_cons c s : (N_of_ascii c < 128)%N ->
  escape_fuel (String.length (String c s)) (String c s) = (escape_char c ++ escape_fuel (String.length s) s)%string.
Proof. intros Hc. cbn [String.length escape_fuel]. by rewrite (proj2 (N.ltb_lt _ _) Hc). Qed.

Lemma escape_inj s s' r r' :
  ascii_text s -> ascii_text s' ->
  (escape_fuel (String.length s) s ++ String quote r)%string = (escape_fuel (String.length s') s' ++ String quote r')%string ->
  s = s' /\ r = r'.
Proof.
  revert s'. induction s as [|c s IH]; intros [|c' s'] Hs Hs'.
  - cbn [String.length escape_fuel]. rewrite !append_nil. intros [= ->]. done.
  - apply ascii_text_cons in Hs' as [Hc' _]. rewrite escape_fuel_cons, append_assoc by done. cbn [String.length escape_fuel].
    rewrite append_nil. intros E. symmetry in E. by apply escape_not_quote in E.
  - apply ascii_text_cons in Hs as [Hc _]. rewrite escape_fuel_cons, append_assoc by done. cbn [String.length escape_fuel].
    rewrite append_nil. intros E. by apply escape_not_quote in E.
  - apply ascii_text_cons in Hs as [Hc Hs]. apply ascii_text_cons in Hs' as [Hc' Hs'].
    rewrite !escape_fuel_cons, !append_assoc by done. intros E. apply (f_equal unescape) in E.
    rewrite !unescape_escape in E. injection E as -> E. by destruct (IH s' Hs Hs' E) as [-> ->].
Qed.

Lemma quoted_inj s s' r r' :
  ascii_text s -> ascii_text s' -> (quoted s ++ r)%string = (quoted s' ++ r')%string -> s = s' /\ r = r'.
Proof.
  intros Hs Hs'. unfold quoted. rewrite !append_cons, !append_assoc, !append_cons, !append_nil. intros [= E].
  by apply escape_inj.
Qed.

(** A list of quoted strings, up to the closing bracket. *)
Lemma strings_inj l l' r r' :
  Forall ascii_text l -> Forall ascii_text l' ->
  (array (map quoted l) ++ r)%string = (array (map quoted l') ++ r')%string -> l = l' /\ r = r'.
Proof.
  unfold array. rewrite !append_cons, !append_nil, !append_assoc. rewrite !append_cons, !append_nil. intros Hl Hl' [= E].
  revert l' Hl' E. induction l as [|x l IH]; intros [|x' l'] Hl' E.
  - by injection E as ->.
  - exfalso. destruct l'; cbn [map commas] in E; unfold quoted in E; rewrite ?append_assoc, ?append_cons in E; discriminate.
  - exfalso. destruct l; cbn [map commas] in E; unfold quoted in E; rewrite ?append_assoc, ?append_cons in E; discriminate.
  - inversion Hl as [|? ? Hx Hl0]; inversion Hl' as [|? ? Hx' Hl0']; subst.
    destruct l as [|y l], l' as [|y' l']; cbn [map commas] in E; rewrite ?append_assoc in E;
      apply quoted_inj in E as [-> E]; rewrite ?append_cons, ?append_nil in E; try done; injection E as E.
    + by subst.
    + destruct (IH Hl0 (y' :: l') Hl0' E) as [E1 ->]. by rewrite E1.
Qed.

(** A number in front of a character that is no digit. *)
Definition ends_number (s : string) : Prop := match s with String c _ => digit c = None | EmptyString => True end.

Lemma number_digits z r : 0 <= z < 2 ^ 63 -> ends_number r -> digits 0 false (FormatInt z ++ r) = Some (z, r).
Proof.
  intros Hz Hr. assert (E : (FormatInt z ++ r)%string = decimal 19 z r).
  { unfold FormatInt. destruct (Z.ltb_spec z 0); [lia|].
    assert (Hgen : forall fuel n acc, (decimal fuel n acc ++ r)%string = decimal fuel n (acc ++ r)).
    { induction fuel as [|k IH]; intros n acc; cbn [decimal]; [done|]. destruct (n <? 10); [done|]. apply IH. }
    apply Hgen. }
  rewrite E. destruct (digits_decimal 19 z r) as [p Hp]; [lia|lia|]. rewrite Hp.
  replace (0 * p + z) with z by lia. destruct r as [|c r]; cbn [digits]; [done|]. simpl in Hr. by rewrite Hr.
Qed.

Lemma number_inj z z' r r' :
  0 <= z < 2 ^ 63 -> 0 <= z' < 2 ^ 63 -> ends_number r -> ends_number r' ->
  (FormatInt z ++ r)%string = (FormatInt z' ++ r')%string -> z = z' /\ r = r'.
Proof.
  intros Hz Hz' Hr Hr' E. apply (f_equal (digits 0 false)) in E. rewrite !number_digits in E by done. by simplify_eq.
Qed.

(** ** Objects *)

(** What follows a value in an object. *)
Fixpoint more (fields : list (string * string)) : string :=
  match fields with
  | [] => "}"%string
  | (k, v) :: rest => ("," ++ quoted k ++ ":" ++ v ++ more rest)%string
  end.

Lemma commas_cons x y l : commas (x :: y :: l) = (x ++ "," ++ commas (y :: l))%string.
Proof. reflexivity. Qed.

Lemma object_text k v rest : object ((k, v) :: rest) = ("{" ++ quoted k ++ ":" ++ v ++ more rest)%string.
Proof.
  unfold object. f_equal. revert k v. induction rest as [|[k' v'] rest IH]; intros k v.
  - cbn [map commas more fst snd]. by rewrite !append_assoc.
  - cbn [more]. rewrite <- IH. cbn [map fst snd].
    rewrite commas_cons.
    by rewrite !append_assoc.
Qed.

Lemma more_inj k v rest k' v' rest' :
  ascii_text k -> ascii_text k' -> more ((k, v) :: rest) = more ((k', v') :: rest') ->
  k = k' /\ (v ++ more rest)%string = (v' ++ more rest')%string.
Proof.
  intros Hk Hk' E. cbn [more] in E. apply string_tail in E. apply quoted_inj in E as [-> E]; [|done|done].
  by apply string_tail in E.
Qed.

Lemma more_ends fields : ends_number (more fields).
Proof. by destruct fields as [|[k v] rest]. Qed.

(** A field left out when there is no value ([omitempty]). *)
Definition optional {A} (k : string) (encode : A -> string) (o : option A) : list (string * string) :=
  match o with Some a => [(k, encode a)] | None => [] end.

Definition other_keys (k : string) (fields : list (string * string)) : Prop :=
  Forall (fun kv => ascii_text (fst kv) /\ fst kv <> k) fields.

Lemma optional_inj {A} k (encode : A -> string) o o' rest rest' :
  ascii_text k -> other_keys k rest -> other_keys k rest' ->
  (forall a a', o = Some a -> o' = Some a' -> (encode a ++ more rest)%string = (encode a' ++ more rest')%string ->
     a = a' /\ more rest = more rest') ->
  more (optional k encode o ++ rest) = more (optional k encode o' ++ rest') -> o = o' /\ more rest = more rest'.
Proof.
  intros Hk Hr Hr' Henc. destruct o as [a|], o' as [a'|]; cbn [optional app].
  - intros E. apply more_inj in E as [_ E]; [|done|done]. by destruct (Henc a a' eq_refl eq_refl E) as [-> ->].
  - intros E. destruct rest' as [|[k' v'] rest']; [done|]. inversion Hr' as [|? ? [Ha Hn] _]; subst.
    by apply more_inj in E as [<- _].
  - intros E. destruct rest as [|[k' v'] rest]; [done|]. inversion Hr as [|? ? [Ha Hn] _]; subst.
    by apply more_inj in E as [-> _].
  - done.
Qed.
