(* ===== verification/Calendar.v ===== *)
(** * Dates and times as text

    [time.Time.Format] for the layouts the code uses, at or after Go's zero
    time and in UTC: "2006/01/02" and RFC 3339.  The text determines the
    instant up to the second. *)

From S2P Require Import Prelude Sha256 GoText TextFacts JsonText.

(** ** Formatting *)

Definition pad (width : nat) (n : Z) : string :=
  let fix go (w : nat) (n : Z) (acc : string) : string :=
    match w with O => acc | S k => go k (n / 10) (String (ascii_of_N (Z.to_N (48 + n mod 10))) acc) end in
  go width n EmptyString.

(** Day of the year to month and day of the month. *)
Fixpoint month_of (lengths : list Z) (month day : Z) : Z * Z :=
  match lengths with
  | [] => (month, day + 1)
  | n :: rest => if day <? n then (month, day + 1) else month_of rest (month + 1) (day - n)
  end.

(** Year, month and day of an instant at or after Go's zero time. *)
Definition civil (t : Time) : Z * Z * Z :=
  let days := t / (24 * Hour) in
  let n400 := days / 146097 in let d := days mod 146097 in
  let n100 := Z.min 3 (d / 36524) in let d := d - 36524 * n100 in
  let n4 := d / 1461 in let d := d mod 1461 in
  let n1 := Z.min 3 (d / 365) in let d := d - 365 * n1 in
  let leap := (n1 =? 3) && (negb (n4 =? 24) || (n100 =? 3)) in
  let '(month, day) := month_of [31; if leap then 29 else 28; 31; 30; 31; 30; 31; 31; 30; 31; 30] 1 d in
  (400 * n400 + 100 * n100 + 4 * n4 + n1 + 1, month, day).

Definition date_path (t : Time) : string :=
  let '(y, m, d) := civil t in (pad 4 y ++ "/" ++ pad 2 m ++ "/" ++ pad 2 d)%string.

Example date_path_example :
  date_path ((739868 * 24 + 23) * Hour) = "2026/09/10"%string /\ date_path 0 = "0001/01/01"%string /\
  date_path (738978 * 24 * Hour) = "2024/04/03"%string /\ date_path (738943 * 24 * Hour) = "2024/02/28"%string /\
  date_path (738944 * 24 * Hour) = "2024/02/29"%string.
Proof. vm_compute. done. Qed.

(** [Format(time.RFC3339)] *)
Definition RFC3339 (t : Time) : string :=
  let '(y, m, d) := civil t in
  (pad 4 y ++ "-" ++ pad 2 m ++ "-" ++ pad 2 d ++ "T" ++ pad 2 (t / Hour mod 24) ++ ":" ++ pad 2 (t / Minute mod 60)
   ++ ":" ++ pad 2 (t / Second mod 60) ++ "Z")%string.

Example RFC3339_example : RFC3339 ((739868 * 24 + 23) * Hour + 61 * Second) = "2026-09-10T23:01:01Z"%string.
Proof. vm_compute. done. Qed.

(** ** The day is determined *)

Fixpoint before_month (lengths : list Z) (k : nat) : Z :=
  match k, lengths with S k, n :: rest => n + before_month rest k | _, _ => 0 end.

Lemma month_of_before lengths month day m d :
  month_of lengths month day = (m, d) -> month <= m /\ day = before_month lengths (Z.to_nat (m - month)) + d - 1.
Proof.
  revert month day. induction lengths as [|n rest IH]; intros month day; simpl.
  - intros [= <- <-]. rewrite Z.sub_diag. simpl. lia.
  - destruct (Z.ltb_spec day n).
    + intros [= <- <-]. rewrite Z.sub_diag. simpl. lia.
    + intros E. apply IH in E as [Hm E]. split; [lia|]. replace (Z.to_nat (m - month)) with (S (Z.to_nat (m - (month + 1)))) by lia.
      simpl. lia.
Qed.

(** The parts of a day number: cycles of 400, 100, 4 and 1 years, and the day. *)
Definition parts (days : Z) : Z * Z * Z * Z * Z :=
  let n400 := days / 146097 in let d := days mod 146097 in
  let n100 := Z.min 3 (d / 36524) in let d := d - 36524 * n100 in
  let n4 := d / 1461 in let d := d mod 1461 in
  let n1 := Z.min 3 (d / 365) in
  (n400, n100, n4, n1, d - 365 * n1).

Definition month_lengths (n100 n4 n1 : Z) : list Z :=
  let leap := (n1 =? 3) && (negb (n4 =? 24) || (n100 =? 3)) in
  [31; if leap then 29 else 28; 31; 30; 31; 30; 31; 31; 30; 31; 30].

Lemma civil_parts t :
  civil t = let '(n400, n100, n4, n1, d) := parts (t / (24 * Hour)) in
            let '(m, d) := month_of (month_lengths n100 n4 n1) 1 d in
            (400 * n400 + 100 * n100 + 4 * n4 + n1 + 1, m, d).
Proof. reflexivity. Qed.

Lemma parts_spec days n400 n100 n4 n1 d :
  parts days = (n400, n100, n4, n1, d) ->
  0 <= n100 < 4 /\ 0 <= n4 < 25 /\ 0 <= n1 < 4 /\ 0 <= d < 366 /\
  days = 146097 * n400 + 36524 * n100 + 1461 * n4 + 365 * n1 + d.
Proof.
  unfold parts. cbv zeta. intros [= <- <- <- <- <-].
  pose proof (Z.div_mod days 146097). pose proof (Z.mod_pos_bound days 146097).
  set (d1 := days mod 146097) in *. pose proof (Z.div_mod d1 36524). pose proof (Z.mod_pos_bound d1 36524).
  pose proof (Z.div_pos d1 36524).
  set (n100 := Z.min 3 (d1 / 36524)) in *. set (d2 := d1 - 36524 * n100) in *.
  assert (0 <= d2 <= 36524) by (unfold d2, n100; destruct (Z.min_spec 3 (d1 / 36524)) as [[? ->]|[? ->]]; lia).
  pose proof (Z.div_mod d2 1461). pose proof (Z.mod_pos_bound d2 1461). pose proof (Z.div_pos d2 1461).
  pose proof (Z.div_lt_upper_bound d2 1461 25).
  set (d3 := d2 mod 1461) in *. pose proof (Z.div_mod d3 365). pose proof (Z.mod_pos_bound d3 365). pose proof (Z.div_pos d3 365).
  set (n1 := Z.min 3 (d3 / 365)) in *. assert (0 <= n100 < 4) by lia. assert (0 <= n1 < 4) by lia.
  split; [done|]. split; [lia|]. split; [done|]. split; [|lia].
  unfold n1. destruct (Z.min_spec 3 (d3 / 365)) as [[? ->]|[? ->]]; lia.
Qed.

Lemma civil_inj t t' : civil t = civil t' -> t / (24 * Hour) = t' / (24 * Hour).
Proof.
  rewrite !civil_parts. destruct (parts (t / (24 * Hour))) as [[[[a b] c] e] d] eqn:E.
  destruct (parts (t' / (24 * Hour))) as [[[[a' b'] c'] e'] d'] eqn:E'.
  apply parts_spec in E as (H1 & H2 & H3 & H4 & ->). apply parts_spec in E' as (H1' & H2' & H3' & H4' & ->).
  destruct (month_of (month_lengths b c e) 1 d) as [m k] eqn:M. destruct (month_of (month_lengths b' c' e') 1 d') as [m' k'] eqn:M'.
  intros [= Hy Hm Hk]. assert (a = a') by lia. assert (b = b') by lia. assert (c = c') by lia. assert (e = e') by lia. subst.
  apply month_of_before in M as [_ ->]. apply month_of_before in M' as [_ ->]. done.
Qed.

(** ** The text determines the instant *)

Lemma pad_digits w n r a seen :
  0 <= n < 10 ^ Z.of_nat w -> (0 < w)%nat -> digits a seen (pad w n ++ r) = digits (a * 10 ^ Z.of_nat w + n) true r.
Proof.
  unfold pad. match goal with |- context [?f w n EmptyString] => set (go := f) end.
  assert (Hgo : forall w n acc a seen, 0 <= n < 10 ^ Z.of_nat w -> (0 < w)%nat ->
            digits a seen (go w n acc ++ r) = digits (a * 10 ^ Z.of_nat w + n) true (acc ++ r)).
  { clear. induction w as [|w IH]; intros n acc a seen Hn Hw; [lia|].
    change (go (S w) n acc) with (go w (n / 10) (String (digit_text (n mod 10)) acc)).
    rewrite Nat2Z.inj_succ, Z.pow_succ_r in * by lia.
    pose proof (Z.div_mod n 10) as Hd. pose proof (Z.mod_pos_bound n 10) as Hm.
    destruct w as [|w].
    - change (go 0%nat (n / 10) (String (digit_text (n mod 10)) acc)) with (String (digit_text (n mod 10)) acc).
      rewrite append_cons. cbn [digits]. rewrite digit_of_text by lia. f_equal. rewrite Z.mod_small by lia. simpl. lia.
    - rewrite IH; [|split; [by apply Z.div_pos; lia|apply Z.div_lt_upper_bound; lia]|lia].
      rewrite append_cons. cbn [digits]. rewrite digit_of_text by lia. f_equal. lia. }
  intros. by rewrite Hgo.
Qed.

Lemma pad_inj w n n' r r' :
  (0 < w)%nat -> 0 <= n < 10 ^ Z.of_nat w -> 0 <= n' < 10 ^ Z.of_nat w -> ends_number r -> ends_number r' ->
  (pad w n ++ r)%string = (pad w n' ++ r')%string -> n = n' /\ r = r'.
Proof.
  intros Hw Hn Hn' Hr Hr' E. apply (f_equal (digits 0 false)) in E. rewrite !pad_digits in E by done.
  assert (Hend : forall z s, ends_number s -> digits z true s = Some (z, s)).
  { intros z [|c s]; cbn [digits]; [done|]. simpl. by intros ->. }
  rewrite !Hend in E by done. simplify_eq. split; [lia|done].
Qed.

Lemma pad_sep w n n' c r r' :
  (0 < w)%nat -> 0 <= n < 10 ^ Z.of_nat w -> 0 <= n' < 10 ^ Z.of_nat w -> digit c = None ->
  (pad w n ++ String c r)%string = (pad w n' ++ String c r')%string -> n = n' /\ r = r'.
Proof. intros Hw Hn Hn' Hc E. apply pad_inj in E as [-> [= ->]]; done. Qed.

Lemma digit_text_ascii n : 0 <= n < 10 -> (N_of_ascii (digit_text n) < 128)%N.
Proof.
  intros Hn. pattern n. apply digit_cases; [|exact Hn]. intros k Hk. do 10 (destruct k as [|k]; [reflexivity|]). lia.
Qed.

Lemma pad_ascii w n : ascii_text (pad w n).
Proof.
  unfold pad. match goal with |- context [?f w n EmptyString] => set (go := f) end.
  assert (Hgo : forall w n acc, ascii_text acc -> ascii_text (go w n acc)); [|apply Hgo; intros c Hc; by apply elem_of_nil in Hc].
  clear. induction w as [|w IH]; intros n acc Hacc; [done|].
  change (go (S w) n acc) with (go w (n / 10) (String (digit_text (n mod 10)) acc)). apply IH, ascii_text_cons.
  split; [by apply digit_text_ascii, Z.mod_pos_bound|done].
Qed.

#[local] Opaque pad.

Lemma month_of_bounds lengths month day m k :
  month_of lengths month day = (m, k) -> 0 <= day -> Forall (fun n => n <= 31) lengths ->
  month <= m <= month + Z.of_nat (length lengths) /\ 1 <= k /\ (k <= 31 \/ k = day + 1 - before_month lengths (length lengths)).
Proof.
  revert month day. induction lengths as [|n rest IH]; intros month day E Hd Hl; simpl in *.
  - injection E as <- <-. lia.
  - inversion Hl; subst. destruct (Z.ltb_spec day n).
    + injection E as <- <-. lia.
    + destruct (IH _ _ E) as (Hb1 & Hb2 & Hb3); [lia|done|]. lia.
Qed.

(** The first instant of year 10000. *)
Definition year_10000 : Time := 315537897600 * Second.

Lemma civil_bounds t y m d :
  0 <= t < year_10000 -> civil t = (y, m, d) -> 0 <= y < 10 ^ 4 /\ 0 <= m < 10 ^ 2 /\ 0 <= d < 10 ^ 2.
Proof.
  intros Ht. rewrite civil_parts. destruct (parts (t / (24 * Hour))) as [[[[a b] c] e] k] eqn:E.
  assert (Hdays : 0 <= t / (24 * Hour) < 3652059).
  { split; [apply Z.div_pos; [lia|done]|]. apply Z.div_lt_upper_bound; [done|]. unfold year_10000, Hour, Minute, Second in *. lia. }
  apply parts_spec in E as (Hb & Hc & He & Hk & Heq).
  destruct (month_of (month_lengths b c e) 1 k) as [m' k'] eqn:M. intros [= <- <- <-].
  apply month_of_bounds in M as (H1 & H2 & H3); [|lia|unfold month_lengths; destruct (_ && _); repeat constructor; lia].
  assert (before_month (month_lengths b c e) (length (month_lengths b c e)) >= 334) by (unfold month_lengths; destruct (_ && _); simpl; lia).
  assert (Z.of_nat (length (month_lengths b c e)) = 11) by reflexivity.
  split; [lia|]. split; lia.
Qed.

Lemma RFC3339_inj t t' :
  0 <= t < year_10000 -> 0 <= t' < year_10000 -> t mod Second = 0 -> t' mod Second = 0 ->
  RFC3339 t = RFC3339 t' -> t = t'.
Proof.
  intros Ht Ht' Hs Hs'. unfold RFC3339. destruct (civil t) as [[y m] d] eqn:C, (civil t') as [[y' m'] d'] eqn:C'.
  pose proof (civil_bounds _ _ _ _ Ht C) as (? & ? & ?). pose proof (civil_bounds _ _ _ _ Ht' C') as (? & ? & ?). intros E.
  assert (Hm : forall a b, 0 < b -> 0 <= a mod b < b) by (intros; by apply Z.mod_pos_bound).
  assert (forall a, 0 <= a mod 24 < 10 ^ Z.of_nat 2) by (intros a; specialize (Hm a 24); simpl; lia).
  assert (forall a, 0 <= a mod 60 < 10 ^ Z.of_nat 2) by (intros a; specialize (Hm a 60); simpl; lia).
  apply pad_sep in E as [-> E]; [|lia|done..]. apply pad_sep in E as [-> E]; [|lia|done..].
  apply pad_sep in E as [-> E]; [|lia|done..]. apply pad_sep in E as [Hh E]; [|lia|auto|auto|done].
  apply pad_sep in E as [Hmi E]; [|lia|auto|auto|done]. apply pad_sep in E as [Hse _]; [|lia|auto|auto|done].
  assert (Hday : t / (24 * Hour) = t' / (24 * Hour)) by (apply civil_inj; congruence).
  assert (Hdiv : forall a b c, 0 < b -> 0 < c -> a / b = c * (a / (b * c)) + a / b mod c).
  { intros a b c ? ?. rewrite <- Z.div_div by lia. apply Z.div_mod. lia. }
  pose proof (Z.div_mod t Second ltac:(done)). pose proof (Z.div_mod t' Second ltac:(done)).
  assert (t / Second = t' / Second); [|lia].
  rewrite (Hdiv t Second 60), (Hdiv t' Second 60), Hse by done. do 2 f_equal.
  change (Second * 60) with Minute. rewrite (Hdiv t Minute 60), (Hdiv t' Minute 60), Hmi by done. do 2 f_equal.
  change (Minute * 60) with Hour. rewrite (Hdiv t Hour 24), (Hdiv t' Hour 24), Hh by done. do 2 f_equal.
  by rewrite (Z.mul_comm Hour 24).
Qed.

Lemma ascii_all s : all_chars (fun c => (N_of_ascii c <? 128)%N) s = true -> ascii_text s.
Proof. rewrite all_chars_elem. intros H c Hc. apply N.ltb_lt. by apply H. Qed.

Lemma ascii_append a b : ascii_text a -> ascii_text b -> ascii_text (a ++ b).
Proof. intros Ha Hb c. rewrite elem_append. intros [?|?]; auto. Qed.

Lemma RFC3339_ascii t : ascii_text (RFC3339 t).
Proof.
  unfold RFC3339. destruct (civil t) as [[y m] d].
  repeat first [apply ascii_append; [first [apply pad_ascii|by apply ascii_all]|]|by apply ascii_all].
Qed.
