(* ===== verification/Delivery.v ===== *)
(** * Delivery policy: [internal/delivery]

    [Decide] turns the immutable SMTP evidence of one recipient attempt into
    a decision (accept, retry, give up, hold for an operator), and
    [ProviderOutcome] attributes an attempt to provider health.  Both are
    pure.  The theorems state the policy the rest of the system relies on:
    anything that may have been accepted remotely is never retried, a
    failover permission implies that no DATA was transmitted, and retries are
    bounded in number, delay and time. *)

From S2P Require Import Prelude Sha256.

(** ** Status vocabulary

    [internal/smtpclient/result.go] names the outcomes of a recipient or an
    attempt; the other names are the further values of the [status] columns
    of [messages] and [recipients] and of [delivery_attempts.result].  The
    code only ever writes these constants; [NoStatus] is Go's empty string. *)

Inductive Status :=
  | NoStatus
  | SMTP_ACCEPTED | TEMP_FAILED | PERM_FAILED | DELIVERY_UNKNOWN | PARTIAL_ACCEPTED
  | RCPT_ACCEPTED | READY | IN_PROGRESS
  | QUEUED | SENDING | BOUNCED | DELIVERED | SUPPRESSED | CANCELLED | EXPIRED
  | SANDBOX_STORED.

#[export] Instance Status_eq_dec : EqDecision Status.
Proof. solve_decision. Defined.

Definition status_is (s t : Status) : bool := bool_decide (s = t).

Lemma status_is_true (s t : Status) : status_is s t = true <-> s = t.
Proof. apply bool_decide_eq_true. Qed.
Lemma status_is_false (s t : Status) : status_is s t = false <-> s <> t.
Proof. apply bool_decide_eq_false. Qed.
#[export] Hint Rewrite status_is_true status_is_false : relay.

(** ** Decisions: [internal/delivery/decision.go] *)

Inductive Action := Accept | Expire | Resume | Retry | Permanent | Unknown | Manual.

#[export] Instance Action_eq_dec : EqDecision Action.
Proof. solve_decision. Defined.

Definition MaxAttempts : Z := 7.
Definition Window : Z := 24 * Hour.

Record Evidence := MkEvidence {
  ev_Stage : string;
  ev_ErrorClass : string;
  ev_Status : Status;
  ev_Code : Z;
  ev_FinalCode : Z;
  ev_FinalResponse : bool;
  ev_BodyStarted : bool }.

Record Decision := MkDecision {
  d_Version : Z;
  d_Action : Action;
  d_Reason : string;
  d_Scope : string;
  d_RetryAfter : Z;
  d_MayHaveDelivered : bool;
  d_FailoverAllowed : bool;
  d_Terminal : bool }.

#[export] Instance eta_Decision : Eta Decision := fun d =>
  MkDecision (d_Version d) (d_Action d) (d_Reason d) (d_Scope d) (d_RetryAfter d)
    (d_MayHaveDelivered d) (d_FailoverAllowed d) (d_Terminal d).

Record Budget := MkBudget {
  b_Attempts : Z;
  b_StartedAt : Time;
  b_Now : Time;
  b_Seed : string }.

Definition in_range (lo hi c : Z) : bool := (lo <=? c) && (c <? hi).

Definition safe_prefixes : list string :=
  ["DNS_"; "CONNECT_"; "TLS_"; "STARTTLS_"; "SMTP_GREETING_"; "EHLO_"; "AUTH_CONNECTION_"]%string.

Definition safeTemporary (e : Evidence) : bool :=
  if in_range 400 500 (ev_Code e) then true
  else if ev_FinalResponse e && in_range 400 500 (ev_FinalCode e) then true
  else if existsb (HasPrefix (ev_ErrorClass e)) safe_prefixes then true
  else String.eqb (ev_ErrorClass e) "CONNECTION_RESET" && negb (ev_BodyStarted e).

Definition hash16 (seed : string) : Z :=
  match Sha.Sum256 (bytes_of seed) with
  | a :: b :: _ => Z.of_N (Byte.to_N a) * 256 + Z.of_N (Byte.to_N b)
  | _ => 0
  end.

(** The jitter factor in thousandths: a uint16 in 800..1200. *)
Definition jitter (seed : string) : Z := 800 + hash16 seed mod 401.

Definition retryBase (attempts : Z) : Z :=
  let base := i64 (Minute * i64 (Z.shiftl 1 (2 * (attempts - 1)))) in
  if 12 * Hour <? base then 12 * Hour else base.

Definition retryDelay (attempts : Z) (seed : string) : Z :=
  Z.quot (i64 (retryBase attempts * jitter seed)) 1000.

(** The tail of [Decide], reached by the retryable cases only. *)
Definition applyBudget (d : Decision) (b : Budget) : Decision :=
  let manual reason :=
    d <| d_Action := Manual |> <| d_FailoverAllowed := false |> <| d_Reason := reason |> in
  if (b_Attempts b <? 1) || IsZero (b_StartedAt b) || Before (b_Now b) (b_StartedAt b)
  then manual "INVALID_RETRY_BUDGET"%string
  else if (MaxAttempts <=? b_Attempts b) || negb (Before (b_Now b) (b_StartedAt b + Window))
  then manual "RETRY_BUDGET_EXHAUSTED"%string
  else
    let delay := retryDelay (b_Attempts b) (b_Seed b) in
    if negb (Before (b_Now b + delay) (b_StartedAt b + Window))
    then (manual "RETRY_WINDOW_EXHAUSTED"%string) <| d_RetryAfter := 0 |>
    else d <| d_RetryAfter := delay |>.

Arguments applyBudget : simpl never.

Definition Decide (e : Evidence) (b : Budget) : Decision :=
  let d := MkDecision 2 Manual "UNCLASSIFIED_EVIDENCE" "unknown" 0 false false false in
  let rcRejected := String.eqb (ev_Stage e) "RCPT_REJECTED" && in_range 400 600 (ev_Code e) in
  let final2xx := ev_FinalResponse e && in_range 200 300 (ev_FinalCode e) in
  if status_is (ev_Status e) SMTP_ACCEPTED && final2xx then
    d <| d_Action := Accept |> <| d_Reason := "FINAL_2XX" |> <| d_Terminal := true |>
      <| d_MayHaveDelivered := true |> <| d_Scope := "none" |>
  else if (negb rcRejected && final2xx && negb (status_is (ev_Status e) SMTP_ACCEPTED))
       || status_is (ev_Status e) DELIVERY_UNKNOWN
       || (negb rcRejected && ev_BodyStarted e
           && negb (ev_FinalResponse e && in_range 400 600 (ev_FinalCode e))) then
    d <| d_Action := Unknown |> <| d_Reason := "REMOTE_ACCEPTANCE_UNCERTAIN" |>
      <| d_MayHaveDelivered := true |>
  else if rcRejected then
    let d := d <| d_Scope := "recipient" |> <| d_Reason := "RCPT_REJECTED" |> in
    if 500 <=? ev_Code e
    then d <| d_Action := Permanent |> <| d_Terminal := true |>
    else applyBudget (d <| d_Action := Retry |>) b
  else if String.eqb (ev_ErrorClass e) "AUTH_ERROR" && in_range 400 500 (ev_Code e) then
    applyBudget (d <| d_Action := Retry |> <| d_Reason := "AUTH_TEMPORARY_FAILURE" |>
                   <| d_Scope := "provider" |>) b
  else if one_of (ev_ErrorClass e) ["AUTH_ERROR"; "CREDENTIAL_DECRYPTION_ERROR"]%string then
    d <| d_Reason := "CONFIG_ERROR" |> <| d_Scope := "configuration" |>
  else if one_of (ev_ErrorClass e) ["LOCAL_STORAGE_ERROR"; "DATABASE_ERROR"; "RECORDER_ERROR"]%string then
    d <| d_Reason := ev_ErrorClass e |> <| d_Scope := "local" |>
  else if one_of (ev_ErrorClass e) ["INVALID_EML"; "INVALID_ENVELOPE"]%string then
    d <| d_Reason := ev_ErrorClass e |> <| d_Scope := "message" |>
  else if status_is (ev_Status e) PERM_FAILED
       && one_of (ev_Stage e) ["SMTP_GREETING_ERROR"; "EHLO_ERROR"; "STARTTLS_ERROR"]%string then
    d <| d_Reason := "PROVIDER_SETUP_REJECTED" |> <| d_Scope := "provider" |>
  else if status_is (ev_Status e) PERM_FAILED
       && (in_range 500 600 (ev_Code e)
           || (ev_FinalResponse e && in_range 500 600 (ev_FinalCode e))) then
    d <| d_Action := Permanent |> <| d_Reason := "EXPLICIT_5XX" |> <| d_Scope := "message" |>
      <| d_Terminal := true |>
  else if status_is (ev_Status e) TEMP_FAILED && safeTemporary e then
    applyBudget
      (d <| d_Action := Retry |> <| d_Reason := ev_ErrorClass e |> <| d_Scope := "provider" |>
         <| d_FailoverAllowed :=
              negb (ev_BodyStarted e) && negb (ev_FinalResponse e)
              && (((ev_Code e =? 0)
                   && one_of (ev_Stage e) ["DNS_ERROR"; "CONNECT_ERROR"; "TLS_ERROR"]%string)
                  || (String.eqb (ev_Stage e) "DATA_REJECTED" && in_range 400 500 (ev_Code e))) |>) b
  else d.

(** ** Provider health attribution: [internal/delivery/health.go] *)

Inductive Outcome := SUCCESS | FAILURE | IGNORED.

#[export] Instance Outcome_eq_dec : EqDecision Outcome.
Proof. solve_decision. Defined.

Definition failure_prefixes : list string :=
  ["DNS_"; "CONNECT_"; "TLS_"; "STARTTLS_"; "SMTP_GREETING_"; "EHLO_"; "AUTH_CONNECTION_";
   "DATA_WRITE_"; "FINAL_RESPONSE_UNKNOWN"; "FINAL_RESPONSE_TIMEOUT"]%string.

Definition ProviderOutcome (e : Evidence) : Outcome :=
  if ev_FinalResponse e && in_range 200 300 (ev_FinalCode e)
     && (status_is (ev_Status e) SMTP_ACCEPTED || status_is (ev_Status e) PARTIAL_ACCEPTED)
  then SUCCESS
  else if one_of (ev_ErrorClass e)
            ["LOCAL_STORAGE_ERROR"; "DATABASE_ERROR"; "RECORDER_ERROR"; "INVALID_EML";
             "INVALID_ENVELOPE"; "CREDENTIAL_DECRYPTION_ERROR"]%string
  then IGNORED
  else if String.eqb (ev_ErrorClass e) "AUTH_ERROR"
  then if in_range 400 500 (ev_Code e) then FAILURE else IGNORED
  else if existsb (HasPrefix (ev_ErrorClass e)) failure_prefixes then FAILURE
  else if String.eqb (ev_ErrorClass e) "CONNECTION_RESET" then FAILURE
  else if one_of (ev_Stage e) ["DATA_REJECTED"; "FINAL_RESPONSE_ERROR"]%string
          && in_range 400 500 (ev_Code e)
  then FAILURE
  else IGNORED.

(** ** The policy *)

(** The SMTP server refused this recipient at RCPT time with a 4xx or 5xx. *)
Definition rcpt_rejected (e : Evidence) : bool :=
  String.eqb (ev_Stage e) "RCPT_REJECTED" && in_range 400 600 (ev_Code e).

(** The final reply after DATA has a code in [lo..hi). *)
Definition final_in (lo hi : Z) (e : Evidence) : bool :=
  ev_FinalResponse e && in_range lo hi (ev_FinalCode e).

(** The remote server may have taken responsibility for the message: the
    outcome is recorded as uncertain, a final 2xx was received, or the body
    was started and no final 4xx or 5xx arrived.  An explicit RCPT rejection
    of this recipient outranks the last two. *)
Definition may_be_accepted (e : Evidence) : bool :=
  status_is (ev_Status e) DELIVERY_UNKNOWN
  || (final_in 200 300 e && (status_is (ev_Status e) SMTP_ACCEPTED || negb (rcpt_rejected e)))
  || (ev_BodyStarted e && negb (final_in 400 600 e) && negb (rcpt_rejected e)).

Lemma in_range_true lo hi c : in_range lo hi c = true <-> lo <= c < hi.
Proof. unfold in_range. bsimpl. lia. Qed.
Lemma in_range_false lo hi c : in_range lo hi c = false <-> ~ lo <= c < hi.
Proof. rewrite <- in_range_true. by destruct (in_range lo hi c). Qed.
#[export] Hint Rewrite in_range_true in_range_false : relay.

Lemma jitter_bounds (seed : string) : 800 <= jitter seed <= 1200.
Proof. unfold jitter. pose proof (Z.mod_pos_bound (hash16 seed) 401). lia. Qed.

Lemma retryBase_table (a : Z) :
  1 <= a < MaxAttempts ->
  retryBase a = Z.min (Minute * 4 ^ (a - 1)) (12 * Hour) /\ Minute <= retryBase a <= 12 * Hour.
Proof.
  intros Ha. unfold MaxAttempts in Ha.
  assert (a = 1 \/ a = 2 \/ a = 3 \/ a = 4 \/ a = 5 \/ a = 6) as Hcases by lia.
  destruct Hcases as [-> | [-> | [-> | [-> | [-> | ->]]]]]; (split; [reflexivity|]); vm_compute; split; discriminate.
Qed.

(** The 64-bit product of the delay does not overflow. *)
Lemma retryDelay_exact (a : Z) (seed : string) :
  1 <= a < MaxAttempts -> retryDelay a seed = retryBase a * jitter seed / 1000.
Proof.
  intros Ha. destruct (retryBase_table a Ha) as [_ Hb]. pose proof (jitter_bounds seed) as Hj.
  unfold retryDelay. rewrite i64_small.
  - rewrite Z.quot_div_nonneg; [done| |lia]. unfold Minute, Second in Hb. nia.
  - unfold Hour, Minute, Second in Hb. nia.
Qed.

Lemma applyBudget_retry (d : Decision) (b : Budget) :
  d_Action (applyBudget d b) = Retry ->
  1 <= b_Attempts b < MaxAttempts /\ b_StartedAt b <= b_Now b /\
  d_RetryAfter (applyBudget d b) = retryDelay (b_Attempts b) (b_Seed b) /\
  b_Now b + d_RetryAfter (applyBudget d b) < b_StartedAt b + Window.
Proof.
  unfold applyBudget, Before, IsZero. repeat case_goal; simpl; bsimpl; try done. lia.
Qed.

Lemma applyBudget_frame (d : Decision) (b : Budget) :
  d_MayHaveDelivered (applyBudget d b) = d_MayHaveDelivered d /\
  d_Terminal (applyBudget d b) = d_Terminal d /\
  d_Version (applyBudget d b) = d_Version d /\
  d_Scope (applyBudget d b) = d_Scope d /\
  (d_Action (applyBudget d b) = d_Action d \/ d_Action (applyBudget d b) = Manual) /\
  (d_FailoverAllowed (applyBudget d b) = true ->
   d_FailoverAllowed d = true /\ d_Action (applyBudget d b) = d_Action d).
Proof. unfold applyBudget. repeat case_goal; simpl; naive_solver. Qed.

(** Case analysis on the branches of [Decide], with the tests it shares with
    the policy predicates folded and named.  [use_budget] replaces the
    [applyBudget] of a retryable branch by what the two lemmas above say. *)
Ltac use_budget :=
  match goal with
  | |- context [applyBudget ?d ?b] =>
      destruct (applyBudget_frame d b) as (Hmay & Hterm & Hver & Hscope & Hact & Hfail);
      pose proof (applyBudget_retry d b) as Hretry;
      let d' := fresh "d'" in
      set (d' := applyBudget d b) in *; clearbody d';
      simpl in Hmay, Hterm, Hver, Hscope, Hact, Hfail, Hretry
  end.

Tactic Notation "split_if" "as" ident(H) :=
  match goal with |- context [if ?c then _ else _] => destruct c eqn:H end.

Ltac decide_cases e :=
  unfold Decide;
  fold (rcpt_rejected e) (final_in 200 300 e) (final_in 400 600 e) (final_in 500 600 e);
  split_if as Haccepted;
  [| split_if as Huncertain; [| split_if as Hrcpt; [split_if as Hcode |]]];
  repeat match goal with |- context [if ?c then _ else _] => destruct c end;
  try use_budget; simpl.

(** Boolean case analysis on the tests that decide uncertainty. *)
Ltac policy_cases e :=
  destruct (rcpt_rejected e), (final_in 200 300 e), (ev_BodyStarted e), (final_in 400 600 e),
    (status_is (ev_Status e) SMTP_ACCEPTED), (status_is (ev_Status e) DELIVERY_UNKNOWN);
  simpl in *; auto; congruence.

Lemma decide_may (e : Evidence) (b : Budget) :
  d_MayHaveDelivered (Decide e b) = may_be_accepted e.
Proof.
  unfold may_be_accepted. decide_cases e.
  all: policy_cases e.
Qed.

Lemma decide_retry (e : Evidence) (b : Budget) :
  d_Action (Decide e b) = Retry ->
  d_Terminal (Decide e b) = false /\
  d_RetryAfter (Decide e b) = retryDelay (b_Attempts b) (b_Seed b) /\
  1 <= b_Attempts b < MaxAttempts /\ b_StartedAt b <= b_Now b /\
  b_Now b + d_RetryAfter (Decide e b) < b_StartedAt b + Window /\
  (rcpt_rejected e = true \/ ev_BodyStarted e = false \/ final_in 400 600 e = true).
Proof.
  decide_cases e; intros Hr; try discriminate.
  all: specialize (Hretry Hr); destruct_and?; repeat split; try done.
  all: clear -Haccepted Huncertain Hrcpt; policy_cases e.
Qed.

Lemma decide_definite (e : Evidence) (b : Budget) :
  may_be_accepted e = true ->
  (d_Action (Decide e b) = Accept \/ d_Action (Decide e b) = Unknown) /\
  d_RetryAfter (Decide e b) = 0 /\ d_FailoverAllowed (Decide e b) = false.
Proof.
  rewrite <- (decide_may e b). decide_cases e; intros Hd; auto; congruence.
Qed.

(** A retry is decided only for a temporary failure or a 4xx reply. *)
Lemma decide_retry_status (e : Evidence) (b : Budget) :
  d_Action (Decide e b) = Retry -> ev_Status e = TEMP_FAILED \/ 400 <= ev_Code e < 500.
Proof.
  unfold Decide. fold (rcpt_rejected e).
  repeat match goal with
         | |- context [if ?c then _ else _] => destruct c eqn:?; simpl; try discriminate
         end; intros _; unfold rcpt_rejected in *; bsimpl; tauto || lia.
Qed.

Lemma decide_accepted (e : Evidence) (b : Budget) :
  ev_Status e = SMTP_ACCEPTED -> final_in 200 300 e = true -> d_Action (Decide e b) = Accept.
Proof. intros Hs Hf. unfold Decide, final_in in *. rewrite Hs, Hf. done. Qed.

Lemma decide_unknown (e : Evidence) (b : Budget) :
  ev_Status e = DELIVERY_UNKNOWN -> d_Action (Decide e b) = Unknown.
Proof. intros Hs. unfold Decide. rewrite Hs. simpl. by rewrite orb_true_r. Qed.

Lemma decide_permanent (e : Evidence) (b : Budget) :
  d_Action (Decide e b) = Permanent ->
  (rcpt_rejected e = true /\ 500 <= ev_Code e) \/
  (ev_Status e = PERM_FAILED /\ (500 <= ev_Code e < 600 \/ final_in 500 600 e = true)).
Proof.
  unfold Decide.
  fold (rcpt_rejected e) (final_in 200 300 e) (final_in 400 600 e) (final_in 500 600 e).
  repeat match goal with
         | |- context [if ?c then _ else _] => destruct c eqn:?; simpl; try discriminate
         end.
  all: try (use_budget; intros; destruct Hact; congruence).
  all: intros _; bsimpl; tauto.
Qed.

(** ** Correctness of the policy *)

(** C28. Whatever may have been accepted remotely is never retried: the
    decision then is [Accept] or [Unknown], carries [MayHaveDelivered], and
    allows neither a retry delay nor a failover; and a decision that does
    retry comes from evidence that excludes remote acceptance. *)
Theorem decide_never_retries_uncertain (e : Evidence) (b : Budget) :
  d_MayHaveDelivered (Decide e b) = may_be_accepted e /\
  (may_be_accepted e = true <->
   d_Action (Decide e b) = Accept \/ d_Action (Decide e b) = Unknown) /\
  (d_Action (Decide e b) = Retry \/ d_FailoverAllowed (Decide e b) = true \/
   d_RetryAfter (Decide e b) <> 0 -> may_be_accepted e = false).
Proof.
  split; [apply decide_may|]. split.
  - split; [intros H; apply (decide_definite e b H)|].
    rewrite <- (decide_may e b). decide_cases e; intuition congruence.
  - destruct (may_be_accepted e) eqn:Hm; [|done].
    destruct (decide_definite e b Hm) as ([Ha|Ha] & Hr & Hf); rewrite Ha, Hr, Hf; intuition congruence.
Qed.

(** C29. A retry is always bounded: it is decided only for attempts 1..6, with
    a delay between 48 seconds and 14.4 hours that equals the capped
    power-of-four backoff times a jitter of 0.8 to 1.2 (no 64-bit overflow),
    and only if the retry falls inside the 24 hour window. *)
Theorem decide_retry_bounded (e : Evidence) (b : Budget) :
  d_Action (Decide e b) = Retry ->
  1 <= b_Attempts b < MaxAttempts /\
  d_RetryAfter (Decide e b) =
    Z.min (Minute * 4 ^ (b_Attempts b - 1)) (12 * Hour) * jitter (b_Seed b) / 1000 /\
  48 * Second <= d_RetryAfter (Decide e b) <= 864 * Minute /\
  b_Now b + d_RetryAfter (Decide e b) < b_StartedAt b + Window /\
  d_Terminal (Decide e b) = false.
Proof.
  intros H. destruct (decide_retry e b H) as (Hterm & Hdelay & Ha & _ & Hwin & _).
  destruct (retryBase_table (b_Attempts b) Ha) as [Hbase Hrange].
  pose proof (jitter_bounds (b_Seed b)) as Hj.
  rewrite Hdelay, (retryDelay_exact _ _ Ha), <- Hbase in *.
  repeat split; try lia; try done.
  - apply Z.div_le_lower_bound; [lia|]. unfold Minute, Second in *. nia.
  - apply Z.div_le_upper_bound; [lia|]. unfold Hour, Minute, Second in *. nia.
Qed.

(** A temporary rejection of one recipient, first attempt. *)
Definition sample_evidence : Evidence :=
  MkEvidence "RCPT_REJECTED" "" TEMP_FAILED 450 250 true true.
Definition sample_budget : Budget := MkBudget 1 (5 * Hour) (5 * Hour) "seed".

Lemma decide_retry_bounded_witness :
  d_Action (Decide sample_evidence sample_budget) = Retry /\
  48 * Second <= d_RetryAfter (Decide sample_evidence sample_budget) <= 864 * Minute.
Proof.
  split; [vm_compute; reflexivity|].
  apply (decide_retry_bounded sample_evidence sample_budget). vm_compute. reflexivity.
Defined.

(** A failover permission implies that this attempt transmitted no
    message data and got no final reply: it failed at DNS, TCP or TLS without
    any SMTP reply, or the DATA command itself was refused with a 4xx. *)
Theorem decide_failover_before_data (e : Evidence) (b : Budget) :
  d_FailoverAllowed (Decide e b) = true ->
  d_Action (Decide e b) = Retry /\ ev_BodyStarted e = false /\ ev_FinalResponse e = false /\
  ((ev_Code e = 0 /\ ev_Stage e ∈ ["DNS_ERROR"; "CONNECT_ERROR"; "TLS_ERROR"]%string) \/
   (ev_Stage e = "DATA_REJECTED"%string /\ 400 <= ev_Code e < 500)).
Proof.
  decide_cases e; intros Hf; try discriminate; destruct (Hfail Hf) as [Hd ->]; try discriminate.
  autorewrite with relay in Hd. tauto.
Qed.

Definition sample_refused : Evidence :=
  MkEvidence "CONNECT_ERROR" "CONNECT_REFUSED" TEMP_FAILED 0 0 false false.

Lemma decide_failover_before_data_witness :
  d_FailoverAllowed (Decide sample_refused sample_budget) = true /\
  ev_BodyStarted sample_refused = false.
Proof.
  split; [vm_compute; reflexivity|].
  apply (decide_failover_before_data sample_refused sample_budget). vm_compute. reflexivity.
Defined.

(** Terminal decisions are exactly [Accept] and [Permanent]; acceptance is
    decided exactly on an accepted status with a final 2xx, a permanent
    failure only on an explicit 5xx reply, and [Decide] itself never expires
    or resumes a recipient. *)
Theorem decide_terminal (e : Evidence) (b : Budget) :
  (d_Terminal (Decide e b) = true <->
   d_Action (Decide e b) = Accept \/ d_Action (Decide e b) = Permanent) /\
  (d_Action (Decide e b) = Accept <->
   ev_Status e = SMTP_ACCEPTED /\ final_in 200 300 e = true) /\
  (d_Action (Decide e b) = Permanent ->
   (rcpt_rejected e = true /\ 500 <= ev_Code e) \/
   (ev_Status e = PERM_FAILED /\ (500 <= ev_Code e < 600 \/ final_in 500 600 e = true))) /\
  d_Action (Decide e b) <> Expire /\ d_Action (Decide e b) <> Resume.
Proof.
  refine (conj _ (conj _ (conj (decide_permanent e b) (conj _ _)))).
  all: rewrite <- ?(status_is_true (ev_Status e) SMTP_ACCEPTED).
  all: decide_cases e; bsimpl; intuition congruence.
Qed.

(** Health attribution: success needs a final 2xx with an accepted (or
    partially accepted) status; an attempt that failed locally, by
    configuration, or by a refused recipient or message with no transport
    trouble never counts against the provider. *)
Theorem provider_outcome_attribution (e : Evidence) :
  (ProviderOutcome e = SUCCESS <->
   final_in 200 300 e = true /\ (ev_Status e = SMTP_ACCEPTED \/ ev_Status e = PARTIAL_ACCEPTED)) /\
  (ProviderOutcome e = FAILURE ->
   ev_ErrorClass e ∉ ["LOCAL_STORAGE_ERROR"; "DATABASE_ERROR"; "RECORDER_ERROR"; "INVALID_EML";
                       "INVALID_ENVELOPE"; "CREDENTIAL_DECRYPTION_ERROR"]%string /\
   (400 <= ev_Code e < 500 \/ ev_ErrorClass e = "CONNECTION_RESET"%string \/
    existsb (HasPrefix (ev_ErrorClass e)) failure_prefixes = true)).
Proof.
  rewrite <- one_of_true.
  unfold ProviderOutcome. fold (final_in 200 300 e).
  repeat match goal with |- context [if ?c then _ else _] => destruct c eqn:? end; bsimpl.
  all: intuition congruence.
Qed.
