(* ===== verification/SmtpStream.v ===== *)
(** * SMTP DATA framing: [internal/smtpclient/stream.go]

    [ValidateCanonical] accepts exactly the payloads made of CRLF-terminated
    lines, and [streamDATA] transmits a payload with dot stuffing and the
    closing dot line.  Both read an [io.Reader] in chunks; a reader is the
    list of the results its [Read] calls give.  The theorems: validation and
    the transmitted bytes do not depend on how the payload is cut into
    chunks, a receiver that follows RFC 5321 section 4.5.2 recovers exactly
    the payload, and a stream that was not read to the end never contains the
    closing dot line. *)

From S2P Require Import Prelude.

(** ** Readers and writers *)

Inductive ReadError := NoReadError | EOF | ReadFailed.

(** One loop iteration: whether [ctx.Err()] is set when it starts, and the
    bytes and error of the [Read] call. *)
Record ReadStep := MkRead {
  rd_cancelled : bool;
  rd_data : list byte;
  rd_err : ReadError }.

(** A reader whose script is used up is at end of file. *)
Abbreviation Reader := (list ReadStep).

(** A [bufio.Writer]: the bytes accepted so far and after how many more calls
    the underlying connection fails ([None]: never). *)
Record Writer := MkWriter { w_out : list byte; w_budget : option nat }.

Definition w_write (w : Writer) (bs : list byte) : option Writer :=
  match w_budget w with
  | None => Some (MkWriter (w_out w ++ bs) None)
  | Some (S n) => Some (MkWriter (w_out w ++ bs) (Some n))
  | Some O => None
  end.

(** ** Validation *)

Inductive StreamError := ErrNonCanonical | ErrContext | ErrRead | ErrNoProgress | ErrWrite.

Record Scan := MkScan { previousCR : bool; lastLF : bool; any : bool }.

Definition scan_byte (s : Scan) (b : byte) : option Scan :=
  if (previousCR s && negb (is_byte b LF)) || (is_byte b LF && negb (previousCR s))
  then None
  else Some (MkScan (is_byte b CR) (is_byte b LF) true).

Fixpoint scan_bytes (s : Scan) (bs : list byte) : option Scan :=
  match bs with
  | [] => Some s
  | b :: rest => match scan_byte s b with
                 | None => None
                 | Some s' => scan_bytes s' rest
                 end
  end.

Definition finish_scan (s : Scan) : option StreamError :=
  if negb (any s) || negb (lastLF s) then Some ErrNonCanonical else None.

Fixpoint validate_loop (s : Scan) (r : Reader) : option StreamError :=
  match r with
  | [] => finish_scan s
  | step :: rest =>
      if rd_cancelled step then Some ErrContext
      else match scan_bytes s (rd_data step) with
           | None => Some ErrNonCanonical
           | Some s' =>
               match rd_err step with
               | EOF => finish_scan s'
               | ReadFailed => Some ErrRead
               | NoReadError =>
                   match rd_data step with
                   | [] => Some ErrNoProgress
                   | _ => validate_loop s' rest
                   end
               end
           end
  end.

(** [None] is Go's nil error. *)
Definition ValidateCanonical (r : Reader) : option StreamError :=
  validate_loop (MkScan false false false) r.

(** ** Transmission *)

(** The inner loop over one chunk: [pending] is [buf[start:i]], the bytes not
    written yet.  The writer is returned also when a write failed. *)
Fixpoint stream_chunk (w : Writer) (lineStart : bool) (pending bs : list byte)
  : Writer * option (bool * list byte) :=
  match bs with
  | [] => (w, Some (lineStart, pending))
  | b :: rest =>
      if lineStart && is_byte b DOT then
        match w_write w pending with
        | None => (w, None)
        | Some w1 =>
            match w_write w1 [DOT] with
            | None => (w1, None)
            | Some w2 => stream_chunk w2 (is_byte b LF) [b] rest
            end
        end
      else stream_chunk w (is_byte b LF) (pending ++ [b]) rest
  end.

Definition stream_end (w : Writer) (total : Z) : Writer * Z * option StreamError :=
  match w_write w [DOT; CR; LF] with
  | None => (w, total, Some ErrWrite)
  | Some w1 => match w_write w1 [] with
               | None => (w1, total, Some ErrWrite)
               | Some w2 => (w2, total, None)
               end
  end.

Fixpoint stream_loop (w : Writer) (lineStart : bool) (total : Z) (r : Reader)
  : Writer * Z * option StreamError :=
  match r with
  | [] => stream_end w total
  | step :: rest =>
      if rd_cancelled step then (w, total, Some ErrContext)
      else match stream_chunk w lineStart [] (rd_data step) with
           | (w1, None) => (w1, total, Some ErrWrite)
           | (w1, Some (ls, pending)) =>
               match w_write w1 pending with
               | None => (w1, total, Some ErrWrite)
               | Some w2 =>
                   let total := total + Z.of_nat (length (rd_data step)) in
                   match rd_err step with
                   | EOF => stream_end w2 total
                   | ReadFailed => (w2, total, Some ErrRead)
                   | NoReadError =>
                       match rd_data step with
                       | [] => (w2, total, Some ErrNoProgress)
                       | _ => stream_loop w2 ls total rest
                       end
                   end
               end
           end
  end.

Definition streamDATA (w : Writer) (r : Reader) : Writer * Z * option StreamError :=
  stream_loop w true 0 r.

(** ** Reference definitions *)

(** CRLF-terminated lines: at least one, none containing CR or LF. *)
Definition plain_line (l : list byte) : Prop := CR ∉ l /\ LF ∉ l.
Definition of_lines (ls : list (list byte)) : list byte := concat (map (fun l => l ++ [CR; LF]) ls).
Definition canonical (bs : list byte) : Prop :=
  exists ls, ls <> [] /\ Forall plain_line ls /\ bs = of_lines ls.

(** Dot stuffing of a whole payload. *)
Fixpoint stuff (lineStart : bool) (bs : list byte) : list byte :=
  match bs with
  | [] => []
  | b :: rest =>
      if lineStart && is_byte b DOT
      then DOT :: b :: stuff (is_byte b LF) rest
      else b :: stuff (is_byte b LF) rest
  end.

Definition terminator : list byte := [DOT; CR; LF].

(** An RFC 5321 receiver: a line holding a single dot ends the data; any
    other line that starts with a dot loses it. *)
Inductive Rx := LineStart | SawDot | SawDotCR | Mid | SawCR.

Definition rx_after (b : byte) : Rx := if is_byte b CR then SawCR else Mid.

(** [Some (payload, rest)] once the closing line was seen. *)
Fixpoint receive (st : Rx) (bs : list byte) : option (list byte * list byte) :=
  let emit (out : list byte) (st' : Rx) (rest : list byte) :=
    match receive st' rest with
    | Some (payload, tail) => Some (out ++ payload, tail)
    | None => None
    end in
  match bs with
  | [] => None
  | b :: rest =>
      match st with
      | LineStart => if is_byte b DOT then receive SawDot rest else emit [b] (rx_after b) rest
      | SawDot => if is_byte b CR then receive SawDotCR rest else emit [b] (rx_after b) rest
      | SawDotCR => if is_byte b LF then Some ([], rest) else emit [CR; b] (rx_after b) rest
      | Mid => emit [b] (rx_after b) rest
      | SawCR => if is_byte b LF then emit [b] LineStart rest else emit [b] (rx_after b) rest
      end
  end.

(** A reader that delivers the payload in the given nonempty chunks. *)
Definition chunks_reader (cs : list (list byte)) : Reader :=
  map (fun c => MkRead false c NoReadError) cs.

(** ** Validation: lemmas *)

Lemma scan_bytes_app (s : Scan) (a b : list byte) :
  scan_bytes s (a ++ b) =
  match scan_bytes s a with Some s' => scan_bytes s' b | None => None end.
Proof. revert s. induction a as [|x a IH]; intros s; simpl; [done|]. by destruct (scan_byte s x). Qed.

Lemma validate_chunks (s : Scan) (cs : list (list byte)) :
  Forall (fun c => c <> []) cs ->
  validate_loop s (chunks_reader cs) =
  match scan_bytes s (concat cs) with Some s' => finish_scan s' | None => Some ErrNonCanonical end.
Proof.
  intros Hne. revert s. induction Hne as [|c cs Hc Hcs IH]; intros s; [done|].
  simpl. rewrite scan_bytes_app. destruct (scan_bytes s c) as [s'|]; [|done].
  destruct c; [done|]. apply IH.
Qed.

Lemma scan_plain (l : list byte) (lf an : bool) :
  plain_line l ->
  exists lf' an', scan_bytes (MkScan false lf an) l = Some (MkScan false lf' an').
Proof.
  revert lf an. induction l as [|b l IH]; intros lf an [Hcr Hlf]; [by exists lf, an|].
  apply not_elem_of_cons in Hcr as [? ?]. apply not_elem_of_cons in Hlf as [? ?].
  cbn [scan_bytes]. unfold scan_byte; simpl.
  rewrite (proj2 (is_byte_false b LF)), (proj2 (is_byte_false b CR)) by congruence. simpl.
  by apply IH.
Qed.

Lemma scan_lines (ls : list (list byte)) (lf an : bool) :
  Forall plain_line ls -> ls <> [] ->
  scan_bytes (MkScan false lf an) (of_lines ls) = Some (MkScan false true true).
Proof.
  intros Hpl. revert lf an. induction Hpl as [|l ls Hl Hls IH]; intros lf an Hne; [done|].
  unfold of_lines; simpl. rewrite <- app_assoc, scan_bytes_app.
  destruct (scan_plain l lf an Hl) as (lf' & an' & ->). simpl.
  destruct ls as [|l' ls]; [done|]. by apply IH.
Qed.

(** Splitting an accepted payload into lines; after a CR the next byte is the
    LF that closes the current line. *)
Lemma scan_split (bs : list byte) (pc lf an : bool) (s : Scan) :
  scan_bytes (MkScan pc lf an) bs = Some s -> lastLF s = true -> bs <> [] ->
  exists ls, Forall plain_line ls /\
    (if pc then bs = LF :: of_lines ls else ls <> [] /\ bs = of_lines ls).
Proof.
  revert pc lf an. induction bs as [|b bs IH]; intros pc lf an Hscan Hlast Hne; [done|].
  cbn [scan_bytes] in Hscan. unfold scan_byte in Hscan; simpl in Hscan.
  destruct pc, (is_byte b LF) eqn:HLF; try discriminate Hscan; simpl in Hscan.
  - apply is_byte_true in HLF as ->.
    destruct bs as [|b' bs]; [by exists []|].
    apply IH in Hscan as (ls & Hpl & _ & ->); [|done|done]. by exists ls.
  - destruct bs as [|b' bs]; [by simplify_eq/=|].
    apply IH in Hscan; [|done|done]. destruct (is_byte b CR) eqn:HCR.
    + destruct Hscan as (ls & Hpl & ->). apply is_byte_true in HCR as ->.
      exists ([] :: ls). split; [|done].
      constructor; [|done]. split; apply not_elem_of_nil.
    + destruct Hscan as (ls & Hpl & Hls & ->). destruct ls as [|l ls]; [done|].
      apply is_byte_false in HCR, HLF. apply Forall_cons in Hpl as [[??] ?].
      exists ((b :: l) :: ls). split; [|done].
      constructor; [|done]. split; by apply not_elem_of_cons.
Qed.

(** ** Transmission: lemmas *)

Definition ends_line (ls : bool) (bs : list byte) : bool :=
  fold_left (fun _ b => is_byte b LF) bs ls.

Lemma stuff_app (ls : bool) (a b : list byte) :
  stuff ls (a ++ b) = stuff ls a ++ stuff (ends_line ls a) b.
Proof.
  revert ls. induction a as [|x a IH]; intros ls; simpl; [done|].
  destruct (ls && is_byte x DOT); simpl; by rewrite IH.
Qed.

Lemma w_write_out (w w' : Writer) (bs : list byte) :
  w_write w bs = Some w' -> w_out w' = w_out w ++ bs.
Proof. unfold w_write. destruct (w_budget w) as [[|n]|]; intros; simplify_eq/=; done. Qed.

Lemma w_write_unbounded (out bs : list byte) :
  w_write (MkWriter out None) bs = Some (MkWriter (out ++ bs) None).
Proof. done. Qed.

(** What one chunk writes, and what it would write if no call failed. *)
Lemma stream_chunk_spec (w : Writer) (ls : bool) (pending bs : list byte) :
  match stream_chunk w ls pending bs with
  | (w', Some (ls', pending')) =>
      w_out w' ++ pending' = w_out w ++ pending ++ stuff ls bs /\ ls' = ends_line ls bs
  | (w', None) => w_out w' `prefix_of` w_out w ++ pending ++ stuff ls bs
  end.
Proof.
  revert w ls pending. induction bs as [|b bs IH]; intros w ls pending; simpl.
  { by rewrite app_nil_r. }
  destruct (ls && is_byte b DOT).
  - destruct (w_write w pending) as [w1|] eqn:H1; [|by apply prefix_app_r].
    destruct (w_write w1 [DOT]) as [w2|] eqn:H2.
    + apply w_write_out in H1, H2. specialize (IH w2 (is_byte b LF) [b]).
      rewrite H2, H1 in IH. destruct (stream_chunk w2 (is_byte b LF) [b] bs) as [w' [[ls' p']|]].
      * destruct IH as [-> ->]. split; [|done]. by rewrite <- !app_assoc.
      * by rewrite <- !app_assoc in IH.
    + apply w_write_out in H1. rewrite H1. rewrite (app_assoc (w_out w)). by apply prefix_app_r.
  - specialize (IH w (is_byte b LF) (pending ++ [b])).
    destruct (stream_chunk w (is_byte b LF) (pending ++ [b]) bs) as [w' [[ls' p']|]];
      by rewrite <- !app_assoc in IH.
Qed.

(** The bytes a reader gives up to end of file, and whether it gets there. *)
Fixpoint payload (r : Reader) : list byte :=
  match r with
  | [] => []
  | step :: rest => rd_data step ++ match rd_err step with NoReadError => payload rest | _ => [] end
  end.

Fixpoint complete (r : Reader) : bool :=
  match r with
  | [] => true
  | step :: rest =>
      negb (rd_cancelled step) &&
      match rd_err step with
      | EOF => true
      | ReadFailed => false
      | NoReadError => negb (bool_decide (rd_data step = [])) && complete rest
      end
  end.

Lemma stream_end_spec (w w' : Writer) (total t : Z) (e : option StreamError) :
  stream_end w total = (w', t, e) ->
  t = total /\ (w_out w' = w_out w ++ terminator \/ (w' = w /\ e = Some ErrWrite)).
Proof.
  unfold stream_end, w_write.
  destruct (w_budget w) as [[|[|n]]|]; intros; simplify_eq/=; rewrite ?app_nil_r; auto.
Qed.

(** What [stream_loop] has written, in all cases. *)
Lemma stream_loop_spec (w w' : Writer) (ls : bool) (total t : Z) (r : Reader) (e : option StreamError) :
  stream_loop w ls total r = (w', t, e) ->
  (complete r = true /\ t = total + Z.of_nat (length (payload r)) /\
   w_out w' = w_out w ++ stuff ls (payload r) ++ terminator) \/
  (e <> None /\ w_out w' `prefix_of` w_out w ++ stuff ls (payload r)).
Proof.
  revert w ls total. induction r as [|step r IH]; intros w ls total H; simpl in H.
  { apply stream_end_spec in H as [-> [Hout|[-> ->]]]; simpl.
    - left. split; [done|]. split; [lia|done].
    - right. split; [done|]. by rewrite app_nil_r. }
  destruct (rd_cancelled step) eqn:Hc; [simplify_eq; right; by split; [|apply prefix_app_r]|].
  pose proof (stream_chunk_spec w ls [] (rd_data step)) as Hch.
  destruct (stream_chunk w ls [] (rd_data step)) as [w1 [[ls1 p1]|]]; simpl in *.
  2: { simplify_eq. right. split; [done|]. rewrite stuff_app, app_assoc. by apply prefix_app_r. }
  destruct Hch as [Hout Hls]. destruct (w_write w1 p1) as [w2|] eqn:Hw.
  2: { simplify_eq. right. split; [done|]. rewrite stuff_app, app_assoc, <- Hout, <- app_assoc.
       by apply prefix_app_r. }
  apply w_write_out in Hw. rewrite Hout in Hw. rewrite stuff_app, <- Hls, Hc; simpl.
  destruct (rd_err step) eqn:He; simpl.
  - destruct (rd_data step) as [|b bs] eqn:Hd.
    + simplify_eq. right. split; [done|]. rewrite Hw. simpl. rewrite app_nil_r. by apply prefix_app_r.
    + apply IH in H as [(Hc' & -> & Ho)|(He' & Ho)].
      * left. rewrite Hc', length_app. split; [done|]. split; [lia|].
        rewrite Ho, Hw. by rewrite !app_assoc.
      * right. split; [done|]. rewrite Hw, <- app_assoc in Ho. done.
  - rewrite app_nil_r. apply stream_end_spec in H as [-> [Ho|[-> ->]]].
    + left. split; [done|]. split; [done|]. rewrite Ho, Hw. simpl. by rewrite app_nil_r, app_assoc.
    + right. split; [done|]. rewrite Hw. simpl. by rewrite app_nil_r.
  - simplify_eq. right. split; [done|]. rewrite Hw. simpl. by rewrite app_nil_r.
Qed.

(** On a connection that does not fail, chunks that make progress succeed. *)
Lemma stream_chunk_ok (c out p : list byte) (ls : bool) :
  exists out' lp, stream_chunk (MkWriter out None) ls p c = (MkWriter out' None, Some lp).
Proof.
  revert out ls p. induction c as [|b c IH]; intros out ls p; simpl; [by eexists _, _|].
  destruct (ls && is_byte b DOT); apply IH.
Qed.

Lemma stream_chunks_ok (cs : list (list byte)) (out : list byte) (ls : bool) (total : Z) :
  Forall (fun c => c <> []) cs ->
  snd (stream_loop (MkWriter out None) ls total (chunks_reader cs)) = None.
Proof.
  intros Hne. revert out ls total. induction Hne as [|c cs Hc Hcs IH]; intros out ls total; [done|].
  simpl. destruct (stream_chunk_ok c out [] ls) as (out' & [ls' p'] & ->). simpl.
  destruct c; [done|]. apply IH.
Qed.

(** ** The receiver *)

Definition rx_cr (st : Rx) : bool := match st with SawCR => true | _ => false end.
Definition rx_plain (st : Rx) : bool :=
  match st with LineStart | Mid | SawCR => true | _ => false end.
Definition rx_line (st : Rx) : bool := match st with LineStart => true | _ => false end.

(** A receiver in step with the sender's line state recovers the payload and
    goes on with what follows it. *)
Lemma receive_stuffed (bs sfx tail : list byte) (st : Rx) (lf an : bool) (s : Scan) :
  receive LineStart sfx = Some ([], tail) ->
  rx_plain st = true ->
  scan_bytes (MkScan (rx_cr st) lf an) bs = Some s ->
  (if bs is [] then st = LineStart else lastLF s = true) ->
  receive st (stuff (rx_line st) bs ++ sfx) = Some (bs, tail).
Proof.
  intros Hsfx.
  revert st lf an. induction bs as [|b bs IH]; intros st lf an Hst Hscan Hend; [by subst|].
  cbn [scan_bytes] in Hscan. unfold scan_byte in Hscan; simpl in Hscan.
  assert (Hend' : forall st', (bs = [] -> is_byte b LF = true -> st' = LineStart) ->
            (if bs is [] then st' = LineStart else lastLF s = true)).
  { intros st' Hst'. destruct bs; [|done]. apply Hst'; [done|].
    destruct (_ || _); simplify_eq/=. done. }
  destruct (is_byte b LF) eqn:HLF.
  - apply is_byte_true in HLF as ->. destruct st; try discriminate Hst; try discriminate Hscan.
    simpl in Hscan |- *. pose proof (IH LineStart _ _ eq_refl Hscan (Hend' LineStart ltac:(done))) as HIH.
    change (is_byte LF LF) with (rx_line LineStart). by rewrite HIH.
  - destruct (rx_cr st) eqn:Hcr; simpl in Hscan; [discriminate|].
    assert (Hrx : receive (rx_after b) (stuff false bs ++ sfx) = Some (bs, tail)).
    { replace false with (rx_line (rx_after b)) by (unfold rx_after; by destruct (is_byte b CR)).
      eapply IH.
      - unfold rx_after. by destruct (is_byte b CR).
      - replace (rx_cr (rx_after b)) with (is_byte b CR); [exact Hscan|].
        unfold rx_after. by destruct (is_byte b CR).
      - apply Hend'. congruence. }
    simpl. rewrite HLF. destruct st; try discriminate; simpl.
    + destruct (is_byte b DOT) eqn:HD; simpl; [|by rewrite HD, Hrx].
      apply is_byte_true in HD as ->. simpl. by rewrite Hrx.
    + by rewrite Hrx.
Qed.

(** No prefix of stuffed data contains the closing line, whatever the data. *)
Lemma receive_prefix (p bs : list byte) (st : Rx) (ls : bool) :
  rx_plain st = true -> (st = LineStart -> ls = true) ->
  p `prefix_of` stuff ls bs -> receive st p = None.
Proof.
  revert p st ls. induction bs as [|b bs IH]; intros p st ls Hst Hls Hp; simpl in Hp.
  { by apply prefix_nil_inv in Hp as ->. }
  assert (Hnext : forall q st', (st' = LineStart -> is_byte b LF = true) -> rx_plain st' = true ->
            q `prefix_of` stuff (is_byte b LF) bs -> receive st' q = None).
  { intros q st' H1 H2 H3. by eapply IH. }
  assert (Hafter : rx_after b = LineStart -> is_byte b LF = true)
    by (unfold rx_after; by destruct (is_byte b CR)).
  assert (Hplain : rx_plain (rx_after b) = true) by (unfold rx_after; by destruct (is_byte b CR)).
  destruct p as [|c p]; [done|].
  destruct (ls && is_byte b DOT) eqn:HD.
  - apply andb_true_iff in HD as [-> HD]. apply is_byte_true in HD as ->.
    apply prefix_cons_inv_1 in Hp as Hc; subst c. apply prefix_cons_inv_2 in Hp.
    destruct p as [|c p]; [by destruct st|].
    apply prefix_cons_inv_1 in Hp as Hc; subst c. apply prefix_cons_inv_2 in Hp.
    destruct st; try discriminate; simpl; by rewrite (Hnext p (rx_after DOT)).
  - apply prefix_cons_inv_1 in Hp as Hc; subst c. apply prefix_cons_inv_2 in Hp.
    destruct st; try discriminate; simpl.
    + rewrite (Hls eq_refl) in HD. simpl in HD. rewrite HD. by rewrite (Hnext p (rx_after b)).
    + by rewrite (Hnext p (rx_after b)).
    + destruct (is_byte b LF) eqn:HLF; [by rewrite (Hnext p LineStart)|].
      by rewrite (Hnext p (rx_after b)).
Qed.

(** ** Correctness of DATA framing *)

Lemma validate_chunks_canonical (cs : list (list byte)) :
  Forall (fun c => c <> []) cs ->
  ValidateCanonical (chunks_reader cs) = None <-> canonical (concat cs).
Proof.
  intros Hne. unfold ValidateCanonical. rewrite (validate_chunks _ _ Hne). split.
  - destruct (scan_bytes _ (concat cs)) as [s|] eqn:Hscan; [|done].
    unfold finish_scan. destruct (any s) eqn:Hany, (lastLF s) eqn:Hlast; try done. intros _.
    destruct (scan_split _ _ _ _ _ Hscan Hlast) as (ls & Hpl & Hls & ->); [|by exists ls].
    intros H. rewrite H in Hscan. by simplify_eq/=.
  - intros (ls & Hls & Hpl & ->). by rewrite (scan_lines ls _ _ Hpl Hls).
Qed.

(** [ValidateCanonical] decides canonical form, however the payload is cut
    into chunks: it returns nil exactly when the bytes are one or more lines
    free of CR and LF, each closed by CRLF. *)
Theorem validate_canonical_correct (cs : list (list byte)) :
  Forall (fun c => c <> []) cs ->
  (ValidateCanonical (chunks_reader cs) = None <-> canonical (concat cs)) /\
  (ValidateCanonical (chunks_reader cs) <> None ->
   ValidateCanonical (chunks_reader cs) = Some ErrNonCanonical).
Proof.
  intros Hne. split; [by apply validate_chunks_canonical|].
  unfold ValidateCanonical. rewrite (validate_chunks _ _ Hne).
  destruct (scan_bytes _ _) as [s|]; [|done]. unfold finish_scan. by destruct (_ || _).
Qed.

Lemma validate_canonical_correct_witness :
  ValidateCanonical (chunks_reader [bytes_of "a"; [CR]; [LF; DOT; CR; LF]]) = None /\
  canonical (concat [bytes_of "a"; [CR]; [LF; DOT; CR; LF]]).
Proof.
  split; [vm_compute; reflexivity|].
  apply (validate_canonical_correct [bytes_of "a"; [CR]; [LF; DOT; CR; LF]]).
  - repeat constructor; discriminate.
  - vm_compute. reflexivity.
Defined.

(** C30. Transmission round trip: for a canonical payload delivered in any
    chunks over a connection that does not fail, [streamDATA] reports the
    payload's length and writes bytes from which an RFC 5321 receiver
    recovers exactly the payload, stopping at the closing dot line and
    nowhere before it (later bytes on the connection stay unread). *)
Theorem streamDATA_roundtrip (cs : list (list byte)) (tail : list byte) :
  Forall (fun c => c <> []) cs ->
  ValidateCanonical (chunks_reader cs) = None ->
  exists w, streamDATA (MkWriter [] None) (chunks_reader cs)
            = (w, Z.of_nat (length (concat cs)), None) /\
            receive LineStart (w_out w ++ tail) = Some (concat cs, tail).
Proof.
  intros Hne Hval. pose proof (validate_chunks (MkScan false false false) cs Hne) as Hscan.
  unfold ValidateCanonical in Hval. rewrite Hval in Hscan.
  destruct (streamDATA (MkWriter [] None) (chunks_reader cs)) as [[w t] e] eqn:Hstream.
  assert (Hpay : payload (chunks_reader cs) = concat cs).
  { clear. induction cs as [|c cs IH]; simpl; [done|]. by rewrite IH. }
  assert (e = None) as ->.
  { pose proof (stream_chunks_ok cs [] true 0 Hne) as Hok.
    unfold streamDATA in Hstream. by rewrite Hstream in Hok. }
  exists w. unfold streamDATA in Hstream.
  apply stream_loop_spec in Hstream as [(_ & -> & Hout)|[? _]]; [|done].
  rewrite Hpay, Z.add_0_l in *. split; [done|]. rewrite Hout. simpl. rewrite <- app_assoc.
  destruct (scan_bytes _ (concat cs)) as [s|] eqn:Hs; [|done].
  unfold finish_scan in Hscan. destruct (any s), (lastLF s) eqn:Hl; try done.
  eapply (receive_stuffed _ _ _ LineStart); [done|done|exact Hs|]. by destruct (concat cs).
Qed.

Lemma streamDATA_roundtrip_witness :
  exists w, streamDATA (MkWriter [] None) (chunks_reader [[DOT]; [CR]; [LF]; [DOT; DOT; CR; LF]])
            = (w, 7, None) /\
            receive LineStart (w_out w ++ [x00]) = Some ([DOT; CR; LF; DOT; DOT; CR; LF], [x00]).
Proof.
  apply (streamDATA_roundtrip [[DOT]; [CR]; [LF]; [DOT; DOT; CR; LF]] [x00]).
  - repeat constructor; discriminate.
  - vm_compute. reflexivity.
Defined.

(** Whatever the reader and the connection do (cancellation, read errors,
    short writes), a transmission whose written bytes contain a closing dot
    line had read the whole source to end of file without error, and a
    transmission that reports success has written exactly the stuffed payload
    and the closing line. *)
Theorem streamDATA_terminates_only_complete (budget : option nat) (r : Reader)
    (w : Writer) (t : Z) (e : option StreamError) :
  streamDATA (MkWriter [] budget) r = (w, t, e) ->
  (receive LineStart (w_out w) <> None \/ e = None) ->
  complete r = true /\ t = Z.of_nat (length (payload r)) /\
  w_out w = stuff true (payload r) ++ terminator.
Proof.
  unfold streamDATA. intros Hs Hdone.
  apply stream_loop_spec in Hs as [(Hc & -> & Hout)|(He & Hp)]; simpl in *.
  - done.
  - destruct Hdone as [Hdone|Hdone]; [|done]. exfalso. apply Hdone.
    by eapply receive_prefix.
Qed.

Lemma streamDATA_terminates_only_complete_witness :
  complete [MkRead false [x61; CR; LF] NoReadError; MkRead false [] EOF] = true /\ 3 = 3.
Proof.
  destruct (streamDATA_terminates_only_complete (Some 9%nat)
              [MkRead false [x61; CR; LF] NoReadError; MkRead false [] EOF]
              (MkWriter [x61; CR; LF; DOT; CR; LF] (Some 5%nat)) 3 None)
    as (Hc & Ht & _); [vm_compute; reflexivity|right; reflexivity|].
  split; [exact Hc|exact Ht].
Defined.
