(* ===== verification/Provider.v ===== *)
(** * SMTP providers: [internal/provider/provider.go]

    The provider record that a claimed job carries to the SMTP client. *)

From S2P Require Import Prelude.

Record Provider := MkProvider {
  pv_ID : UUID;
  pv_Name : string;
  pv_Host : string;
  pv_Security : string;
  pv_Username : string;
  pv_Port : Z;
  pv_Priority : Z;
  pv_MaxConnections : Z;
  pv_HourlyLimit : Z;
  pv_DailyLimit : Z;
  pv_Timeout : Z;
  pv_Ciphertext : list byte;
  pv_Nonce : list byte }.
