(* ===== verification/SmtpClient.v ===== *)
(** * The SMTP client: [internal/smtpclient]

    [Send] holds one bounded SMTP conversation.  It is a sequential program
    with early returns: every network call, clock reading and callback is a
    question to an oracle [Net], and the program is a state-passing
    computation that may stop early.  The state records the [Result] under
    construction, the current stage and a trace of what was done on the wire.
    The theorems hold for every oracle: no credential and no message data
    leaves before TLS, no DATA before the durable fence agreed, and the
    result keeps the contract [Sender] that the delivery queue relies on
    (nothing that may have been accepted is reported as a failure). *)

From S2P Require Import Prelude GoText Delivery SmtpStream Provider.

(** ** Results: [internal/smtpclient/result.go] *)

Record Recipient := MkRecipient { rc_ID : UUID; rc_Address : string }.

Record RecipientResult := MkRR {
  rr_ID : UUID; rr_Status : Status; rr_Stage : string; rr_Code : Z;
  rr_Enhanced : string; rr_Response : string }.
#[export] Instance eta_RR : Eta RecipientResult := fun r =>
  MkRR (rr_ID r) (rr_Status r) (rr_Stage r) (rr_Code r) (rr_Enhanced r) (rr_Response r).

Record Event := MkEvent {
  ev_Sequence : Z; ev_Type : string; ev_RecipientID : option UUID; ev_At : Time;
  ev_SmtpCode : Z; ev_Response : string }.

(** Allowlisted EHLO observations of a probe. *)
Record Capabilities := MkCaps {
  cap_SMTPUTF8 : bool; cap_EightBitMIME : bool; cap_Pipelining : bool;
  cap_AuthPlain : bool; cap_AuthLogin : bool;
  cap_SizeState : string; cap_SizeBytes : option Z }.
#[export] Instance eta_Caps : Eta Capabilities := fun c =>
  MkCaps (cap_SMTPUTF8 c) (cap_EightBitMIME c) (cap_Pipelining c) (cap_AuthPlain c)
    (cap_AuthLogin c) (cap_SizeState c) (cap_SizeBytes c).

Record Result := MkResult {
  o_Capabilities : option Capabilities;
  o_Stage : string;
  o_DNSStartedAt : Time; o_DNSCompletedAt : Time;
  o_RecorderError : bool;
  o_Status : Status; o_ErrorClass : string; o_ErrorMessage : string;
  o_Code : Z; o_Enhanced : string; o_Response : string; o_RemoteIP : string;
  o_StartedAt : Time; o_ConnectedAt : Time; o_TLSAt : Time; o_AuthenticatedAt : Time;
  o_MailFromAt : Time; o_RcptAt : Time; o_DataStartedAt : Time; o_DataCompletedAt : Time;
  o_FinalResponseAt : Time; o_FinishedAt : Time;
  o_BytesSent : Z;
  o_Recipients : list RecipientResult;
  o_Events : list Event }.
#[export] Instance eta_Result : Eta Result := fun o =>
  MkResult (o_Capabilities o) (o_Stage o) (o_DNSStartedAt o) (o_DNSCompletedAt o)
    (o_RecorderError o) (o_Status o) (o_ErrorClass o) (o_ErrorMessage o) (o_Code o)
    (o_Enhanced o) (o_Response o) (o_RemoteIP o) (o_StartedAt o) (o_ConnectedAt o) (o_TLSAt o)
    (o_AuthenticatedAt o) (o_MailFromAt o) (o_RcptAt o) (o_DataStartedAt o)
    (o_DataCompletedAt o) (o_FinalResponseAt o) (o_FinishedAt o) (o_BytesSent o)
    (o_Recipients o) (o_Events o).

Definition empty_result : Result :=
  MkResult None "" 0 0 false NoStatus "" "" 0 "" "" "" 0 0 0 0 0 0 0 0 0 0 0 [] [].

Definition count_status (s : Status) (l : list RecipientResult) : nat :=
  length (List.filter (fun r => status_is (rr_Status r) s) l).

(** [Result.Aggregate] *)
Definition Aggregate (r : Result) : Result :=
  let accepted := count_status SMTP_ACCEPTED (o_Recipients r) in
  let temporary := count_status TEMP_FAILED (o_Recipients r) in
  let unknown := count_status DELIVERY_UNKNOWN (o_Recipients r) in
  r <| o_Status :=
         (if (0 <? unknown)%nat then DELIVERY_UNKNOWN
          else if (accepted =? length (o_Recipients r))%nat && (0 <? accepted)%nat then SMTP_ACCEPTED
          else if (0 <? accepted)%nat then PARTIAL_ACCEPTED
          else if (0 <? temporary)%nat then TEMP_FAILED
          else PERM_FAILED) |>.

(** ** Capabilities: [internal/smtpclient/capabilities.go] *)

Definition observe_auth (c : Capabilities) (mech : string) : Capabilities :=
  if EqualFold mech "PLAIN" then c <| cap_AuthPlain := true |>
  else if EqualFold mech "LOGIN" then c <| cap_AuthLogin := true |>
  else c.

(** The state carries [sizeSeen]. *)
Definition observe_line (st : Capabilities * bool) (line : string) : Capabilities * bool :=
  let '(c, sizeSeen) := st in
  match Fields line with
  | [] => st
  | f0 :: args =>
      if EqualFold f0 "SMTPUTF8" then (c <| cap_SMTPUTF8 := true |>, sizeSeen)
      else if EqualFold f0 "8BITMIME" then (c <| cap_EightBitMIME := true |>, sizeSeen)
      else if EqualFold f0 "PIPELINING" then (c <| cap_Pipelining := true |>, sizeSeen)
      else if EqualFold f0 "AUTH" then (fold_left observe_auth args c, sizeSeen)
      else if EqualFold f0 "SIZE" then
        if sizeSeen then (c <| cap_SizeState := "invalid"%string |> <| cap_SizeBytes := None |>, true)
        else match args with
             | [] => (c <| cap_SizeState := "unspecified"%string |>, true)
             | [f1] =>
                 match scan_int f1 with
                 | Some (n, EmptyString) =>
                     if (n <? 0) || HasPrefix f1 "+" then (c <| cap_SizeState := "invalid"%string |>, true)
                     else (c <| cap_SizeState := "numeric"%string |> <| cap_SizeBytes := Some n |>, true)
                 | _ => (c <| cap_SizeState := "invalid"%string |>, true)
                 end
             | _ => (c <| cap_SizeState := "invalid"%string |>, true)
             end
      else st
  end.

Definition observedCapabilities (raw : string) : Capabilities :=
  fst (fold_left observe_line (tail (Split raw "010"))
         (MkCaps false false false false false "absent" None, false)).

(** ** Errors

    The questions the code asks of an error: whether it is a server reply
    ([errors.As] to [*textproto.Error]), and for any other error the answers
    of [errors.Is] and [errors.As]. *)

Record Flags := MkFlags {
  ge_net : bool; ge_timeout : bool; ge_eof : bool; ge_reset : bool; ge_refused : bool;
  ge_dns : bool; ge_deadline : bool; ge_suppressed : bool; ge_expired : bool }.

Definition plain : Flags := MkFlags false false false false false false false false false.

Inductive GoErr := ReplyError (code : Z) (msg : string) | OtherError (f : Flags).

Definition flags (e : GoErr) : Flags :=
  match e with ReplyError _ _ => plain | OtherError f => f end.

Definition classify (stage : string) (err : GoErr) : string :=
  let f := flags err in
  if String.eqb stage "AUTH_ERROR" && (ge_net f || ge_eof f || ge_reset f)
  then "AUTH_CONNECTION_ERROR"
  else if String.eqb stage "AUTH_ERROR" || String.eqb stage "TLS_ERROR"
          || String.eqb stage "RECORDER_ERROR" then stage
  else if ge_dns f then "DNS_ERROR"
  else if ge_refused f then "CONNECT_REFUSED"
  else if (ge_net f && ge_timeout f) || ge_deadline f then
    if HasPrefix stage "FINAL_RESPONSE" then "FINAL_RESPONSE_TIMEOUT"
    else if String.eqb stage "CONNECT_ERROR" then "CONNECT_TIMEOUT"
    else stage ++ "_TIMEOUT"
  else if ge_reset f then "CONNECTION_RESET"
  else stage.

(** ** Replies *)

Definition capability (caps name : string) : string :=
  match List.find (fun line => match Fields line with
                               | f0 :: _ => EqualFold f0 name
                               | [] => false
                               end) (Split caps "010") with
  | Some line => Join (tail (Fields line)) " "
  | None => ""
  end.

Definition hasCapability (caps name : string) : bool :=
  existsb (fun line => EqualFold (TrimSpace line) name) (Split caps "010").

(** [fmt.Sscanf(f[0], "%d.%d.%d", ...)] reads three integers: nothing has to
    follow the last one. *)
Definition dotted3 (s : string) : bool :=
  match scan_int s with
  | Some (_, String "." r1) =>
      match scan_int r1 with
      | Some (_, String "." r2) => match scan_int r2 with Some _ => true | None => false end
      | _ => false
      end
  | _ => false
  end.

Definition enhanced (response : string) : string :=
  match Fields response with
  | f0 :: _ => if dotted3 f0 then f0 else ""
  | [] => ""
  end.

(** U+FFFD in UTF-8 *)
Definition replacement : string := string_of_list_byte [xef; xbf; xbd].

Definition safeResponse (s password : string) : string :=
  let s := if String.eqb password "" then s
           else ReplaceAll (ReplaceAll s password "[REDACTED]")
                  (base64 (bytes_of password)) "[REDACTED]" in
  let s := if (4096 <? String.length s)%nat then take 4096 s else s in
  ToValidUTF8 (ReplaceAll s (String "000" "") "") replacement.

Definition redactAuth (value username password : string) : string :=
  ReplaceAll value
    (base64 (x00 :: bytes_of username ++ x00 :: bytes_of password)) "[REDACTED]".

(** ** The environment of one conversation

    What a [textproto] read yields before the expected code is compared: the
    connection is lost (or the line has no code), or a reply.  [ReadResponse]
    compares a one-, two- or three-digit expectation with the code. *)

Inductive Wire := Lost (f : Flags) | Line (multi : bool) (code : Z) (msg : string).

Definition expected_code (expect code : Z) : bool :=
  negb (((1 <=? expect) && (expect <? 10) && negb (code / 100 =? expect))
        || ((10 <=? expect) && (expect <? 100) && negb (code / 10 =? expect))
        || ((100 <=? expect) && (expect <? 1000) && negb (code =? expect))).

Definition ReadResponse (w : Wire) (expect : Z) : Z * string * option GoErr :=
  match w with
  | Lost f => (0, ""%string, Some (OtherError f))
  | Line multi code msg =>
      if code <? 100 then
        (code, msg, Some (if multi && negb (String.eqb msg "") then ReplyError code msg
                          else OtherError plain))
      else if expected_code expect code then (code, msg, None)
      else (code, msg, Some (ReplyError code msg))
  end.

Inductive Mechanism := PLAIN | LOGIN.

(** The payload: the two seeks, what the two passes over it read, after how
    many calls the connection stops taking data, and the errors of the stream
    as Go errors. *)
Record Payload := MkPayload {
  pl_seek1 : option Flags; pl_validate : Reader; pl_seek2 : option Flags;
  pl_stream : Reader; pl_budget : option nat;
  pl_error : StreamError -> Flags }.

(** Answers of the clock, the resolver, the connection, the event recorder,
    the durable fence, the SASL library and the payload's reader.  Answers
    that may differ from call to call are indexed by the number of questions
    asked before. *)
Record Net := MkNet {
  n_now : nat -> Time;
  n_lookup : Flags + list string;
  n_dial : nat -> option Flags;
  n_remote_host : string;
  n_handshake : option Flags;
  n_write : nat -> option Flags;
  n_read : nat -> Wire;
  n_record : option (nat -> option Flags);
  n_beforeData : option Flags;
  n_sasl_start : Mechanism -> Flags + (string * list byte);
  n_sasl_next : nat -> Mechanism -> list byte -> Flags + list byte;
  n_payload : option Payload }.

(** ** The conversation

    Commands as the code formats them, and what happens on the connection in
    order.  A command counts as sent when the code tries to write it. *)

Inductive Cmd :=
| EHLO (domain : string) | STARTTLS | AUTH (mech blob : string) | AUTH_RESPONSE (blob : string)
| MAIL (from : string) | RCPT (address : string) | DATA | QUIT.

Definition command_line (c : Cmd) : string :=
  match c with
  | EHLO d => "EHLO " ++ d
  | STARTTLS => "STARTTLS"
  | AUTH m b => "AUTH " ++ m ++ " " ++ b
  | AUTH_RESPONSE b => b
  | MAIL f => "MAIL FROM:<" ++ f ++ ">"
  | RCPT a => "RCPT TO:<" ++ a ++ ">"
  | DATA => "DATA"
  | QUIT => "QUIT"
  end.

Inductive Act :=
| AConnected | ATls | ACmd (c : Cmd) | AFence | AStream (written : list byte).

Record Cl := MkCl { c_out : Result; c_stage : string; c_tick : nat; c_trace : list Act }.
#[export] Instance eta_Cl : Eta Cl := fun s => MkCl (c_out s) (c_stage s) (c_tick s) (c_trace s).

(** A computation that may return from [Send] early ([None]). *)
Definition C (A : Type) : Type := Net -> Cl -> option A * Cl.
#[export] Instance C_ret : MRet C := fun A a n s => (Some a, s).
#[export] Instance C_bind : MBind C := fun A B k m n s =>
  match m n s with
  | (Some a, s') => k a n s'
  | (None, s') => (None, s')
  end.

Definition stop {A} : C A := fun n s => (None, s).
Definition get : C Cl := fun n s => (Some s, s).
Definition set_stage (stage : string) : C unit := fun n s => (Some tt, s <| c_stage := stage |>).
Definition upd (f : Result -> Result) : C unit := fun n s => (Some tt, s <| c_out := f (c_out s) |>).
Definition act (a : Act) : C unit := fun n s => (Some tt, s <| c_trace := c_trace s ++ [a] |>).

(** One question to the environment. *)
Definition ask {A} (q : Net -> nat -> A) : C A :=
  fun n s => (Some (q n (c_tick s)), s <| c_tick := S (c_tick s) |>).
Definition Now : C Time := ask n_now.

Section Send.
  Variables (probe : bool) (Domain : string) (p : Provider) (password from : string)
            (recipients : list Recipient).

Definition redact (s : string) : string :=
  safeResponse (redactAuth s (pv_Username p) password) password.

(** The recipients [fail] overwrites: those whose outcome is still open. *)
Definition open_recipient (r : RecipientResult) : bool :=
  status_is (rr_Status r) RCPT_ACCEPTED || (status_is (rr_Status r) TEMP_FAILED && (rr_Code r =? 0)).

Definition fail_status (err : GoErr) (uncertain : bool) : Status :=
  match err with
  | ReplyError code _ =>
      if (500 <=? code) && (code <=? 599) then PERM_FAILED
      else if uncertain && ((code <? 400) || (599 <? code)) then DELIVERY_UNKNOWN
      else TEMP_FAILED
  | OtherError _ => if uncertain then DELIVERY_UNKNOWN else TEMP_FAILED
  end.

(** [fail] up to its loop over the recipients *)
Definition fail_error (stage : string) (err : GoErr) (uncertain : bool) (out : Result) : Result :=
  let out := out <| o_ErrorClass := classify stage err |>
                 <| o_ErrorMessage := "SMTP operation failed"%string |> in
  let out := match err with
             | ReplyError code msg =>
                 out <| o_Code := code |> <| o_Response := redact msg |>
                     <| o_Enhanced := enhanced msg |>
             | OtherError _ =>
                 if uncertain then out <| o_ErrorClass := classify "FINAL_RESPONSE_UNKNOWN" err |>
                 else out
             end in
  let out := if String.eqb stage "AUTH_ERROR"
             then out <| o_Response := "authentication rejected (redacted)"%string |> else out in
  if probe then out <| o_Status := fail_status err uncertain |> else out.

Definition fail_result (stage : string) (err : GoErr) (uncertain : bool) (out : Result) : Result :=
  let status := fail_status err uncertain in
  let out := fail_error stage err uncertain out in
  out <| o_Recipients :=
           map (fun r => if open_recipient r
                         then MkRR (rr_ID r) status stage (o_Code out) (o_Enhanced out) (o_Response out)
                         else r) (o_Recipients out) |>.

(** [fail(err, uncertain); return] *)
Definition fail {A} (err : GoErr) (uncertain : bool) : C A := fun n s =>
  (None, s <| c_out := fail_result (c_stage s) err uncertain (c_out s) |>).

(** [if !event(...) { return }] *)
Definition event (kind : string) (rid : option UUID) (code : Z) (response : string) : C unit :=
  at_ ← Now;
  upd (fun out => out <| o_Events :=
    o_Events out ++ [MkEvent (Z.of_nat (length (o_Events out)) + 1) kind rid at_ code (redact response)] |>);;
  answer ← ask (fun n k => match n_record n with Some rec => rec k | None => None end);
  match answer with
  | None => mret tt
  | Some f =>
      upd (fun out => out <| o_RecorderError := true |>);;
      s ← get;
      if IsZero (o_DataStartedAt (c_out s))
      then set_stage "RECORDER_ERROR";; fail (OtherError f) false
      else mret tt
  end.

Definition stamp (f : Time -> Result -> Result) : C unit := t ← Now; upd (f t).

(** [command(expected, format, args...)] *)
Definition command (expect : Z) (c : Cmd) : C (Z * string * option GoErr) :=
  act (ACmd c);;
  written ← ask n_write;
  match written with
  | Some f => mret (0, ""%string, Some (OtherError f))
  | None => reply ← ask n_read; mret (ReadResponse reply expect)
  end.

(** [if err != nil { fail(err, false); return }] *)
Definition check (r : Z * string * option GoErr) : C (Z * string) :=
  match r with
  | (_, _, Some err) => fail err false
  | (code, msg, None) => mret (code, msg)
  end.

Definition local_error (stage : string) : C unit :=
  set_stage stage;; fail (OtherError plain) false.

(** [validatePayload] *)
Definition validatePayload (pl : option Payload) : option Flags :=
  match pl with
  | None => Some plain
  | Some b =>
      match pl_seek1 b with
      | Some f => Some f
      | None => match ValidateCanonical (pl_validate b) with
                | Some e => Some (pl_error b e)
                | None => pl_seek2 b
                end
      end
  end.

Definition preflight : C unit :=
  (if negb (one_of (pv_Security p) ["starttls"; "implicit_tls"]%string)
   then local_error "TLS_ERROR" else mret tt);;
  (if ContainsAny (from ++ Domain) (String "013" (String "010" ""))
   then local_error "INVALID_ENVELOPE" else mret tt);;
  (if existsb (fun r => ContainsAny (rc_Address r) (String "013" (String "010" ""))) recipients
   then local_error "INVALID_ENVELOPE" else mret tt);;
  if probe then mret tt
  else invalid ← ask (fun n _ => validatePayload (n_payload n));
       match invalid with
       | Some f => set_stage "INVALID_EML";; fail (OtherError f) false
       | None => mret tt
       end.

(** The dial loop keeps the error of the last address tried. *)
Fixpoint dial (addresses : list string) (last : option Flags) : C (option Flags) :=
  match addresses with
  | [] => mret last
  | _ :: rest =>
      err ← ask n_dial;
      match err with
      | None => mret None
      | Some f => dial rest (Some f)
      end
  end.

Definition connect : C unit :=
  set_stage "DNS_ERROR";;
  stamp (fun t out => out <| o_DNSStartedAt := t |>);;
  event "DNS_STARTED" None 0 "";;
  found ← ask (fun n _ => n_lookup n);
  stamp (fun t out => out <| o_DNSCompletedAt := t |>);;
  match found with
  | inl f => fail (OtherError f) false
  | inr [] => fail (OtherError plain) false
  | inr addresses =>
      event "DNS_RESOLVED" None 0 "";;
      set_stage "CONNECT_ERROR";;
      err ← dial addresses None;
      match err with
      | Some f => fail (OtherError f) false
      | None =>
          act AConnected;;
          stamp (fun t out => out <| o_ConnectedAt := t |>);;
          host ← ask (fun n _ => n_remote_host n);
          upd (fun out => out <| o_RemoteIP := host |>);;
          event "TCP_CONNECTED" None 0 ""
      end
  end.

(** [handshake], and the TLS layer put over the connection *)
Definition secure : C unit :=
  err ← ask (fun n _ => n_handshake n);
  match err with
  | Some f => fail (OtherError f) false
  | None =>
      act ATls;;
      stamp (fun t out => out <| o_TLSAt := t |>);;
      event "TLS_ESTABLISHED" None 0 ""
  end.

Definition ehlo : C string :=
  set_stage "EHLO_ERROR";;
  r ← command 250 (EHLO (if String.eqb Domain "" then "localhost" else Domain));
  cm ← check r;
  event "EHLO_COMPLETED" None 250 (snd cm);;
  mret (snd cm).

(** Greeting, EHLO and, where the provider asks for it, STARTTLS with a second
    EHLO.  The result is the last capability list. *)
Definition hello : C string :=
  (if String.eqb (pv_Security p) "implicit_tls"
   then set_stage "TLS_ERROR";; secure else mret tt);;
  set_stage "SMTP_GREETING_ERROR";;
  greeting ← ask n_read;
  check (ReadResponse greeting 220);;
  event "SMTP_GREETING" None 220 "";;
  caps ← ehlo;
  if String.eqb (pv_Security p) "starttls" then
    set_stage "TLS_ERROR";;
    (if hasCapability caps "STARTTLS" then mret tt else fail (OtherError plain) false);;
    set_stage "STARTTLS_ERROR";;
    r ← command 220 STARTTLS;
    check r;;
    set_stage "TLS_ERROR";;
    secure;;
    ehlo
  else mret caps.

(** PLAIN ends the search; a later LOGIN entry replaces an earlier one. *)
Fixpoint choose_mechanism (mechs : list string) (auth : option Mechanism) : option Mechanism :=
  match mechs with
  | [] => auth
  | m :: rest =>
      if String.eqb m "PLAIN" then Some PLAIN
      else choose_mechanism rest (if String.eqb m "LOGIN" then Some LOGIN else auth)
  end.

(** [for i := 0; err == nil && code == 334 && i < 10; i++] *)
Fixpoint auth_loop (rounds : nat) (m : Mechanism) (r : Z * string * option GoErr)
  : C (Z * string * option GoErr) :=
  match rounds, r with
  | S k, (334, challenge, None) =>
      match base64_decode challenge with
      | None => mret (334, challenge, Some (OtherError plain))
      | Some decoded =>
          answer ← ask (fun n t => n_sasl_next n t m decoded);
          match answer with
          | inl f => mret (334, challenge, Some (OtherError f))
          | inr response =>
              r' ← command 0 (AUTH_RESPONSE (base64 response));
              auth_loop k m r'
          end
      end
  | _, _ => mret r
  end.

Definition authenticate (caps : string) : C unit :=
  event "AUTH_STARTED" None 0 "";;
  set_stage "AUTH_ERROR";;
  match choose_mechanism (Fields (capability caps "AUTH")) None with
  | None => fail (OtherError plain) false
  | Some m =>
      started ← ask (fun n _ => n_sasl_start n m);
      match started with
      | inl f => fail (OtherError f) false
      | inr (mech, initial) =>
          r ← command 0 (AUTH mech (base64 initial));
          r ← auth_loop 10 m r;
          cm ← check r;
          (if fst cm =? 235 then mret tt
           else fail (ReplyError (fst cm) "authentication rejected") false);;
          stamp (fun t out => out <| o_AuthenticatedAt := t |>);;
          event "AUTH_SUCCEEDED" None 235 ""
      end
  end.

(** [if wire.PrintfLine("QUIT") == nil { event("QUIT_SENT", ...) }] *)
Definition quit : C unit :=
  act (ACmd QUIT);;
  written ← ask n_write;
  match written with Some _ => mret tt | None => event "QUIT_SENT" None 0 "" end.

Definition set_recipient (i : nat) (r : RecipientResult) (out : Result) : Result :=
  out <| o_Recipients := <[i := r]> (o_Recipients out) |>.

(** The RCPT loop from index [i], counting the accepted recipients. *)
Fixpoint rcpt_loop (i : nat) (rs : list Recipient) (accepted : nat) : C nat :=
  match rs with
  | [] => mret accepted
  | r :: rest =>
      set_stage "RCPT_REJECTED";;
      reply ← command 25 (RCPT (rc_Address r));
      match reply with
      | (code, response, Some err) =>
          match err with
          | OtherError f => fail (OtherError f) false
          | ReplyError _ _ =>
              upd (set_recipient i
                     (MkRR (rc_ID r) (if 500 <=? code then PERM_FAILED else TEMP_FAILED)
                        "RCPT_REJECTED" code (enhanced response) (redact response)));;
              event "RCPT_REJECTED" (Some (rc_ID r)) code response;;
              rcpt_loop (S i) rest accepted
          end
      | (code, response, None) =>
          upd (set_recipient i
                 (MkRR (rc_ID r) RCPT_ACCEPTED "RCPT_ACCEPTED" code (enhanced response)
                    (redact response)));;
          event "RCPT_ACCEPTED" (Some (rc_ID r)) code response;;
          rcpt_loop (S i) rest (S accepted)
      end
  end.

(** MAIL FROM and every RCPT TO; the conversation ends here when no recipient
    was accepted. *)
Definition envelope : C unit :=
  set_stage "MAIL_FROM_REJECTED";;
  r ← command 250 (MAIL from);
  check r;;
  stamp (fun t out => out <| o_MailFromAt := t |>);;
  event "MAIL_FROM_ACCEPTED" None 250 "";;
  accepted ← rcpt_loop 0 recipients 0;
  stamp (fun t out => out <| o_RcptAt := t |>);;
  if (accepted =? 0)%nat then stop else mret tt.

(** The durable fence, then DATA *)
Definition start_data : C unit :=
  set_stage "DATABASE_ERROR";;
  blocked ← ask (fun n _ => n_beforeData n);
  match blocked with
  | Some f =>
      (if ge_suppressed f then set_stage "SUPPRESSION_BLOCKED"
       else if ge_expired f then set_stage "EXPIRY_BLOCKED" else mret tt);;
      fail (OtherError f) false
  | None =>
      act AFence;;
      set_stage "DATA_REJECTED";;
      r ← command 354 DATA;
      check r;;
      stamp (fun t out => out <| o_DataStartedAt := t |>);;
      event "DATA_STARTED" None 354 ""
  end.

Definition send_payload (pl : option Payload) : list byte * Z * option GoErr :=
  match pl with
  | None => ([], 0, Some (OtherError plain))
  | Some b =>
      let '(w, total, e) := streamDATA (MkWriter [] (pl_budget b)) (pl_stream b) in
      (w_out w, total, option_map (fun x => OtherError (pl_error b x)) e)
  end.

Definition accept_recipient (r : RecipientResult) : RecipientResult :=
  if status_is (rr_Status r) RCPT_ACCEPTED
  then r <| rr_Status := SMTP_ACCEPTED |> <| rr_Stage := "FINAL_RESPONSE"%string |> else r.

(** What follows [wire.ReadResponse(2)] *)
Definition verdict (r : Z * string * option GoErr) : C unit :=
  let '(code, response, err) := r in
  (if code =? 0 then mret tt else stamp (fun t out => out <| o_FinalResponseAt := t |>));;
  match err with
  | Some e => fail e true
  | None =>
      stamp (fun t out => out <| o_FinalResponseAt := t |>);;
      upd (fun out => out <| o_Code := code |> <| o_Response := redact response |>
                          <| o_Enhanced := enhanced response |>
                          <| o_Recipients := map accept_recipient (o_Recipients out) |>);;
      event "SMTP_ACCEPTED" None code response;;
      quit
  end.

(** The message itself and the server's final word *)
Definition transmit : C unit :=
  set_stage "DATA_WRITE_ERROR";;
  sent ← ask (fun n _ => send_payload (n_payload n));
  act (AStream (fst (fst sent)));;
  upd (fun out => out <| o_BytesSent := snd (fst sent) |>);;
  match snd sent with
  | Some e => fail e true
  | None =>
      stamp (fun t out => out <| o_DataCompletedAt := t |>);;
      event "DATA_COMPLETED" None 0 "";;
      set_stage "FINAL_RESPONSE_ERROR";;
      reply ← ask n_read;
      verdict (ReadResponse reply 2)
  end.

Definition conversation : C unit :=
  preflight;;
  connect;;
  caps ← hello;
  (if probe then upd (fun out => out <| o_Capabilities := Some (observedCapabilities caps) |>)
   else mret tt);;
  authenticate caps;;
  if probe then upd (fun out => out <| o_Status := READY |>);; quit
  else envelope;; start_data;; transmit.

Definition send_start (n : Net) : Cl :=
  MkCl (empty_result <| o_StartedAt := n_now n 0 |>
          <| o_Recipients := map (fun r => MkRR (rc_ID r) TEMP_FAILED "" 0 "" "") recipients |>)
       "CONNECT_ERROR" 1 [].

(** The state when [Send]'s body returns, and the deferred function. *)
Definition send_end (n : Net) : Cl := snd (conversation n (send_start n)).

Definition Send (n : Net) : Result :=
  let s := send_end n in
  let out := (c_out s) <| o_Stage := c_stage s |> <| o_FinishedAt := n_now n (c_tick s) |> in
  if probe then out else Aggregate out.

End Send.

Arguments fail_result : simpl never.
Arguments fail_error : simpl never.

(** [Probe] authenticates and disconnects: no sender, no recipients, no
    payload, no fence, no recorder. *)
Definition Probe (Domain : string) (p : Provider) (password : string) (n : Net) : Result :=
  Send true Domain p password "" [] (MkNet (n_now n) (n_lookup n) (n_dial n) (n_remote_host n)
    (n_handshake n) (n_write n) (n_read n) None None (n_sasl_start n) (n_sasl_next n) None).

(** ** What a computation puts on the connection *)

(** [emits allowed m]: [m] only appends actions in [allowed] to the trace. *)
Definition emits {A} (allowed : Act -> bool) (m : C A) : Prop :=
  forall n s, exists acts, c_trace (snd (m n s)) = c_trace s ++ acts /\ Forall allowed acts.

Create HintDb emits.

Section Emits.
  Context (allowed : Act -> bool).

Lemma emits_ret {A} (a : A) : emits allowed (mret a).
Proof. intros n s. exists []. by rewrite app_nil_r. Qed.

Lemma emits_still {A} (m : C A) :
  (forall n s, c_trace (snd (m n s)) = c_trace s) -> emits allowed m.
Proof. intros H n s. exists []. by rewrite app_nil_r. Qed.

Lemma emits_act (a : Act) : allowed a = true -> emits allowed (act a).
Proof. intros H n s. exists [a]. split; [done|]. constructor; [by rewrite H|done]. Qed.

Lemma emits_bind {A B} (m : C A) (k : A -> C B) :
  emits allowed m -> (forall a, emits allowed (k a)) -> emits allowed (m ≫= k).
Proof.
  intros Hm Hk n s. unfold mbind, C_bind.
  destruct (Hm n s) as (acts & Ht & Ha). destruct (m n s) as [[a|] s'] eqn:E; simpl in *.
  - destruct (Hk a n s') as (acts' & Ht' & Ha'). exists (acts ++ acts').
    rewrite Ht', Ht, app_assoc. split; [done|]. by apply Forall_app.
  - by exists acts.
Qed.

End Emits.

#[export] Hint Resolve emits_ret emits_bind emits_act : emits.

Ltac emits :=
  repeat first
    [ progress intros
    | match goal with |- emits _ (mbind _ _) => apply emits_bind end
    | apply emits_ret
    | apply emits_act; reflexivity
    | match goal with
      | |- emits _ (match ?x with _ => _ end) => destruct x
      | |- emits _ (let '_ := ?x in _) => destruct x
      end
    | solve [auto with emits]
    | apply emits_still; reflexivity ].

Section EmitsPhases.
  Context (probe : bool) (Domain : string) (p : Provider) (password from : string)
          (recipients : list Recipient).

Lemma emits_event ok kind rid code response :
  emits ok (event probe p password kind rid code response).
Proof. unfold event. emits. Qed.
Hint Resolve emits_event : emits.

Lemma emits_command ok expect c : ok (ACmd c) = true -> emits ok (command expect c).
Proof. intros H. unfold command. emits. Qed.

Lemma emits_preflight ok : emits ok (preflight probe Domain p password from recipients).
Proof. unfold preflight, local_error. emits. Qed.

Lemma emits_dial ok addresses last : emits ok (dial addresses last).
Proof. revert last. induction addresses; intros; simpl; emits. Qed.
Hint Resolve emits_dial : emits.

Definition act_connect (a : Act) : bool := match a with AConnected => true | _ => false end.
Lemma emits_connect : emits act_connect (connect probe p password).
Proof. unfold connect, stamp. emits. Qed.

Definition act_hello (a : Act) : bool :=
  match a with ATls | ACmd (EHLO _) | ACmd STARTTLS => true | _ => false end.
Lemma emits_hello : emits act_hello (hello probe Domain p password).
Proof. unfold hello, ehlo, check, secure, stamp, command. emits. Qed.

Definition act_auth (a : Act) : bool :=
  match a with ACmd (AUTH _ _) | ACmd (AUTH_RESPONSE _) => true | _ => false end.
Lemma emits_auth_loop k m r : emits act_auth (auth_loop k m r).
Proof.
  revert r. induction k as [|k IH]; intros r; simpl; [emits|].
  destruct r as [[code challenge] [e|]]; repeat case_match; emits.
  unfold command. emits.
Qed.
Hint Resolve emits_auth_loop : emits.
Lemma emits_authenticate caps : emits act_auth (authenticate probe p password caps).
Proof. unfold authenticate, check, stamp. emits; unfold command; emits. Qed.

Definition act_quit (a : Act) : bool := match a with ACmd QUIT => true | _ => false end.
Lemma emits_quit : emits act_quit (quit probe p password).
Proof. unfold quit. emits. Qed.

Definition act_envelope (a : Act) : bool :=
  match a with ACmd (MAIL _) | ACmd (RCPT _) => true | _ => false end.
Lemma emits_rcpt_loop i rs k : emits act_envelope (rcpt_loop probe p password i rs k).
Proof.
  revert i k. induction rs as [|r rs IH]; intros i k; simpl; [emits|].
  unfold command. emits.
Qed.
Lemma emits_envelope : emits act_envelope (envelope probe p password from recipients).
Proof.
  unfold envelope, check, stamp. pose proof emits_rcpt_loop. emits; unfold command; emits.
Qed.

Definition act_transmit (a : Act) : bool :=
  match a with AStream _ | ACmd QUIT => true | _ => false end.
End EmitsPhases.

(** ** The protocol as an automaton

    What may be put on the connection in which order: credentials, envelope
    and message only over TLS, DATA only right after the fence agreed, the
    message only after DATA, and nothing but QUIT afterwards. *)

Inductive WireState := Plain | Tls | Fenced | InData | Streamed.

#[export] Instance WireState_eq_dec : EqDecision WireState.
Proof. solve_decision. Defined.

Definition wire_step (st : WireState) (a : Act) : option WireState :=
  match st, a with
  | Plain, (AConnected | ACmd (EHLO _) | ACmd STARTTLS) => Some Plain
  | Plain, ATls => Some Tls
  | Tls, ACmd (EHLO _ | AUTH _ _ | AUTH_RESPONSE _ | MAIL _ | RCPT _ | QUIT) => Some Tls
  | Tls, AFence => Some Fenced
  | Fenced, ACmd DATA => Some InData
  | InData, AStream _ => Some Streamed
  | Streamed, ACmd QUIT => Some Streamed
  | _, _ => None
  end.

Fixpoint wire_run (st : WireState) (tr : list Act) : option WireState :=
  match tr with
  | [] => Some st
  | a :: rest => match wire_step st a with Some st' => wire_run st' rest | None => None end
  end.

Lemma wire_run_app st a b :
  wire_run st (a ++ b) = match wire_run st a with Some st' => wire_run st' b | None => None end.
Proof. revert st. induction a as [|x a IH]; intros st; simpl; [done|]. by destruct (wire_step st x). Qed.

(** [walks n st m st']: from automaton state [st], [m] ends in [st'] when it
    goes on and in some state when it returns early. *)
Definition walks {A} (n : Net) (st : WireState) (m : C A) (st' : WireState) : Prop :=
  forall s, wire_run Plain (c_trace s) = Some st ->
  match m n s with
  | (Some _, s') => wire_run Plain (c_trace s') = Some st'
  | (None, s') => is_Some (wire_run Plain (c_trace s'))
  end.

Section Walks.
  Context (n : Net).

Lemma walks_bind {A B} st1 st2 st3 (m : C A) (k : A -> C B) :
  walks n st1 m st2 -> (forall a, walks n st2 (k a) st3) -> walks n st1 (m ≫= k) st3.
Proof.
  intros Hm Hk s Hs. specialize (Hm s Hs). unfold mbind, C_bind.
  destruct (m n s) as [[a|] s']; [|done]. exact (Hk a s' Hm).
Qed.

Lemma walks_emits {A} st ok (m : C A) :
  emits ok m -> (forall a, ok a = true -> wire_step st a = Some st) -> walks n st m st.
Proof.
  intros Hm Hok s Hs. destruct (Hm n s) as (acts & Ht & Ha).
  assert (Hrun : wire_run Plain (c_trace (snd (m n s))) = Some st).
  { rewrite Ht, wire_run_app, Hs. clear Ht. induction Ha as [|a acts Ha' _ IH]; simpl; [done|].
    by rewrite (Hok a (Is_true_true_1 _ Ha')). }
  destruct (m n s) as [[a|] s']; simpl in *; [done|by eexists].
Qed.

(** A step that puts nothing on the connection. *)
Lemma walks_silent {A} st (m : C A) : emits (fun _ => false) m -> walks n st m st.
Proof. intros H. by apply (walks_emits st _ _ H). Qed.

Lemma walks_act st st' a : wire_step st a = Some st' -> walks n st (act a) st'.
Proof. intros H s Hs. simpl. rewrite wire_run_app, Hs. simpl. by rewrite H. Qed.

Lemma walks_stops {A} st st' (m : C A) :
  walks n st m st -> (forall s, fst (m n s) = None) -> walks n st m st'.
Proof.
  intros Hw Hn s Hs. specialize (Hw s Hs). specialize (Hn s).
  destruct (m n s) as [[a|] s']; simpl in *; [discriminate|done].
Qed.

Lemma walks_command st expect c :
  wire_step st (ACmd c) = Some st -> walks n st (command expect c) st.
Proof.
  intros H. apply (walks_emits _ (fun a => bool_decide (wire_step st a = Some st))).
  - apply emits_command. by apply bool_decide_eq_true.
  - intros a. apply bool_decide_eq_true.
Qed.

End Walks.

#[export] Hint Resolve emits_event : emits.

Ltac silent := apply walks_silent; unfold check, stamp; emits.
Ltac and_then st := apply (walks_bind _ _ st); [| intros ?].

Section WalkPhases.
  Context (n : Net) (probe : bool) (Domain : string) (p : Provider) (password from : string)
          (recipients : list Recipient).

Lemma walks_secure : walks n Plain (secure probe p password) Tls.
Proof.
  unfold secure. and_then Plain; [silent|]. case_match.
  - apply walks_stops; [silent|done].
  - and_then Tls; [by apply walks_act|silent].
Qed.

Lemma walks_ehlo st : st = Plain \/ st = Tls -> walks n st (ehlo probe Domain p password) st.
Proof.
  intros Hst. unfold ehlo. and_then st; [silent|].
  and_then st; [apply walks_command; by destruct Hst; subst|]. silent.
Qed.

Lemma walks_hello :
  one_of (pv_Security p) ["starttls"; "implicit_tls"]%string = true ->
  walks n Plain (hello probe Domain p password) Tls.
Proof.
  intros Hsec. unfold hello.
  set (st := if String.eqb (pv_Security p) "implicit_tls" then Tls else Plain).
  assert (Hst : st = Plain \/ st = Tls) by (unfold st; case_match; auto).
  and_then st.
  { unfold st. case_match; [and_then Plain; [silent|apply walks_secure]|silent]. }
  and_then st; [silent|]. and_then st; [silent|]. and_then st; [silent|]. and_then st; [silent|].
  and_then st; [by apply walks_ehlo|].
  apply one_of_true in Hsec. unfold st. rewrite !elem_of_cons in Hsec.
  destruct Hsec as [->|[->|Hn]]; simpl; [|silent|by apply elem_of_nil in Hn].
  and_then Plain; [silent|]. and_then Plain; [silent|]. and_then Plain; [silent|].
  and_then Plain; [by apply walks_command|]. and_then Plain; [silent|]. and_then Plain; [silent|].
  and_then Tls; [apply walks_secure|]. apply walks_ehlo. auto.
Qed.

Lemma walks_start_data : walks n Tls (start_data probe p password) InData.
Proof.
  unfold start_data. and_then Tls; [silent|]. and_then Tls; [silent|]. case_match.
  - apply walks_stops; [silent|]. intros s. repeat case_match; done.
  - and_then Fenced; [by apply walks_act|]. and_then Fenced; [silent|].
    and_then InData; [|silent].
    unfold command. and_then InData; [by apply walks_act|]. silent.
Qed.

Lemma walks_transmit : walks n InData (transmit probe p password) Streamed.
Proof.
  unfold transmit. and_then InData; [silent|]. and_then InData; [silent|].
  and_then Streamed; [by apply walks_act|]. and_then Streamed; [silent|].
  assert (Hq : walks n Streamed (quit probe p password) Streamed).
  { apply (walks_emits _ _ act_quit); [apply emits_quit|]. intros []; try done. by destruct c. }
  case_match; [silent|]. do 4 (and_then Streamed; [silent|]). unfold verdict.
  destruct (ReadResponse _ 2) as [[code response] [e|]]; and_then Streamed; try (solve [silent]).
  and_then Streamed; [silent|]. and_then Streamed; [silent|]. and_then Streamed; [silent|done].
Qed.

End WalkPhases.

Section Conversation.
  Context (n : Net) (probe : bool) (Domain : string) (p : Provider) (password from : string)
          (recipients : list Recipient).

Lemma walks_conversation :
  walks n Plain (conversation probe Domain p password from recipients)
    (if probe then Tls else Streamed).
Proof.
  unfold conversation. destruct (one_of (pv_Security p) ["starttls"; "implicit_tls"]%string) eqn:Hsec.
  2: { intros s Hs. unfold mbind at 1, C_bind at 1.
       pose proof (walks_silent n Plain _
         (emits_preflight probe Domain p password from recipients (fun _ => false)) s Hs) as Hpre.
       unfold preflight in Hpre |- *. rewrite Hsec in Hpre |- *. exact Hpre. }
  and_then Plain; [apply walks_silent, emits_preflight|].
  and_then Plain; [apply (walks_emits _ _ act_connect); [apply emits_connect|by intros []]|].
  and_then Tls; [by apply walks_hello|]. and_then Tls; [silent|].
  and_then Tls.
  { apply (walks_emits _ _ act_auth); [apply emits_authenticate|]. intros []; try done. by destruct c. }
  destruct probe eqn:Hp.
  - and_then Tls; [silent|]. apply (walks_emits _ _ act_quit); [apply emits_quit|].
    intros []; try done. by destruct c.
  - and_then Tls.
    { apply (walks_emits _ _ act_envelope); [apply emits_envelope|]. intros []; try done. by destruct c. }
    and_then InData; [apply walks_start_data|apply walks_transmit].
Qed.

(** The fence is on the trace only when it agreed. *)
Definition fence_agreed {A} (m : C A) : Prop :=
  forall s, AFence ∈ c_trace (snd (m n s)) -> AFence ∈ c_trace s \/ n_beforeData n = None.

Lemma fence_bind {A B} (m : C A) (k : A -> C B) :
  fence_agreed m -> (forall a, fence_agreed (k a)) -> fence_agreed (m ≫= k).
Proof.
  intros Hm Hk s. specialize (Hm s). unfold mbind, C_bind.
  destruct (m n s) as [[a|] s']; [|done]. intros H. apply Hk in H as [H|]; auto.
Qed.

Lemma fence_emits {A} ok (m : C A) : emits ok m -> ok AFence = false -> fence_agreed m.
Proof.
  intros Hm Hok s. destruct (Hm n s) as (acts & -> & Ha). rewrite elem_of_app.
  intros [H|H]; [by left|]. rewrite Forall_forall in Ha. specialize (Ha _ H). by rewrite Hok in Ha.
Qed.

Lemma fence_start_data : fence_agreed (start_data probe p password).
Proof.
  intros s H. destruct (n_beforeData n) as [f|] eqn:Hb; [left|by right]. revert H.
  unfold start_data, mbind, C_bind. simpl. rewrite Hb.
  destruct (ge_suppressed f), (ge_expired f); done.
Qed.
Ltac fence H := eapply fence_emits; [apply H|done].

Lemma fence_transmit : fence_agreed (transmit probe p password).
Proof.
  apply (fence_emits (fun a => match a with AFence => false | _ => true end)); [|done].
  unfold transmit, verdict, stamp, quit. emits.
Qed.

Lemma fence_conversation : fence_agreed (conversation probe Domain p password from recipients).
Proof.
  unfold conversation.
  apply fence_bind; [fence (emits_preflight probe Domain p password from recipients (fun _ => false))|intros _].
  apply fence_bind; [fence emits_connect|intros _].
  apply fence_bind; [fence emits_hello|intros caps].
  apply fence_bind; [apply (fence_emits (fun _ => false)); [emits|done]|intros _].
  apply fence_bind; [fence emits_authenticate|intros _].
  destruct probe eqn:Hp.
  - apply fence_bind; [apply (fence_emits (fun _ => false)); [emits|done]|intros _].
    fence emits_quit.
  - rewrite <- Hp. apply fence_bind; [fence emits_envelope|intros _].
    apply fence_bind; [apply fence_start_data|intros _; apply fence_transmit].
Qed.

End Conversation.

(** ** Wire safety *)

(** Actions that reveal credentials, the envelope or the message. *)
Definition carries_secret (a : Act) : bool :=
  match a with
  | ACmd (AUTH _ _ | AUTH_RESPONSE _ | MAIL _ | RCPT _ | DATA) | AStream _ => true
  | _ => false
  end.

Definition act_probe (a : Act) : bool :=
  match a with
  | ACmd (MAIL _ | RCPT _ | DATA) | AStream _ | AFence => false
  | _ => true
  end.

Lemma emits_weaken {A} (ok ok' : Act -> bool) (m : C A) :
  emits ok m -> (forall a, ok a = true -> ok' a = true) -> emits ok' m.
Proof.
  intros Hm Hok n s. destruct (Hm n s) as (acts & Ht & Ha). exists acts. split; [done|].
  eapply Forall_impl; [exact Ha|]. intros a H. apply Is_true_true_2, Hok, Is_true_true_1, H.
Qed.

Lemma emits_probe Domain p password from recipients :
  emits act_probe (conversation true Domain p password from recipients).
Proof.
  assert (Hw : forall ok A (m : C A), emits ok m ->
            (forall a, ok a = true -> act_probe a = true) -> emits act_probe m)
    by (intros; by eapply emits_weaken).
  unfold conversation. apply emits_bind; [apply emits_preflight|intros _].
  apply emits_bind; [eapply Hw; [apply emits_connect|by intros []]|intros _].
  apply emits_bind; [eapply Hw; [apply emits_hello|by intros [| |[]| |]]|intros caps].
  apply emits_bind; [emits|intros _].
  apply emits_bind; [eapply Hw; [apply emits_authenticate|by intros [| |[]| |]]|intros _].
  apply emits_bind; [emits|intros _]. eapply Hw; [apply emits_quit|by intros [| |[]| |]].
Qed.

(** What an accepted prefix of a trace says, by its state. *)
Lemma wire_state_says (tr : list Act) (st : WireState) :
  wire_run Plain tr = Some st ->
  (st <> Plain -> ATls ∈ tr) /\
  (st = Fenced -> last tr = Some AFence) /\
  (st = InData -> last tr = Some (ACmd DATA)) /\
  (ACmd DATA ∈ tr -> st = InData \/ st = Streamed) /\
  (ACmd DATA ∈ tr -> AFence ∈ tr).
Proof.
  revert st. induction tr as [|a tr IH] using rev_ind; intros st H.
  { simpl in H. injection H as <-. repeat split; (done || by intros ?%elem_of_nil). }
  rewrite wire_run_app in H. destruct (wire_run Plain tr) as [st0|] eqn:H0; [|done].
  destruct (IH st0 eq_refl) as (Htls & Hf & Hd & Hin & Hfence). cbn [wire_run] in H.
  destruct (wire_step st0 a) as [st1|] eqn:Hs; [|done]. injection H as <-.
  rewrite last_snoc, !elem_of_app, !list_elem_of_singleton.
  assert (Ha : a = ACmd DATA -> st0 = Fenced) by (intros ->; by destruct st0).
  assert (Hmem : ACmd DATA ∈ tr -> st1 = InData \/ st1 = Streamed).
  { intros Hm. destruct (Hin Hm) as [-> | ->]; destruct a as [| |[]| |]; try discriminate Hs;
      injection Hs as <-; auto. }
  assert (Hlast : last tr = Some AFence -> AFence ∈ tr)
    by (intros H; by apply last_Some_elem_of in H).
  split; [|split; [|split; [|split]]].
  - intros H. destruct (decide (st0 = Plain)) as [->|Hne]; [right|left; auto].
    destruct a as [| |[]| |]; try discriminate Hs; injection Hs as <-; congruence.
  - intros ->. destruct st0, a as [| |[]| |]; try discriminate Hs; done.
  - intros ->. destruct st0, a as [| |[]| |]; try discriminate Hs; done.
  - intros [H|<-]; [auto|]. rewrite (Ha eq_refl) in Hs. injection Hs as <-. auto.
  - intros [H|<-]; [auto|]. left. auto.
Qed.

Lemma wire_run_split (pre post : list Act) (a : Act) (st : WireState) :
  wire_run Plain (pre ++ a :: post) = Some st ->
  exists st0 st1, wire_run Plain pre = Some st0 /\ wire_step st0 a = Some st1 /\
                  wire_run st1 post = Some st.
Proof.
  rewrite wire_run_app. destruct (wire_run Plain pre) as [st0|]; [|done]. simpl.
  destruct (wire_step st0 a) as [st1|] eqn:?; [|done]. by exists st0, st1.
Qed.

Lemma wire_after_data (tr : list Act) (st st' : WireState) :
  wire_run st tr = Some st' -> st = InData \/ st = Streamed ->
  ACmd DATA ∉ tr /\ (st = Streamed -> Forall (fun a => a = ACmd QUIT) tr).
Proof.
  revert st. induction tr as [|a tr IH]; intros st H Hst; simpl in H; [split; [apply not_elem_of_nil|done]|].
  destruct (wire_step st a) as [st1|] eqn:Hs; [|done].
  destruct (IH st1 H) as [Hnot Hall].
  { destruct Hst; subst; destruct a as [| |[]| |]; simplify_eq/=; auto. }
  destruct Hst; subst; destruct a as [| |[]| |]; simplify_eq/=;
    (split; [by apply not_elem_of_cons|]); try done. intros _. constructor; auto.
Qed.

Lemma send_trace_runs n probe Domain p password from recipients :
  is_Some (wire_run Plain (c_trace (send_end probe Domain p password from recipients n))).
Proof.
  pose proof (walks_conversation n probe Domain p password from recipients
                (send_start recipients n) eq_refl) as H.
  unfold send_end. destruct (conversation _ _ _ _ _ _ _ _) as [[?|] s]; simpl; [by eexists|done].
Qed.

(** C31. Whatever the network, the clock, the recorder and the SASL library do,
    the conversation follows the protocol automaton: credentials, envelope and
    message are put on the connection only after TLS was established; DATA is
    sent at most once, directly after the durable fence [beforeData] agreed;
    the message is sent directly after DATA and followed by nothing but QUIT;
    and a probe never sends an envelope or a message. *)
Theorem send_wire_safety (n : Net) (probe : bool) (Domain : string) (p : Provider)
    (password from : string) (recipients : list Recipient) (pre post : list Act) (a : Act) :
  c_trace (send_end probe Domain p password from recipients n) = pre ++ a :: post ->
  (carries_secret a = true -> ATls ∈ pre) /\
  (a = ACmd DATA ->
     n_beforeData n = None /\ last pre = Some AFence /\ ACmd DATA ∉ pre /\ ACmd DATA ∉ post) /\
  (forall w, a = AStream w -> last pre = Some (ACmd DATA) /\ Forall (fun b => b = ACmd QUIT) post) /\
  (probe = true -> act_probe a = true).
Proof.
  intros Htr. destruct (send_trace_runs n probe Domain p password from recipients) as [st Hst].
  rewrite Htr in Hst. apply wire_run_split in Hst as (st0 & st1 & H0 & Hs & H1).
  destruct (wire_state_says _ _ H0) as (Htls & Hf & Hd & Hin & _).
  split; [|split; [|split]].
  - intros Ha. apply Htls. intros ->. by destruct a as [| |[]| |].
  - intros ->. destruct st0; try done. injection Hs as <-. specialize (Hf eq_refl). repeat split.
    + destruct (fence_conversation n probe Domain p password from recipients
                  (send_start recipients n)) as [Hn|Hn]; [|by apply elem_of_nil in Hn|exact Hn].
      fold (send_end probe Domain p password from recipients n). rewrite Htr.
      apply elem_of_app. left. by apply last_Some_elem_of.
    + exact Hf.
    + intros H. by destruct (Hin H).
    + eapply wire_after_data; eauto.
  - intros w ->. destruct st0; try done. injection Hs as <-. split; [auto|].
    eapply wire_after_data; eauto.
  - intros ->. destruct (emits_probe Domain p password from recipients n (send_start recipients n))
      as (acts & Ht & Ha). fold (send_end true Domain p password from recipients n) in Ht.
    rewrite Ht in Htr. simpl in Htr. rewrite Forall_forall in Ha.
    apply Is_true_true_1, Ha. rewrite Htr. apply elem_of_app. right. constructor.
Qed.

(** ** The contract of the result

    [definite r]: a failure that says nothing about acceptance, with a status
    that agrees with the reply code.  [after_data at code r]: what is reported for
    a recipient once the message was being transmitted, given the time and code
    of the final reply. *)

Definition definite (r : RecipientResult) : Prop :=
  (rr_Status r = TEMP_FAILED \/ rr_Status r = PERM_FAILED) /\
  (400 <= rr_Code r < 500 -> rr_Status r = TEMP_FAILED) /\
  (500 <= rr_Code r < 600 -> rr_Status r = PERM_FAILED).

Definition after_data (finalAt : Time) (final : Z) (r : RecipientResult) : Prop :=
  match rr_Status r with
  | SMTP_ACCEPTED => finalAt <> 0 /\ 200 <= final < 300
  | DELIVERY_UNKNOWN => ~ 200 <= final < 300 /\ ~ 400 <= final < 600
  | TEMP_FAILED | PERM_FAILED =>
      definite r /\
      (rr_Stage r = "RCPT_REJECTED"%string \/
       (finalAt <> 0 /\ rr_Code r = final /\ 400 <= final < 600))
  | _ => False
  end.

(** What the delivery queue may rely on for the recipients [ids]. *)
Record sender_result (ids : list UUID) (out : Result) : Prop := {
  sr_ids : map rr_ID (o_Recipients out) = ids;
  sr_status : o_Status out ∈ [SMTP_ACCEPTED; PARTIAL_ACCEPTED; TEMP_FAILED; PERM_FAILED; DELIVERY_UNKNOWN];
  sr_before : o_DataStartedAt out = 0 ->
    o_FinalResponseAt out = 0 /\ o_BytesSent out = 0 /\ Forall definite (o_Recipients out);
  sr_after : o_DataStartedAt out <> 0 -> 
    Forall (after_data (o_FinalResponseAt out) (o_Code out)) (o_Recipients out) }.

Definition pre_rcpt (r : RecipientResult) : Prop :=
  rr_Status r = RCPT_ACCEPTED \/
  (definite r /\ (open_recipient r = true \/ rr_Stage r = "RCPT_REJECTED"%string)).

Definition no_stream (a : Act) : bool := match a with AStream _ => false | _ => true end.

(** The state before DATA with recipient results [rs], and the state of a
    conversation that ended there. *)
Definition Pre (rs : list RecipientResult) (s : Cl) : Prop :=
  o_DataStartedAt (c_out s) = 0 /\ o_FinalResponseAt (c_out s) = 0 /\ o_Code (c_out s) = 0 /\
  o_BytesSent (c_out s) = 0 /\ o_Recipients (c_out s) = rs /\ Forall no_stream (c_trace s).

Definition Ended (ids : list UUID) (s : Cl) : Prop :=
  o_DataStartedAt (c_out s) = 0 /\ o_FinalResponseAt (c_out s) = 0 /\
  o_BytesSent (c_out s) = 0 /\ map rr_ID (o_Recipients (c_out s)) = ids /\
  Forall definite (o_Recipients (c_out s)) /\ Forall no_stream (c_trace s).

Definition wp {A} (n : Net) (m : C A) (Q : A -> Cl -> Prop) (E : Cl -> Prop) (s : Cl) : Prop :=
  match m n s with (Some a, s') => Q a s' | (None, s') => E s' end.

Lemma wp_bind {A B} n (m : C A) (k : A -> C B) Q E s :
  wp n (m ≫= k) Q E s <-> wp n m (fun a => wp n (k a) Q E) E s.
Proof. unfold wp, mbind, C_bind. by destruct (m n s) as [[a|] s']. Qed.

Lemma wp_mono {A} n (m : C A) (Q Q' : A -> Cl -> Prop) (E E' : Cl -> Prop) s :
  wp n m Q E s -> (forall a s', Q a s' -> Q' a s') -> (forall s', E s' -> E' s') -> wp n m Q' E' s.
Proof. unfold wp. destruct (m n s) as [[a|] s']; auto. Qed.

Lemma fail_definite stage err r code enh resp :
  (code = match err with ReplyError c _ => c | OtherError _ => 0 end) ->
  definite (MkRR (rr_ID r) (fail_status err false) stage code enh resp).
Proof.
  intros ->. unfold definite, fail_status; simpl. destruct err as [c msg|f]; simpl.
  - destruct ((500 <=? c) && (c <=? 599)) eqn:H; bsimpl; repeat split; auto; intros; lia.
  - repeat split; auto; intros; lia.
Qed.

Lemma fail_error_frame probe p password stage err u out :
  let out' := fail_error probe p password stage err u out in
  o_Code out' = match err with ReplyError c _ => c | OtherError _ => o_Code out end /\
  o_DataStartedAt out' = o_DataStartedAt out /\ o_FinalResponseAt out' = o_FinalResponseAt out /\
  o_BytesSent out' = o_BytesSent out /\ o_Recipients out' = o_Recipients out.
Proof.
  unfold fail_error.
  destruct err, u, (String.eqb stage "AUTH_ERROR"), probe; repeat split; reflexivity.
Qed.

Lemma fail_frame probe p password stage err u out :
  let out' := fail_result probe p password stage err u out in
  o_Code out' = match err with ReplyError c _ => c | OtherError _ => o_Code out end /\
  o_DataStartedAt out' = o_DataStartedAt out /\ o_FinalResponseAt out' = o_FinalResponseAt out /\
  o_BytesSent out' = o_BytesSent out /\
  o_Recipients out' =
    map (fun r => if open_recipient r
                  then MkRR (rr_ID r) (fail_status err u) stage (o_Code out') (o_Enhanced out')
                         (o_Response out')
                  else r) (o_Recipients out).
Proof.
  unfold fail_result. pose proof (fail_error_frame probe p password stage err u out) as H.
  revert H. generalize (fail_error probe p password stage err u out). intros o H. simpl in *.
  destruct H as (H1 & H2 & H3 & H4 & H5). rewrite <- H5. done.
Qed.

Lemma closed_definite r : pre_rcpt r -> open_recipient r = false ->
  definite r /\ rr_Stage r = "RCPT_REJECTED"%string.
Proof.
  intros [Hs|[Hd [Ho|Ho]]] Hc; [|congruence|done].
  unfold open_recipient in Hc. by rewrite Hs in Hc.
Qed.

Lemma fail_ids probe p password stage err u out :
  map rr_ID (o_Recipients (fail_result probe p password stage err u out))
  = map rr_ID (o_Recipients out).
Proof.
  destruct (fail_frame probe p password stage err u out) as (_ & _ & _ & _ & ->).
  rewrite map_map. apply map_ext. intros r. by destruct (open_recipient r).
Qed.

(** A failure before DATA leaves a definite failure for every recipient. *)
Lemma fail_ended probe p password rs ids {A} n err s :
  Forall pre_rcpt rs -> map rr_ID rs = ids -> Pre rs s ->
  wp n (fail probe p password (A:=A) err false) (fun _ _ => False) (Ended ids) s.
Proof.
  intros Hrs Hids (Hd & Hf & Hc & Hb & Hr & Ht). unfold wp, fail, Ended. cbn -[fail_result].
  set (out' := fail_result probe p password (c_stage s) err false (c_out s)).
  pose proof (fail_ids probe p password (c_stage s) err false (c_out s)) as Hi.
  destruct (fail_frame probe p password (c_stage s) err false (c_out s)) as (H0 & H1 & H2 & H3 & H4).
  fold out' in Hi, H0, H1, H2, H3, H4. rewrite H1, H2, H3, Hi, Hr. repeat (split; [done|]).
  split; [|done]. rewrite H4, Hr, Forall_map. eapply Forall_impl; [exact Hrs|]. intros r Hp.
  destruct (open_recipient r) eqn:Ho; [|by apply closed_definite].
  apply fail_definite. rewrite H0. by destruct err.
Qed.

(** ** Steps before DATA that leave the recipients alone *)

Definition keeps {A} (n : Net) (m : C A) : Prop := forall rs ids s,
  Forall pre_rcpt rs -> map rr_ID rs = ids -> Pre rs s ->
  wp n m (fun _ => Pre rs) (Ended ids) s.

Definition same_core (f : Result -> Result) : Prop := forall out,
  o_DataStartedAt (f out) = o_DataStartedAt out /\
  o_FinalResponseAt (f out) = o_FinalResponseAt out /\ o_Code (f out) = o_Code out /\
  o_BytesSent (f out) = o_BytesSent out /\ o_Recipients (f out) = o_Recipients out.

Section Keeps.
  Context (n : Net).

Lemma keeps_bind {A B} (m : C A) (k : A -> C B) :
  keeps n m -> (forall a, keeps n (k a)) -> keeps n (m ≫= k).
Proof.
  intros Hm Hk rs ids s Hrs Hids Hs. apply wp_bind. eapply wp_mono; [by apply Hm| |done].
  intros a s' Hs'. by apply Hk.
Qed.

Lemma keeps_ret {A} (a : A) : keeps n (mret a).
Proof. by intros rs ids s _ _ Hs. Qed.
Lemma keeps_get : keeps n get.
Proof. by intros rs ids s _ _ Hs. Qed.
Lemma keeps_stage stage : keeps n (set_stage stage).
Proof. by intros rs ids s _ _ Hs. Qed.
Lemma keeps_ask {A} (q : Net -> nat -> A) : keeps n (ask q).
Proof. by intros rs ids s _ _ Hs. Qed.
Lemma keeps_upd f : same_core f -> keeps n (upd f).
Proof.
  intros Hf rs ids s _ _ (Hd & Hfi & Hc & Hb & Hr & Ht). unfold wp, Pre; simpl.
  destruct (Hf (c_out s)) as (-> & -> & -> & -> & ->). done.
Qed.
Lemma keeps_act a : no_stream a = true -> keeps n (act a).
Proof.
  intros Ha rs ids s _ _ (Hd & Hfi & Hc & Hb & Hr & Ht). unfold wp, Pre; simpl.
  repeat (split; [done|]). apply Forall_app. split; [done|]. constructor; [by rewrite Ha|done].
Qed.
Lemma keeps_fail {A} probe p password err : keeps n (fail probe p password (A:=A) err false).
Proof. intros rs ids s ? ? ?. eapply wp_mono; [by eapply fail_ended|done|done]. Qed.

End Keeps.

Create HintDb keeps.
#[export] Hint Resolve keeps_ret keeps_get keeps_stage keeps_ask keeps_fail : keeps.

Ltac keeps :=
  repeat first
    [ progress intros
    | match goal with |- keeps _ (mbind _ _) => apply keeps_bind end
    | apply keeps_upd; done
    | apply keeps_act; reflexivity
    | match goal with
      | |- keeps _ (match ?x with _ => _ end) => destruct x
      end
    | solve [auto with keeps] ].

Section KeepsPhases.
  Context (n : Net) (probe : bool) (Domain : string) (p : Provider) (password from : string)
          (recipients : list Recipient).

Lemma keeps_event kind rid code response : keeps n (event probe p password kind rid code response).
Proof. unfold event, Now. keeps. Qed.
Hint Resolve keeps_event : keeps.

Lemma keeps_stamp f : (forall t, same_core (f t)) -> keeps n (stamp f).
Proof. intros H. unfold stamp, Now. keeps. Qed.

Lemma keeps_command expect c : keeps n (command expect c).
Proof. unfold command. keeps. Qed.
Hint Resolve keeps_command : keeps.

Lemma keeps_check r : keeps n (check probe p password r).
Proof. unfold check. keeps. Qed.
Hint Resolve keeps_check : keeps.

Lemma keeps_preflight : keeps n (preflight probe Domain p password from recipients).
Proof. unfold preflight, local_error. keeps. Qed.

Lemma keeps_dial addresses last : keeps n (dial addresses last).
Proof. revert last. induction addresses; intros; simpl; keeps. Qed.
Hint Resolve keeps_dial : keeps.

Lemma keeps_connect : keeps n (connect probe p password).
Proof. unfold connect. keeps; by apply keeps_stamp. Qed.

Lemma keeps_secure : keeps n (secure probe p password).
Proof. unfold secure. keeps; by apply keeps_stamp. Qed.
Hint Resolve keeps_secure : keeps.

Lemma keeps_ehlo : keeps n (ehlo probe Domain p password).
Proof. unfold ehlo. keeps. Qed.
Hint Resolve keeps_ehlo : keeps.

Lemma keeps_hello : keeps n (hello probe Domain p password).
Proof. unfold hello. keeps. Qed.

Lemma keeps_auth_loop k m r : keeps n (auth_loop k m r).
Proof.
  revert r. induction k as [|k IH]; intros r; simpl; [keeps|].
  destruct r as [[code challenge] [e|]]; repeat case_match; keeps.
Qed.
Hint Resolve keeps_auth_loop : keeps.

Lemma keeps_authenticate caps : keeps n (authenticate probe p password caps).
Proof. unfold authenticate. keeps. by apply keeps_stamp. Qed.

End KeepsPhases.

(** ** From RCPT to the final reply *)

Definition start_rr (r : Recipient) : RecipientResult := MkRR (rc_ID r) TEMP_FAILED "" 0 "" "".

Lemma start_rr_pre (l : list Recipient) : Forall pre_rcpt (map start_rr l).
Proof.
  apply Forall_map, Forall_true. intros r. right. unfold definite; simpl.
  split; [|by left]. split; [by left|]. split; [done|lia].
Qed.

Lemma count_status_snoc st l r :
  count_status st (l ++ [r]) = (count_status st l + if status_is (rr_Status r) st then 1 else 0)%nat.
Proof.
  unfold count_status. rewrite List.filter_app, length_app. simpl. by destruct (status_is _ _).
Qed.

Lemma set_recipient_at n f done r l s :
  Pre (done ++ start_rr r :: l) s ->
  wp n (upd (set_recipient (length done) f)) (fun _ => Pre ((done ++ [f]) ++ l)) (fun _ => False) s.
Proof.
  intros (Hd & Hf & Hc & Hb & Hr & Ht). unfold wp, Pre; simpl. repeat (split; [done|]).
  split; [|done]. rewrite Hr, <- app_assoc.
  replace (length done) with (length done + 0)%nat by lia. by rewrite insert_app_r.
Qed.

(** A recipient the server has answered. *)
Definition post_rcpt (r : RecipientResult) : Prop :=
  rr_Status r = RCPT_ACCEPTED \/ (definite r /\ rr_Stage r = "RCPT_REJECTED"%string).

Lemma post_pre rs : Forall post_rcpt rs -> Forall pre_rcpt rs.
Proof.
  intros H. eapply Forall_impl; [exact H|]. intros r [Hr|[Hd Hs]]; [by left|right; auto].
Qed.

Section Envelope.
  Context (n : Net) (probe : bool) (p : Provider) (password from : string).

Lemma rcpt_loop_ok rest done ids s :
  Forall post_rcpt done -> map rr_ID done ++ map rc_ID rest = ids ->
  Pre (done ++ map start_rr rest) s ->
  wp n (rcpt_loop probe p password (length done) rest (count_status RCPT_ACCEPTED done))
    (fun k s' => exists rs, Pre rs s' /\ Forall post_rcpt rs /\ map rr_ID rs = ids /\
                            k = count_status RCPT_ACCEPTED rs) (Ended ids) s.
Proof.
  revert done s. induction rest as [|r rest IH]; intros done s Hdone Hids Hs; simpl in *.
  { rewrite !app_nil_r in *. unfold wp; simpl. by exists done. }
  assert (Hall : Forall pre_rcpt (done ++ start_rr r :: map start_rr rest))
    by (apply Forall_app; split; [by apply post_pre|apply (start_rr_pre (r :: rest))]).
  assert (Hid : map rr_ID (done ++ start_rr r :: map start_rr rest) = ids)
    by (rewrite map_app; simpl; rewrite map_map; done).
  assert (Hnext : forall x st s', rr_ID x = rc_ID r -> post_rcpt x ->
    (if status_is (rr_Status x) RCPT_ACCEPTED then 1 else 0)%nat = st ->
    Pre ((done ++ [x]) ++ map start_rr rest) s' ->
    forall kind code response,
    wp n (event probe p password kind (Some (rc_ID r)) code response ≫= fun _ =>
            rcpt_loop probe p password (S (length done)) rest (count_status RCPT_ACCEPTED done + st))
      (fun k s' => exists rs, Pre rs s' /\ Forall post_rcpt rs /\ map rr_ID rs = ids /\
                              k = count_status RCPT_ACCEPTED rs) (Ended ids) s').
  { intros x st s' Hxid Hx Hst Hs' kind code response.
    assert (Hx' : Forall post_rcpt (done ++ [x])) by (apply Forall_app; auto).
    assert (Hids' : map rr_ID (done ++ [x]) ++ map rc_ID rest = ids)
      by (rewrite map_app, <- app_assoc; simpl; by rewrite Hxid).
    apply wp_bind. eapply wp_mono; [eapply keeps_event; [| |exact Hs']| |done].
    - apply Forall_app. split; [by apply post_pre|apply start_rr_pre].
    - rewrite map_app, map_map. exact Hids'.
    - intros [] s'' Hs''. specialize (IH (done ++ [x]) s'' Hx' Hids' Hs'').
      rewrite count_status_snoc, Hst, length_app, Nat.add_1_r in IH. exact IH. }
  apply wp_bind. eapply wp_mono; [by eapply keeps_stage| |done]. intros [] s1 Hs1.
  apply wp_bind. eapply wp_mono; [by eapply keeps_command| |done]. intros [[code response] err] s2 Hs2.
  assert (Hset : forall x s', Pre (done ++ start_rr r :: map start_rr rest) s' ->
    wp n (upd (set_recipient (length done) x)) (fun _ => Pre ((done ++ [x]) ++ map start_rr rest))
       (Ended ids) s') by (intros; eapply wp_mono; [by eapply set_recipient_at|done|done]).
  destruct err as [[c msg|f]|].
  - apply wp_bind. eapply wp_mono; [by apply Hset| |done]. intros [] s3 Hs3.
    rewrite <- (Nat.add_0_r (count_status RCPT_ACCEPTED done)). eapply Hnext; [..|exact Hs3]; simpl.
    + done.
    + right. unfold definite; simpl. split; [|done].
      destruct (500 <=? code) eqn:H; bsimpl; repeat split; auto; intros; lia.
    + by destruct (500 <=? code).
  - eapply wp_mono; [by eapply fail_ended|done|done].
  - apply wp_bind. eapply wp_mono; [by apply Hset| |done]. intros [] s3 Hs3.
    rewrite <- (Nat.add_1_r (count_status RCPT_ACCEPTED done)). eapply Hnext; [..|exact Hs3]; simpl.
    + done.
    + by left.
    + done.
Qed.

Lemma keeps_wp {A} (m : C A) rs ids (Q : A -> Cl -> Prop) s :
  keeps n m -> Forall pre_rcpt rs -> map rr_ID rs = ids -> Pre rs s ->
  (forall a s', Pre rs s' -> Q a s') -> wp n m Q (Ended ids) s.
Proof. intros Hm Hrs Hids Hs HQ. eapply wp_mono; [by eapply Hm|by auto|done]. Qed.

Lemma keeps_bind_wp {A B} (m : C A) (k : A -> C B) rs ids (Q : B -> Cl -> Prop) s :
  keeps n m -> Forall pre_rcpt rs -> map rr_ID rs = ids -> Pre rs s ->
  (forall a s', Pre rs s' -> wp n (k a) Q (Ended ids) s') -> wp n (m ≫= k) Q (Ended ids) s.
Proof. intros. apply wp_bind. by eapply keeps_wp. Qed.

Ltac keep_step :=
  eapply keeps_bind_wp;
  [ solve [ auto using keeps_ret, keeps_stage, keeps_command, keeps_check, keeps_event, keeps_ask, keeps_act
          | by apply keeps_stamp ]
  | eassumption | eassumption | eassumption | ];
  match goal with H : Pre _ ?s |- _ => clear s H; intros ? s H end.

Lemma envelope_ok recipients s :
  Pre (map start_rr recipients) s ->
  wp n (envelope probe p password from recipients)
    (fun _ s' => exists rs, Pre rs s' /\ Forall post_rcpt rs /\ map rr_ID rs = map rc_ID recipients)
    (Ended (map rc_ID recipients)) s.
Proof.
  intros Hs. pose proof (start_rr_pre recipients) as Hp.
  assert (Hid : map rr_ID (map start_rr recipients) = map rc_ID recipients) by by rewrite map_map.
  unfold envelope.
  do 5 keep_step. apply wp_bind.
  pose proof (rcpt_loop_ok recipients [] (map rc_ID recipients) s) as Hloop.
  eapply wp_mono; [apply Hloop; done| |done].
  clear s Hs Hloop. intros k s (rs & Hs & Hrs & Hids & ->).
  pose proof (post_pre rs Hrs) as Hpre. keep_step.
  destruct (_ =? 0)%nat eqn:Hk; [|by exists rs].
  apply Nat.eqb_eq in Hk. unfold wp, stop, Ended; simpl.
  destruct Hs as (Hd & Hf & Hc & Hb & Hr & Ht). rewrite Hr. repeat (split; [done|]).
  split; [|done]. rewrite Forall_forall in Hrs |- *. intros r Hin.
  destruct (Hrs r Hin) as [Hacc|[Hdef _]]; [exfalso|done].
  unfold count_status in Hk. apply length_zero_iff_nil in Hk.
  assert (In r (List.filter (fun r => status_is (rr_Status r) RCPT_ACCEPTED) rs)) as Hn
    by (apply List.filter_In; split; [by apply list_elem_of_In|by rewrite Hacc]).
  by rewrite Hk in Hn.
Qed.

(** The state while the message is transmitted. *)
Definition Sending (rs : list RecipientResult) (s : Cl) : Prop :=
  o_DataStartedAt (c_out s) <> 0 /\ o_FinalResponseAt (c_out s) = 0 /\ o_Code (c_out s) = 0 /\
  o_Recipients (c_out s) = rs.

Definition core (s : Cl) := (o_DataStartedAt (c_out s), o_FinalResponseAt (c_out s),
                             o_Code (c_out s), o_Recipients (c_out s)).

(** After DATA a failing recorder no longer ends the conversation. *)
Lemma event_after kind rid code response s :
  o_DataStartedAt (c_out s) <> 0 ->
  exists s', event probe p password kind rid code response n s = (Some tt, s') /\ core s' = core s.
Proof.
  intros Hd. unfold event, Now, mbind, C_bind; simpl.
  destruct (match n_record n with Some rec => _ | None => _ end); simpl; [|by eexists].
  unfold IsZero. rewrite (proj2 (Z.eqb_neq _ _) Hd). by eexists.
Qed.

Lemma start_data_ok rs ids s :
  (forall k, n_now n k <> 0) -> Forall pre_rcpt rs -> map rr_ID rs = ids -> Pre rs s ->
  wp n (start_data probe p password) (fun _ => Sending rs) (Ended ids) s.
Proof.
  intros Hnow Hrs Hids Hs. unfold start_data. do 2 keep_step. destruct a0 as [f|].
  - destruct (ge_suppressed f); [keep_step; eapply wp_mono; [by eapply fail_ended|done|done]|].
    destruct (ge_expired f); keep_step; (eapply wp_mono; [by eapply fail_ended|done|done]).
  - do 4 keep_step. unfold stamp, Now. apply wp_bind. unfold wp at 1, mbind, C_bind; simpl.
    match goal with |- wp _ _ _ _ ?s1 =>
      destruct (event_after "DATA_STARTED" None 354 "" s1) as (s' & He & Hcore); [apply Hnow|] end.
    unfold wp. rewrite He. unfold core in Hcore; simpl in Hcore.
    destruct Hs as (Hd & Hf & Hc & Hb & Hr & Ht). unfold Sending.
    injection Hcore as -> -> -> ->. auto.
Qed.

End Envelope.

Definition Done (ids : list UUID) (s : Cl) : Prop :=
  o_DataStartedAt (c_out s) <> 0 /\ map rr_ID (o_Recipients (c_out s)) = ids /\
  Forall (after_data (o_FinalResponseAt (c_out s)) (o_Code (c_out s))) (o_Recipients (c_out s)).

Lemma core_done ids s s' : core s' = core s -> Done ids s -> Done ids s'.
Proof. unfold core, Done. intros H. by injection H as -> -> -> ->. Qed.

Section Transmit.
  Context (n : Net) (probe : bool) (p : Provider) (password : string)
          (rs : list RecipientResult) (ids : list UUID).
  Hypothesis Hnow : forall k, n_now n k <> 0.
  Hypothesis Hrs : Forall post_rcpt rs.
  Hypothesis Hids : map rr_ID rs = ids.

(** A failure that leaves acceptance open, or an explicit refusal. *)
Lemma fail_after s e :
  o_DataStartedAt (c_out s) <> 0 -> o_Code (c_out s) = 0 -> o_Recipients (c_out s) = rs ->
  match e with
  | OtherError _ => True
  | ReplyError c _ => ~ 200 <= c < 300 /\ (c <> 0 -> o_FinalResponseAt (c_out s) <> 0)
  end ->
  Done ids (snd (fail probe p password (A:=unit) e true n s)).
Proof.
  intros Hd Hc Hr He. unfold Done, fail. cbn -[fail_result].
  pose proof (fail_ids probe p password (c_stage s) e true (c_out s)) as Hi.
  destruct (fail_frame probe p password (c_stage s) e true (c_out s)) as (H0 & H1 & H2 & H3 & H4).
  set (out' := fail_result probe p password (c_stage s) e true (c_out s)) in *.
  rewrite H1, H2, Hi, Hr. split; [done|]. split; [done|].
  rewrite H4, Hr, Forall_map. eapply Forall_impl; [exact (post_pre _ Hrs)|]. intros r Hp.
  destruct (open_recipient r) eqn:Ho.
  - clearbody out'. unfold after_data, definite. simpl. rewrite H0, Hc.
    destruct e as [c msg|f]; simpl; [|lia].
    destruct ((500 <=? c) && (c <=? 599)) eqn:H5; [|destruct ((c <? 400) || (599 <? c)) eqn:H6];
      bsimpl; simpl; [| lia |];
      (split; [repeat split; auto; lia|]); right; (split; [apply He; lia|lia]).
  - apply closed_definite in Hp as [Hp1 Hp2]; [|done]. unfold after_data.
    destruct (proj1 Hp1) as [-> | ->]; auto.
Qed.

Lemma accept_after r finalAt code :
  post_rcpt r -> finalAt <> 0 -> 200 <= code < 300 -> after_data finalAt code (accept_recipient r).
Proof.
  intros [Hp|[Hd Hs]] Hat Hcode; unfold accept_recipient.
  - rewrite Hp. simpl. done.
  - unfold after_data. destruct (proj1 Hd) as [Hst|Hst]; rewrite Hst; simpl; rewrite Hst; auto.
Qed.

Lemma accept_ids l : map rr_ID (map accept_recipient l) = map rr_ID l.
Proof.
  rewrite map_map. apply map_ext. intros r. unfold accept_recipient. by destruct (status_is _ _).
Qed.

Lemma expected_2xx code : 100 <= code -> expected_code 2 code = true <-> 200 <= code < 300.
Proof.
  intros H. pose proof (Z.div_mod code 100). pose proof (Z.mod_pos_bound code 100).
  unfold expected_code. destruct (code / 100 =? 2) eqn:E; bsimpl; simpl; split; (done || lia).
Qed.

(** Steps after DATA that always go on and leave the verdict alone. *)
Definition calm {A} (m : C A) : Prop := forall s, o_DataStartedAt (c_out s) <> 0 ->
  exists a s', m n s = (Some a, s') /\ core s' = core s.

Lemma calm_bind {A B} (m : C A) (k : A -> C B) (Q : Cl -> Prop) s :
  calm m -> o_DataStartedAt (c_out s) <> 0 ->
  (forall a s', core s' = core s -> o_DataStartedAt (c_out s') <> 0 -> Q (snd (k a n s'))) ->
  Q (snd ((m ≫= k) n s)).
Proof.
  intros Hm Hd Hk. destruct (Hm s Hd) as (a & s' & He & Hcore). unfold mbind, C_bind. rewrite He.
  apply Hk; [done|]. by injection Hcore as -> _ _ _.
Qed.

Lemma calm_event kind rid code response : calm (event probe p password kind rid code response).
Proof. intros s Hd. destruct (event_after n probe p password kind rid code response s Hd) as (s' & ? & ?).
  by exists tt, s'. Qed.
Lemma calm_stage st : calm (set_stage st).
Proof. intros s Hd. by eexists _, _. Qed.
Lemma calm_ask {A} (q : Net -> nat -> A) : calm (ask q).
Proof. intros s Hd. by eexists _, _. Qed.
Lemma calm_act a : calm (act a).
Proof. intros s Hd. by eexists _, _. Qed.
Lemma calm_bytes total : calm (upd (fun out => out <| o_BytesSent := total |>)).
Proof. intros s Hd. by eexists _, _. Qed.
Lemma calm_completed : calm (stamp (fun t out => out <| o_DataCompletedAt := t |>)).
Proof. intros s Hd. by eexists _, _. Qed.
Lemma calm_seq {A B} (m : C A) (k : A -> C B) :
  calm m -> (forall a, calm (k a)) -> calm (m ≫= k).
Proof.
  intros Hm Hk s Hd. destruct (Hm s Hd) as (a & s1 & He & Hcore).
  destruct (Hk a s1) as (b & s2 & He2 & Hcore2); [by injection Hcore as -> _ _ _|].
  exists b, s2. unfold mbind, C_bind. rewrite He, He2. split; congruence.
Qed.
Lemma calm_quit : calm (quit probe p password).
Proof.
  apply calm_seq; [apply calm_act|intros _]. apply calm_seq; [apply calm_ask|intros [f|]].
  - intros s Hd. by eexists _, _.
  - apply calm_event.
Qed.

Lemma calm_done {A} (m : C A) s : calm m -> Done ids s -> Done ids (snd (m n s)).
Proof.
  intros Hm Hs. destruct (Hm s (proj1 Hs)) as (a & s' & -> & Hcore). by eapply core_done.
Qed.

Lemma send_payload_error pl written total e :
  send_payload pl = (written, total, Some e) -> exists f, e = OtherError f.
Proof.
  unfold send_payload. destruct pl as [b|]; [|intros; simplify_eq; by eexists].
  destruct (streamDATA _ _) as [[w t] [x|]]; intros; simplify_eq/=; by eexists.
Qed.

Lemma verdict_ok reply s :
  Sending rs s -> Done ids (snd (verdict probe p password (ReadResponse reply 2) n s)).
Proof.
  intros (Hd & Hf & Hc & Hr). unfold verdict.
  assert (Hstamp : forall code (k : C unit),
    (forall s', o_DataStartedAt (c_out s') <> 0 -> o_Code (c_out s') = 0 ->
       o_Recipients (c_out s') = rs -> (code <> 0 -> o_FinalResponseAt (c_out s') <> 0) ->
       Done ids (snd (k n s'))) ->
    Done ids (snd (((if code =? 0 then mret tt
      else stamp (fun t out => out <| o_FinalResponseAt := t |>)) ≫= fun _ => k) n s))).
  { intros code k Hk. destruct (code =? 0) eqn:Ez; bsimpl; apply Hk; simpl; auto. }
  destruct (ReadResponse reply 2) as [[code response] err] eqn:Hread. apply Hstamp.
  clear s Hd Hf Hc Hr Hstamp. intros s Hd Hc Hr Hf.
  destruct reply as [f|multi c msg]; simpl in Hread.
  { injection Hread as <- <- <-. by apply fail_after. }
  destruct (c <? 100) eqn:Hlow; [|destruct (expected_code 2 c) eqn:Hexp];
    injection Hread as <- <- <-; bsimpl.
  - apply fail_after; [done..|]. destruct (multi && _); [|done]. split; [lia|done].
  - apply expected_2xx in Hexp; [|lia]. unfold stamp, Now.
    set (rest := event probe p password "SMTP_ACCEPTED" None c msg ≫= _).
    unfold mbind, C_bind. simpl. apply (calm_done rest).
    { apply calm_seq; [apply calm_event|intros _; apply calm_quit]. }
    unfold Done; simpl. rewrite Hr, accept_ids. split; [done|]. split; [done|].
    rewrite Forall_map. eapply Forall_impl; [exact Hrs|]. intros r Hp. by apply accept_after.
  - apply fail_after; [done..|]. split; [|done]. intros H.
    apply expected_2xx in H; [congruence|lia].
Qed.

Lemma core_sending s s' : core s' = core s -> Sending rs s -> Sending rs s'.
Proof. unfold Sending, core. intros H. by injection H as -> -> -> ->. Qed.

Lemma transmit_ok s : Sending rs s -> Done ids (snd (transmit probe p password n s)).
Proof.
  intros Hs. unfold transmit.
  apply calm_bind; [apply calm_stage|apply Hs|intros _ s1 H1 _]. eapply core_sending in Hs; [|exact H1].
  unfold mbind at 1, C_bind at 1. cbn [ask]. set (s2 := s1 <| c_tick := _ |>).
  assert (Hs2 : Sending rs s2) by exact Hs.
  destruct (send_payload (n_payload n)) as [[written total] err] eqn:Hsend. cbn [fst snd].
  clearbody s2. clear Hs H1. rename Hs2 into Hs.
  apply calm_bind; [apply calm_act|apply Hs|intros _ s3 H3 _]. eapply core_sending in Hs; [|exact H3].
  apply calm_bind; [apply calm_bytes|apply Hs|intros _ s4 H4 _]. eapply core_sending in Hs; [|exact H4].
  destruct err as [e|].
  - destruct (send_payload_error _ _ _ _ Hsend) as [f ->]. destruct Hs as (Hd & Hf & Hc & Hr).
    by apply fail_after.
  - apply calm_bind; [apply calm_completed|apply Hs|intros _ s5 H5 _]. eapply core_sending in Hs; [|exact H5].
    apply calm_bind; [apply calm_event|apply Hs|intros _ s6 H6 _]. eapply core_sending in Hs; [|exact H6].
    apply calm_bind; [apply calm_stage|apply Hs|intros _ s7 H7 _]. eapply core_sending in Hs; [|exact H7].
    apply calm_bind; [apply calm_ask|apply Hs|intros reply s8 H8 _]. eapply core_sending in Hs; [|exact H8].
    by apply verdict_ok.
Qed.

End Transmit.

Lemma conversation_ok n Domain p password from recipients :
  (forall k, n_now n k <> 0) ->
  let s := send_end false Domain p password from recipients n in
  Ended (map rc_ID recipients) s \/ Done (map rc_ID recipients) s.
Proof.
  intros Hnow. unfold send_end, conversation. set (s0 := send_start recipients n).
  assert (Hs : Pre (map start_rr recipients) s0) by (repeat split; constructor).
  pose proof (start_rr_pre recipients) as Hrs.
  assert (Hids : map rr_ID (map start_rr recipients) = map rc_ID recipients) by by rewrite map_map.
  set (ids := map rc_ID recipients) in *.
  set (Q := fun s => Ended ids s \/ Done ids s).
  assert (Hwp : forall A (m : C A) s, wp n m (fun _ => Q) Q s -> Q (snd (m n s)))
    by (intros A m s H; unfold wp in H; by destruct (m n s) as [[?|] ?]).
  assert (Hkeep : forall A B (m : C A) (k : A -> C B) s, keeps n m ->
    Pre (map start_rr recipients) s ->
    (forall a s', Pre (map start_rr recipients) s' -> wp n (k a) (fun _ => Q) Q s') ->
    wp n (m ≫= k) (fun _ => Q) Q s).
  { intros A B m k s Hm Hp Hk. apply wp_bind. eapply wp_mono; [by eapply Hm|by auto|by left]. }
  apply Hwp. clearbody s0. apply Hkeep; [apply keeps_preflight|done|intros _ s1 H1].
  apply Hkeep; [apply keeps_connect|done|intros _ s2 H2].
  apply Hkeep; [apply keeps_hello|done|intros caps s3 H3].
  apply Hkeep; [apply keeps_ret|done|intros _ s4 H4].
  apply Hkeep; [apply keeps_authenticate|done|intros _ s5 H5].
  apply wp_bind. eapply wp_mono; [by apply envelope_ok| |by left].
  intros _ s6 (rs & H6 & Hpost & Hid). apply wp_bind.
  eapply wp_mono; [eapply start_data_ok; [done|by apply post_pre|exact Hid|exact H6]| |by left].
  intros [] s7 H7. unfold wp.
  pose proof (transmit_ok n false p password rs ids Hnow Hpost Hid s7 H7) as Hd.
  by destruct (transmit _ _ _ _ _) as [[?|] ?]; right.
Qed.

(** ** A concrete conversation

    A server that greets, offers AUTH PLAIN over implicit TLS, accepts the
    first recipient, rejects the second with 550 and answers the message with
    [final]. *)

Definition demo_provider : Provider :=
  MkProvider 7 "demo" "smtp.example" "implicit_tls" "user" 465 0 1 0 0 (30 * Second) [] [].

Definition demo_net (final : Wire) : Net :=
  MkNet (fun k => 1000 + Z.of_nat k) (inr ["192.0.2.1"%string]) (fun _ => None) "192.0.2.1" None
    (fun _ => None)
    (fun k => match k with
              | 18 => Line false 220 "ready"
              | 22 => Line true 250 (String.append "smtp.example" (String "010" "AUTH PLAIN LOGIN"))
              | 29 => Line false 235 "2.7.0 ok"
              | 34 | 39 => Line false 250 "2.1.0 ok"
              | 43 => Line false 550 "5.1.1 no such user"
              | 49 => Line false 354 "go ahead"
              | _ => final
              end%nat)
    None None (fun _ => inr ("PLAIN"%string, [x00])) (fun _ _ _ => inr [])
    (Some (MkPayload None (chunks_reader [[x61; CR; LF]]) None (chunks_reader [[x61; CR; LF]]) None
             (fun _ => plain))).

Definition demo_recipients : list Recipient :=
  [MkRecipient 1 "a@example.org"; MkRecipient 2 "b@example.org"].

Lemma aggregate_status (r : Result) :
  o_Status (Aggregate r) ∈ [SMTP_ACCEPTED; PARTIAL_ACCEPTED; TEMP_FAILED; PERM_FAILED; DELIVERY_UNKNOWN].
Proof. unfold Aggregate. simpl. repeat case_match; set_solver. Qed.

Lemma send_sender_result (n : Net) Domain p password from recipients :
  (forall k, n_now n k <> 0) ->
  sender_result (map rc_ID recipients) (Send false Domain p password from recipients n).
Proof.
  intros Hnow. destruct (conversation_ok n Domain p password from recipients Hnow) as [H|H].
  - destruct H as (Hd & Hf & Hb & Hi & Hall & Ht). by split; [|apply aggregate_status|..].
  - destruct H as (Hd & Hi & Hall). by split; [|apply aggregate_status|..].
Qed.

(** The contract the delivery queue builds on, for every network: the
    results are for the given recipients in order; when DATA was not accepted
    by the server nothing of the message was transmitted and every recipient
    has a definite failure whose status agrees with its reply code; and once
    the message was being transmitted a recipient is reported accepted only
    with a final 2xx, failed only with its own RCPT rejection or an explicit
    final 4xx/5xx of the same class, and unknown in every other case. *)
Theorem send_result_contract (n : Net) (Domain : string) (p : Provider) (password from : string)
    (recipients : list Recipient) :
  (forall k, n_now n k <> 0) ->
  let out := Send false Domain p password from recipients n in
  sender_result (map rc_ID recipients) out /\
  (o_DataStartedAt out = 0 -> forall w,
     AStream w ∉ c_trace (send_end false Domain p password from recipients n)).
Proof.
  intros Hnow. split; [by apply send_sender_result|].
  destruct (conversation_ok n Domain p password from recipients Hnow) as [H|H]; [|by destruct H].
  destruct H as (_ & _ & _ & _ & _ & Ht). intros _ w Hw. rewrite Forall_forall in Ht. by apply Ht in Hw.
Qed.

Lemma send_result_contract_witness :
  let out := Send false "relay.example" demo_provider "pw" "f@example.com" demo_recipients
               (demo_net (Line false 250 "2.0.0 queued")) in
  sender_result [1; 2]%N out /\ o_DataStartedAt out <> 0 /\ o_Status out = PARTIAL_ACCEPTED /\
  map rr_Status (o_Recipients out) = [SMTP_ACCEPTED; PERM_FAILED].
Proof.
  pose proof (send_result_contract (demo_net (Line false 250 "2.0.0 queued")) "relay.example"
                demo_provider "pw" "f@example.com" demo_recipients) as H.
  destruct H as [H _]; [intros k; simpl; lia|].
  split; [exact H|]. vm_compute. repeat split; discriminate.
Defined.

Lemma send_wire_safety_witness :
  ATls ∈ [AConnected; ATls; ACmd (EHLO "relay.example")] /\
  n_beforeData (demo_net (Lost plain)) = None.
Proof.
  destruct (send_wire_safety (demo_net (Lost plain)) false "relay.example" demo_provider "pw"
    "f@example.com" demo_recipients
    [AConnected; ATls; ACmd (EHLO "relay.example")]
    [ACmd (MAIL "f@example.com"); ACmd (RCPT "a@example.org"); ACmd (RCPT "b@example.org"); AFence;
     ACmd DATA; AStream [x61; CR; LF; DOT; CR; LF]]
    (ACmd (AUTH "PLAIN" "AA=="))) as (H & _); [vm_compute; reflexivity|].
  split; [apply H; reflexivity|reflexivity].
Defined.
