(* ===== verification/Database.v ===== *)
(** * The database

    The tables of [migrations/] that the delivery queue and the message
    services read and write, and transactions over them.

    A table is a finite map from its primary key, so an INSERT with a used key
    is a constraint violation.  A nullable column is an [option]; a comparison
    with NULL in a WHERE clause selects nothing.  A transaction body is a
    computation over the database that a statement error aborts; [transact]
    gives Go's commit-or-rollback discipline around it, including a commit
    whose answer is lost.  One transaction is one atomic step: the code locks
    the rows it decides on ([FOR UPDATE], [SKIP LOCKED], advisory locks), and
    the rows another transaction holds are those [w_skip] hides. *)

From Stdlib Require Import Sorted.
From S2P Require Import Prelude GoText Delivery SmtpClient Provider.

(** ** JSON documents *)

Inductive json :=
| JNull | JBool (b : bool) | JNum (z : Z) | JStr (s : string) | JId (u : UUID)
| JArr (items : list json) | JObj (fields : list (string * json)).

(** [doc->>key], for the kinds of values the queries compare *)
Inductive jtext := TBool (b : bool) | TNum (z : Z) | TStr (s : string).
#[export] Instance jtext_eq_dec : EqDecision jtext.
Proof. solve_decision. Defined.

Definition json_get (key : string) (fields : list (string * json)) : option json :=
  option_map snd (List.find (fun kv => String.eqb (fst kv) key) fields).

Definition json_text (doc : option json) (key : string) : option jtext :=
  match doc with
  | Some (JObj fields) =>
      match json_get key fields with
      | Some (JBool b) => Some (TBool b)
      | Some (JNum z) => Some (TNum z)
      | Some (JStr s) => Some (TStr s)
      | _ => None
      end
  | _ => None
  end.

(** [doc || jsonb_build_object(key, value)] *)
Definition json_set (doc : json) (key : string) (value : json) : json :=
  match doc with
  | JObj fields => JObj (List.filter (fun kv => negb (String.eqb (fst kv) key)) fields ++ [(key, value)])
  | other => other
  end.

Definition action_text (a : Action) : string :=
  match a with
  | Accept => "ACCEPT" | Expire => "EXPIRE" | Resume => "RESUME_SAME_PROVIDER"
  | Retry => "RETRY_SAME_PROVIDER" | Permanent => "PERMANENT_FAILURE"
  | Unknown => "DELIVERY_UNKNOWN" | Manual => "MANUAL_INTERVENTION"
  end.

(** [json.Marshal] of a [delivery.Decision] *)
Definition decision_json (d : Decision) : json :=
  JObj [("version", JNum (d_Version d)); ("action", JStr (action_text (d_Action d)));
        ("reason", JStr (d_Reason d)); ("scope", JStr (d_Scope d));
        ("retry_after_ns", JNum (d_RetryAfter d));
        ("may_have_delivered", JBool (d_MayHaveDelivered d));
        ("failover_allowed", JBool (d_FailoverAllowed d)); ("terminal", JBool (d_Terminal d))]%string.

(** The text of a UUID: 32 hexadecimal digits in groups 8-4-4-4-12. *)
Definition hex_char (n : N) : ascii := if (n <? 10)%N then ascii_of_N (48 + n) else ascii_of_N (87 + n).
Fixpoint hex_digits (count : nat) (u : N) (acc : string) : string :=
  match count with
  | O => acc
  | S k =>
      let digits := String (hex_char (u mod 16)%N) acc in
      hex_digits k (u / 16)%N
        (if one_of k [8; 12; 16; 20]%nat then String "-" digits else digits)
  end.
Definition uuid_text (u : UUID) : string := hex_digits 32 u "".

Example uuid_text_example :
  uuid_text 0x123e4567e89b12d3a456426614174000 = "123e4567-e89b-12d3-a456-426614174000"%string.
Proof. vm_compute. reflexivity. Qed.

(** ** Rows *)

Record Message := MkMessage {
  m_source_type : string; m_api_key_id : option UUID; m_smtp_account_id : option UUID;
  m_envelope_from : string; m_header_from : option string;
  m_eml_path : string; m_eml_size : Z; m_eml_sha256 : string;
  m_message_stream : string; m_environment : string; m_archive_state : string;
  m_created_at : Time; m_schedule_at : option Time; m_expires_at : option Time;
  m_status : Status; m_next_attempt_at : option Time; m_completed_at : option Time;
  m_cancelled_at : option Time; m_last_error : option string; m_attempt_count : Z;
  m_route_provider_id : option UUID;
  m_locked_at : option Time; m_locked_by : option UUID; m_lease_expires_at : option Time;
  m_message_id : string; m_subject : string; m_queued_at : Time; m_idempotency_key : option string;
  m_client_reference : string; m_business_tags : list string; m_replaces_message_id : option UUID;
  m_eml_purged_at : option Time }.
#[export] Instance eta_Message : Eta Message := fun m =>
  MkMessage (m_source_type m) (m_api_key_id m) (m_smtp_account_id m) (m_envelope_from m)
    (m_header_from m) (m_eml_path m) (m_eml_size m) (m_eml_sha256 m) (m_message_stream m)
    (m_environment m) (m_archive_state m) (m_created_at m) (m_schedule_at m) (m_expires_at m)
    (m_status m) (m_next_attempt_at m) (m_completed_at m) (m_cancelled_at m) (m_last_error m)
    (m_attempt_count m) (m_route_provider_id m) (m_locked_at m) (m_locked_by m)
    (m_lease_expires_at m) (m_message_id m) (m_subject m) (m_queued_at m) (m_idempotency_key m)
    (m_client_reference m) (m_business_tags m) (m_replaces_message_id m) (m_eml_purged_at m).

Record RecipientRow := MkRecipientRow {
  r_message_id : UUID; r_address : string; r_status : Status; r_provider_id : option UUID;
  r_smtp_code : option Z; r_smtp_response : option string; r_completed_at : option Time;
  r_attempt_count : Z; r_retry_started_at : option Time; r_retry_at : option Time;
  r_retry_automatic : bool; r_decision : option json }.
#[export] Instance eta_RecipientRow : Eta RecipientRow := fun r =>
  MkRecipientRow (r_message_id r) (r_address r) (r_status r) (r_provider_id r) (r_smtp_code r)
    (r_smtp_response r) (r_completed_at r) (r_attempt_count r) (r_retry_started_at r)
    (r_retry_at r) (r_retry_automatic r) (r_decision r).

(** The columns [Finish] copies from the SMTP result (timestamps, durations,
    reply, bytes) are kept together as the result they come from. *)
Record Attempt := MkAttempt {
  a_message_id : UUID; a_provider_id : UUID; a_attempt_number : Z; a_result : Status;
  a_claim_token : UUID; a_remote_host : string; a_started_at : Time;
  a_finished_at : option Time; a_error_class : option string; a_smtp : option Result;
  a_protocol_stage : option string; a_data_armed_at : option Time;
  a_suppression_blocked_at : option Time; a_expiry_blocked_at : option Time;
  a_health_outcome : option Outcome; a_health_observed_at : option Time; a_raw_debug_log : option string }.
#[export] Instance eta_Attempt : Eta Attempt := fun a =>
  MkAttempt (a_message_id a) (a_provider_id a) (a_attempt_number a) (a_result a)
    (a_claim_token a) (a_remote_host a) (a_started_at a) (a_finished_at a) (a_error_class a)
    (a_smtp a) (a_protocol_stage a) (a_data_armed_at a) (a_suppression_blocked_at a)
    (a_expiry_blocked_at a) (a_health_outcome a) (a_health_observed_at a) (a_raw_debug_log a).

Record AttemptRecipient := MkAttemptRecipient {
  ar_status : Status; ar_smtp_code : option Z; ar_smtp_enhanced_code : option string;
  ar_smtp_response : option string; ar_decision : option json; ar_protocol_stage : option string }.
#[export] Instance eta_AttemptRecipient : Eta AttemptRecipient := fun x =>
  MkAttemptRecipient (ar_status x) (ar_smtp_code x) (ar_smtp_enhanced_code x)
    (ar_smtp_response x) (ar_decision x) (ar_protocol_stage x).

Record ProviderRow := MkProviderRow {
  p_name : string; p_enabled : bool; p_host : string; p_port : Z; p_security : string;
  p_username : string; p_password_ciphertext : list byte; p_nonce : list byte; p_priority : Z;
  p_hourly_limit : option Z; p_daily_limit : option Z; p_max_connections : Z;
  p_timeout_seconds : Z; p_from_domains : list string; p_health_check_enabled : bool;
  p_quota_group_id : option UUID; p_revision : Z }.

Inductive Circuit := CLOSED | OPEN | HALF_OPEN.
#[export] Instance Circuit_eq_dec : EqDecision Circuit.
Proof. solve_decision. Defined.

Record Health := MkHealth {
  h_status : string; h_circuit_state : Circuit; h_open_until : option Time;
  h_probe_attempt_id : option UUID; h_samples_since : Time; h_last_success_at : option Time;
  h_last_failure_at : option Time; h_last_error : option string; h_updated_at : Time }.
#[export] Instance eta_Health : Eta Health := fun h =>
  MkHealth (h_status h) (h_circuit_state h) (h_open_until h) (h_probe_attempt_id h)
    (h_samples_since h) (h_last_success_at h) (h_last_failure_at h) (h_last_error h)
    (h_updated_at h).

Record Quota := MkQuota { q_provider_id : UUID; q_reserved_at : Time; q_units : Z }.
Record QuotaGroup := MkQuotaGroup { g_name : string; g_hourly_limit : Z; g_daily_limit : Z; g_revision : Z }.
#[export] Instance eta_QuotaGroup : Eta QuotaGroup := fun g =>
  MkQuotaGroup (g_name g) (g_hourly_limit g) (g_daily_limit g) (g_revision g).

Record Suppression := MkSuppression {
  se_email : string; se_reason : string; se_source : string; se_created_by : string;
  se_note : string; se_created_at : Time; se_expires_at : option Time;
  se_released_at : option Time }.
#[export] Instance eta_Suppression : Eta Suppression := fun e =>
  MkSuppression (se_email e) (se_reason e) (se_source e) (se_created_by e) (se_note e)
    (se_created_at e) (se_expires_at e) (se_released_at e).

Record EventRow := MkEventRow {
  e_message_id : UUID; e_recipient_id : option UUID; e_attempt_id : option UUID;
  e_event_type : string; e_event_time : Time; e_source : string; e_data : json;
  e_attempt_sequence : option Z }.

Record Audit := MkAudit { au_action : string; au_actor : string; au_data : json }.

(** The text [queue_owner(...)] gives, source and identity kept apart; ['legacy'] is [None]. *)
Abbreviation Owner := (string * option UUID)%type.
Record FairOwner := MkFairOwner { o_last_ticket : Z; o_stream_cursor : Z }.

(** Websites: their keys, streams, idempotency ledger and admissions. *)
Record ApiKey := MkApiKey {
  k_prefix : string; k_environment : string; k_enabled : bool; k_minute_limit : Z; k_hour_limit : Z; k_day_limit : Z;
  k_key_hash : string }.
Record StreamRow := MkStreamRow {
  sm_enabled : bool; sm_weight : Z; sm_minute_limit : Z; sm_hour_limit : Z; sm_day_limit : Z }.
Record Ledger := MkLedger { lg_request_sha256 : string; lg_message_id : UUID }.
Record SubmissionQuota := MkSubmissionQuota {
  sq_api_key_id : UUID; sq_units : Z; sq_message_stream : string; sq_reserved_at : Time }.

(** Notifications to websites: endpoints, the outbox and its log. *)
Record WebhookEndpoint := MkWebhookEndpoint {
  we_api_key_id : UUID; we_url : string; we_config_hash : string; we_enabled : bool; we_schema_version : Z }.
#[export] Instance eta_WebhookEndpoint : Eta WebhookEndpoint := fun e =>
  MkWebhookEndpoint (we_api_key_id e) (we_url e) (we_config_hash e) (we_enabled e) (we_schema_version e).

Inductive HookState := HookPending | HookInFlight | HookDelivered | HookDead.
#[export] Instance HookState_eq_dec : EqDecision HookState.
Proof. solve_decision. Defined.

Record OutboxRow := MkOutboxRow {
  ob_endpoint_id : UUID; ob_event_id : UUID; ob_message_id : UUID; ob_payload : string; ob_state : HookState;
  ob_attempts : Z; ob_generation : Z; ob_deadline : Time; ob_next_at : Time;
  ob_lease_token : option UUID; ob_lease_until : option Time }.
#[export] Instance eta_OutboxRow : Eta OutboxRow := fun o =>
  MkOutboxRow (ob_endpoint_id o) (ob_event_id o) (ob_message_id o) (ob_payload o) (ob_state o) (ob_attempts o)
    (ob_generation o) (ob_deadline o) (ob_next_at o) (ob_lease_token o) (ob_lease_until o).

Inductive HookOutcome := STARTED | ACKNOWLEDGED | RETRY | EXHAUSTED | REPLAY_REQUESTED.
#[export] Instance HookOutcome_eq_dec : EqDecision HookOutcome.
Proof. solve_decision. Defined.

Record DeliveryLog := MkDeliveryLog {
  dl_sequence : Z; dl_generation : Z; dl_attempt : Z; dl_outcome : HookOutcome; dl_http_code : option Z;
  dl_actor : option string; dl_reason : option string }.

(** Feedback: what other mail systems reported.  The column [parsed] holds the
    JSON of a [Report]; it is kept as the report, [None] being the empty object
    of an unsupported one. *)
Record ReportedRecipient := MkReportedRecipient {
  rp_FinalRecipient : string; rp_OriginalRecipient : string; rp_Action : string; rp_Status : string;
  rp_Diagnostic : string }.
Record Report := MkReport { rp_ReportingMTA : string; rp_EnvelopeID : string; rp_Recipients : list ReportedRecipient }.

Record FeedbackReport := MkFeedbackReport {
  fr_source : string; fr_external_id : string; fr_sha256 : string; fr_raw : list byte; fr_parsed : option Report;
  fr_actor : string; fr_reason : string; fr_created_at : Time }.
Record FeedbackReview := MkFeedbackReview { fv_actor : string; fv_reason : string }.
Record FeedbackLink := MkFeedbackLink {
  fl_feedback_id : UUID; fl_report_index : Z; fl_message_id : UUID; fl_attempt_id : UUID; fl_recipient_id : UUID;
  fl_actor : string; fl_reason : string; fl_created_at : Time }.

Inductive ReviewAction := CONFIRM_FAILURE | WITHDRAW.
#[export] Instance ReviewAction_eq_dec : EqDecision ReviewAction.
Proof. solve_decision. Defined.
Record LinkReview := MkLinkReview {
  lr_action : ReviewAction; lr_actor : string; lr_reason : string; lr_created_at : Time }.

(** The collector: a mailbox, what became of each of its messages, alerts. *)
Record ImapSource := MkImapSource {
  is_identity_sha256 : string; is_uid_validity : Z; is_last_uid : Z; is_stored_bytes : Z; is_records : Z }.
#[export] Instance eta_ImapSource : Eta ImapSource := fun x =>
  MkImapSource (is_identity_sha256 x) (is_uid_validity x) (is_last_uid x) (is_stored_bytes x) (is_records x).

Inductive Collected := IMPORTED | OVERSIZE | EMPTY | VANISHED.
#[export] Instance Collected_eq_dec : EqDecision Collected.
Proof. solve_decision. Defined.
Record Receipt := MkReceipt { rc_outcome : Collected; rc_reported_size : Z; rc_feedback_id : option UUID }.

(** Archives without a message: what was seen, what was given up. *)
Record ObservationRow := MkObservationRow {
  ao_archive_id : UUID; ao_root : string; ao_path : string; ao_size : Z; ao_sha256 : string; ao_observed_at : Time }.
Record Retirement := MkRetirement { rt_observation_id : UUID; rt_actor : string; rt_reason : string }.

(** Templates a website published, gave up, or drafted.  The keys are website,
    template and version, or revision. *)
Record TemplateVersionRow := MkTemplateVersionRow {
  tv_language : string; tv_definition : string; tv_definition_sha256 : string; tv_published_at : Time; tv_audit_id : UUID }.
Record TemplateRetirement := MkTemplateRetirement { tq_retired_at : Time; tq_audit_id : UUID }.
Record TemplateDraftRow := MkTemplateDraftRow {
  td_version : string; td_definition : string; td_definition_sha256 : string; td_saved_at : Time; td_audit_id : UUID }.

(** What a website had a message of its sandbox be given as outcome. *)
Record Simulation := MkSimulation { si_recipient_id : UUID; si_outcome : string; si_event_id : UUID }.

Record DB := MkDB {
  messages : gmap UUID Message; recipients : gmap UUID RecipientRow;
  delivery_attempts : gmap UUID Attempt;
  attempt_recipients : gmap (UUID * UUID) AttemptRecipient;
  providers : gmap UUID ProviderRow; provider_health : gmap UUID Health;
  provider_quota : gmap UUID Quota; provider_quota_groups : gmap UUID QuotaGroup;
  suppression_entries : gmap UUID Suppression; events : gmap UUID EventRow;
  maintenance_audit : gmap UUID Audit; queue_fair_owners : gmap Owner FairOwner;
  queue_fair_ticket : Z; api_message_streams : gmap (UUID * string) StreamRow;
  api_keys : gmap UUID ApiKey; api_submission_ledger : gmap (UUID * string) Ledger;
  api_submission_quota : gmap UUID SubmissionQuota;
  webhook_endpoints : gmap UUID WebhookEndpoint; webhook_outbox : gmap Z OutboxRow;
  webhook_delivery_log : list DeliveryLog;
  feedback_reports : gmap UUID FeedbackReport; feedback_reviews : gmap UUID FeedbackReview;
  feedback_links : gmap UUID FeedbackLink; feedback_link_reviews : gmap (UUID * Z) LinkReview;
  feedback_imap_sources : gmap string ImapSource; feedback_imap_receipts : gmap (string * Z * Z) Receipt;
  feedback_imap_alerts : gset (string * Z * string);
  archive_observations : gmap UUID ObservationRow; archive_retirements : gmap UUID Retirement;
  archive_reclaims : gset UUID;
  api_template_versions : gmap (UUID * string * string) TemplateVersionRow;
  api_template_retirements : gmap (UUID * string * string) TemplateRetirement;
  api_template_drafts : gmap (UUID * string * Z) TemplateDraftRow;
  sandbox_simulations : gmap (UUID * string) Simulation }.
#[export] Instance eta_DB : Eta DB := fun d =>
  MkDB (messages d) (recipients d) (delivery_attempts d) (attempt_recipients d) (providers d)
    (provider_health d) (provider_quota d) (provider_quota_groups d) (suppression_entries d)
    (events d) (maintenance_audit d) (queue_fair_owners d) (queue_fair_ticket d)
    (api_message_streams d) (api_keys d) (api_submission_ledger d) (api_submission_quota d)
    (webhook_endpoints d) (webhook_outbox d) (webhook_delivery_log d)
    (feedback_reports d) (feedback_reviews d) (feedback_links d) (feedback_link_reviews d)
    (feedback_imap_sources d) (feedback_imap_receipts d) (feedback_imap_alerts d)
    (archive_observations d) (archive_retirements d) (archive_reclaims d)
    (api_template_versions d) (api_template_retirements d) (api_template_drafts d)
    (sandbox_simulations d).

Definition queue_owner (m : Message) : Owner :=
  (m_source_type m, match m_api_key_id m with Some u => Some u | None => m_smtp_account_id m end).

(** ** Statements *)

Definition is_null {A} (c : option A) : bool := match c with Some _ => false | None => true end.
Definition not_null {A} (c : option A) : bool := match c with Some _ => true | None => false end.

Section Tables.
  Context {K R : Type} `{Countable K}.

(** [UPDATE t SET f WHERE p] *)
Definition update (p : K -> R -> bool) (f : R -> R) (t : gmap K R) : gmap K R :=
  map_imap (fun k r => Some (if p k r then f r else r)) t.

(** [INSERT]: a used primary key is a violation. *)
Definition insert_row (k : K) (r : R) (t : gmap K R) : option (gmap K R) :=
  if not_null (t !! k) then None else Some (<[k := r]> t).

(** The rows a WHERE clause selects. *)
Definition select (p : K -> R -> bool) (t : gmap K R) : list (K * R) :=
  List.filter (fun kr => p (fst kr) (snd kr)) (map_to_list t).

Definition exists_row (p : K -> R -> bool) (t : gmap K R) : bool :=
  existsb (fun kr => p (fst kr) (snd kr)) (map_to_list t).

Definition count_rows (p : K -> R -> bool) (t : gmap K R) : Z := Z.of_nat (length (select p t)).

Lemma lookup_update p f (t : gmap K R) k :
  update p f t !! k = (fun r => if p k r then f r else r) <$> t !! k.
Proof. unfold update. rewrite map_lookup_imap. by destruct (t !! k). Qed.

Lemma insert_row_some k r (t t' : gmap K R) :
  insert_row k r t = Some t' -> t !! k = None /\ t' = <[k := r]> t.
Proof. unfold insert_row. destruct (t !! k); intros; by simplify_eq/=. Qed.

Lemma elem_select p (t : gmap K R) k r :
  (k, r) ∈ select p t <-> t !! k = Some r /\ p k r = true.
Proof.
  unfold select. rewrite list_elem_of_In, List.filter_In, <- list_elem_of_In, elem_of_map_to_list.
  done.
Qed.

Lemma exists_row_true p (t : gmap K R) :
  exists_row p t = true <-> exists k r, t !! k = Some r /\ p k r = true.
Proof.
  unfold exists_row. rewrite existsb_exists. split.
  - intros ((k & r) & Hin & Hp). exists k, r. split; [|done].
    by apply elem_of_map_to_list, list_elem_of_In.
  - intros (k & r & Hk & Hp). exists (k, r). split; [|done].
    by apply list_elem_of_In, elem_of_map_to_list.
Qed.

Lemma exists_row_false p (t : gmap K R) k r :
  exists_row p t = false -> t !! k = Some r -> p k r = false.
Proof.
  intros Hf Hk. destruct (p k r) eqn:Hp; [|done].
  assert (exists_row p t = true) by (apply exists_row_true; eauto). congruence.
Qed.

Lemma select_nodup p (t : gmap K R) : NoDup (map fst (select p t)).
Proof.
  unfold select. pose proof (NoDup_fst_map_to_list t) as Hnd.
  induction (map_to_list t) as [|[k r] l IH]; simpl; [constructor|].
  apply NoDup_cons in Hnd as [Hk Hnd]. destruct (p k r); simpl; [|by apply IH].
  constructor; [|by apply IH]. intros Hin. apply Hk.
  apply list_elem_of_fmap in Hin as (y & Hy & Hin). apply list_elem_of_fmap. exists y. split; [done|].
  apply list_elem_of_In in Hin. apply List.filter_In in Hin as [Hin _]. by apply list_elem_of_In.
Qed.

End Tables.

(** [ORDER BY]: insertion sort by a Boolean "not after". *)
Section Sort.
  Context {A : Type} (leb : A -> A -> bool).

Fixpoint insert_by (x : A) (l : list A) : list A :=
  match l with
  | [] => [x]
  | y :: rest => if leb x y then x :: l else y :: insert_by x rest
  end.
Definition sort_by (l : list A) : list A := foldr insert_by [] l.

Lemma insert_by_perm x l : insert_by x l ≡ₚ x :: l.
Proof.
  induction l as [|y l IH]; simpl; [done|]. destruct (leb x y); [done|].
  rewrite IH. apply perm_swap.
Qed.
Lemma sort_by_perm l : sort_by l ≡ₚ l.
Proof. induction l as [|x l IH]; simpl; [done|]. by rewrite insert_by_perm, IH. Qed.

Lemma elem_sort_by x l : x ∈ sort_by l <-> x ∈ l.
Proof. by rewrite sort_by_perm. Qed.

(** The first row is not after any other. *)
Lemma sort_by_head l x :
  (forall a b, leb a b = true \/ leb b a = true) ->
  (forall a b c, leb a b = true -> leb b c = true -> leb a c = true) ->
  head (sort_by l) = Some x -> forall y, y ∈ l -> leb x y = true.
Proof.
  intros Htot Htrans. revert x. induction l as [|z l IH]; intros x Hx y Hy; [by apply elem_of_nil in Hy|].
  assert (Hrefl : forall a, leb a a = true) by (intros a; by destruct (Htot a a)).
  simpl in Hx. destruct (sort_by l) as [|w ws] eqn:E.
  - simpl in Hx. injection Hx as <-. apply elem_of_cons in Hy as [->|Hy]; [done|].
    rewrite <- (elem_sort_by y l), E in Hy. by apply elem_of_nil in Hy.
  - specialize (IH w eq_refl). simpl in Hx. destruct (leb z w) eqn:Hzw; injection Hx as <-.
    + apply elem_of_cons in Hy as [->|Hy]; [done|]. eauto.
    + apply elem_of_cons in Hy as [->|Hy]; [|eauto]. destruct (Htot z w); congruence.
Qed.

(** The result is sorted. *)
Hypothesis Htotal : forall a b, leb a b = true \/ leb b a = true.
Hypothesis Htrans : forall a b c, leb a b = true -> leb b c = true -> leb a c = true.

Lemma insert_by_sorted x l :
  StronglySorted (fun a b => leb a b = true) l -> StronglySorted (fun a b => leb a b = true) (insert_by x l).
Proof.
  induction 1 as [|y l Hl IH Hall]; simpl; [by repeat constructor|].
  destruct (leb x y) eqn:E.
  - constructor; [by constructor|]. constructor; [done|].
    eapply Forall_impl; [exact Hall|]. intros z Hz. by apply (Htrans x y z).
  - constructor; [done|]. rewrite insert_by_perm. constructor; [|done].
    destruct (Htotal x y); congruence.
Qed.

Lemma sort_by_sorted l : StronglySorted (fun a b => leb a b = true) (sort_by l).
Proof. induction l; simpl; [constructor|by apply insert_by_sorted]. Qed.

End Sort.

(** [LIMIT n] *)
Definition limit {A} (n : nat) (l : list A) : list A := firstn n l.

Lemma elem_limit {A} n (l : list A) x : x ∈ limit n l -> x ∈ l.
Proof. intros Hx. rewrite <- (take_drop n l). apply elem_of_app. by left. Qed.

(** A column compared with a bound; NULL compares as unknown. *)
Definition le_time (c : option Time) (t : Time) : bool :=
  match c with Some x => x <=? t | None => false end.
Definition gt_time (c : option Time) (t : Time) : bool :=
  match c with Some x => t <? x | None => false end.
(** [c IS NULL OR c > t], [c IS NULL OR c <= t] *)
Definition null_or_gt (c : option Time) (t : Time) : bool :=
  match c with Some x => t <? x | None => true end.
Definition null_or_le (c : option Time) (t : Time) : bool :=
  match c with Some x => x <=? t | None => true end.
Definition is_id (c : option UUID) (u : UUID) : bool := bool_decide (c = Some u).

(** ** Transactions *)

Inductive DBErr :=
| ErrSQL | ErrNoRows | ErrNoJob | ErrLeaseLost | ErrExpired | ErrSuppressed | ErrStaleResolution
| ErrBlocked | ErrActive | ErrStale | ErrText (msg : string)
(** Errors of the message package *)
| ErrInvalidSubmission | ErrIdempotencyConflict | ErrSubmissionBudget | ErrSubmissionBatchTooLarge
| ErrStreamDenied | ErrStreamBudget | ErrSubmissionDisabled | ErrExpiredSubmission | ErrInvalidExpiry
| ErrInvalidSchedule | ErrScheduleCapacity | ErrControlNotFound | ErrNotCancellable.

Inductive CommitAnswer := Committed | NotCommitted | CommitUncertain.

(** What the server and the process give one transaction: [now()],
    [clock_timestamp()] and [time.Now()] at each step, new identifiers, the
    steps that fail, the rows [SKIP LOCKED] passes over, the number an event
    gets in the outbox ([nextval]), how documents and times are written as
    text, the answer of [COMMIT]. *)
Record World := MkWorld {
  w_now : Time; w_clock : nat -> Time; w_gotime : nat -> Time; w_uuid : nat -> UUID;
  w_fault : nat -> bool; w_skip : nat -> UUID -> bool; w_skip_owner : nat -> Owner -> bool;
  w_sequence : UUID -> Z; w_text : json -> string; w_stamp : Time -> string;
  w_commit : CommitAnswer }.

(** The view a statement has of its transaction. *)
Record At := MkAt {
  at_now : Time; at_clock : Time; at_skip : UUID -> bool; at_skip_owner : Owner -> bool;
  at_sequence : UUID -> Z; at_text : json -> string; at_stamp : Time -> string }.

Definition M (A : Type) : Type := World -> nat * DB -> DBErr + A * (nat * DB).
#[export] Instance M_ret : MRet M := fun A a w s => inr (a, s).
#[export] Instance M_bind : MBind M := fun A B k m w s =>
  match m w s with
  | inl e => inl e
  | inr (a, s') => k a w s'
  end.

(** [return err] inside a transaction *)
Definition raise {A} (e : DBErr) : M A := fun w s => inl e.

(** One statement; [None] is a constraint violation. *)
Definition stmt {A} (f : At -> DB -> option (A * DB)) : M A := fun w s =>
  let '(k, db) := s in
  if w_fault w k then inl ErrSQL
  else match f (MkAt (w_now w) (w_clock w k) (w_skip w k) (w_skip_owner w k) (w_sequence w) (w_text w) (w_stamp w)) db with
       | None => inl ErrSQL
       | Some (a, db') => inr (a, (S k, db'))
       end.

Definition query {A} (f : At -> DB -> A) : M A := stmt (fun t db => Some (f t db, db)).
Definition exec (f : At -> DB -> DB) : M unit := stmt (fun t db => Some (tt, f t db)).

(** [QueryRow(...).Scan]: no row is an error of its own. *)
Definition query_row {A} (f : At -> DB -> option A) : M A :=
  r ← query f; match r with Some a => mret a | None => raise ErrNoRows end.

(** [uuid.NewV7()], [time.Now().UTC()] *)
Definition fresh : M UUID := fun w s => inr (w_uuid w (fst s), (S (fst s), snd s)).
Definition gotime : M Time := fun w s => inr (w_gotime w (fst s), (S (fst s), snd s)).

Fixpoint forM {A} (l : list A) (body : A -> M unit) : M unit :=
  match l with
  | [] => mret tt
  | x :: rest => body x;; forM rest body
  end.

(** How a Go function ends its transaction: [tx.Commit()] and then a value or
    an error, or a return before it (the deferred rollback). *)
Inductive TxEnd A := Commit (r : DBErr + A) | Rollback (r : DBErr + A).
Arguments Commit {A} r.
Arguments Rollback {A} r.

Definition transact {A} (w : World) (body : M (TxEnd A)) (db : DB) : (DBErr + A) * DB :=
  match body w (0%nat, db) with
  | inl e => (inl e, db)
  | inr (Rollback r, _) => (r, db)
  | inr (Commit r, (_, db')) =>
      match w_commit w with
      | Committed => (r, db')
      | NotCommitted => (inl ErrSQL, db)
      | CommitUncertain => (inl ErrSQL, db')
      end
  end.

(** ** Events

    An insertion into [events] fires [capture_webhook_event] (migration 00030)
    in the same statement: an event of the kinds listed there, of a website's
    message, enters the outbox of the website's enabled endpoint. *)

Definition notified_kinds : list string :=
  ["FEEDBACK_LINKED"; "FEEDBACK_REVIEWED"; "FEEDBACK_INVALIDATED"; "MESSAGE_CANCELLED"; "SANDBOX_SIMULATED_ACCEPTED";
   "SANDBOX_SIMULATED_TEMP_FAILED"; "SANDBOX_SIMULATED_PERM_FAILED"; "SANDBOX_SIMULATED_UNKNOWN"; "SANDBOX_SIMULATED_BOUNCE";
   "SANDBOX_STORED"; "RECIPIENT_EXPIRED"; "EXPIRY_GATE_BLOCKED"; "MESSAGE_QUEUED"; "MESSAGE_SUPPRESSED"; "SMTP_ACCEPTED";
   "ATTEMPT_FINISHED"; "ATTEMPT_FAILED"; "DELIVERY_DECIDED"; "DELIVERY_UNKNOWN"; "UNKNOWN_RESOLVED"; "RETRY_EXHAUSTED"; "RETRY_QUEUED";
   "RECIPIENT_SUPPRESSED"; "SUPPRESSION_GATE_BLOCKED"; "PROVIDER_FAILOVER"; "LEASE_RECOVERED"]%string.
Definition feedback_kinds : list string := ["FEEDBACK_LINKED"; "FEEDBACK_REVIEWED"; "FEEDBACK_INVALIDATED"]%string.

(** A new row of the outbox: due at once, for a day *)
Definition captured (endpoint event message : UUID) (payload : string) (at_ deadline : Time) : OutboxRow :=
  MkOutboxRow endpoint event message payload HookPending 0 0 deadline at_ None None.

(** An identifier that names a row of the message, else null *)
Definition named {R} (owner : R -> UUID) (id : option UUID) (mid : UUID) (rows : gmap UUID R) : json :=
  match id with
  | Some u => match rows !! u with Some r => if bool_decide (owner r = mid) then JId u else JNull | None => JNull end
  | None => JNull
  end.

Definition notice (t : At) (id : UUID) (e : EventRow) (version seq : Z) (m : Message) (db : DB) : json :=
  let body := JObj [("schema_version", JNum version); ("event_id", JId id); ("type", JStr (e_event_type e)); ("message_id", JId (e_message_id e));
                    ("recipient_id", named r_message_id (e_recipient_id e) (e_message_id e) (recipients db));
                    ("attempt_id", named a_message_id (e_attempt_id e) (e_message_id e) (delivery_attempts db));
                    ("occurred_at", JStr (at_stamp t (e_event_time e))); ("sequence", JNum seq);
                    ("feedback_availability", JStr "NOT_EXPOSED")]%string in
  let body := if one_of (e_event_type e) feedback_kinds
              then json_set (json_set body "feedback_availability" (JStr "MANUAL_REVIEW")) "feedback_id"
                     (match e_data e with JObj fields => default JNull (json_get "feedback_link_id" fields) | _ => JNull end)
              else body in
  let body := if String.eqb (m_environment m) "sandbox"
              then json_set (json_set body "environment" (JStr "sandbox")) "simulation" (JBool true) else body in
  if version =? 2
  then json_set body "business" (JObj [("client_reference", JStr (m_client_reference m)); ("tags", JArr (map JStr (m_business_tags m)))]%string)
  else body.

(** The enabled endpoint of the website the message belongs to *)
Definition endpoint_for (mid : UUID) (db : DB) : option (UUID * WebhookEndpoint * Message) :=
  match messages db !! mid with
  | Some m =>
      if String.eqb (m_source_type m) "api" then
        match select (fun _ e => we_enabled e && bool_decide (m_api_key_id m = Some (we_api_key_id e))) (webhook_endpoints db) with
        | (id, e) :: _ => Some (id, e, m)
        | [] => None
        end
      else None
  | None => None
  end.

(** The event is new, so no other row of the endpoint has it; a payload has at most 4096 bytes. *)
Definition capture_webhook_event (t : At) (id : UUID) (e : EventRow) (db : DB) : option DB :=
  if negb (one_of (e_event_type e) notified_kinds) then Some db
  else match endpoint_for (e_message_id e) db with
  | None => Some db
  | Some (endpoint, ep, m) =>
      let seq := at_sequence t id in
      let payload := at_text t (notice t id e (we_schema_version ep) seq m db) in
      if (4096 <? Z.of_nat (String.length payload)) then None
      else rows ← insert_row seq (captured endpoint id (e_message_id e) payload (at_clock t) (at_clock t + 24 * Hour)) (webhook_outbox db);
           Some (db <| webhook_outbox := rows |>)
  end.

Definition insert_event (t : At) (id : UUID) (e : EventRow) (db : DB) : option DB :=
  rows ← insert_row id e (events db);
  capture_webhook_event t id e (db <| events := rows |>).

Definition record_event (id : UUID) (e : At -> EventRow) : M unit :=
  stmt (fun t db => db' ← insert_event t id (e t) db; Some (tt, db')).

(** What a new event does to the outbox: one row of its own when its kind is
    notified and its message has an endpoint, else nothing *)
Definition captures (id : UUID) (e : EventRow) (db : DB) (outbox : gmap Z OutboxRow) : Prop :=
  match (if one_of (e_event_type e) notified_kinds then endpoint_for (e_message_id e) db else None) with
  | Some (endpoint, _, _) => exists seq payload at_, webhook_outbox db !! seq = None /\
      outbox = <[seq := captured endpoint id (e_message_id e) payload at_ (at_ + 24 * Hour)]> (webhook_outbox db)
  | None => outbox = webhook_outbox db
  end.

(** The database with an event and an outbox *)
Definition with_event (id : UUID) (e : EventRow) (outbox : gmap Z OutboxRow) (db : DB) : DB :=
  db <| events := <[id := e]> (events db) |> <| webhook_outbox := outbox |>.

Arguments with_event id e outbox db /.

(** The event is recorded and captured, and nothing else happens. *)
Definition records (id : UUID) (e : EventRow) (db db' : DB) : Prop :=
  events db !! id = None /\ exists outbox, captures id e db outbox /\ db' = with_event id e outbox db.

Lemma captures_cases id e db outbox : captures id e db outbox -> outbox = webhook_outbox db \/
  one_of (e_event_type e) notified_kinds = true /\ exists seq endpoint payload at_, webhook_outbox db !! seq = None /\
    outbox = <[seq := captured endpoint id (e_message_id e) payload at_ (at_ + 24 * Hour)]> (webhook_outbox db).
Proof.
  unfold captures. destruct (one_of _ notified_kinds); [|by left]. destruct (endpoint_for _ _) as [[[endpoint ?] ?]|]; [|by left].
  intros (seq & payload & at_ & Hs & ->). right. by eauto 10.
Qed.

(** An event of a kind that is not notified is only recorded. *)
Lemma captures_silent id e db outbox : one_of (e_event_type e) notified_kinds = false -> captures id e db outbox -> outbox = webhook_outbox db.
Proof. unfold captures. by intros ->. Qed.

Lemma insert_event_some t id e db db' : insert_event t id e db = Some db' -> records id e db db'.
Proof.
  unfold insert_event. destruct (insert_row id e (events db)) as [rows|] eqn:E; [|done]. apply insert_row_some in E as [Hn ->]. cbn [mbind option_bind].
  intros H. split; [done|]. unfold capture_webhook_event in H. unfold captures. change (endpoint_for _ (_ <| events := _ |>)) with (endpoint_for (e_message_id e) db) in H.
  destruct (one_of (e_event_type e) notified_kinds); cbn [negb] in H; [|injection H as <-; by eexists].
  destruct (endpoint_for _ _) as [[[endpoint ep] m]|]; [|injection H as <-; by eexists]. cbv zeta in H.
  destruct (4096 <? _); [done|]. destruct (insert_row (at_sequence t id) _ _) as [rows|] eqn:E; [|done]. apply insert_row_some in E as [Hs ->].
  cbn [mbind option_bind] in H. injection H as <-. eexists. split; [|reflexivity]. by eauto 10.
Qed.

(** Events and their notices only grow, and every new notice is a fresh one of
    a new event of its message. *)
Record notified (db db' : DB) : Prop := {
  no_events : events db ⊆ events db';
  no_outbox : webhook_outbox db ⊆ webhook_outbox db';
  no_new : forall seq o, webhook_outbox db' !! seq = Some o -> webhook_outbox db !! seq = None ->
    ob_state o = HookPending /\ ob_attempts o = 0 /\ events db !! ob_event_id o = None /\
    exists e, events db' !! ob_event_id o = Some e /\ e_message_id e = ob_message_id o /\ one_of (e_event_type e) notified_kinds = true }.

Lemma notified_same db db' : events db' = events db -> webhook_outbox db' = webhook_outbox db -> notified db db'.
Proof. intros He Ho. split; rewrite ?He, ?Ho; try done. intros seq o H1 H2. congruence. Qed.

Lemma notified_refl db : notified db db.
Proof. by apply notified_same. Qed.

Lemma notified_trans db1 db2 db3 : notified db1 db2 -> notified db2 db3 -> notified db1 db3.
Proof.
  intros [E1 O1 N1] [E2 O2 N2]. split; [by etrans..|]. intros seq o H3 H1. destruct (webhook_outbox db2 !! seq) as [o'|] eqn:H2.
  - pose proof (lookup_weaken _ _ _ _ H2 O2) as H. rewrite H3 in H. injection H as <-.
    destruct (N1 seq o H2 H1) as (? & ? & ? & e & He & ?). do 3 (split; [done|]). exists e. split; [by eapply lookup_weaken|done].
  - destruct (N2 seq o H3 H2) as (? & ? & Hn & He). do 2 (split; [done|]). split; [|done].
    destruct (events db1 !! ob_event_id o) eqn:E; [|done]. by rewrite (lookup_weaken _ _ _ _ E E1) in Hn.
Qed.

Lemma notified_event id e outbox db : events db !! id = None -> captures id e db outbox -> notified db (with_event id e outbox db).
Proof.
  intros Hn Hc. apply captures_cases in Hc. split; simpl.
  - by apply insert_subseteq.
  - destruct Hc as [->|(_ & seq & ep & p & at_ & Hs & ->)]; [done|by apply insert_subseteq].
  - intros seq o H1 H2. destruct Hc as [->|(Hk & seq' & ep & p & at_ & Hs & ->)]; [congruence|].
    apply lookup_insert_Some in H1 as [[<- <-]|[_ H1]]; [|congruence]. simpl. do 3 (split; [done|]).
    exists e. by rewrite lookup_insert_eq.
Qed.

Lemma notified_records id e db db' : records id e db db' -> notified db db'.
Proof. intros (Hn & outbox & Hc & ->). by apply notified_event. Qed.

(** ** Reasoning about transaction bodies

    [triple P m Q]: from a database in [P], when [m] completes, [Q] holds of
    its result and the database.  A body that stops with an error is rolled
    back, so nothing is claimed of it. *)

Definition triple {A} (P : DB -> Prop) (m : M A) (Q : A -> DB -> Prop) : Prop :=
  forall w k db a k' db', P db -> m w (k, db) = inr (a, (k', db')) -> Q a db'.

Lemma triple_ret {A} (a : A) (Q : A -> DB -> Prop) : triple (Q a) (mret a) Q.
Proof. intros w k db a' k' db' HP Hm. unfold mret, M_ret in Hm. by simplify_eq. Qed.

Lemma triple_return {A} (a : A) (P : DB -> Prop) (Q : A -> DB -> Prop) :
  (forall db, P db -> Q a db) -> triple P (mret a) Q.
Proof. intros HQ w k db a' k' db' HP Hm. unfold mret, M_ret in Hm. simplify_eq. auto. Qed.

Lemma triple_bind {A B} P (R : A -> DB -> Prop) Q (m : M A) (f : A -> M B) :
  triple P m R -> (forall a, triple (R a) (f a) Q) -> triple P (m ≫= f) Q.
Proof.
  intros Hm Hf w k db b k' db' HP H. unfold mbind, M_bind in H.
  destruct (m w (k, db)) as [e|[a [k1 db1]]] eqn:E; [done|].
  eapply Hf; [|exact H]. by eapply Hm.
Qed.

Lemma triple_conseq {A} (P P' : DB -> Prop) (m : M A) (Q Q' : A -> DB -> Prop) :
  triple P m Q -> (forall db, P' db -> P db) -> (forall a db, Q a db -> Q' a db) -> triple P' m Q'.
Proof. intros H HP HQ w k db a k' db' Hp Hm. eapply HQ, H; eauto. Qed.

Lemma triple_and {A} P (m : M A) (Q Q' : A -> DB -> Prop) :
  triple P m Q -> triple P m Q' -> triple P m (fun a db => Q a db /\ Q' a db).
Proof. intros H H' w k db a k' db' HP Hm. split; [by eapply H|by eapply H']. Qed.

(** Speak of the database a computation starts from. *)
Lemma triple_from {A} (P : DB -> Prop) (m : M A) (Q : A -> DB -> Prop) :
  (forall db1, P db1 -> triple (fun db => db = db1) m Q) -> triple P m Q.
Proof. intros H w k db a k' db' HP Hm. by eapply (H db HP). Qed.

Lemma triple_stmt {A} (P : DB -> Prop) f (Q : A -> DB -> Prop) :
  (forall t db a db', P db -> f t db = Some (a, db') -> Q a db') -> triple P (stmt f) Q.
Proof.
  intros Hf w k db a k' db' HP H. unfold stmt in H. destruct (w_fault w k); [done|].
  destruct (f _ db) as [[a1 db1]|] eqn:E; [|done]. simplify_eq. by eapply Hf.
Qed.

Lemma triple_record (P : DB -> Prop) id e (Q : unit -> DB -> Prop) :
  (forall t db outbox, P db -> events db !! id = None -> captures id (e t) db outbox -> Q tt (with_event id (e t) outbox db)) ->
  triple P (record_event id e) Q.
Proof.
  intros HQ. apply triple_stmt. intros t db [] db' HP H. destruct (insert_event t id (e t) db) as [d|] eqn:E; [|done].
  apply insert_event_some in E as (Hn & outbox & Hc & ->). injection H as <-. by apply HQ.
Qed.

Lemma triple_exec (P : DB -> Prop) f (Q : unit -> DB -> Prop) :
  (forall t db, P db -> Q tt (f t db)) -> triple P (exec f) Q.
Proof. intros Hf. apply triple_stmt. intros t db a db' HP He. simplify_eq. auto. Qed.

Lemma triple_query {A} (P : DB -> Prop) (f : At -> DB -> A) (Q : A -> DB -> Prop) :
  (forall t db, P db -> Q (f t db) db) -> triple P (query f) Q.
Proof. intros Hf. apply triple_stmt. intros t db a db' HP He. simplify_eq. auto. Qed.

Lemma triple_raise {A} P e (Q : A -> DB -> Prop) : triple P (raise e) Q.
Proof. by intros w k db a k' db' HP H. Qed.

Lemma triple_query_row {A} (P : DB -> Prop) (f : At -> DB -> option A) (Q : A -> DB -> Prop) :
  (forall t db a, P db -> f t db = Some a -> Q a db) -> triple P (query_row f) Q.
Proof.
  intros Hf. apply (triple_bind _ (fun r db => forall a, r = Some a -> Q a db)).
  - apply triple_query. eauto.
  - intros [a|]; [|apply triple_raise]. eapply triple_conseq; [apply triple_ret| |done]. eauto.
Qed.

(** A fact that does not depend on the database. *)
Lemma triple_pure {A} (P : DB -> Prop) (F : Prop) (m : M A) (Q : A -> DB -> Prop) :
  (F -> triple P m Q) -> triple (fun db => P db /\ F) m Q.
Proof. intros H w k db a k' db' [HP HF]. by apply H. Qed.

Lemma triple_fresh (P : DB -> Prop) : triple P fresh (fun _ => P).
Proof. intros w k db a k' db' HP H. unfold fresh in H. by simplify_eq/=. Qed.
Lemma triple_gotime (P : DB -> Prop) : triple P gotime (fun _ => P).
Proof. intros w k db a k' db' HP H. unfold gotime in H. by simplify_eq/=. Qed.

Lemma triple_forM {A} (I : list A -> DB -> Prop) (l : list A) (body : A -> M unit) :
  (forall x rest, triple (I (x :: rest)) (body x) (fun _ => I rest)) ->
  triple (I l) (forM l body) (fun _ => I []).
Proof.
  intros Hbody. induction l as [|x l IH]; simpl.
  - apply (triple_ret tt (fun _ => I [])).
  - eapply triple_bind; [apply Hbody|]. intros []. exact IH.
Qed.

(** A loop that keeps an invariant. *)
Lemma triple_loop {A} (I : DB -> Prop) (l : list A) (body : A -> M unit) :
  (forall x, x ∈ l -> triple I (body x) (fun _ => I)) -> triple I (forM l body) (fun _ => I).
Proof.
  induction l as [|x l IH]; intros Hbody; simpl; [apply (triple_ret tt (fun _ => I))|].
  eapply triple_bind; [apply Hbody; constructor|]. intros []. apply IH.
  intros y Hy. apply Hbody. by constructor.
Qed.

(** A body that establishes [Q] gives it to every outcome of the transaction
    that changed the database; a caller that saw success knows it committed. *)
Lemma transact_triple {A} P w (body : M (TxEnd A)) (Q : TxEnd A -> DB -> Prop) db r db' :
  triple P body Q -> P db -> transact w body db = (r, db') ->
  db' = db \/ exists r', Q (Commit r') db' /\ (r = r' \/ r = inl ErrSQL).
Proof.
  intros Ht HP H. unfold transact in H.
  destruct (body w (0%nat, db)) as [e|[[r'|r'] [k db1]]] eqn:E; simplify_eq; auto.
  pose proof (Ht _ _ _ _ _ _ HP E) as HQ. destruct (w_commit w); simplify_eq; eauto.
Qed.

(** ** Reasoning in one world

    As above for the transaction that runs in [w], where a statement's view is
    that of one of its steps: for statements about the times at which
    something was checked. *)

Definition at_step (w : World) (k : nat) : At :=
  MkAt (w_now w) (w_clock w k) (w_skip w k) (w_skip_owner w k) (w_sequence w) (w_text w) (w_stamp w).

Definition wtriple {A} (w : World) (P : DB -> Prop) (m : M A) (Q : A -> DB -> Prop) : Prop :=
  forall k db a k' db', P db -> m w (k, db) = inr (a, (k', db')) -> Q a db'.

Section InWorld.
  Context (w : World).

Lemma wtriple_of {A} P (m : M A) Q : triple P m Q -> wtriple w P m Q.
Proof. intros H k db a k' db'. apply H. Qed.

Lemma wtriple_bind {A B} P (R : A -> DB -> Prop) Q (m : M A) (f : A -> M B) :
  wtriple w P m R -> (forall a, wtriple w (R a) (f a) Q) -> wtriple w P (m ≫= f) Q.
Proof.
  intros Hm Hf k db b k' db' HP H. unfold mbind, M_bind in H.
  destruct (m w (k, db)) as [e|[a [k1 db1]]] eqn:E; [done|].
  eapply Hf; [|exact H]. by eapply Hm.
Qed.

Lemma wtriple_stmt {A} (P : DB -> Prop) f (Q : A -> DB -> Prop) :
  (forall k db a db', P db -> f (at_step w k) db = Some (a, db') -> Q a db') -> wtriple w P (stmt f) Q.
Proof.
  intros Hf k db a k' db' HP H. unfold stmt in H. destruct (w_fault w k); [done|].
  destruct (f _ db) as [[a1 db1]|] eqn:E; [|done]. simplify_eq. by eapply Hf.
Qed.

Lemma wtriple_query {A} (P : DB -> Prop) (f : At -> DB -> A) (Q : A -> DB -> Prop) :
  (forall k db, P db -> Q (f (at_step w k) db) db) -> wtriple w P (query f) Q.
Proof. intros Hf. apply wtriple_stmt. intros k db a db' HP He. simplify_eq. auto. Qed.

Lemma wtriple_pure {A} (P : DB -> Prop) (F : Prop) (m : M A) (Q : A -> DB -> Prop) :
  (F -> wtriple w P m Q) -> wtriple w (fun db => P db /\ F) m Q.
Proof. intros H k db a k' db' [HP HF]. by apply H. Qed.

Lemma wtriple_value {A} P (body : M (TxEnd A)) (Q : TxEnd A -> DB -> Prop) db a db' :
  wtriple w P body Q -> P db -> transact w body db = (inr a, db') ->
  Q (Commit (inr a)) db' \/ exists d, Q (Rollback (inr a)) d /\ db' = db.
Proof.
  intros Ht HP H. unfold transact in H.
  destruct (body w (0%nat, db)) as [e|[[r'|r'] [k db1]]] eqn:E; simplify_eq.
  - pose proof (Ht _ _ _ _ _ HP E) as HQ. destruct (w_commit w); simplify_eq. by left.
  - right. exists db1. split; [|done]. exact (Ht _ _ _ _ _ HP E).
Qed.

End InWorld.

Lemma wtriple_triple {A} P (m : M A) Q : (forall w, wtriple w P m Q) -> triple P m Q.
Proof. intros H w k db a k' db'. apply H. Qed.

(** A caller that got a value knows how the body ended. *)
Lemma transact_value {A} P w (body : M (TxEnd A)) (Q : TxEnd A -> DB -> Prop) db a db' :
  triple P body Q -> P db -> transact w body db = (inr a, db') ->
  Q (Commit (inr a)) db' \/ exists d, Q (Rollback (inr a)) d /\ db' = db.
Proof. intros Ht. by apply wtriple_value, wtriple_of. Qed.

(** Nothing is claimed of the step. *)
Lemma triple_any {A} (P : DB -> Prop) (m : M A) : triple P m (fun _ _ => True).
Proof. by intros w k db a k' db' _ _. Qed.
