(* ===== verification/UuidText.v ===== *)
(** * Facts about the text of identifiers

    The text of a UUID has 36 ASCII characters and determines the 128-bit
    value. *)

From S2P Require Import Prelude Sha256 GoText TextFacts JsonText Delivery SmtpClient Provider Database.

Definition width : N := 2 ^ 128.

Definition hex_digit_value (c : ascii) : N :=
  let n := N_of_ascii c in if (n <? 58)%N then n - 48 else n - 87.

(** The value of the digits; dashes are passed over. *)
Fixpoint uuid_value (a : N) (s : string) : N :=
  match s with
  | EmptyString => a
  | String c rest => if Ascii.eqb c "-" then uuid_value a rest else uuid_value (a * 16 + hex_digit_value c) rest
  end.

(** A fact about the sixteen digits *)
Lemma hex_cases (P : N -> Prop) d : (forall k : nat, (k < 16)%nat -> P (N.of_nat k)) -> (d < 16)%N -> P d.
Proof. intros H Hd. rewrite <- (N2Nat.id d). apply H. lia. Qed.

Lemma hex_char_facts d : (d < 16)%N ->
  hex_digit_value (hex_char d) = d /\ Ascii.eqb (hex_char d) "-" = false /\ (N_of_ascii (hex_char d) < 128)%N.
Proof. intros Hd. pattern d. apply hex_cases; [|done]. intros k Hk. do 16 (destruct k as [|k]; [by vm_compute|]). lia. Qed.

Lemma value_dash b a s : uuid_value a (if b : bool then String "-" s else s) = uuid_value a s.
Proof. by destruct b. Qed.

Lemma value_digits count u acc a :
  uuid_value a (hex_digits count u acc) = uuid_value (a * 16 ^ N.of_nat count + u mod 16 ^ N.of_nat count) acc.
Proof.
  revert u acc a. induction count as [|k IH]; intros u acc a.
  - cbn [hex_digits]. rewrite N.pow_0_r, N.mod_1_r. f_equal. lia.
  - cbn [hex_digits]. rewrite IH, value_dash. cbn [uuid_value]. pose proof (N.mod_lt u 16 ltac:(done)) as Hm.
    destruct (hex_char_facts _ Hm) as (-> & -> & _). f_equal. rewrite Nat2N.inj_succ, N.pow_succ_r by lia.
    rewrite (N.Div0.mod_mul_r u 16). lia.
Qed.

Lemma value_text u : (u < width)%N -> uuid_value 0 (uuid_text u) = u.
Proof.
  intros Hu. unfold uuid_text. generalize (value_digits 32 u "" 0).
  replace (16 ^ N.of_nat 32)%N with width by (vm_compute; reflexivity). generalize width, Hu. intros w Hw ->.
  cbn [uuid_value]. rewrite N.mul_0_l, N.add_0_l. by apply N.mod_small.
Qed.

Lemma uuid_text_inj u v : (u < width)%N -> (v < width)%N -> uuid_text u = uuid_text v -> u = v.
Proof.
  intros Hu Hv E. rewrite <- (value_text u Hu), <- (value_text v Hv). by rewrite E.
Qed.

Lemma uuid_text_ascii u : ascii_text (uuid_text u).
Proof.
  unfold uuid_text. assert (H : forall count v acc, ascii_text acc -> ascii_text (hex_digits count v acc)); [|apply H; intros c Hc; by apply elem_of_nil in Hc].
  induction count as [|k IH]; intros v acc Hacc; [done|]. cbn [hex_digits]. apply IH.
  assert (ascii_text (String (hex_char (v mod 16)) acc)) by (apply ascii_text_cons; split; [by apply hex_char_facts, N.mod_lt|done]).
  destruct (one_of _ _); [|done]. apply ascii_text_cons. by split.
Qed.

(** The digits and dashes in front of [acc]. *)
Fixpoint text_size (count : nat) : nat :=
  match count with O => 0 | S k => S ((if one_of k [8; 12; 16; 20]%nat then 1 else 0) + text_size k) end.

Lemma uuid_text_length u : String.length (uuid_text u) = 36%nat.
Proof.
  assert (H : forall count v acc, String.length (hex_digits count v acc) = (text_size count + String.length acc)%nat).
  { induction count as [|k IH]; intros v acc; [done|]. cbn [hex_digits text_size]. rewrite IH. destruct (one_of _ _); simpl; lia. }
  unfold uuid_text. by rewrite H.
Qed.
