(* ===== verification/WebhookHttp.v ===== *)
(** * Notifications over HTTPS

    [internal/webhook/http.go] and the endpoint data of [config.go]: request
    signatures, the addresses a notification may be sent to, and one request.
    [net/url]'s parser and the answers of the resolver and of the server are
    arguments. *)

From S2P Require Import Prelude Sha256 GoText TextFacts Database.

(** The fields of [url.URL] that [ValidateURL] looks at. *)
Record URL := MkURL {
  u_Scheme : string; u_User : bool; u_Opaque : string; u_Hostname : string; u_Port : string;
  u_RawQuery : string; u_ForceQuery : bool; u_Fragment : string }.

(** [url.Parse] *)
Class URLParser := url_Parse : string -> option URL.

Module Hook.

(** ** Endpoints *)

Record Key := MkKey { key_ID : string; key_Secret : string }.
Record Endpoint := MkEndpoint {
  ep_SchemaVersion : Z; ep_ID : UUID; ep_APIKeyID : UUID; ep_URL : string; ep_Keys : list Key }.

(** [keyID]: [^[a-zA-Z0-9_-]{1,32}$] *)
Definition keyID (s : string) : bool :=
  all_chars name_char s && (1 <=? String.length s)%nat && (String.length s <=? 32)%nat.

(** Backslash, CR, LF, tab and space. *)
Definition url_forbidden : string := String "092" (String "013" (String "010" (String "009" (String " " EmptyString)))).

Definition ValidateURL {parser : URLParser} (raw : string) : bool :=
  match url_Parse raw with
  | None => false
  | Some u =>
      negb ((2048 <? String.length raw)%nat || negb (String.eqb (u_Scheme u) "https") || u_User u
            || negb (String.eqb (u_Opaque u) "") || String.eqb (u_Hostname u) ""
            || (negb (String.eqb (u_Port u) "") && negb (String.eqb (u_Port u) "443"))
            || negb (String.eqb (u_RawQuery u) "") || u_ForceQuery u || negb (String.eqb (u_Fragment u) "")
            || ContainsAny raw url_forbidden)
  end.

(** ** Signatures *)

(** [t.Unix()] and [time.Unix(sec, 0)]: Go's zero time is this many seconds
    before 1970, and the sum is taken in an int64. *)
Definition unix_epoch : Z := 62135596800.
Definition Unix (t : Time) : Z := i64 (t / Second - unix_epoch).
Definition UnixTime (sec : Z) : Time := i64 (sec + unix_epoch) * Second.

Definition secret_of (k : Key) : list byte := default [] (DecodeString (key_Secret k)).

(** One entry of the signature header. *)
Definition signature (k : Key) (stamp : string) (body : list byte) : string :=
  (key_ID k ++ String ":" (EncodeToString (Sha.hmac (secret_of k) (bytes_of stamp ++ [DOT] ++ body))))%string.

(** [strings.Join(signatures, ",")] *)
Fixpoint join (l : list string) : string :=
  match l with
  | [] => EmptyString
  | [s] => s
  | s :: rest => (s ++ String "," (join rest))%string
  end.

Definition Sign (keys : list Key) (at_ : Time) (body : list byte) : string * string :=
  let stamp := FormatInt (Unix at_) in
  (stamp, join (map (fun k => signature k stamp body) keys)).

Definition key_valid (k : Key) : bool :=
  match DecodeString (key_Secret k) with Some s => (length s =? 32)%nat && keyID (key_ID k) | None => false end.

Definition Verify (key : Key) (stamp sig : string) (body : list byte) (now : Time) : bool :=
  if (4096 <? N.of_nat (length body))%N || (256 <? String.length sig)%nat then false
  else match ParseInt stamp with
  | None => false
  | Some ts =>
      if negb (String.eqb (FormatInt ts) stamp) then false
      else
        let at_ := UnixTime ts in
        if Before at_ (now + - (5 * Minute)) || After at_ (now + 5 * Minute) then false
        else if negb (key_valid key) then false
        else
          let expected := snd (Sign [key] at_ body) in
          existsb (fun s => String.eqb s expected) (Split sig ",")
  end.

Lemma unix_roundtrip ts : - 2 ^ 63 <= ts < 2 ^ 63 -> Unix (UnixTime ts) = ts.
Proof.
  intros Hts. unfold Unix, UnixTime, i64. rewrite Z.div_mul by done.
  pose proof (Z.div_mod (ts + unix_epoch + 2 ^ 63) (2 ^ 64) ltac:(lia)) as Hd.
  set (q := (ts + unix_epoch + 2 ^ 63) / 2 ^ 64) in *. set (m := (ts + unix_epoch + 2 ^ 63) mod 2 ^ 64) in *.
  replace (m - 2 ^ 63 - unix_epoch + 2 ^ 63) with (ts + 2 ^ 63 + (- q) * 2 ^ 64) by lia.
  rewrite Z.mod_add by done. rewrite Z.mod_small by lia. lia.
Qed.

Lemma hex_char_clean bs c : c ∈ list_ascii_of_string (EncodeToString bs) -> c <> ","%char.
Proof.
  induction bs as [|b bs IH]; [by intros ?%elem_of_nil|]. cbn [EncodeToString list_ascii_of_string].
  intros [->|[->|Hc]%elem_of_cons]%elem_of_cons; [| |auto]; by destruct b.
Qed.

Lemma length_EncodeToString bs : String.length (EncodeToString bs) = (2 * length bs)%nat.
Proof. induction bs as [|b bs IH]; [done|]. cbn [EncodeToString String.length length]. rewrite IH. lia. Qed.

Lemma keyID_clean s c : keyID s = true -> c ∈ list_ascii_of_string s -> c <> ","%char.
Proof.
  unfold keyID. intros [[Ha _]%andb_true_iff _]%andb_true_iff Hc ->.
  by apply (proj1 (all_chars_elem name_char s)) with (c := ","%char) in Ha.
Qed.

(** No comma in an entry, so splitting the header gives the entries back. *)
Lemma signature_clean k stamp body c :
  keyID (key_ID k) = true -> c ∈ list_ascii_of_string (signature k stamp body) -> c <> ","%char.
Proof.
  unfold signature. intros Hk [Hc|Hc]%elem_append; [by eapply keyID_clean|].
  cbn [list_ascii_of_string] in Hc. apply elem_of_cons in Hc as [->|Hc]; [done|]. by eapply hex_char_clean.
Qed.

Lemma split_join l :
  l <> [] -> (forall s c, s ∈ l -> c ∈ list_ascii_of_string s -> c <> ","%char) -> Split (join l) "," = l.
Proof.
  unfold Split. induction l as [|s l IH]; intros Hl Hc; [done|].
  assert (Hs : forall c, c ∈ list_ascii_of_string s -> c <> ","%char) by (intros c; apply Hc; by left).
  destruct l as [|s' l]; cbn [join].
  - rewrite split_at_clean by done. f_equal. apply string_rev_rev.
  - rewrite split_at_two by done. f_equal; [apply string_rev_rev|]. apply IH; [done|].
    intros x c Hx. apply Hc. by right.
Qed.

(** SHA-256 keeps eight words, so a digest has 32 bytes. *)
Lemma length_one_round h kw : length h = 8%nat -> length (Sha.one_round h kw) = 8%nat.
Proof. intros Hh. destruct h as [|? [|? [|? [|? [|? [|? [|? [|? [|? ?]]]]]]]]]; done. Qed.

Lemma length_fold {A} (f : list N -> A -> list N) l h :
  (forall x a, length x = 8%nat -> length (f x a) = 8%nat) -> length h = 8%nat -> length (fold_left f l h) = 8%nat.
Proof. intros Hf. revert h. induction l as [|a l IH]; intros h Hh; [done|]. cbn [fold_left]. apply IH, Hf, Hh. Qed.

Lemma length_compress h block : length h = 8%nat -> length (Sha.compress h block) = 8%nat.
Proof.
  intros Hh. unfold Sha.compress. rewrite length_zip_with, Hh, length_fold; [done| |done].
  intros x kw. apply length_one_round.
Qed.

Lemma length_Sum256 bs : length (Sha.Sum256 bs) = 32%nat.
Proof.
  unfold Sha.Sum256.
  assert (H : length (fold_left Sha.compress (Sha.blocks (length (Sha.words (Sha.pad bs))) (Sha.words (Sha.pad bs))) Sha.initial_hash) = 8%nat)
    by (apply length_fold; [intros x a; apply length_compress|done]).
  revert H. generalize (fold_left Sha.compress (Sha.blocks (length (Sha.words (Sha.pad bs))) (Sha.words (Sha.pad bs))) Sha.initial_hash).
  intros h Hh. destruct h as [|? [|? [|? [|? [|? [|? [|? [|? [|? ?]]]]]]]]]; done.
Qed.

Lemma length_signature k stamp body :
  key_valid k = true -> (String.length (signature k stamp body) <= 97)%nat.
Proof.
  unfold key_valid, keyID. destruct (DecodeString (key_Secret k)) as [s|]; [|done].
  intros [_ [_ Hk]%andb_true_iff]%andb_true_iff. apply Nat.leb_le in Hk.
  unfold signature. rewrite length_append. cbn [String.length]. rewrite length_EncodeToString. unfold Sha.hmac. rewrite length_Sum256. lia.
Qed.

Lemma key_valid_id k : key_valid k = true -> keyID (key_ID k) = true.
Proof. unfold key_valid. destruct (DecodeString _); [|done]. by intros [_ H]%andb_true_iff. Qed.

Lemma signatures_short keys stamp body :
  (length keys <= 2)%nat -> (forall k, k ∈ keys -> key_valid k = true) ->
  (String.length (join (map (fun k => signature k stamp body) keys)) <= 256)%nat.
Proof.
  intros Hn Hv. destruct keys as [|k1 [|k2 [|]]]; cbn [map join length] in *; [simpl; lia| | |lia].
  - pose proof (length_signature k1 stamp body (Hv k1 ltac:(by left))). lia.
  - pose proof (length_signature k1 stamp body (Hv k1 ltac:(by left))).
    pose proof (length_signature k2 stamp body (Hv k2 ltac:(by right; left))).
    rewrite length_append. cbn [String.length]. lia.
Qed.

Lemma Verify_sound key stamp sig body now :
  Verify key stamp sig body now = true ->
  signature key stamp body ∈ Split sig "," /\
  exists ts, stamp = FormatInt ts /\ Z.abs (now - UnixTime ts) <= 5 * Minute.
Proof.
  intros H. unfold Verify in H.
  destruct (_ || _); [done|]. destruct (ParseInt stamp) as [ts|] eqn:Ep; [|done].
  destruct (String.eqb_spec (FormatInt ts) stamp) as [<-|]; [|done]. cbn [negb] in H.
  destruct (Before _ _ || After _ _) eqn:Ew; [done|]. destruct (key_valid key); [|done]. cbn [negb] in H.
  apply existsb_exists in H as (s & Hs & ->%String.eqb_eq). split.
  - apply list_elem_of_In. unfold Sign in Hs. cbn [snd map join] in Hs.
    rewrite unix_roundtrip in Hs by (by eapply ParseInt_range). done.
  - exists ts. split; [done|]. unfold Before, After in Ew. lia.
Qed.

(** The timestamp of a signature, read back. *)
Lemma stamp_time at_ : 0 <= at_ < 2 ^ 63 * Second ->
  - 2 ^ 63 <= Unix at_ < 2 ^ 63 /\ UnixTime (Unix at_) = at_ / Second * Second.
Proof.
  intros Hat.
  assert (Hq : 0 <= at_ / Second < 2 ^ 63) by (split; [apply Z.div_pos; lia|apply Z.div_lt_upper_bound; lia]).
  assert (Hts : Unix at_ = at_ / Second - unix_epoch) by (unfold Unix, unix_epoch; apply i64_small; lia).
  rewrite Hts. split; [unfold unix_epoch; lia|].
  unfold UnixTime. rewrite i64_small by (unfold unix_epoch in *; lia). f_equal. lia.
Qed.

(** Signatures and their verification agree.  What [Sign] produces for an
    endpoint's one or two keys verifies with each of them, for every body the
    outbox can hold, as long as the receiver's clock is within five minutes.
    Conversely a request verifies only if its header contains the HMAC-SHA256,
    under that key, of exactly this timestamp and this body, and the timestamp
    is canonical and within five minutes. *)
Theorem signature_verifies keys at_ body now key :
  (length keys <= 2)%nat -> (forall k, k ∈ keys -> key_valid k = true) -> key ∈ keys ->
  Z.of_nat (length body) <= 4096 -> 0 <= at_ < 2 ^ 63 * Second ->
  (Z.abs (now - at_ / Second * Second) <= 5 * Minute ->
   Verify key (fst (Sign keys at_ body)) (snd (Sign keys at_ body)) body now = true) /\
  (forall stamp sig b, Verify key stamp sig b now = true ->
     signature key stamp b ∈ Split sig "," /\
     exists ts, stamp = FormatInt ts /\ Z.abs (now - UnixTime ts) <= 5 * Minute).
Proof.
  intros Hn Hv Hk Hb Hat. split; [|intros stamp sig b; apply Verify_sound]. intros Hnow.
  destruct (stamp_time at_ Hat) as [Hrange Htime]. unfold Sign. cbn [fst snd].
  set (ts := Unix at_) in *. set (sigs := map (fun k => signature k (FormatInt ts) body) keys).
  unfold Verify. assert ((4096 <? N.of_nat (length body))%N = false) as -> by (apply N.ltb_ge; lia).
  assert ((256 <? String.length (join sigs))%nat = false) as -> by (by apply Nat.ltb_ge, signatures_short).
  cbn [orb]. rewrite ParseInt_FormatInt, String.eqb_refl, Htime by done. cbn [negb].
  assert (Before (at_ / Second * Second) (now + - (5 * Minute)) || After (at_ / Second * Second) (now + 5 * Minute) = false)
    as -> by (unfold Before, After; lia).
  rewrite (Hv key Hk). cbn [negb]. rewrite split_join.
  - apply existsb_exists. exists (signature key (FormatInt ts) body). split.
    + unfold sigs. apply in_map_iff. exists key. split; [done|]. by apply list_elem_of_In.
    + unfold Sign. cbn [snd map join]. apply String.eqb_eq. do 2 f_equal. rewrite <- Htime. symmetry. by apply unix_roundtrip.
  - unfold sigs. destruct keys; [by apply elem_of_nil in Hk|done].
  - intros s c Hs Hc. unfold sigs in Hs. apply list_elem_of_In, in_map_iff in Hs as (k & <- & Hin).
    eapply signature_clean; [|exact Hc]. by apply key_valid_id, Hv, list_elem_of_In.
Qed.

Definition demo_key (id digit : string) : Key := MkKey id (String.concat "" (repeat digit 64)).
Definition demo_keys : list Key := [demo_key "k1" "a"; demo_key "k2" "b"].
Definition demo_at : Time := 738000 * 24 * Hour + 5.

Lemma signature_verifies_witness :
  Verify (demo_key "k2" "b") (fst (Sign demo_keys demo_at (bytes_of "{}"))) (snd (Sign demo_keys demo_at (bytes_of "{}")))
    (bytes_of "{}") (demo_at + Minute) = true.
Proof.
  apply (signature_verifies demo_keys demo_at (bytes_of "{}") (demo_at + Minute) (demo_key "k2" "b")).
  - simpl. lia.
  - intros k [->|[->|H%elem_of_nil]%elem_of_cons]%elem_of_cons; [vm_compute; reflexivity|vm_compute; reflexivity|done].
  - right. left.
  - simpl. lia.
  - vm_compute. split; [discriminate|reflexivity].
  - vm_compute. discriminate.
Defined.

(** ** Addresses *)

(** [netip.Addr]; an IPv4 address is kept apart from the IPv6 address it maps to. *)
Inductive Addr := Invalid | V4 (a : N) | V6 (a : N) (zone : string).

(** [netip.Prefix]: family, address and length *)
Inductive Prefix := P4 (a : N) (bits : N) | P6 (a : N) (bits : N).

Definition Contains (p : Prefix) (ip : Addr) : bool :=
  match p, ip with
  | P4 q bits, V4 a => N.shiftr a (32 - bits) =? N.shiftr q (32 - bits)
  | P6 q bits, V6 a zone => String.eqb zone "" && (N.shiftr a (128 - bits) =? N.shiftr q (128 - bits))
  | _, _ => false
  end%N.

Definition quad (a b c d : N) : N := (((a * 256 + b) * 256 + c) * 256 + d)%N.
(** The first two 16-bit groups of an IPv6 address, and the third. *)
Definition six (g1 g2 g3 : N) : N := N.shiftl ((g1 * 65536 + g2) * 65536 + g3) 80.

Definition mapped : Prefix := P6 (N.shiftl 0xffff 32) 96.
Definition Unmap (ip : Addr) : Addr :=
  match ip with V6 a z => if Contains mapped (V6 a "") then V4 (a mod 2 ^ 32) else ip | _ => ip end.

Definition IsLoopback (ip : Addr) : bool :=
  match Unmap ip with V4 a => N.shiftr a 24 =? 127 | V6 a _ => a =? 1 | Invalid => false end%N.
Definition IsMulticast (ip : Addr) : bool :=
  match Unmap ip with V4 a => N.shiftr a 28 =? 14 | V6 a _ => N.shiftr a 120 =? 255 | Invalid => false end%N.
Definition IsLinkLocalUnicast (ip : Addr) : bool :=
  match Unmap ip with
  | V4 a => N.shiftr a 16 =? 169 * 256 + 254 | V6 a _ => N.shiftr a 118 =? 0xfe80 / 64 | Invalid => false
  end%N.
Definition IsPrivate (ip : Addr) : bool :=
  match Unmap ip with
  | V4 a => (N.shiftr a 24 =? 10) || (N.shiftr a 20 =? 172 * 16 + 1) || (N.shiftr a 16 =? 192 * 256 + 168)
  | V6 a _ => N.shiftr a 121 =? 0xfc / 2
  | Invalid => false
  end%N.
Definition IsGlobalUnicast (ip : Addr) : bool :=
  match ip with
  | Invalid => false
  | V4 a => negb (a =? 0)%N && negb (a =? 2 ^ 32 - 1)%N
            && negb (IsLoopback ip) && negb (IsMulticast ip) && negb (IsLinkLocalUnicast ip)
  | V6 a _ => negb (a =? 0)%N && negb (IsLoopback ip) && negb (IsMulticast ip) && negb (IsLinkLocalUnicast ip)
  end.

Definition denied : list Prefix := [
  P4 (quad 0 0 0 0) 8; P4 (quad 10 0 0 0) 8; P4 (quad 100 64 0 0) 10; P4 (quad 127 0 0 0) 8;
  P4 (quad 169 254 0 0) 16; P4 (quad 172 16 0 0) 12; P4 (quad 192 0 0 0) 24; P4 (quad 192 0 2 0) 24;
  P4 (quad 192 168 0 0) 16; P4 (quad 192 88 99 0) 24; P4 (quad 198 18 0 0) 15; P4 (quad 198 51 100 0) 24;
  P4 (quad 203 0 113 0) 24; P4 (quad 224 0 0 0) 4; P4 (quad 240 0 0 0) 4;
  P6 0 96; mapped; P6 (six 0x64 0xff9b 0) 96; P6 (six 0x64 0xff9b 1) 48; P6 (six 0x100 0 0) 64;
  P6 (six 0x2001 0 0) 23; P6 (six 0x2001 0xdb8 0) 32; P6 (six 0x2002 0 0) 16; P6 (six 0x3fff 0 0) 20;
  P6 (six 0xfc00 0 0) 7; P6 (six 0xfe80 0 0) 10; P6 (six 0xff00 0 0) 8 ].

Definition has_zone (ip : Addr) : bool := match ip with V6 _ z => negb (String.eqb z "") | _ => false end.

Definition publicIP (ip : Addr) : bool :=
  if match ip with Invalid => true | _ => false end || has_zone ip || negb (IsGlobalUnicast ip) || IsPrivate ip
     || IsLoopback ip || IsLinkLocalUnicast ip then false
  else if existsb (fun p => Contains p ip) denied then false
  else match ip with V4 _ => true | _ => Contains (P6 (six 0x2000 0 0) 3) ip end.

(** [safeDial] up to the dial: [hostport] is [net.SplitHostPort(address)] and
    [lookup] the resolver's answer; the result is the address dialled, always
    at port 443. *)
Definition safeDial (hostport : option (string * string)) (expected : string) (lookup : string -> option (list Addr))
  : option (Addr * string) :=
  match hostport with
  | Some (host, port) =>
      if negb (String.eqb host expected) || negb (String.eqb port "443") then None
      else match lookup host with
      | Some (ip :: ips) =>
          if (16 <? length (ip :: ips))%nat then None
          else if forallb publicIP (ip :: ips) then Some (ip, "443"%string) else None
      | _ => None
      end
  | None => None
  end.

(** *** Which addresses those are *)

Definition well_formed (ip : Addr) : Prop :=
  match ip with Invalid => True | V4 a => (a < 2 ^ 32)%N | V6 a _ => (a < 2 ^ 128)%N end.

(** Special-purpose IPv4 ranges, by their first and last address. *)
Definition special4 : list (N * N) := [
  (quad 0 0 0 0, quad 0 255 255 255); (quad 10 0 0 0, quad 10 255 255 255); (quad 100 64 0 0, quad 100 127 255 255);
  (quad 127 0 0 0, quad 127 255 255 255); (quad 169 254 0 0, quad 169 254 255 255);
  (quad 172 16 0 0, quad 172 31 255 255); (quad 192 0 0 0, quad 192 0 0 255); (quad 192 0 2 0, quad 192 0 2 255);
  (quad 192 88 99 0, quad 192 88 99 255); (quad 192 168 0 0, quad 192 168 255 255);
  (quad 198 18 0 0, quad 198 19 255 255); (quad 198 51 100 0, quad 198 51 100 255);
  (quad 203 0 113 0, quad 203 0 113 255); (quad 224 0 0 0, quad 255 255 255 255) ].

(** Special-purpose ranges within 2000::/3. *)
Definition special6 : list (N * N) := [
  (six 0x2001 0 0, six 0x2001 0x200 0 - 1); (six 0x2001 0xdb8 0, six 0x2001 0xdb9 0 - 1);
  (six 0x2002 0 0, six 0x2003 0 0 - 1); (six 0x3fff 0 0, six 0x3fff 0x1000 0 - 1) ]%N.

Definition outside (a : N) (r : N * N) : Prop := ~ (fst r <= a <= snd r)%N.

Definition public (ip : Addr) : Prop :=
  match ip with
  | Invalid => False
  | V4 a => Forall (outside a) special4
  | V6 a zone => zone = EmptyString /\ (six 0x2000 0 0 <= a < six 0x4000 0 0)%N /\ Forall (outside a) special6
  end.

Lemma shiftr_block a q k : (q mod 2 ^ k = 0)%N ->
  (N.shiftr a k =? N.shiftr q k)%N = (q <=? a)%N && (a <? q + 2 ^ k)%N.
Proof.
  intros Hq. rewrite !N.shiftr_div_pow2. pose proof (N.pow_nonzero 2 k ltac:(done)) as Hk.
  pose proof (N.div_mod q (2 ^ k) Hk) as Eq. pose proof (N.div_mod a (2 ^ k) Hk) as Ea.
  pose proof (N.mod_lt a (2 ^ k) Hk). rewrite Hq, N.add_0_r in Eq.
  set (x := (a / 2 ^ k)%N) in *. set (y := (q / 2 ^ k)%N) in *. set (m := (a mod 2 ^ k)%N) in *.
  set (p := (2 ^ k)%N) in *. clearbody x y m p.
  apply eq_true_iff_eq. rewrite andb_true_iff, N.eqb_eq, N.leb_le, N.ltb_lt. split; [intros ->; lia|].
  intros [H1 H2]. destruct (N.lt_trichotomy x y) as [Hl|[Hl|Hl]]; [|done|]; nia.
Qed.

Lemma shiftr_const a k c : (N.shiftr a k =? c)%N = (c * 2 ^ k <=? a)%N && (a <? (c + 1) * 2 ^ k)%N.
Proof.
  pose proof (N.pow_nonzero 2 k ltac:(done)) as Hk.
  rewrite <- (N.div_mul c (2 ^ k) Hk) at 1. rewrite <- N.shiftr_div_pow2, shiftr_block by (by apply N.Div0.mod_mul).
  do 2 f_equal. lia.
Qed.

Lemma existsb_false {A} (f : A -> bool) l : existsb f l = false <-> Forall (fun x => f x = false) l.
Proof. induction l as [|x l IH]; simpl; [split; auto|]. rewrite orb_false_iff, Forall_cons, IH. done. Qed.

(** Evaluate the constants of an address comparison, then decide it. *)
Ltac evaluate t := let v := eval vm_compute in t in change t with v in *.
Ltac addresses :=
  repeat match goal with
  | _ : context [quad ?a ?b ?c ?d] |- _ => evaluate (quad a b c d)
  | |- context [quad ?a ?b ?c ?d] => evaluate (quad a b c d)
  | _ : context [six ?a ?b ?c] |- _ => evaluate (six a b c)
  | |- context [six ?a ?b ?c] => evaluate (six a b c)
  | _ : context [(2 ^ ?k)%N] |- _ => evaluate (2 ^ k)%N
  | |- context [(2 ^ ?k)%N] => evaluate (2 ^ k)%N
  end; rewrite ?andb_false_iff, ?N.leb_gt, ?N.ltb_ge, ?N.eqb_neq in *; lia.
Ltac split_all E := repeat match type of E with _ /\ _ => let H := fresh "H" in destruct E as [H E] end.

Lemma denied4 a : existsb (fun p => Contains p (V4 a)) denied = false -> (a < 2 ^ 32)%N -> Forall (outside a) special4.
Proof.
  intros E Ha. apply existsb_false in E. unfold denied in E. rewrite !Forall_cons in E. cbn [Contains mapped] in E.
  rewrite !shiftr_block in E by reflexivity. split_all E.
  unfold special4. rewrite !Forall_cons. unfold outside. cbn [fst snd].
  repeat split; try apply Forall_nil_2.
  all: match goal with
  | H : (?lo <=? ?a)%N && (?a <? ?hi)%N = false |- ~ (?lo <= ?a <= _)%N => clear - H; addresses
  | H : (quad 224 0 0 0 <=? ?x)%N && _ = false, H' : (quad 240 0 0 0 <=? ?x)%N && _ = false |- _ =>
      clear - H H' Ha; addresses
  end.
Qed.

Lemma public4 a : (a < 2 ^ 32)%N -> publicIP (V4 a) = true <-> public (V4 a).
Proof.
  intros Ha. unfold public. split.
  - intros H. apply denied4; [|done]. unfold publicIP in H. destruct (existsb _ denied) eqn:E; [|done].
    destruct (_ || _) in H; done.
  - intros H. unfold special4 in H. rewrite !Forall_cons in H. unfold outside in H. cbn [fst snd] in H. split_all H.
    assert (existsb (fun p => Contains p (V4 a)) denied = false) as E.
    { apply existsb_false. unfold denied. rewrite !Forall_cons. cbn [Contains mapped]. rewrite !shiftr_block by reflexivity.
      repeat split; try apply Forall_nil_2.
      all: match goal with
      | H : ~ (?lo <= ?a <= _)%N |- (?lo <=? ?a)%N && (?a <? ?hi)%N = false => clear - H; addresses
      | H : ~ (quad 224 0 0 0 <= ?a <= _)%N |- (_ <=? ?a)%N && (?a <? ?hi)%N = false => clear - H Ha; addresses
      end. }
    unfold publicIP. rewrite E.
    unfold IsGlobalUnicast, IsLoopback, IsMulticast, IsLinkLocalUnicast, IsPrivate. cbn [Unmap has_zone].
    rewrite !shiftr_const. clear E.
    assert ((a =? 0)%N = false) as -> by (clear - H0; addresses).
    assert ((a =? 2 ^ 32 - 1)%N = false) as -> by (clear - H13; addresses).
    assert ((127 * 2 ^ 24 <=? a)%N && (a <? (127 + 1) * 2 ^ 24)%N = false) as -> by (clear - H3; addresses).
    assert ((14 * 2 ^ 28 <=? a)%N && (a <? (14 + 1) * 2 ^ 28)%N = false) as -> by (clear - H13; addresses).
    assert (((169 * 256 + 254) * 2 ^ 16 <=? a)%N && (a <? (169 * 256 + 254 + 1) * 2 ^ 16)%N = false) as ->
      by (clear - H4; addresses).
    assert ((10 * 2 ^ 24 <=? a)%N && (a <? (10 + 1) * 2 ^ 24)%N = false) as -> by (clear - H1; addresses).
    assert (((172 * 16 + 1) * 2 ^ 20 <=? a)%N && (a <? (172 * 16 + 1 + 1) * 2 ^ 20)%N = false) as ->
      by (clear - H5; addresses).
    assert (((192 * 256 + 168) * 2 ^ 16 <=? a)%N && (a <? (192 * 256 + 168 + 1) * 2 ^ 16)%N = false) as ->
      by (clear - H9; addresses).
    done.
Qed.

Lemma zone_block p a q bits zone :
  p = P6 q bits -> zone = EmptyString -> (q mod 2 ^ (128 - bits) = 0)%N ->
  Contains p (V6 a zone) = (q <=? a)%N && (a <? q + 2 ^ (128 - bits))%N.
Proof. intros -> -> H. cbn [Contains]. rewrite String.eqb_refl. by apply shiftr_block. Qed.

Lemma public6 a zone : (a < 2 ^ 128)%N -> publicIP (V6 a zone) = true <-> public (V6 a zone).
Proof.
  intros Ha. unfold public. destruct (String.eqb_spec zone "") as [->|Hz].
  2: { split; [|by intros []]. unfold publicIP. cbn [has_zone]. by destruct (String.eqb_spec zone ""). }
  split.
  - intros H. split; [done|]. unfold publicIP in H.
    destruct (_ || _) in H; [done|]. destruct (existsb _ denied) eqn:E; [done|].
    rewrite (zone_block _ a (six 0x2000 0 0) 3) in H by done. apply andb_true_iff in H as [H1 H2].
    rewrite N.leb_le in H1. rewrite N.ltb_lt in H2. split; [clear - H1 H2; addresses|].
    apply existsb_false in E. unfold denied, mapped in E. rewrite !Forall_cons in E. cbn [Contains] in E.
    rewrite String.eqb_refl in E. cbn [andb] in E. rewrite !shiftr_block in E by reflexivity. split_all E.
    unfold special6. rewrite !Forall_cons. unfold outside. cbn [fst snd].
    repeat split; try apply Forall_nil_2.
    all: match goal with H : (?lo <=? ?a)%N && (?a <? ?hi)%N = false |- ~ (?lo <= ?a <= _)%N => clear - H; addresses end.
  - intros (_ & [Hlo Hhi] & H). unfold special6 in H. rewrite !Forall_cons in H. unfold outside in H. cbn [fst snd] in H. split_all H.
    assert (Contains mapped (V6 a "") = false) as Em.
    { unfold mapped. rewrite (zone_block _ a (N.shiftl 0xffff 32) 96) by done. clear - Hlo. change (N.shiftl 65535 32) with 281470681743360%N. addresses. }
    assert (existsb (fun p => Contains p (V6 a "")) denied = false) as E.
    { apply existsb_false. unfold denied. rewrite !Forall_cons. cbn [Contains]. rewrite Em. 
      rewrite String.eqb_refl. cbn [andb]. rewrite !shiftr_block by reflexivity.
      repeat split; try apply Forall_nil_2.
      all: match goal with
      | H : ~ (?lo <= ?a <= _)%N |- (?lo <=? ?a)%N && (?a <? ?hi)%N = false => clear - H; addresses
      | |- (_ <=? ?a)%N && (?a <? ?hi)%N = false => clear - Hlo Hhi; addresses
      end. }
    unfold publicIP. rewrite E, (zone_block _ a (six 0x2000 0 0) 3) by done.
    assert ((six 0x2000 0 0 <=? a)%N && (a <? six 0x2000 0 0 + 2 ^ (128 - 3))%N = true) as ->
      by (rewrite andb_true_iff, N.leb_le, N.ltb_lt; clear - Hlo Hhi; addresses).
    unfold IsGlobalUnicast, IsLoopback, IsMulticast, IsLinkLocalUnicast, IsPrivate. cbn [Unmap has_zone]. rewrite Em.
    rewrite !shiftr_const. clear E.
    assert (Hbig : forall c k, (six 0x4000 0 0 <= c * 2 ^ k)%N -> (c * 2 ^ k <=? a)%N = false)
      by (intros c k Hc; apply N.leb_gt; lia).
    rewrite (Hbig 255%N 120%N), (Hbig (0xfe80 / 64)%N 118%N), (Hbig (0xfc / 2)%N 121%N) by (vm_compute; discriminate).
    assert ((a =? 0)%N = false) as -> by (clear - Hlo; addresses).
    assert ((a =? 1)%N = false) as -> by (clear - Hlo; addresses).
    done.
Qed.

Lemma publicIP_public ip : well_formed ip -> publicIP ip = true <-> public ip.
Proof. destruct ip as [|a|a z]; intros H; [split; done|by apply public4|by apply public6]. Qed.

(** Where notifications may go.  A connection is opened only to the host
    the endpoint names, at port 443, and only when every address the resolver
    gave for it is public: no IPv4 address of a special-purpose range, and no
    IPv6 address outside the allocated unicast block, of a special range in
    it, or with a zone; the address dialled is the first of those. *)
Theorem dials_public_only hostport expected lookup ip port :
  (forall ips, lookup expected = Some ips -> Forall well_formed ips) ->
  safeDial hostport expected lookup = Some (ip, port) <->
  hostport = Some (expected, "443"%string) /\ port = "443"%string /\
  exists ips, lookup expected = Some (ip :: ips) /\ (length ips < 16)%nat /\ Forall public (ip :: ips).
Proof.
  intros Hwf. unfold safeDial. destruct hostport as [[host p]|]; [|split; [done|by intros []]].
  destruct (String.eqb_spec host expected) as [->|Hh]; [|split; [done|by intros ([= -> _] & _)]].
  destruct (String.eqb_spec p "443") as [->|Hp]; [|split; [done|by intros ([= ->] & _)]]. cbn [negb orb].
  destruct (lookup expected) as [[|i ips]|]; [split; [done|by intros (_ & _ & ? & ? & _)]| |split; [done|by intros (_ & _ & ? & ? & _)]].
  specialize (Hwf _ eq_refl).
  assert (Hall : forallb publicIP (i :: ips) = true <-> Forall public (i :: ips)).
  { rewrite forallb_forall, Forall_forall. rewrite Forall_forall in Hwf. split; intros H x Hx.
    - apply publicIP_public; [by apply Hwf|]. by apply H, list_elem_of_In.
    - apply list_elem_of_In in Hx. apply publicIP_public; [by apply Hwf|]. by apply H. }
  destruct (Nat.ltb_spec 16 (length (i :: ips))) as [Hl|Hl]; cbn [length] in Hl.
  - split; [done|]. intros (_ & _ & l & [= -> ->] & Hlen & _). lia.
  - destruct (forallb publicIP (i :: ips)) eqn:E; split.
    + intros [= -> <-]. split; [done|]. split; [done|]. exists ips. split; [done|]. split; [lia|by apply Hall].
    + intros (_ & -> & l & [= -> ->] & _). done.
    + done.
    + intros (_ & _ & l & [= -> ->] & _ & H). apply Hall in H. congruence.
Qed.

Definition demo_lookup (host : string) : option (list Addr) :=
  if String.eqb host "hooks.example" then Some [V4 (quad 93 184 215 14); V6 (six 0x2606 0x2800 0x21f) ""] else None.

Lemma dials_public_only_witness :
  safeDial (Some ("hooks.example", "443")%string) "hooks.example" demo_lookup = Some (V4 (quad 93 184 215 14), "443"%string) /\
  public (V4 (quad 93 184 215 14)).
Proof.
  assert (H : safeDial (Some ("hooks.example", "443")%string) "hooks.example" demo_lookup
              = Some (V4 (quad 93 184 215 14), "443"%string)) by (vm_compute; reflexivity).
  split; [exact H|]. apply dials_public_only in H as (_ & _ & ips & _ & _ & Hp).
  - by inversion Hp.
  - intros ips [= <-]. repeat constructor; vm_compute; reflexivity.
Defined.

(** ** One request *)

(** What [client.Do] gives: an error, or the status and what reading the body
    gives (its length, or an error). *)
Inductive Answer := TransportFailed | Responded (status : Z) (body : option Z).

Record Request := MkRequest { rq_URL : string; rq_Timestamp : string; rq_Signature : string; rq_Body : list byte }.

(** [sendHTTP]: the request, and the code and whether there was an error. *)
Definition sendHTTP (e : Endpoint) (now : Time) (body : list byte) (Do : Request -> Answer) : Request * (Z * bool) :=
  let '(stamp, sig) := Sign (ep_Keys e) now body in
  let req := MkRequest (ep_URL e) stamp sig body in
  (req, match Do req with
        | TransportFailed => (0, true)
        | Responded code None => (code, true)
        | Responded code (Some n) => (code, 4096 <? Z.min n 4097)
        end).

(** [HTTPSender.Send] *)
Definition Send {parser : URLParser} (e : Endpoint) (now : Time) (body : list byte) (Do : Request -> Answer)
  : option Request * (Z * bool) :=
  if negb (ValidateURL (ep_URL e)) || (4096 <? N.of_nat (length body))%N then (None, (0, true))
  else let '(req, out) := sendHTTP e now body Do in (Some req, out).

End Hook.
