(* ===== verification/Suppression.v ===== *)
(** * Suppression policy: [internal/suppression/service.go]

    Active entries, their application to the pending recipients of a message,
    and the operator's Add and Release.  [ParseAddress] based validation of
    the email in [Add] happens before the transaction and is not modelled:
    [add] is the transaction. *)

From S2P Require Import Prelude GoText Delivery SmtpClient Provider Database.

Module Suppression.

(** Whether an entry blocks [address] at [t].  Addresses compare by the
    database's [lower], here that of ASCII. *)
Definition blocks (t : Time) (address : string) (e : Suppression) : bool :=
  EqualFold (se_email e) address && is_null (se_released_at e) && null_or_gt (se_expires_at e) t.

(** [ActiveSQL(address)] *)
Definition ActiveSQL (t : At) (db : DB) (address : string) : bool :=
  exists_row (fun _ e => blocks (at_clock t) address e) (suppression_entries db).

(** [Lock]: the advisory lock has no effect on the data. *)
Definition Lock : M unit := query (fun _ _ => tt).

Definition pending_states (sending : bool) : list Status :=
  if sending then [SENDING] else [QUEUED; TEMP_FAILED].

Definition id_leb (x y : UUID * UUID) : bool := (fst x <=? fst y)%N.

(** The recipients of [mid] that an active entry blocks, with the entry. *)
Definition hits (mid : UUID) (sending : bool) (t : At) (db : DB) : list (UUID * UUID) :=
  sort_by id_leb
    (List.concat (map (fun kr =>
       map (fun ke => (fst kr, fst ke))
         (select (fun _ e => blocks (at_clock t) (r_address (snd kr)) e) (suppression_entries db)))
     (select (fun _ r => bool_decide (r_message_id r = mid)
                         && one_of (r_status r) (pending_states sending)) (recipients db)))).

Definition suppress_decision (sid : UUID) : json :=
  JObj [("version", JNum 1); ("action", JStr "SUPPRESS"); ("scope", JStr "policy");
        ("terminal", JBool true); ("may_have_delivered", JBool false);
        ("failover_allowed", JBool false); ("suppression_id", JId sid)]%string.

Definition suppress_row (t : At) (sid : UUID) (r : RecipientRow) : RecipientRow :=
  r <| r_status := SUPPRESSED |> <| r_retry_at := None |> <| r_retry_automatic := false |>
    <| r_completed_at := Some (at_clock t) |> <| r_decision := Some (suppress_decision sid) |>.

(** [Apply]: suppresses the blocked recipients and returns how many hits. *)
Definition Apply (mid : UUID) (attempt : option UUID) (sending : bool) : M nat :=
  found ← query (hits mid sending);
  forM found (fun h =>
    exec (fun t db => db <| recipients :=
      update (fun k _ => bool_decide (k = fst h)) (suppress_row t (snd h)) (recipients db) |>);;
    id ← fresh;
    record_event id (fun t => MkEventRow mid (Some (fst h)) attempt "RECIPIENT_SUPPRESSED" (at_now t) "policy"
      (JObj [("suppression_id", JId (snd h)); ("boundary", JStr (if sending then "before_data" else "pending"))]%string) None));;
  mret (length found).

(** ** Operator changes *)

Definition validateAudit (actor reason : string) : bool :=
  negb (String.eqb (TrimSpace actor) "" || String.eqb (TrimSpace reason) ""
        || (128 <? String.length actor)%nat || (2048 <? String.length reason)%nat
        || negb (ValidString (actor ++ reason))
        || ContainsAny (actor ++ reason) (String "000" "")).

Definition audit (action actor : string) (data : json) : M unit :=
  id ← fresh;
  stmt (fun _ db => rows ← insert_row id (MkAudit action actor data) (maintenance_audit db);
                    Some (tt, db <| maintenance_audit := rows |>)).

(** The unique index on [lower(email)] over unreleased entries. *)
Definition email_free (email : string) (db : DB) : bool :=
  negb (exists_row (fun _ e => EqualFold (se_email e) email && is_null (se_released_at e))
          (suppression_entries db)).

Definition categories : list string :=
  ["manual"; "hard_bounce"; "complaint"; "invalid"; "unsubscribe"]%string.

(** [Service.Add] from [begin] on; the address passed [validateEmail]. *)
Definition Add (email category actor reason : string) (expiresAt : option Time) : M (TxEnd UUID) :=
  if negb (validateAudit actor reason)
  then raise (ErrText "actor (1..128 bytes) and reason (1..2048 bytes) required")
  else if negb (one_of category categories) then raise (ErrText "invalid suppression category")
  else
    Lock;;
    future ← query (fun t _ => null_or_gt expiresAt (at_clock t));
    (if future : bool then mret tt else raise (ErrText "expiry must be in the future"));;
    active ← query (fun t db => ActiveSQL t db email);
    (if active : bool then raise ErrActive else mret tt);;
    exec (fun t db => db <| suppression_entries :=
      update (fun _ e => EqualFold (se_email e) email && is_null (se_released_at e))
        (fun e => e <| se_released_at := Some (at_clock t) |>) (suppression_entries db) |>);;
    id ← fresh;
    stmt (fun t db =>
      if email_free email db then
        rows ← insert_row id (MkSuppression email category "operator" actor reason (at_now t)
                                expiresAt None) (suppression_entries db);
        Some (tt, db <| suppression_entries := rows |>)
      else None);;
    audit "SUPPRESSION_ADDED" actor
      (JObj [("id", JId id); ("email", JStr email); ("category", JStr category);
             ("scope", JStr "gateway_global")]%string);;
    mret (Commit (inr id)).

(** [Service.Release] *)
Definition Release (id : UUID) (actor reason : string) : M (TxEnd unit) :=
  if negb (validateAudit actor reason)
  then raise (ErrText "actor (1..128 bytes) and reason (1..2048 bytes) required")
  else
    Lock;;
    n ← stmt (fun t db =>
      let hit k (e : Suppression) := bool_decide (k = id) && is_null (se_released_at e) in
      Some (count_rows hit (suppression_entries db),
            db <| suppression_entries :=
              update hit (fun e => e <| se_released_at := Some (at_clock t) |>)
                (suppression_entries db) |>));
    (if n =? 1 then mret tt else raise ErrStale);;
    audit "SUPPRESSION_RELEASED" actor (JObj [("id", JId id); ("reason", JStr reason)]%string);;
    mret (Commit (inr tt)).

End Suppression.
