(* ===== verification/Message.v ===== *)
(** * Accepting and cancelling messages: [internal/message]

    The canonical forms of what a website attaches to a message
    ([business.go], [stream.go], [expiry.go]), the admission of a submission
    against its budgets ([budget.go], [schedule.go]), the transaction that
    queues it ([postgres.go], [idempotency.go]) and the cancellation of a
    pending message ([cancel.go]).

    A [Submission] carries parsed identifiers where the code passes UUID
    strings.  The fingerprint and the hash of the idempotency key are arguments
    here: [Fingerprint] and [ApiReceive] compute them, and read the message. *)

From S2P Require Import Prelude GoText Calendar Delivery SmtpClient Provider Database Suppression.

(** ** Canonical forms *)

Module Message.

Record Business := MkBusiness { ClientReference : string; Tags : list string }.

Definition char_in (ranges : list (N * N)) (c : ascii) : bool :=
  existsb (fun r => (fst r <=? N_of_ascii c)%N && (N_of_ascii c <=? snd r)%N) ranges.

Fixpoint all_in (ranges : list (N * N)) (s : string) : bool :=
  match s with
  | EmptyString => true
  | String c rest => char_in ranges c && all_in ranges rest
  end.

(** [^first rest{0,n}$] *)
Definition matches (first rest : list (N * N)) (n : nat) (s : string) : bool :=
  match s with
  | EmptyString => false
  | String c tail => char_in first c && all_in rest tail && (String.length tail <=? n)%nat
  end.

Definition digits : N * N := (48, 57)%N.
Definition upper : N * N := (65, 90)%N.
Definition lower : N * N := (97, 122)%N.

(** [referencePattern], [tagPattern] *)
Definition ValidReference : string -> bool :=
  matches [upper; lower; digits] [upper; lower; digits; (46, 46); (95, 95); (58, 58); (45, 45)]%N 127.
Definition ValidTag : string -> bool :=
  matches [lower; digits] [lower; digits; (95, 95); (45, 45)]%N 31.

Definition Present (b : Business) : bool :=
  negb (String.eqb (ClientReference b) "") || negb (bool_decide (Tags b = [])).

(** The loop over the sorted tags: each valid and different from the one before. *)
Fixpoint tags_ok (prev : option string) (tags : list string) : bool :=
  match tags with
  | [] => true
  | tag :: rest =>
      ValidTag tag && negb (bool_decide (prev = Some tag)) && tags_ok (Some tag) rest
  end.

(** [Business.Canonical] *)
Definition Canonical (b : Business) : option Business :=
  if (negb (String.eqb (ClientReference b) "") && negb (ValidReference (ClientReference b)))
     || (8 <? length (Tags b))%nat
  then None
  else
    let tags := sort_by String.leb (Tags b) in
    if tags_ok None tags then Some (MkBusiness (ClientReference b) tags) else None.

(** [CanonicalStream] *)
Definition CanonicalStream (name : string) : option string :=
  if one_of name [""; "normal"]%string then Some "normal"%string
  else if one_of name ["otp"; "security"; "receipt"]%string then Some name
  else None.

Record SubmissionBudget := MkSubmissionBudget { sb_Minute : Z; sb_Hour : Z; sb_Day : Z }.
Record StreamPolicy := MkStreamPolicy { sp_Name : string; sp_Weight : Z; sp_Budget : SubmissionBudget }.

Definition budget_valid (b : SubmissionBudget) : bool :=
  (0 <=? sb_Minute b) && (0 <=? sb_Hour b) && (0 <=? sb_Day b)
  && (sb_Minute b <=? 2147483647) && (sb_Hour b <=? 2147483647) && (sb_Day b <=? 2147483647).

(** The loop of [CanonicalStreams] over the policies, with the names seen. *)
Fixpoint streams_ok (seen : list string) (ps : list StreamPolicy) : option (list string) :=
  match ps with
  | [] => Some seen
  | p :: rest =>
      match CanonicalStream (sp_Name p) with
      | Some name =>
          if String.eqb (sp_Name p) "" || one_of name seen || (sp_Weight p <? 1) || (8 <? sp_Weight p)
             || negb (budget_valid (sp_Budget p))
          then None else streams_ok (name :: seen) rest
      | None => None
      end
  end.

(** [CanonicalStreams] *)
Definition CanonicalStreams (ps : list StreamPolicy) : option (list StreamPolicy) :=
  if (4 <? length ps)%nat then None
  else match streams_ok [] ps with
       | None => None
       | Some seen =>
           Some (if one_of "normal"%string seen then ps
                 else ps ++ [MkStreamPolicy "normal" 1 (MkSubmissionBudget 0 0 0)])
       end.

(** An instant as the code holds it: with the offset of its zone in seconds. *)
Record Zoned := MkZoned { z_at : Time; z_offset : Z }.
Definition Zero : Zoned := MkZoned 0 0.

(** [CanonicalExpiry]; [None] is the error.  The text it formats stands for a
    whole second of UTC, which is the value here, and is empty for zero. *)
Definition CanonicalExpiry (at_ : Zoned) : option (option Time) :=
  if IsZero (z_at at_) then Some None
  else if (z_at at_ <? 0) || (year_10000 <=? z_at at_) || negb (z_at at_ mod Second =? 0)
          || (z_offset at_ <=? -86400) || (86400 <=? z_offset at_)
  then None else Some (Some (z_at at_)).

(** ** Submissions *)

Record Submission := MkSubmission {
  s_Replaces : option UUID; s_ScheduleAt : Zoned; s_ExpiresAt : Zoned; s_Stream : string;
  s_Business : Business; s_ID : UUID; s_Account : option UUID; s_From : string;
  s_Recipients : list string; s_Path : string; s_Size : Z; s_SHA256 : string;
  s_MessageID : string; s_HeaderFrom : string; s_Subject : string;
  s_ReceivedAt : Time; s_ArchivedAt : Time }.
#[export] Instance eta_Submission : Eta Submission := fun s =>
  MkSubmission (s_Replaces s) (s_ScheduleAt s) (s_ExpiresAt s) (s_Stream s) (s_Business s) (s_ID s)
    (s_Account s) (s_From s) (s_Recipients s) (s_Path s) (s_Size s) (s_SHA256 s) (s_MessageID s)
    (s_HeaderFrom s) (s_Subject s) (s_ReceivedAt s) (s_ArchivedAt s).

(** A value or the given error *)
Definition lift {A} (e : DBErr) (o : option A) : M A :=
  match o with Some a => mret a | None => raise e end.
Definition guard (e : DBErr) (ok : bool) : M unit := if ok then mret tt else raise e.

(** The row of [INSERT INTO messages] *)
Definition message_row (s : Submission) (source environment stream : string) (apiKey : option UUID)
    (keyHash : option string) (business : Business) (expiry schedule : option Time) (status : Status)
    (queued : Time) : Message :=
  MkMessage source apiKey (s_Account s) (s_From s) (Some (s_HeaderFrom s)) (s_Path s) (s_Size s)
    (s_SHA256 s) stream environment "AVAILABLE" (s_ReceivedAt s) schedule expiry status
    (if String.eqb environment "production"
     then Some (match schedule with Some at_ => Z.max queued at_ | None => queued end) else None)
    None None None 0 None None None None (s_MessageID s) (s_Subject s) queued keyHash
    (ClientReference business) (Tags business) None None.

Definition recipient_row (mid : UUID) (address : string) (status : Status) : RecipientRow :=
  MkRecipientRow mid address status None None None None 0 None None false None.

(** [reject_retired_archive], a trigger on the table: the identifier or the
    name of the file is that of a retired archive. *)
Definition file_name (path : string) : string := List.last (Split path "/") EmptyString.
Definition retired_archive (mid : UUID) (path : string) (db : DB) : bool :=
  exists_row (fun aid _ => (aid =? mid)%N || String.eqb (file_name path) (uuid_text aid ++ ".eml"))
    (archive_retirements db).

(** The message and, by the triggers on the table, that check and its owner's turn. *)
Definition insert_message (mid : UUID) (m : Message) : M unit :=
  stmt (fun _ db =>
    if retired_archive mid (m_eml_path m) db then None
    else
      rows ← insert_row mid m (messages db);
      Some (tt, db <| messages := rows |>
                   <| queue_fair_owners :=
                        match queue_fair_owners db !! queue_owner m with
                        | Some _ => queue_fair_owners db
                        | None => <[queue_owner m := MkFairOwner 0 0]> (queue_fair_owners db)
                        end |>)).

Definition insert_recipient (mid : UUID) (address : string) (status : Status) : M unit :=
  id ← fresh;
  stmt (fun _ db => rows ← insert_row id (recipient_row mid address status) (recipients db);
                    Some (tt, db <| recipients := rows |>)).

Definition record (mid : UUID) (kind : string) (at_ : Time) (source : string) (data : json) : M unit :=
  id ← fresh;
  record_event id (fun _ => MkEventRow mid None None kind at_ source data None).

Definition set_message (mid : UUID) (p : DB -> bool) (f : At -> Message -> Message) : M unit :=
  exec (fun t db => db <| messages :=
    update (fun k _ => bool_decide (k = mid) && p db) (f t) (messages db) |>).

Definition all_suppressed (mid : UUID) (db : DB) : bool :=
  negb (exists_row (fun _ r => bool_decide (r_message_id r = mid)
                               && negb (status_is (r_status r) SUPPRESSED)) (recipients db)).

Definition submission_data (source kind : string) (sandbox : bool) (stream : string)
    (schedule expiry : option Time) (business : Business) : json :=
  let received := String.eqb kind "MESSAGE_RECEIVED" in
  let when_ (b : bool) fields := if b then fields else [] in
  let time_field key (c : option Time) := match c with Some t => when_ received [(key, JNum t)] | None => [] end in
  JObj (List.concat
    [[("source", JStr source)];
     when_ sandbox [("simulation", JBool true); ("environment", JStr "sandbox")];
     when_ received [("message_stream", JStr stream)];
     time_field "schedule_at" schedule;
     time_field "expires_at" expiry;
     when_ (received && Present business)
       [("business", JObj [("client_reference", JStr (ClientReference business));
                           ("tags", JArr (map JStr (Tags business)))])]])%string.

(** [enqueueTx] *)
Definition enqueueTx (s : Submission) (source : string) (apiKey : option UUID)
    (keyHash : option string) : M unit :=
  let api := String.eqb source "api" in
  business ← lift ErrInvalidSubmission (Canonical (s_Business s));
  guard ErrInvalidSubmission (api || negb (Present business));;
  expiry ← lift ErrInvalidSubmission (CanonicalExpiry (s_ExpiresAt s));
  guard ErrInvalidSubmission (api || is_null expiry);;
  schedule ← lift ErrInvalidSubmission (CanonicalExpiry (s_ScheduleAt s));
  guard ErrInvalidSubmission (api || is_null schedule);;
  stream ← lift ErrInvalidSubmission (CanonicalStream (s_Stream s));
  guard ErrInvalidSubmission (api || String.eqb stream "normal");;
  environment ← (if api then query_row (fun _ db => k ← apiKey; option_map k_environment (api_keys db !! k))
                 else mret "production"%string);
  let sandbox := String.eqb environment "sandbox" in
  let status := if sandbox then SANDBOX_STORED else QUEUED in
  queued ← gotime;
  insert_message (s_ID s) (message_row s source environment stream apiKey keyHash business expiry
                             schedule status queued);;
  forM (s_Recipients s) (fun address => insert_recipient (s_ID s) address status);;
  (if sandbox
   then set_message (s_ID s) (fun _ => true)
          (fun t m => m <| m_completed_at := Some (at_clock t) |> <| m_next_attempt_at := None |>)
   else
     Suppression.Lock;;
     Suppression.Apply (s_ID s) None false;;
     set_message (s_ID s) (all_suppressed (s_ID s))
       (fun t m => m <| m_status := SUPPRESSED |> <| m_completed_at := Some (at_now t) |>
                     <| m_next_attempt_at := None |>));;
  row ← query_row (fun _ db => messages db !! s_ID s);
  let queueEvent := if status_is (m_status row) SUPPRESSED then "MESSAGE_SUPPRESSED"
                    else if sandbox then "SANDBOX_STORED" else "MESSAGE_QUEUED" in
  forM [("MESSAGE_RECEIVED", s_ReceivedAt s); ("MESSAGE_ARCHIVED", s_ArchivedAt s); (queueEvent, queued)]%string
    (fun ka => record (s_ID s) (fst ka) (snd ka) source
                 (submission_data source (fst ka) sandbox stream schedule expiry business)).

(** [Postgres.Enqueue] *)
Definition Enqueue (s : Submission) : M (TxEnd unit) :=
  enqueueTx s "smtp" None None;;
  mret (Commit (inr tt)).

(** ** Cancellation: [cancel.go] *)

Definition delivery_evidence (a : Attempt) : bool :=
  status_is (a_result a) IN_PROGRESS || not_null (a_data_armed_at a)
  || match a_smtp a with
     | Some out => negb (IsZero (o_DataStartedAt out)) || negb (IsZero (o_FinalResponseAt out))
     | None => false
     end.

Definition attempt_of (mid : UUID) (aid : UUID) (db : DB) : bool :=
  match delivery_attempts db !! aid with Some a => bool_decide (a_message_id a = mid) | None => false end.

Definition not_cancellable (mid : UUID) (m : Message) (db : DB) : bool :=
  not_null (m_locked_by m) || negb (one_of (m_status m) [QUEUED; TEMP_FAILED])
  || exists_row (fun _ a => bool_decide (a_message_id a = mid) && delivery_evidence a) (delivery_attempts db)
  || exists_row (fun k x => attempt_of mid (fst k) db
                            && one_of (ar_status x) [SMTP_ACCEPTED; DELIVERY_UNKNOWN]) (attempt_recipients db)
  || exists_row (fun _ r => bool_decide (r_message_id r = mid)
                            && negb (one_of (r_status r) [QUEUED; TEMP_FAILED; PERM_FAILED; SUPPRESSED; EXPIRED]))
       (recipients db).

Definition cancel_decision : json :=
  JObj [("version", JNum 2); ("action", JStr "CANCEL"); ("reason", JStr "WEBSITE_CANCELLED");
        ("scope", JStr "policy"); ("terminal", JBool true); ("may_have_delivered", JBool false)]%string.

Definition cancel_row (t : At) (r : RecipientRow) : RecipientRow :=
  r <| r_status := CANCELLED |> <| r_retry_at := None |> <| r_retry_automatic := false |>
    <| r_completed_at := Some (at_clock t) |> <| r_decision := Some cancel_decision |>.

Definition owned_by (identity : UUID) (m : Message) : bool :=
  String.eqb (m_source_type m) "api" && is_id (m_api_key_id m) identity
  && String.eqb (m_environment m) "production".

(** [cancelPendingTx]: whether the message was cancelled before. *)
Definition cancelPendingTx (identity id : UUID) (replacement : option UUID) : M bool :=
  found ← query (fun _ db => m ← messages db !! id; if owned_by identity m then Some m else None);
  m ← lift ErrControlNotFound found;
  if not_null (m_cancelled_at m)
  then guard ErrNotCancellable (is_null replacement);; mret true
  else
    unsafe ← query (fun _ db => not_cancellable id m db);
    guard ErrNotCancellable (negb unsafe);;
    exec (fun t db => db <| recipients :=
      update (fun _ r => bool_decide (r_message_id r = id) && one_of (r_status r) [QUEUED; TEMP_FAILED])
        (cancel_row t) (recipients db) |>);;
    set_message id (fun _ => true) (fun t m =>
      m <| m_status := CANCELLED |> <| m_cancelled_at := Some (at_clock t) |>
        <| m_completed_at := Some (at_clock t) |> <| m_next_attempt_at := None |>);;
    eid ← fresh;
    record_event eid (fun t => MkEventRow id None None "MESSAGE_CANCELLED" (at_clock t) "api"
      (JObj [("replacement_message_id", match replacement with Some u => JId u | None => JStr "" end)]%string) None);;
    mret false.

Definition key_enabled (identity : UUID) : M unit :=
  k ← query_row (fun _ db => api_keys db !! identity);
  guard ErrSubmissionDisabled (k_enabled k).

(** [Postgres.CancelPending] *)
Definition CancelPending (identity id : UUID) : M (TxEnd bool) :=
  key_enabled identity;;
  replay ← cancelPendingTx identity id None;
  mret (Commit (inr replay)).

(** ** Admission: [budget.go], [schedule.go] *)

Definition Window30 : Z := 720 * Hour.

Definition scheduled_states : list Status :=
  [QUEUED; TEMP_FAILED; PARTIAL_ACCEPTED; SENDING; DELIVERY_UNKNOWN].

Definition sum_of {R} (f : R -> Z) (l : list R) : Z := foldr (fun r acc => f r + acc) 0 l.

(** Messages of the website that wait for a time still to come. *)
Definition future_scheduled (t : At) (identity : UUID) (db : DB) : list Message :=
  map snd (select (fun _ m => is_id (m_api_key_id m) identity && String.eqb (m_environment m) "production"
                              && gt_time (m_schedule_at m) (at_clock t)
                              && one_of (m_status m) scheduled_states) (messages db)).

(** [admitSchedule] *)
Definition admitSchedule (identity : UUID) (at_ expiry : Time) (size : Z) : M unit :=
  if IsZero at_ then mret tt
  else
    guard ErrInvalidSchedule (IsZero expiry || After expiry at_);;
    valid ← query (fun t _ => (at_clock t <? at_) && (at_ <=? at_clock t + Window30));
    guard ErrInvalidSchedule valid;;
    use ← query (fun t db => let ms := future_scheduled t identity db in
                             (Z.of_nat (length ms), sum_of m_eml_size ms));
    guard ErrScheduleCapacity ((fst use <? 100) && (snd use + size <=? 128 * 2 ^ 20)).

(** Units admitted in the windows of a minute, an hour and a day. *)
Definition admitted (p : SubmissionQuota -> bool) (t : At) (window : Z) (db : DB) : Z :=
  sum_of (fun kq => sq_units (snd kq))
    (select (fun _ q => p q && (at_clock t - window <? sq_reserved_at q)) (api_submission_quota db)).
Definition windows : list Z := [Minute; Hour; 24 * Hour].
Definition usage (p : SubmissionQuota -> bool) (t : At) (db : DB) : list Z :=
  map (fun w => admitted p t w db) windows.

(** Every enabled limit holds for [units] more than is used. *)
Definition within (limits used : list Z) (units : Z) : bool :=
  forallb (fun lu => negb ((0 <? fst lu) && (fst lu <? snd lu + units))) (combine limits used).

Definition of_key (identity : UUID) (q : SubmissionQuota) : bool := bool_decide (sq_api_key_id q = identity).
Definition of_stream (identity : UUID) (stream : string) (q : SubmissionQuota) : bool :=
  of_key identity q && String.eqb (sq_message_stream q) stream.

Definition key_limits (k : ApiKey) : list Z := [k_minute_limit k; k_hour_limit k; k_day_limit k].
Definition stream_limits (row : StreamRow) : list Z := [sm_minute_limit row; sm_hour_limit row; sm_day_limit row].

(** [reserveSubmission] *)
Definition reserveSubmission (identity id : UUID) (units : Z) (streamName : string)
    (expiresAt scheduleAt : Time) (size : Z) : M unit :=
  stream ← lift ErrInvalidSubmission (CanonicalStream streamName);
  k ← query_row (fun _ db => api_keys db !! identity);
  (if IsZero expiresAt then mret tt
   else
     late ← query (fun t _ => (expiresAt <=? at_clock t, at_clock t + Window30 <? expiresAt));
     guard ErrExpiredSubmission (negb (fst late));;
     guard ErrInvalidExpiry (negb (snd late)));;
  admitSchedule identity scheduleAt expiresAt size;;
  guard ErrSubmissionDisabled (k_enabled k);;
  guard ErrSubmissionBatchTooLarge (within (key_limits k) [0; 0; 0] units);;
  used ← query (usage (of_key identity));
  guard ErrSubmissionBudget (within (key_limits k) used units);;
  lane ← query (fun _ db => api_message_streams db !! (identity, stream));
  row ← lift ErrStreamDenied lane;
  guard ErrStreamDenied (sm_enabled row);;
  guard ErrSubmissionBatchTooLarge (within (stream_limits row) [0; 0; 0] units);;
  streamUsed ← query (usage (of_stream identity stream));
  guard ErrStreamBudget (within (stream_limits row) streamUsed units);;
  stmt (fun t db =>
    rows ← insert_row id (MkSubmissionQuota identity units stream (at_clock t)) (api_submission_quota db);
    Some (tt, db <| api_submission_quota := rows |>)).

(** ** Idempotent submission: [idempotency.go] *)

Record EnqueueResult := MkEnqueueResult { er_MessageID : UUID; er_Replayed : bool }.

(** The callback of [APIReceiver]: the archive the store saved, or its error. *)
Definition publish_archive (saved : option (string * Z * string)) (now : Time) (s : Submission) : option Submission :=
  match saved with
  | None => None
  | Some (path, size, sha) =>
      Some (s <| s_Path := path |> <| s_Size := size |> <| s_SHA256 := sha |> <| s_ArchivedAt := now |>)
  end.

(** [enqueueIdempotent] from the transaction on, up to the archive callback:
    the result of a repeated request, or [None] for a new and admitted one. *)
Definition admission (s : Submission) (apiKey : UUID) (keyHash fingerprint : string) : M (option EnqueueResult) :=
  inserted ← stmt (fun _ db =>
    match api_submission_ledger db !! (apiKey, keyHash) with
    | Some _ => Some (false, db)
    | None =>
        if exists_row (fun _ l => bool_decide (lg_message_id l = s_ID s)) (api_submission_ledger db) then None
        else Some (true, db <| api_submission_ledger :=
               <[(apiKey, keyHash) := MkLedger fingerprint (s_ID s)]> (api_submission_ledger db) |>)
    end);
  if negb inserted then
    l ← query_row (fun _ db => api_submission_ledger db !! (apiKey, keyHash));
    guard ErrIdempotencyConflict (String.eqb (lg_request_sha256 l) fingerprint);;
    mret (Some (MkEnqueueResult (lg_message_id l) true))
  else
    (match s_Replaces s with
     | None => mret tt
     | Some target =>
         key_enabled apiKey;;
         cancelPendingTx apiKey target (Some (s_ID s));;
         mret tt
     end);;
    reserveSubmission apiKey (s_ID s) (Z.of_nat (length (s_Recipients s))) (s_Stream s)
      (z_at (s_ExpiresAt s)) (z_at (s_ScheduleAt s)) (s_Size s);;
    mret None.

(** The whole transaction.  [publish] is the archive callback: [None] its
    error, otherwise the submission it completes. *)
Definition enqueueIdempotent (s : Submission) (apiKey : UUID) (keyHash fingerprint : string)
    (publish : option (Submission -> option Submission)) : M (TxEnd EnqueueResult) :=
  repeated ← admission s apiKey keyHash fingerprint;
  match repeated with
  | Some original => mret (Rollback (inr original))
  | None =>
      s' ← (match publish with None => mret s | Some save => lift (ErrText "archive") (save s) end);
      enqueueTx (s' <| s_Account := None |>) "api" (Some apiKey) (Some keyHash);;
      (match s_Replaces s with
       | None => mret tt
       | Some target => set_message (s_ID s) (fun _ => true) (fun _ m => m <| m_replaces_message_id := Some target |>)
       end);;
      mret (Commit (inr (MkEnqueueResult (s_ID s) false)))
  end.

End Message.
