(* ===== verification/Queue.v ===== *)
(** * The delivery queue: [internal/queue]

    The operations of [Repository], one transaction body each: claiming a
    message under fairness, quota, circuit-breaker and failover rules
    ([Claim]), the durable DATA fence ([ArmData]), recording the outcome
    ([Finish]), lease recovery ([Recover]), retry scheduling ([Schedule]), the
    expiry and suppression sweeps, and the operator's resolution of uncertain
    deliveries ([ResolveUnknown]).  Each SQL statement is one [stmt] over the
    tables of [Database]; its WHERE clause is a Boolean function. *)

From S2P Require Import Prelude GoText Delivery SmtpClient Provider Database Suppression.

Module Queue.

Record Job := MkJob {
  j_Stream : string; j_ID : UUID; j_Token : UUID; j_AttemptID : UUID; j_From : string;
  j_Path : string; j_SHA256 : string; j_Size : Z; j_Provider : Provider;
  j_Recipients : list Recipient }.

(** The switches of [Repository] *)
Record Repository := MkRepository {
  RetryEnabled : bool; FailoverEnabled : bool; HealthEnabled : bool }.

(** [event]: [attempt] is [optionalID(j.AttemptID)]. *)
Definition event (mid : UUID) (attempt : option UUID) (kind : string) (rid : option UUID)
    (at_ : Time) (data : json) : M unit :=
  id ← fresh;
  record_event id (fun _ => MkEventRow mid rid attempt kind at_ "worker" data None).

(** Row selectors *)
Definition of_message (mid : UUID) (r : RecipientRow) : bool := bool_decide (r_message_id r = mid).
Definition has_status (r : RecipientRow) (l : list Status) : bool := one_of (r_status r) l.

(** ** The message projection: [refresh] *)

Definition count_in (l : list RecipientRow) (states : list Status) : nat :=
  length (List.filter (fun r => has_status r states) l).

Definition projection (l : list RecipientRow) : Status :=
  let n := length l in
  if (0 <? count_in l [DELIVERY_UNKNOWN])%nat then DELIVERY_UNKNOWN
  else if (0 <? count_in l [SENDING])%nat then SENDING
  else if (0 <? count_in l [QUEUED])%nat then QUEUED
  else if (count_in l [EXPIRED] =? n)%nat && (0 <? n)%nat then EXPIRED
  else if (count_in l [SUPPRESSED] =? n)%nat && (0 <? n)%nat then SUPPRESSED
  else if (count_in l [DELIVERED] =? n)%nat && (0 <? n)%nat then DELIVERED
  else if (count_in l [SMTP_ACCEPTED; DELIVERED] =? n)%nat && (0 <? n)%nat then SMTP_ACCEPTED
  else if (0 <? count_in l [SMTP_ACCEPTED; DELIVERED])%nat then PARTIAL_ACCEPTED
  else if (0 <? count_in l [TEMP_FAILED])%nat then TEMP_FAILED
  else PERM_FAILED.

Definition message_recipients (mid : UUID) (db : DB) : list RecipientRow :=
  map snd (select (fun _ r => of_message mid r) (recipients db)).

Definition min_time (l : list (option Time)) : option Time :=
  foldr (fun x acc => match x, acc with
                      | Some a, Some b => Some (Z.min a b)
                      | Some a, None => Some a
                      | None, _ => acc
                      end) None l.

Definition completed_states : list Status :=
  [SMTP_ACCEPTED; PERM_FAILED; DELIVERED; SUPPRESSED; EXPIRED].

Definition refresh_row (t : At) (rs : list RecipientRow) (m : Message) : Message :=
  let status := projection rs in
  m <| m_status := status |>
    <| m_next_attempt_at := if status_is status QUEUED then Some (at_now t)
                            else min_time (map r_retry_at rs) |>
    <| m_completed_at := if one_of status completed_states
                         then match m_completed_at m with Some c => Some c | None => Some (at_now t) end
                         else None |>.

Definition refresh (mid : UUID) : M unit :=
  exec (fun t db => db <| messages :=
    update (fun k _ => bool_decide (k = mid)) (refresh_row t (message_recipients mid db))
      (messages db) |>).

(** ** Expiry: [applyExpiry], [SweepExpired] *)

Definition expire_decision : Decision :=
  MkDecision 2 Expire "MESSAGE_DEADLINE_ELAPSED" "policy" 0 false false true.

(** [coalesce(r.decision->>'may_have_delivered'='true',false) OR EXISTS(...)] *)
Definition may_have_delivered (rid : UUID) (r : RecipientRow) (db : DB) : bool :=
  bool_decide (json_text (r_decision r) "may_have_delivered" = Some (TBool true))
  || exists_row (fun k x => bool_decide (snd k = rid) && status_is (ar_status x) DELIVERY_UNKNOWN)
       (attempt_recipients db).

Definition expire_row (t : At) (db : DB) (rid : UUID) (r : RecipientRow) : RecipientRow :=
  r <| r_status := EXPIRED |> <| r_retry_at := None |> <| r_retry_automatic := false |>
    <| r_completed_at := Some (at_clock t) |>
    <| r_decision := Some (json_set (decision_json expire_decision) "may_have_delivered"
                             (JBool (may_have_delivered rid r db))) |>.

Definition expired_message (t : At) (mid : UUID) (db : DB) : bool :=
  match messages db !! mid with Some m => le_time (m_expires_at m) (at_clock t) | None => false end.

Definition expirable (t : At) (mid : UUID) (db : DB) (r : RecipientRow) : bool :=
  of_message mid r && expired_message t mid db && has_status r [QUEUED; TEMP_FAILED].

Definition applyExpiry (mid : UUID) (attempt : option UUID) : M unit :=
  changed ← stmt (fun t db =>
    Some (map (fun kr => (fst kr, r_decision (expire_row t db (fst kr) (snd kr))))
            (select (fun _ r => expirable t mid db r) (recipients db)),
          db <| recipients :=
            map_imap (fun rid r => Some (if expirable t mid db r then expire_row t db rid r else r))
              (recipients db) |>));
  forM changed (fun c =>
    at_ ← gotime;
    event mid attempt "RECIPIENT_EXPIRED" (Some (fst c)) at_
      (match snd c with Some d => d | None => JNull end)).

Definition message_leb (x y : UUID * Message) : bool :=
  (m_created_at (snd x) <? m_created_at (snd y))
  || ((m_created_at (snd x) =? m_created_at (snd y)) && (fst x <=? fst y)%N).

Definition expires_leb (x y : UUID * Message) : bool :=
  match m_expires_at (snd x), m_expires_at (snd y) with
  | Some a, Some b => (a <? b) || ((a =? b) && (fst x <=? fst y)%N)
  | Some _, None => true
  | None, Some _ => false
  | None, None => (fst x <=? fst y)%N
  end.

Definition has_recipient (db : DB) (mid : UUID) (p : RecipientRow -> bool) : bool :=
  exists_row (fun _ r => of_message mid r && p r) (recipients db).

Definition SweepExpired : M (TxEnd unit) :=
  ids ← query (fun t db => map fst (limit 20 (sort_by expires_leb
    (select (fun mid m => negb (at_skip t mid) && is_null (m_locked_by m)
       && one_of (m_status m) [QUEUED; TEMP_FAILED; PARTIAL_ACCEPTED; DELIVERY_UNKNOWN]
       && le_time (m_expires_at m) (at_clock t)
       && has_recipient db mid (fun r => has_status r [QUEUED; TEMP_FAILED])) (messages db)))));
  forM ids (fun mid => applyExpiry mid None;; refresh mid);;
  mret (Commit (inr tt)).

(** ** Suppression: [SweepSuppressed] *)

Definition SweepSuppressed : M (TxEnd unit) :=
  ids ← query (fun t db => map fst (limit 20 (sort_by message_leb
    (select (fun mid m => negb (at_skip t mid) && is_null (m_locked_by m)
       && has_recipient db mid (fun r => has_status r [QUEUED; TEMP_FAILED]
                                         && Suppression.ActiveSQL t db (r_address r)))
       (messages db)))));
  match ids with
  | [] => mret (Rollback (inr tt))
  | _ =>
      Suppression.Lock;;
      forM ids (fun mid => Suppression.Apply mid None false;; refresh mid);;
      mret (Commit (inr tt))
  end.

Section Operations.
  Context (repo : Repository).

(** ** Selection rules *)

(** [claimRecipient(alias)] *)
Definition claimRecipient (t : At) (db : DB) (r : RecipientRow) : bool :=
  status_is (r_status r) QUEUED
  && (negb (r_retry_automatic r)
      || (RetryEnabled repo && (r_attempt_count r <? 7)
          && gt_time (r_retry_started_at r) (at_clock t - 24 * Hour)))
  && negb (Suppression.ActiveSQL t db (r_address r)).

(** Attempts of a provider whose message holds a live lease. *)
Definition active_attempts (t : At) (db : DB) (pid : UUID) : Z :=
  count_rows (fun _ a => bool_decide (a_provider_id a = pid) && status_is (a_result a) IN_PROGRESS
    && match messages db !! a_message_id a with
       | Some m => gt_time (m_lease_expires_at m) (at_clock t)
       | None => false
       end) (delivery_attempts db).

(** [lower(split_part(address,'@',2))] *)
Definition domain_of (address : string) : string :=
  match Split address "@" with _ :: d :: _ => ToLower d | _ => ""%string end.

Definition providerRequirements (t : At) (db : DB) (m : Message) (pid : UUID) (p : ProviderRow) : bool :=
  p_enabled p && one_of (p_security p) ["starttls"; "implicit_tls"]%string
  && (1 <=? p_timeout_seconds p) && (p_timeout_seconds p <=? 300)
  && (1 <=? p_max_connections p) && (p_max_connections p <=? 32)
  && one_of (domain_of (m_envelope_from m)) (p_from_domains p)
  && match m_header_from m with
     | Some h => one_of (domain_of h) (p_from_domains p)
     | None => false
     end
  && (active_attempts t db pid <? p_max_connections p).

(** ** Quotas and circuits: [controls.go] *)

Definition max_int : Z := 2147483647.

(** [sum(units)] of the reservations [p] selects *)
Definition sum_units (p : Quota -> bool) (db : DB) : Z :=
  foldr (fun kq acc => q_units (snd kq) + acc) 0 (select (fun _ q => p q) (provider_quota db)).

Definition reserved_since (cutoff : Time) (pid : UUID) (q : Quota) : bool :=
  bool_decide (q_provider_id q = pid) && (cutoff <? q_reserved_at q).

Definition quotaAvailable (t : At) (db : DB) (pid : UUID) (p : ProviderRow) : Z :=
  let left limit window := match limit with
    | Some l => l - sum_units (reserved_since (at_clock t - window) pid) db
    | None => max_int
    end in
  Z.min (left (p_hourly_limit p) Hour) (left (p_daily_limit p) (24 * Hour)).

(** Reservations of any provider of the group: [provider_quota_group_usage] *)
Definition group_reserved (t : At) (db : DB) (gid : UUID) (window : Z) : Z :=
  sum_units (fun q => match providers db !! q_provider_id q with
                      | Some p => is_id (p_quota_group_id p) gid
                      | None => false
                      end && (at_clock t - window <? q_reserved_at q)) db.

Definition sharedQuotaAvailable (t : At) (db : DB) (p : ProviderRow) : Z :=
  match p_quota_group_id p with
  | None => max_int
  | Some gid =>
      match provider_quota_groups db !! gid with
      | None => max_int
      | Some g =>
          Z.min (if g_hourly_limit g =? 0 then max_int
                 else g_hourly_limit g - group_reserved t db gid Hour)
                (if g_daily_limit g =? 0 then max_int
                 else g_daily_limit g - group_reserved t db gid (24 * Hour))
      end
  end.

Definition remaining (t : At) (db : DB) (pid : UUID) (p : ProviderRow) : Z :=
  Z.min (quotaAvailable t db pid p) (sharedQuotaAvailable t db p).

(** The breaker lets a claim through when closed, or when its cool-down is
    over and no probe is under way. *)
Definition probe_due (t : At) (h : Health) : bool :=
  bool_decide (h_circuit_state h = OPEN) && le_time (h_open_until h) (at_clock t)
  && is_null (h_probe_attempt_id h).

Definition circuitAvailable (t : At) (db : DB) (pid : UUID) (p : ProviderRow) : bool :=
  negb (p_health_check_enabled p)
  || match provider_health db !! pid with
     | None => true
     | Some h => bool_decide (h_circuit_state h = CLOSED) || probe_due t h
     end.

Definition controlRequirements (t : At) (db : DB) (pid : UUID) (p : ProviderRow) : bool :=
  (0 <? remaining t db pid p) && (negb (HealthEnabled repo) || circuitAvailable t db pid p).

(** ** Failover: [failover.go] *)

Definition attempts_of (mid : UUID) (db : DB) : list (UUID * Attempt) :=
  select (fun _ a => bool_decide (a_message_id a = mid)) (delivery_attempts db).

Definition distinct_providers (mid : UUID) (db : DB) : nat :=
  length (remove_dups (map (fun ka => a_provider_id (snd ka)) (attempts_of mid db))).

(** The attempts that had recipient [rid], with its row of each. *)
Definition history (rid : UUID) (db : DB) : list (UUID * Attempt * AttemptRecipient) :=
  omap (fun kx => match delivery_attempts db !! fst (fst kx) with
                  | Some a => Some (fst (fst kx), a, snd kx)
                  | None => None
                  end)
    (select (fun k _ => bool_decide (snd k = rid)) (attempt_recipients db)).

Definition max_number (l : list (UUID * Attempt * AttemptRecipient)) : Z :=
  foldr (fun x acc => Z.max (a_attempt_number (snd (fst x))) acc) 0 l.

Definition safe_evidence (route : UUID) (latest : Z) (x : UUID * Attempt * AttemptRecipient) : bool :=
  let '(_, a, ar) := x in
  bool_decide (a_provider_id a = route) && status_is (a_result a) TEMP_FAILED
  && bool_decide (json_text (ar_decision ar) "version" = Some (TNum 2))
  && bool_decide (json_text (ar_decision ar) "action" = Some (TStr "RETRY_SAME_PROVIDER"))
  && bool_decide (json_text (ar_decision ar) "failover_allowed" = Some (TBool true))
  && bool_decide (json_text (ar_decision ar) "may_have_delivered" = Some (TBool false))
  && (a_attempt_number a =? latest).

Definition settled_states : list Status :=
  [SMTP_ACCEPTED; DELIVERED; PERM_FAILED; BOUNCED; SUPPRESSED; CANCELLED; EXPIRED].

Definition movable (t : At) (db : DB) (route rid : UUID) (r : RecipientRow) : bool :=
  status_is (r_status r) QUEUED && r_retry_automatic r && (r_attempt_count r <? 7)
  && gt_time (r_retry_started_at r) (at_clock t - 24 * Hour)
  && existsb (safe_evidence route (max_number (history rid db))) (history rid db).

Definition safeFailover (t : At) (db : DB) (mid : UUID) (m : Message) : bool :=
  match m_route_provider_id m with
  | None => false
  | Some route =>
      (distinct_providers mid db <? 3)%nat
      && negb (exists_row (fun rid r => of_message mid r && negb (has_status r settled_states)
                                        && negb (movable t db route rid r)) (recipients db))
  end.

Definition visited (mid pid : UUID) (db : DB) : bool :=
  exists_row (fun _ a => bool_decide (a_message_id a = mid) && bool_decide (a_provider_id a = pid))
    (delivery_attempts db).

Definition route_allows (t : At) (db : DB) (mid : UUID) (m : Message) (pid : UUID) : bool :=
  is_null (m_route_provider_id m) || is_id (m_route_provider_id m) pid
  || (RetryEnabled repo && FailoverEnabled repo && safeFailover t db mid m
      && negb (visited mid pid db)).

Definition eligibleProvider (t : At) (db : DB) (mid : UUID) (m : Message) (pid : UUID)
    (p : ProviderRow) : bool :=
  providerRequirements t db m pid p && controlRequirements t db pid p && route_allows t db mid m pid.

(** ** Fair selection: [fairness.go] *)

Definition FairRecipientQuantum : Z := 16.

Definition eligible (t : At) (db : DB) (mid : UUID) (m : Message) : bool :=
  null_or_le (m_schedule_at m) (at_clock t) && null_or_gt (m_expires_at m) (at_clock t)
  && status_is (m_status m) QUEUED && String.eqb (m_archive_state m) "AVAILABLE"
  && le_time (m_next_attempt_at m) (at_now t)
  && has_recipient db mid (claimRecipient t db)
  && exists_row (fun pid p => eligibleProvider t db mid m pid p) (providers db).

Definition lane_names : list string := ["normal"; "otp"; "receipt"; "security"]%string.

Definition lane_weight (db : DB) (owner : Owner) (name : string) : Z :=
  match owner with
  | (source, Some key) =>
      if String.eqb source "api"
      then match api_message_streams db !! (key, name) with Some row => sm_weight row | None => 1 end
      else 1
  | _ => 1
  end.

(** Each lane with its weight and the sum of the weights before it. *)
Fixpoint lanes_from (first : Z) (l : list (string * Z)) : list (string * Z * Z) :=
  match l with
  | [] => []
  | (name, wt) :: rest => (name, wt, first) :: lanes_from (first + wt) rest
  end.
Definition lanes (db : DB) (owner : Owner) : list (string * Z * Z) :=
  lanes_from 0 (map (fun n => (n, lane_weight db owner n)) lane_names).
Definition lanes_total (db : DB) (owner : Owner) : Z :=
  foldr (fun n acc => lane_weight db owner n + acc) 0 lane_names.

Definition lane_distance (cursor first wt total : Z) : Z :=
  let c := cursor mod total in
  if (first <=? c) && (c <? first + wt) then 0 else (first - c + total) mod total.

Definition turn (db : DB) (owner : Owner) (cursor : Z) (stream : string) : option Z :=
  option_map (fun l => lane_distance cursor (snd l) (snd (fst l)) (lanes_total db owner))
    (List.find (fun l => String.eqb (fst (fst l)) stream) (lanes db owner)).

Definition owner_leb (x y : Owner * FairOwner) : bool :=
  let key_leb (a b : Owner) :=
    match String.compare (fst a) (fst b) with
    | Lt => true
    | Gt => false
    | Eq => match snd a, snd b with
            | Some u, Some v => (u <=? v)%N
            | Some _, None => true
            | None, None => true
            | None, Some _ => false
            end
    end in
  (o_last_ticket (snd x) <? o_last_ticket (snd y))
  || ((o_last_ticket (snd x) =? o_last_ticket (snd y)) && key_leb (fst x) (fst y)).

Definition turn_leb (x y : Z * (UUID * Message)) : bool :=
  (fst x <? fst y) || ((fst x =? fst y) && message_leb (snd x) (snd y)).

Definition pick_owner (t : At) (db : DB) : option (Owner * FairOwner) :=
  head (sort_by owner_leb
    (select (fun o _ => negb (at_skip_owner t o)
       && exists_row (fun mid m => bool_decide (queue_owner m = o) && eligible t db mid m)
            (messages db)) (queue_fair_owners db))).

Definition pick_message (t : At) (db : DB) (owner : Owner) (cursor : Z)
  : option (Z * (UUID * Message)) :=
  head (sort_by turn_leb
    (omap (fun km => option_map (fun d => (d, km)) (turn db owner cursor (m_message_stream (snd km))))
      (select (fun mid m => negb (at_skip t mid) && bool_decide (queue_owner m = owner)
                            && eligible t db mid m) (messages db)))).

Definition or_no_job {A} (r : option A) : M A :=
  match r with Some a => mret a | None => raise ErrNoJob end.

(** [selectFair]: the owner, the chosen message and the owner's next cursor. *)
Definition selectFair : M (Owner * (UUID * Message) * Z) :=
  o ← query pick_owner;
  o ← or_no_job o;
  c ← query (fun t db => option_map (fun x =>
        (snd x, (o_stream_cursor (snd o) + fst x + 1) mod lanes_total db (fst o)))
        (pick_message t db (fst o) (o_stream_cursor (snd o))));
  c ← or_no_job c;
  mret (fst o, fst c, snd c).

(** ** Claiming: [Claim] *)

(** [ORDER BY (p.id=m.route_provider_id) ASC NULLS LAST,p.priority,p.id] *)
Definition provider_leb (route : option UUID) (x y : UUID * ProviderRow) : bool :=
  let key (u : UUID) := match route with None => 0 | Some r => if (u =? r)%N then 1 else 0 end in
  (key (fst x) <? key (fst y))
  || ((key (fst x) =? key (fst y))
      && ((p_priority (snd x) <? p_priority (snd y))
          || ((p_priority (snd x) =? p_priority (snd y)) && (fst x <=? fst y)%N))).

Definition pick_provider (t : At) (db : DB) (mid : UUID) : option (UUID * ProviderRow) :=
  match messages db !! mid with
  | None => None
  | Some m => head (sort_by (provider_leb (m_route_provider_id m))
      (select (fun pid p => negb (at_skip t pid) && eligibleProvider t db mid m pid p) (providers db)))
  end.

(** [admission]: the units the provider and its group still admit.  The lock
    of the group is a statement without effect. *)
Definition admission (pid : UUID) : M Z :=
  query (fun _ _ => tt);;
  left ← query (fun t db => match providers db !! pid with
                            | Some p => if controlRequirements t db pid p
                                        then Some (remaining t db pid p) else None
                            | None => None
                            end);
  or_no_job left.

Definition claim_message (t : At) (token pid : UUID) (seconds : Z) (m : Message) : Message :=
  m <| m_route_provider_id := Some pid |> <| m_status := SENDING |>
    <| m_locked_at := Some (at_now t) |> <| m_locked_by := Some token |>
    <| m_lease_expires_at := Some (at_now t + seconds * Second) |>
    <| m_attempt_count := m_attempt_count m + 1 |>.

(** The message's UPDATE ... RETURNING attempt_count *)
Definition take_message (mid token pid : UUID) (seconds : Z) : M Z :=
  r ← stmt (fun t db =>
    match messages db !! mid with
    | Some m =>
        if null_or_le (m_schedule_at m) (at_clock t) && null_or_gt (m_expires_at m) (at_clock t)
        then Some (Some (m_attempt_count m + 1),
                   db <| messages := <[mid := claim_message t token pid seconds m]> (messages db) |>)
        else Some (None, db)
    | None => Some (None, db)
    end);
  or_no_job r.

(** One attempt in progress per message, one attempt per number: the unique
    indexes of [delivery_attempts]. *)
Definition attempt_slot_free (mid : UUID) (number : Z) (db : DB) : bool :=
  negb (exists_row (fun _ a => bool_decide (a_message_id a = mid)
          && (status_is (a_result a) IN_PROGRESS || (a_attempt_number a =? number)))
          (delivery_attempts db)).

Definition insert_attempt (attempt mid pid : UUID) (number : Z) (token : UUID) (host : string) : M unit :=
  stmt (fun t db =>
    if attempt_slot_free mid number db then
      rows ← insert_row attempt (MkAttempt mid pid number IN_PROGRESS token host (at_now t) None None
                                   None None None None None None None None) (delivery_attempts db);
      Some (tt, db <| delivery_attempts := rows |>)
    else None).

Definition claim_row (t : At) (pid : UUID) (r : RecipientRow) : RecipientRow :=
  r <| r_status := SENDING |> <| r_provider_id := Some pid |>
    <| r_attempt_count := r_attempt_count r + 1 |>
    <| r_retry_started_at := match r_retry_started_at r with Some s => Some s | None => Some (at_now t) end |>
    <| r_retry_at := None |>.

Definition recipient_leb (x y : UUID * RecipientRow) : bool := (fst x <=? fst y)%N.

Definition claimable (t : At) (db : DB) (mid : UUID) (allowance : Z) : list (UUID * RecipientRow) :=
  limit (Z.to_nat allowance) (sort_by recipient_leb
    (select (fun _ r => of_message mid r && claimRecipient t db r) (recipients db))).

(** The recipients' UPDATE ... RETURNING id,address *)
Definition take_recipients (mid pid : UUID) (allowance : Z) : M (list Recipient) :=
  stmt (fun t db =>
    let chosen := claimable t db mid allowance in
    Some (map (fun kr => MkRecipient (fst kr) (r_address (snd kr))) chosen,
          db <| recipients := update (fun k _ => one_of k (map fst chosen)) (claim_row t pid)
                                (recipients db) |>)).

Definition insert_attempt_recipient (attempt rid : UUID) : M unit :=
  stmt (fun _ db => rows ← insert_row (attempt, rid) (MkAttemptRecipient SENDING None None None None None)
                             (attempt_recipients db);
                    Some (tt, db <| attempt_recipients := rows |>)).

Definition start_probe (t : At) (attempt : UUID) (h : Health) : Health :=
  h <| h_circuit_state := HALF_OPEN |> <| h_probe_attempt_id := Some attempt |>
    <| h_status := "DEGRADED"%string |> <| h_updated_at := at_clock t |>.

(** [reserveControls] *)
Definition reserveControls (mid attempt pid : UUID) (units : Z) : M unit :=
  stmt (fun t db =>
    if 0 <? units then
      rows ← insert_row attempt (MkQuota pid (at_clock t) units) (provider_quota db);
      Some (tt, db <| provider_quota := rows |>)
    else None);;
  group ← query_row (fun _ db => option_map p_quota_group_id (providers db !! pid));
  at_ ← gotime;
  event mid (Some attempt) "QUOTA_RESERVED" None at_
    (JObj (app [("provider_id", JId pid); ("units", JNum units); ("unit", JStr "recipient_attempt")]
             match group with Some g => [("quota_group_id", JId g)] | None => [] end)%string);;
  if negb (HealthEnabled repo) then mret tt
  else
    changed ← stmt (fun t db =>
      match providers db !! pid, provider_health db !! pid with
      | Some p, Some h =>
          if p_health_check_enabled p && probe_due t h
          then Some (true, db <| provider_health := <[pid := start_probe t attempt h]> (provider_health db) |>)
          else Some (false, db)
      | _, _ => Some (false, db)
      end);
    if changed : bool then
      at_ ← gotime;
      event mid (Some attempt) "PROVIDER_CIRCUIT_HALF_OPEN" None at_
        (JObj [("provider_id", JId pid); ("probe_attempt_id", JId attempt)]%string)
    else mret tt.

(** The latest earlier attempt of each recipient in flight, where it used
    another provider. *)
Definition failover_evidence (mid attempt pid : UUID) (db : DB)
  : list (UUID * UUID * option json * UUID) :=
  List.concat (map (fun kr =>
    let earlier := List.filter (fun x => negb (bool_decide (fst (fst x) = attempt)))
                     (history (fst kr) db) in
    match earlier with
    | [] => []
    | _ =>
        omap (fun x => let '(aid, a, ar) := x in
                if negb (bool_decide (a_provider_id a = pid))
                   && (a_attempt_number a =? max_number earlier)
                then Some (fst kr, aid, ar_decision ar, a_provider_id a) else None)
          (history (fst kr) db)
    end)
    (select (fun _ r => of_message mid r && status_is (r_status r) SENDING) (recipients db))).

(** [recordFailover] *)
Definition recordFailover (j : Job) (previous : option UUID) : M unit :=
  let pid := pv_ID (j_Provider j) in
  all ← query (fun _ db => failover_evidence (j_ID j) (j_AttemptID j) pid db);
  (if match previous with
      | Some prev => negb (bool_decide (prev = pid))
                     && negb (length all =? length (j_Recipients j))%nat
      | None => false
      end
   then raise (ErrText "incomplete failover evidence") else mret tt);;
  forM all (fun e =>
    let '(rid, attempt, decision, from) := e in
    at_ ← gotime;
    event (j_ID j) (Some (j_AttemptID j)) "PROVIDER_FAILOVER" (Some rid) at_
      (JObj [("from_provider_id", JId from); ("to_provider_id", JId pid);
             ("previous_attempt_id", JId attempt); ("reason", JStr "SAFE_PRE_DATA_FAILURE");
             ("previous_decision", match decision with Some d => d | None => JNull end);
             ("max_distinct_providers", JNum 3)]%string)).

Definition provider_of_row (pid : UUID) (p : ProviderRow) : Provider :=
  MkProvider pid (p_name p) (p_host p) (p_security p) (p_username p) (p_port p) (p_priority p)
    (p_max_connections p) 0 0 (p_timeout_seconds p * Second) (p_password_ciphertext p) (p_nonce p).

(** The claim transaction, after the two sweeps. *)
Definition claim : M (TxEnd Job) :=
  Suppression.Lock;;
  token ← fresh;
  attempt ← fresh;
  sel ← selectFair;
  let '(owner, (mid, m), nextCursor) := sel in
  chosen ← query (fun t db => pick_provider t db mid);
  chosen ← or_no_job chosen;
  let '(pid, p) := chosen in
  active ← query (fun t db => active_attempts t db pid);
  (if p_max_connections p <=? active then raise ErrNoJob else mret tt);;
  allowance ← admission pid;
  previous ← query_row (fun _ db => option_map m_route_provider_id (messages db !! mid));
  number ← take_message mid token pid (p_timeout_seconds p + 30);
  insert_attempt attempt mid pid number token (p_host p);;
  rcs ← take_recipients mid pid (Z.min allowance FairRecipientQuantum);
  (if (length rcs =? 0)%nat then raise ErrNoJob else mret tt);;
  forM rcs (fun rc => insert_attempt_recipient attempt (rc_ID rc));;
  let j := MkJob (m_message_stream m) mid token attempt (m_envelope_from m) (m_eml_path m)
             (m_eml_sha256 m) (m_eml_size m) (provider_of_row pid p) rcs in
  reserveControls mid attempt pid (Z.of_nat (length rcs));;
  recordFailover j previous;;
  at_ ← gotime;
  event mid (Some attempt) "ATTEMPT_STARTED" None at_
    (JObj [("provider_id", JId pid); ("attempt_number", JNum number);
           ("message_stream", JStr (m_message_stream m));
           ("recipient_quantum", JNum FairRecipientQuantum)]%string);;
  exec (fun _ db =>
    let ticket := queue_fair_ticket db + 1 in
    db <| queue_fair_ticket := ticket |>
       <| queue_fair_owners := update (fun o _ => bool_decide (o = owner))
            (fun _ => MkFairOwner ticket nextCursor) (queue_fair_owners db) |>);;
  mret (Commit (inr j)).

(** [Claim]: both sweeps commit on their own before the claim. *)
Definition Claim (w1 w2 w3 : World) (db : DB) : (DBErr + Job) * DB :=
  match transact w1 SweepExpired db with
  | (inl e, db1) => (inl e, db1)
  | (inr _, db1) =>
      match transact w2 SweepSuppressed db1 with
      | (inl e, db2) => (inl e, db2)
      | (inr _, db2) => transact w3 claim db2
      end
  end.

(** ** The fence: [fence], [ArmData], [Record] *)

Definition fence (j : Job) (requireLive : bool) : M unit :=
  ok ← query (fun t db => match messages db !! j_ID j with
    | Some m => String.eqb (m_environment m) "production" && status_is (m_status m) SENDING
                && is_id (m_locked_by m) (j_Token j)
                && (negb requireLive || gt_time (m_lease_expires_at m) (at_clock t))
    | None => false
    end);
  if ok : bool then mret tt else raise ErrLeaseLost.

(** The attempt row of a job that is still in progress. *)
Definition live_attempt (j : Job) (db : DB) : option Attempt :=
  match delivery_attempts db !! j_AttemptID j with
  | Some a => if bool_decide (a_message_id a = j_ID j) && bool_decide (a_claim_token a = j_Token j)
                 && status_is (a_result a) IN_PROGRESS
              then Some a else None
  | None => None
  end.

Definition set_attempt (aid : UUID) (f : At -> Attempt -> Attempt) : M unit :=
  exec (fun t db => db <| delivery_attempts :=
    update (fun k _ => bool_decide (k = aid)) (f t) (delivery_attempts db) |>).

(** One UPDATE decides between arming DATA and recording that the deadline has
    passed; the number of rows tells whether the attempt was still open. *)
Definition arm_attempt (t : At) (expires : option Time) (a : Attempt) : Attempt :=
  a <| a_data_armed_at := if null_or_gt expires (at_clock t) then Some (at_clock t) else None |>
    <| a_expiry_blocked_at := if le_time expires (at_clock t) then Some (at_clock t) else None |>.

Definition armable (j : Job) (k : UUID) (a : Attempt) : bool :=
  bool_decide (k = j_AttemptID j) && bool_decide (a_claim_token a = j_Token j)
  && status_is (a_result a) IN_PROGRESS && is_null (a_data_armed_at a)
  && is_null (a_expiry_blocked_at a).

Definition ArmData (j : Job) : M (TxEnd unit) :=
  fence j true;;
  a ← query_row (fun _ db => live_attempt j db);
  (if not_null (a_data_armed_at a) then raise ErrLeaseLost
   else if not_null (a_expiry_blocked_at a) then raise ErrExpired
   else if not_null (a_suppression_blocked_at a) then raise ErrSuppressed else mret tt);;
  Suppression.Lock;;
  found ← Suppression.Apply (j_ID j) (Some (j_AttemptID j)) true;
  if (0 <? found)%nat then
    set_attempt (j_AttemptID j) (fun t a => a <| a_suppression_blocked_at := Some (at_clock t) |>);;
    at_ ← gotime;
    event (j_ID j) (Some (j_AttemptID j)) "SUPPRESSION_GATE_BLOCKED" None at_
      (JObj [("recipients", JNum (Z.of_nat found)); ("data_authorized", JBool false)]%string);;
    mret (Commit (inl ErrSuppressed))
  else
    n ← stmt (fun t db => match messages db !! j_ID j with
      | Some m => Some (count_rows (armable j) (delivery_attempts db),
                        db <| delivery_attempts := update (armable j) (arm_attempt t (m_expires_at m))
                                                     (delivery_attempts db) |>)
      | None => Some (0, db)
      end);
    (if n =? 1 then mret tt else raise ErrLeaseLost);;
    expired ← query_row (fun _ db => option_map (fun a => not_null (a_expiry_blocked_at a))
                                       (delivery_attempts db !! j_AttemptID j));
    at_ ← gotime;
    if expired : bool then
      event (j_ID j) (Some (j_AttemptID j)) "EXPIRY_GATE_BLOCKED" None at_
        (JObj [("data_authorized", JBool false)]%string);;
      mret (Commit (inl ErrExpired))
    else
      event (j_ID j) (Some (j_AttemptID j)) "DATA_ARMED" None at_
        (JObj [("reason", JStr "durable permission to transmit DATA")]%string);;
      mret (Commit (inr tt)).

(** [recordEvent]: a sequence number already recorded for the attempt is left alone. *)
Definition recordEvent (j : Job) (e : Event) : M unit :=
  if ev_Sequence e <=? 0 then raise (ErrText "event sequence must be positive")
  else
    id ← fresh;
    stmt (fun t db =>
      if exists_row (fun _ row => is_id (e_attempt_id row) (j_AttemptID j)
                                  && bool_decide (e_attempt_sequence row = Some (ev_Sequence e)))
           (events db)
      then Some (tt, db)
      else
        db' ← insert_event t id (MkEventRow (j_ID j) (ev_RecipientID e) (Some (j_AttemptID j)) (ev_Type e)
                 (ev_At e) "worker" (JObj [("smtp_code", JNum (ev_SmtpCode e));
                                           ("response", JStr (ev_Response e))]%string)
                 (Some (ev_Sequence e))) db;
        Some (tt, db')).

Definition Record_ (j : Job) (e : Event) : M (TxEnd unit) :=
  fence j true;;
  recordEvent j e;;
  mret (Commit (inr tt)).

(** ** Outcomes: [Finish] and what it decides *)

Definition set_recipient (rid : UUID) (f : RecipientRow -> RecipientRow) : M unit :=
  exec (fun _ db => db <| recipients :=
    update (fun k _ => bool_decide (k = rid)) f (recipients db) |>).

Definition set_attempt_recipient (aid rid : UUID) (f : AttemptRecipient -> AttemptRecipient) : M unit :=
  exec (fun _ db => db <| attempt_recipients :=
    update (fun k _ => bool_decide (k = (aid, rid))) f (attempt_recipients db) |>).

Definition evidence_of (out : Result) (rc : RecipientResult) : Evidence :=
  MkEvidence (rr_Stage rc) (o_ErrorClass out) (rr_Status rc) (rr_Code rc) (o_Code out)
    (negb (IsZero (o_FinalResponseAt out))) (negb (IsZero (o_DataStartedAt out))).

Definition decide_row (d : Decision) (retryAt : option Time) (r : RecipientRow) : RecipientRow :=
  r <| r_decision := Some (decision_json d) |> <| r_retry_at := retryAt |>
    <| r_retry_automatic := false |>
    <| r_completed_at := if one_of (d_Action d) [Manual; Unknown] then None else r_completed_at r |>
    <| r_status := match d_Action d with
                   | Manual => TEMP_FAILED
                   | Unknown => DELIVERY_UNKNOWN
                   | _ => r_status r
                   end |>.

(** [attempt_count,retry_started_at] of a recipient; a NULL start does not scan. *)
Definition retry_state (rid : UUID) : M (Z * Time) :=
  r ← query_row (fun _ db => recipients db !! rid);
  match r_retry_started_at r with
  | Some started => mret (r_attempt_count r, started)
  | None => raise ErrSQL
  end.

Definition status_name (s : Status) : string :=
  match s with
  | NoStatus => "" | SMTP_ACCEPTED => "SMTP_ACCEPTED" | TEMP_FAILED => "TEMP_FAILED" | PERM_FAILED => "PERM_FAILED"
  | DELIVERY_UNKNOWN => "DELIVERY_UNKNOWN" | PARTIAL_ACCEPTED => "PARTIAL_ACCEPTED" | RCPT_ACCEPTED => "RCPT_ACCEPTED"
  | READY => "READY" | IN_PROGRESS => "IN_PROGRESS" | QUEUED => "QUEUED" | SENDING => "SENDING" | BOUNCED => "BOUNCED"
  | DELIVERED => "DELIVERED" | SUPPRESSED => "SUPPRESSED" | CANCELLED => "CANCELLED" | EXPIRED => "EXPIRED"
  | SANDBOX_STORED => "SANDBOX_STORED"
  end.

Definition delivery_evidence_json (e : Evidence) : json :=
  JObj [("stage", JStr (ev_Stage e)); ("error_class", JStr (ev_ErrorClass e)); ("status", JStr (status_name (ev_Status e)));
        ("smtp_code", JNum (ev_Code e)); ("final_code", JNum (ev_FinalCode e)); ("final_response", JBool (ev_FinalResponse e));
        ("body_started", JBool (ev_BodyStarted e))]%string.
Definition retry_budget_json (b : Budget) : json :=
  JObj [("Attempts", JNum (b_Attempts b)); ("StartedAt", JNum (b_StartedAt b)); ("Now", JNum (b_Now b)); ("Seed", JStr (b_Seed b))]%string.

(** [decideRecipient] *)
Definition decideRecipient (j : Job) (out : Result) (rc : RecipientResult) : M unit :=
  cs ← retry_state (rr_ID rc);
  let budget := MkBudget (fst cs) (snd cs) (o_FinishedAt out)
                  (uuid_text (j_AttemptID j) ++ uuid_text (rr_ID rc)) in
  let d := Decide (evidence_of out rc) budget in
  let retryAt := if bool_decide (d_Action d = Retry) && RetryEnabled repo
                 then Some (o_FinishedAt out + d_RetryAfter d) else None in
  set_recipient (rr_ID rc) (decide_row d retryAt);;
  set_attempt_recipient (j_AttemptID j) (rr_ID rc)
    (fun x => x <| ar_decision := Some (decision_json d) |>
                <| ar_protocol_stage := Some (rr_Stage rc) |>);;
  event (j_ID j) (Some (j_AttemptID j)) "DELIVERY_DECIDED" (Some (rr_ID rc)) (o_FinishedAt out)
    (JObj [("budget", retry_budget_json budget); ("evidence", delivery_evidence_json (evidence_of out rc)); ("decision", decision_json d);
           ("retry_at", match retryAt with Some t => JNum t | None => JNull end);
           ("automatic_retry_enabled", JBool (RetryEnabled repo))]%string).

(** [finishSuppression]: [true] when the policy fence settled the recipient. *)
Definition finishSuppression (j : Job) (out : Result) (rc : RecipientResult) : M bool :=
  if one_of (rr_Status rc) [SMTP_ACCEPTED; DELIVERY_UNKNOWN]
  then raise (ErrText "acceptance contradicts suppression fence")
  else
    r ← query_row (fun _ db => recipients db !! rr_ID rc);
    cs ← retry_state (rr_ID rc);
    let finish (raw : option json) :=
      set_attempt_recipient (j_AttemptID j) (rr_ID rc)
        (fun x => x <| ar_decision := raw |> <| ar_protocol_stage := Some (rr_Stage rc) |>);;
      event (j_ID j) (Some (j_AttemptID j)) "DELIVERY_DECIDED" (Some (rr_ID rc)) (o_FinishedAt out)
        (JObj [("decision", match raw with Some d => d | None => JNull end);
               ("suppression_fence", JBool true); ("smtp_status", JStr (status_name (rr_Status rc))); ("smtp_code", JNum (rr_Code rc));
               ("protocol_stage", JStr (rr_Stage rc))]%string);;
      mret true in
    if status_is (r_status r) SUPPRESSED then finish (r_decision r)
    else if negb (one_of (rr_Stage rc) ["SUPPRESSION_BLOCKED"; "DATABASE_ERROR"]%string)
    then mret false
    else
      let exhausted := (MaxAttempts <=? fst cs) || negb (Before (o_FinishedAt out) (snd cs + Window)) in
      let d := if exhausted then MkDecision 2 Manual "RETRY_BUDGET_EXHAUSTED" "policy" 0 false false false
               else MkDecision 2 Resume "ENVELOPE_ABORTED_BEFORE_DATA" "policy" 0 false false false in
      set_recipient (rr_ID rc) (fun r =>
        r <| r_status := if exhausted then TEMP_FAILED else QUEUED |>
          <| r_decision := Some (decision_json d) |> <| r_retry_at := None |>
          <| r_completed_at := None |>);;
      finish (Some (decision_json d)).

(** *** Provider health: [finishHealth] *)

Definition health_sample (out : Result) : Outcome :=
  ProviderOutcome (MkEvidence (o_Stage out) (o_ErrorClass out) (o_Status out) (o_Code out) (o_Code out)
                     (negb (IsZero (o_FinalResponseAt out))) (negb (IsZero (o_DataStartedAt out)))).

Definition sampled (t : At) (pid : UUID) (h : Health) (outcomes : list Outcome) (a : Attempt) : bool :=
  bool_decide (a_provider_id a = pid) && (h_samples_since h <=? a_started_at a)
  && gt_time (a_health_observed_at a) (at_clock t - 10 * Minute)
  && match a_health_outcome a with Some o => one_of o outcomes | None => false end.

Definition next_circuit (state : Circuit) (probe : option UUID) (attempt : UUID) (sample : Outcome)
    (enabled : bool) (total failed : Z) : Circuit :=
  if bool_decide (state = HALF_OPEN) && is_id probe attempt
  then (if bool_decide (sample = SUCCESS) then CLOSED else OPEN)
  else if bool_decide (state = CLOSED) && HealthEnabled repo && enabled && (5 <=? total)
          && (total <=? failed * 2)
  then OPEN else state.

Definition observe_health (t : At) (sample : Outcome) (error : string) (h : Health) : Health :=
  h <| h_last_success_at := if bool_decide (sample = SUCCESS) then Some (at_clock t) else h_last_success_at h |>
    <| h_last_failure_at := if bool_decide (sample = FAILURE) then Some (at_clock t) else h_last_failure_at h |>
    <| h_last_error := match sample with
                       | FAILURE => Some error
                       | SUCCESS => None
                       | IGNORED => h_last_error h
                       end |>
    <| h_updated_at := at_clock t |>.

Definition move_circuit (t : At) (next : Circuit) (h : Health) : Health :=
  h <| h_circuit_state := next |> <| h_probe_attempt_id := None |>
    <| h_open_until := if bool_decide (next = OPEN) then Some (at_clock t + Minute) else None |>
    <| h_samples_since := if bool_decide (next = CLOSED) then at_clock t else h_samples_since h |>
    <| h_status := if bool_decide (next = OPEN) then "UNHEALTHY" else "HEALTHY" |>
    <| h_updated_at := at_clock t |>.

Definition set_health (pid : UUID) (f : At -> Health -> Health) : M unit :=
  exec (fun t db => db <| provider_health :=
    update (fun k _ => bool_decide (k = pid)) (f t) (provider_health db) |>).

Definition outcome_text (o : Outcome) : string :=
  match o with SUCCESS => "SUCCESS" | FAILURE => "FAILURE" | IGNORED => "IGNORED" end.

Definition circuit_text (c : Circuit) : string :=
  match c with CLOSED => "CLOSED" | OPEN => "OPEN" | HALF_OPEN => "HALF_OPEN" end.

(** Go's zero time is year 1; PostgreSQL's ['epoch'] is 1970. *)
Definition epoch : Time := 62135596800 * Second.

(** The event's [failure_ratio], the constant 0.5, is left out: numbers of a
    document are integers here. *)
Definition finishHealth (j : Job) (out : Result) : M unit :=
  let pid := pv_ID (j_Provider j) in
  let sample := health_sample out in
  enabled ← query_row (fun _ db => option_map p_health_check_enabled (providers db !! pid));
  set_attempt (j_AttemptID j) (fun t a =>
    a <| a_health_outcome := Some sample |> <| a_health_observed_at := Some (at_clock t) |>);;
  exec (fun t db => match provider_health db !! pid with
    | Some _ => db
    | None => db <| provider_health := <[pid := MkHealth "HEALTHY" CLOSED None None epoch None None None
                                                  (at_now t)]> (provider_health db) |>
    end);;
  h ← query_row (fun _ db => provider_health db !! pid);
  set_health pid (fun t => observe_health t sample (o_ErrorClass out));;
  counts ← query (fun t db =>
    (count_rows (fun _ a => sampled t pid h [SUCCESS; FAILURE] a) (delivery_attempts db),
     count_rows (fun _ a => sampled t pid h [FAILURE] a) (delivery_attempts db)));
  let state := h_circuit_state h in
  let next := next_circuit state (h_probe_attempt_id h) (j_AttemptID j) sample enabled
                (fst counts) (snd counts) in
  (if bool_decide (state = CLOSED) && bool_decide (next = state)
   then set_health pid (fun _ h => h <| h_status := if 0 <? snd counts then "DEGRADED" else "HEALTHY" |>)
   else mret tt);;
  if bool_decide (next = state) then mret tt
  else
    set_health pid (fun t => move_circuit t next);;
    at_ ← gotime;
    event (j_ID j) (Some (j_AttemptID j)) ("PROVIDER_CIRCUIT_" ++ circuit_text next) None at_
      (JObj [("provider_id", JId pid); ("previous_state", JStr (circuit_text state)); ("outcome", JStr (outcome_text sample));
             ("window_seconds", JNum 600); ("minimum_samples", JNum 5);
             ("cooldown_seconds", JNum 60)]%string).

(** *** [Finish] *)

Definition finish_attempt (out : Result) (a : Attempt) : Attempt :=
  a <| a_result := o_Status out |> <| a_finished_at := Some (o_FinishedAt out) |>
    <| a_error_class := Some (o_ErrorClass out) |> <| a_smtp := Some out |>
    <| a_protocol_stage := Some (o_Stage out) |>.

Definition result_row (rc : RecipientResult) (finishedAt : Time) (r : RecipientRow) : RecipientRow :=
  r <| r_status := rr_Status rc |> <| r_smtp_code := Some (rr_Code rc) |>
    <| r_smtp_response := Some (rr_Response rc) |>
    <| r_completed_at := if one_of (rr_Status rc) [SMTP_ACCEPTED; PERM_FAILED]
                         then Some finishedAt else None |>.

(** The body of the loop over [out.Recipients] *)
Definition finish_recipient (j : Job) (out : Result) (policyBlocked expiryBlocked : bool)
    (rc : RecipientResult) : M unit :=
  if negb (one_of (rr_Status rc) [SMTP_ACCEPTED; TEMP_FAILED; PERM_FAILED; DELIVERY_UNKNOWN])
  then raise (ErrText "invalid recipient result")
  else if expiryBlocked && one_of (rr_Status rc) [SMTP_ACCEPTED; DELIVERY_UNKNOWN]
  then raise (ErrText "acceptance contradicts expiry fence")
  else
    exec (fun _ db => db <| recipients :=
      update (fun k r => bool_decide (k = rr_ID rc) && of_message (j_ID j) r
                         && negb (status_is (r_status r) SUPPRESSED))
        (result_row rc (o_FinishedAt out)) (recipients db) |>);;
    set_attempt_recipient (j_AttemptID j) (rr_ID rc) (fun x =>
      x <| ar_status := rr_Status rc |> <| ar_smtp_code := Some (rr_Code rc) |>
        <| ar_smtp_enhanced_code := Some (rr_Enhanced rc) |>
        <| ar_smtp_response := Some (rr_Response rc) |>);;
    handled ← (if policyBlocked then finishSuppression j out rc else mret false);
    if handled : bool then mret tt else decideRecipient j out rc.

(** The loop with its check that each expected recipient is reported once. *)
Fixpoint finish_recipients (j : Job) (out : Result) (policyBlocked expiryBlocked : bool)
    (expected : gset UUID) (rcs : list RecipientResult) : M unit :=
  match rcs with
  | [] => mret tt
  | rc :: rest =>
      if negb (bool_decide (rr_ID rc ∈ expected)) then raise (ErrText "unexpected recipient result")
      else
        finish_recipient j out policyBlocked expiryBlocked rc;;
        finish_recipients j out policyBlocked expiryBlocked (expected ∖ {[rr_ID rc]}) rest
  end.

Definition unlock_message (error : string) (m : Message) : Message :=
  m <| m_last_error := Some error |> <| m_locked_at := None |> <| m_locked_by := None |>
    <| m_lease_expires_at := None |>.

Definition set_message (mid : UUID) (f : Message -> Message) : M unit :=
  exec (fun _ db => db <| messages :=
    update (fun k _ => bool_decide (k = mid)) f (messages db) |>).

Definition Finish (j : Job) (out : Result) : M (TxEnd unit) :=
  fence j false;;
  query_row (fun _ db => providers db !! pv_ID (j_Provider j));;
  a ← query_row (fun _ db => live_attempt j db);
  let policyBlocked := not_null (a_suppression_blocked_at a) in
  let expiryBlocked := not_null (a_expiry_blocked_at a) in
  (if (policyBlocked || expiryBlocked)
      && (negb (IsZero (o_DataStartedAt out)) || negb (IsZero (o_FinalResponseAt out))
          || negb (o_BytesSent out =? 0))
   then raise (ErrText "DATA evidence contradicts policy fence") else mret tt);;
  set_attempt (j_AttemptID j) (fun _ => finish_attempt out);;
  (if (length (o_Recipients out) =? length (j_Recipients j))%nat then mret tt
   else raise (ErrText "incomplete recipient results"));;
  finish_recipients j out policyBlocked expiryBlocked
    (list_to_set (map rc_ID (j_Recipients j))) (o_Recipients out);;
  forM (o_Events out) (recordEvent j);;
  event (j_ID j) (Some (j_AttemptID j))
    (match o_Status out with
     | DELIVERY_UNKNOWN => "DELIVERY_UNKNOWN"
     | TEMP_FAILED | PERM_FAILED => "ATTEMPT_FAILED"
     | _ => "ATTEMPT_FINISHED"
     end) None (o_FinishedAt out) (JObj [("status", JStr (status_name (o_Status out))); ("error_class", JStr (o_ErrorClass out))]%string);;
  set_message (j_ID j) (unlock_message (o_ErrorClass out));;
  applyExpiry (j_ID j) (Some (j_AttemptID j));;
  finishHealth j out;;
  refresh (j_ID j);;
  mret (Commit (inr tt)).

(** ** Recovery: [Recover], [recoverProbe], [expireRecovered] *)

Definition recoverProbe (mid attempt : UUID) : M unit :=
  pid ← stmt (fun t db =>
    let hit _ (h : Health) := is_id (h_probe_attempt_id h) attempt in
    Some (head (map fst (select hit (provider_health db))),
          db <| provider_health := update hit (fun h =>
                  h <| h_circuit_state := OPEN |> <| h_probe_attempt_id := None |>
                    <| h_open_until := Some (at_clock t + Minute) |> <| h_status := "UNHEALTHY"%string |>
                    <| h_updated_at := at_clock t |>) (provider_health db) |>));
  match pid with
  | None => mret tt
  | Some p =>
      at_ ← gotime;
      event mid (Some attempt) "PROVIDER_CIRCUIT_OPEN" None at_
        (JObj [("provider_id", JId p); ("reason", JStr "PROBE_LEASE_EXPIRED");
               ("cooldown_seconds", JNum 60)]%string)
  end.

(** [attempt_count>=7 OR retry_started_at<=now()-interval '24 hours'] *)
Definition budget_spent (t : At) (r : RecipientRow) : bool :=
  (7 <=? r_attempt_count r) || le_time (r_retry_started_at r) (at_now t - 24 * Hour).

Definition hold_row (d : Decision) (r : RecipientRow) : RecipientRow :=
  r <| r_status := TEMP_FAILED |> <| r_retry_at := None |> <| r_retry_automatic := false |>
    <| r_decision := Some (decision_json d) |>.

Definition expireRecovered (mid attempt : UUID) : M unit :=
  let d := MkDecision 1 Manual "RECOVERY_BUDGET_EXHAUSTED" "policy" 0 false false false in
  ids ← stmt (fun t db =>
    let hit (_ : UUID) r := of_message mid r && status_is (r_status r) QUEUED && budget_spent t r in
    Some (map fst (select hit (recipients db)),
          db <| recipients := update hit (hold_row d) (recipients db) |>));
  forM ids (fun rid =>
    at_ ← gotime;
    event mid (Some attempt) "RETRY_EXHAUSTED" (Some rid) at_ (decision_json d));;
  refresh mid.

(** A lease that ran out: message, attempt and whether DATA was armed. *)
Record Lapsed := MkLapsed { l_ID : UUID; l_AttemptID : UUID; l_armed : bool }.

Definition lapsed (t : At) (db : DB) : list Lapsed :=
  let key (x : UUID * Attempt) :=
    (a_provider_id (snd x),
     match messages db !! a_message_id (snd x) with
     | Some m => match m_lease_expires_at m with Some e => e | None => 0 end
     | None => 0
     end) in
  map (fun ka => MkLapsed (a_message_id (snd ka)) (fst ka) (not_null (a_data_armed_at (snd ka))))
    (limit 20 (sort_by (fun x y =>
        (fst (key x) <? fst (key y))%N
        || ((fst (key x) =? fst (key y))%N && (snd (key x) <=? snd (key y))))
      (select (fun _ a => status_is (a_result a) IN_PROGRESS
         && negb (at_skip t (a_message_id a))
         && match messages db !! a_message_id a with
            | Some m => status_is (m_status m) SENDING && le_time (m_lease_expires_at m) (at_clock t)
            | None => false
            end) (delivery_attempts db)))).

Definition recover_one (e : Lapsed) : M unit :=
  let status := if l_armed e then DELIVERY_UNKNOWN else QUEUED in
  let attemptStatus := if l_armed e then DELIVERY_UNKNOWN else TEMP_FAILED in
  next ← gotime;
  set_attempt (l_AttemptID e) (fun t a =>
    a <| a_result := attemptStatus |> <| a_finished_at := Some (at_now t) |>
      <| a_error_class := Some "WORKER_LEASE_EXPIRED"%string |>);;
  exec (fun _ db => db <| attempt_recipients :=
    update (fun k _ => bool_decide (fst k = l_AttemptID e)) (fun x => x <| ar_status := attemptStatus |>)
      (attempt_recipients db) |>);;
  exec (fun _ db => db <| recipients :=
    update (fun _ r => of_message (l_ID e) r && status_is (r_status r) SENDING)
      (fun r => r <| r_status := status |>) (recipients db) |>);;
  set_message (l_ID e) (fun m =>
    m <| m_status := status |> <| m_last_error := Some "WORKER_LEASE_EXPIRED"%string |>
      <| m_next_attempt_at := if l_armed e then None else Some next |>
      <| m_locked_at := None |> <| m_locked_by := None |> <| m_lease_expires_at := None |>);;
  recoverProbe (l_ID e) (l_AttemptID e);;
  (if l_armed e then mret tt else expireRecovered (l_ID e) (l_AttemptID e));;
  applyExpiry (l_ID e) (Some (l_AttemptID e));;
  refresh (l_ID e);;
  at_ ← gotime;
  event (l_ID e) (Some (l_AttemptID e))
    (if l_armed e then "DELIVERY_UNKNOWN" else "LEASE_RECOVERED") None at_
    (JObj [("data_may_have_started", JBool (l_armed e))]%string).

Definition Recover : M (TxEnd unit) :=
  jobs ← query lapsed;
  forM jobs recover_one;;
  mret (Commit (inr tt)).

(** ** Retries: [Schedule] *)

Definition retry_due (t : At) (r : RecipientRow) : bool :=
  le_time (r_retry_at r) (at_now t)
  || (r_retry_automatic r && status_is (r_status r) QUEUED && budget_spent t r).

Definition schedule_one (now : Time) (mid : UUID) (c : UUID * RecipientRow) : M unit :=
  let '(rid, r) := c in
  match r_retry_started_at r with
  | None => raise ErrSQL
  | Some started =>
      if (MaxAttempts <=? r_attempt_count r) || negb (Before now (started + Window)) then
        let d := MkDecision 1 Manual "RETRY_BUDGET_EXHAUSTED" "policy" 0 false false false in
        set_recipient rid (hold_row d);;
        event mid None "RETRY_EXHAUSTED" (Some rid) now (decision_json d)
      else if RetryEnabled repo then
        set_recipient rid (fun r => r <| r_status := QUEUED |> <| r_retry_at := None |>
                                      <| r_retry_automatic := true |>);;
        event mid None "RETRY_QUEUED" (Some rid) now
          (JObj [("attempts", JNum (r_attempt_count r)); ("route_evaluated_at_claim", JBool true);
                 ("failover_enabled", JBool (FailoverEnabled repo))]%string)
      else mret tt
  end.

Definition schedule_message (mid : UUID) : M unit :=
  applyExpiry mid None;;
  candidates ← query (fun t db => sort_by recipient_leb
    (select (fun _ r => of_message mid r && retry_due t r) (recipients db)));
  now ← gotime;
  forM candidates (schedule_one now mid);;
  refresh mid.

(** The second transaction of [Schedule]; [SweepExpired] runs before it. *)
Definition schedule : M (TxEnd unit) :=
  ids ← query (fun t db => map fst (limit 20 (sort_by message_leb
    (select (fun mid m => negb (at_skip t mid) && is_null (m_locked_by m)
       && String.eqb (m_archive_state m) "AVAILABLE"
       && one_of (m_status m) [QUEUED; TEMP_FAILED; PARTIAL_ACCEPTED]
       && has_recipient db mid (retry_due t)) (messages db)))));
  forM ids schedule_message;;
  mret (Commit (inr tt)).

Definition Schedule (w1 w2 : World) (db : DB) : (DBErr + unit) * DB :=
  match transact w1 SweepExpired db with
  | (inl e, db1) => (inl e, db1)
  | (inr _, db1) => transact w2 schedule db1
  end.

End Operations.

(** ** The operator's resolution: [manual.go] *)

Inductive ResolveAction := retry | mark_delivered | mark_failed.

Record Resolution := MkResolution {
  RecipientID : UUID; ExpectedAttempt : string; Action_ : ResolveAction;
  Actor : string; Reason : string; AcknowledgeDuplicate : bool }.

Definition resolved_status (a : ResolveAction) : Status :=
  match a with retry => QUEUED | mark_delivered => DELIVERED | mark_failed => PERM_FAILED end.

Definition action_name (a : ResolveAction) : string :=
  match a with retry => "retry" | mark_delivered => "mark-delivered" | mark_failed => "mark-failed" end.

Definition resolution_json (v : Resolution) : json :=
  JObj [("recipient_id", JId (RecipientID v)); ("expected_attempt", JStr (ExpectedAttempt v));
        ("action", JStr (action_name (Action_ v))); ("actor", JStr (Actor v));
        ("reason", JStr (Reason v));
        ("acknowledge_duplicate_risk", JBool (AcknowledgeDuplicate v))]%string.

Definition is_retry (v : Resolution) : bool := match Action_ v with retry => true | _ => false end.

Definition latest_leb (x y : UUID * Attempt * AttemptRecipient) : bool :=
  a_attempt_number (snd (fst y)) <=? a_attempt_number (snd (fst x)).

Definition resolution_valid (v : Resolution) : bool :=
  negb (String.eqb (TrimSpace (Actor v)) "" || String.eqb (TrimSpace (Reason v)) ""
        || (128 <? String.length (Actor v))%nat || (2048 <? String.length (Reason v))%nat
        || negb (ValidString (Actor v ++ Reason v))).

Definition resolve_row (t : At) (v : Resolution) (r : RecipientRow) : RecipientRow :=
  r <| r_status := resolved_status (Action_ v) |> <| r_retry_at := None |>
    <| r_retry_automatic := false |>
    <| r_decision := Some (JObj [("version", JNum 1); ("action", JStr "MANUAL_RESOLUTION");
                                 ("resolution", resolution_json v)]%string) |>
    <| r_completed_at := if is_retry v then None else Some (at_now t) |>.

Definition ResolveUnknown (v : Resolution) : M (TxEnd UUID) :=
  if negb (resolution_valid v)
  then raise (ErrText "actor (1..128 bytes) and reason (1..2048 bytes) required")
  else if is_retry v && negb (AcknowledgeDuplicate v)
  then raise (ErrText "manual retry requires explicit acknowledgement of duplicate delivery risk")
  else
    found ← query_row (fun _ db => match recipients db !! RecipientID v with
      | Some r => option_map (fun m => (r_message_id r, m)) (messages db !! r_message_id r)
      | None => None
      end);
    let '(mid, m) := found in
    (if not_null (m_locked_by m) then raise ErrStaleResolution else mret tt);;
    latest ← query_row (fun _ db => match recipients db !! RecipientID v with
      | Some r => option_map (fun x => (r, x)) (head (sort_by latest_leb (history (RecipientID v) db)))
      | None => None
      end);
    let '(r, (attempt, a, ar)) := latest in
    (if status_is (r_status r) DELIVERY_UNKNOWN && status_is (ar_status ar) DELIVERY_UNKNOWN
        && String.eqb (uuid_text attempt) (ExpectedAttempt v)
     then mret tt else raise ErrStaleResolution);;
    (if is_retry v then
       expired ← query (fun t db => expired_message t mid db);
       (if expired : bool then raise ErrExpired else mret tt);;
       (if String.eqb (m_archive_state m) "AVAILABLE" then mret tt
        else raise (ErrText "original archive unavailable; cannot retry"));;
       Suppression.Lock;;
       blocked ← query_row (fun t db => option_map (fun r => Suppression.ActiveSQL t db (r_address r))
                                          (recipients db !! RecipientID v));
       if blocked : bool then raise ErrBlocked else mret tt
     else mret tt);;
    n ← stmt (fun t db =>
      let hit k (r : RecipientRow) := bool_decide (k = RecipientID v)
        && (negb (is_retry v) || negb (expired_message t (r_message_id r) db)) in
      Some (count_rows hit (recipients db),
            db <| recipients := update hit (resolve_row t v) (recipients db) |>));
    (if n =? 1 then mret tt else raise ErrExpired);;
    (if is_retry v then set_message mid (fun m => m <| m_route_provider_id := Some (a_provider_id a) |>)
     else mret tt);;
    id ← fresh;
    record_event id (fun t => MkEventRow mid (Some (RecipientID v)) (Some attempt)
                                "UNKNOWN_RESOLVED" (at_now t) "operator" (resolution_json v) None);;
    stmt (fun _ db => rows ← insert_row id (MkAudit "UNKNOWN_RESOLVED" (Actor v) (resolution_json v))
                               (maintenance_audit db);
                      Some (tt, db <| maintenance_audit := rows |>));;
    refresh mid;;
    mret (Commit (inr id)).

End Queue.
