(* ===== verification/Worker.v ===== *)
(** * Delivery workers: [internal/queue/worker.go]

    What a worker does with a claimed job: it opens the provider's secret,
    takes a verified snapshot of the archived message, runs the SMTP client
    over it and reports the result, or reports a failure of its own.  The
    secret box and the file system are arguments: the secret or [None], and
    the bytes of the archive file, [None] when it cannot be opened as a
    regular file under the storage root. *)

From S2P Require Import Prelude Sha256 GoText Delivery SmtpStream Provider SmtpClient Database Suppression Queue.

Import Queue.

Module Worker.

(** [failure(class)] in [deliver]: nothing was sent. *)
Definition failure (class : string) (now : Time) (j : Job) : Result :=
  empty_result <| o_Status := TEMP_FAILED |> <| o_ErrorClass := class |>
    <| o_ErrorMessage := "delivery preparation failed"%string |> <| o_StartedAt := now |>
    <| o_FinishedAt := now |>
    <| o_Recipients := map (fun rc => MkRR (rc_ID rc) TEMP_FAILED "" 0 "" "") (j_Recipients j) |>.

(** [readVerified]: [io] says that the context and the snapshot file held up. *)
Definition readVerified (MaxBytes : Z) (j : Job) (io : bool) (file : option (list byte)) : option (list byte) :=
  if (j_Size j <? 0) || (MaxBytes <? j_Size j) then None
  else match file with
       | None => None
       | Some content =>
           if negb io then None
           else
             let copied := firstn (Z.to_nat (j_Size j)) content in
             let extra := skipn (Z.to_nat (j_Size j)) content in
             if negb (bool_decide (extra = [])) then None
             else if negb (Z.of_nat (length copied) =? j_Size j)
                     || negb (String.eqb (EncodeToString (Sha.Sum256 copied)) (j_SHA256 j))
             then None else Some copied
       end.

(** [deliver] up to the result it hands to [Finish]; [n] is the outside world
    of the SMTP conversation over the snapshot. *)
Definition deliver (MaxBytes : Z) (Domain : string) (j : Job) (secret : option string) (io : bool)
    (file : option (list byte)) (now : Time) (n : list byte -> Net) : Result :=
  match secret with
  | None => failure "CREDENTIAL_DECRYPTION_ERROR" now j
  | Some password =>
      match readVerified MaxBytes j io file with
      | None => failure "LOCAL_STORAGE_ERROR" now j
      | Some raw => Send false Domain (j_Provider j) password (j_From j) (j_Recipients j) (n raw)
      end
  end.

Lemma failure_contract class now j : sender_result (map rc_ID (j_Recipients j)) (failure class now j).
Proof.
  split; simpl; try done.
  - by rewrite map_map.
  - set_solver.
  - intros _. split; [done|]. split; [done|]. apply Forall_forall. intros rr Hin.
    apply list_elem_of_fmap in Hin as (rc & -> & _). split; simpl; [by left|lia].
Qed.

(** Whatever a worker reports meets the contract the queue builds on. *)
Lemma deliver_contract MaxBytes Domain j secret io file now n :
  (forall raw k, n_now (n raw) k <> 0) ->
  sender_result (map rc_ID (j_Recipients j)) (deliver MaxBytes Domain j secret io file now n).
Proof.
  intros Hnow. unfold deliver. destruct secret as [password|]; [|apply failure_contract].
  destruct (readVerified _ _ _ _) as [raw|]; [|apply failure_contract].
  apply send_sender_result. apply Hnow.
Qed.

End Worker.
