(* ===== verification/QueueInv.v ===== *)
(** * The queue's invariant

    [Inv] states what holds of the database between transactions: which
    attempts can be in progress, in which states their recipients are, and
    that a recipient whose message may have been accepted by a remote server
    is never pending again unless an operator resolved that attempt.
    [evolves] states what a transaction may not do to history: attempts,
    their outcomes and the event ledger only grow.  The lemmas of this file
    say which statements keep both; the files on the operations combine
    them. *)

From S2P Require Import Prelude GoText Delivery SmtpClient Provider Database Suppression Queue.

Import Queue.

(** ** Vocabulary *)

(** States in which the queue may (re)send to a recipient. *)
Definition live_status (s : Status) : Prop := s ∈ [QUEUED; SENDING; TEMP_FAILED].
Definition in_progress (a : Attempt) : Prop := a_result a = IN_PROGRESS.
(** The attempt may have delivered to this recipient. *)
Definition hot (x : AttemptRecipient) : Prop :=
  ar_status x = SMTP_ACCEPTED \/ ar_status x = DELIVERY_UNKNOWN.

(** The attempt has an outcome for this recipient. *)
Definition settled (x : AttemptRecipient) : Prop :=
  ar_status x ∈ [SMTP_ACCEPTED; TEMP_FAILED; PERM_FAILED; DELIVERY_UNKNOWN].

(** An operator resolved this attempt for this recipient. *)
Definition resolution_event (aid rid : UUID) (e : EventRow) : Prop :=
  e_attempt_id e = Some aid /\ e_recipient_id e = Some rid /\
  e_event_type e = "UNKNOWN_RESOLVED"%string /\ e_source e = "operator"%string.
Definition resolved (db : DB) (aid rid : UUID) : Prop :=
  exists eid e, events db !! eid = Some e /\ resolution_event aid rid e.

#[export] Instance resolution_event_dec aid rid e : base.Decision (resolution_event aid rid e).
Proof. unfold resolution_event. apply _. Defined.
#[export] Instance resolved_dec db aid rid : base.Decision (resolved db aid rid).
Proof.
  destruct (exists_row (fun _ e => bool_decide (resolution_event aid rid e)) (events db)) eqn:E.
  - left. apply exists_row_true in E as (k & e & He & Hb). exists k, e. by bsimpl.
  - right. intros (k & e & He & Hb).
    pose proof (exists_row_false _ _ _ _ E He) as Hf. by bsimpl.
Defined.

(** No attempt of the message is in progress. *)
Definition idle (mid : UUID) (db : DB) : Prop :=
  forall aid a, delivery_attempts db !! aid = Some a -> in_progress a -> a_message_id a <> mid.

(** ** The invariant

    [refusal aid rid] says that what attempt [aid] reported for recipient
    [rid] shows that the remote server did not take the message: a parameter
    here, made concrete by the reports of the workers in [QueueSafety].
    [exS] and [exR] exempt attempts and recipients that a transaction is in
    the middle of changing; both are empty between transactions. *)
Class Refusals := refusal : UUID -> UUID -> Prop.

Record Inv {Rf : Refusals} (exS exR : UUID -> Prop) (db : DB) : Prop := {
  inv_link : forall aid rid x, attempt_recipients db !! (aid, rid) = Some x ->
    exists a r, delivery_attempts db !! aid = Some a /\ recipients db !! rid = Some r /\
                r_message_id r = a_message_id a;
  inv_number : forall aid a, delivery_attempts db !! aid = Some a ->
    exists m, messages db !! a_message_id a = Some m /\ a_attempt_number a <= m_attempt_count m;
  inv_unique : forall aid aid' a a',
    delivery_attempts db !! aid = Some a -> delivery_attempts db !! aid' = Some a' ->
    a_message_id a = a_message_id a' -> a_attempt_number a = a_attempt_number a' -> aid = aid';
  inv_lock : forall aid a, delivery_attempts db !! aid = Some a -> in_progress a ->
    exists m, messages db !! a_message_id a = Some m /\ m_status m = SENDING /\
              m_locked_by m = Some (a_claim_token a) /\ a_attempt_number a = m_attempt_count m;
  inv_part : forall aid rid a x r, delivery_attempts db !! aid = Some a -> in_progress a ->
    attempt_recipients db !! (aid, rid) = Some x -> recipients db !! rid = Some r ->
    r_status r = SENDING \/
    (r_status r = SUPPRESSED /\ (a_suppression_blocked_at a <> None \/ exS aid));
  inv_open : forall aid rid a x, delivery_attempts db !! aid = Some a -> in_progress a ->
    attempt_recipients db !! (aid, rid) = Some x -> ar_status x = SENDING;
  inv_settled : forall aid rid a x, delivery_attempts db !! aid = Some a -> ~ in_progress a -> ~ exS aid ->
    attempt_recipients db !! (aid, rid) = Some x -> settled x;
  inv_armed : forall aid rid a x, delivery_attempts db !! aid = Some a -> a_data_armed_at a <> None ->
    attempt_recipients db !! (aid, rid) = Some x ->
    ar_status x = TEMP_FAILED \/ ar_status x = PERM_FAILED -> refusal aid rid;
  inv_retry : forall rid r, recipients db !! rid = Some r -> r_retry_at r <> None ->
    r_status r = TEMP_FAILED;
  inv_hot : forall aid rid x r, attempt_recipients db !! (aid, rid) = Some x -> hot x ->
    ~ resolved db aid rid -> recipients db !! rid = Some r -> ~ exR rid -> ~ live_status (r_status r);
  inv_latest : forall aid aid' rid a a' x x',
    attempt_recipients db !! (aid, rid) = Some x -> hot x -> ~ resolved db aid rid ->
    delivery_attempts db !! aid = Some a ->
    attempt_recipients db !! (aid', rid) = Some x' -> delivery_attempts db !! aid' = Some a' ->
    a_attempt_number a' <= a_attempt_number a }.

Definition none (_ : UUID) : Prop := False.
Abbreviation Consistent := (Inv none none).

(** At most one attempt of a message is in progress. *)
Lemma inv_one {Rf : Refusals} exS exR db aid aid' a a' :
  Inv exS exR db -> delivery_attempts db !! aid = Some a -> delivery_attempts db !! aid' = Some a' ->
  in_progress a -> in_progress a' -> a_message_id a = a_message_id a' -> aid = aid'.
Proof.
  intros HI Ha Ha' Hp Hp' Hm.
  destruct (inv_lock _ _ _ HI _ _ Ha Hp) as (m & Hm1 & _ & _ & Hn).
  destruct (inv_lock _ _ _ HI _ _ Ha' Hp') as (m' & Hm1' & _ & _ & Hn').
  eapply (inv_unique _ _ _ HI); eauto. rewrite Hm in Hm1. congruence.
Qed.

Lemma unlocked_idle {Rf : Refusals} exS exR db mid m :
  Inv exS exR db -> messages db !! mid = Some m ->
  m_locked_by m = None \/ m_status m <> SENDING -> idle mid db.
Proof.
  intros HI Hm Hl aid a Ha Hp Heq. destruct (inv_lock _ _ _ HI _ _ Ha Hp) as (m' & Hm' & Hs & Hb & _).
  rewrite Heq, Hm in Hm'. destruct Hl; congruence.
Qed.

(** ** Messages that are over

    Every recipient is closed without a delivery and no attempt is running;
    nothing the queue does opens such a message again. *)
Definition closed_states : list Status := [CANCELLED; PERM_FAILED; SUPPRESSED; EXPIRED].

Definition shut (mid : UUID) (db : DB) : Prop :=
  is_Some (messages db !! mid) /\ idle mid db /\
  forall rid r, recipients db !! rid = Some r -> r_message_id r = mid -> r_status r ∈ closed_states.

Lemma shut_keep mid db db' :
  (forall m, messages db !! mid = Some m -> is_Some (messages db' !! mid)) ->
  (idle mid db -> idle mid db') ->
  (forall rid r', recipients db' !! rid = Some r' -> r_message_id r' = mid ->
     r_status r' ∈ closed_states \/ exists r, recipients db !! rid = Some r /\ r_message_id r = mid /\ r_status r' = r_status r) ->
  shut mid db -> shut mid db'.
Proof.
  intros Hm Ha Hr ((m & Hm0) & Hi & Hc). split; [eauto|]. split; [auto|].
  intros rid r' H1 H2. destruct (Hr rid r' H1 H2) as [|(r & H3 & H4 & ->)]; eauto.
Qed.

Lemma shut_same mid db db' : messages db' = messages db -> recipients db' = recipients db ->
  delivery_attempts db' = delivery_attempts db -> shut mid db -> shut mid db'.
Proof. unfold shut, idle. by intros -> -> ->. Qed.

(** A recipient that may still be sent to, or whose outcome is open *)
Lemma open_not_shut mid rid r db :
  recipients db !! rid = Some r -> r_message_id r = mid -> r_status r ∉ closed_states -> ~ shut mid db.
Proof. intros Hr Hm Hs (_ & _ & H). by apply Hs, (H rid). Qed.

Lemma pending_open s : one_of s [QUEUED; TEMP_FAILED] = true -> s ∉ closed_states.
Proof. rewrite <- (one_of_true s closed_states). by destruct s. Qed.

(** ** What history keeps *)

Record evolves (db0 db : DB) : Prop := {
  ev_attempt : forall aid a0, delivery_attempts db0 !! aid = Some a0 ->
    exists a, delivery_attempts db !! aid = Some a /\
      a_message_id a = a_message_id a0 /\ a_provider_id a = a_provider_id a0 /\
      a_attempt_number a = a_attempt_number a0 /\ a_claim_token a = a_claim_token a0 /\
      a_started_at a = a_started_at a0 /\
      (a_data_armed_at a0 <> None -> a_data_armed_at a = a_data_armed_at a0) /\
      (~ in_progress a0 -> a_result a = a_result a0);
  ev_rows : forall aid rid x0, attempt_recipients db0 !! (aid, rid) = Some x0 ->
    exists x, attempt_recipients db !! (aid, rid) = Some x /\
      (forall a0, delivery_attempts db0 !! aid = Some a0 -> ~ in_progress a0 ->
         ar_status x = ar_status x0 /\ ar_decision x = ar_decision x0);
  ev_new_rows : forall aid rid x, attempt_recipients db !! (aid, rid) = Some x ->
    attempt_recipients db0 !! (aid, rid) = None -> delivery_attempts db0 !! aid = None;
  ev_recipient : forall rid r0, recipients db0 !! rid = Some r0 ->
    exists r, recipients db !! rid = Some r /\ r_message_id r = r_message_id r0 /\
              r_address r = r_address r0;
  ev_events : events db0 ⊆ events db;
  ev_shut : forall mid, shut mid db0 -> shut mid db }.

Lemma evolves_refl db : evolves db db.
Proof. split; try done; intros; eauto 10. congruence. Qed.

Lemma resolved_mono db db' aid rid :
  events db ⊆ events db' -> resolved db aid rid -> resolved db' aid rid.
Proof. intros Hs (eid & e & He & Hr). exists eid, e. split; [|done]. by eapply lookup_weaken. Qed.

(** ** Statements that keep both *)

Section Keep.
  Context {Rf : Refusals} (db0 : DB).

(** What a transaction that started in [db0] maintains. *)
Definition Held (exS exR : UUID -> Prop) (db : DB) : Prop := Inv exS exR db /\ evolves db0 db.

(** Tables the invariant does not speak of. *)
Lemma held_frame exS exR db db' :
  messages db' = messages db -> recipients db' = recipients db ->
  delivery_attempts db' = delivery_attempts db ->
  attempt_recipients db' = attempt_recipients db -> events db' = events db ->
  Held exS exR db -> Held exS exR db'.
Proof.
  intros Hm Hr Ha Hx He [[]  []]. split; split; unfold resolved in *; rewrite ?Hm, ?Hr, ?Ha, ?Hx, ?He; auto.
  intros mid Hs. eapply shut_same; eauto.
Qed.

(** A new ledger entry. *)
Lemma held_event exS exR db eid e outbox :
  events db !! eid = None -> Held exS exR db ->
  Held exS exR (with_event eid e outbox db).
Proof.
  intros Hnew [HI HE].
  assert (Hsub : events db ⊆ <[eid := e]> (events db)) by by apply insert_subseteq.
  assert (Hres : forall aid rid, resolved db aid rid ->
            resolved (with_event eid e outbox db) aid rid)
    by (intros; by eapply resolved_mono).
  destruct HI, HE. split; split; simpl; auto.
  - intros aid rid x r Hx Hh Hn. eapply inv_hot0; eauto.
  - intros aid aid' rid a a' x x' Hx Hh Hn. eapply inv_latest0; eauto.
  - etrans; eauto.
Qed.

(** A change to an idle message that keeps its number of attempts. *)
Lemma held_message exS exR db mid f :
  (forall m, m_attempt_count (f m) = m_attempt_count m) -> idle mid db -> Held exS exR db ->
  Held exS exR (db <| messages := update (fun k _ => bool_decide (k = mid)) f (messages db) |>).
Proof.
  intros Hf Hidle [[] []]. split; split; simpl; auto.
  - intros aid a Ha. destruct (inv_number0 aid a Ha) as (m & Hm & Hn).
    rewrite lookup_update, Hm. simpl. eexists; split; [done|].
    destruct (bool_decide _); rewrite ?Hf; done.
  - intros aid a Ha Hp. destruct (inv_lock0 aid a Ha Hp) as (m & Hm & Hs & Hb & Hn).
    exists m. rewrite lookup_update, Hm. simpl.
    rewrite bool_decide_eq_false_2; [done|]. by eapply Hidle.
  - intros k Hs. apply (shut_keep k db); [|done| |by apply ev_shut0]; simpl; [|eauto].
    intros m Hm. rewrite lookup_update, Hm. by eexists.
Qed.

(** *** Changes to recipients *)

(** [f] may be applied to row [r] of recipient [rid]: it keeps the identity,
    schedules a retry only with a temporary failure, does not touch a
    recipient of an attempt in progress except to suppress it, revives only
    recipients that no attempt may have delivered to, and none of a message
    that is over. *)
Record safe_change (exS exR : UUID -> Prop) (db : DB) (rid : UUID) (r r' : RecipientRow) : Prop := {
  sc_id : r_message_id r' = r_message_id r /\ r_address r' = r_address r;
  sc_retry : r_retry_at r' <> None -> r_status r' = TEMP_FAILED;
  sc_part : forall aid a x, delivery_attempts db !! aid = Some a -> in_progress a ->
    attempt_recipients db !! (aid, rid) = Some x ->
    r_status r' = SENDING \/
    (r_status r' = SUPPRESSED /\ (a_suppression_blocked_at a <> None \/ exS aid));
  sc_hot : live_status (r_status r') -> ~ exR rid -> forall aid x,
    attempt_recipients db !! (aid, rid) = Some x -> hot x -> resolved db aid rid;
  sc_shut : r_status r ∈ closed_states -> r_status r' ∈ closed_states \/ ~ shut (r_message_id r) db0 }.

Lemma held_recipients exS exR db (g : UUID -> RecipientRow -> RecipientRow) :
  (forall rid r, recipients db !! rid = Some r -> g rid r = r \/ safe_change exS exR db rid r (g rid r)) ->
  Held exS exR db ->
  Held exS exR (db <| recipients := map_imap (fun rid r => Some (g rid r)) (recipients db) |>).
Proof.
  intros Hg [[] []].
  assert (Hl : forall rid, map_imap (fun rid r => Some (g rid r)) (recipients db) !! rid
                           = g rid <$> recipients db !! rid)
    by (intros; rewrite map_lookup_imap; by destruct (_ !! _)).
  assert (Hid : forall rid r, recipients db !! rid = Some r ->
            r_message_id (g rid r) = r_message_id r /\ r_address (g rid r) = r_address r)
    by (intros rid r Hr; destruct (Hg rid r Hr) as [->|[]]; auto).
  split; split; simpl; auto.
  - intros aid rid x Hx. destruct (inv_link0 aid rid x Hx) as (a & r & Ha & Hr & Hm).
    exists a, (g rid r). rewrite Hl, Hr. split; [done|]. split; [done|]. by rewrite (proj1 (Hid _ _ Hr)).
  - intros aid rid a x r' Ha Hp Hx Hr'. rewrite Hl in Hr'.
    destruct (recipients db !! rid) as [r|] eqn:Hr; simplify_eq/=.
    destruct (Hg rid r Hr) as [->|Hs]; [by eapply inv_part0|]. by eapply (sc_part _ _ _ _ _ _ Hs).
  - intros rid r' Hr'. rewrite Hl in Hr'. destruct (recipients db !! rid) as [r|] eqn:Hr; simplify_eq/=.
    destruct (Hg rid r Hr) as [->|Hs]; [by eauto|]. apply (sc_retry _ _ _ _ _ _ Hs).
  - intros aid rid x r' Hx Hh Hn Hr' Hex Hlive. rewrite Hl in Hr'.
    destruct (recipients db !! rid) as [r|] eqn:Hr; simplify_eq/=.
    destruct (Hg rid r Hr) as [Heq|Hs]; [rewrite Heq in Hlive; by eapply inv_hot0|].
    apply Hn. by eapply (sc_hot _ _ _ _ _ _ Hs).
  - intros rid r0 Hr0. destruct (ev_recipient0 rid r0 Hr0) as (r & Hr & Hm & Had).
    exists (g rid r). rewrite Hl, Hr. destruct (Hid rid r Hr) as [-> ->]. auto.
  - intros mid Hs. apply (shut_keep mid db); [by eexists|done| |by apply ev_shut0]; simpl.
    intros rid r' Hr'. rewrite Hl in Hr'. destruct (recipients db !! rid) as [r|] eqn:Hr; simplify_eq/=. intros Hm.
    destruct (Hid rid r Hr) as [E _]. destruct (Hg rid r Hr) as [Heq|Hc]; [rewrite Heq in *; eauto|left].
    destruct (ev_shut0 mid Hs) as (_ & _ & Hclosed).
    destruct (sc_shut _ _ _ _ _ _ Hc) as [|Hn]; [|done|destruct Hn; congruence]. apply (Hclosed rid); congruence.
Qed.

(** An UPDATE is such a change. *)
Lemma held_update exS exR db p f :
  (forall rid r, recipients db !! rid = Some r -> p rid r = true ->
     safe_change exS exR db rid r (f r)) ->
  Held exS exR db -> Held exS exR (db <| recipients := update p f (recipients db) |>).
Proof.
  intros Hp. apply (held_recipients exS exR db (fun rid r => if p rid r then f r else r)).
  intros rid r Hr. destruct (p rid r) eqn:E; auto.
Qed.

(** A recipient in a pending state that is not part of an attempt in progress
    may move between pending states, or out of them. *)
Lemma pending_change exS exR db rid r r' :
  Inv exS exR db -> recipients db !! rid = Some r -> one_of (r_status r) [QUEUED; TEMP_FAILED] = true ->
  r_message_id r' = r_message_id r -> r_address r' = r_address r ->
  (r_retry_at r' <> None -> r_status r' = TEMP_FAILED) -> ~ exR rid ->
  safe_change exS exR db rid r r'.
Proof.
  intros HI Hr Hst Hid Had Hret Hex. apply one_of_true in Hst. split; auto.
  - intros aid a x Ha Hp Hx.
    destruct (inv_part _ _ _ HI _ _ _ _ _ Ha Hp Hx Hr) as [H|[H _]]; rewrite H in Hst; by set_solver.
  - intros _ _ aid x Hx Hh. destruct (decide (resolved db aid rid)) as [|Hn]; [done|].
    exfalso. eapply (inv_hot _ _ _ HI); eauto. unfold live_status. set_solver.
  - intros H. apply one_of_true in Hst. by destruct (pending_open _ Hst).
Qed.

(** *** Changes to attempts *)

Definition same_attempt (a a' : Attempt) : Prop :=
  a_message_id a' = a_message_id a /\ a_provider_id a' = a_provider_id a /\
  a_attempt_number a' = a_attempt_number a /\ a_claim_token a' = a_claim_token a /\
  a_started_at a' = a_started_at a.

(** An attempt may be changed when it keeps its identity, is not reopened,
    keeps or gains the policy fence, and, where it existed before the
    transaction, keeps an armed DATA fence and a final result. *)
Lemma held_attempt exS exS' exR db (p : UUID -> Attempt -> bool) f :
  (forall k a, delivery_attempts db !! k = Some a -> p k a = true ->
     same_attempt a (f a) /\ (in_progress (f a) -> in_progress a) /\
     (a_data_armed_at (f a) <> None -> a_data_armed_at a <> None \/ in_progress a) /\
     (in_progress (f a) -> a_suppression_blocked_at a <> None \/ exS k ->
        a_suppression_blocked_at (f a) <> None \/ exS' k) /\
     (~ in_progress (f a) -> exS' k \/ (~ in_progress a /\ (exS k -> exS' k))) /\
     (forall a0, delivery_attempts db0 !! k = Some a0 ->
        (a_data_armed_at a0 <> None -> a_data_armed_at (f a) = a_data_armed_at a) /\
        (~ in_progress a0 -> a_result (f a) = a_result a))) ->
  (forall k a, delivery_attempts db !! k = Some a -> p k a = false -> exS k -> exS' k) ->
  Held exS exR db ->
  Held exS' exR (db <| delivery_attempts := update p f (delivery_attempts db) |>).
Proof.
  intros Hf Hex [[] []].
  assert (Hinv : forall k a', update p f (delivery_attempts db) !! k = Some a' ->
    exists a, delivery_attempts db !! k = Some a /\ same_attempt a a' /\
      (in_progress a' -> in_progress a /\
         (a_suppression_blocked_at a <> None \/ exS k -> a_suppression_blocked_at a' <> None \/ exS' k)) /\
      (a_data_armed_at a' <> None -> a_data_armed_at a <> None \/ in_progress a) /\
      (~ in_progress a' -> exS' k \/ (~ in_progress a /\ (exS k -> exS' k)))).
  { intros k a' Hk. rewrite lookup_update in Hk. destruct (_ !! k) as [a|] eqn:Ha; simplify_eq/=.
    exists a. split; [done|]. destruct (p k a) eqn:Hp.
    - destruct (Hf k a Ha Hp) as (Hs & Hi & Har & Hb & Hc & _). auto.
    - split; [by repeat split|]. split; [|split; [by left|eauto]]. intros Hpr. split; [done|].
      intros [|]; [by left|right]. eauto. }
  split; split; simpl; auto.
  - intros aid rid x Hx. destruct (inv_link0 aid rid x Hx) as (a & r & Ha & Hr & Hm).
    rewrite lookup_update, Ha. eexists _, r. split; [reflexivity|]. split; [done|].
    destruct (p aid a) eqn:Hp; [|done]. destruct (Hf aid a Ha Hp) as ((-> & _) & _). done.
  - intros aid a' Ha'. destruct (Hinv aid a' Ha') as (a & Ha & (-> & _ & -> & _) & _). eauto.
  - intros aid aid' a1 a2 H1 H2 Hm Hn.
    destruct (Hinv _ _ H1) as (b1 & Hb1 & (E1 & _ & E2 & _) & _).
    destruct (Hinv _ _ H2) as (b2 & Hb2 & (E3 & _ & E4 & _) & _).
    eapply inv_unique0; eauto; congruence.
  - intros aid a' Ha' Hp. destruct (Hinv _ _ Ha') as (a & Ha & (-> & _ & -> & -> & _) & Hpr).
    apply inv_lock0 with (aid := aid); [done|by apply Hpr].
  - intros aid rid a' x r Ha' Hp Hx Hr.
    destruct (Hinv _ _ Ha') as (a & Ha & _ & Hpr & _). destruct (Hpr Hp) as [Hp0 Hb].
    destruct (inv_part0 _ _ _ _ _ Ha Hp0 Hx Hr) as [|[]]; [by left|right; auto].
  - intros aid rid a' x Ha' Hp Hx. destruct (Hinv _ _ Ha') as (a & Ha & _ & Hpr & _).
    eapply inv_open0; [exact Ha|by apply Hpr|exact Hx].
  - intros aid rid a' x Ha' Hp Hex' Hx. destruct (Hinv _ _ Ha') as (a & Ha & _ & _ & _ & Hc).
    destruct (Hc Hp) as [|[Hnp Hexk]]; [done|]. eapply inv_settled0; eauto.
  - intros aid rid a' x Ha' Hp Hx Hst. destruct (Hinv _ _ Ha') as (a & Ha & _ & _ & Har & _).
    destruct (Har Hp) as [Hr|Hr]; [by eapply inv_armed0|].
    rewrite (inv_open0 _ _ _ _ Ha Hr Hx) in Hst. by destruct Hst.
  - intros aid aid' rid a1 a2 x x' Hx Hh Hn H1 Hx' H2.
    destruct (Hinv _ _ H1) as (b1 & Hb1 & (_ & _ & -> & _) & _).
    destruct (Hinv _ _ H2) as (b2 & Hb2 & (_ & _ & -> & _) & _). eauto.
  - intros aid a0 Ha0. destruct (ev_attempt0 aid a0 Ha0) as (a & Ha & E1 & E2 & E3 & E4 & E5 & E6 & E7).
    rewrite lookup_update, Ha. eexists. split; [reflexivity|]. destruct (p aid a) eqn:Hp; [|done].
    destruct (Hf aid a Ha Hp) as ((S1 & S2 & S3 & S4 & S5) & _ & _ & _ & _ & Hk).
    destruct (Hk a0 Ha0) as [K1 K2]. rewrite S1, S2, S3, S4, S5. repeat (split; [done|]).
    split; intros H; [rewrite K1; auto|rewrite K2; auto].
  - intros mid Hs. apply (shut_keep mid db); [by eexists| |simpl; eauto|by apply ev_shut0].
    intros Hi aid a' Ha' Hp Hm. destruct (Hinv _ _ Ha') as (a & Ha & (E & _) & Hpr & _). eapply Hi; [exact Ha|by apply Hpr|congruence].
Qed.

(** *** Changes to the outcomes of an attempt's recipients *)

Lemma held_rows exS exR db (p : UUID * UUID -> AttemptRecipient -> bool) f :
  (forall aid rid x, attempt_recipients db !! (aid, rid) = Some x -> p (aid, rid) x = true ->
     (forall a0, delivery_attempts db0 !! aid = Some a0 -> in_progress a0) /\
     (forall a, delivery_attempts db !! aid = Some a -> ~ in_progress a /\ settled (f x) /\
        (a_data_armed_at a <> None -> ar_status (f x) = TEMP_FAILED \/ ar_status (f x) = PERM_FAILED ->
         refusal aid rid)) /\
     (hot (f x) ->
        (forall r, recipients db !! rid = Some r -> ~ exR rid -> ~ live_status (r_status r)) /\
        (forall a aid' a' x', delivery_attempts db !! aid = Some a ->
           attempt_recipients db !! (aid', rid) = Some x' -> delivery_attempts db !! aid' = Some a' ->
           a_attempt_number a' <= a_attempt_number a))) ->
  Held exS exR db ->
  Held exS exR (db <| attempt_recipients := update p f (attempt_recipients db) |>).
Proof.
  intros Hf [[] []].
  assert (Hinv : forall aid rid x', update p f (attempt_recipients db) !! (aid, rid) = Some x' ->
    exists x, attempt_recipients db !! (aid, rid) = Some x /\
              (x' = x \/ (x' = f x /\ p (aid, rid) x = true))).
  { intros aid rid x' Hk. rewrite lookup_update in Hk.
    destruct (_ !! (aid, rid)) as [x|] eqn:Hx; simplify_eq/=. exists x. destruct (p _ x) eqn:Hp; auto. }
  split; split; simpl; auto.
  - intros aid rid x' Hx'. destruct (Hinv _ _ _ Hx') as (x & Hx & _). eauto.
  - intros aid rid a x' r Ha Hp Hx' Hr. destruct (Hinv _ _ _ Hx') as (x & Hx & _). eauto.
  - intros aid rid a x' Ha Hp Hx'. destruct (Hinv _ _ _ Hx') as (x & Hx & [->|[-> Hpx]]); [eauto|].
    destruct (Hf _ _ _ Hx Hpx) as (_ & Hcl & _). by destruct (Hcl a Ha).
  - intros aid rid a x' Ha Hp Hex Hx'. destruct (Hinv _ _ _ Hx') as (x & Hx & [->|[-> Hpx]]); [eauto|].
    destruct (Hf _ _ _ Hx Hpx) as (_ & Hcl & _). by apply (Hcl a Ha).
  - intros aid rid a x' Ha Hp Hx' Hst. destruct (Hinv _ _ _ Hx') as (x & Hx & [->|[-> Hpx]]); [eauto|].
    destruct (Hf _ _ _ Hx Hpx) as (_ & Hcl & _). by apply (Hcl a Ha).
  - intros aid rid x' r Hx' Hh Hn Hr Hex. destruct (Hinv _ _ _ Hx') as (x & Hx & [->|[-> Hp]]); [eauto|].
    destruct (Hf _ _ _ Hx Hp) as (_ & _ & Hhot). by apply (Hhot Hh).
  - intros aid aid' rid a a' x' y' Hx' Hh Hn Ha Hy' Ha'.
    destruct (Hinv _ _ _ Hy') as (y & Hy & _).
    destruct (Hinv _ _ _ Hx') as (x & Hx & [->|[-> Hp]]); [exact (inv_latest0 aid aid' rid a a' x y Hx Hh Hn Ha Hy Ha')|].
    destruct (Hf _ _ _ Hx Hp) as (_ & _ & Hhot). exact (proj2 (Hhot Hh) a aid' a' y Ha Hy Ha').
  - intros aid rid x0 Hx0. destruct (ev_rows0 aid rid x0 Hx0) as (x & Hx & Hk).
    rewrite lookup_update, Hx. eexists. split; [reflexivity|]. intros a0 Ha0 Hnp.
    destruct (p (aid, rid) x) eqn:Hp; [|by eapply Hk].
    destruct (Hf _ _ _ Hx Hp) as [Hopen _]. by destruct (Hnp (Hopen a0 Ha0)).
  - intros aid rid x' Hx' Hno. destruct (Hinv _ _ _ Hx') as (x & Hx & _). eauto.
Qed.

(** A change that leaves the outcomes alone. *)
Lemma held_rows_same exS exR db (p : UUID * UUID -> AttemptRecipient -> bool) f :
  (forall x, ar_status (f x) = ar_status x) ->
  (forall aid rid x, attempt_recipients db !! (aid, rid) = Some x -> p (aid, rid) x = true ->
     forall a0, delivery_attempts db0 !! aid = Some a0 -> in_progress a0) ->
  Held exS exR db ->
  Held exS exR (db <| attempt_recipients := update p f (attempt_recipients db) |>).
Proof.
  intros Hf Hopen [[] []].
  assert (Hinv : forall aid rid x', update p f (attempt_recipients db) !! (aid, rid) = Some x' ->
    exists x, attempt_recipients db !! (aid, rid) = Some x /\ ar_status x' = ar_status x).
  { intros aid rid x' Hk. rewrite lookup_update in Hk.
    destruct (_ !! (aid, rid)) as [x|] eqn:Hx; simplify_eq/=. exists x. by destruct (p _ x). }
  assert (Hhot : forall x x', ar_status x' = ar_status x -> hot x' -> hot x)
    by (unfold hot; intros ? ? ->; done).
  split; split; simpl; auto.
  - intros aid rid x' Hx'. destruct (Hinv _ _ _ Hx') as (x & Hx & _). eauto.
  - intros aid rid a x' r Ha Hp Hx' Hr. destruct (Hinv _ _ _ Hx') as (x & Hx & _). eauto.
  - intros aid rid a x' Ha Hp Hx'. destruct (Hinv _ _ _ Hx') as (x & Hx & ->). eauto.
  - intros aid rid a x' Ha Hp Hex Hx'. destruct (Hinv _ _ _ Hx') as (x & Hx & E). unfold settled. rewrite E.
    eapply inv_settled0; eauto.
  - intros aid rid a x' Ha Hp Hx' Hst. destruct (Hinv _ _ _ Hx') as (x & Hx & E). rewrite E in Hst. eauto.
  - intros aid rid x' r Hx' Hh Hn Hr Hex. destruct (Hinv _ _ _ Hx') as (x & Hx & E). eauto.
  - intros aid aid' rid a a' x' y' Hx' Hh Hn Ha Hy' Ha'.
    destruct (Hinv _ _ _ Hy') as (y & Hy & _). destruct (Hinv _ _ _ Hx') as (x & Hx & E).
    exact (inv_latest0 aid aid' rid a a' x y Hx (Hhot _ _ E Hh) Hn Ha Hy Ha').
  - intros aid rid x0 Hx0. destruct (ev_rows0 aid rid x0 Hx0) as (x & Hx & Hk).
    rewrite lookup_update, Hx. eexists. split; [reflexivity|]. intros a0 Ha0 Hnp.
    destruct (p (aid, rid) x) eqn:Hp; [|by eapply Hk].
    by destruct (Hnp (Hopen _ _ _ Hx Hp a0 Ha0)).
  - intros aid rid x' Hx' Hno. destruct (Hinv _ _ _ Hx') as (x & Hx & _). eauto.
Qed.

Lemma held_weaken exS exS' exR exR' db :
  (forall k, exS k -> exS' k) -> (forall k, exR k -> exR' k) -> Held exS exR db -> Held exS' exR' db.
Proof.
  intros HS HR [[] []]. split; split; auto.
  - intros. destruct (inv_part0 aid rid a x r) as [|[? [|]]]; auto.
  - intros. eapply inv_settled0; eauto.
  - intros. eapply inv_hot0; eauto.
Qed.

(** The rows of an exempt attempt are all settled. *)
Lemma held_close exS exR db :
  (forall aid, exS aid -> (forall a, delivery_attempts db !! aid = Some a -> ~ in_progress a) /\
     forall rid x, attempt_recipients db !! (aid, rid) = Some x -> settled x) ->
  (forall aid, base.Decision (exS aid)) -> Held exS exR db -> Held none exR db.
Proof.
  intros Hex Hdec [[] HE]. split; [split; auto|done].
  - intros aid rid a x r Ha Hp Hx Hr. destruct (inv_part0 aid rid a x r) as [|[? [|H]]]; auto.
    by destruct (proj1 (Hex aid H) a Ha).
  - intros aid rid a x Ha Hp _ Hx. destruct (Hdec aid) as [H|H]; [by apply (proj2 (Hex aid H) rid)|eauto].
Qed.

(** An exemption that is no longer needed. *)
Lemma held_strengthen exS exR db :
  (forall rid r, exR rid -> recipients db !! rid = Some r -> ~ live_status (r_status r)) ->
  (forall rid, base.Decision (exR rid)) -> Held exS exR db -> Held exS none db.
Proof.
  intros Hex Hdec [[] HE]. split; [split; auto|done].
  intros aid rid x r Hx Hh Hn Hr _. destruct (Hdec rid) as [H|H]; [by apply (Hex rid)|eauto].
Qed.

(** An attempt that carries its message's current number is the latest of
    each of its recipients. *)
Lemma top_attempt exS exR db aid a m rid x aid' x' a' :
  Inv exS exR db -> delivery_attempts db !! aid = Some a ->
  messages db !! a_message_id a = Some m -> a_attempt_number a = m_attempt_count m ->
  attempt_recipients db !! (aid, rid) = Some x ->
  attempt_recipients db !! (aid', rid) = Some x' -> delivery_attempts db !! aid' = Some a' ->
  a_attempt_number a' <= a_attempt_number a.
Proof.
  intros HI Ha Hm Hn Hx Hx' Ha'.
  destruct (inv_link _ _ _ HI _ _ _ Hx) as (b & r & Hb & Hr & E1).
  destruct (inv_link _ _ _ HI _ _ _ Hx') as (b' & r' & Hb' & Hr' & E2).
  destruct (inv_number _ _ _ HI _ _ Ha') as (m' & Hm' & Hle).
  assert (a_message_id a' = a_message_id a) as E by congruence. rewrite E in Hm'.
  simplify_eq. lia.
Qed.

(** *** New rows *)

Lemma held_new_attempt exS exR db aid a m :
  delivery_attempts db !! aid = None -> attempt_slot_free (a_message_id a) (a_attempt_number a) db = true ->
  messages db !! a_message_id a = Some m -> m_status m = SENDING ->
  m_locked_by m = Some (a_claim_token a) -> a_attempt_number a = m_attempt_count m ->
  a_data_armed_at a = None -> ~ shut (a_message_id a) db0 -> Held exS exR db ->
  Held exS exR (db <| delivery_attempts := <[aid := a]> (delivery_attempts db) |>).
Proof.
  intros Hnew Hfree Hm Hs Hl Hn Hun Hopen [[] []]. unfold attempt_slot_free in Hfree. bsimpl.
  assert (Hnox : forall rid x, attempt_recipients db !! (aid, rid) = Some x -> False)
    by (intros rid x Hx; destruct (inv_link0 _ _ _ Hx) as (b & r & Hb & _); congruence).
  assert (Hslot : forall k b, delivery_attempts db !! k = Some b -> a_message_id b = a_message_id a ->
                    a_attempt_number b <> a_attempt_number a).
  { intros k b Hb Hmb Hnb. pose proof (exists_row_false _ _ _ _ Hfree Hb) as Hf.
    simpl in Hf. rewrite Hmb, Hnb in Hf. bsimpl. lia. }
  split; split; simpl; auto.
  - intros k rid x Hx. destruct (inv_link0 _ _ _ Hx) as (b & r & Hb & ?).
    exists b, r. rewrite lookup_insert_ne; [done|]. intros ->. congruence.
  - intros k b. rewrite lookup_insert_Some. intros [[<- <-]|[_ Hb]]; [|eauto].
    exists m. split; [done|lia].
  - intros k k' b b'. rewrite !lookup_insert_Some.
    intros [[<- <-]|[Hk Hb]] [[<- <-]|[Hk' Hb']] Hmm Hnn; auto.
    + exfalso. by eapply Hslot.
    + exfalso. by eapply Hslot.
    + eauto.
  - intros k b. rewrite lookup_insert_Some. intros [[<- <-]|[_ Hb]]; [|eauto]. intros _. eauto.
  - intros k rid b x r. rewrite lookup_insert_Some. intros [[<- <-]|[_ Hb]]; [|eauto].
    intros _ Hx. by destruct (Hnox _ _ Hx).
  - intros k rid b x. rewrite lookup_insert_Some. intros [[<- <-]|[_ Hb]]; [|eauto].
    intros _ Hx. by destruct (Hnox _ _ Hx).
  - intros k rid b x. rewrite lookup_insert_Some. intros [[<- <-]|[_ Hb]]; [|eauto].
    intros _ _ Hx. by destruct (Hnox _ _ Hx).
  - intros k rid b x. rewrite lookup_insert_Some. intros [[<- <-]|[_ Hb]]; [|eauto].
    intros _ Hx. by destruct (Hnox _ _ Hx).
  - intros k k' rid b b' x x' Hx Hh Hr. rewrite !lookup_insert_Some.
    intros [[<- <-]|[_ Hb]] Hx' [[<- <-]|[_ Hb']]; try (by destruct (Hnox _ _ Hx));
      try (by destruct (Hnox _ _ Hx')); eauto.
  - intros k a0 Ha0. destruct (ev_attempt0 k a0 Ha0) as (b & Hb & ?). exists b.
    rewrite lookup_insert_ne; [done|]. intros ->. congruence.
  - intros mid Hsh. apply (shut_keep mid db); [by eexists| |simpl; eauto|by apply ev_shut0].
    intros Hi k b. simpl. rewrite lookup_insert_Some. intros [[_ <-]|[_ Hb]] Hp E; [subst; by destruct Hopen|by eapply Hi].
Qed.

Lemma held_new_row exS exR db aid rid a r :
  attempt_recipients db !! (aid, rid) = None -> delivery_attempts db0 !! aid = None ->
  delivery_attempts db !! aid = Some a -> in_progress a -> recipients db !! rid = Some r ->
  r_message_id r = a_message_id a -> r_status r = SENDING ->
  (forall aid' x, attempt_recipients db !! (aid', rid) = Some x -> hot x -> resolved db aid' rid) ->
  Held exS exR db ->
  Held exS exR (db <| attempt_recipients :=
    <[(aid, rid) := MkAttemptRecipient SENDING None None None None None]> (attempt_recipients db) |>).
Proof.
  intros Hnew H0 Ha Hprog Hr Hm Hs Hcold [[] []].
  split; split; simpl; auto.
  - intros k q x. rewrite lookup_insert_Some. intros [[E <-]|[_ Hx]]; [|eauto]. simplify_eq. eauto.
  - intros k q b x s Hb Hp. rewrite lookup_insert_Some. intros [[E <-]|[_ Hx]] Hs'; [|eauto].
    simplify_eq. by left.
  - intros k q b x Hb Hp. rewrite lookup_insert_Some. intros [[E <-]|[_ Hx]]; [done|eauto].
  - intros k q b x Hb Hp Hex. rewrite lookup_insert_Some. intros [[E <-]|[_ Hx]]; [|eauto].
    simplify_eq. by destruct Hp.
  - intros k q b x Hb Hp. rewrite lookup_insert_Some. intros [[E <-]|[_ Hx]]; [|eauto].
    intros [E'|E']; discriminate E'.
  - intros k q x s. rewrite lookup_insert_Some. intros [[E <-]|[_ Hx]]; [|eauto].
    intros [H|H]; discriminate H.
  - intros k k' q b b' x x'. rewrite !lookup_insert_Some.
    intros [[E <-]|[_ Hx]] Hh Hn Hb; [by destruct Hh|].
    intros [[E <-]|[_ Hx']] Hb'; [|eauto]. simplify_eq. by destruct Hn; eapply Hcold.
  - intros k q x0 Hx0. destruct (ev_rows0 k q x0 Hx0) as (x & Hx & Hk). exists x.
    rewrite lookup_insert_ne; [done|]. intros E. simplify_eq.
  - intros k q x. rewrite lookup_insert_Some. intros [[E <-]|[_ Hx]]; [|eauto]. by simplify_eq.
Qed.

End Keep.
