(* ===== verification/QueueOps.v ===== *)
(** * Sub-operations of the queue keep its invariant

    The statements and helpers that several operations share: ledger entries,
    the message projection, expiry, suppression, circuit bookkeeping; and the
    two sweeps. *)

From S2P Require Import Prelude GoText Delivery SmtpClient Provider Database Suppression Queue QueueInv.

Import Queue.

(** ** Composing triples *)

Ltac step R := apply (triple_bind _ R); [| intros ?].

(** Predicates that do not look at the ledger. *)
Definition ledger_closed (P : DB -> Prop) : Prop := forall db eid e outbox,
  events db !! eid = None -> P db -> P (with_event eid e outbox db).

Lemma triple_ledger P id e : ledger_closed P -> triple P (record_event id e) (fun _ => P).
Proof. intros HP. apply triple_record. intros t db outbox Hdb Hn _. by apply HP. Qed.

Lemma triple_event P mid attempt kind rid at_ data :
  ledger_closed P -> triple P (event mid attempt kind rid at_ data) (fun _ => P).
Proof.
  intros HP. unfold event. step (fun (_ : UUID) => P); [apply triple_fresh|].
  by apply triple_ledger.
Qed.

Lemma triple_recordEvent P j e : ledger_closed P -> triple P (recordEvent j e) (fun _ => P).
Proof.
  intros HP. unfold recordEvent. destruct (ev_Sequence e <=? 0); [apply triple_raise|].
  step (fun (_ : UUID) => P); [apply triple_fresh|].
  apply triple_stmt. intros t db [] db' Hdb H. destruct (exists_row _ _); simplify_eq/=; [done|].
  destruct (insert_event _ _ _ _) as [d|] eqn:E; simplify_eq/=.
  apply insert_event_some in E as (Hn & outbox & _ & ->). by apply HP.
Qed.

(** A ledger entry stamped with the process clock. *)
Lemma triple_logged P mid attempt kind rid data :
  ledger_closed P ->
  triple P (at_ ← gotime; event mid attempt kind rid at_ data) (fun _ => P).
Proof. intros HP. step (fun (_ : Time) => P); [apply triple_gotime|by apply triple_event]. Qed.

Section Kept.
  Context {Rf : Refusals} (db0 : DB).

(** The invariant together with a fact about attempts and their recipients. *)
Definition Kept (exS exR : UUID -> Prop)
    (R : gmap UUID Attempt -> gmap (UUID * UUID) AttemptRecipient -> Prop) (db : DB) : Prop :=
  Held db0 exS exR db /\ R (delivery_attempts db) (attempt_recipients db).

Lemma kept_ledger exS exR R : ledger_closed (Kept exS exR R).
Proof. intros db eid e outbox Hn [HH HR]. split; [by apply held_event|done]. Qed.

Lemma triple_refresh exR exS R mid :
  (forall db, R (delivery_attempts db) (attempt_recipients db) -> idle mid db) ->
  triple (Kept exS exR R) (refresh mid) (fun _ => Kept exS exR R).
Proof.
  intros Hidle. apply triple_exec. intros t db [HH HR]. split; [|done].
  apply held_message; [done|by apply Hidle|done].
Qed.

Lemma triple_set_message exR exS R mid f :
  (forall m, m_attempt_count (f m) = m_attempt_count m) ->
  (forall db, R (delivery_attempts db) (attempt_recipients db) -> idle mid db) ->
  triple (Kept exS exR R) (set_message mid f) (fun _ => Kept exS exR R).
Proof.
  intros Hf Hidle. apply triple_exec. intros t db [HH HR]. split; [|done].
  apply held_message; [done|by apply Hidle|done].
Qed.

(** *** Expiry *)

Lemma triple_applyExpiry exS R mid attempt :
  triple (Kept exS none R) (applyExpiry mid attempt) (fun _ => Kept exS none R).
Proof.
  unfold applyExpiry. step (fun (_ : list (UUID * option json)) => Kept exS none R).
  - apply triple_stmt. intros t db a db' [HH HR] H. simplify_eq/=. split; [|done].
    apply (held_recipients _ exS none db
             (fun rid r => if expirable t mid db r then expire_row t db rid r else r)); [|done].
    intros rid r Hr. destruct (expirable t mid db r) eqn:E; [right|by left].
    unfold expirable, has_status in E. bsimpl. destruct HH as [HI _].
    eapply pending_change; eauto; try done. bsimpl. tauto.
  - apply triple_loop. intros [rid d] _. apply triple_logged, kept_ledger.
Qed.

(** *** Suppression *)

(** The recipient may be suppressed: every attempt in progress that has it is
    fenced, or exempt. *)
Definition coverable (exS : UUID -> Prop) (rid : UUID)
    (A : gmap UUID Attempt) (X : gmap (UUID * UUID) AttemptRecipient) : Prop :=
  forall aid a x, A !! aid = Some a -> in_progress a -> X !! (aid, rid) = Some x ->
  a_suppression_blocked_at a <> None \/ exS aid.

Lemma suppress_change exS exR db rid r t sid :
  coverable exS rid (delivery_attempts db) (attempt_recipients db) ->
  safe_change db0 exS exR db rid r (Suppression.suppress_row t sid r).
Proof.
  intros Hc. split; try done.
  - intros aid a x Ha Hp Hx. right. split; [done|]. eauto.
  - intros Hl. unfold live_status in Hl. simpl in Hl. set_solver.
  - intros _. left. simpl. unfold closed_states. set_solver.
Qed.

Lemma elem_hits mid sending t db rid sid :
  (rid, sid) ∈ Suppression.hits mid sending t db ->
  exists r, recipients db !! rid = Some r /\ r_message_id r = mid /\
            one_of (r_status r) (Suppression.pending_states sending) = true.
Proof.
  unfold Suppression.hits. rewrite elem_sort_by, list_elem_of_In, in_concat.
  intros (l & Hl & Hin). apply in_map_iff in Hl as ([k r] & <- & Hk).
  apply in_map_iff in Hin as ([k' e] & He & _). simplify_eq/=.
  apply list_elem_of_In, elem_select in Hk as [Hr Hp].
  apply andb_true_iff in Hp as [H1 H2]. apply bool_decide_eq_true in H1. eauto.
Qed.

(** Facts about the tables of attempts, fixed while other tables change. *)
Definition tables (A : gmap UUID Attempt) (X : gmap (UUID * UUID) AttemptRecipient)
    (A' : gmap UUID Attempt) (X' : gmap (UUID * UUID) AttemptRecipient) : Prop := A' = A /\ X' = X.

Lemma triple_fix {T : Type} (exS exR : UUID -> Prop) (R : gmap UUID Attempt -> gmap (UUID * UUID) AttemptRecipient -> Prop)
    (m : M T) :
  (forall A X, R A X -> triple (Kept exS exR (tables A X)) m (fun _ => Kept exS exR (tables A X))) ->
  triple (Kept exS exR R) m (fun _ => Kept exS exR R).
Proof.
  intros H w k db a k' db' [HH HR] Hrun.
  destruct (H _ _ HR w k db a k' db') as [HH' [HA HX]]; [done|done|].
  split; [done|]. by rewrite HA, HX.
Qed.

Lemma triple_Apply exS exR A X mid attempt sending :
  (forall t db rid sid, Kept exS exR (tables A X) db ->
     (rid, sid) ∈ Suppression.hits mid sending t db -> coverable exS rid A X) ->
  triple (Kept exS exR (tables A X)) (Suppression.Apply mid attempt sending)
    (fun _ => Kept exS exR (tables A X)).
Proof.
  intros Hcov. unfold Suppression.Apply. set (K := Kept exS exR (tables A X)).
  step (fun (found : list (UUID * UUID)) db => K db /\ forall h, h ∈ found -> coverable exS (fst h) A X).
  { apply triple_query. intros t db HK. split; [done|]. intros [rid sid] Hh. by eapply Hcov. }
  apply triple_pure. intros Hall. step (fun (_ : unit) => K).
  - apply triple_loop. intros [rid sid] Hin. step (fun (_ : unit) => K).
    + apply triple_exec. intros t db1 [HH [HA HX]]. split; [|done]. apply held_update; [|done].
      intros k2 r Hr Hk. bsimpl. subst k2. apply suppress_change. rewrite HA, HX. by apply (Hall _ Hin).
    + step (fun (_ : UUID) => K); [apply triple_fresh|].
      apply triple_ledger, kept_ledger.
  - apply (triple_ret (length a) (fun _ => K)).
Qed.

(** A pending recipient is in no attempt in progress. *)
Lemma pending_free exS exR db rid r aid a x :
  Inv exS exR db -> recipients db !! rid = Some r ->
  one_of (r_status r) [QUEUED; TEMP_FAILED] = true ->
  delivery_attempts db !! aid = Some a -> in_progress a ->
  attempt_recipients db !! (aid, rid) = Some x -> False.
Proof.
  intros HI Hr Hs Ha Hp Hx. apply one_of_true in Hs.
  destruct (inv_part _ _ _ HI _ _ _ _ _ Ha Hp Hx Hr) as [H|[H _]]; rewrite H in Hs; set_solver.
Qed.

End Kept.

(** ** The sweeps *)

Definition idle_in (ids : list UUID) (A : gmap UUID Attempt) : Prop :=
  forall mid, mid ∈ ids -> forall aid a, A !! aid = Some a -> in_progress a -> a_message_id a <> mid.

(** The rows a sweep selects are unlocked, so no attempt of theirs is in progress. *)
Lemma selected_idle {Rf : Refusals} db (p : UUID -> Message -> bool) n leb ids :
  Consistent db ->
  (forall mid m, p mid m = true -> m_locked_by m = None) ->
  ids = map fst (limit n (sort_by leb (select p (messages db)))) ->
  idle_in ids (delivery_attempts db).
Proof.
  intros HI Hp -> mid Hin. apply list_elem_of_fmap in Hin as ([k m] & -> & Hin). simpl.
  apply elem_limit, elem_sort_by, elem_select in Hin as [Hm Hk].
  eapply unlocked_idle; eauto.
Qed.

Lemma held_start {Rf : Refusals} db : Consistent db -> Held db none none db.
Proof. intros H. split; [done|apply evolves_refl]. Qed.

Lemma SweepExpired_ok {Rf : Refusals} db0 :
  Consistent db0 -> triple (fun db => db = db0) SweepExpired (fun _ => Held db0 none none).
Proof.
  intros HI. unfold SweepExpired.
  step (fun ids => Kept db0 none none (fun A _ => idle_in ids A)).
  - apply triple_query. intros t db ->. split; [by apply held_start|].
    eapply selected_idle; [done| |reflexivity]. intros mid m H. bsimpl.
    destruct (m_locked_by m); naive_solver.
  - step (fun (_ : unit) => Kept db0 none none (fun A _ => idle_in a A)).
    + apply triple_loop. intros mid Hmid.
      step (fun (_ : unit) => Kept db0 none none (fun A _ => idle_in a A)); [apply triple_applyExpiry|].
      apply triple_refresh. intros db Hi aid b. by apply Hi.
    + apply triple_return; intros db [H _]; exact H.
Qed.

Lemma SweepSuppressed_ok {Rf : Refusals} db0 :
  Consistent db0 -> triple (fun db => db = db0) SweepSuppressed (fun _ => Held db0 none none).
Proof.
  intros HI. unfold SweepSuppressed.
  step (fun ids => Kept db0 none none (fun A _ => idle_in ids A)).
  { apply triple_query. intros t db ->. split; [by apply held_start|].
    eapply selected_idle; [done| |reflexivity]. intros mid m H. bsimpl.
    destruct (m_locked_by m); naive_solver. }
  assert (Hend : forall r : TxEnd unit, triple (Kept db0 none none (fun A _ => idle_in a A)) (mret r)
            (fun _ => Held db0 none none))
    by (intros r; apply triple_return; intros db [H _]; exact H).
  destruct a as [|mid0 ids]; [apply Hend|].
  step (fun (_ : unit) => Kept db0 none none (fun A _ => idle_in (mid0 :: ids) A));
    [by apply triple_query|].
  step (fun (_ : unit) => Kept db0 none none (fun A _ => idle_in (mid0 :: ids) A)); [|apply Hend].
  apply triple_loop. intros mid Hmid.
  step (fun (_ : nat) => Kept db0 none none (fun A _ => idle_in (mid0 :: ids) A)).
  - apply triple_fix. intros A X HA. apply triple_Apply.
    intros t db rid sid [[HI' _] [<- <-]] Hh aid b x Hb Hp Hx. exfalso.
    apply elem_hits in Hh as (r & Hr & Hm & _).
    destruct (inv_link _ _ _ HI' _ _ _ Hx) as (b' & r' & Hb' & Hr' & Heq).
    apply (HA mid Hmid aid b Hb Hp). congruence.
  - apply triple_refresh. intros db Hi aid b. by apply Hi.
Qed.
