(* ===== verification/MessageOps.v ===== *)
(** * Accepting and cancelling messages keep the queue's invariant *)

From S2P Require Import Prelude GoText Delivery SmtpClient Provider Database Suppression Message Queue QueueInv QueueOps.

Import Queue.

Section Submit.
  Context {Rf : Refusals} (db0 : DB).
  Hypothesis HI : Consistent db0.

Lemma triple_guard (P : DB -> Prop) e ok : triple P (Message.guard e ok) (fun _ db => P db /\ ok = true).
Proof. destruct ok; [by apply triple_return|apply triple_raise]. Qed.

Lemma triple_guard_ (P : DB -> Prop) e ok : triple P (Message.guard e ok) (fun _ => P).
Proof. destruct ok; [by apply triple_return|apply triple_raise]. Qed.

Lemma triple_lift {A} (P : DB -> Prop) e (o : option A) :
  triple P (Message.lift e o) (fun a db => P db /\ o = Some a).
Proof. destruct o; [by apply triple_return|apply triple_raise]. Qed.

Lemma triple_lift_ {A} (P : DB -> Prop) e (o : option A) : triple P (Message.lift e o) (fun _ => P).
Proof. destruct o; [by apply triple_return|apply triple_raise]. Qed.

(** A new message has no attempts, a new recipient no outcomes. *)
Lemma held_new_message exS exR db mid m :
  messages db !! mid = None -> Held db0 exS exR db ->
  Held db0 exS exR (db <| messages := <[mid := m]> (messages db) |>).
Proof.
  intros Hnew [[I1 I2 I3 I4 I5 I6 I7 I8 I9 I10 I11] HE].
  assert (Hne : forall aid a, delivery_attempts db !! aid = Some a -> mid <> a_message_id a).
  { intros aid a Ha ->. destruct (I2 aid a Ha) as (m0 & Hm0 & _). congruence. }
  split; [split; auto|]; simpl.
  3: { destruct HE as [E1 E2 E3 E4 E5 E6]. split; auto. intros k Hk. apply (shut_keep k db); [|done|simpl; eauto|by apply E6].
       intros m0 Hm0. simpl. rewrite lookup_insert_ne by congruence. by eexists. }
  - intros aid a Ha. rewrite lookup_insert_ne by eauto. eauto.
  - intros aid a Ha Hp. rewrite lookup_insert_ne by eauto. eauto.
Qed.

Lemma held_new_recipient exS exR db rid r :
  recipients db !! rid = None -> r_retry_at r = None -> ~ shut (r_message_id r) db0 -> Held db0 exS exR db ->
  Held db0 exS exR (db <| recipients := <[rid := r]> (recipients db) |>).
Proof.
  intros Hnew Hret Hopen [[I1 I2 I3 I4 I5 I6 I7 I8 I9 I10 I11] HE].
  assert (Hne : forall aid q x, attempt_recipients db !! (aid, q) = Some x -> rid <> q).
  { intros aid q x Hx ->. destruct (I1 aid q x Hx) as (a & s & _ & Hs & _). congruence. }
  split; [split; auto|]; simpl.
  - intros aid q x Hx. rewrite lookup_insert_ne by eauto. eauto.
  - intros aid q a x s Ha Hp Hx. rewrite lookup_insert_ne by eauto. eauto.
  - intros q s. rewrite lookup_insert_Some. intros [[<- <-]|[_ Hs]]; [by rewrite Hret|eauto].
  - intros aid q x s Hx Hh Hn. rewrite lookup_insert_ne by eauto. eauto.
  - destruct HE as [E1 E2 E3 E4 E5 E6]. split; auto; simpl.
    2: { intros k Hk. apply (shut_keep k db); [simpl; by eexists|done| |by apply E6]. intros q s. simpl. rewrite lookup_insert_Some.
         intros [[_ <-]|[_ Hs]] Hm; [subst; done|eauto]. }
    intros q r0 Hr0. destruct (E4 q r0 Hr0) as (s & Hs & ?).
    exists s. rewrite lookup_insert_ne; [done|]. intros ->. congruence.
Qed.

(** ** Submission *)

(** The message being entered is new and has no attempt. *)
Definition Entered (mid : UUID) : DB -> Prop :=
  Kept db0 none none (fun A _ => ~ shut mid db0 /\ forall aid a, A !! aid = Some a -> a_message_id a <> mid).

Lemma entered_frame mid db db' :
  messages db' = messages db -> recipients db' = recipients db ->
  delivery_attempts db' = delivery_attempts db ->
  attempt_recipients db' = attempt_recipients db -> events db' = events db ->
  Entered mid db -> Entered mid db'.
Proof. intros Hm Hr Ha Hx He [HH Hi]. split; [by eapply held_frame|]. by rewrite Ha. Qed.

Lemma entered_idle mid db : (forall aid a, delivery_attempts db !! aid = Some a -> a_message_id a <> mid) ->
  idle mid db.
Proof. intros H aid a Ha _. eauto. Qed.

Lemma insert_message_ok mid m :
  triple (Held db0 none none) (Message.insert_message mid m) (fun _ => Entered mid).
Proof.
  apply triple_stmt. intros t db [] db' HH H. destruct (Message.retired_archive _ _ _); [done|].
  destruct (insert_row mid m (messages db)) as [rows|] eqn:E; [|done]. simpl in H.
  apply insert_row_some in E as [Hnew ->]. injection H as <-.
  apply (entered_frame mid (db <| messages := <[mid := m]> (messages db) |>)); try done.
  split; [by apply held_new_message|]. simpl. destruct HH as [HI' HE].
  split; [intros Hs; destruct (ev_shut _ _ HE _ Hs) as ([m0 Hm0] & _); congruence|]. intros aid a Ha E.
  destruct (inv_number _ _ _ HI' _ _ Ha) as (m0 & Hm0 & _). congruence.
Qed.

Lemma set_message_ok mid p f :
  (forall t m, m_attempt_count (f t m) = m_attempt_count m) ->
  triple (Entered mid) (Message.set_message mid p f) (fun _ => Entered mid).
Proof.
  intros Hf. apply triple_exec. intros t db [HH Hno]. split; [|done].
  destruct (p db).
  - assert (Heq : update (fun k _ => bool_decide (k = mid) && true) (f t) (messages db)
                  = update (fun k _ => bool_decide (k = mid)) (f t) (messages db)).
    { apply map_eq. intros k. rewrite !lookup_update. destruct (messages db !! k); [|done].
      simpl. by rewrite andb_true_r. }
    rewrite Heq. apply held_message; [done|by apply entered_idle, Hno|done].
  - eapply held_frame; [..|exact HH]; try done. simpl. apply map_eq. intros k. rewrite lookup_update.
    destruct (messages db !! k); [|done]. simpl. by rewrite andb_false_r.
Qed.

Lemma insert_recipient_ok mid address status :
  triple (Entered mid) (Message.insert_recipient mid address status) (fun _ => Entered mid).
Proof.
  unfold Message.insert_recipient. step (fun (_ : UUID) => Entered mid); [apply triple_fresh|].
  apply triple_stmt. intros t db [] db' [HH Hno] H.
  destruct (insert_row _ _ _) as [rows|] eqn:E; [|done]. injection H as <-.
  apply insert_row_some in E as [Hnew ->]. split; [by apply held_new_recipient; [..|apply Hno|]|done].
Qed.

Lemma record_ok mid kind at_ source data (P : DB -> Prop) :
  ledger_closed P -> triple P (Message.record mid kind at_ source data) (fun _ => P).
Proof.
  intros HP. unfold Message.record. step (fun (_ : UUID) => P); [apply triple_fresh|].
  by apply triple_ledger.
Qed.

Lemma enqueueTx_ok s source apiKey keyHash :
  triple (Held db0 none none) (Message.enqueueTx s source apiKey keyHash) (fun _ => Entered (Message.s_ID s)).
Proof.
  unfold Message.enqueueTx. set (H0 := Held db0 none none). set (mid := Message.s_ID s).
  step (fun (_ : Message.Business) => H0); [apply triple_lift_|].
  step (fun (_ : unit) => H0); [apply triple_guard_|].
  step (fun (_ : option Time) => H0); [apply triple_lift_|].
  step (fun (_ : unit) => H0); [apply triple_guard_|].
  step (fun (_ : option Time) => H0); [apply triple_lift_|].
  step (fun (_ : unit) => H0); [apply triple_guard_|].
  step (fun (_ : string) => H0); [apply triple_lift_|].
  step (fun (_ : unit) => H0); [apply triple_guard_|].
  step (fun (_ : string) => H0);
    [destruct (String.eqb source "api"); [by apply triple_query_row|by apply triple_return]|].
  step (fun (_ : Time) => H0); [apply triple_gotime|].
  step (fun (_ : unit) => Entered mid); [apply insert_message_ok|].
  step (fun (_ : unit) => Entered mid); [apply triple_loop; intros; apply insert_recipient_ok|].
  step (fun (_ : unit) => Entered mid).
  { destruct (String.eqb _ "sandbox"); [by apply set_message_ok|].
    step (fun (_ : unit) => Entered mid); [by apply triple_query|].
    step (fun (_ : nat) => Entered mid); [|by apply set_message_ok].
    apply triple_fix. intros A X HA. apply triple_Apply.
    intros t db rid sid [[HI' _] [<- <-]] Hh aid b x Hb Hp Hx. exfalso.
    apply elem_hits in Hh as (r & Hr & Hm & _).
    destruct (inv_link _ _ _ HI' _ _ _ Hx) as (b' & r' & Hb' & Hr' & Heq). apply (proj2 HA aid b Hb). congruence. }
  step (fun (_ : Message) => Entered mid); [by apply triple_query_row|].
  apply triple_loop. intros ka _. apply record_ok, kept_ledger.
Qed.

Lemma Enqueue_ok s : triple (fun db => db = db0) (Message.Enqueue s) (fun _ => Held db0 none none).
Proof.
  unfold Message.Enqueue. step (fun (_ : unit) => Entered (Message.s_ID s)).
  - eapply triple_conseq; [apply enqueueTx_ok|intros db ->; by apply held_start|done].
  - apply triple_return. by intros db [H _].
Qed.

(** ** Cancellation *)

Lemma key_enabled_ok identity (P : DB -> Prop) : triple P (Message.key_enabled identity) (fun _ => P).
Proof.
  unfold Message.key_enabled. step (fun (_ : ApiKey) => P); [by apply triple_query_row|apply triple_guard_].
Qed.

Lemma cancelPendingTx_ok identity id replacement :
  triple (Held db0 none none) (Message.cancelPendingTx identity id replacement) (fun _ => Held db0 none none).
Proof.
  unfold Message.cancelPendingTx. set (H0 := Held db0 none none).
  set (found := fun (o : option Message) db => H0 db /\ forall m, o = Some m -> messages db !! id = Some m).
  step found.
  { apply triple_query. intros t db HH. split; [done|]. intros m Hm.
    destruct (messages db !! id) as [m'|]; [|done]. simpl in Hm.
    destruct (Message.owned_by identity m'); [|done]. by injection Hm as <-. }
  step (fun m db => H0 db /\ messages db !! id = Some m).
  { destruct a as [m|]; [|apply triple_raise]. apply triple_return. intros db [HH Hm]. auto. }
  destruct (not_null (m_cancelled_at a0)).
  { step (fun (_ : unit) => H0); [|by apply triple_return].
    destruct (is_null replacement); [apply triple_return; by intros db [? _]|apply triple_raise]. }
  step (fun (unsafe : bool) db => (H0 db /\ messages db !! id = Some a0) /\
          (unsafe = false -> m_locked_by a0 = None)).
  { apply triple_query. intros t db HH. split; [done|]. unfold Message.not_cancellable. intros E.
    do 4 apply orb_false_iff in E as [E _]. by destruct (m_locked_by a0). }
  step (fun (_ : unit) db => H0 db /\ idle id db).
  { destruct a1; [apply triple_raise|]. apply triple_return. intros db [[HH Hm] Hl]. split; [done|].
    destruct HH as [HI' _]. eapply unlocked_idle; eauto. }
  set (S := Kept db0 none none (fun A _ => forall aid a, A !! aid = Some a -> in_progress a -> a_message_id a <> id)).
  step (fun (_ : unit) => S).
  { apply triple_exec. intros t db [HH Hi]. split; [|exact Hi]. apply held_update; [|done].
    intros rid r Hr Hp. apply andb_true_iff in Hp as [_ Hp]. destruct HH as [HI' _].
    eapply pending_change; eauto; try done. }
  step (fun (_ : unit) => S).
  { apply triple_exec. intros t db [HH Hi]. split; [|exact Hi].
    assert (Heq : forall f, update (fun k _ => bool_decide (k = id) && true) f (messages db)
                  = update (fun k _ => bool_decide (k = id)) f (messages db)).
    { intros f. apply map_eq. intros k. rewrite !lookup_update. destruct (messages db !! k); [|done].
      simpl. by rewrite andb_true_r. }
    rewrite Heq. apply held_message; [done|exact Hi|done]. }
  step (fun (_ : UUID) => S); [apply triple_fresh|].
  step (fun (_ : unit) => S).
  { apply triple_ledger, kept_ledger. }
  apply triple_return. by intros db [H _].
Qed.

Lemma CancelPending_ok identity id :
  triple (fun db => db = db0) (Message.CancelPending identity id) (fun _ => Held db0 none none).
Proof.
  unfold Message.CancelPending. step (fun (_ : unit) db => db = db0); [apply key_enabled_ok|].
  step (fun (_ : bool) => Held db0 none none); [|by apply triple_return].
  eapply triple_conseq; [apply cancelPendingTx_ok|intros db ->; by apply held_start|done].
Qed.

(** ** Idempotent submission *)

Lemma reserveSubmission_ok identity id units stream expiresAt scheduleAt size :
  triple (Held db0 none none)
    (Message.reserveSubmission identity id units stream expiresAt scheduleAt size)
    (fun _ => Held db0 none none).
Proof.
  unfold Message.reserveSubmission. set (H0 := Held db0 none none).
  step (fun (_ : string) => H0); [apply triple_lift_|].
  step (fun (_ : ApiKey) => H0); [by apply triple_query_row|].
  step (fun (_ : unit) => H0).
  { destruct (IsZero expiresAt); [by apply triple_return|].
    step (fun (_ : bool * bool) => H0); [by apply triple_query|].
    step (fun (_ : unit) => H0); apply triple_guard_. }
  step (fun (_ : unit) => H0).
  { unfold Message.admitSchedule. destruct (IsZero scheduleAt); [by apply triple_return|].
    step (fun (_ : unit) => H0); [apply triple_guard_|].
    step (fun (_ : bool) => H0); [by apply triple_query|].
    step (fun (_ : unit) => H0); [apply triple_guard_|].
    step (fun (_ : Z * Z) => H0); [by apply triple_query|apply triple_guard_]. }
  step (fun (_ : unit) => H0); [apply triple_guard_|].
  step (fun (_ : unit) => H0); [apply triple_guard_|].
  step (fun (_ : list Z) => H0); [by apply triple_query|].
  step (fun (_ : unit) => H0); [apply triple_guard_|].
  step (fun (_ : option StreamRow) => H0); [by apply triple_query|].
  step (fun (_ : StreamRow) => H0); [apply triple_lift_|].
  step (fun (_ : unit) => H0); [apply triple_guard_|].
  step (fun (_ : unit) => H0); [apply triple_guard_|].
  step (fun (_ : list Z) => H0); [by apply triple_query|].
  step (fun (_ : unit) => H0); [apply triple_guard_|].
  apply triple_stmt. intros t db [] db' HH H.
  destruct (insert_row _ _ _) as [rows|]; [|done]. injection H as <-.
  eapply held_frame; [..|exact HH]; done.
Qed.

Lemma admission_ok s apiKey keyHash fingerprint :
  triple (fun db => db = db0) (Message.admission s apiKey keyHash fingerprint) (fun _ => Held db0 none none).
Proof.
  unfold Message.admission. set (H0 := Held db0 none none).
  step (fun (_ : bool) => H0).
  { apply triple_stmt. intros t db b db' -> H. pose proof (held_start db0 HI) as HH.
    destruct (api_submission_ledger db0 !! (apiKey, keyHash)); [by injection H as <- <-|].
    destruct (exists_row _ _); [done|]. injection H as <- <-. eapply held_frame; [..|exact HH]; done. }
  destruct (negb a).
  { step (fun (_ : Ledger) => H0); [by apply triple_query_row|].
    step (fun (_ : unit) => H0); [apply triple_guard_|by apply triple_return]. }
  step (fun (_ : unit) => H0).
  { destruct (Message.s_Replaces s); [|by apply triple_return].
    step (fun (_ : unit) => H0); [apply key_enabled_ok|].
    step (fun (_ : bool) => H0); [apply cancelPendingTx_ok|by apply triple_return]. }
  step (fun (_ : unit) => H0); [apply reserveSubmission_ok|by apply triple_return].
Qed.

Lemma enqueueIdempotent_ok s apiKey keyHash fingerprint publish :
  (forall save s', publish = Some save -> save s = Some s' -> Message.s_ID s' = Message.s_ID s) ->
  triple (fun db => db = db0) (Message.enqueueIdempotent s apiKey keyHash fingerprint publish)
    (fun _ => Held db0 none none).
Proof.
  intros Hsave. unfold Message.enqueueIdempotent. set (H0 := Held db0 none none).
  step (fun (_ : option Message.EnqueueResult) => H0); [apply admission_ok|]. destruct a; [by apply triple_return|].
  step (fun s' db => H0 db /\ Message.s_ID s' = Message.s_ID s).
  { destruct publish as [save|]; [|by apply triple_return].
    destruct (save s) as [s'|] eqn:E; [|apply triple_raise]. apply triple_return. eauto. }
  apply triple_pure. intros Hid.
  step (fun (_ : unit) => Entered (Message.s_ID s)).
  { rewrite <- Hid. eapply triple_conseq; [apply enqueueTx_ok|done|]. intros [] db H. exact H. }
  step (fun (_ : unit) => Entered (Message.s_ID s)).
  { destruct (Message.s_Replaces s); [by apply set_message_ok|by apply triple_return]. }
  apply triple_return. by intros db [H _].
Qed.

End Submit.
