(* ===== verification/QueueClaim.v ===== *)
(** * Claiming keeps the invariant

    [claim] takes recipients of a queued message into a new attempt: none of
    them may have been delivered to before, and the job it returns describes
    exactly the attempt it recorded ([job_ok]). *)

From S2P Require Import Prelude GoText Delivery SmtpClient Provider Database Suppression Queue QueueInv QueueOps.

Import Queue.

(** The attempt a job stands for. *)
Definition job_ok (db : DB) (j : Job) : Prop :=
  exists a, delivery_attempts db !! j_AttemptID j = Some a /\ a_message_id a = j_ID j /\
    a_claim_token a = j_Token j /\ a_provider_id a = pv_ID (j_Provider j) /\
    NoDup (map rc_ID (j_Recipients j)) /\
    forall rid, rid ∈ map rc_ID (j_Recipients j) <-> is_Some (attempt_recipients db !! (j_AttemptID j, rid)).

Lemma job_ok_evolves db0 db j : evolves db0 db -> job_ok db0 j -> job_ok db j.
Proof.
  intros HE (a0 & Ha0 & Hm & Ht & Hp & Hnd & Hr).
  destruct (ev_attempt _ _ HE _ _ Ha0) as (a & Ha & E1 & E2 & E3 & E4 & _).
  exists a. rewrite E1, E2, E4. repeat (split; [done|]). intros rid. rewrite Hr. split.
  - intros [x Hx]. destruct (ev_rows _ _ HE _ _ _ Hx) as (x' & -> & _). by eexists.
  - intros [x Hx]. destruct (attempt_recipients db0 !! (j_AttemptID j, rid)) eqn:E; [by eexists|].
    by rewrite (ev_new_rows _ _ HE _ _ _ Hx E) in Ha0.
Qed.

(** ** What selection gives *)

Lemma pick_message_spec repo t db owner cursor d mid m :
  pick_message repo t db owner cursor = Some (d, (mid, m)) ->
  messages db !! mid = Some m /\ eligible repo t db mid m = true.
Proof.
  unfold pick_message. intros H. apply head_Some_elem_of in H. rewrite elem_sort_by in H.
  apply list_elem_of_omap in H as ([k m'] & Hk & Ho).
  destruct (turn _ _ _ _); simplify_eq/=. apply elem_select in Hk as [Hm Hp]. bsimpl. tauto.
Qed.

(** An eligible message has a recipient that waits. *)
Lemma eligible_open repo t db mid m : eligible repo t db mid m = true -> ~ shut mid db.
Proof.
  unfold eligible. intros H. repeat (apply andb_true_iff in H as [H ?]).
  match goal with H : has_recipient _ _ _ = true |- _ => apply exists_row_true in H as (rid & r & Hr & Hp) end.
  unfold of_message, claimRecipient in Hp. bsimpl. destruct Hp as [Hm Hp]. eapply open_not_shut; [done|done|].
  apply pending_open. assert (r_status r = QUEUED) as -> by tauto. reflexivity.
Qed.

Lemma selectFair_ok repo db0 :
  triple (fun db => db = db0) (selectFair repo)
    (fun r db => db = db0 /\ messages db0 !! fst (snd (fst r)) = Some (snd (snd (fst r))) /\
                 m_status (snd (snd (fst r))) = QUEUED /\ ~ shut (fst (snd (fst r))) db0).
Proof.
  unfold selectFair. step (fun (_ : option (Owner * FairOwner)) db => db = db0); [by apply triple_query|].
  step (fun (_ : Owner * FairOwner) db => db = db0);
    [destruct a; [by apply triple_return|apply triple_raise]|].
  step (fun (c : option (UUID * Message * Z)) db => db = db0 /\
          forall x, c = Some x -> messages db0 !! fst (fst x) = Some (snd (fst x)) /\
                                  m_status (snd (fst x)) = QUEUED /\ ~ shut (fst (fst x)) db0).
  - apply triple_query. intros t db ->. split; [done|]. intros [[mid m] z] Hx.
    destruct (pick_message _ _ _ _ _) as [[d [mid' m']]|] eqn:E; simplify_eq/=.
    apply pick_message_spec in E as [Hm He]. split; [done|]. split; [|by eapply eligible_open].
    unfold eligible in He. bsimpl. tauto.
  - destruct a1 as [x|]; [|apply triple_raise].
    step (fun (c : UUID * Message * Z) db => db = db0 /\
            messages db0 !! fst (fst c) = Some (snd (fst c)) /\ m_status (snd (fst c)) = QUEUED /\ ~ shut (fst (fst c)) db0).
    + apply triple_return. intros db [-> H]. auto.
    + by apply triple_return.
Qed.

(** ** The writes of a claim *)

Section Claim.
  Context {Rf : Refusals} (db0 : DB) (mid token attempt pid : UUID).
  Hypothesis Hcons : Consistent db0.

Definition Taken (number : Z) (db : DB) : Prop :=
  Held db0 none none db /\ delivery_attempts db = delivery_attempts db0 /\
  attempt_recipients db = attempt_recipients db0 /\ recipients db = recipients db0 /\
  exists m, messages db !! mid = Some m /\ m_status m = SENDING /\ m_locked_by m = Some token /\
            m_attempt_count m = number.

Lemma take_message_ok m seconds :
  messages db0 !! mid = Some m -> m_status m = QUEUED ->
  triple (fun db => db = db0) (take_message mid token pid seconds) Taken.
Proof.
  intros Hm Hq. unfold take_message.
  step (fun (r : option Z) db => match r with Some z => Taken z db | None => True end).
  2: { destruct a as [z|]; [|apply triple_raise]. by apply triple_return. }
  apply triple_stmt. intros t db r db' -> H. rewrite Hm in H.
  destruct (_ && _); simplify_eq/=; [|done].
  assert (Hidle : idle mid db0) by (eapply unlocked_idle; eauto; right; congruence).
  split; [|split; [done|split; [done|split; [done|]]]].
  2: { exists (claim_message t token pid seconds m). simpl; by rewrite lookup_insert_eq. }
  destruct Hcons as [C1 C2 C3 C4 C5 C6 C7 C8 C9 C10 C11]. split.
  2: { destruct (evolves_refl db0). split; try done. intros k Hs. apply (shut_keep k db0); [|done|simpl; eauto|done].
       intros m0 Hm0. simpl. destruct (decide (k = mid)) as [->|Hne]; [rewrite lookup_insert_eq; by eexists|].
       rewrite lookup_insert_ne by done. by eexists. }
  split; simpl; auto.
  - intros aid a Ha. destruct (C2 aid a Ha) as (m1 & Hm1 & Hle).
    destruct (decide (a_message_id a = mid)) as [E|E].
    + rewrite E, lookup_insert_eq. eexists. split; [done|]. rewrite E, Hm in Hm1. simplify_eq/=. lia.
    + rewrite lookup_insert_ne by done. eauto.
  - intros aid a Ha Hp. rewrite lookup_insert_ne; [eauto|]. intros E. by eapply Hidle.
Qed.

Definition Started (db : DB) : Prop :=
  Held db0 none none db /\ delivery_attempts db0 !! attempt = None /\
  exists a, delivery_attempts db !! attempt = Some a /\ a_message_id a = mid /\
            a_claim_token a = token /\ a_provider_id a = pid /\ in_progress a.

Definition Bare (db : DB) : Prop := Started db /\ attempt_recipients db = attempt_recipients db0.

(** The recipient was waiting to be sent to. *)
Definition was_queued (rid : UUID) : Prop :=
  exists r, recipients db0 !! rid = Some r /\ r_message_id r = mid /\ r_status r = QUEUED.

Lemma insert_attempt_ok number host :
  ~ shut mid db0 ->
  triple (Taken number) (insert_attempt attempt mid pid number token host)
    (fun _ db => Bare db /\ recipients db = recipients db0).
Proof.
  intros Hopen. apply triple_stmt. intros t db [] db' (HH & HA & HX & HR & m & Hm & Hs & Hl & Hn) H.
  destruct (attempt_slot_free mid number db) eqn:Hfree; [|done].
  destruct (insert_row _ _ _) as [rows|] eqn:E; simplify_eq/=.
  apply insert_row_some in E as [Hnew ->]. split; [|done]. split; [|done]. split; [|split].
  - by eapply held_new_attempt.
  - by rewrite <- HA.
  - simpl. rewrite lookup_insert_eq. by eexists.
Qed.

(** A recipient that may join the attempt. *)
Definition ready (db : DB) (rid : UUID) : Prop :=
  exists r, recipients db !! rid = Some r /\ r_message_id r = mid /\ r_status r = SENDING /\
    forall aid x, attempt_recipients db !! (aid, rid) = Some x -> hot x -> resolved db aid rid.

Lemma claimable_spec repo t db n k r :
  (k, r) ∈ claimable repo t db mid n ->
  recipients db !! k = Some r /\ r_message_id r = mid /\ r_status r = QUEUED.
Proof.
  unfold claimable. intros H. apply elem_limit, elem_sort_by, elem_select in H as [Hr Hp].
  unfold of_message, claimRecipient in Hp. bsimpl. tauto.
Qed.

Lemma claimable_nodup repo t db n : NoDup (map fst (claimable repo t db mid n)).
Proof.
  unfold claimable, limit. rewrite <- firstn_map.
  eapply (sublist_NoDup _ (map fst (sort_by recipient_leb _))); [|apply sublist_take].
  rewrite (sort_by_perm recipient_leb). unfold select.
  pose proof (NoDup_fst_map_to_list (recipients db)) as Hnd.
  induction (map_to_list (recipients db)) as [|[k r] l IH]; simpl; [constructor|].
  apply NoDup_cons in Hnd as [Hk Hnd]. destruct (_ && _); simpl; [|by apply IH].
  constructor; [|by apply IH]. intros Hin. apply Hk.
  apply list_elem_of_fmap in Hin as (y & Hy & Hin). apply list_elem_of_fmap. exists y. split; [done|].
  apply list_elem_of_In in Hin. apply List.filter_In in Hin as [Hin _]. by apply list_elem_of_In.
Qed.

Lemma take_recipients_ok repo n :
  triple (fun db => Bare db /\ recipients db = recipients db0) (take_recipients repo mid pid n)
    (fun rcs db => Bare db /\ (forall rid, rid ∈ map rc_ID rcs -> ready db rid) /\
       NoDup (map rc_ID rcs) /\ forall rid, rid ∈ map rc_ID rcs -> was_queued rid).
Proof.
  apply triple_stmt. intros t db rcs db' [[[HH (Hno & a & Ha & E1 & E2 & E3 & E4)] HX] HR] H. injection H as <- <-.
  set (chosen := claimable repo t db mid n).
  assert (Hids : map rc_ID (map (fun kr => MkRecipient (fst kr) (r_address (snd kr))) chosen) = map fst chosen)
    by by rewrite map_map.
  rewrite Hids. destruct HH as [HI HE].
  assert (Hq : forall k r, recipients db !! k = Some r -> k ∈ map fst chosen ->
            r_message_id r = mid /\ r_status r = QUEUED).
  { intros k r Hr Hk. apply list_elem_of_fmap in Hk as ([k' r'] & -> & Hin).
    apply claimable_spec in Hin as (Hr' & ? & ?). simpl in *. by simplify_eq. }
  split; [split; [split; [|by eauto 10]|done]|split; [|split]].
  - apply held_update; [|by split]. intros rid r Hr Hp. bsimpl. destruct (Hq rid r Hr Hp) as [_ Hs].
    eapply pending_change; eauto; try done. by rewrite Hs.
  - intros rid Hin. apply list_elem_of_fmap in Hin as Hin'. destruct Hin' as ([k r] & -> & Hc).
    apply claimable_spec in Hc as (Hr & Hm & Hs). simpl in *.
    exists (claim_row t pid r). simpl. rewrite lookup_update, Hr. simpl.
    rewrite (proj2 (one_of_true _ _) Hin). repeat (split; [done|]).
    intros aid x Hx Hh. destruct (decide (resolved db aid k)) as [|Hn]; [done|exfalso].
    eapply (inv_hot _ _ _ HI); eauto. unfold live_status. rewrite Hs. set_solver.
  - apply claimable_nodup.
  - intros rid Hin. apply list_elem_of_fmap in Hin as ([k r] & -> & Hc).
    apply claimable_spec in Hc as (Hr & Hm & Hs). rewrite HR in Hr. by exists r.
Qed.

(** The attempt has exactly the recipients [ids]. *)
Definition Joined (ids : list UUID) (db : DB) : Prop :=
  Started db /\ forall rid, rid ∈ ids <-> is_Some (attempt_recipients db !! (attempt, rid)).

Lemma insert_rows_ok (rcs : list Recipient) :
  triple (fun db => Bare db /\ (forall rid, rid ∈ map rc_ID rcs -> ready db rid) /\ NoDup (map rc_ID rcs))
    (forM rcs (fun rc => insert_attempt_recipient attempt (rc_ID rc)))
    (fun _ => Joined (map rc_ID rcs)).
Proof.
  set (I := fun (rest : list Recipient) db => exists done, map rc_ID rcs = done ++ map rc_ID rest /\
              Joined done db /\ (forall rid, rid ∈ map rc_ID rest -> ready db rid) /\
              NoDup (map rc_ID rcs)).
  eapply triple_conseq; [apply (triple_forM I rcs)| |].
  - intros rc rest. apply triple_stmt.
    intros t db [] db' (done & Hsplit & [[HH (Hno & a & Ha & E1 & E2 & E3 & E4)] Hiff] & Hrdy & Hnd) H.
    destruct (insert_row _ _ _) as [rows|] eqn:E; [|done]. injection H as <-.
    apply insert_row_some in E as [Hnew ->].
    destruct (Hrdy (rc_ID rc)) as (r & Hr & Hm & Hs & Hcold); [simpl; by left|].
    rewrite Hsplit in Hnd. apply NoDup_app in Hnd as (Hnd1 & Hdis & Hnd2).
    simpl in Hnd2. apply NoDup_cons in Hnd2 as [Hnotin Hnd2].
    exists (done ++ [rc_ID rc]). split; [by rewrite Hsplit, <- app_assoc|].
    split; [split; [split; [|by eauto 10]|]|split].
    + eapply held_new_row; eauto; congruence.
    + intros rid. rewrite elem_of_app, list_elem_of_singleton. simpl.
      rewrite lookup_insert_is_Some. rewrite Hiff. split.
      * intros [Hx|<-]; [|by left]. destruct (decide (rc_ID rc = rid)) as [->|Hne]; [by left|right].
        split; [intros ?; by simplify_eq|done].
      * intros [Heq|[_ Hx]]; [right; by simplify_eq|by left].
    + intros rid Hin. destruct (Hrdy rid) as (r' & Hr' & Hm' & Hs' & Hcold'); [simpl; by right|].
      exists r'. repeat (split; [done|]). intros aid x. simpl. rewrite lookup_insert_Some.
      intros [[Heq <-]|[_ Hx]]; [by intros [?|?]|by apply Hcold'].
    + rewrite Hsplit. apply NoDup_app. split; [done|]. split; [done|]. simpl. by apply NoDup_cons.
  - intros db ([HS HX] & Hrdy & Hnd). exists []. split; [done|]. split; [|done]. split; [done|].
    intros rid. split; [by intros ?%elem_of_nil|]. intros [x Hx]. rewrite HX in Hx.
    destruct (inv_link _ _ _ Hcons _ _ _ Hx) as (a & r & Ha & _). destruct HS as (_ & Hno & _). congruence.
  - intros [] db (done & Hsplit & HJ & _). simpl in Hsplit. rewrite app_nil_r in Hsplit. by rewrite Hsplit.
Qed.

Lemma joined_ledger ids : ledger_closed (Joined ids).
Proof.
  intros db eid e outbox Hn [[HH Hs] Hiff]. split; [|done]. split; [by apply held_event|done].
Qed.

Lemma joined_frame ids db db' :
  messages db' = messages db -> recipients db' = recipients db ->
  delivery_attempts db' = delivery_attempts db ->
  attempt_recipients db' = attempt_recipients db -> events db' = events db ->
  Joined ids db -> Joined ids db'.
Proof.
  intros Hm Hr Ha Hx He [[HH (Hno & Hs)] Hiff]. unfold Joined, Started. rewrite Ha, Hx.
  split; [split; [by eapply held_frame|done]|done].
Qed.

Lemma reserveControls_ok repo ids units :
  triple (Joined ids) (reserveControls repo mid attempt pid units) (fun _ => Joined ids).
Proof.
  unfold reserveControls. step (fun (_ : unit) => Joined ids).
  { apply triple_stmt. intros t db [] db' HJ H. destruct (0 <? units); [|done].
    destruct (insert_row _ _ _) as [rows|]; [|done]. injection H as <-. (eapply joined_frame; [..|exact HJ]; done). }
  step (fun (_ : option UUID) => Joined ids); [by apply triple_query_row|].
  step (fun (_ : Time) => Joined ids); [apply triple_gotime|].
  step (fun (_ : unit) => Joined ids); [apply triple_event, joined_ledger|].
  destruct (negb _); [by apply triple_return|].
  step (fun (_ : bool) => Joined ids).
  - apply triple_stmt. intros t db b db' HJ H.
    destruct (providers db !! pid) as [p|], (provider_health db !! pid) as [h|];
      try (injection H as <- <-; exact HJ).
    destruct (p_health_check_enabled p && probe_due t h).
    + injection H as <- <-. eapply joined_frame; [..|exact HJ]; done.
    + injection H as <- <-. exact HJ.
  - destruct a3; [apply triple_logged, joined_ledger|by apply triple_return].
Qed.

Lemma recordFailover_ok ids j previous :
  triple (Joined ids) (recordFailover j previous) (fun _ => Joined ids).
Proof.
  unfold recordFailover. step (fun (_ : list (UUID * UUID * option json * UUID)) => Joined ids);
    [by apply triple_query|].
  step (fun (_ : unit) => Joined ids).
  - destruct (match previous with Some _ => _ | None => _ end); [apply triple_raise|by apply triple_return].
  - apply triple_loop. intros [[[rid at1] d] from] _. apply triple_logged, joined_ledger.
Qed.

End Claim.

(** ** The claim transaction *)

Definition claim_post {Rf : Refusals} (db0 : DB) (r : TxEnd Job) (db : DB) : Prop :=
  Held db0 none none db /\
  match r with
  | Commit (inr j) => job_ok db j /\ delivery_attempts db0 !! j_AttemptID j = None /\
      forall rid, rid ∈ map rc_ID (j_Recipients j) -> was_queued db0 (j_ID j) rid
  | Rollback (inr _) => False
  | _ => True
  end.

Lemma claim_ok {Rf : Refusals} repo db0 :
  Consistent db0 -> triple (fun db => db = db0) (claim repo) (claim_post db0).
Proof.
  intros HI. unfold claim.
  step (fun (_ : unit) db => db = db0); [by apply triple_query|].
  step (fun (_ : UUID) db => db = db0); [apply triple_fresh|]. rename a0 into token.
  step (fun (_ : UUID) db => db = db0); [apply triple_fresh|]. rename a0 into attempt.
  step (fun (r : Owner * (UUID * Message) * Z) db => db = db0 /\
          (messages db0 !! fst (snd (fst r)) = Some (snd (snd (fst r))) /\
           m_status (snd (snd (fst r))) = QUEUED /\ ~ shut (fst (snd (fst r))) db0)); [apply selectFair_ok|].
  destruct a0 as [[owner [mid m]] next]. cbn [fst snd]. apply triple_pure. intros (Hm & Hq & Hopen).
  step (fun (_ : option (UUID * ProviderRow)) db => db = db0); [by apply triple_query|].
  step (fun (_ : UUID * ProviderRow) db => db = db0);
    [destruct a0; [by apply triple_return|apply triple_raise]|].
  destruct a1 as [pid p].
  step (fun (_ : Z) db => db = db0); [by apply triple_query|].
  step (fun (_ : unit) db => db = db0); [case_match; [apply triple_raise|by apply triple_return]|].
  step (fun (_ : Z) db => db = db0).
  { unfold admission. step (fun (_ : unit) db => db = db0); [by apply triple_query|].
    step (fun (_ : option Z) db => db = db0); [by apply triple_query|].
    destruct a4; [by apply triple_return|apply triple_raise]. }
  step (fun (_ : option UUID) db => db = db0); [by apply triple_query_row|].
  step (Taken db0 mid token); [by eapply take_message_ok|].
  step (fun (_ : unit) db => Bare db0 mid token attempt pid db /\ recipients db = recipients db0);
    [by apply insert_attempt_ok|].
  step (fun (rcs : list Recipient) db => Bare db0 mid token attempt pid db /\
          (forall rid, rid ∈ map rc_ID rcs -> ready mid db rid) /\ NoDup (map rc_ID rcs) /\
          forall rid, rid ∈ map rc_ID rcs -> was_queued db0 mid rid);
    [by apply take_recipients_ok|].
  rename a7 into rcs. set (J := Joined db0 mid token attempt pid (map rc_ID rcs)).
  step (fun (_ : unit) db => (Bare db0 mid token attempt pid db /\
          (forall rid, rid ∈ map rc_ID rcs -> ready mid db rid)) /\ (NoDup (map rc_ID rcs) /\
          forall rid, rid ∈ map rc_ID rcs -> was_queued db0 mid rid)).
  { case_match; [apply triple_raise|]. apply triple_return. intros db (? & ? & ?). auto. }
  apply triple_pure. intros [Hnd Hqueued].
  step (fun (_ : unit) => J).
  { apply (triple_conseq _ _ _ _ _ (insert_rows_ok db0 mid token attempt pid HI rcs)).
    - intros db [? ?]. auto.
    - intros [] db H. exact H. }
  step (fun (_ : unit) => J); [apply reserveControls_ok|].
  step (fun (_ : unit) => J); [apply recordFailover_ok|].
  step (fun (_ : Time) => J); [apply triple_gotime|].
  step (fun (_ : unit) => J); [apply triple_event, joined_ledger|].
  step (fun (_ : unit) => J); [apply triple_exec; intros t db HJ; (eapply joined_frame; [..|exact HJ]; done)|].
  apply triple_return. intros db [[HH (Hno & b & Hb & E1 & E2 & E3 & _)] Hiff].
  split; [done|]. split; [|done]. exists b. repeat (split; [done|]). done.
Qed.
