(* ===== verification/QueueFinish.v ===== *)
(** * The DATA fence and the outcome of an attempt keep the invariant

    [ArmData] suppresses or arms the attempt in progress, [Finish] records a
    result that meets the SMTP client's contract ([sender_result]).  The
    decision taken for each recipient never revives one that may have been
    delivered to. *)

From S2P Require Import Prelude GoText Delivery SmtpClient Provider Database Suppression Queue QueueInv QueueOps QueueClaim.

Import Queue.

(** ** Records and the fence *)

Lemma Record_ok {Rf : Refusals} db0 j e :
  Consistent db0 -> triple (fun db => db = db0) (Record_ j e) (fun _ => Held db0 none none).
Proof.
  intros HI. apply (triple_conseq (Held db0 none none) _ _ (fun _ => Held db0 none none));
    [|intros db ->; by apply held_start|done].
  unfold Record_, fence. step (fun (_ : unit) => Held db0 none none).
  { step (fun (_ : bool) => Held db0 none none); [by apply triple_query|].
    destruct a; [by apply triple_return|apply triple_raise]. }
  step (fun (_ : unit) => Held db0 none none);
    [apply triple_recordEvent; intros db eid x; apply held_event|by apply triple_return].
Qed.

Lemma fence_ok j live (P : DB -> Prop) : triple P (fence j live) (fun _ => P).
Proof.
  unfold fence. step (fun (_ : bool) => P); [by apply triple_query|].
  destruct a; [by apply triple_return|apply triple_raise].
Qed.

Lemma live_attempt_some j db a :
  live_attempt j db = Some a ->
  delivery_attempts db !! j_AttemptID j = Some a /\ a_message_id a = j_ID j /\
  a_claim_token a = j_Token j /\ in_progress a.
Proof.
  unfold live_attempt. destruct (_ !! _) as [b|]; [|done]. destruct (_ && _) eqn:E; [|done].
  intros H. simplify_eq. bsimpl. naive_solver.
Qed.

(** No hit, no change. *)
Lemma Apply_zero mid attempt sending db1 :
  triple (fun db => db = db1) (Suppression.Apply mid attempt sending)
    (fun n db => n = 0%nat -> db = db1).
Proof.
  unfold Suppression.Apply. step (fun (_ : list (UUID * UUID)) db => db = db1); [by apply triple_query|].
  destruct a as [|h found].
  - step (fun (_ : unit) db => db = db1); [by apply triple_return|]. by apply triple_return.
  - step (fun (_ : unit) (_ : DB) => True); [by intros ? ? ? ? ? ? ? ?|]. by apply triple_return.
Qed.

Lemma ArmData_ok {Rf : Refusals} db0 j :
  Consistent db0 -> triple (fun db => db = db0) (ArmData j) (fun _ => Held db0 none none).
Proof.
  intros HI. unfold ArmData. set (aid := j_AttemptID j).
  step (fun (_ : unit) db => db = db0); [apply fence_ok|].
  step (fun (x : Attempt) db => db = db0 /\ live_attempt j db0 = Some x);
    [apply triple_query_row; intros t db b -> Hb; done|].
  apply triple_pure. intros Hlive. apply live_attempt_some in Hlive as (Hx & Hmid & _ & Hp).
  step (fun (_ : unit) db => db = db0 /\ a_data_armed_at a0 = None).
  { destruct (a_data_armed_at a0); [apply triple_raise|].
    destruct (not_null (a_expiry_blocked_at a0)); [apply triple_raise|].
    destruct (not_null (a_suppression_blocked_at a0)); [apply triple_raise|]. by apply triple_return. }
  apply triple_pure. intros Hunarmed.
  step (fun (_ : unit) db => db = db0); [by apply triple_query|].
  set (ex := fun k => k = aid).
  set (T := tables (delivery_attempts db0) (attempt_recipients db0)).
  step (fun (n : nat) db => Kept db0 ex none T db /\ (n = 0%nat -> db = db0)).
  { apply triple_and; [|apply Apply_zero].
    apply (triple_conseq (Kept db0 ex none T) _ _ (fun _ => Kept db0 ex none T)); [|intros db ->|done].
    - apply triple_Apply. intros t db rid sid [[HI' _] [HA HX]] Hh aid' b y Hb Hbp Hy. right.
      rewrite <- HA in Hb. rewrite <- HX in Hy. apply elem_hits in Hh as (r & Hr & Hm & _).
      destruct (inv_link _ _ _ HI' _ _ _ Hy) as (b' & r' & Hb' & Hr' & Heq).
      apply (inv_one _ _ db aid' aid b a0 HI' Hb); [by rewrite HA|done|done|congruence].
    - split; [|done]. eapply held_weaken; [| |by apply held_start]; done. }
  destruct (0 <? a3)%nat eqn:Hn.
  - step (fun (_ : unit) => Held db0 none none).
    { apply triple_exec. intros t db [[HH [HA HX]] _].
      eapply (held_attempt _ ex none); [| |exact HH].
      - intros k b Hb Hk. bsimpl. subst k. split; [by repeat split|]. split; [done|].
        split; [by left|]. split; [by left|]. split; [|done]. intros Hnp. rewrite HA in Hb. fold aid in Hx.
        rewrite Hx in Hb. injection Hb as <-. by destruct Hnp.
      - intros k b Hb Hk Hex. bsimpl. by destruct Hk. }
    step (fun (_ : Time) => Held db0 none none); [apply triple_gotime|].
    step (fun (_ : unit) => Held db0 none none);
      [apply triple_event; intros db eid e outbox; apply held_event|by apply triple_return].
  - apply Nat.ltb_ge in Hn. assert (a3 = 0%nat) as -> by lia.
    step (fun (_ : Z) => Held db0 none none).
    { apply triple_stmt. intros t db n db' [_ Hdb] H. rewrite (Hdb eq_refl) in H.
      destruct (messages db0 !! j_ID j) as [m|]; simplify_eq/=; [|by apply held_start].
      eapply (held_attempt _ none none); [| |by apply held_start]; [|done].
      intros k b Hb Hk. unfold armable in Hk. bsimpl. destruct Hk as [[[[-> Htok] Hr] Ha] He].
      split; [by repeat split|]. split; [done|]. split; [by right|]. split; [done|]. split; [by right|].
      intros b0 Hb0. split; [|done]. intros Harmed.
      rewrite Hx in Hb0. injection Hb0 as <-. by destruct Harmed. }
    step (fun (_ : unit) => Held db0 none none);
      [destruct (a3 =? 1); [by apply triple_return|apply triple_raise]|].
    step (fun (_ : bool) => Held db0 none none); [by apply triple_query_row|].
    step (fun (_ : Time) => Held db0 none none); [apply triple_gotime|].
    destruct a5; (step (fun (_ : unit) => Held db0 none none);
      [apply triple_event; intros db eid e outbox; apply held_event|by apply triple_return]).
Qed.

(** ** The decision for one recipient *)

Section Decision.
  Context (ids : list UUID) (out : Result).
  Hypothesis Hout : sender_result ids out.

Lemma reported (rc : RecipientResult) :
  rc ∈ o_Recipients out ->
  (rr_Status rc = SMTP_ACCEPTED /\ o_FinalResponseAt out <> 0 /\ 200 <= o_Code out < 300) \/
  rr_Status rc = DELIVERY_UNKNOWN \/ definite rc.
Proof.
  intros Hin. destruct (decide (o_DataStartedAt out = 0)) as [Hd|Hd].
  - destruct (sr_before _ _ Hout Hd) as (_ & _ & Hall). rewrite Forall_forall in Hall. auto.
  - pose proof (sr_after _ _ Hout Hd) as Hall. rewrite Forall_forall in Hall.
    specialize (Hall rc Hin). unfold after_data in Hall.
    destruct (rr_Status rc) eqn:E; try done; naive_solver.
Qed.

(** An accepted or uncertain recipient stays settled; a retry is decided only
    for a temporary failure. *)
Lemma decision_sound (rc : RecipientResult) (b : Budget) :
  rc ∈ o_Recipients out ->
  let d := Decide (evidence_of out rc) b in
  (rr_Status rc = SMTP_ACCEPTED -> d_Action d = Accept) /\
  (rr_Status rc = DELIVERY_UNKNOWN -> d_Action d = Unknown) /\
  (d_Action d = Retry -> rr_Status rc = TEMP_FAILED).
Proof.
  intros Hin d. destruct (reported rc Hin) as [(Hs & Hf & Hc)|[Hs|Hd]].
  - assert (Ha : d_Action d = Accept).
    { apply decide_accepted; [done|]. unfold final_in. simpl.
      unfold IsZero. rewrite (proj2 (Z.eqb_neq _ _) Hf). simpl. by bsimpl. }
    rewrite Ha, Hs. repeat split; done.
  - assert (Ha : d_Action d = Unknown) by by apply decide_unknown.
    rewrite Ha, Hs. repeat split; done.
  - destruct Hd as (Hst & H4 & _). split; [|split].
    + intros E. rewrite E in Hst. by destruct Hst.
    + intros E. rewrite E in Hst. by destruct Hst.
    + intros Hr. apply decide_retry_status in Hr. simpl in Hr. destruct Hr; auto.
Qed.

End Decision.

(** ** Recording one recipient's result *)

(** No attempt may have delivered to the recipient, or an operator resolved it. *)
Definition cold (db : DB) (rid : UUID) : Prop :=
  forall aid x, attempt_recipients db !! (aid, rid) = Some x -> hot x -> resolved db aid rid.

Lemma live_cold {Rf : Refusals} exS exR db rid r :
  Inv exS exR db -> ~ exR rid -> recipients db !! rid = Some r -> live_status (r_status r) -> cold db rid.
Proof.
  intros HI Hex Hr Hl aid x Hx Hh. destruct (decide (resolved db aid rid)) as [|Hn]; [done|].
  exfalso. by eapply (inv_hot _ _ _ HI).
Qed.

Definition hot_status (s : Status) : Prop := s = SMTP_ACCEPTED \/ s = DELIVERY_UNKNOWN.

Section Finish.
  Context {Rf : Refusals} (repo : Repository) (db0 : DB) (j : Job) (out : Result) (a0 : Attempt).
  Hypothesis HI : Consistent db0.
  Hypothesis Hjob : job_ok db0 j.
  Hypothesis Hout : sender_result (map rc_ID (j_Recipients j)) out.
  Hypothesis Ha0 : delivery_attempts db0 !! j_AttemptID j = Some a0.
  Hypothesis Hmid : a_message_id a0 = j_ID j.
  Hypothesis Hp0 : in_progress a0.
  Hypothesis Hrefused : forall rc, rc ∈ o_Recipients out ->
    rr_Status rc = TEMP_FAILED \/ rr_Status rc = PERM_FAILED -> refusal (j_AttemptID j) (rr_ID rc).

Definition policy : bool := not_null (a_suppression_blocked_at a0).

(** The attempts once this one has its result. *)
Definition finished : gmap UUID Attempt :=
  update (fun k _ => bool_decide (k = j_AttemptID j)) (finish_attempt out) (delivery_attempts db0).

Lemma out_status : o_Status out <> IN_PROGRESS.
Proof. pose proof (sr_status _ _ Hout) as H. intros E. rewrite E in H. set_solver. Qed.

Lemma finished_idle : idle_in [j_ID j] finished.
Proof.
  intros mid Hmid'. apply list_elem_of_singleton in Hmid' as ->. intros k a Ha Hp E.
  unfold finished in Ha. rewrite lookup_update in Ha.
  destruct (delivery_attempts db0 !! k) as [b|] eqn:Hb; [|done]. simpl in Ha. injection Ha as <-.
  destruct (bool_decide (k = j_AttemptID j)) eqn:Hk; bsimpl.
  - by destruct (out_status Hp).
  - apply Hk. eapply (inv_one _ _ _ k (j_AttemptID j) b a0 HI); eauto. congruence.
Qed.

(** This attempt's outcomes are being written. *)
Definition closing (k : UUID) : Prop := k = j_AttemptID j.

Definition Base (db : DB) : Prop :=
  Held db0 closing none db /\ delivery_attempts db = finished /\ messages db = messages db0.

(** A recipient whose result is still to be recorded. *)
Definition waiting (db : DB) (rid : UUID) : Prop :=
  is_Some (attempt_recipients db !! (j_AttemptID j, rid)) /\
  exists r, recipients db !! rid = Some r /\ r_message_id r = j_ID j /\ r_retry_at r = None /\
            (r_status r = SENDING \/ (r_status r = SUPPRESSED /\ policy = true)).

(** Outside [ids] the attempt has its outcomes. *)
Definition written (ids : list UUID) (db : DB) : Prop :=
  forall rid x, attempt_recipients db !! (j_AttemptID j, rid) = Some x -> rid ∈ ids \/ settled x.

Definition Loop_ (ids rest : list UUID) (db : DB) : Prop :=
  Base db /\ (forall rid, rid ∈ rest -> waiting db rid) /\ written ids db.
Definition Loop (rest : list UUID) : DB -> Prop := Loop_ rest rest.

(** The recipient of [rc] after the first statements of its turn. *)
Definition told (rc : RecipientResult) (db : DB) : Prop :=
  is_Some (attempt_recipients db !! (j_AttemptID j, rr_ID rc)) /\
  exists r, recipients db !! rr_ID rc = Some r /\ r_message_id r = j_ID j /\ r_retry_at r = None /\
    ((r_status r = rr_Status rc /\ (~ hot_status (rr_Status rc) -> cold db (rr_ID rc))) \/
     (r_status r = SUPPRESSED /\ policy = true)).

Lemma base_idle db : Base db -> idle (j_ID j) db.
Proof.
  intros (_ & HA & _) k a Ha. rewrite HA in Ha. eapply (finished_idle (j_ID j)); [by left|exact Ha].
Qed.

Lemma loop_ledger rest : ledger_closed (Loop rest).
Proof.
  intros db eid e outbox Hn [(HH & HA & Hm) Hw]. split; [|done]. split; [by apply held_event|done].
Qed.

Lemma told_ledger rest rc : ledger_closed (fun db => Loop rest db /\ told rc db).
Proof.
  intros db eid e outbox Hn [HL (Hx & r & Hr & Hm & Hret & Hst)].
  split; [by apply loop_ledger|]. split; [done|]. exists r. repeat (split; [done|]).
  destruct Hst as [[Hs Hc]|?]; [left|by right]. split; [done|]. intros Hh aid x Hx' Hhot.
  eapply resolved_mono; [|by eapply Hc]. by apply insert_subseteq.
Qed.

(** A recipient of the message is in no other attempt in progress. *)
Lemma base_part exS db rid r r' aid a x :
  Base db -> recipients db !! rid = Some r -> r_message_id r = j_ID j ->
  delivery_attempts db !! aid = Some a -> in_progress a ->
  attempt_recipients db !! (aid, rid) = Some x ->
  r_status r' = SENDING \/ (r_status r' = SUPPRESSED /\ (a_suppression_blocked_at a <> None \/ exS aid)).
Proof.
  intros HB Hr Hm Ha Hp Hx. exfalso. destruct HB as [[HI' HE] HB'] eqn:E.
  destruct (inv_link _ _ _ HI' _ _ _ Hx) as (b & s & Hb & Hs & Hbm).
  apply (base_idle db HB aid a Ha Hp). congruence.
Qed.

(** A change to one recipient of the message that keeps the invariant. *)
Lemma base_recipient db rid r f :
  Base db -> recipients db !! rid = Some r -> r_message_id r = j_ID j ->
  r_message_id (f r) = r_message_id r -> r_address (f r) = r_address r ->
  (r_retry_at (f r) <> None -> r_status (f r) = TEMP_FAILED) ->
  (live_status (r_status (f r)) -> cold db rid) ->
  forall p, Base (db <| recipients := update (fun k s => bool_decide (k = rid) && p s) f (recipients db) |>).
Proof.
  intros HB Hr Hm H1 H2 H3 H4 p. pose proof HB as (HH & HA & HM). split; [|done].
  apply held_update; [|done]. intros k s Hs Hk. bsimpl. destruct Hk as [-> _]. simplify_eq.
  split; auto.
  - intros aid a x Ha Hp Hx. by eapply base_part.
  - intros Hl _. by apply H4.
  - intros _. right. intros (_ & Hi & _). eapply Hi; [exact Ha0|exact Hp0|congruence].
Qed.

Definition told0 (rc : RecipientResult) (db : DB) : Prop :=
  is_Some (attempt_recipients db !! (j_AttemptID j, rr_ID rc)) /\
  exists r, recipients db !! rr_ID rc = Some r /\ r_message_id r = j_ID j /\ r_retry_at r = None /\
    ((r_status r = rr_Status rc /\ cold db (rr_ID rc)) \/ (r_status r = SUPPRESSED /\ policy = true)).

(** Other recipients keep waiting. *)
Lemma loop_recipient (rest : list UUID) db rid f p :
  rid ∉ rest -> (forall q, q ∈ rest -> waiting db q) ->
  forall q, q ∈ rest ->
  waiting (db <| recipients := update (fun k s => bool_decide (k = rid) && p s) f (recipients db) |>) q.
Proof.
  intros Hn Hw q Hq. destruct (Hw q Hq) as (Hx & r & Hr & H). split; [done|]. exists r.
  simpl. rewrite lookup_update, Hr. simpl. rewrite bool_decide_eq_false_2; [done|]. by intros ->.
Qed.

Lemma loop_row (rest : list UUID) db rid f :
  (forall q, q ∈ rest -> waiting db q) ->
  forall q, q ∈ rest ->
  waiting (db <| attempt_recipients := update (fun k _ => bool_decide (k = (j_AttemptID j, rid))) f
                                         (attempt_recipients db) |>) q.
Proof.
  intros Hw q Hq. destruct (Hw q Hq) as ([x Hx] & H). split; [|done].
  simpl. rewrite lookup_update, Hx. by eexists.
Qed.

Lemma write_result_ok rc (rest : list UUID) :
  rr_ID rc ∉ rest ->
  triple (Loop (rr_ID rc :: rest))
    (exec (fun _ db => db <| recipients :=
       update (fun k r => bool_decide (k = rr_ID rc) && of_message (j_ID j) r
                          && negb (status_is (r_status r) SUPPRESSED))
         (result_row rc (o_FinishedAt out)) (recipients db) |>))
    (fun _ db => Loop_ (rr_ID rc :: rest) rest db /\ told0 rc db).
Proof.
  intros Hn. apply triple_exec. intros t db [HB [Hw Hwr']].
  destruct (Hw (rr_ID rc)) as (Hx & r & Hr & Hm & Hret & Hst); [by left|].
  set (p := fun s => of_message (j_ID j) s && negb (status_is (r_status s) SUPPRESSED)).
  assert (Heq : update (fun k r => bool_decide (k = rr_ID rc) && of_message (j_ID j) r
                   && negb (status_is (r_status r) SUPPRESSED)) (result_row rc (o_FinishedAt out)) (recipients db)
                = update (fun k s => bool_decide (k = rr_ID rc) && p s) (result_row rc (o_FinishedAt out))
                    (recipients db)).
  { apply map_eq. intros k. rewrite !lookup_update. destruct (recipients db !! k) as [s|]; [|done].
    simpl. unfold p. by rewrite andb_assoc. }
  rewrite Heq. assert (Hwr : forall q, q ∈ rest -> waiting db q) by (intros q Hq; apply Hw; by right).
  assert (Hcold : r_status r = SENDING -> cold db (rr_ID rc)).
  { intros Hs. destruct HB as [[HI' _] _]. apply (live_cold _ _ db (rr_ID rc) r HI'); [by intros []|done|].
    rewrite Hs. unfold live_status. set_solver. }
  assert (Hof : of_message (j_ID j) r = true) by by apply bool_decide_eq_true.
  destruct Hst as [Hs|[Hs Hpol]].
  - assert (Hpr : p r = true) by (unfold p; by rewrite Hof, Hs).
    split; [split; [|split; [by apply loop_recipient|done]]|].
    + eapply base_recipient; eauto; simpl; auto. by rewrite Hret.
    + split; [done|]. exists (result_row rc (o_FinishedAt out) r). simpl.
      rewrite lookup_update, Hr. simpl. rewrite bool_decide_eq_true_2, Hpr by done.
      repeat (split; [done|]). left. split; [done|]. by apply Hcold.
  - assert (Hpr : p r = false) by (unfold p; by rewrite Hof, Hs).
    assert (Hid : update (fun k s => bool_decide (k = rr_ID rc) && p s) (result_row rc (o_FinishedAt out))
                    (recipients db) = recipients db).
    { apply map_eq. intros k. rewrite lookup_update. destruct (recipients db !! k) as [s|] eqn:E; [|done].
      simpl. destruct (bool_decide (k = rr_ID rc)) eqn:Ek; [|done]. bsimpl. subst k. simplify_eq.
      by rewrite Hpr. }
    rewrite Hid. assert (Hdb : (db <| recipients := recipients db |>) = db) by by destruct db.
    rewrite Hdb. split; [split; [done|by split]|]. split; [done|]. exists r. auto 10.
Qed.

Lemma write_row_ok rc rest :
  rc ∈ o_Recipients out ->
  triple (fun db => Loop_ (rr_ID rc :: rest) rest db /\ told0 rc db)
    (set_attempt_recipient (j_AttemptID j) (rr_ID rc) (fun x =>
       x <| ar_status := rr_Status rc |> <| ar_smtp_code := Some (rr_Code rc) |>
         <| ar_smtp_enhanced_code := Some (rr_Enhanced rc) |>
         <| ar_smtp_response := Some (rr_Response rc) |>))
    (fun _ db => Loop rest db /\ told rc db).
Proof.
  intros Hin. apply triple_exec. intros t db [[(HH & HA & HM) [Hw Hwr]] ([x0 Hx0] & r & Hr & Hm & Hret & Hst)].
  destruct (inv_lock _ _ _ HI _ _ Ha0 Hp0) as (m & Hm0 & _ & _ & Hcount).
  assert (Hdone : forall a, delivery_attempts db !! j_AttemptID j = Some a -> a = finish_attempt out a0).
  { intros a Ha. rewrite HA in Ha. unfold finished in Ha. rewrite lookup_update, Ha0 in Ha. simpl in Ha.
    rewrite bool_decide_eq_true_2 in Ha by done. by injection Ha as <-. }
  assert (Hset : rr_Status rc ∈ [SMTP_ACCEPTED; TEMP_FAILED; PERM_FAILED; DELIVERY_UNKNOWN]).
  { destruct (reported _ _ Hout rc Hin) as [(-> & _)|[->|[[->| ->] _]]]; set_solver. }
  split; [split; [split; [|done]|split]|].
  - apply held_rows; [|done]. intros aid rid x Hx Hk. bsimpl. simplify_eq. split; [|split].
    + intros b Hb. by simplify_eq.
    + intros a Ha. rewrite (Hdone a Ha). split; [intros H; by destruct (out_status H)|]. by split; auto.
    + intros Hh. split.
      * intros s Hs _ Hl. simplify_eq. destruct Hst as [[E _]|[E _]]; rewrite E in Hl.
        -- destruct Hh as [Hh|Hh]; simpl in Hh; rewrite Hh in Hl; unfold live_status in Hl; set_solver.
        -- unfold live_status in Hl. set_solver.
      * intros a aid' a' x' Ha Hx' Ha'. destruct HH as [HI' _].
        pose proof (Hdone a Ha) as ->. eapply (top_attempt _ _ db); eauto. simpl. by rewrite HM.
  - by apply loop_row.
  - intros q y. simpl. rewrite lookup_update.
    destruct (attempt_recipients db !! (j_AttemptID j, q)) as [x|] eqn:Hx; [|done]. simpl. intros Hy.
    injection Hy as <-. case_bool_decide as Hq; [by right|].
    destruct (Hwr q x Hx) as [[->|]%elem_of_cons|]; [by destruct Hq|by left|by right].
  - split; [simpl; rewrite lookup_update, Hx0; by eexists|]. exists r. repeat (split; [done|]).
    destruct Hst as [[E Hc]|?]; [left|by right]. split; [done|]. intros Hnh aid x. simpl.
    rewrite lookup_update. destruct (attempt_recipients db !! (aid, rr_ID rc)) as [y|] eqn:Hy; [|done].
    simpl. intros Hxy Hh. injection Hxy as <-. destruct (bool_decide _); [by destruct Hnh|].
    by eapply Hc.
Qed.

Lemma write_decision_ok rc rest f :
  (forall x, ar_status (f x) = ar_status x) ->
  triple (Loop rest) (set_attempt_recipient (j_AttemptID j) (rr_ID rc) f) (fun _ => Loop rest).
Proof.
  intros Hf. apply triple_exec. intros t db [(HH & HA & HM) [Hw Hwr]].
  split; [split; [|done]|split; [by apply loop_row|]].
  2: { intros q y. simpl. rewrite lookup_update.
    destruct (attempt_recipients db !! (j_AttemptID j, q)) as [x|] eqn:Hx; [|done]. simpl. intros Hy.
    injection Hy as <-. destruct (Hwr q x Hx); [by left|right]. case_bool_decide; [|done].
    unfold settled. by rewrite Hf. }
  apply held_rows_same; [done| |done]. intros aid rid x Hx Hk b Hb. bsimpl. by simplify_eq.
Qed.

(** The recipient of [rc] shows its result. *)
Definition shown (rc : RecipientResult) (db : DB) : Prop :=
  exists r, recipients db !! rr_ID rc = Some r /\ r_message_id r = j_ID j /\ r_retry_at r = None /\
    r_status r = rr_Status rc /\ (~ hot_status (rr_Status rc) -> cold db (rr_ID rc)).

Lemma told_shown rc db :
  told rc db -> policy = false \/ (forall r, recipients db !! rr_ID rc = Some r -> r_status r <> SUPPRESSED) ->
  shown rc db.
Proof.
  intros (Hx & r & Hr & Hm & Hret & [[Hs Hc]|[Hs Hpol]]) H; [by exists r|].
  destruct H as [H|H]; [congruence|by destruct (H r Hr)].
Qed.

(** A further change to it. *)
Lemma revise_ok rc (rest : list UUID) f :
  rr_ID rc ∉ rest ->
  (forall r, r_message_id (f r) = r_message_id r /\ r_address (f r) = r_address r) ->
  (forall r, r_status r = rr_Status rc -> r_retry_at (f r) <> None -> r_status (f r) = TEMP_FAILED) ->
  (forall r, r_status r = rr_Status rc -> live_status (r_status (f r)) -> ~ hot_status (rr_Status rc)) ->
  triple (fun db => Loop rest db /\ shown rc db) (set_recipient (rr_ID rc) f) (fun _ => Loop rest).
Proof.
  intros Hn Hid Hret Hlive. apply triple_exec.
  intros t db [HL (r & Hr & Hm & _ & Hs & Hc)]. pose proof HL as [HB [Hw Hwr]].
  assert (Heq : update (fun k _ => bool_decide (k = rr_ID rc)) f (recipients db)
                = update (fun k s => bool_decide (k = rr_ID rc) && (fun _ => true) s) f (recipients db)).
  { apply map_eq. intros k. rewrite !lookup_update. destruct (recipients db !! k); [|done].
    simpl. by rewrite andb_true_r. }
  rewrite Heq. split; [|split; [by apply loop_recipient|done]].
  eapply base_recipient; eauto; apply Hid.
Qed.

Lemma retry_state_ok rid (P : DB -> Prop) : triple P (retry_state rid) (fun _ => P).
Proof.
  unfold retry_state. step (fun (_ : RecipientRow) => P); [by apply triple_query_row|].
  destruct (r_retry_started_at a); [by apply triple_return|apply triple_raise].
Qed.

Lemma finishSuppression_ok rc (rest : list UUID) :
  rr_ID rc ∉ rest ->
  triple (fun db => Loop rest db /\ told rc db) (finishSuppression j out rc)
    (fun handled db => if handled : bool then Loop rest db else Loop rest db /\ shown rc db).
Proof.
  intros Hn. unfold finishSuppression.
  destruct (one_of (rr_Status rc) _) eqn:Hs; [apply triple_raise|].
  step (fun (r : RecipientRow) db => (Loop rest db /\ told rc db) /\ recipients db !! rr_ID rc = Some r);
    [by apply triple_query_row|]. rename a into r.
  step (fun (_ : Z * Time) db => (Loop rest db /\ told rc db) /\ recipients db !! rr_ID rc = Some r);
    [apply retry_state_ok|].
  assert (Hend : forall raw, triple (Loop rest)
    (set_attempt_recipient (j_AttemptID j) (rr_ID rc)
       (fun x => x <| ar_decision := raw |> <| ar_protocol_stage := Some (rr_Stage rc) |>);;
     event (j_ID j) (Some (j_AttemptID j)) "DELIVERY_DECIDED" (Some (rr_ID rc)) (o_FinishedAt out)
       (JObj [("decision", match raw with Some d => d | None => JNull end);
              ("suppression_fence", JBool true); ("smtp_status", JStr (status_name (rr_Status rc))); ("smtp_code", JNum (rr_Code rc));
              ("protocol_stage", JStr (rr_Stage rc))]%string);;
     mret true)
    (fun handled db => if handled : bool then Loop rest db else Loop rest db /\ shown rc db)).
  { intros raw. step (fun (_ : unit) => Loop rest); [by apply write_decision_ok|].
    step (fun (_ : unit) => Loop rest); [apply triple_event, loop_ledger|by apply triple_return]. }
  assert (Hshown : status_is (r_status r) SUPPRESSED = false -> forall db,
    (Loop rest db /\ told rc db) /\ recipients db !! rr_ID rc = Some r -> Loop rest db /\ shown rc db).
  { intros E db [[HL HT] Hr]. split; [done|]. apply told_shown; [done|right]. intros r' Hr'.
    simplify_eq. by bsimpl. }
  destruct (status_is (r_status r) SUPPRESSED) eqn:Hsup.
  { eapply triple_conseq; [apply Hend|by intros db [[H _] _]|done]. }
  destruct (negb _); [apply triple_return; auto|].
  step (fun (_ : unit) => Loop rest); [|apply Hend].
  eapply triple_conseq; [apply (revise_ok rc rest); try done|by apply Hshown|done].
  intros _ _ _ [H|H]; rewrite H in Hs; vm_compute in Hs; discriminate.
Qed.

Lemma decideRecipient_ok rc (rest : list UUID) :
  rr_ID rc ∉ rest -> rc ∈ o_Recipients out ->
  triple (fun db => Loop rest db /\ shown rc db) (decideRecipient repo j out rc) (fun _ => Loop rest).
Proof.
  intros Hn Hin. unfold decideRecipient.
  step (fun (_ : Z * Time) db => Loop rest db /\ shown rc db); [apply retry_state_ok|].
  set (b := MkBudget _ _ _ _). destruct (decision_sound _ _ Hout rc b Hin) as (Hacc & Hunk & Hret).
  set (d := Decide (evidence_of out rc) b) in *. set (retryAt := if _ && RetryEnabled repo then Some (_ + _) else None).
  step (fun (_ : unit) => Loop rest).
  - apply revise_ok; [done|done| |].
    + intros r Hs Hr. simpl in *. unfold retryAt in Hr.
      destruct (bool_decide (d_Action d = Retry)) eqn:E; [|done]. bsimpl. rewrite E. rewrite Hs. auto.
    + intros r Hs Hl Hh. simpl in Hl. rewrite Hs in Hl. destruct Hh as [Hh|Hh].
      * rewrite (Hacc Hh), Hh in Hl. unfold live_status in Hl. set_solver.
      * rewrite (Hunk Hh) in Hl. unfold live_status in Hl. set_solver.
  - step (fun (_ : unit) => Loop rest); [by apply write_decision_ok|].
    apply triple_event, loop_ledger.
Qed.

Lemma finish_recipient_ok rc (rest : list UUID) expiry :
  rr_ID rc ∉ rest -> rc ∈ o_Recipients out ->
  triple (Loop (rr_ID rc :: rest)) (finish_recipient repo j out policy expiry rc) (fun _ => Loop rest).
Proof.
  intros Hn Hin. unfold finish_recipient.
  destruct (negb _); [apply triple_raise|]. destruct (expiry && _); [apply triple_raise|].
  step (fun (_ : unit) db => Loop_ (rr_ID rc :: rest) rest db /\ told0 rc db); [by apply write_result_ok|].
  step (fun (_ : unit) db => Loop rest db /\ told rc db); [by apply write_row_ok|].
  step (fun (handled : bool) db => if handled then Loop rest db else Loop rest db /\ shown rc db).
  - destruct policy eqn:Hpol; [by apply finishSuppression_ok|].
    apply triple_return. intros db [HL HT]. split; [done|]. apply told_shown; auto.
  - destruct a2; [by apply triple_return|by apply decideRecipient_ok].
Qed.

Lemma finish_recipients_ok expiry rcs (expected : gset UUID) :
  NoDup (map rr_ID rcs) -> (forall rc, rc ∈ rcs -> rc ∈ o_Recipients out) ->
  triple (Loop (map rr_ID rcs)) (finish_recipients repo j out policy expiry expected rcs)
    (fun _ => Loop []).
Proof.
  revert expected. induction rcs as [|rc rcs IH]; intros expected Hnd Hin; simpl; [by apply triple_return|].
  apply NoDup_cons in Hnd as [Hn Hnd].
  destruct (negb _); [apply triple_raise|].
  step (fun (_ : unit) => Loop (map rr_ID rcs)).
  - apply finish_recipient_ok; [done|]. apply Hin. by left.
  - apply IH; [done|]. intros rc' Hrc. apply Hin. by right.
Qed.

(** The recipients wait once the attempt has its result. *)
Lemma start_finish :
  triple (fun db => db = db0) (set_attempt (j_AttemptID j) (fun _ => finish_attempt out))
    (fun _ => Loop (map rr_ID (o_Recipients out))).
Proof.
  destruct Hjob as (a & Ha & _ & _ & _ & Hnd & Hiff). rewrite Ha0 in Ha. injection Ha as <-.
  apply triple_exec. intros t db ->. split; [split; [|done]|split].
  - apply (held_attempt _ none closing); [| |by apply held_start]; [|done].
    intros k a Ha Hk. bsimpl. subst k. simplify_eq. split; [by repeat split|].
    split; [intros H; by destruct (out_status H)|]. split; [by left|].
    split; [intros H; by destruct (out_status H)|]. split; [by left|].
    intros b Hb. simplify_eq. split; [done|]. intros H. by destruct H.
  - intros rid Hrid. rewrite (sr_ids _ _ Hout) in Hrid.
    apply Hiff in Hrid as [x Hx]. split; [by eexists|].
    destruct (inv_link _ _ _ HI _ _ _ Hx) as (b & r & Hb & Hr & Hm). simplify_eq.
    exists r. split; [done|]. split; [congruence|].
    pose proof (inv_part _ _ _ HI _ _ _ _ _ Ha0 Hp0 Hx Hr) as Hpart.
    split.
    + destruct (r_retry_at r) eqn:E; [|done].
      assert (r_status r = TEMP_FAILED) as Ht by (eapply (inv_retry _ _ _ HI); [done|by rewrite E]).
      destruct Hpart as [H|[H _]]; congruence.
    + destruct Hpart as [H|[H [Hb'|[]]]]; [by left|right]. split; [done|].
      unfold policy. by destruct (a_suppression_blocked_at a0).
  - intros rid x Hx. left. rewrite (sr_ids _ _ Hout). apply Hiff. by exists x.
Qed.

(** ** Health bookkeeping *)

Definition Closing : DB -> Prop := Kept db0 none none (fun A _ => idle_in [j_ID j] A).

Lemma closing_frame db db' :
  messages db' = messages db -> recipients db' = recipients db ->
  delivery_attempts db' = delivery_attempts db ->
  attempt_recipients db' = attempt_recipients db -> events db' = events db ->
  Closing db -> Closing db'.
Proof.
  intros Hm Hr Ha Hx He [HH Hi]. split; [by eapply held_frame|]. by rewrite Ha.
Qed.

Lemma set_health_ok pid f : triple Closing (set_health pid f) (fun _ => Closing).
Proof. apply triple_exec. intros t db H. eapply closing_frame; [..|exact H]; done. Qed.

Lemma finishHealth_ok : triple Closing (finishHealth repo j out) (fun _ => Closing).
Proof.
  unfold finishHealth. step (fun (_ : bool) => Closing); [by apply triple_query_row|].
  step (fun (_ : unit) => Closing).
  { apply triple_exec. intros t db [HH Hi]. split.
    - apply (held_attempt _ none none); [|done|done]. intros k b Hb Hk.
      split; [by repeat split|]. split; [done|]. split; [by left|]. split; [done|]. split; [by right|done].
    - intros mid Hmid' k b Hb Hp. simpl in Hb; rewrite lookup_update in Hb.
      destruct (delivery_attempts db !! k) as [c|] eqn:Hc; [|done]. simpl in Hb. injection Hb as <-.
      destruct (bool_decide _); simpl in *; by eapply (Hi mid Hmid'). }
  step (fun (_ : unit) => Closing).
  { apply triple_exec. intros t db H. destruct (provider_health db !! _); [done|].
    eapply closing_frame; [..|exact H]; done. }
  step (fun (_ : Health) => Closing); [by apply triple_query_row|].
  step (fun (_ : unit) => Closing); [apply set_health_ok|].
  step (fun (_ : Z * Z) => Closing); [by apply triple_query|].
  step (fun (_ : unit) => Closing); [case_match; [apply set_health_ok|by apply triple_return]|].
  case_match; [by apply triple_return|].
  step (fun (_ : unit) => Closing); [apply set_health_ok|].
  apply triple_logged, kept_ledger.
Qed.

End Finish.

(** ** Finish *)

Lemma Finish_ok {Rf : Refusals} repo db0 j out :
  Consistent db0 -> job_ok db0 j -> sender_result (map rc_ID (j_Recipients j)) out ->
  (forall rc, rc ∈ o_Recipients out -> rr_Status rc = TEMP_FAILED \/ rr_Status rc = PERM_FAILED ->
     refusal (j_AttemptID j) (rr_ID rc)) ->
  triple (fun db => db = db0) (Finish repo j out) (fun _ => Held db0 none none).
Proof.
  intros HI Hjob Hout Href. unfold Finish.
  step (fun (_ : unit) db => db = db0); [apply fence_ok|].
  step (fun (_ : ProviderRow) db => db = db0); [by apply triple_query_row|].
  step (fun (x : Attempt) db => db = db0 /\ live_attempt j db0 = Some x);
    [apply triple_query_row; intros t db b -> Hb; done|].
  rename a1 into a0'. apply triple_pure. intros Hlive.
  apply live_attempt_some in Hlive as (Ha0 & Hmid & _ & Hp).
  step (fun (_ : unit) db => db = db0); [case_match; [apply triple_raise|by apply triple_return]|].
  step (fun (_ : unit) => Loop db0 j out a0' (map rr_ID (o_Recipients out))); [by apply start_finish|].
  step (fun (_ : unit) => Loop db0 j out a0' (map rr_ID (o_Recipients out)));
    [case_match; [by apply triple_return|apply triple_raise]|].
  step (fun (_ : unit) => Loop db0 j out a0' []).
  { apply finish_recipients_ok; try done. rewrite (sr_ids _ _ Hout).
    by destruct Hjob as (? & _ & _ & _ & _ & Hnd & _). }
  step (fun (_ : unit) => Loop db0 j out a0' []).
  { apply triple_loop. intros e _. apply triple_recordEvent, loop_ledger. }
  step (fun (_ : unit) => Closing db0 j).
  { eapply triple_conseq; [apply triple_event, kept_ledger| |intros [] db H; exact H].
    intros db [(HH & HA & _) [_ Hwr]]. split; [|rewrite HA; by eapply finished_idle].
    apply (held_close _ (closing j)); [|intros; unfold closing; apply _|exact HH].
    intros k ->. split.
    - intros b Hb. rewrite HA in Hb. unfold finished in Hb. rewrite lookup_update, Ha0 in Hb.
      simpl in Hb. rewrite bool_decide_eq_true_2 in Hb by done. injection Hb as <-. by eapply out_status.
    - intros rid x Hx. by destruct (Hwr rid x Hx) as [?%elem_of_nil|]. }
  assert (Hidle : forall db, idle_in [j_ID j] (delivery_attempts db) -> idle (j_ID j) db)
    by (intros db Hi k b; apply Hi; by left).
  step (fun (_ : unit) => Closing db0 j); [by apply triple_set_message|].
  step (fun (_ : unit) => Closing db0 j); [apply triple_applyExpiry|].
  step (fun (_ : unit) => Closing db0 j); [apply finishHealth_ok|].
  step (fun (_ : unit) => Closing db0 j); [by apply triple_refresh|].
  apply triple_return. by intros db [H _].
Qed.
