(* ===== verification/QueueRecover.v ===== *)
(** * Lease recovery, retry scheduling and operator resolution keep the
    invariant *)

From S2P Require Import Prelude GoText Delivery SmtpClient Provider Database Suppression Queue QueueInv QueueOps QueueClaim QueueFinish.

Import Queue.

(** ** Recovery *)

Section Recover.
  Context {Rf : Refusals} (db0 : DB).
  Hypothesis HI : Consistent db0.

(** A lapsed lease describes an attempt in progress. *)
Definition lapse (A : gmap UUID Attempt) (e : Lapsed) : Prop :=
  exists a, A !! l_AttemptID e = Some a /\ a_message_id a = l_ID e /\ in_progress a /\
            l_armed e = not_null (a_data_armed_at a).

Lemma lapsed_spec t db e : e ∈ lapsed t db -> lapse (delivery_attempts db) e.
Proof.
  unfold lapsed. intros H. apply list_elem_of_fmap in H as ([k a] & -> & Hin). simpl.
  apply elem_limit, elem_sort_by, elem_select in Hin as [Ha Hp]. exists a. bsimpl.
  split; [done|]. split; [done|]. split; [unfold in_progress; tauto|done].
Qed.

Lemma lapsed_nodup t db : NoDup (map l_AttemptID (lapsed t db)).
Proof.
  unfold lapsed, limit. rewrite map_map. simpl. change (fun x => fst x) with (@fst UUID Attempt).
  rewrite <- firstn_map.
  eapply (sublist_NoDup _ (map fst (sort_by _ _))); [|apply sublist_take].
  rewrite sort_by_perm. apply select_nodup.
Qed.

Definition rest_ok (rest : list Lapsed) (A : gmap UUID Attempt) : Prop :=
  forall e, e ∈ rest -> lapse A e.

(** The first three statements: the attempt, its recipients' outcomes and the
    recipients themselves. *)
Lemma recover_rows_ok e rest :
  l_AttemptID e ∉ map l_AttemptID rest -> lapse (delivery_attempts db0) e ->
  triple (Kept db0 none none (fun A _ => rest_ok (e :: rest) A))
    (let status := if l_armed e then DELIVERY_UNKNOWN else QUEUED in
     let attemptStatus := if l_armed e then DELIVERY_UNKNOWN else TEMP_FAILED in
     set_attempt (l_AttemptID e) (fun t a =>
       a <| a_result := attemptStatus |> <| a_finished_at := Some (at_now t) |>
         <| a_error_class := Some "WORKER_LEASE_EXPIRED"%string |>);;
     exec (fun _ db => db <| attempt_recipients :=
       update (fun k _ => bool_decide (fst k = l_AttemptID e)) (fun x => x <| ar_status := attemptStatus |>)
         (attempt_recipients db) |>);;
     exec (fun _ db => db <| recipients :=
       update (fun _ r => of_message (l_ID e) r && status_is (r_status r) SENDING)
         (fun r => r <| r_status := status |>) (recipients db) |>))
    (fun _ => Kept db0 none none (fun A _ => idle_in [l_ID e] A /\ rest_ok rest A)).
Proof.
  intros Hfresh (b0 & Hb0 & Hb0m & Hb0p & _). cbv zeta.
  set (aid := l_AttemptID e). set (mid := l_ID e).
  set (ast := if l_armed e then DELIVERY_UNKNOWN else TEMP_FAILED).
  assert (Hast : ast <> IN_PROGRESS) by (unfold ast; by destruct (l_armed e)).
  assert (Hsettled : ast ∈ [SMTP_ACCEPTED; TEMP_FAILED; PERM_FAILED; DELIVERY_UNKNOWN])
    by (unfold ast; destruct (l_armed e); set_solver).
  set (R := fun A : gmap UUID Attempt => idle_in [mid] A /\ rest_ok rest A).
  set (exS := fun k => k = aid).
  set (S := fun db => Kept db0 exS none (fun A _ => R A) db /\
    (forall rid x r, attempt_recipients db !! (aid, rid) = Some x -> recipients db !! rid = Some r ->
       r_message_id r = mid /\ (r_status r = SENDING \/ r_status r = SUPPRESSED)) /\
    exists a m, delivery_attempts db !! aid = Some a /\ messages db !! a_message_id a = Some m /\
                a_attempt_number a = m_attempt_count m /\ a_result a = ast /\
                (a_data_armed_at a <> None -> l_armed e = true)).
  step (fun (_ : unit) => S).
  { apply triple_exec. intros t db [HH Hrest]. pose proof HH as [HI' _].
    destruct (Hrest e) as (a & Ha & Ham & Hap & Harm); [by left|]. fold aid in Ha.
    set (f := fun a => a <| a_result := ast |> <| a_finished_at := Some (at_now t) |>
                         <| a_error_class := Some "WORKER_LEASE_EXPIRED"%string |>).
    assert (Hlk : forall k c, update (fun k _ => bool_decide (k = aid)) f (delivery_attempts db) !! k = Some c ->
              (k = aid /\ c = f a) \/ (k <> aid /\ delivery_attempts db !! k = Some c)).
    { intros k c Hk. rewrite lookup_update in Hk. destruct (_ !! k) as [d|] eqn:Hd; [|done].
      simpl in Hk. injection Hk as <-. destruct (decide (k = aid)) as [->|Hne].
      - left. rewrite bool_decide_eq_true_2 by done. split; [done|]. congruence.
      - right. rewrite bool_decide_eq_false_2 by done. done. }
    split; [split; [|split]|split].
    - apply (held_attempt _ none exS); [|done|exact HH]. intros k c Hc Hk. bsimpl. subst k.
      split; [by repeat split|]. split; [intros H; by destruct (Hast H)|].
      split; [by left|]. split; [intros H; by destruct (Hast H)|]. split; [by left|].
      intros c0 Hc0. split; [done|]. intros Hnp. fold aid in Hb0. rewrite Hb0 in Hc0.
      injection Hc0 as <-. by destruct Hnp.
    - intros mid' Hm'. apply list_elem_of_singleton in Hm' as ->. intros k c Hk Hp E.
      destruct (Hlk k c Hk) as [[-> ->]|[Hne Hc]]; [by destruct (Hast Hp)|].
      apply Hne. apply (inv_one _ _ db k aid c a HI' Hc Ha Hp Hap). by rewrite Ham, E.
    - intros e' He'. destruct (Hrest e') as (c & Hc & Hcs); [by right|]. exists c. split; [|done].
      simpl. rewrite lookup_update, Hc. simpl. rewrite bool_decide_eq_false_2; [done|].
      intros E. apply Hfresh. fold aid. rewrite <- E. apply list_elem_of_fmap. eauto.
    - intros rid x r Hx Hr. simpl in Hx, Hr.
      destruct (inv_link _ _ _ HI' _ _ _ Hx) as (c & s & Hc & Hs & Hm). split; [unfold mid; congruence|].
      destruct (inv_part _ _ _ HI' _ _ _ _ _ Ha Hap Hx Hr) as [|[]]; auto.
    - destruct (inv_lock _ _ _ HI' _ _ Ha Hap) as (m & Hm & _ & _ & Hn).
      exists (f a), m. simpl. rewrite lookup_update, Ha. simpl. rewrite bool_decide_eq_true_2 by done.
      repeat (split; [done|]). rewrite Harm. by destruct (a_data_armed_at a). }
  set (exR := fun rid => l_armed e = true /\ is_Some (attempt_recipients db0 !! (aid, rid))).
  assert (Hdec : forall rid, base.Decision (exR rid)) by (intros; unfold exR; apply _).
  set (S2 := fun db => Kept db0 none exR (fun A _ => R A) db /\
    (forall rid x r, attempt_recipients db !! (aid, rid) = Some x -> recipients db !! rid = Some r ->
       r_message_id r = mid /\ (r_status r = SENDING \/ r_status r = SUPPRESSED))).
  step (fun (_ : unit) => S2).
  { apply triple_exec. intros t db ([HH HR] & Hpart & a' & m & Ha' & Hm & Hn & Hres & Harm).
    split; [split; [|done]|].
    - apply (held_close _ exS); [| intros; unfold exS; apply _ |].
      { intros k ->. split.
        - intros c Hc. simpl in Hc. rewrite Ha' in Hc. injection Hc as <-. unfold in_progress. by rewrite Hres.
        - intros rid x Hx. simpl in Hx. rewrite lookup_update in Hx.
          destruct (_ !! (aid, rid)) as [y|]; [|done]. simpl in Hx. injection Hx as <-.
          rewrite bool_decide_eq_true_2 by done. exact Hsettled. }
      apply held_rows; [|eapply held_weaken; [| |exact HH]; done].
      intros k rid x Hx Hk. simpl in Hk. bsimpl. subst k. split; [|split].
      + intros c0 Hc0. fold aid in Hb0. congruence.
      + intros c Hc. rewrite Ha' in Hc. injection Hc as <-. unfold in_progress. rewrite Hres. split; [done|].
        split; [exact Hsettled|]. intros Hc. unfold ast. rewrite (Harm Hc). by intros [?|?].
      + intros Hh. split.
        * intros r Hr Hnex Hl. apply Hnex. split.
          -- unfold hot, ast in Hh. simpl in Hh. destruct (l_armed e); [done|]. by destruct Hh.
          -- destruct HH as [_ HE]. destruct (attempt_recipients db0 !! (aid, rid)) eqn:E; [by eexists|].
             fold aid in Hb0. by rewrite (ev_new_rows _ _ HE _ _ _ Hx E) in Hb0.
        * intros c aid' c' x' Hc Hx' Hc'. destruct HH as [HI' _]. rewrite Ha' in Hc. injection Hc as <-.
          by eapply top_attempt.
    - intros rid x r Hx Hr. simpl in Hx. rewrite lookup_update in Hx.
      destruct (_ !! (aid, rid)) as [y|] eqn:Hy; [|done]. by eapply Hpart. }
  apply triple_exec. intros t db [[HH [Hi Hrest]] Hpart]. split; [|by split].
  pose proof HH as [HI' HE].
  assert (Hidle : idle mid db) by (intros k c; apply Hi; by left).
  apply (held_strengthen _ none exR); [|done|].
  - intros rid r' [Harm [x0 Hx0]] Hr' Hl. simpl in Hr'. rewrite lookup_update in Hr'.
    destruct (recipients db !! rid) as [r|] eqn:Hr; [|done]. simpl in Hr'. injection Hr' as <-.
    destruct (ev_rows _ _ HE _ _ _ Hx0) as (x & Hx & _).
    destruct (Hpart rid x r Hx Hr) as [Hm Hs]. rewrite Harm in Hl. unfold of_message in Hl. fold mid in Hl.
    rewrite bool_decide_eq_true_2 in Hl by done.
    destruct Hs as [Hs|Hs]; rewrite Hs in Hl; simpl in Hl; rewrite ?Hs in Hl; unfold live_status in Hl; set_solver.
  - apply held_update; [|done]. intros rid r Hr Hk. unfold of_message in Hk. bsimpl. destruct Hk as [Hm Hs].
    assert (Hret : r_retry_at r = None).
    { destruct (r_retry_at r) eqn:E; [|done].
      assert (r_status r = TEMP_FAILED) by (eapply (inv_retry _ _ _ HI'); [done|by rewrite E]). congruence. }
    split; simpl.
    + done.
    + intros H. by rewrite Hret in H.
    + intros k c x Hc Hp Hx. exfalso.
      destruct (inv_link _ _ _ HI' _ _ _ Hx) as (c' & s & Hc' & Hs' & E).
      apply (Hidle k c Hc Hp). congruence.
    + intros Hl Hnex. apply (live_cold _ _ db rid r HI'); [done|done|].
      rewrite Hs. unfold live_status. set_solver.
    + rewrite Hs. intros H. apply one_of_true in H. discriminate H.
Qed.

Lemma recoverProbe_ok R mid attempt :
  triple (Kept db0 none none R) (recoverProbe mid attempt) (fun _ => Kept db0 none none R).
Proof.
  unfold recoverProbe. step (fun (_ : option UUID) => Kept db0 none none R).
  - apply triple_stmt. intros t db o db' [HH HR] H. injection H as <- <-. split; [|done].
    eapply held_frame; [..|exact HH]; done.
  - destruct a; [apply triple_logged, kept_ledger|by apply triple_return].
Qed.

Lemma expireRecovered_ok R mid attempt :
  (forall db, R (delivery_attempts db) (attempt_recipients db) -> idle mid db) ->
  triple (Kept db0 none none R) (expireRecovered mid attempt) (fun _ => Kept db0 none none R).
Proof.
  intros Hidle. unfold expireRecovered. step (fun (_ : list UUID) => Kept db0 none none R).
  - apply triple_stmt. intros t db l db' [HH HR] H. injection H as <- <-. split; [|done].
    apply held_update; [|done]. intros rid r Hr Hk. bsimpl. destruct Hk as [[_ Hs] _].
    destruct HH as [HI' _]. apply pending_change; try done; [by rewrite Hs|by intros []].
  - step (fun (_ : unit) => Kept db0 none none R); [|by apply triple_refresh].
    apply triple_loop. intros rid _. apply triple_logged, kept_ledger.
Qed.

Lemma recover_one_ok e rest :
  l_AttemptID e ∉ map l_AttemptID rest -> lapse (delivery_attempts db0) e ->
  triple (Kept db0 none none (fun A _ => rest_ok (e :: rest) A)) (recover_one e)
    (fun _ => Kept db0 none none (fun A _ => rest_ok rest A)).
Proof.
  intros Hfresh Hlap. unfold recover_one.
  set (K := Kept db0 none none (fun A _ => idle_in [l_ID e] A /\ rest_ok rest A)).
  assert (Hidle : forall db, idle_in [l_ID e] (delivery_attempts db) /\ rest_ok rest (delivery_attempts db) ->
            idle (l_ID e) db) by (intros db [Hi _] k b; apply Hi; by left).
  step (fun (_ : Time) => Kept db0 none none (fun A _ => rest_ok (e :: rest) A)); [apply triple_gotime|].
  assert (Hassoc : forall (m1 m2 m3 : M unit) (k : M unit) P Q,
    triple P ((m1;; m2;; m3);; k) Q -> triple P (m1;; m2;; m3;; k) Q).
  { intros m1 m2 m3 k P Q H w n db x n' db' HP Hrun. apply (H w n db x n' db' HP). revert Hrun.
    unfold mbind, M_bind. destruct (m1 w (n, db)) as [|[? s1]]; [done|].
    destruct (m2 w s1) as [|[? s2]]; [done|]. destruct (m3 w s2) as [|[? s3]]; auto. }
  apply Hassoc. step (fun (_ : unit) => K); [by apply recover_rows_ok|].
  step (fun (_ : unit) => K); [by apply triple_set_message|].
  step (fun (_ : unit) => K); [apply recoverProbe_ok|].
  step (fun (_ : unit) => K); [destruct (l_armed e); [by apply triple_return|by apply expireRecovered_ok]|].
  step (fun (_ : unit) => K); [apply triple_applyExpiry|].
  step (fun (_ : unit) => K); [by apply triple_refresh|].
  eapply triple_conseq; [apply triple_logged, (kept_ledger db0 none none (fun A _ => rest_ok rest A))| |];
    [|by intros [] db H].
  intros db [HH [_ Hr]]. by split.
Qed.

Lemma Recover_ok : triple (fun db => db = db0) Recover (fun _ => Held db0 none none).
Proof.
  unfold Recover.
  step (fun (jobs : list Lapsed) db => Kept db0 none none (fun A _ => rest_ok jobs A) db /\
          (NoDup (map l_AttemptID jobs) /\ rest_ok jobs (delivery_attempts db0))).
  { apply triple_query. intros t db ->. assert (rest_ok (lapsed t db0) (delivery_attempts db0))
      by (intros e He; by eapply lapsed_spec).
    split; [split; [by apply held_start|done]|]. split; [apply lapsed_nodup|done]. }
  rename a into jobs. apply triple_pure. intros [Hnd Hlap].
  step (fun (_ : unit) => Kept db0 none none (fun A _ => rest_ok [] A)).
  - revert Hnd Hlap. induction jobs as [|e jobs IH]; intros Hnd Hlap; simpl; [by apply triple_return|].
    apply NoDup_cons in Hnd as [Hn Hnd].
    step (fun (_ : unit) => Kept db0 none none (fun A _ => rest_ok jobs A)).
    + apply recover_one_ok; [done|]. apply Hlap. by left.
    + apply IH; [done|]. intros e' He'. apply Hlap. by right.
  - apply triple_return. by intros db [H _].
Qed.

End Recover.

(** ** Scheduling *)

Section Schedule.
  Context {Rf : Refusals} (repo : Repository) (db0 : DB).
  Hypothesis HI : Consistent db0.

Definition Due (mids : list UUID) : DB -> Prop := Kept db0 none none (fun A _ => idle_in mids A).

(** Candidates are pending until their turn. *)
Definition pending_row (db : DB) (rid : UUID) : Prop :=
  exists r, recipients db !! rid = Some r /\ one_of (r_status r) [QUEUED; TEMP_FAILED] = true.

Lemma schedule_one_ok mids now mid rid r (rest : list UUID) :
  rid ∉ rest ->
  triple (fun db => Due mids db /\ forall q, q ∈ rid :: rest -> pending_row db q)
    (schedule_one repo now mid (rid, r))
    (fun _ db => Due mids db /\ forall q, q ∈ rest -> pending_row db q).
Proof.
  intros Hn. unfold schedule_one. destruct (r_retry_started_at r) as [started|]; [|apply triple_raise].
  set (Q := fun db => Due mids db /\ forall q, q ∈ rest -> pending_row db q).
  assert (HQ : ledger_closed Q)
    by (intros db eid e outbox Hne [HK Hr]; split; [by apply kept_ledger|done]).
  assert (Hset : forall f,
    (forall s, r_message_id (f s) = r_message_id s /\ r_address (f s) = r_address s /\ r_retry_at (f s) = None) ->
    triple (fun db => Due mids db /\ forall q, q ∈ rid :: rest -> pending_row db q)
      (set_recipient rid f) (fun _ => Q)).
  { intros f Hf. apply triple_exec. intros t db [[HH HR] Hp]. split; [split; [|done]|].
    - apply held_update; [|done]. intros k s Hs Hk. bsimpl. subst k.
      destruct (Hp rid) as (s' & Hs' & Hst); [by left|]. simplify_eq. destruct HH as [HI' _].
      destruct (Hf s) as (H1 & H2 & H3). apply pending_change; try done. by intros [].
    - intros q Hq. destruct (Hp q) as (s & Hs & Hst); [by right|]. exists s. simpl.
      rewrite lookup_update, Hs. simpl. rewrite bool_decide_eq_false_2; [done|]. by intros ->. }
  destruct (_ || _).
  - step (fun (_ : unit) => Q); [by apply Hset|by apply triple_event].
  - destruct (RetryEnabled repo).
    + step (fun (_ : unit) => Q); [by apply Hset|by apply triple_event].
    + apply triple_return. intros db [HD Hp]. split; [done|]. intros q Hq. apply Hp. by right.
Qed.

Lemma due_pending t db rid r :
  Consistent db -> recipients db !! rid = Some r -> retry_due t r = true ->
  one_of (r_status r) [QUEUED; TEMP_FAILED] = true.
Proof.
  intros HI' Hr Hd. unfold retry_due in Hd. apply orb_true_iff in Hd as [Hd|Hd].
  - rewrite (inv_retry _ _ _ HI' _ _ Hr); [done|]. by destruct (r_retry_at r).
  - bsimpl. destruct Hd as [[_ Hs] _]. by rewrite Hs; left.
Qed.

Lemma schedule_message_ok mids mid :
  mid ∈ mids -> triple (Due mids) (schedule_message repo mid) (fun _ => Due mids).
Proof.
  intros Hmid. unfold schedule_message.
  step (fun (_ : unit) => Due mids); [apply triple_applyExpiry|].
  step (fun (cs : list (UUID * RecipientRow)) db =>
          (Due mids db /\ forall q, q ∈ map fst cs -> pending_row db q) /\ NoDup (map fst cs)).
  { apply triple_query. intros t db HD. split; [split; [done|]|].
    - intros q Hq. apply list_elem_of_fmap in Hq as ([k r] & -> & Hin).
      apply elem_sort_by, elem_select in Hin as [Hr Hp]. apply andb_true_iff in Hp as [_ Hp].
      exists r. split; [done|]. destruct HD as [[HI' _] _]. by eapply due_pending.
    - rewrite (sort_by_perm recipient_leb). apply select_nodup. }
  rename a0 into cs. apply triple_pure. intros Hnd.
  step (fun (_ : Time) db => Due mids db /\ forall q, q ∈ map fst cs -> pending_row db q);
    [apply triple_gotime|].
  step (fun (_ : unit) => Due mids).
  - revert Hnd. induction cs as [|[rid r] cs IH]; intros Hnd; simpl.
    { apply triple_return. by intros db [H _]. }
    apply NoDup_cons in Hnd as [Hn Hnd].
    step (fun (_ : unit) db => Due mids db /\ forall q, q ∈ map fst cs -> pending_row db q);
      [by apply schedule_one_ok|by apply IH].
  - apply triple_refresh. intros db Hi k b. by apply Hi.
Qed.

Lemma schedule_ok : triple (fun db => db = db0) (schedule repo) (fun _ => Held db0 none none).
Proof.
  unfold schedule. step (fun ids => Due ids).
  - apply triple_query. intros t db ->. split; [by apply held_start|].
    eapply selected_idle; [done| |reflexivity]. intros mid m H. bsimpl.
    destruct (m_locked_by m); naive_solver.
  - step (fun (_ : unit) => Due a); [apply triple_loop; intros mid Hm; by apply schedule_message_ok|].
    apply triple_return. by intros db [H _].
Qed.

End Schedule.

(** ** Operator resolution *)

Lemma elem_history rid db aid a x :
  (aid, a, x) ∈ history rid db <->
  delivery_attempts db !! aid = Some a /\ attempt_recipients db !! (aid, rid) = Some x.
Proof.
  unfold history. rewrite list_elem_of_omap. split.
  - intros ([[k q] y] & Hin & Ho). apply elem_select in Hin as [Hy Hk]. simpl in *. bsimpl. subst q.
    destruct (delivery_attempts db !! k) eqn:E; [|done]. by simplify_eq.
  - intros [Ha Hx]. exists ((aid, rid), x). rewrite elem_select. simpl. rewrite Ha.
    split; [|done]. split; [done|]. by apply bool_decide_eq_true.
Qed.

Lemma held_cold {Rf : Refusals} db0 exS exR db :
  (forall rid, exR rid -> cold db rid) -> Held db0 exS exR db -> Held db0 exS none db.
Proof.
  intros Hc [[C1 C2 C3 C4 C5 C6 C7 C8 C9 C10 C11] HE]. split; [split; auto|done].
  intros aid rid x r Hx Hh Hn Hr _ Hl. eapply C10; eauto. intros Hex. apply Hn. by eapply Hc.
Qed.

Section Resolve.
  Context {Rf : Refusals} (db0 : DB) (v : Resolution).
  Hypothesis HI : Consistent db0.

Lemma latest_unique aid0 a0 x0 :
  head (sort_by latest_leb (history (RecipientID v) db0)) = Some (aid0, a0, x0) ->
  forall aid x, attempt_recipients db0 !! (aid, RecipientID v) = Some x -> hot x ->
  ~ resolved db0 aid (RecipientID v) -> aid = aid0.
Proof.
  intros Hhead aid x Hx Hh Hn.
  assert (Hin : (aid0, a0, x0) ∈ history (RecipientID v) db0)
    by (rewrite <- (elem_sort_by latest_leb); by apply head_Some_elem_of).
  apply elem_history in Hin as [Ha0 Hx0].
  destruct (inv_link _ _ _ HI _ _ _ Hx) as (a & r & Ha & Hr & Hm).
  destruct (inv_link _ _ _ HI _ _ _ Hx0) as (b & r' & Hb & Hr' & Hm'). simplify_eq.
  pose proof (inv_latest _ _ _ HI _ _ _ _ _ _ _ Hx Hh Hn Ha Hx0 Ha0) as Hle.
  assert (Hge : latest_leb (aid0, a0, x0) (aid, a, x) = true).
  { eapply (sort_by_head latest_leb); [| |exact Hhead|by apply elem_history].
    - intros [[? p] ?] [[? q] ?]. unfold latest_leb. simpl. bsimpl. lia.
    - intros [[? p] ?] [[? q] ?] [[? s] ?]. unfold latest_leb. simpl. bsimpl. lia. }
  unfold latest_leb in Hge. simpl in Hge. bsimpl.
  eapply (inv_unique _ _ _ HI); eauto; [congruence|lia].
Qed.

#[local] Opaque uuid_text.

Lemma ResolveUnknown_ok :
  triple (fun db => db = db0) (ResolveUnknown v) (fun _ => Held db0 none none).
Proof.
  unfold ResolveUnknown. set (rid := RecipientID v).
  destruct (negb (resolution_valid v)); [apply triple_raise|].
  destruct (is_retry v && negb _); [apply triple_raise|].
  step (fun (f : UUID * Message) db => db = db0 /\
          (messages db0 !! fst f = Some (snd f) /\
           exists r, recipients db0 !! rid = Some r /\ r_message_id r = fst f)).
  { apply triple_query_row. intros t db [mid m] -> Hf. split; [done|].
    destruct (recipients db0 !! rid) as [r|] eqn:Hr; [|done].
    destruct (messages db0 !! r_message_id r) as [m'|] eqn:Hm; [|done]. simplify_eq/=. eauto. }
  destruct a as [mid m]. apply triple_pure. cbn [fst snd]. intros [Hm (r & Hr & Hrm)].
  step (fun (_ : unit) db => db = db0 /\ m_locked_by m = None).
  { destruct (m_locked_by m); [apply triple_raise|by apply triple_return]. }
  apply triple_pure. intros Hunlocked.
  step (fun (l : RecipientRow * (UUID * Attempt * AttemptRecipient)) db => db = db0 /\
          (recipients db0 !! rid = Some (fst l) /\
           head (sort_by latest_leb (history rid db0)) = Some (snd l))).
  { apply triple_query_row. intros t db l -> Hl. split; [done|]. rewrite Hr in Hl.
    destruct (head _) as [x|] eqn:E; [|done]. simpl in Hl. injection Hl as <-. done. }
  destruct a0 as [r1 [[aid0 a0] x0]]. cbn [fst snd]. apply triple_pure. intros [Hr1 Hhead].
  rewrite Hr in Hr1. injection Hr1 as <-.
  step (fun (_ : unit) db => db = db0 /\ r_status r = DELIVERY_UNKNOWN).
  { destruct (status_is (r_status r) DELIVERY_UNKNOWN) eqn:E; [|apply triple_raise]. simpl.
    case_match; [|apply triple_raise]. apply triple_return. bsimpl. auto. }
  apply triple_pure. intros Hunk.
  step (fun (_ : unit) db => db = db0).
  { destruct (is_retry v); [|by apply triple_return].
    step (fun (_ : bool) db => db = db0); [by apply triple_query|].
    step (fun (_ : unit) db => db = db0); [case_match; [apply triple_raise|by apply triple_return]|].
    step (fun (_ : unit) db => db = db0); [case_match; [by apply triple_return|apply triple_raise]|].
    step (fun (_ : unit) db => db = db0); [by apply triple_query|].
    step (fun (_ : bool) db => db = db0); [by apply triple_query_row|].
    case_match; [apply triple_raise|by apply triple_return]. }
  set (exR := fun k => k = rid).
  set (S := fun db => Kept db0 none exR (fun A _ => idle_in [mid] A) db /\
              forall aid x, attempt_recipients db !! (aid, rid) = Some x -> hot x ->
              ~ resolved db aid rid -> aid = aid0).
  assert (Hidle0 : idle_in [mid] (delivery_attempts db0)).
  { intros k ->%list_elem_of_singleton. eapply unlocked_idle; eauto. }
  step (fun (_ : Z) => S).
  { apply triple_stmt. intros t db n db' -> H. injection H as _ <-. split; [split; [|done]|].
    - apply held_update; [|eapply held_weaken; [| |by apply held_start]; done].
      intros k s Hs Hk. apply andb_true_iff in Hk as [Hk _]. bsimpl. subst k. rewrite Hr in Hs.
      injection Hs as <-. split; try done; simpl.
      + intros aid b x Ha Hp Hx.
        destruct (inv_part _ _ _ HI _ _ _ _ _ Ha Hp Hx Hr) as [E|[E _]]; congruence.
      + intros H. apply one_of_true in H. match goal with E : r_status _ = DELIVERY_UNKNOWN |- _ => rewrite E in H end. discriminate H.
    - intros aid x Hx Hh Hnr. by eapply latest_unique. }
  step (fun (_ : unit) => S); [case_match; [by apply triple_return|apply triple_raise]|].
  assert (Hidle : forall db, idle_in [mid] (delivery_attempts db) -> idle mid db)
    by (intros db Hi k b; apply Hi; by left).
  step (fun (_ : unit) => S).
  { destruct (is_retry v); [|by apply triple_return].
    apply triple_exec. intros t db [[HH Hi] Huniq]. split; [split; [|done]|done].
    apply held_message; [done|by apply Hidle|done]. }
  step (fun (_ : UUID) => S); [apply triple_fresh|]. rename a6 into eid.
  set (K := Kept db0 none none (fun A _ => idle_in [mid] A)).
  step (fun (_ : unit) => K).
  { apply triple_record. intros t db outbox [[HH Hi] Huniq] Hne _. split; [|done].
    eapply (held_cold _ none exR); [|by apply held_event]. intros k -> aid x Hx Hh.
    destruct (decide (resolved db aid rid)) as [Hres|Hnr].
    - eapply resolved_mono; [|exact Hres]. by apply insert_subseteq.
    - rewrite (Huniq aid x Hx Hh Hnr). eexists eid, _. simpl. rewrite lookup_insert_eq.
      split; [reflexivity|]. by repeat split. }
  step (fun (_ : unit) => K).
  { apply triple_stmt. intros t db [] db' [HH Hi] H.
    destruct (insert_row _ _ _) as [rows|]; [|done]. injection H as <-. split; [|done].
    eapply held_frame; [..|exact HH]; done. }
  step (fun (_ : unit) => K); [by apply triple_refresh|]. apply triple_return. by intros db [H _].
Qed.

End Resolve.
