(* ===== verification/Demo.v ===== *)
(** * A concrete scenario

    One message with two recipients at one provider, used by the examples and
    witnesses of the queue: it is claimed, cleared for DATA and transmitted;
    the server rejects one recipient and answers the message with 451, and the
    other recipient is queued again and claimed a second time. *)

From S2P Require Import Prelude Sha256 GoText Delivery SmtpStream Provider SmtpClient Database Suppression Message Queue Worker.

Import Queue Worker.

Definition demo_repo : Repository := MkRepository true true true.

(** A server without faults whose clock starts at [now]. *)
Definition demo_world (now : Time) (base : UUID) : World :=
  MkWorld now (fun k => now + Z.of_nat k) (fun k => now + Z.of_nat k) (fun k => base + N.of_nat k)%N
    (fun _ => false) (fun _ _ => false) (fun _ _ => false) Z.of_N (fun _ => "{}"%string) (fun _ => EmptyString) Committed.

Definition demo_day : Time := 738000 * 24 * Hour.
Definition demo_body : list byte := [x61; CR; LF].

Definition demo_message : Message :=
  MkMessage "smtp" None (Some 9%N) "f@example.com" (Some "f@example.com"%string) "mail/100.eml" 3
    (EncodeToString (Sha.Sum256 demo_body)) "normal" "production" "AVAILABLE" demo_day None None QUEUED
    (Some demo_day) None None None 0 None None None None "<1@example.com>" "hi" demo_day None "" [] None None.

Definition demo_recipient (address : string) : RecipientRow :=
  MkRecipientRow 100 address QUEUED None None None None 0 None None false None.

Definition demo_provider_row : ProviderRow :=
  MkProviderRow "demo" true "smtp.example" 465 "implicit_tls" "user" [] [] 0 (Some 10) None 1 30
    ["example.com"%string] true None 1.

Definition demo_db : DB :=
  MkDB {[100%N := demo_message]}
    {[1%N := demo_recipient "a@example.org"; 2%N := demo_recipient "b@example.org"]} ∅ ∅
    {[7%N := demo_provider_row]} ∅ ∅ ∅ ∅ ∅ ∅ {[("smtp"%string, Some 9%N) := MkFairOwner 0 0]} 0 ∅ ∅ ∅ ∅ ∅ ∅ [] ∅ ∅ ∅ ∅ ∅ ∅ ∅ ∅ ∅ ∅ ∅ ∅ ∅ ∅.

(** The job of a claim that succeeded. *)
Definition job_of (r : DBErr + Job) : Job :=
  match r with
  | inr j => j
  | inl _ => MkJob "" 0 0 0 "" "" "" 0 demo_provider []
  end.

(** ** First attempt *)

Definition claim1 := transact (demo_world (demo_day + Minute) 1000) (claim demo_repo) demo_db.
Definition job1 : Job := job_of (fst claim1).
Definition arm1 := transact (demo_world (demo_day + Minute + Second) 2000) (ArmData job1) (snd claim1).

(** The conversation of [demo_net] at the time of the attempt. *)
Definition demo_net_at (now : Time) (final : Wire) : Net :=
  let n := demo_net final in
  MkNet (fun k => now + Z.of_nat k) (n_lookup n) (n_dial n) (n_remote_host n) (n_handshake n) (n_write n)
    (n_read n) (n_record n) (n_beforeData n) (n_sasl_start n) (n_sasl_next n) (n_payload n).

Definition result1 (final : Wire) : Result :=
  deliver 1000 "relay.example" job1 (Some "pw"%string) true (Some demo_body) (demo_day + Minute)
    (fun _ => demo_net_at (demo_day + Minute + 2 * Second) final).

Definition later : Wire := Line false 451 "4.3.0 try again later".
Definition finish1 := transact (demo_world (demo_day + Minute + 3 * Second) 3000)
                        (Finish demo_repo job1 (result1 later)) (snd arm1).

(** ** The retry *)

Definition schedule2 := transact (demo_world (demo_day + 2 * Hour) 4000) (schedule demo_repo) (snd finish1).
Definition claim2 := transact (demo_world (demo_day + 2 * Hour + Second) 5000) (claim demo_repo) (snd schedule2).
Definition job2 : Job := job_of (fst claim2).

(** What the recipients show after each transaction. *)
Definition statuses (db : DB) : list (option Status) :=
  map (fun rid => option_map r_status (recipients db !! rid)) [1; 2]%N.

Example demo_run :
  map rc_ID (j_Recipients job1) = [1; 2]%N /\ fst arm1 = inr tt /\
  statuses (snd finish1) = [Some TEMP_FAILED; Some PERM_FAILED] /\
  statuses (snd schedule2) = [Some QUEUED; Some PERM_FAILED] /\
  map rc_ID (j_Recipients job2) = [1]%N /\ j_AttemptID job2 <> j_AttemptID job1.
Proof. vm_compute. repeat split. discriminate. Qed.
