(* ===== verification/QueueSpec.v ===== *)
(** * What the operations of the queue guarantee

    Statements about one transaction each: what a granted DATA fence has
    checked, what a claim has checked and reserved, and the rules that decide
    the message's status, the circuit breaker and whose turn it is. *)

From S2P Require Import Prelude GoText Delivery SmtpClient Provider Database Suppression Queue QueueInv QueueOps QueueClaim QueueFinish Demo.

Import Queue.

Ltac wstep R := apply (wtriple_bind _ _ R); [| intros ?].

(** ** The DATA fence *)

(** The lease of [j] is held and live at [now]. *)
Definition lease_live (j : Job) (db : DB) (now : Time) : Prop :=
  exists m, messages db !! j_ID j = Some m /\ m_environment m = "production"%string /\
    m_status m = SENDING /\ m_locked_by m = Some (j_Token j) /\
    exists e, m_lease_expires_at m = Some e /\ now < e.

Lemma fence_live w j db0 :
  wtriple w (fun db => db = db0) (fence j true)
    (fun _ db => db = db0 /\ exists k, lease_live j db0 (w_clock w k)).
Proof.
  unfold fence. wstep (fun (ok : bool) db => db = db0 /\ (ok = true -> exists k, lease_live j db0 (w_clock w k))).
  - apply wtriple_query. intros k db ->. split; [done|]. intros H. exists k.
    destruct (messages db0 !! j_ID j) as [m|] eqn:E; [|done]. exists m. split; [done|]. bsimpl.
    destruct H as [[[He Hs] Hl] Hle]. apply status_is_true in Hs. unfold is_id in Hl. bsimpl.
    destruct Hle as [Hle|Hle]; [done|]. repeat (split; [done|]).
    destruct (m_lease_expires_at m) as [e|]; [|done]. exists e. simpl in Hle. bsimpl. auto.
  - destruct a; [|apply wtriple_of, triple_raise]. apply wtriple_of, triple_return. naive_solver.
Qed.

(** No hit: every recipient being sent to is free of active suppressions. *)
Lemma Apply_none w mid attempt sending db0 :
  wtriple w (fun db => db = db0) (Suppression.Apply mid attempt sending)
    (fun n db => n = 0%nat -> db = db0 /\ exists k, Suppression.hits mid sending (at_step w k) db0 = []).
Proof.
  unfold Suppression.Apply.
  wstep (fun (found : list (UUID * UUID)) db => db = db0 /\
           exists k, found = Suppression.hits mid sending (at_step w k) db0).
  { apply wtriple_query. intros k db ->. eauto. }
  destruct a as [|h found].
  - wstep (fun (_ : unit) db => db = db0 /\ exists k, [] = Suppression.hits mid sending (at_step w k) db0);
      apply wtriple_of; [by apply triple_return|]. apply triple_return. naive_solver.
  - wstep (fun (_ : unit) (_ : DB) => True); apply wtriple_of; [apply triple_any|]. by apply triple_return.
Qed.

Lemma hits_none mid sending t db rid r :
  Suppression.hits mid sending t db = [] -> recipients db !! rid = Some r -> r_message_id r = mid ->
  one_of (r_status r) (Suppression.pending_states sending) = true ->
  Suppression.ActiveSQL t db (r_address r) = false.
Proof.
  intros H Hr Hm Hs. destruct (Suppression.ActiveSQL t db (r_address r)) eqn:E; [exfalso|done].
  apply exists_row_true in E as (sid & e & He & Hb).
  assert (Hin : (rid, sid) ∈ Suppression.hits mid sending t db).
  { unfold Suppression.hits. rewrite elem_sort_by, list_elem_of_In, in_concat.
    eexists. split; [apply in_map_iff; exists (rid, r); split; [reflexivity|]|].
    - apply list_elem_of_In, elem_select. split; [done|]. simpl. apply andb_true_iff. split; [|exact Hs].
      by apply bool_decide_eq_true.
    - apply in_map_iff. exists (sid, e). split; [done|]. apply list_elem_of_In, elem_select. done. }
  rewrite H in Hin. by apply elem_of_nil in Hin.
Qed.

(** What the granted fence checked, and all that it wrote; [t1] and [t3] are
    times within the transaction.  The event is of a kind that is not notified. *)
Definition armed_event (j : Job) (at_ : Time) : EventRow :=
  MkEventRow (j_ID j) None (Some (j_AttemptID j)) "DATA_ARMED" at_ "worker"
    (JObj [("reason", JStr "durable permission to transmit DATA")]%string) None.

Definition granted (w : World) (j : Job) (db0 db : DB) : Prop :=
  exists a m t1 k2 t3 eid at_,
    lease_live j db0 t1 /\ messages db0 !! j_ID j = Some m /\
    live_attempt j db0 = Some a /\ a_data_armed_at a = None /\
    a_suppression_blocked_at a = None /\ a_expiry_blocked_at a = None /\
    Suppression.hits (j_ID j) true (at_step w k2) db0 = [] /\
    null_or_gt (m_expires_at m) t3 = true /\
    (exists k1 k3, t1 = w_clock w k1 /\ t3 = w_clock w k3) /\ events db0 !! eid = None /\
    db = db0 <| delivery_attempts := <[j_AttemptID j := a <| a_data_armed_at := Some t3 |>]> (delivery_attempts db0) |>
             <| events := <[eid := armed_event j at_]> (events db0) |>.

Lemma armable_live j db a :
  live_attempt j db = Some a -> a_data_armed_at a = None -> a_expiry_blocked_at a = None ->
  armable j (j_AttemptID j) a = true /\ delivery_attempts db !! j_AttemptID j = Some a.
Proof.
  intros Hl Ha He. apply live_attempt_some in Hl as (Hx & _ & Ht & Hp). split; [|done].
  unfold armable. rewrite Ha, He. unfold in_progress in Hp. rewrite !bool_decide_eq_true_2 by done.
  unfold status_is. by rewrite Hp.
Qed.

Lemma arm_update j db a t e :
  live_attempt j db = Some a -> a_data_armed_at a = None -> a_expiry_blocked_at a = None ->
  null_or_gt e (at_clock t) = true ->
  update (armable j) (arm_attempt t e) (delivery_attempts db)
  = <[j_AttemptID j := a <| a_data_armed_at := Some (at_clock t) |>]> (delivery_attempts db).
Proof.
  intros Hl Ha He Hgt. destruct (armable_live j db a Hl Ha He) as [Harm Hx].
  apply map_eq. intros k. rewrite lookup_update. destruct (decide (k = j_AttemptID j)) as [->|Hne].
  - rewrite Hx, lookup_insert_eq. simpl. rewrite Harm. f_equal. unfold arm_attempt. rewrite Hgt.
    assert (le_time e (at_clock t) = false) as ->
      by (destruct e as [x|]; [|done]; simpl in *; bsimpl; lia).
    destruct a. simpl in *. by rewrite He.
  - rewrite lookup_insert_ne by done. destruct (_ !! k) as [b|]; [|done]. simpl. unfold armable.
    by rewrite bool_decide_eq_false_2.
Qed.

Lemma ArmData_granted w j db0 :
  wtriple w (fun db => db = db0) (ArmData j) (fun r db => match r with
    | Commit (inr _) => granted w j db0 db
    | Rollback (inr _) => False
    | _ => True
    end).
Proof.
  unfold ArmData.
  wstep (fun (_ : unit) db => db = db0 /\ exists k, lease_live j db0 (w_clock w k)); [apply fence_live|].
  apply wtriple_pure. intros [k1 Hlease].
  wstep (fun (x : Attempt) db => db = db0 /\ live_attempt j db0 = Some x);
    [apply wtriple_of, triple_query_row; intros t db b -> Hb; done|].
  apply wtriple_pure. intros Hlive.
  wstep (fun (_ : unit) db => db = db0 /\ (a_data_armed_at a0 = None /\ a_expiry_blocked_at a0 = None /\
           a_suppression_blocked_at a0 = None)).
  { apply wtriple_of. destruct (a_data_armed_at a0); [apply triple_raise|].
    destruct (a_expiry_blocked_at a0); [apply triple_raise|].
    destruct (a_suppression_blocked_at a0); [apply triple_raise|]. by apply triple_return. }
  apply wtriple_pure. intros (Hun & Hex & Hsu).
  wstep (fun (_ : unit) db => db = db0); [by apply wtriple_of, triple_query|].
  wstep (fun (n : nat) db => n = 0%nat -> db = db0 /\
           exists k, Suppression.hits (j_ID j) true (at_step w k) db0 = []); [apply Apply_none|].
  destruct (0 <? a3)%nat eqn:Hn.
  { apply wtriple_of. step (fun (_ : unit) (_ : DB) => True); [apply triple_any|].
    step (fun (_ : Time) (_ : DB) => True); [apply triple_any|].
    step (fun (_ : unit) (_ : DB) => True); [apply triple_any|by apply triple_return]. }
  apply Nat.ltb_ge in Hn. assert (a3 = 0%nat) as -> by lia.
  set (after := fun db => exists m k2 k3, messages db0 !! j_ID j = Some m /\
    Suppression.hits (j_ID j) true (at_step w k2) db0 = [] /\
    db = db0 <| delivery_attempts := update (armable j) (arm_attempt (at_step w k3) (m_expires_at m)) (delivery_attempts db0) |>).
  wstep (fun (n : Z) db => n = 1 -> after db).
  { apply wtriple_stmt. intros k db n db' Hdb H. destruct (Hdb eq_refl) as [-> [k2 Hh]].
    destruct (messages db0 !! j_ID j) as [m|] eqn:Hm; injection H as <- <-; [|done].
    intros _. exists m, k2, k. done. }
  wstep (fun (_ : unit) => after).
  { apply wtriple_of. destruct (a3 =? 1) eqn:E; [|apply triple_raise]. apply triple_return.
    apply Z.eqb_eq in E. auto. }
  set (armed := fun db => exists m k2 k3, messages db0 !! j_ID j = Some m /\
    Suppression.hits (j_ID j) true (at_step w k2) db0 = [] /\ null_or_gt (m_expires_at m) (w_clock w k3) = true /\
    db = db0 <| delivery_attempts := <[j_AttemptID j := a0 <| a_data_armed_at := Some (w_clock w k3) |>]> (delivery_attempts db0) |>).
  wstep (fun (expired : bool) db => expired = false -> armed db).
  { apply wtriple_of, triple_query_row. intros t db b (m & k2 & k3 & Hm & Hh & ->) Hb ->.
    destruct (armable_live j db0 a0 Hlive Hun Hex) as [Harm Hx]. simpl in Hb.
    rewrite lookup_update, Hx in Hb. simpl in Hb. rewrite Harm in Hb. simpl in Hb.
    assert (Hgt : null_or_gt (m_expires_at m) (w_clock w k3) = true).
    { destruct (m_expires_at m) as [e|]; [|done]. simpl in *. bsimpl.
      destruct (Z.leb_spec e (w_clock w k3)); [by injection Hb|done]. }
    exists m, k2, k3. by rewrite (arm_update j db0 a0 (at_step w k3) _ Hlive Hun Hex Hgt). }
  wstep (fun (_ : Time) db => a5 = false -> armed db); [apply wtriple_of, triple_gotime|].
  apply wtriple_of. destruct a5.
  - step (fun (_ : unit) (_ : DB) => True); [apply triple_any|by apply triple_return].
  - step (fun (_ : unit) => granted w j db0); [|by apply triple_return]. unfold event.
    step (fun (_ : UUID) => armed); [eapply triple_conseq; [apply triple_fresh|intros db H; by apply H|done]|].
    apply triple_record. intros t db outbox (m & k2 & k3 & Hm & Hh & Hgt & ->) Hnew Hcap.
    apply captures_silent in Hcap as ->; [|reflexivity]. exists a0, m, (w_clock w k1), k2, (w_clock w k3), a5, a6. by eauto 20.
Qed.

(** ** Admission of a claim *)

Lemma sum_permutation {A} (f : A -> Z) (l l' : list A) :
  l ≡ₚ l' -> foldr (fun x acc => f x + acc) 0 l = foldr (fun x acc => f x + acc) 0 l'.
Proof. induction 1; simpl; lia. Qed.

Lemma filter_perm {A} (f : A -> bool) (l l' : list A) : l ≡ₚ l' -> List.filter f l ≡ₚ List.filter f l'.
Proof. induction 1; simpl; repeat case_match; eauto using Permutation. Qed.

(** A reservation adds its units to the sums that select it. *)
Lemma sum_units_insert p db k q :
  provider_quota db !! k = None ->
  sum_units p (db <| provider_quota := <[k := q]> (provider_quota db) |>)
  = (if p q then q_units q else 0) + sum_units p db.
Proof.
  intros Hk. unfold sum_units, select. simpl.
  rewrite (sum_permutation (fun kq => q_units (snd kq)) _
             (List.filter (fun kr => p (snd kr)) ((k, q) :: map_to_list (provider_quota db)))).
  - simpl. by destruct (p q).
  - by apply filter_perm, map_to_list_insert.
Qed.

Lemma sum_units_same p db db' : provider_quota db' = provider_quota db -> sum_units p db' = sum_units p db.
Proof. intros H. unfold sum_units. by rewrite H. Qed.

Section Admission.
  Context (repo : Repository) (w : World) (db0 : DB).

(** The tables that quotas are computed from. *)
Definition unspent (db : DB) : Prop :=
  provider_quota db = provider_quota db0 /\ providers db = providers db0.

Lemma unspent_event mid attempt kind rid at_ data :
  triple unspent (event mid attempt kind rid at_ data) (fun _ => unspent).
Proof. apply triple_event. by intros db eid e outbox _ H. Qed.

(** The reservation of [units] for [attempt] at provider [pid]. *)
Definition spent (attempt pid : UUID) (units : Z) (db : DB) : Prop :=
  providers db = providers db0 /\ 0 < units /\ provider_quota db0 !! attempt = None /\
  exists t, provider_quota db = <[attempt := MkQuota pid t units]> (provider_quota db0).

Lemma spent_ledger attempt pid units : ledger_closed (spent attempt pid units).
Proof. by intros db eid e outbox _ H. Qed.

Lemma reserveControls_spends mid attempt pid units :
  triple unspent (reserveControls repo mid attempt pid units) (fun _ => spent attempt pid units).
Proof.
  unfold reserveControls. set (S := spent attempt pid units). step (fun (_ : unit) => S).
  { apply triple_stmt. intros t db [] db' [HQ HP] H. destruct (Z.ltb_spec 0 units); [|done].
    destruct (insert_row _ _ _) as [rows|] eqn:E; [|done]. injection H as <-.
    apply insert_row_some in E as [Hn ->]. rewrite HQ in *. split; [done|]. split; [done|]. split; [done|].
    simpl. eauto. }
  step (fun (_ : option UUID) => S); [by apply triple_query_row|].
  step (fun (_ : Time) => S); [apply triple_gotime|].
  step (fun (_ : unit) => S); [apply triple_event, spent_ledger|].
  destruct (negb _); [by apply triple_return|].
  step (fun (_ : bool) => S).
  - apply triple_stmt. intros t db b db' HS H. repeat case_match; injection H as <- <-; exact HS.
  - destruct a3; [apply triple_logged, spent_ledger|by apply triple_return].
Qed.

(** What a claim checked, with the steps at which it did. *)
Definition admitted (j : Job) (db : DB) : Prop :=
  let mid := j_ID j in let pid := pv_ID (j_Provider j) in
  exists m p km kp ka,
    messages db0 !! mid = Some m /\ eligible repo (at_step w km) db0 mid m = true /\
    providers db0 !! pid = Some p /\ eligibleProvider repo (at_step w kp) db0 mid m pid p = true /\
    controlRequirements repo (at_step w ka) db0 pid p = true /\
    (1 <= length (j_Recipients j) <= 16)%nat /\
    Z.of_nat (length (j_Recipients j)) <= remaining (at_step w ka) db0 pid p /\
    spent (j_AttemptID j) pid (Z.of_nat (length (j_Recipients j))) db /\
    j_Path j = m_eml_path m /\ j_Size j = m_eml_size m /\ j_SHA256 j = m_eml_sha256 m.

Lemma selectFair_eligible :
  wtriple w (fun db => db = db0) (selectFair repo)
    (fun r db => db = db0 /\ exists k, messages db0 !! fst (snd (fst r)) = Some (snd (snd (fst r))) /\
       eligible repo (at_step w k) db0 (fst (snd (fst r))) (snd (snd (fst r))) = true).
Proof.
  unfold selectFair. wstep (fun (_ : option (Owner * FairOwner)) db => db = db0); [by apply wtriple_query|].
  wstep (fun (_ : Owner * FairOwner) db => db = db0);
    [apply wtriple_of; destruct a; [by apply triple_return|apply triple_raise]|].
  wstep (fun (c : option (UUID * Message * Z)) db => db = db0 /\ forall x, c = Some x ->
           exists k, messages db0 !! fst (fst x) = Some (snd (fst x)) /\
             eligible repo (at_step w k) db0 (fst (fst x)) (snd (fst x)) = true).
  - apply wtriple_query. intros k db ->. split; [done|]. intros [[mid m] z] Hx. exists k.
    destruct (pick_message _ _ _ _ _) as [[d [mid' m']]|] eqn:E; simplify_eq/=.
    by apply pick_message_spec in E.
  - apply wtriple_of. destruct a1 as [x|]; [|apply triple_raise].
    step (fun (c : UUID * Message * Z) db => db = db0 /\ exists k,
            messages db0 !! fst (fst c) = Some (snd (fst c)) /\
            eligible repo (at_step w k) db0 (fst (fst c)) (snd (fst c)) = true).
    + apply triple_return. intros db [-> H]. auto.
    + by apply triple_return.
Qed.

Lemma pick_provider_spec t db mid pid p :
  pick_provider repo t db mid = Some (pid, p) ->
  exists m, messages db !! mid = Some m /\ providers db !! pid = Some p /\
            eligibleProvider repo t db mid m pid p = true.
Proof.
  unfold pick_provider. destruct (messages db !! mid) as [m|] eqn:Hm; [|done]. intros H.
  apply head_Some_elem_of in H. rewrite elem_sort_by in H. apply elem_select in H as [Hp He].
  exists m. bsimpl. tauto.
Qed.

Lemma admission_checks pid p :
  providers db0 !! pid = Some p ->
  wtriple w (fun db => db = db0) (admission repo pid)
    (fun n db => db = db0 /\ exists k, controlRequirements repo (at_step w k) db0 pid p = true /\
                                       n = remaining (at_step w k) db0 pid p).
Proof.
  intros Hp. unfold admission. wstep (fun (_ : unit) db => db = db0); [by apply wtriple_query|].
  wstep (fun (o : option Z) db => db = db0 /\ forall n, o = Some n -> exists k,
           controlRequirements repo (at_step w k) db0 pid p = true /\ n = remaining (at_step w k) db0 pid p).
  - apply wtriple_query. intros k db ->. split; [done|]. rewrite Hp. intros n Hn. exists k.
    destruct (controlRequirements _ _ _ _ _); [|done]. by injection Hn as <-.
  - apply wtriple_of. destruct a0; [|apply triple_raise]. apply triple_return. intros db [-> H]. auto.
Qed.

Lemma take_recipients_count mid pid n :
  triple unspent (take_recipients repo mid pid n)
    (fun rcs db => unspent db /\ (length rcs <= Z.to_nat n)%nat).
Proof.
  apply triple_stmt. intros t db rcs db' [HQ HP] H. injection H as <- <-. split; [done|].
  rewrite length_map. unfold claimable, limit. rewrite length_take. lia.
Qed.

Lemma claim_admitted :
  wtriple w (fun db => db = db0) (claim repo) (fun r db => match r with
    | Commit (inr j) => admitted j db
    | Rollback (inr _) => False
    | _ => True
    end).
Proof.
  unfold claim.
  wstep (fun (_ : unit) db => db = db0); [by apply wtriple_query|].
  wstep (fun (_ : UUID) db => db = db0); [apply wtriple_of, triple_fresh|]. rename a0 into token.
  wstep (fun (_ : UUID) db => db = db0); [apply wtriple_of, triple_fresh|]. rename a0 into attempt.
  wstep (fun (r : Owner * (UUID * Message) * Z) db => db = db0 /\ exists k,
           messages db0 !! fst (snd (fst r)) = Some (snd (snd (fst r))) /\
           eligible repo (at_step w k) db0 (fst (snd (fst r))) (snd (snd (fst r))) = true);
    [apply selectFair_eligible|].
  destruct a0 as [[owner [mid m]] next]. cbn [fst snd]. apply wtriple_pure. intros (km & Hm & Hel).
  wstep (fun (o : option (UUID * ProviderRow)) db => db = db0 /\ forall x, o = Some x -> exists k,
           providers db0 !! fst x = Some (snd x) /\
           eligibleProvider repo (at_step w k) db0 mid m (fst x) (snd x) = true).
  { apply wtriple_query. intros k db ->. split; [done|]. intros [pid p] Hx. exists k.
    apply pick_provider_spec in Hx as (m' & Hm' & Hp & He). simpl. split; [done|]. congruence. }
  wstep (fun (x : UUID * ProviderRow) db => db = db0 /\ exists k, providers db0 !! fst x = Some (snd x) /\
           eligibleProvider repo (at_step w k) db0 mid m (fst x) (snd x) = true).
  { apply wtriple_of. destruct a0; [|apply triple_raise]. apply triple_return. intros db [-> H]. auto. }
  destruct a1 as [pid p]. cbn [fst snd]. apply wtriple_pure. intros (kp & Hp & Hprov).
  wstep (fun (_ : Z) db => db = db0); [by apply wtriple_query|].
  wstep (fun (_ : unit) db => db = db0);
    [apply wtriple_of; case_match; [apply triple_raise|by apply triple_return]|].
  wstep (fun n db => db = db0 /\ exists k, controlRequirements repo (at_step w k) db0 pid p = true /\
                                          n = remaining (at_step w k) db0 pid p);
    [by apply admission_checks|].
  apply wtriple_pure. intros (ka & Hc & ->). apply wtriple_of.
  step (fun (_ : option UUID) db => db = db0); [by apply triple_query_row|].
  step (fun (_ : Z) => unspent).
  { unfold take_message. step (fun (_ : option Z) => unspent).
    - apply triple_stmt. intros t db r db' -> H. repeat case_match; injection H as <- <-; done.
    - destruct a4; [by apply triple_return|apply triple_raise]. }
  step (fun (_ : unit) => unspent).
  { apply triple_stmt. intros t db [] db' HU H. destruct (attempt_slot_free _ _ _); [|done].
    destruct (insert_row _ _ _) as [rows|]; [|done]. injection H as <-. exact HU. }
  step (fun (rcs : list Recipient) db => unspent db /\
          (length rcs <= Z.to_nat (Z.min (remaining (at_step w ka) db0 pid p) FairRecipientQuantum))%nat);
    [apply take_recipients_count|].
  rename a6 into rcs. apply triple_pure. intros Hle.
  step (fun (_ : unit) db => unspent db /\ (1 <= length rcs)%nat).
  { destruct (Nat.eqb_spec (length rcs) 0); [apply triple_raise|]. apply triple_return. intros db HU.
    split; [done|lia]. }
  apply triple_pure. intros Hge. set (units := Z.of_nat (length rcs)).
  step (fun (_ : unit) => unspent).
  { apply triple_loop. intros rc _. apply triple_stmt. intros t db [] db' HU H.
    destruct (insert_row _ _ _) as [rows|]; [|done]. injection H as <-. exact HU. }
  step (fun (_ : unit) => spent attempt pid units); [apply reserveControls_spends|].
  step (fun (_ : unit) => spent attempt pid units).
  { unfold recordFailover.
    step (fun (_ : list (UUID * UUID * option json * UUID)) => spent attempt pid units); [by apply triple_query|].
    step (fun (_ : unit) => spent attempt pid units); [case_match; [apply triple_raise|by apply triple_return]|].
    apply triple_loop. intros [[[rid at1] d] from] _. apply triple_logged, spent_ledger. }
  step (fun (_ : Time) => spent attempt pid units); [apply triple_gotime|].
  step (fun (_ : unit) => spent attempt pid units); [apply triple_event, spent_ledger|].
  step (fun (_ : unit) => spent attempt pid units); [by apply triple_exec|].
  apply triple_return. intros db HS. exists m, p, km, kp, ka. simpl. unfold FairRecipientQuantum in *.
  repeat (split; [done|]). split; [lia|]. split; [unfold units in *; lia|]. split; [exact HS|done].
Qed.

End Admission.

Lemma spent_sum db0 attempt pid units db p :
  spent db0 attempt pid units db -> sum_units p db <= units + sum_units p db0.
Proof.
  intros (_ & Hu & Hn & t & HQ).
  rewrite (sum_units_same p (db0 <| provider_quota := <[attempt := MkQuota pid t units]> (provider_quota db0) |>) db)
    by exact HQ.
  rewrite (sum_units_insert p db0 attempt (MkQuota pid t units) Hn). simpl. destruct (p _); lia.
Qed.

(** C5. Quotas hold after every claim.  The job is for an eligible queued
    message (due, not expired, archive available), goes to a provider that
    accepted its sender domain and whose route and circuit breaker allow it,
    has between one and sixteen recipients, and after the claim the units
    reserved in the last hour and the last day, as of the instant of
    admission, exceed neither the limits of the provider nor those of its
    quota group. *)
Theorem claim_within_quota repo w db j db' :
  transact w (claim repo) db = (inr j, db') ->
  admitted repo w db j db' /\
  exists p k, let pid := pv_ID (j_Provider j) in let now := w_clock w k in
    providers db !! pid = Some p /\
    (forall l, p_hourly_limit p = Some l -> sum_units (reserved_since (now - Hour) pid) db' <= l) /\
    (forall l, p_daily_limit p = Some l -> sum_units (reserved_since (now - 24 * Hour) pid) db' <= l) /\
    (forall gid g, p_quota_group_id p = Some gid -> provider_quota_groups db !! gid = Some g ->
       (g_hourly_limit g <> 0 -> group_reserved (at_step w k) db' gid Hour <= g_hourly_limit g) /\
       (g_daily_limit g <> 0 -> group_reserved (at_step w k) db' gid (24 * Hour) <= g_daily_limit g)).
Proof.
  intros Hrun. destruct (wtriple_value _ _ _ _ _ _ _ (claim_admitted repo w db) eq_refl Hrun) as [HA|(d & [] & _)].
  split; [exact HA|]. destruct HA as (m & p & km & kp & ka & _ & _ & Hp & _ & _ & _ & Hrem & HS & _).
  exists p, ka. cbv zeta. split; [done|].
  pose proof (fun q => spent_sum _ _ _ _ _ q HS) as Hsum.
  unfold remaining, quotaAvailable, sharedQuotaAvailable in Hrem. split; [|split].
  - intros l Hl. rewrite Hl in Hrem. specialize (Hsum (reserved_since (w_clock w ka - Hour) (pv_ID (j_Provider j)))).
    simpl in Hrem. lia.
  - intros l Hl. rewrite Hl in Hrem.
    specialize (Hsum (reserved_since (w_clock w ka - 24 * Hour) (pv_ID (j_Provider j)))). simpl in Hrem. lia.
  - intros gid g Hg Hgrp. rewrite Hg, Hgrp in Hrem. unfold group_reserved in *.
    destruct HS as (HP & _). rewrite HP in *.
    split; intros Hnz; (destruct (Z.eqb_spec (g_hourly_limit g) 0), (Z.eqb_spec (g_daily_limit g) 0); try done);
      eapply Z.le_trans; [apply Hsum|lia|apply Hsum|lia|apply Hsum|lia|apply Hsum|lia].
Qed.

Lemma claim_within_quota_witness :
  sum_units (reserved_since (demo_day + Minute - Hour) 7) (snd claim1) = 2 /\
  admitted demo_repo (demo_world (demo_day + Minute) 1000) demo_db job1 (snd claim1).
Proof.
  split; [vm_compute; reflexivity|].
  apply (claim_within_quota demo_repo (demo_world (demo_day + Minute) 1000) demo_db job1 (snd claim1)).
  change (claim1 = (inr job1, snd claim1)). vm_compute. reflexivity.
Defined.
