(* ===== verification/System.v ===== *)
(** * The delivery system as a whole

    Workers, sweeps, operators and submitters act on one database in any
    order.  A [State] is the database and what each worker has done with the
    job it claimed; a [step] is one transaction of one actor (committed, rolled
    back or with its answer lost), or one move of a worker outside the
    database.  A worker that stops, for whatever reason, just takes no further
    steps. *)

From S2P Require Import Prelude GoText Delivery SmtpClient Provider Database Suppression Message Queue Worker QueueInv QueueOps MessageOps QueueClaim QueueFinish QueueRecover Demo QueueSpec.

Import Queue Worker.

(** ** States and steps *)

(** Where a worker is with its job: before the fence answered, allowed to
    transmit, transmitting the message, or done with a result. *)
Inductive Phase := Preparing | Cleared | Transmitting | Reported (out : Result).

Record State := MkState { st_db : DB; st_workers : gmap UUID (Job * Phase) }.

(** The transactions of the other actors: no worker is waiting for the result. *)
Inductive service : forall {A : Type}, M (TxEnd A) -> Prop :=
| service_expired : service SweepExpired
| service_suppressed : service SweepSuppressed
| service_recover : service Recover
| service_schedule repo : service (schedule repo)
| service_resolve v : service (ResolveUnknown v)
| service_enqueue s : service (Message.Enqueue s)
| service_cancel identity id : service (Message.CancelPending identity id)
| service_submit s apiKey keyHash fingerprint : service (Message.enqueueIdempotent s apiKey keyHash fingerprint None)
| service_publish s apiKey keyHash fingerprint saved now :
    service (Message.enqueueIdempotent s apiKey keyHash fingerprint (Some (Message.publish_archive saved now)))
| service_suppress email category actor reason expiresAt :
    service (Suppression.Add email category actor reason expiresAt)
| service_release id actor reason : service (Suppression.Release id actor reason)
| service_record j e : service (Record_ j e).

(** Other programs change other tables, add events that resolve nothing and
    submissions, and columns of messages that the queue does not decide on;
    events and submissions are append-only (triggers of [migrations/]). *)
Record elsewhere (db db' : DB) : Prop := {
  else_recipients : recipients db' = recipients db;
  else_attempts : delivery_attempts db' = delivery_attempts db;
  else_rows : attempt_recipients db' = attempt_recipients db;
  else_messages : forall mid m, messages db !! mid = Some m -> exists m', messages db' !! mid = Some m' /\
    m_status m' = m_status m /\ m_locked_by m' = m_locked_by m /\ m_attempt_count m' = m_attempt_count m;
  else_events : events db ⊆ events db' /\ forall eid e, events db' !! eid = Some e ->
    events db !! eid = None -> e_event_type e <> "UNKNOWN_RESOLVED"%string;
  else_submissions : api_submission_ledger db ⊆ api_submission_ledger db' }.

Definition transmitted (out : Result) : Prop := o_DataStartedAt out <> 0.

(** A result the worker of [j] may come to, on any network whose clock runs. *)
Definition report (j : Job) (out : Result) : Prop :=
  exists MaxBytes Domain secret io file now n, (forall raw k, n_now (n raw) k <> 0) /\
    out = deliver MaxBytes Domain j secret io file now n.

Definition claimed (r : DBErr + Job) (ws : gmap UUID (Job * Phase)) : gmap UUID (Job * Phase) :=
  match r with inr j => <[j_AttemptID j := (j, Preparing)]> ws | inl _ => ws end.
Definition cleared (j : Job) (r : DBErr + unit) (ws : gmap UUID (Job * Phase)) : gmap UUID (Job * Phase) :=
  match r with inr _ => <[j_AttemptID j := (j, Cleared)]> ws | inl _ => ws end.

Inductive step : State -> State -> Prop :=
| step_service A (body : M (TxEnd A)) w db ws r db' :
    service body -> transact w body db = (r, db') -> step (MkState db ws) (MkState db' ws)
| step_elsewhere db ws db' : elsewhere db db' -> step (MkState db ws) (MkState db' ws)
| step_claim repo w db ws r db' :
    transact w (claim repo) db = (r, db') -> step (MkState db ws) (MkState db' (claimed r ws))
| step_arm w db ws aid j r db' :
    ws !! aid = Some (j, Preparing) -> transact w (ArmData j) db = (r, db') ->
    step (MkState db ws) (MkState db' (cleared j r ws))
| step_transmit db ws aid j :
    ws !! aid = Some (j, Cleared) -> step (MkState db ws) (MkState db (<[aid := (j, Transmitting)]> ws))
| step_report db ws aid j ph out :
    ws !! aid = Some (j, ph) -> report j out ->
    match ph with Preparing | Cleared => ~ transmitted out | Transmitting => transmitted out | Reported _ => False end ->
    step (MkState db ws) (MkState db (<[aid := (j, Reported out)]> ws))
| step_finish repo w db ws aid j out r db' :
    ws !! aid = Some (j, Reported out) -> transact w (Finish repo j out) db = (r, db') ->
    step (MkState db ws) (MkState db' ws).

(** No attempts yet, no workers. *)
Definition initial (s : State) : Prop :=
  st_workers s = ∅ /\ delivery_attempts (st_db s) = ∅ /\ attempt_recipients (st_db s) = ∅ /\
  forall rid r, recipients (st_db s) !! rid = Some r -> r_retry_at r = None.

Inductive reachable : State -> Prop :=
| reachable_start s : initial s -> reachable s
| reachable_step s s' : reachable s -> step s s' -> reachable s'.

(** ** Evidence that a recipient did not get the message *)

(** What the server said about [rid] in [out]: its RCPT was rejected, or the
    message was, or the message was never transmitted. *)
Definition refused (out : Result) (rid : UUID) : Prop :=
  exists rc, rc ∈ o_Recipients out /\ rr_ID rc = rid /\ definite rc /\
    (~ transmitted out \/ rr_Stage rc = "RCPT_REJECTED"%string \/
     (o_FinalResponseAt out <> 0 /\ 400 <= o_Code out < 600)).

Definition refusals (ws : gmap UUID (Job * Phase)) : Refusals := fun aid rid =>
  exists j out, ws !! aid = Some (j, Reported out) /\ refused out rid.

Lemma inv_refusals (R R' : Refusals) exS exR db :
  (forall aid rid, @refusal R aid rid -> @refusal R' aid rid) ->
  @Inv R exS exR db -> @Inv R' exS exR db.
Proof. intros Hsub []. split; eauto. Qed.

(** ** Every step keeps the invariant and the history *)

Lemma evolves_trans db1 db2 db3 : evolves db1 db2 -> evolves db2 db3 -> evolves db1 db3.
Proof.
  intros [A1 X1 N1 R1 E1 C1] [A2 X2 N2 R2 E2 C2]. split.
  - intros aid a Ha. destruct (A1 aid a Ha) as (b & Hb & S1 & S2 & S3 & S4 & S5 & S6 & S7).
    destruct (A2 aid b Hb) as (c & Hc & T1 & T2 & T3 & T4 & T5 & T6 & T7). exists c. split; [done|].
    repeat (split; [congruence|]). split.
    + intros H. rewrite T6; [auto|]. by rewrite S6.
    + intros H. rewrite T7; [auto|]. unfold in_progress. by rewrite S7.
  - intros aid rid x Hx. destruct (X1 aid rid x Hx) as (y & Hy & K1).
    destruct (X2 aid rid y Hy) as (z & Hz & K2). exists z. split; [done|]. intros a Ha Hp.
    destruct (K1 a Ha Hp) as [<- <-]. destruct (A1 aid a Ha) as (b & Hb & _ & _ & _ & _ & _ & _ & S7).
    apply (K2 b Hb). unfold in_progress. by rewrite S7.
  - intros aid rid z Hz Hno. destruct (attempt_recipients db2 !! (aid, rid)) as [y|] eqn:Hy; [eauto|].
    pose proof (N2 aid rid z Hz Hy) as Hna. destruct (delivery_attempts db1 !! aid) as [a|] eqn:Ha; [|done].
    destruct (A1 aid a Ha) as (b & Hb & _). congruence.
  - intros rid r Hr. destruct (R1 rid r Hr) as (s & Hs & S1 & S2).
    destruct (R2 rid s Hs) as (u & Hu & T1 & T2). exists u. split; [done|]. split; congruence.
  - by etrans.
  - auto.
Qed.

Section Steps.
  Context {Rf : Refusals}.

Lemma elsewhere_ok db db' : Consistent db -> elsewhere db db' -> Held db none none db'.
Proof.
  intros HI [Hr Ha Hx Hm [He _] _].
  assert (Hres : forall aid rid, ~ resolved db' aid rid -> ~ resolved db aid rid)
    by (intros aid rid Hn H; apply Hn; by eapply resolved_mono).
  destruct HI as [I1 I2 I3 I4 I5 I6 I7 I8 I9 I10 I11]. split.
  - split; rewrite ?Hr, ?Ha, ?Hx; eauto.
    + intros aid a Hl. destruct (I2 aid a Hl) as (m & Hm0 & Hn). destruct (Hm _ _ Hm0) as (m' & Hm' & _ & _ & E).
      exists m'. split; [done|]. by rewrite E.
    + intros aid a Hl Hp. destruct (I4 aid a Hl Hp) as (m & Hm0 & Hs & Hb & Hn).
      destruct (Hm _ _ Hm0) as (m' & Hm' & E1 & E2 & E3). exists m'. by rewrite E1, E2, E3.
  - destruct (evolves_refl db). split; rewrite ?Hr, ?Ha, ?Hx; auto.
    intros mid. apply shut_keep; [|unfold idle; by rewrite Ha|rewrite Hr; eauto].
    intros m Hm0. destruct (Hm _ _ Hm0) as (m' & Hm' & _). eauto.
Qed.

Lemma audit_ok action actor data (P : DB -> Prop) :
  (forall db rows, P db -> P (db <| maintenance_audit := rows |>)) ->
  triple P (Suppression.audit action actor data) (fun _ => P).
Proof.
  intros HP. unfold Suppression.audit. step (fun (_ : UUID) => P); [apply triple_fresh|].
  apply triple_stmt. intros t db [] db' Hdb H. destruct (insert_row _ _ _) as [rows|]; [|done].
  injection H as <-. by apply HP.
Qed.

Lemma Add_ok db0 email category actor reason expiresAt :
  Consistent db0 ->
  triple (fun db => db = db0) (Suppression.Add email category actor reason expiresAt)
    (fun _ => Held db0 none none).
Proof.
  intros HI. apply (triple_conseq (Held db0 none none) _ _ (fun _ => Held db0 none none));
    [|intros db ->; by apply held_start|done].
  unfold Suppression.Add. set (H0 := Held db0 none none).
  destruct (negb _); [apply triple_raise|]. destruct (negb _); [apply triple_raise|].
  step (fun (_ : unit) => H0); [by apply triple_query|].
  step (fun (_ : bool) => H0); [by apply triple_query|].
  step (fun (_ : unit) => H0); [case_match; [by apply triple_return|apply triple_raise]|].
  step (fun (_ : bool) => H0); [by apply triple_query|].
  step (fun (_ : unit) => H0); [case_match; [apply triple_raise|by apply triple_return]|].
  step (fun (_ : unit) => H0);
    [apply triple_exec; intros t db HH; eapply held_frame; [..|exact HH]; done|].
  step (fun (_ : UUID) => H0); [apply triple_fresh|].
  step (fun (_ : unit) => H0).
  { apply triple_stmt. intros t db [] db' HH H. destruct (Suppression.email_free email db); [|done].
    destruct (insert_row _ _ _) as [rows|]; [|done]. injection H as <-. eapply held_frame; [..|exact HH]; done. }
  step (fun (_ : unit) => H0); [|by apply triple_return].
  apply audit_ok. intros db rows HH. eapply held_frame; [..|exact HH]; done.
Qed.

Lemma Release_ok db0 id actor reason :
  Consistent db0 ->
  triple (fun db => db = db0) (Suppression.Release id actor reason) (fun _ => Held db0 none none).
Proof.
  intros HI. apply (triple_conseq (Held db0 none none) _ _ (fun _ => Held db0 none none));
    [|intros db ->; by apply held_start|done].
  unfold Suppression.Release. set (H0 := Held db0 none none). destruct (negb _); [apply triple_raise|].
  step (fun (_ : unit) => H0); [by apply triple_query|].
  step (fun (_ : Z) => H0).
  { apply triple_stmt. intros t db n db' HH H. injection H as <- <-. eapply held_frame; [..|exact HH]; done. }
  step (fun (_ : unit) => H0); [case_match; [by apply triple_return|apply triple_raise]|].
  step (fun (_ : unit) => H0); [|by apply triple_return].
  apply audit_ok. intros db rows HH. eapply held_frame; [..|exact HH]; done.
Qed.

Lemma service_ok A (body : M (TxEnd A)) db0 :
  Consistent db0 -> service body -> triple (fun db => db = db0) body (fun _ => Held db0 none none).
Proof.
  intros HI [].
  - by apply SweepExpired_ok.
  - by apply SweepSuppressed_ok.
  - by apply Recover_ok.
  - by apply schedule_ok.
  - by apply ResolveUnknown_ok.
  - by apply Enqueue_ok.
  - by apply CancelPending_ok.
  - by apply enqueueIdempotent_ok.
  - apply enqueueIdempotent_ok; [done|]. intros save s' Hs. injection Hs as <-. unfold Message.publish_archive.
    destruct saved as [[[path size] sha]|]; [|done]. intros H. by injection H as <-.
  - by apply Add_ok.
  - by apply Release_ok.
  - by apply Record_ok.
Qed.

(** A transaction that keeps the invariant from its start keeps it whatever
    becomes of it. *)
Lemma transact_held A w (body : M (TxEnd A)) db r db' (Q : TxEnd A -> DB -> Prop) :
  Consistent db -> triple (fun d => d = db) body Q -> (forall e d, Q e d -> Held db none none d) ->
  transact w body db = (r, db') -> Held db none none db'.
Proof.
  intros HI Ht HQ Hrun. destruct (transact_triple _ _ _ _ _ _ _ Ht eq_refl Hrun) as [->|(r' & HH & _)];
    [by apply held_start|eauto].
Qed.

End Steps.

(** ** The invariant of reachable states *)

(** The worker was allowed to transmit. *)
Definition authorised (ph : Phase) : Prop :=
  match ph with Preparing => False | Cleared | Transmitting => True | Reported out => transmitted out end.

Definition armed (db : DB) (aid : UUID) : Prop :=
  exists a, delivery_attempts db !! aid = Some a /\ a_data_armed_at a <> None.

Record Good (db : DB) (ws : gmap UUID (Job * Phase)) : Prop := {
  g_inv : @Inv (refusals ws) none none db;
  g_job : forall aid j ph, ws !! aid = Some (j, ph) -> j_AttemptID j = aid /\ job_ok db j;
  g_armed : forall aid j ph, ws !! aid = Some (j, ph) -> authorised ph -> armed db aid;
  g_report : forall aid j out, ws !! aid = Some (j, Reported out) ->
    sender_result (map rc_ID (j_Recipients j)) out }.

(** A granted fence is durable. *)
Lemma ArmData_armed w j db db' : transact w (ArmData j) db = (inr tt, db') -> armed db' (j_AttemptID j).
Proof.
  intros Hrun. destruct (wtriple_value _ _ _ _ _ _ _ (ArmData_granted w j db) eq_refl Hrun) as [HG|(d & [] & _)].
  destruct HG as (a & _ & _ & _ & t3 & eid & at_ & _ & _ & _ & _ & _ & _ & _ & _ & _ & _ & ->).
  exists (a <| a_data_armed_at := Some t3 |>). simpl. by rewrite lookup_insert_eq.
Qed.

Lemma armed_evolves db db' aid : evolves db db' -> armed db aid -> armed db' aid.
Proof.
  intros HE (a & Ha & Harm). destruct (ev_attempt _ _ HE _ _ Ha) as (b & Hb & _ & _ & _ & _ & _ & E & _).
  exists b. split; [done|]. by rewrite E.
Qed.

Lemma good_db db db' ws : Good db ws -> @Held (refusals ws) db none none db' -> Good db' ws.
Proof.
  intros [HI HJ HA HR] [HI' HE]. split; [done| | |done].
  - intros aid j ph Hw. destruct (HJ aid j ph Hw) as [Hid Hok]. split; [done|]. by eapply job_ok_evolves.
  - intros aid j ph Hw Hau. eapply armed_evolves; eauto.
Qed.

(** A worker moves on without losing a report. *)
Lemma good_phase db ws aid j ph ph' :
  Good db ws -> ws !! aid = Some (j, ph) -> (forall out, ph <> Reported out) ->
  (authorised ph' -> armed db aid) ->
  (forall out, ph' = Reported out -> sender_result (map rc_ID (j_Recipients j)) out) ->
  Good db (<[aid := (j, ph')]> ws).
Proof.
  intros [HI HJ HA HR] Hw Hno Hau Hrep. split.
  - eapply inv_refusals; [|exact HI]. intros k rid (j0 & out & Hk & Hout). exists j0, out. split; [|done].
    rewrite lookup_insert_ne; [done|]. intros ->. rewrite Hw in Hk. injection Hk as _ E. by destruct (Hno out).
  - intros k j0 ph0. rewrite lookup_insert_Some. intros [[<- E]|[_ Hk]]; [|eauto]. injection E as <- <-. eauto.
  - intros k j0 ph0. rewrite lookup_insert_Some. intros [[<- E]|[_ Hk]]; [|eauto]. injection E as <- <-. done.
  - intros k j0 out. rewrite lookup_insert_Some. intros [[<- E]|[_ Hk]]; [|eauto]. injection E as <- E. eauto.
Qed.

Lemma refused_of ids out rc :
  sender_result ids out -> rc ∈ o_Recipients out ->
  rr_Status rc = TEMP_FAILED \/ rr_Status rc = PERM_FAILED -> refused out (rr_ID rc).
Proof.
  intros Hout Hin Hst. exists rc. split; [done|]. split; [done|].
  destruct (decide (o_DataStartedAt out = 0)) as [Hd|Hd].
  - destruct (sr_before _ _ Hout Hd) as (_ & _ & Hall). rewrite Forall_forall in Hall.
    split; [by apply Hall|]. left. unfold transmitted. by intros [].
  - pose proof (sr_after _ _ Hout Hd) as Hall. rewrite Forall_forall in Hall.
    specialize (Hall rc Hin). unfold after_data in Hall.
    destruct Hst as [E|E]; rewrite E in Hall; destruct Hall as [Hdef [?|(? & ? & ?)]]; split; auto; right; auto.
Qed.

Lemma good_claim db ws db' repo w r :
  Good db ws -> transact w (claim repo) db = (r, db') -> Good db' (claimed r ws).
Proof.
  intros HG Hrun. pose proof (g_inv _ _ HG) as HI. pose proof (@claim_ok (refusals ws) repo db HI) as Ht.
  assert (HG' : Good db' ws).
  { eapply good_db; [exact HG|]. eapply (@transact_held (refusals ws)); [exact HI|exact Ht| |exact Hrun].
    by intros e d [H _]. }
  destruct r as [e|j]; [exact HG'|]. simpl.
  destruct (transact_value _ _ _ _ _ _ _ Ht eq_refl Hrun) as [(_ & Hok & Hnew & _)|(d & [_ []] & _)].
  assert (Hno : ws !! j_AttemptID j = None).
  { destruct (ws !! j_AttemptID j) as [[j0 ph0]|] eqn:E; [|done].
    destruct (g_job _ _ HG _ _ _ E) as [Hid (a & Ha & _)]. rewrite Hid in Ha. congruence. }
  destruct HG' as [HI' HJ HA HR]. split.
  - eapply inv_refusals; [|exact HI']. intros k rid (j0 & out & Hk & Hout). exists j0, out. split; [|done].
    rewrite lookup_insert_ne; [done|]. intros <-. congruence.
  - intros k j0 ph0. rewrite lookup_insert_Some. intros [[<- E]|[_ Hk]]; [|eauto]. by injection E as <- <-.
  - intros k j0 ph0. rewrite lookup_insert_Some. intros [[<- E]|[_ Hk]]; [|eauto]. by injection E as <- <-.
  - intros k j0 out. rewrite lookup_insert_Some. intros [[<- E]|[_ Hk]]; [|eauto]. by injection E as <- E.
Qed.

Lemma good_step s s' :
  Good (st_db s) (st_workers s) -> step s s' -> Good (st_db s') (st_workers s') /\ evolves (st_db s) (st_db s').
Proof.
  intros HG Hstep. destruct Hstep as [A body w db ws r db' Hs Hrun|db ws db' He|repo w db ws r db' Hrun|
    w db ws aid j r db' Hw Hrun|db ws aid j Hw|db ws aid j ph out Hw Hrep Hph|repo w db ws aid j out r db' Hw Hrun];
    simpl in *; pose proof (g_inv _ _ HG) as HI.
  - assert (HH : @Held (refusals ws) db none none db')
      by (eapply (@transact_held (refusals ws)); [exact HI|by apply (@service_ok (refusals ws))|done|exact Hrun]).
    split; [by eapply good_db|apply HH].
  - pose proof (@elsewhere_ok (refusals ws) db db' HI He) as HH. split; [by eapply good_db|apply HH].
  - split; [by eapply good_claim|].
    assert (HH : @Held (refusals ws) db none none db')
      by (eapply (@transact_held (refusals ws)); [exact HI|by apply (@claim_ok (refusals ws))|by intros e d [H _]|exact Hrun]).
    apply HH.
  - assert (HH : @Held (refusals ws) db none none db')
      by (eapply (@transact_held (refusals ws)); [exact HI|by apply (@ArmData_ok (refusals ws))|done|exact Hrun]).
    split; [|apply HH]. pose proof (good_db _ _ _ HG HH) as HG'.
    destruct r as [e|[]]; [exact HG'|]. destruct (g_job _ _ HG _ _ _ Hw) as [Hid _]. simpl. rewrite Hid.
    apply (good_phase _ _ _ _ Preparing); try done. intros _.
    rewrite <- Hid. by eapply ArmData_armed.
  - split; [|apply evolves_refl]. apply (good_phase _ _ _ _ Cleared); try done.
    intros _. by eapply (g_armed _ _ HG).
  - split; [|apply evolves_refl]. apply (good_phase _ _ _ _ ph); try done.
    + intros out' ->. done.
    + simpl. intros Ht. eapply (g_armed _ _ HG); [exact Hw|]. by destruct ph.
    + intros out' E. injection E as <-. destruct Hrep as (? & ? & ? & ? & ? & ? & ? & Hnow & ->).
      by apply deliver_contract.
  - assert (HH : @Held (refusals ws) db none none db').
    { destruct (g_job _ _ HG _ _ _ Hw) as [Hid Hok]. pose proof (g_report _ _ HG _ _ _ Hw) as Hout.
      eapply (@transact_held (refusals ws)); [exact HI|apply (@Finish_ok (refusals ws)); try done|done|exact Hrun].
      intros rc Hin Hst. exists j, out. rewrite Hid. split; [done|]. by eapply refused_of. }
    split; [by eapply good_db|apply HH].
Qed.

Lemma good_initial s : initial s -> Good (st_db s) (st_workers s).
Proof.
  intros (Hw & Ha & Hx & Hr). rewrite Hw. split; try (intros aid j ph H; by rewrite lookup_empty in H).
  split; rewrite ?Ha, ?Hx; try (intros ? ? ? ? ? ? H; by rewrite lookup_empty in H);
    try (intros ? ? ? ? H; by rewrite lookup_empty in H); try (intros ? ? ? H; by rewrite lookup_empty in H);
    try (intros ? ? H; by rewrite lookup_empty in H).
  - intros ? ? ? ? ? H. by rewrite lookup_empty in H.
  - intros rid r H Hn. by destruct Hn; eapply Hr.
  - intros ? ? ? ? ? ? ? H. by rewrite lookup_empty in H.
Qed.

Lemma good_reachable s : reachable s -> Good (st_db s) (st_workers s).
Proof. induction 1 as [s Hs|s s' _ IH Hst]; [by apply good_initial|by apply (good_step s s')]. Qed.

Lemma run_good s s' : reachable s -> rtc step s s' -> reachable s' /\ evolves (st_db s) (st_db s').
Proof.
  intros Hr Hs. induction Hs as [s|s s1 s2 H1 _ IH]; [split; [done|apply evolves_refl]|].
  destruct IH as [Hr2 HE]; [by eapply reachable_step|]. split; [done|]. eapply evolves_trans; [|exact HE].
  by apply (good_step s s1); [apply good_reachable|].
Qed.

(** A recipient of an armed attempt is pending only on evidence. *)
Lemma pending_evidence db ws aid rid x r :
  Good db ws -> armed db aid -> attempt_recipients db !! (aid, rid) = Some x ->
  recipients db !! rid = Some r -> one_of (r_status r) [QUEUED; TEMP_FAILED] = true ->
  resolved db aid rid \/ exists j out, ws !! aid = Some (j, Reported out) /\ refused out rid.
Proof.
  intros [HI _ _ _] (a & Ha & Harm) Hx Hrow Hst.
  assert (Hnp : ~ in_progress a) by (intros Hp; by eapply (@pending_free (refusals ws))).
  pose proof (inv_settled _ _ _ HI _ _ _ _ Ha Hnp (fun H => H) Hx) as Hset.
  assert (Hcases : hot x \/ (ar_status x = TEMP_FAILED \/ ar_status x = PERM_FAILED))
    by (unfold settled in Hset; unfold hot; set_solver).
  destruct Hcases as [Hh|Hf]; [left|right; exact (inv_armed _ _ _ HI _ _ _ _ Ha Harm Hx Hf)].
  destruct (decide (resolved db aid rid)) as [|Hn]; [done|exfalso].
  eapply (inv_hot _ _ _ HI); eauto. apply one_of_true in Hst. unfold live_status. set_solver.
Qed.

(** ** What holds of every run *)

(** The worker began to transmit the message. *)
Definition begun (ph : Phase) : Prop :=
  match ph with Transmitting => True | Reported out => transmitted out | _ => False end.

(** The server's own words about a recipient of a transmitted message. *)
Definition rejected (out : Result) (rid : UUID) : Prop :=
  exists rc, rc ∈ o_Recipients out /\ rr_ID rc = rid /\ definite rc /\
    (rr_Stage rc = "RCPT_REJECTED"%string \/ (o_FinalResponseAt out <> 0 /\ 400 <= o_Code out < 600)).

(** C1. No message is sent twice on the queue's own account.  In every run of
    workers, sweeps, recovery, scheduling, submissions, cancellations and
    operators, with crashes, lost leases and lost commit answers: when a claim
    hands out a recipient that an earlier attempt transmitted the message to,
    then the server rejected that recipient or the whole message in that
    attempt, and the worker reported so, or an operator resolved the attempt. *)
Theorem claim_never_resends s repo w j db' :
  reachable s -> transact w (claim repo) (st_db s) = (inr j, db') ->
  forall rid aid j0 ph x, rid ∈ map rc_ID (j_Recipients j) ->
  st_workers s !! aid = Some (j0, ph) -> begun ph ->
  attempt_recipients (st_db s) !! (aid, rid) = Some x ->
  resolved (st_db s) aid rid \/ exists out, ph = Reported out /\ rejected out rid.
Proof.
  intros Hr Hrun rid aid j0 ph x Hrid Hw Hb Hx. pose proof (good_reachable s Hr) as HG.
  pose proof (@claim_ok (refusals (st_workers s)) repo (st_db s) (g_inv _ _ HG)) as Ht.
  destruct (transact_value _ _ _ _ _ _ _ Ht eq_refl Hrun) as [(_ & _ & _ & Hq)|(d & [_ []] & _)].
  destruct (Hq rid Hrid) as (r & Hrow & _ & Hst).
  assert (Harm : armed (st_db s) aid) by (apply (g_armed _ _ HG aid j0 ph Hw); by destruct ph).
  destruct (pending_evidence _ _ aid rid x r HG Harm Hx Hrow) as [|(j1 & out & Hw' & rc & H1 & H2 & H3 & H4)];
    [by rewrite Hst|by left|right].
  rewrite Hw in Hw'. injection Hw' as <- ->. exists out. split; [done|]. exists rc.
  repeat (split; [done|]). destruct H4 as [H4|H4]; [by destruct H4|done].
Qed.

(** C2. The database is consistent in every reachable state: a message has at
    most one attempt in progress, which holds its lock; every recipient of
    that attempt is being sent to, or was suppressed by the attempt's own
    fence; and a recipient that some attempt may have delivered to is never
    queued, sending or waiting for a retry, unless an operator resolved that
    attempt. *)
Theorem reachable_consistent s :
  reachable s ->
  (forall aid aid' a a', delivery_attempts (st_db s) !! aid = Some a ->
     delivery_attempts (st_db s) !! aid' = Some a' -> in_progress a -> in_progress a' ->
     a_message_id a = a_message_id a' -> aid = aid') /\
  (forall aid a, delivery_attempts (st_db s) !! aid = Some a -> in_progress a ->
     exists m, messages (st_db s) !! a_message_id a = Some m /\ m_status m = SENDING /\
               m_locked_by m = Some (a_claim_token a)) /\
  (forall aid rid a x r, delivery_attempts (st_db s) !! aid = Some a -> in_progress a ->
     attempt_recipients (st_db s) !! (aid, rid) = Some x -> recipients (st_db s) !! rid = Some r ->
     r_status r = SENDING \/ (r_status r = SUPPRESSED /\ a_suppression_blocked_at a <> None)) /\
  (forall aid rid x r, attempt_recipients (st_db s) !! (aid, rid) = Some x -> hot x ->
     recipients (st_db s) !! rid = Some r -> live_status (r_status r) -> resolved (st_db s) aid rid).
Proof.
  intros Hr. destruct (good_reachable s Hr) as [HI _ _ _]. split; [|split; [|split]].
  - intros aid aid' a a'. apply (@inv_one (refusals (st_workers s)) none none _ _ _ _ _ HI).
  - intros aid a Ha Hp. destruct (inv_lock _ _ _ HI _ _ Ha Hp) as (m & ? & ? & ? & _). eauto.
  - intros aid rid a x r Ha Hp Hx Hrow.
    destruct (inv_part _ _ _ HI _ _ _ _ _ Ha Hp Hx Hrow) as [|[? [|[]]]]; auto.
  - intros aid rid x r Hx Hh Hrow Hl. destruct (decide (resolved (st_db s) aid rid)) as [|Hn]; [done|].
    exfalso. by eapply (inv_hot _ _ _ HI); eauto.
Qed.

(** C3. History is immutable: along every run no attempt, no outcome and no
    ledger entry disappears; an attempt keeps its message, provider, number
    and token, an armed DATA fence stays armed, and once an attempt has ended
    neither its result nor the outcome or decision of any of its recipients
    changes again. *)
Theorem history_immutable s s' :
  reachable s -> rtc step s s' ->
  (forall aid a, delivery_attempts (st_db s) !! aid = Some a ->
     exists a', delivery_attempts (st_db s') !! aid = Some a' /\
       a_message_id a' = a_message_id a /\ a_provider_id a' = a_provider_id a /\
       a_attempt_number a' = a_attempt_number a /\ a_claim_token a' = a_claim_token a /\
       (a_data_armed_at a <> None -> a_data_armed_at a' = a_data_armed_at a) /\
       (a_result a <> IN_PROGRESS -> a_result a' = a_result a)) /\
  (forall aid rid a x, delivery_attempts (st_db s) !! aid = Some a -> a_result a <> IN_PROGRESS ->
     attempt_recipients (st_db s) !! (aid, rid) = Some x ->
     exists x', attempt_recipients (st_db s') !! (aid, rid) = Some x' /\
                ar_status x' = ar_status x /\ ar_decision x' = ar_decision x) /\
  events (st_db s) ⊆ events (st_db s').
Proof.
  intros Hr Hs. destruct (run_good s s' Hr Hs) as [_ [A X _ _ E _]]. split; [|split; [|done]].
  - intros aid a Ha. destruct (A aid a Ha) as (a' & Ha' & ? & ? & ? & ? & ? & ? & ?). exists a'. auto 10.
  - intros aid rid a x Ha Hp Hx. destruct (X aid rid x Hx) as (x' & Hx' & K). exists x'.
    split; [done|]. by apply (K a Ha).
Qed.

(** C4. The DATA fence.  [ArmData] succeeds only when, within its
    transaction, the worker still held a live lease on a message being sent,
    its attempt was in progress and neither armed nor blocked before, no
    recipient being sent to was under an active suppression, and the message
    had not expired at the very instant that is recorded as [data_armed_at].
    Success sets that column of this attempt and adds one DATA_ARMED event, and
    changes nothing else in the database.  The fence is granted at most once
    per attempt: in no state that any run reaches afterwards does it succeed
    again. *)
Theorem arm_data_grants w j db db' :
  transact w (ArmData j) db = (inr tt, db') ->
  granted w j db db' /\
  (forall rid r, recipients db !! rid = Some r -> r_message_id r = j_ID j -> r_status r = SENDING ->
     exists k, Suppression.ActiveSQL (at_step w k) db (r_address r) = false) /\
  (forall ws s w', reachable (MkState db' ws) -> rtc step (MkState db' ws) s -> fst (transact w' (ArmData j) (st_db s)) <> inr tt).
Proof.
  intros Hrun. destruct (wtriple_value _ _ _ _ _ _ _ (ArmData_granted w j db) eq_refl Hrun) as [HG|(d & [] & _)].
  split; [exact HG|]. destruct HG as (a & m & t1 & k2 & t3 & eid & at_ & _ & _ & Hl & _ & _ & _ & Hh & _). split.
  - intros rid r Hr Hm Hs. exists k2. eapply hits_none; eauto. by rewrite Hs.
  - intros ws s w' Hreach Hruns E. destruct (transact w' (ArmData j) (st_db s)) as [r' db''] eqn:Hrun'. simpl in E. subst r'.
    destruct (wtriple_value _ _ _ _ _ _ _ (ArmData_granted w' j (st_db s)) eq_refl Hrun') as [HG'|(d & [] & _)].
    destruct HG' as (a' & _ & _ & _ & _ & _ & _ & _ & _ & Hl' & Hun & _). apply live_attempt_some in Hl' as (Hx & _).
    destruct (armed_evolves _ _ _ (proj2 (run_good _ _ Hreach Hruns)) (ArmData_armed _ _ _ _ Hrun)) as (b & Hb & Harm). congruence.
Qed.

(** What a granted fence means.  When [ArmData] succeeds for a worker, the
    permission is durable, and from then on, in every later state, the
    recovery of the lease can only mark the recipients unknown: the attempt
    stays armed, and its recipients are pending again only by an operator's
    resolution or after an outcome that the worker reported as a refusal. *)
Theorem armed_forever s s' aid j ph rid x r :
  reachable s -> st_workers s !! aid = Some (j, ph) -> authorised ph -> rtc step s s' ->
  attempt_recipients (st_db s') !! (aid, rid) = Some x -> recipients (st_db s') !! rid = Some r ->
  armed (st_db s') aid /\
  (one_of (r_status r) [QUEUED; TEMP_FAILED] = true -> resolved (st_db s') aid rid \/
     exists j' out, st_workers s' !! aid = Some (j', Reported out) /\ refused out rid).
Proof.
  intros Hr Hw Hau Hs Hx Hrow. destruct (run_good s s' Hr Hs) as [Hr' HE].
  assert (Harm : armed (st_db s') aid)
    by (eapply armed_evolves; [exact HE|]; by apply (g_armed _ _ (good_reachable s Hr) aid j ph)).
  split; [done|]. intros Hst. eapply pending_evidence; eauto. by apply good_reachable.
Qed.

(** ** The scenario of [Demo] as a run *)

Definition demo_start : State := MkState demo_db ∅.
Definition demo_workers (ph : Phase) : gmap UUID (Job * Phase) := <[j_AttemptID job1 := (job1, ph)]> ∅.
Definition demo_cleared : State := MkState (snd arm1) (demo_workers Cleared).
Definition demo_end : State := MkState (snd schedule2) (demo_workers (Reported (result1 later))).

Lemma demo_cleared_reachable : reachable demo_cleared.
Proof.
  assert (H0 : reachable demo_start).
  { apply reachable_start. split; [done|]. split; [done|]. split; [done|].
    assert (Hall : map_Forall (fun (_ : UUID) r => r_retry_at r = None) (recipients demo_db))
      by (apply (bool_decide_unpack (map_Forall _ _)); vm_compute; exact I).
    intros rid r Hr. by apply (Hall rid r). }
  assert (E1 : claimed (fst claim1) ∅ = demo_workers Preparing).
  { change (claimed (fst claim1) ∅ = <[j_AttemptID (job_of (fst claim1)) := (job_of (fst claim1), Preparing)]> ∅).
    destruct (fst claim1) eqn:E; [|done]. vm_compute in E. discriminate E. }
  assert (H1 : reachable (MkState (snd claim1) (demo_workers Preparing))).
  { rewrite <- E1. eapply reachable_step; [exact H0|]. eapply step_claim. apply surjective_pairing. }
  assert (E2 : cleared job1 (fst arm1) (demo_workers Preparing) = demo_workers Cleared).
  { destruct (fst arm1) eqn:E; [vm_compute in E; discriminate E|]. unfold cleared, demo_workers.
    by rewrite insert_insert_eq. }
  unfold demo_cleared. rewrite <- E2. eapply reachable_step; [exact H1|]. eapply step_arm.
  - unfold demo_workers. by rewrite lookup_insert_eq.
  - apply surjective_pairing.
Qed.

Lemma demo_run_end : rtc step demo_cleared demo_end.
Proof.
  assert (Hw : forall ph ph', <[j_AttemptID job1 := (job1, ph')]> (demo_workers ph) = demo_workers ph')
    by (intros; unfold demo_workers; by rewrite insert_insert_eq).
  assert (Hl : forall ph, demo_workers ph !! j_AttemptID job1 = Some (job1, ph))
    by (intros; unfold demo_workers; by rewrite lookup_insert_eq).
  apply rtc_l with (MkState (snd arm1) (demo_workers Transmitting)).
  { rewrite <- (Hw Cleared Transmitting). by apply step_transmit. }
  apply rtc_l with (MkState (snd arm1) (demo_workers (Reported (result1 later)))).
  { rewrite <- (Hw Transmitting (Reported (result1 later))). eapply step_report; [apply Hl| |vm_compute; discriminate].
    eexists _, _, _, _, _, _, _. split; [|reflexivity]. intros raw k. simpl.
    unfold demo_day, Minute, Hour, Minute, Second. lia. }
  apply rtc_l with (MkState (snd finish1) (demo_workers (Reported (result1 later)))).
  { apply (step_finish demo_repo (demo_world (demo_day + Minute + 3 * Second) 3000) (snd arm1) _
             (j_AttemptID job1) job1 (result1 later) (fst finish1)); [apply Hl|exact (surjective_pairing finish1)]. }
  apply rtc_once. unfold demo_end.
  apply (step_service _ (schedule demo_repo) (demo_world (demo_day + 2 * Hour) 4000) (snd finish1)
           (demo_workers (Reported (result1 later))) (fst schedule2) (snd schedule2) (service_schedule demo_repo)).
  exact (surjective_pairing schedule2).
Qed.

Lemma demo_end_reachable : reachable demo_end.
Proof. exact (proj1 (run_good demo_cleared demo_end demo_cleared_reachable demo_run_end)). Qed.

Lemma claim_job (p : (DBErr + Job) * DB) :
  match fst p with inr _ => true | inl _ => false end = true -> p = (inr (job_of (fst p)), snd p).
Proof. by destruct p as [[e|j] db]. Qed.

Lemma demo_second_claim :
  transact (demo_world (demo_day + 2 * Hour + Second) 5000) (claim demo_repo) (st_db demo_end) = (inr job2, snd claim2).
Proof. apply (claim_job claim2). vm_compute. reflexivity. Qed.

Lemma demo_unresolved : ~ resolved (st_db demo_end) (j_AttemptID job1) 1%N.
Proof. apply (bool_decide_unpack (~ resolved _ _ _)). vm_compute. exact I. Qed.

Lemma claim_never_resends_witness :
  j_AttemptID job2 <> j_AttemptID job1 /\
  exists out, Reported (result1 later) = Reported out /\ rejected out 1%N.
Proof.
  split; [vm_compute; discriminate|].
  destruct (claim_never_resends demo_end demo_repo _ job2 (snd claim2) demo_end_reachable demo_second_claim
              1%N (j_AttemptID job1) job1 (Reported (result1 later))
              (default (MkAttemptRecipient NoStatus None None None None None)
                 (attempt_recipients (st_db demo_end) !! (j_AttemptID job1, 1%N)))) as [Hres|Hrej].
  - apply one_of_true. vm_compute. reflexivity.
  - simpl. unfold demo_workers. by rewrite lookup_insert_eq.
  - vm_compute. discriminate.
  - vm_compute. reflexivity.
  - destruct (demo_unresolved Hres).
  - exact Hrej.
Defined.

Lemma reachable_consistent_witness :
  exists m, messages (st_db demo_cleared) !! j_ID job1 = Some m /\ m_status m = SENDING /\
            m_locked_by m = Some (j_Token job1).
Proof.
  destruct (reachable_consistent demo_cleared demo_cleared_reachable) as (_ & H & _).
  destruct (delivery_attempts (st_db demo_cleared) !! j_AttemptID job1) as [a|] eqn:Ha;
    [|vm_compute in Ha; discriminate Ha].
  destruct (H _ a Ha) as (m & Hm & Hs & Hl); [vm_compute in Ha; by injection Ha as <-|].
  exists m. vm_compute in Ha. injection Ha as <-. exact (conj Hm (conj Hs Hl)).
Defined.

Lemma history_immutable_witness :
  exists a', delivery_attempts (st_db demo_end) !! j_AttemptID job1 = Some a' /\
             a_data_armed_at a' <> None /\ a_result a' = TEMP_FAILED.
Proof.
  destruct (history_immutable demo_cleared demo_end demo_cleared_reachable demo_run_end) as (H & _ & _).
  destruct (delivery_attempts (st_db demo_cleared) !! j_AttemptID job1) as [a|] eqn:Ha;
    [|vm_compute in Ha; discriminate Ha].
  destruct (H _ a Ha) as (a' & Ha' & _ & _ & _ & _ & Harm & _). exists a'. split; [exact Ha'|].
  split; [rewrite Harm; vm_compute in Ha; injection Ha as <-; discriminate|].
  vm_compute in Ha'. by injection Ha' as <-.
Defined.

Lemma arm_data_grants_witness :
  granted (demo_world (demo_day + Minute + Second) 2000) job1 (snd claim1) (snd arm1) /\
  forall w', fst (transact w' (ArmData job1) (st_db demo_end)) <> inr tt.
Proof.
  destruct (arm_data_grants (demo_world (demo_day + Minute + Second) 2000) job1 (snd claim1) (snd arm1)) as (HG & _ & Honce).
  - change (arm1 = (inr tt, snd arm1)). vm_compute. reflexivity.
  - split; [exact HG|]. intros w'. exact (Honce _ _ w' demo_cleared_reachable demo_run_end).
Defined.

Lemma armed_forever_witness :
  armed (st_db demo_end) (j_AttemptID job1) /\
  exists j' out, st_workers demo_end !! j_AttemptID job1 = Some (j', Reported out) /\ refused out 1%N.
Proof.
  destruct (recipients (st_db demo_end) !! 1%N) as [r|] eqn:Hr; [|vm_compute in Hr; discriminate Hr].
  destruct (attempt_recipients (st_db demo_end) !! (j_AttemptID job1, 1%N)) as [x|] eqn:Hx;
    [|vm_compute in Hx; discriminate Hx].
  destruct (armed_forever demo_cleared demo_end (j_AttemptID job1) job1 Cleared 1%N x r) as [Ha Hp];
    [apply demo_cleared_reachable|simpl; unfold demo_workers; by rewrite lookup_insert_eq|exact I
    |apply demo_run_end|exact Hx|exact Hr|].
  split; [exact Ha|]. destruct Hp as [Hres|Hp]; [|destruct (demo_unresolved Hres)|exact Hp].
  vm_compute in Hr. by injection Hr as <-.
Defined.
