(* ===== verification/Frames.v ===== *)
(** * What the queue leaves alone

    No operation of the queue, of the sweeps, of the operator or of the
    suppression list touches the tables of the websites (keys, streams,
    submission ledger, admissions), the configuration of the providers, the
    notifications, the feedback, the records of the archives, or the columns of
    a message that say where its archive is. *)

From S2P Require Import Prelude GoText Delivery SmtpClient Provider Database Suppression Message Queue QueueOps.

Import Queue.

(** The tables that only administration and submission write. *)
Definition websites (db : DB) :=
  (api_keys db, api_submission_ledger db, api_submission_quota db, api_message_streams db,
   providers db, provider_quota_groups db).

(** Where the archive of a message is, and whether it is there. *)
Definition archive_columns (m : Message) : string * Z * string * string * option Time :=
  (m_eml_path m, m_eml_size m, m_eml_sha256 m, m_archive_state m, m_eml_purged_at m).
Definition archives (db : DB) : gmap UUID (string * Z * string * string * option Time) :=
  archive_columns <$> messages db.

(** The tables of the other components. *)
Definition other_tables (db : DB) :=
  (websites db, (webhook_endpoints db, webhook_delivery_log db),
   (feedback_reports db, feedback_reviews db, feedback_links db, feedback_link_reviews db),
   (feedback_imap_sources db, feedback_imap_receipts db, feedback_imap_alerts db),
   (archive_observations db, archive_retirements db, archive_reclaims db)).
Definition outside (db : DB) := (other_tables db, archives db).

Lemma outside_eq db db' : other_tables db' = other_tables db -> archives db' = archives db -> outside db' = outside db.
Proof. unfold outside. congruence. Qed.

Lemma columns_update p f (ms : gmap UUID Message) :
  (forall m, archive_columns (f m) = archive_columns m) -> archive_columns <$> update p f ms = archive_columns <$> ms.
Proof.
  intros Hf. apply map_eq. intros k. rewrite !lookup_fmap, lookup_update. destruct (ms !! k) as [m|]; [|done].
  simpl. by destruct (p k m); rewrite ?Hf.
Qed.

Lemma columns_insert k m m' (ms : gmap UUID Message) :
  ms !! k = Some m -> archive_columns m' = archive_columns m -> archive_columns <$> <[k := m']> ms = archive_columns <$> ms.
Proof. intros Hm E. rewrite fmap_insert, E. apply insert_id. by rewrite lookup_fmap, Hm. Qed.

(** ** Computations that leave a part of the database as it is *)

Definition preserves {V} (view : DB -> V) {A} (m : M A) : Prop :=
  forall v, triple (fun db => view db = v) m (fun _ db => view db = v).
Abbreviation framed := (preserves outside).

Create HintDb framed.

Section Preserves.
  Context {V : Type} (view : DB -> V).

Lemma preserves_ret {A} (a : A) : preserves view (mret a).
Proof. intros v. by apply triple_return. Qed.
Lemma preserves_raise {A} e : preserves view (raise (A := A) e).
Proof. intros v. apply triple_raise. Qed.
Lemma preserves_bind {A B} (m : M A) (f : A -> M B) :
  preserves view m -> (forall a, preserves view (f a)) -> preserves view (m ≫= f).
Proof. intros Hm Hf v. eapply triple_bind; [apply Hm|]. intros a. apply Hf. Qed.
Lemma preserves_stmt {A} (f : At -> DB -> option (A * DB)) :
  (forall t db a db', f t db = Some (a, db') -> view db' = view db) -> preserves view (stmt f).
Proof. intros Hf v. apply triple_stmt. intros t db a db' <- H. by eapply Hf. Qed.
Lemma preserves_exec f : (forall t db, view (f t db) = view db) -> preserves view (exec f).
Proof. intros Hf v. apply triple_exec. intros t db <-. apply Hf. Qed.
Lemma preserves_query {A} (f : At -> DB -> A) : preserves view (query f).
Proof. intros v. by apply triple_query. Qed.
Lemma preserves_query_row {A} (f : At -> DB -> option A) : preserves view (query_row f).
Proof. intros v. by apply triple_query_row. Qed.
Lemma preserves_fresh : preserves view fresh.
Proof. intros v. apply triple_fresh. Qed.
Lemma preserves_gotime : preserves view gotime.
Proof. intros v. apply triple_gotime. Qed.
Lemma preserves_forM {A} (l : list A) body : (forall x, preserves view (body x)) -> preserves view (forM l body).
Proof. intros H v. apply triple_loop. intros x _. apply H. Qed.

(** A new event, for a view that shows neither the ledger nor the outbox *)
Lemma preserves_record id e : (forall e outbox db, view (with_event id e outbox db) = view db) -> preserves view (record_event id e).
Proof. intros Hv v. apply triple_record. intros t db outbox <- _ _. apply Hv. Qed.

(** A transaction around such a body, whatever becomes of it. *)
Lemma preserves_transact {A} w (body : M (TxEnd A)) db r db' :
  preserves view body -> transact w body db = (r, db') -> view db' = view db.
Proof.
  intros Hb Hrun. by destruct (transact_triple _ _ _ _ _ _ _ (Hb (view db)) eq_refl Hrun) as [->|(r' & H & _)].
Qed.

(** A part of the part. *)
Lemma preserves_part {W A} (part : DB -> W) (m : M A) :
  (forall db db', view db' = view db -> part db' = part db) -> preserves view m -> preserves part m.
Proof.
  intros Hp Hm v. apply triple_from. intros db0 Hv. eapply triple_conseq; [apply (Hm (view db0))|by intros db ->|].
  intros a db H. by rewrite <- Hv, (Hp _ _ H).
Qed.

End Preserves.
#[export] Hint Resolve preserves_ret preserves_raise preserves_query preserves_query_row preserves_fresh preserves_gotime : framed.

Lemma framed_websites {A} (m : M A) : framed m -> preserves websites m.
Proof. apply preserves_part. intros db db' H. exact (f_equal (fun v => fst (fst (fst (fst (fst v))))) H). Qed.

(** One write: it changes none of the columns in view. *)
Ltac unseen :=
  first
    [ reflexivity
    | apply outside_eq; [reflexivity|];
      first [ reflexivity
            | apply columns_update; intros; repeat case_match; reflexivity
            | eapply columns_insert; [eassumption|reflexivity] ] ].

(** Walk through a body: only its writes are left to look at. *)
Ltac framed :=
  repeat first
    [ progress intros
    | solve [eauto with framed nocore]
    | apply preserves_bind
    | apply preserves_forM
    | apply preserves_exec; intros; repeat case_match; unseen
    | apply preserves_record; intros; unseen
    | apply preserves_stmt; let E := fresh "E" in intros ? ? ? ? E;
      repeat first [progress simplify_eq/= | progress simplify_option_eq | case_hyp E];
      repeat match goal with H : insert_event _ _ _ _ = Some _ |- _ => apply insert_event_some in H as (_ & ? & _ & ->) end; unseen
    | case_match ].

Lemma framed_event mid attempt kind rid at_ data : framed (event mid attempt kind rid at_ data).
Proof. unfold event. framed. Qed.
#[export] Hint Resolve framed_event : framed.

Lemma framed_refresh mid : framed (refresh mid).
Proof. unfold refresh. framed. Qed.
Lemma framed_set_message mid f :
  (forall m, archive_columns (f m) = archive_columns m) -> framed (set_message mid f).
Proof. intros Hf. apply preserves_exec. intros t db. apply outside_eq; [reflexivity|]. by apply columns_update. Qed.
#[export] Hint Extern 2 (preserves outside (set_message _ _)) =>
  apply framed_set_message; intros; repeat case_match; reflexivity : framed.
Lemma framed_set_attempt aid f : framed (set_attempt aid f).
Proof. unfold set_attempt. framed. Qed.
Lemma framed_set_recipient rid f : framed (set_recipient rid f).
Proof. unfold set_recipient. framed. Qed.
Lemma framed_set_attempt_recipient aid rid f : framed (set_attempt_recipient aid rid f).
Proof. unfold set_attempt_recipient. framed. Qed.
Lemma framed_set_health pid f : framed (set_health pid f).
Proof. unfold set_health. framed. Qed.
#[export] Hint Resolve framed_refresh framed_set_attempt framed_set_recipient
  framed_set_attempt_recipient framed_set_health : framed.

Lemma framed_applyExpiry mid attempt : framed (applyExpiry mid attempt).
Proof. unfold applyExpiry. framed. Qed.
Lemma framed_Lock : framed Suppression.Lock.
Proof. unfold Suppression.Lock. framed. Qed.
Lemma framed_Apply mid attempt sending : framed (Suppression.Apply mid attempt sending).
Proof. unfold Suppression.Apply. framed. Qed.
Lemma framed_audit action actor data : framed (Suppression.audit action actor data).
Proof. unfold Suppression.audit. framed. Qed.
#[export] Hint Resolve framed_applyExpiry framed_Lock framed_Apply framed_audit : framed.

Lemma framed_SweepExpired : framed SweepExpired.
Proof. unfold SweepExpired. framed. Qed.
Lemma framed_SweepSuppressed : framed SweepSuppressed.
Proof. unfold SweepSuppressed. framed. Qed.

Lemma framed_or_no_job {A} (o : option A) : framed (or_no_job o).
Proof. unfold or_no_job. framed. Qed.
#[export] Hint Resolve framed_or_no_job : framed.

Lemma framed_claim repo : framed (claim repo).
Proof.
  unfold claim, selectFair, admission, take_message, insert_attempt, take_recipients,
    insert_attempt_recipient, reserveControls, recordFailover. framed.
Qed.

Lemma framed_fence j live : framed (fence j live).
Proof. unfold fence. framed. Qed.
Lemma framed_recordEvent j e : framed (recordEvent j e).
Proof. unfold recordEvent. framed. Qed.
#[export] Hint Resolve framed_fence framed_recordEvent : framed.

Lemma framed_ArmData j : framed (ArmData j).
Proof. unfold ArmData. framed. Qed.
Lemma framed_Record j e : framed (Record_ j e).
Proof. unfold Record_. framed. Qed.

Lemma framed_decideRecipient repo j out rc : framed (decideRecipient repo j out rc).
Proof. unfold decideRecipient, retry_state. framed. Qed.
Lemma framed_finishSuppression j out rc : framed (finishSuppression j out rc).
Proof. unfold finishSuppression. framed. Qed.
Lemma framed_finishHealth repo j out : framed (finishHealth repo j out).
Proof. unfold finishHealth. framed. Qed.
#[export] Hint Resolve framed_decideRecipient framed_finishSuppression framed_finishHealth : framed.

Lemma framed_finish_recipients repo j out pb eb expected rcs :
  framed (finish_recipients repo j out pb eb expected rcs).
Proof.
  revert expected. induction rcs as [|rc rcs IH]; intros expected; simpl; [framed|].
  unfold finish_recipient. framed.
Qed.
#[export] Hint Resolve framed_finish_recipients : framed.

Lemma framed_Finish repo j out : framed (Finish repo j out).
Proof. unfold Finish. framed. Qed.

Lemma framed_Recover : framed Recover.
Proof. unfold Recover, recover_one, recoverProbe, expireRecovered. framed. Qed.

Lemma framed_schedule repo : framed (schedule repo).
Proof. unfold schedule, schedule_message, schedule_one. framed. Qed.

Lemma framed_ResolveUnknown v : framed (ResolveUnknown v).
Proof. unfold ResolveUnknown. framed. Qed.

Lemma framed_Add email category actor reason expiresAt : framed (Suppression.Add email category actor reason expiresAt).
Proof. unfold Suppression.Add. framed. Qed.
Lemma framed_Release id actor reason : framed (Suppression.Release id actor reason).
Proof. unfold Suppression.Release. framed. Qed.
