(* ===== verification/QueueRules.v ===== *)
(** * Whose turn it is, and what a message's status says

    The weighted round of message streams of [fairness.go], and the projection
    of a message's status from its recipients in [decisions.go]. *)

From S2P Require Import Prelude GoText Delivery SmtpClient Provider Database Suppression Queue QueueOps QueueClaim Demo QueueSpec Frames.

Import Queue.

(** ** The weighted round

    A round has one slot per unit of weight; a stream owns the slots from
    [first] on, and its distance from the cursor is the number of slots before
    its next one. *)

Definition owns (first wt slot : Z) : Prop := first <= slot < first + wt.

Section Distance.
  Context (total first wt : Z).
  Hypothesis Hfirst : 0 <= first.
  Hypothesis Hwt : 0 < wt.
  Hypothesis Hfit : first + wt <= total.

Lemma distance_least cursor :
  let d := lane_distance cursor first wt total in
  0 <= d < total /\ owns first wt ((cursor + d) mod total) /\
  forall e, 0 <= e < d -> ~ owns first wt ((cursor + e) mod total).
Proof.
  cbv zeta. unfold lane_distance. set (c := cursor mod total).
  assert (Hc : 0 <= c < total) by (apply Z.mod_pos_bound; lia).
  assert (Hshift : forall e, (cursor + e) mod total = (c + e) mod total)
    by (intros; unfold c; by rewrite Z.add_mod_idemp_l by lia).
  assert (Hmod : forall x, 0 <= x < 2 * total -> x mod total = if x <? total then x else x - total).
  { intros x Hx. destruct (Z.ltb_spec x total); [apply Z.mod_small; lia|].
    rewrite <- (Z.mod_small (x - total) total) by lia. rewrite <- (Z.mod_add x (-1) total) by lia. f_equal; lia. }
  assert (Hat : forall e, 0 <= e < total -> (cursor + e) mod total = if c + e <? total then c + e else c + e - total)
    by (intros e He; rewrite Hshift; apply Hmod; lia).
  assert (Hend : forall d, 0 <= d < total -> owns first wt (if c + d <? total then c + d else c + d - total) ->
    (forall e, 0 <= e < d -> ~ owns first wt (if c + e <? total then c + e else c + e - total)) ->
    0 <= d < total /\ owns first wt ((cursor + d) mod total) /\
    forall e, 0 <= e < d -> ~ owns first wt ((cursor + e) mod total)).
  { intros d Hd Ho Hl. split; [done|]. rewrite Hat by lia. split; [done|].
    intros e He. rewrite Hat by lia. auto. }
  pose proof (Hmod (first - c + total) ltac:(lia)) as Hd.
  destruct (Z.leb_spec first c) as [H1|H1], (Z.ltb_spec c (first + wt)) as [H2|H2]; simpl; rewrite ?Hd;
    destruct (Z.ltb_spec (first - c + total) total); try lia; apply Hend; unfold owns; intros;
    repeat match goal with |- context [?a <? ?b] => destruct (Z.ltb_spec a b) end; lia.
Qed.

(** After the round moved past a nearer slot. *)
Lemma distance_after cursor d :
  0 <= d < lane_distance cursor first wt total ->
  lane_distance ((cursor + d + 1) mod total) first wt total = lane_distance cursor first wt total - d - 1.
Proof.
  intros Hd. destruct (distance_least cursor) as (Hr & Ho & Hl).
  destruct (distance_least ((cursor + d + 1) mod total)) as (Hr' & Ho' & Hl').
  set (D := lane_distance cursor first wt total) in *.
  set (D' := lane_distance ((cursor + d + 1) mod total) first wt total) in *.
  assert (Hs : forall e, ((cursor + d + 1) mod total + e) mod total = (cursor + (d + 1 + e)) mod total)
    by (intros e; rewrite Z.add_mod_idemp_l by lia; f_equal; lia).
  rewrite Hs in Ho'.
  destruct (Z.lt_trichotomy D' (D - d - 1)) as [Hlt|[Heq|Hgt]]; [|done|].
  - destruct (Hl (d + 1 + D')); [lia|done].
  - destruct (Hl' (D - d - 1)); [lia|]. rewrite Hs. by replace (d + 1 + (D - d - 1)) with D by lia.
Qed.

End Distance.

(** Streams and their slots. *)
Section Lanes.
  Context (db : DB) (owner : Owner).
  Hypothesis Hweights : forall name, name ∈ lane_names -> 0 < lane_weight db owner name.

Lemma weights_positive :
  0 < lane_weight db owner "normal" /\ 0 < lane_weight db owner "otp" /\
  0 < lane_weight db owner "receipt" /\ 0 < lane_weight db owner "security".
Proof. repeat split; apply Hweights; set_solver. Qed.

Lemma lane_cases name l :
  List.find (fun l => String.eqb (fst (fst l)) name) (lanes db owner) = Some l ->
  let w n := lane_weight db owner n in
  (name = "normal" /\ l = ("normal", w "normal", 0)) \/
  (name = "otp" /\ l = ("otp", w "otp", 0 + w "normal")) \/
  (name = "receipt" /\ l = ("receipt", w "receipt", 0 + w "normal" + w "otp")) \/
  (name = "security" /\ l = ("security", w "security", 0 + w "normal" + w "otp" + w "receipt"))%string.
Proof.
  unfold lanes, lane_names. cbn [map lanes_from List.find fst snd].
  repeat (match goal with |- context [String.eqb ?a name] => destruct (String.eqb_spec a name) as [<-|_] end;
          [intros H; injection H as <-; tauto|]). done.
Qed.

(** A stream's lane lies within the round, and different streams' lanes are
    disjoint. *)
Lemma lane_slots name l :
  List.find (fun l => String.eqb (fst (fst l)) name) (lanes db owner) = Some l ->
  0 <= snd l /\ 0 < snd (fst l) /\ snd l + snd (fst l) <= lanes_total db owner.
Proof.
  intros Hl. destruct weights_positive as (H1 & H2 & H3 & H4). unfold lanes_total, lane_names.
  cbn [foldr]. destruct (lane_cases _ _ Hl) as [[_ ->]|[[_ ->]|[[_ ->]|[_ ->]]]]; cbn [fst snd]; lia.
Qed.

Lemma lanes_disjoint name name' l l' slot :
  List.find (fun l => String.eqb (fst (fst l)) name) (lanes db owner) = Some l ->
  List.find (fun l => String.eqb (fst (fst l)) name') (lanes db owner) = Some l' ->
  owns (snd l) (snd (fst l)) slot -> owns (snd l') (snd (fst l')) slot -> name = name'.
Proof.
  intros Hl Hl'. destruct weights_positive as (H1 & H2 & H3 & H4). unfold owns.
  destruct (lane_cases _ _ Hl) as [[-> ->]|[[-> ->]|[[-> ->]|[-> ->]]]];
    destruct (lane_cases _ _ Hl') as [[-> ->]|[[-> ->]|[[-> ->]|[-> ->]]]]; cbn [fst snd]; intros; done || lia.
Qed.

Lemma turn_spec cursor name d :
  turn db owner cursor name = Some d ->
  exists l, List.find (fun l => String.eqb (fst (fst l)) name) (lanes db owner) = Some l /\
            d = lane_distance cursor (snd l) (snd (fst l)) (lanes_total db owner).
Proof. unfold turn. destruct (List.find _ _) as [l|]; [|done]. intros H. injection H as <-. eauto. Qed.

Lemma turn_bound cursor name d : turn db owner cursor name = Some d -> 0 <= d < lanes_total db owner.
Proof.
  intros H. apply turn_spec in H as (l & Hl & ->). apply lane_slots in Hl as (H1 & H2 & H3).
  by apply distance_least.
Qed.

(** Streams at the same distance are the same stream. *)
Lemma turn_injective cursor name name' d :
  turn db owner cursor name = Some d -> turn db owner cursor name' = Some d -> name = name'.
Proof.
  intros H H'. apply turn_spec in H as (l & Hl & E). apply turn_spec in H' as (l' & Hl' & E').
  pose proof (lane_slots _ _ Hl) as (A1 & A2 & A3). pose proof (lane_slots _ _ Hl') as (B1 & B2 & B3).
  destruct (distance_least (lanes_total db owner) (snd l) (snd (fst l)) A1 A2 A3 cursor) as (_ & Ho & _).
  destruct (distance_least (lanes_total db owner) (snd l') (snd (fst l')) B1 B2 B3 cursor) as (_ & Ho' & _).
  rewrite <- E in Ho. rewrite <- E' in Ho'. eapply lanes_disjoint; eauto.
Qed.

Lemma turn_after cursor name d d' :
  turn db owner cursor name = Some d -> 0 <= d' < d ->
  turn db owner ((cursor + d' + 1) mod lanes_total db owner) name = Some (d - d' - 1).
Proof.
  intros H Hd. pose proof H as H0. apply turn_spec in H as (l & Hl & ->).
  pose proof (lane_slots _ _ Hl) as (A1 & A2 & A3). unfold turn. rewrite Hl. simpl. f_equal.
  by apply distance_after.
Qed.

End Lanes.

Lemma turn_leb_total x y : turn_leb x y = true \/ turn_leb y x = true.
Proof.
  unfold turn_leb, message_leb. destruct x as [a [i m]], y as [b [k n]]. simpl. bsimpl.
  rewrite !N.leb_le. lia.
Qed.

Lemma turn_leb_trans x y z : turn_leb x y = true -> turn_leb y z = true -> turn_leb x z = true.
Proof.
  unfold turn_leb, message_leb. destruct x as [a [i m]], y as [b [k n]], z as [c [q s]]. simpl. bsimpl.
  rewrite !N.leb_le. lia.
Qed.

(** The messages of an owner that a worker could take now. *)
Definition waiting (repo : Repository) (t : At) (db : DB) (owner : Owner) (mid : UUID) (m : Message) : Prop :=
  messages db !! mid = Some m /\ queue_owner m = owner /\ eligible repo t db mid m = true /\ at_skip t mid = false.

(** The nearest stream is chosen, and the oldest message of it. *)
Lemma pick_nearest repo t db owner cursor d mid m :
  (forall name, name ∈ lane_names -> 0 < lane_weight db owner name) ->
  pick_message repo t db owner cursor = Some (d, (mid, m)) ->
  waiting repo t db owner mid m /\ turn db owner cursor (m_message_stream m) = Some d /\
  0 <= d < lanes_total db owner /\
  forall mid2 m2 d2, waiting repo t db owner mid2 m2 ->
    turn db owner cursor (m_message_stream m2) = Some d2 ->
    d <= d2 /\
    (m_message_stream m2 = m_message_stream m -> message_leb (mid, m) (mid2, m2) = true) /\
    (m_message_stream m2 <> m_message_stream m -> d < d2).
Proof.
  intros Hw Hpick. pose proof Hpick as Hp. unfold pick_message in Hp. set (rows := omap _ _) in Hp.
  assert (Hrows : forall d' km, (d', km) ∈ rows <->
            waiting repo t db owner (fst km) (snd km) /\ turn db owner cursor (m_message_stream (snd km)) = Some d').
  { intros d' [k n]. unfold rows, waiting. rewrite list_elem_of_omap. simpl. split.
    - intros ([k' n'] & Hin & Ho). apply elem_select in Hin as [Hn Hc]. simpl in *.
      destruct (turn _ _ _ (m_message_stream n')) eqn:E; simplify_eq/=. bsimpl. rewrite E. tauto.
    - intros [(Hn & Hq & He & Hs) Ht]. exists (k, n). rewrite elem_select. simpl. rewrite Ht. split; [|done].
      split; [done|]. rewrite He, Hs. by rewrite bool_decide_eq_true_2. }
  assert (Hin : (d, (mid, m)) ∈ rows) by (rewrite <- (elem_sort_by turn_leb); by apply head_Some_elem_of).
  apply Hrows in Hin as [Hwait Hturn]. simpl in *.
  pose proof (turn_bound db owner Hw _ _ _ Hturn) as Hb. split; [done|]. split; [done|]. split; [done|].
  intros mid2 m2 d2 Hw2 Ht2.
  assert (Hle : turn_leb (d, (mid, m)) (d2, (mid2, m2)) = true).
  { apply (sort_by_head turn_leb rows _ turn_leb_total turn_leb_trans Hp). by apply Hrows. }
  unfold turn_leb in Hle. cbn [fst snd] in Hle. apply orb_true_iff in Hle.
  assert (Hd : d <= d2) by (destruct Hle as [H|H]; bsimpl; lia).
  split; [done|]. split.
  - intros E. rewrite E, Hturn in Ht2. injection Ht2 as <-. destruct Hle as [H|H]; bsimpl; [lia|tauto].
  - intros Hne. destruct (Z.eq_dec d d2) as [<-|]; [|lia]. destruct Hne. by eapply (turn_injective db owner Hw cursor).
Qed.

(** ** The round of an owner, from claim to claim *)

(** What decides whose turn it is *)
Definition fair (db : DB) := (queue_fair_owners db, queue_fair_ticket db, api_message_streams db).

Ltac unturned := unfold event, Suppression.Lock, or_no_job; framed.

Lemma selectFair_turn repo w db0 :
  wtriple w (fun db => db = db0) (selectFair repo) (fun r db => db = db0 /\ exists k row d,
    queue_fair_owners db0 !! fst (fst r) = Some row /\
    pick_message repo (at_step w k) db0 (fst (fst r)) (o_stream_cursor row) = Some (d, snd (fst r)) /\
    snd r = (o_stream_cursor row + d + 1) mod lanes_total db0 (fst (fst r))).
Proof.
  unfold selectFair.
  wstep (fun (o : option (Owner * FairOwner)) db => db = db0 /\ forall x, o = Some x -> queue_fair_owners db0 !! fst x = Some (snd x)).
  { apply wtriple_query. intros k db ->. split; [done|]. intros [o row] Hx. unfold pick_owner in Hx.
    apply head_Some_elem_of in Hx. rewrite elem_sort_by in Hx. by apply elem_select in Hx as [Hx _]. }
  destruct a as [[o row]|]; [|apply wtriple_of, triple_raise]. apply wtriple_pure. intros Hrow. specialize (Hrow _ eq_refl).
  wstep (fun (x : Owner * FairOwner) db => db = db0 /\ x = (o, row)); [by apply wtriple_of, triple_return|].
  apply wtriple_pure. intros ->. cbn [fst snd] in *.
  wstep (fun (c : option (UUID * Message * Z)) db => db = db0 /\ forall x, c = Some x -> exists k d,
    pick_message repo (at_step w k) db0 o (o_stream_cursor row) = Some (d, fst x) /\ snd x = (o_stream_cursor row + d + 1) mod lanes_total db0 o).
  { apply wtriple_query. intros k db ->. split; [done|]. intros x Hx. exists k.
    destruct (pick_message _ _ _ _ _) as [[d km]|]; [|done]. injection Hx as <-. by exists d. }
  destruct a as [x|]; [|apply wtriple_of, triple_raise]. apply wtriple_pure. intros Hx. destruct (Hx _ eq_refl) as (k & d & Hp & Hn).
  wstep (fun (c : UUID * Message * Z) db => db = db0 /\ c = x); [by apply wtriple_of, triple_return|].
  apply wtriple_of, triple_return. intros db [-> ->]. split; [done|]. by exists k, row, d.
Qed.

(** What a claim that ran to its commit did to the round *)
Record advanced (repo : Repository) (w : World) (db : DB) (j : Job) (db' : DB) : Prop := {
  ad_pick : exists k row d m, messages db !! j_ID j = Some m /\ queue_fair_owners db !! queue_owner m = Some row /\
    pick_message repo (at_step w k) db (queue_owner m) (o_stream_cursor row) = Some (d, (j_ID j, m)) /\
    fair db' = (<[queue_owner m := MkFairOwner (queue_fair_ticket db + 1) ((o_stream_cursor row + d + 1) mod lanes_total db (queue_owner m))]>
                  (queue_fair_owners db), queue_fair_ticket db + 1, api_message_streams db) }.

Lemma pick_waits repo t db owner cursor d mid m : pick_message repo t db owner cursor = Some (d, (mid, m)) ->
  messages db !! mid = Some m /\ queue_owner m = owner.
Proof.
  unfold pick_message. intros H. apply head_Some_elem_of in H. rewrite elem_sort_by in H.
  apply list_elem_of_omap in H as ([k m'] & Hk & Ho). destruct (turn _ _ _ _); simplify_eq/=.
  apply elem_select in Hk as [Hm Hp]. bsimpl. tauto.
Qed.

Lemma claim_advances repo w db0 :
  wtriple w (fun db => db = db0) (claim repo) (fun e db => match e with Commit (inr j) => advanced repo w db0 j db | _ => False end).
Proof.
  unfold claim. wstep (fun (_ : unit) db => db = db0); [by apply wtriple_query|].
  wstep (fun (_ : UUID) db => db = db0); [apply wtriple_of, triple_fresh|].
  wstep (fun (_ : UUID) db => db = db0); [apply wtriple_of, triple_fresh|].
  eapply wtriple_bind; [apply selectFair_turn|]. intros [[owner [mid m]] next]. cbn [fst snd]. apply wtriple_pure.
  intros (k & row & d & Hrow & Hpick & ->). destruct (pick_waits _ _ _ _ _ _ _ _ Hpick) as [Hm <-].
  apply wtriple_of. set (Q := fun db => fair db = fair db0).
  eapply (triple_conseq Q); [|by intros db ->|intros e db He; exact He].
  assert (Hkeep : forall A (b : M A), preserves fair b -> triple Q b (fun _ => Q)) by (intros A b Hb; apply Hb).
  step (fun (_ : option (UUID * ProviderRow)) => Q); [apply Hkeep; unturned|].
  step (fun (_ : UUID * ProviderRow) => Q); [apply Hkeep; unturned|]. destruct a3 as [pid p].
  step (fun (_ : Z) => Q); [apply Hkeep; unturned|]. step (fun (_ : unit) => Q); [apply Hkeep; unturned|].
  step (fun (_ : Z) => Q); [apply Hkeep; unfold admission; unturned|]. step (fun (_ : option UUID) => Q); [apply Hkeep; unturned|].
  step (fun (_ : Z) => Q); [apply Hkeep; unfold take_message; unturned|].
  step (fun (_ : unit) => Q); [apply Hkeep; unfold insert_attempt; unturned|].
  step (fun (_ : list Recipient) => Q); [apply Hkeep; unfold take_recipients; unturned|].
  step (fun (_ : unit) => Q); [apply Hkeep; unturned|].
  step (fun (_ : unit) => Q); [apply Hkeep; unfold insert_attempt_recipient; unturned|].
  step (fun (_ : unit) => Q); [apply Hkeep; unfold reserveControls; unturned|].
  step (fun (_ : unit) => Q); [apply Hkeep; unfold recordFailover; unturned|].
  step (fun (_ : Time) => Q); [apply Hkeep; unturned|]. step (fun (_ : unit) => Q); [apply Hkeep; unturned|].
  step (fun (_ : unit) db => fair db = (<[queue_owner m := MkFairOwner (queue_fair_ticket db0 + 1) ((o_stream_cursor row + d + 1) mod lanes_total db0 (queue_owner m))]>
                  (queue_fair_owners db0), queue_fair_ticket db0 + 1, api_message_streams db0)).
  - apply triple_exec. intros t db HQ. unfold Q, fair in HQ. injection HQ as E1 E2 E3. unfold fair. simpl. rewrite E1, E2, E3.
    f_equal. f_equal. apply map_eq. intros o. rewrite lookup_update. destruct (decide (o = queue_owner m)) as [->|Hne].
    + by rewrite lookup_insert_eq, Hrow; simpl; rewrite bool_decide_eq_true_2.
    + rewrite lookup_insert_ne by done. destruct (queue_fair_owners db0 !! o); simpl; by rewrite ?bool_decide_eq_false_2.
  - apply triple_return. intros db HF. split. simpl. exists k, row, d, m. auto.
Qed.

(** A claim ran to its commit and handed out [j], whether or not the worker
    learnt of it. *)
Definition committed (repo : Repository) (w : World) (db : DB) (j : Job) (db' : DB) : Prop :=
  exists k, claim repo w (0%nat, db) = inr (Commit (inr j), (k, db')).

Lemma committed_advanced repo w db j db' : committed repo w db j db' -> advanced repo w db j db'.
Proof. intros [k H]. exact (claim_advances repo w db _ _ _ _ _ eq_refl H). Qed.

Lemma claim_committed repo w db r db' : transact w (claim repo) db = (r, db') ->
  (db' = db /\ forall j, r <> inr j) \/ exists j, committed repo w db j db' /\ forall j', r = inr j' -> j' = j.
Proof.
  unfold transact. destruct (claim repo w (0%nat, db)) as [e|[e [k d]]] eqn:E; [intros [= <- <-]; by left|].
  pose proof (claim_advances repo w db _ _ _ _ _ eq_refl E) as HA. destruct e as [[e|j]|e]; [done| |done].
  destruct (w_commit w); intros [= <- <-]; [|by left|]; right; exists j; (split; [by exists k|congruence]).
Qed.

(** The cursor of the owner and the weights of its streams are as they were. *)
Definition same_round (owner : Owner) (db db' : DB) : Prop :=
  option_map o_stream_cursor (queue_fair_owners db' !! owner) = option_map o_stream_cursor (queue_fair_owners db !! owner) /\
  forall name, lane_weight db' owner name = lane_weight db owner name.

Lemma round_total owner db db' : (forall name, lane_weight db' owner name = lane_weight db owner name) ->
  lanes_total db' owner = lanes_total db owner.
Proof. intros H. unfold lanes_total, lane_names. cbn [foldr]. by rewrite !H. Qed.

Lemma round_turn owner db db' cursor stream : (forall name, lane_weight db' owner name = lane_weight db owner name) ->
  turn db' owner cursor stream = turn db owner cursor stream.
Proof. intros H. unfold turn, lanes. rewrite (round_total owner db db' H). unfold lane_names. cbn [map]. by rewrite !H. Qed.

Lemma streams_weight owner db db' : api_message_streams db' = api_message_streams db -> forall name, lane_weight db' owner name = lane_weight db owner name.
Proof. intros H name. unfold lane_weight. by rewrite H. Qed.

(** A run seen by one owner: claims of its messages, each while a message of
    [stream] waits, and anything else that leaves its round alone, such as the
    claims of other owners' messages.  The list names the streams served. *)
Inductive turns (repo : Repository) (owner : Owner) (stream : string) : DB -> list string -> DB -> Prop :=
| turns_end db : turns repo owner stream db [] db
| turns_other db db1 served db' :
    same_round owner db db1 -> turns repo owner stream db1 served db' -> turns repo owner stream db served db'
| turns_claim w db j m db1 served db' :
    committed repo w db j db1 -> messages db !! j_ID j = Some m -> queue_owner m = owner ->
    (forall k, exists mid2 m2, waiting repo (at_step w k) db owner mid2 m2 /\ m_message_stream m2 = stream) ->
    turns repo owner stream db1 served db' -> turns repo owner stream db (m_message_stream m :: served) db'.

Definition weighted (db : DB) (owner : Owner) : Prop := forall name, name ∈ lane_names -> 0 < lane_weight db owner name.

(** One claim: the nearest stream, the oldest of its messages, and the others
    come nearer. *)
Lemma claim_turn repo w db j db' m :
  committed repo w db j db' -> messages db !! j_ID j = Some m -> weighted db (queue_owner m) ->
  exists k row row' d, queue_fair_owners db !! queue_owner m = Some row /\ queue_fair_owners db' !! queue_owner m = Some row' /\
    waiting repo (at_step w k) db (queue_owner m) (j_ID j) m /\
    turn db (queue_owner m) (o_stream_cursor row) (m_message_stream m) = Some d /\
    (forall mid2 m2, waiting repo (at_step w k) db (queue_owner m) mid2 m2 -> m_message_stream m2 = m_message_stream m ->
       message_leb (j_ID j, m) (mid2, m2) = true) /\
    (forall mid2 m2 d2, waiting repo (at_step w k) db (queue_owner m) mid2 m2 -> m_message_stream m2 <> m_message_stream m ->
       turn db (queue_owner m) (o_stream_cursor row) (m_message_stream m2) = Some d2 ->
       d < d2 /\ turn db' (queue_owner m) (o_stream_cursor row') (m_message_stream m2) = Some (d2 - d - 1)) /\
    (forall name, lane_weight db' (queue_owner m) name = lane_weight db (queue_owner m) name) /\
    forall o, o <> queue_owner m -> same_round o db db'.
Proof.
  intros Hc Hm Hw. destruct (committed_advanced _ _ _ _ _ Hc) as [(k & row & d & m' & Hm' & Hrow & Hpick & HF)].
  rewrite Hm in Hm'. injection Hm' as <-. unfold fair in HF. injection HF as E1 E2 E3.
  destruct (pick_nearest _ _ _ _ _ _ _ _ Hw Hpick) as (Hwait & Hturn & Hd & Hothers).
  pose proof (fun o => streams_weight o db db' E3) as Hweights.
  exists k, row. eexists. exists d. rewrite E1, lookup_insert_eq. split; [done|]. split; [reflexivity|]. split; [done|]. split; [done|]. split.
  { intros mid2 m2 Hw2 Es. assert (Ht2 : turn db (queue_owner m) (o_stream_cursor row) (m_message_stream m2) = Some d) by by rewrite Es.
    by destruct (Hothers mid2 m2 d Hw2 Ht2) as (_ & H & _); apply H. }
  split; [|split; [done|]].
  - intros mid2 m2 d2 Hw2 Hne Ht2. destruct (Hothers mid2 m2 d2 Hw2 Ht2) as (_ & _ & Hlt). specialize (Hlt Hne).
    split; [done|]. simpl. rewrite (round_turn (queue_owner m) db db') by done. apply turn_after; [done..|lia].
  - intros o Ho. split; [|done]. by rewrite E1, lookup_insert_ne.
Qed.

Lemma lane_turn db owner cursor stream : stream ∈ lane_names -> weighted db owner ->
  exists d, turn db owner cursor stream = Some d /\ 0 <= d < lanes_total db owner.
Proof.
  intros Hs Hw. assert (exists d, turn db owner cursor stream = Some d) as [d Hd].
  { unfold turn, lanes, lane_names in *. cbn [map lanes_from List.find fst].
    repeat (apply elem_of_cons in Hs as [->|Hs]; [cbn; by eexists|]). by apply elem_of_nil in Hs. }
  exists d. split; [done|]. by eapply turn_bound.
Qed.

Lemma turns_distance repo owner stream db served db' row :
  turns repo owner stream db served db' -> queue_fair_owners db !! owner = Some row ->
  stream ∈ lane_names -> weighted db owner -> stream ∉ served ->
  exists row' d d', queue_fair_owners db' !! owner = Some row' /\ lanes_total db' owner = lanes_total db owner /\
    turn db owner (o_stream_cursor row) stream = Some d /\ turn db' owner (o_stream_cursor row') stream = Some d' /\
    d' + Z.of_nat (length served) <= d.
Proof.
  intros H. revert row. induction H as [db|db db1 served db' [Hc Hl] _ IH|w db j m db1 served db' Hcom Hm Hown Hwait _ IH]; intros row Hrow Hs Hw Hn.
  - destruct (lane_turn db owner (o_stream_cursor row) stream Hs Hw) as (d & Hd & _). exists row, d, d. simpl. repeat (split; [done|]). lia.
  - rewrite Hrow in Hc. destruct (queue_fair_owners db1 !! owner) as [row1|] eqn:Hrow1; [|done]. simpl in Hc. injection Hc as Hc.
    destruct (IH row1 eq_refl Hs) as (row' & d & d' & H1 & H2 & H3 & H4 & H5); [intros name Hname; rewrite Hl; by apply Hw|done|].
    exists row', d, d'. split; [done|]. split; [by rewrite H2; apply round_total|]. rewrite Hc, (round_turn owner db db1) in H3 by done. done.
  - apply not_elem_of_cons in Hn as [Hne Hn]. subst owner.
    destruct (claim_turn _ _ _ _ _ _ Hcom Hm Hw) as (k & row0 & row1 & d & Hr0 & Hr1 & _ & Ht & _ & Hnear & Hl & _).
    rewrite Hrow in Hr0. injection Hr0 as <-. destruct (Hwait k) as (mid2 & m2 & Hw2 & Es). subst stream.
    destruct (lane_turn db (queue_owner m) (o_stream_cursor row) (m_message_stream m2) Hs Hw) as (d2 & Hd2 & _).
    destruct (Hnear mid2 m2 d2 Hw2 Hne Hd2) as [Hlt Hnext].
    destruct (IH row1 Hr1 Hs) as (row' & e & d' & H1 & H2 & H3 & H4 & H5); [intros name Hname; rewrite Hl; by apply Hw|done|].
    rewrite Hnext in H3. injection H3 as <-. exists row', d2, d'. split; [done|]. split; [by rewrite H2; apply round_total|].
    split; [done|]. split; [done|]. pose proof (proj1 (turn_bound db (queue_owner m) Hw _ _ _ Ht)). cbn [length]. lia.
Qed.

(** C6. No stream starves another.  A claim that commits, answered or not,
    takes, of the messages its owner has waiting, the oldest of the stream that
    comes first in the weighted round from the owner's stored cursor; the cursor
    it stores puts every other waiting stream strictly nearer, past the chosen
    slot, and the rounds of other owners stay as they were; a claim without
    effect changes nothing.  So over any run in which a stream has a message
    waiting at each claim of its owner, the owner's claims serve that stream
    before a round of the weights is over: a stream that is not among those
    served has come nearer by at least one slot for each claim, from less than
    a round away. *)
Theorem streams_take_turns repo :
  (forall w db r db', transact w (claim repo) db = (r, db') ->
     (db' = db /\ forall j, r <> inr j) \/ exists j, committed repo w db j db' /\ forall j', r = inr j' -> j' = j) /\
  (forall w db j db' m, committed repo w db j db' -> messages db !! j_ID j = Some m -> weighted db (queue_owner m) ->
     exists k row row' d, queue_fair_owners db !! queue_owner m = Some row /\ queue_fair_owners db' !! queue_owner m = Some row' /\
       waiting repo (at_step w k) db (queue_owner m) (j_ID j) m /\
       turn db (queue_owner m) (o_stream_cursor row) (m_message_stream m) = Some d /\
       (forall mid2 m2, waiting repo (at_step w k) db (queue_owner m) mid2 m2 -> m_message_stream m2 = m_message_stream m ->
          message_leb (j_ID j, m) (mid2, m2) = true) /\
       (forall mid2 m2 d2, waiting repo (at_step w k) db (queue_owner m) mid2 m2 -> m_message_stream m2 <> m_message_stream m ->
          turn db (queue_owner m) (o_stream_cursor row) (m_message_stream m2) = Some d2 ->
          d < d2 /\ turn db' (queue_owner m) (o_stream_cursor row') (m_message_stream m2) = Some (d2 - d - 1)) /\
       (forall name, lane_weight db' (queue_owner m) name = lane_weight db (queue_owner m) name) /\
       forall o, o <> queue_owner m -> same_round o db db') /\
  (forall owner stream db served db' row, turns repo owner stream db served db' -> queue_fair_owners db !! owner = Some row ->
     stream ∈ lane_names -> weighted db owner -> stream ∉ served ->
     exists row' d d', queue_fair_owners db' !! owner = Some row' /\
       turn db owner (o_stream_cursor row) stream = Some d /\ turn db' owner (o_stream_cursor row') stream = Some d' /\
       0 <= d' /\ d' + Z.of_nat (length served) <= d < lanes_total db owner).
Proof.
  split; [|split].
  - intros w db r db'. apply claim_committed.
  - intros w db j db' m. apply claim_turn.
  - intros owner stream db served db' row Hrun Hrow Hs Hw Hn.
    destruct (turns_distance _ _ _ _ _ _ _ Hrun Hrow Hs Hw Hn) as (row' & d & d' & H1 & H2 & H3 & H4 & H5).
    exists row', d, d'. do 3 (split; [done|]). split; [|split; [done|by eapply turn_bound]].
    apply turn_spec in H4 as (l & Hl & ->). unfold lane_distance. destruct (_ && _); [done|].
    apply Z.mod_pos_bound. rewrite H2. pose proof (turn_bound db owner Hw _ _ _ H3). lia.
Qed.

(** *** Two streams wait; the claim of the first brings the second nearer. *)

Definition round_owner : Owner := ("smtp"%string, Some 9%N).
Definition round_otp : Message := demo_message <| m_message_stream := "otp"%string |>.
Definition round_db : DB :=
  demo_db <| messages := {[100%N := demo_message; 101%N := round_otp]} |>
          <| recipients := {[1%N := demo_recipient "a@example.org";
                             2%N := (demo_recipient "b@example.org") <| r_message_id := 101%N |>]} |>.
Definition round_world : World :=
  let now := demo_day + Minute in
  MkWorld now (fun _ => now) (fun _ => now) (fun k => 1000 + N.of_nat k)%N
    (fun _ => false) (fun _ _ => false) (fun _ _ => false) Z.of_N (fun _ => "{}"%string) (fun _ => EmptyString) Committed.
Definition round_claim := transact round_world (claim demo_repo) round_db.

Lemma round_committed : committed demo_repo round_world round_db (job_of (fst round_claim)) (snd round_claim).
Proof.
  destruct (claim_committed demo_repo round_world round_db (fst round_claim) (snd round_claim) (surjective_pairing round_claim))
    as [[_ Hno]|(j & Hc & Hj)]; destruct (fst round_claim) as [e|j'] eqn:E; try (vm_compute in E; discriminate E).
  - by destruct (Hno j').
  - simpl. by rewrite (Hj j' eq_refl).
Qed.

Lemma round_waiting k : waiting demo_repo (at_step round_world k) round_db round_owner 101%N round_otp.
Proof. split; [done|]. split; [done|]. split; [vm_compute; reflexivity|reflexivity]. Qed.

Lemma streams_take_turns_witness :
  exists row' d d', queue_fair_owners (snd round_claim) !! round_owner = Some row' /\
    turn round_db round_owner 0 "otp" = Some d /\ turn (snd round_claim) round_owner (o_stream_cursor row') "otp" = Some d' /\
    0 <= d' /\ d' + 1 <= d < lanes_total round_db round_owner.
Proof.
  apply (proj2 (proj2 (streams_take_turns demo_repo)) round_owner "otp"%string round_db ["normal"%string] (snd round_claim) (MkFairOwner 0 0)).
  - eapply (turns_claim _ _ _ round_world round_db (job_of (fst round_claim)) demo_message); [apply round_committed|vm_compute; reflexivity|done| |constructor].
    intros k. exists 101%N, round_otp. split; [apply round_waiting|done].
  - vm_compute. reflexivity.
  - apply one_of_true. reflexivity.
  - intros name _. simpl. lia.
  - intros H. apply one_of_true in H. discriminate H.
Defined.

(** ** A message's status *)

Definition some_in (l : list RecipientRow) (states : list Status) : Prop :=
  exists r, r ∈ l /\ r_status r ∈ states.
Definition all_in (l : list RecipientRow) (states : list Status) : Prop :=
  forall r, r ∈ l -> r_status r ∈ states.

Lemma count_some l states : (0 <? count_in l states)%nat = true <-> some_in l states.
Proof.
  unfold count_in, some_in, has_status. rewrite Nat.ltb_lt. induction l as [|r l IH]; simpl.
  - split; [lia|]. intros (r & Hr & _). by apply elem_of_nil in Hr.
  - destruct (one_of (r_status r) states) eqn:E; simpl.
    + split; [intros _|lia]. exists r. split; [by left|by apply one_of_true].
    + rewrite IH. split; intros (q & Hq & Hs); exists q; (split; [|done]).
      * by right.
      * apply elem_of_cons in Hq as [->|]; [|done]. apply one_of_true in Hs. congruence.
Qed.

Lemma count_all l states : (count_in l states =? length l)%nat = true <-> all_in l states.
Proof.
  unfold count_in, all_in, has_status. rewrite Nat.eqb_eq. induction l as [|r l IH]; simpl.
  - split; [|done]. intros _ r Hr. by apply elem_of_nil in Hr.
  - pose proof (List.filter_length_le (fun r => one_of (r_status r) states) l) as Hle.
    destruct (one_of (r_status r) states) eqn:E; simpl.
    + split.
      * intros H q [->|Hq]%elem_of_cons; [by apply one_of_true|]. apply IH; [lia|done].
      * intros H. f_equal. apply IH. intros q Hq. apply H. by right.
    + split; [lia|]. intros H. specialize (H r (list_elem_of_here _ _)). apply one_of_true in H. congruence.
Qed.

Lemma length_some (l : list RecipientRow) : (0 <? length l)%nat = true <-> l <> [].
Proof. rewrite Nat.ltb_lt. destruct l; simpl; split; (done || lia). Qed.

Lemma all_some_meet l xs ys : all_in l xs -> some_in l ys -> exists s, s ∈ xs /\ s ∈ ys.
Proof. intros Ha (r & Hr & Hs). exists (r_status r). split; [by apply Ha|done]. Qed.

Lemma all_some l xs : l <> [] -> all_in l xs -> some_in l xs.
Proof.
  destruct l as [|r l]; [done|]. intros _ Ha. exists r. split; [by left|]. apply Ha. by left.
Qed.

Lemma some_open l :
  some_in l [DELIVERY_UNKNOWN; SENDING; QUEUED] <->
  some_in l [DELIVERY_UNKNOWN] \/ some_in l [SENDING] \/ some_in l [QUEUED].
Proof. unfold some_in. split; [intros (r & Hr & Hs)|intros [(r & Hr & Hs)|[(r & Hr & Hs)|(r & Hr & Hs)]]]; set_solver. Qed.

(** The status of a message says of its recipients what an operator reads
    in it.  Uncertainty dominates, then work in hand, then work to do; with
    none of these, a uniform terminal outcome is the message's outcome,
    SMTP_ACCEPTED means that every recipient was accepted or delivered,
    PARTIAL_ACCEPTED that some but not all were, TEMP_FAILED that none was but
    some may be retried, and PERM_FAILED that none was and none will be. *)
Theorem projection_spec l :
  let open_ := [DELIVERY_UNKNOWN; SENDING; QUEUED] in
  (projection l = DELIVERY_UNKNOWN <-> some_in l [DELIVERY_UNKNOWN]) /\
  (projection l = SENDING <-> ~ some_in l [DELIVERY_UNKNOWN] /\ some_in l [SENDING]) /\
  (projection l = QUEUED <-> ~ some_in l [DELIVERY_UNKNOWN] /\ ~ some_in l [SENDING] /\ some_in l [QUEUED]) /\
  (projection l ∈ [EXPIRED; SUPPRESSED; DELIVERED] <->
     l <> [] /\ (all_in l [EXPIRED] \/ all_in l [SUPPRESSED] \/ all_in l [DELIVERED])) /\
  (projection l = SMTP_ACCEPTED <->
     l <> [] /\ all_in l [SMTP_ACCEPTED; DELIVERED] /\ ~ all_in l [DELIVERED]) /\
  (projection l = PARTIAL_ACCEPTED <->
     ~ some_in l open_ /\ some_in l [SMTP_ACCEPTED; DELIVERED] /\ ~ all_in l [SMTP_ACCEPTED; DELIVERED]) /\
  (projection l = TEMP_FAILED <->
     ~ some_in l open_ /\ ~ some_in l [SMTP_ACCEPTED; DELIVERED] /\ some_in l [TEMP_FAILED]) /\
  (projection l = PERM_FAILED ->
     ~ some_in l open_ /\ ~ some_in l [SMTP_ACCEPTED; DELIVERED] /\ ~ some_in l [TEMP_FAILED]).
Proof.
  cbv zeta. rewrite some_open.
  assert (HX : forall xs ys, all_in l xs -> some_in l ys -> (forall s, s ∈ xs -> s ∉ ys) -> False)
    by (intros xs ys Ha Hs Hd; destruct (all_some_meet l xs ys Ha Hs) as (s & H1 & H2); by apply (Hd s)).
  assert (HE : forall x ys, x ∉ ys -> all_in l [x] -> some_in l ys -> False)
    by (intros x ys Hd Ha Hs; apply (HX [x] ys Ha Hs); set_solver).
  assert (HA : forall y, y ∉ [SMTP_ACCEPTED; DELIVERED] -> all_in l [SMTP_ACCEPTED; DELIVERED] -> some_in l [y] -> False)
    by (intros y Hd Ha Hs; apply (HX _ [y] Ha Hs); set_solver).
  assert (HD : all_in l [DELIVERED] -> all_in l [SMTP_ACCEPTED; DELIVERED])
    by (intros H r Hr; specialize (H r Hr); set_solver).
  assert (HN : forall ys, some_in l ys -> l <> [])
    by (intros ys (r & Hr & _) ->; by apply elem_of_nil in Hr).
  pose proof (all_some l [SMTP_ACCEPTED; DELIVERED]) as HC.
  pose proof (HN [SMTP_ACCEPTED; DELIVERED]) as NC. pose proof (HN [TEMP_FAILED]) as NT.
  pose proof (HE EXPIRED [SMTP_ACCEPTED; DELIVERED] ltac:(set_solver)) as E1.
  pose proof (HE SUPPRESSED [SMTP_ACCEPTED; DELIVERED] ltac:(set_solver)) as E2.
  pose proof (HE EXPIRED [TEMP_FAILED] ltac:(set_solver)) as E3.
  pose proof (HE SUPPRESSED [TEMP_FAILED] ltac:(set_solver)) as E4.
  pose proof (HA TEMP_FAILED ltac:(set_solver)) as E5.
  assert (EU : forall y, y ∈ [DELIVERY_UNKNOWN; SENDING; QUEUED] -> some_in l [y] ->
            ~ all_in l [EXPIRED] /\ ~ all_in l [SUPPRESSED] /\ ~ all_in l [SMTP_ACCEPTED; DELIVERED]).
  { intros y Hy Hs. split; [|split]; intros Ha;
      [apply (HE EXPIRED [y])|apply (HE SUPPRESSED [y])|apply (HA y)]; set_solver. }
  pose proof (EU DELIVERY_UNKNOWN ltac:(set_solver)) as U1. pose proof (EU SENDING ltac:(set_solver)) as U2.
  pose proof (EU QUEUED ltac:(set_solver)) as U3.
  clear HX HE HA HN EU. remember (projection l) as p eqn:Hp. unfold projection in Hp.
  rewrite <- (count_some l [DELIVERY_UNKNOWN]), <- (count_some l [SENDING]), <- (count_some l [QUEUED]),
    <- (count_some l [TEMP_FAILED]), <- (count_some l [SMTP_ACCEPTED; DELIVERED]) in *.
  rewrite <- (count_all l [EXPIRED]), <- (count_all l [SUPPRESSED]), <- (count_all l [DELIVERED]),
    <- (count_all l [SMTP_ACCEPTED; DELIVERED]), <- (length_some l) in *.
  repeat match type of Hp with
  | _ = if ?b && ?c then _ else _ => destruct b eqn:?, c eqn:?; cbn [andb] in Hp
  | _ = if ?b then _ else _ => destruct b eqn:?
  end; subst p;
  repeat match goal with E : ?b = _ |- _ => lazymatch type of b with bool => rewrite E in *; clear E end end;
  rewrite <- (one_of_true _ [EXPIRED; SUPPRESSED; DELIVERED]);
  match goal with |- context [one_of ?c ?xs] => let v := eval vm_compute in (one_of c xs) in change (one_of c xs) with v end;
  repeat match goal with
  | H : true = true -> _ |- _ => specialize (H eq_refl)
  | H : false = true -> _ |- _ => clear H
  | H : false = true |- _ => discriminate H
  | H : ~ (true = true) |- _ => by destruct (H eq_refl)
  | H : ~ (false = true) |- _ => clear H
  | H : _ /\ _ |- _ => destruct H
  | H : True |- _ => clear H
  end; try done;
  split_and!; intuition discriminate.
Qed.
