(* ===== verification/Runs.v ===== *)
(** * Runs of transactions

    Two ways to reason about transaction bodies besides [triple]: computations
    that respect an order on databases, and reading back what a body that ran
    to its end did. *)

From S2P Require Import Prelude GoText Delivery SmtpClient Provider Database.

(** ** Computations that respect an order on databases *)

Definition respects (R : DB -> DB -> Prop) {A} (m : M A) : Prop :=
  forall db0, triple (R db0) m (fun _ => R db0).

Section Respects.
  Context (R : DB -> DB -> Prop) (Hrefl : forall db, R db db) (Htrans : forall a b c, R a b -> R b c -> R a c).

Lemma respects_ret {A} (a : A) : respects R (mret a).
Proof. intros db0. by apply triple_return. Qed.
Lemma respects_raise {A} e : respects R (raise (A := A) e).
Proof. intros db0. apply triple_raise. Qed.
Lemma respects_bind {A B} (m : M A) (f : A -> M B) : respects R m -> (forall a, respects R (f a)) -> respects R (m ≫= f).
Proof. intros Hm Hf db0. eapply triple_bind; [apply Hm|]. intros a. apply Hf. Qed.
Lemma respects_query {A} (f : At -> DB -> A) : respects R (query f).
Proof. intros db0. by apply triple_query. Qed.
Lemma respects_query_row {A} (f : At -> DB -> option A) : respects R (query_row f).
Proof. intros db0. by apply triple_query_row. Qed.
Lemma respects_fresh : respects R fresh.
Proof. intros db0. apply triple_fresh. Qed.
Lemma respects_forM {A} (l : list A) body : (forall x, respects R (body x)) -> respects R (forM l body).
Proof. intros H db0. apply triple_loop. intros x _. apply H. Qed.
Lemma respects_stmt {A} (f : At -> DB -> option (A * DB)) :
  (forall t db a db', f t db = Some (a, db') -> R db db') -> respects R (stmt f).
Proof. intros Hf db0. apply triple_stmt. intros t db a db' H E. eapply Htrans; [exact H|]. by eapply Hf. Qed.
Lemma respects_exec f : (forall t db, R db (f t db)) -> respects R (exec f).
Proof. intros Hf db0. apply triple_exec. intros t db H. eapply Htrans; [exact H|apply Hf]. Qed.

Lemma respects_transact {A} w (body : M (TxEnd A)) db r db' :
  respects R body -> transact w body db = (r, db') -> R db db'.
Proof.
  intros Hb Hrun. by destruct (transact_triple _ _ _ _ _ _ _ (Hb db) (Hrefl db) Hrun) as [->|(r' & H & _)].
Qed.

End Respects.

(** Keeping a view of the database *)
Definition same {T} (view : DB -> T) (db db' : DB) : Prop := view db' = view db.

Lemma same_refl {T} (view : DB -> T) db : same view db db.
Proof. done. Qed.
Lemma same_trans {T} (view : DB -> T) a b c : same view a b -> same view b c -> same view a c.
Proof. unfold same. congruence. Qed.

Lemma respects_run {A} R (m : M A) w k db a k' db' :
  respects R m -> R db db -> m w (k, db) = inr (a, (k', db')) -> R db db'.
Proof. intros Hm Hr Hrun. by eapply Hm. Qed.

(** ** Reading a transaction that ran to its end *)

Lemma run_bind {A B} (m : M A) (f : A -> M B) w s x :
  (m ≫= f) w s = inr x -> exists a k db, m w s = inr (a, (k, db)) /\ f a w (k, db) = inr x.
Proof. unfold mbind, M_bind. destruct (m w s) as [e|[a [k db]]]; [done|]. eauto. Qed.

Lemma run_stmt {A} (f : At -> DB -> option (A * DB)) w k db a k' db' :
  stmt f w (k, db) = inr (a, (k', db')) -> exists t, f t db = Some (a, db').
Proof.
  unfold stmt. destruct (w_fault w k); [done|]. intros H. destruct (f _ db) as [[a1 db1]|] eqn:E; [|done].
  injection H as <- _ <-. eauto.
Qed.

Lemma run_query {A} (f : At -> DB -> A) w k db a k' db' :
  query f w (k, db) = inr (a, (k', db')) -> db' = db /\ exists t, a = f t db.
Proof. intros H. apply run_stmt in H as [t [= <- <-]]. eauto. Qed.

Lemma run_ret {A} (a b : A) w k db k' db' : (mret a : M A) w (k, db) = inr (b, (k', db')) -> b = a /\ db' = db.
Proof. intros [= <- _ <-]. done. Qed.

Lemma run_row {A} (f : At -> DB -> option A) w k db a k' db' :
  query_row f w (k, db) = inr (a, (k', db')) -> db' = db /\ exists t, f t db = Some a.
Proof.
  intros H. apply run_bind in H as (r & k1 & db1 & H1 & H2). apply run_query in H1 as [-> [t ->]].
  destruct (f t db) as [x|] eqn:E; [|done]. apply run_ret in H2 as [-> ->]. eauto.
Qed.

Lemma run_fresh w k db a k' db' : fresh w (k, db) = inr (a, (k', db')) -> db' = db.
Proof. unfold fresh. by intros [= _ _ <-]. Qed.

Lemma run_guard e (b : bool) w k db u k' db' :
  (if b then mret tt else raise e) w (k, db) = inr (u, (k', db')) -> b = true /\ db' = db.
Proof. destruct b; [|done]. intros H. apply run_ret in H as [_ ->]. done. Qed.

Lemma run_refuse e (b : bool) w k db u k' db' :
  (if b then raise e else mret tt) w (k, db) = inr (u, (k', db')) -> b = false /\ db' = db.
Proof. destruct b; [done|]. intros H. apply run_ret in H as [_ ->]. done. Qed.

(** A body that ends in a commit with a value gave that value with its database. *)
Lemma run_committed {A} (Q : A -> DB -> Prop) w (body : M (TxEnd A)) db a db' :
  (forall e k d, body w (0%nat, db) = inr (e, (k, d)) -> exists x, e = Commit (inr x) /\ Q x d) ->
  transact w body db = (inr a, db') -> Q a db'.
Proof.
  intros Hb. unfold transact. destruct (body w (0%nat, db)) as [e|[e [k d]]] eqn:E; [done|].
  destruct (Hb _ _ _ eq_refl) as (x & -> & Hq). destruct (w_commit w); intros [= <- <-]; done.
Qed.

(** A transaction that did its work, or left everything. *)
Lemma transact_cases {A} (Q : DB -> Prop) w (body : M (TxEnd A)) db r db' :
  (forall e k d, body w (0%nat, db) = inr (e, (k, d)) -> (exists a, e = Commit (inr a)) /\ Q d) ->
  transact w body db = (r, db') -> Q db' \/ db' = db /\ exists e, r = inl e.
Proof.
  intros Hb. unfold transact. destruct (body w (0%nat, db)) as [e|[e [k d]]] eqn:E; [intros [= <- <-]; eauto|].
  destruct (Hb _ _ _ eq_refl) as [[a ->] Hq]. destruct (w_commit w); intros [= <- <-]; eauto.
Qed.
