(* ===== verification/MessageRules.v ===== *)
(** * What submission promises

    The canonical forms a website's data is reduced to, and the contract of
    the transactions of [internal/message]: one message per idempotency key,
    budgets, and what a successful cancellation means. *)

From stdpp Require Import sorting.
From S2P Require Import Prelude GoText Delivery SmtpClient Provider Database Suppression Message.

(** ** Order of strings *)

Abbreviation le_str := (fun a b : string => String.leb a b = true).

Lemma ascii_compare_trans a b c :
  Ascii.compare a b = Lt -> Ascii.compare b c = Lt -> Ascii.compare a c = Lt.
Proof. unfold Ascii.compare. rewrite !N.compare_lt_iff. lia. Qed.

Lemma string_compare_trans a b c :
  String.compare a b <> Gt -> String.compare b c <> Gt -> String.compare a c <> Gt.
Proof.
  revert b c. induction a as [|x a IH]; intros [|y b] [|z c]; simpl; try done.
  destruct (Ascii.compare x y) eqn:E1; [apply Ascii.compare_eq_iff in E1 as ->| |done].
  - destruct (Ascii.compare y z) eqn:E2; [apply IH|done|done].
  - destruct (Ascii.compare y z) eqn:E2; [apply Ascii.compare_eq_iff in E2 as <-| |done].
    + by rewrite E1.
    + by rewrite (ascii_compare_trans _ _ _ E1 E2).
Qed.

Lemma le_str_compare a b : String.leb a b = true <-> String.compare a b <> Gt.
Proof. unfold String.leb. by destruct (String.compare a b). Qed.

#[local] Instance le_str_trans : Transitive le_str.
Proof. intros a b c. rewrite !le_str_compare. apply string_compare_trans. Qed.
#[local] Instance le_str_antisym : AntiSymm (=) le_str.
Proof. intros a b. apply String.leb_antisym. Qed.

(** ** Business data *)

Module Forms.
Import Message.

(** The tags are valid and each is after the one before it. *)
Definition proper_tags (l : list string) : Prop :=
  Forall (fun t => ValidTag t = true) l /\ StronglySorted le_str l /\ NoDup l.

Lemma tags_ok_true prev l :
  StronglySorted le_str l -> (forall p, prev = Some p -> Forall (le_str p) l) ->
  tags_ok prev l = true <-> Forall (fun t => ValidTag t = true) l /\ NoDup l /\ forall p, prev = Some p -> p ∉ l.
Proof.
  intros Hs. revert prev. induction Hs as [|x l Hs IH Hall]; intros prev Hprev; simpl.
  - split; [|done]. intros _. repeat split; [constructor|constructor|]. intros p _. apply not_elem_of_nil.
  - rewrite !andb_true_iff, negb_true_iff, bool_decide_eq_false.
    rewrite IH by (intros p [= <-]; done). rewrite Forall_cons, NoDup_cons. split.
    + intros [[Hv Hne] (Hl & Hnd & Hin)]. specialize (Hin x eq_refl). repeat split; auto.
      intros p Hp. rewrite not_elem_of_cons. split; [congruence|]. intros Hpl.
      assert (x = p); [|congruence]. apply String.leb_antisym.
      * rewrite Forall_forall in Hall. by apply Hall.
      * specialize (Hprev p Hp). by apply Forall_cons in Hprev as [? _].
    + intros [[Hv Hl] [[Hx Hnd] Hp]]. repeat split; auto.
      * intros ->. specialize (Hp x eq_refl). rewrite not_elem_of_cons in Hp. tauto.
      * by intros p [= <-].
Qed.

Lemma tags_ok_sorted l : StronglySorted le_str l ->
  tags_ok None l = true <-> Forall (fun t => ValidTag t = true) l /\ NoDup l.
Proof. intros Hs. rewrite tags_ok_true by done. naive_solver. Qed.

Definition admissible (b : Business) : Prop :=
  (ClientReference b = ""%string \/ ValidReference (ClientReference b) = true) /\
  (length (Tags b) <= 8)%nat /\ Forall (fun t => ValidTag t = true) (Tags b) /\ NoDup (Tags b).

Lemma Canonical_iff b c :
  Canonical b = Some c <->
  admissible b /\ ClientReference c = ClientReference b /\ Tags c ≡ₚ Tags b /\ StronglySorted le_str (Tags c).
Proof.
  unfold Canonical, admissible.
  pose proof (sort_by_perm String.leb (Tags b)) as Hp.
  pose proof (sort_by_sorted String.leb String.leb_total le_str_trans (Tags b)) as Hs.
  assert (Htags : tags_ok None (sort_by String.leb (Tags b)) = true <->
          Forall (fun t => ValidTag t = true) (Tags b) /\ NoDup (Tags b)).
  { rewrite tags_ok_sorted by done. by rewrite Hp. }
  destruct (negb (String.eqb (ClientReference b) "") && negb (ValidReference (ClientReference b))
            || (8 <? length (Tags b))%nat) eqn:E; bsimpl; rewrite ?Nat.ltb_lt, ?Nat.ltb_ge in E.
  - split; [done|]. intros ((Href & Hlen & _) & _). destruct E as [[E1 E2]|E]; [|lia].
    destruct Href; congruence.
  - assert (Hok : (ClientReference b = ""%string \/ ValidReference (ClientReference b) = true) /\
                  (length (Tags b) <= 8)%nat).
    { destruct E as [[E1|E1] E2]; split; auto; lia. }
    destruct (tags_ok None _) eqn:Et.
    + split.
      * intros [= <-]. simpl. split; [|done]. repeat split; tauto.
      * intros (_ & Hr & Hperm & Hsorted). f_equal. destruct c as [r ts]. simpl in *. f_equal; [done|].
        symmetry. apply (StronglySorted_unique le_str); [done|done|]. by rewrite Hperm, Hp.
    + split; [done|]. intros ((_ & _ & Hv & Hnd) & _).
      assert (false = true) by (apply Htags; done). done.
Qed.

(** The canonical form of business data exists exactly when the reference
    and the tags are valid and the tags at most eight and distinct; it keeps
    the reference and lists the same tags in increasing order, is its own
    canonical form, and is shared by every request that lists the same tags in
    another order. *)
Theorem Canonical_spec b :
  match Canonical b with
  | Some c =>
      admissible b /\ ClientReference c = ClientReference b /\ Tags c ≡ₚ Tags b /\
      StronglySorted le_str (Tags c) /\ Canonical c = Some c /\
      forall b', ClientReference b' = ClientReference b -> Tags b' ≡ₚ Tags b -> Canonical b' = Some c
  | None => ~ admissible b
  end.
Proof.
  destruct (Canonical b) as [c|] eqn:E.
  - apply Canonical_iff in E as (Hadm & Hr & Hp & Hs).
    assert (Hsame : forall b', ClientReference b' = ClientReference b -> Tags b' ≡ₚ Tags b -> Canonical b' = Some c).
    { intros b' Hr' Hp'. apply Canonical_iff. unfold admissible. rewrite Hr', Hp'. done. }
    do 4 (split; [done|]). split; [by apply Hsame|done].
  - intros Hadm. assert (Canonical b = Some (MkBusiness (ClientReference b) (sort_by String.leb (Tags b)))); [|congruence].
    apply Canonical_iff. simpl. repeat (split; [done|]). split; [apply sort_by_perm|].
    apply sort_by_sorted; [apply String.leb_total|apply le_str_trans].
Qed.

(** ** Message streams *)

Definition stream_names : list string := ["normal"; "otp"; "security"; "receipt"]%string.

Definition policy_ok (p : StreamPolicy) : Prop :=
  sp_Name p ∈ stream_names /\ 1 <= sp_Weight p <= 8 /\ budget_valid (sp_Budget p) = true.

Definition policies_ok (ps : list StreamPolicy) : Prop :=
  Forall policy_ok ps /\ NoDup (map sp_Name ps).

Lemma CanonicalStream_name name c :
  CanonicalStream name = Some c -> name <> ""%string -> c = name /\ name ∈ stream_names.
Proof.
  unfold CanonicalStream, stream_names. intros H Hne. repeat case_match; simplify_eq; bsimpl; set_solver.
Qed.

Lemma CanonicalStream_of name : name ∈ stream_names -> CanonicalStream name = Some name /\ name <> ""%string.
Proof. intros H. unfold stream_names in H. set_unfold in H. by destruct H as [->|[->|[->|[->|[]]]]]. Qed.

Lemma streams_ok_iff seen ps seen' :
  streams_ok seen ps = Some seen' <->
  policies_ok ps /\ (forall n, n ∈ map sp_Name ps -> n ∉ seen) /\ seen' = rev (map sp_Name ps) ++ seen.
Proof.
  unfold policies_ok. revert seen. induction ps as [|p ps IH]; intros seen; simpl.
  - split; [intros [= ->]|intros (_ & _ & ->); done]. repeat split; [constructor|constructor|set_solver].
  - rewrite Forall_cons, NoDup_cons, <- app_assoc. simpl.
    destruct (CanonicalStream (sp_Name p)) as [name|] eqn:Ec.
    2: { split; [done|]. intros [[[[Hn _] _] _] _]. apply CanonicalStream_of in Hn as [? _]. congruence. }
    destruct (_ || _ || _ || _ || _) eqn:E.
    { split; [done|]. intros [[[(Hn & Hw & Hb) Hps] [Hp Hnd]] [Hseen _]]. exfalso.
      apply CanonicalStream_of in Hn as [Hc Hne]. rewrite Ec in Hc. injection Hc as ->.
      bsimpl. destruct E as [[[[E|E]|E]|E]|E]; [done| |lia|lia|congruence].
      apply (Hseen (sp_Name p)); [by left|done]. }
    bsimpl. destruct E as [[[[Hne Hnew] Hw1] Hw2] Hb]. apply not_true_iff_false in Hnew. rewrite one_of_true in Hnew.
    destruct (CanonicalStream_name _ _ Ec Hne) as [-> Hin]. rewrite IH. split.
    + intros ((Hall & Hnd) & Hfresh & ->). split; [|split; [|done]].
      * split; [split; [split; [done|split; [lia|done]]|done]|]. split; [|done]. intros Hi. apply (Hfresh _ Hi). by left.
      * intros n Hn. apply elem_of_cons in Hn as [->|Hn]; [done|]. specialize (Hfresh n Hn). set_solver.
    + intros ([[_ Hall] [Hp Hnd]] & Hfresh & ->). split; [done|]. split; [|done].
      intros n Hn. rewrite not_elem_of_cons. split; [congruence|]. apply Hfresh. by right.
Qed.

Definition default_policy : StreamPolicy := MkStreamPolicy "normal" 1 (MkSubmissionBudget 0 0 0).

Lemma policies_ok_default ps :
  policies_ok ps -> "normal"%string ∉ map sp_Name ps -> policies_ok (ps ++ [default_policy]).
Proof.
  intros [Hall Hnd] Hn. split.
  - apply Forall_app. split; [done|]. constructor; [|done]. split; [unfold stream_names; simpl; by left|]. simpl. split; [lia|done].
  - rewrite map_app. apply NoDup_app. split; [done|]. simpl. split; [set_solver|apply NoDup_singleton].
Qed.

(** Distinct names out of four. *)
Lemma policies_ok_length ps : policies_ok ps -> (length ps <= 4)%nat.
Proof.
  intros [Hall Hnd]. rewrite <- (length_map sp_Name). apply (submseteq_length _ stream_names), NoDup_submseteq; [done|].
  intros n Hn. apply list_elem_of_fmap in Hn as (p & -> & Hp). rewrite Forall_forall in Hall. by apply Hall.
Qed.

Lemma elem_rev {A} (x : A) l : x ∈ rev l <-> x ∈ l.
Proof. by rewrite !list_elem_of_In, <- in_rev. Qed.

(** The streams of a website are accepted exactly when they are policies of
    the four known streams, each named once, with weights from one to eight and
    valid budgets.  The result has the same properties, always contains
    "normal", never has more than four policies, keeps what was given, and is
    accepted unchanged. *)
Theorem CanonicalStreams_spec ps :
  match CanonicalStreams ps with
  | Some out =>
      policies_ok ps /\ policies_ok out /\ "normal"%string ∈ map sp_Name out /\ (length out <= 4)%nat /\
      (out = ps \/ out = ps ++ [default_policy]) /\ CanonicalStreams out = Some out
  | None => ~ policies_ok ps
  end.
Proof.
  assert (Hrun : forall qs, policies_ok qs -> CanonicalStreams qs =
    Some (if one_of "normal"%string (rev (map sp_Name qs)) then qs else qs ++ [default_policy])).
  { intros qs Hqs. unfold CanonicalStreams. pose proof (policies_ok_length _ Hqs) as Hlen.
    destruct (4 <? length qs)%nat eqn:E; [apply Nat.ltb_lt in E; lia|].
    assert (streams_ok [] qs = Some (rev (map sp_Name qs) ++ [])) as ->.
    { apply streams_ok_iff. split; [done|]. split; [set_solver|done]. }
    by rewrite app_nil_r. }
  assert (Hkeep : forall qs, policies_ok qs -> "normal"%string ∈ map sp_Name qs -> CanonicalStreams qs = Some qs).
  { intros qs Hqs Hn. rewrite Hrun by done.
    assert (one_of "normal"%string (rev (map sp_Name qs)) = true) as ->; [|done].
    by rewrite one_of_true, elem_rev. }
  destruct (CanonicalStreams ps) as [out|] eqn:E.
  - assert (Hps : policies_ok ps).
    { unfold CanonicalStreams in E. destruct (4 <? length ps)%nat; [done|].
      destruct (streams_ok [] ps) eqn:Es; [|done]. by apply streams_ok_iff in Es as [? _]. }
    split; [done|]. rewrite Hrun in E by done. injection E as <-.
    destruct (one_of "normal"%string _) eqn:En.
    + rewrite one_of_true, elem_rev in En.
      split; [done|]. split; [done|]. split; [by apply policies_ok_length|]. split; [by left|by apply Hkeep].
    + assert (Hnot : "normal"%string ∉ map sp_Name ps).
      { intros H. apply not_true_iff_false in En. apply En. by rewrite one_of_true, elem_rev. }
      pose proof (policies_ok_default ps Hps Hnot) as Hd.
      assert (Hin : "normal"%string ∈ map sp_Name (ps ++ [default_policy])) by (rewrite map_app; set_solver).
      split; [done|]. split; [done|]. split; [by apply policies_ok_length|]. split; [by right|by apply Hkeep].
  - intros Hps. rewrite Hrun in E by done. done.
Qed.

End Forms.
