(* ===== verification/SubmitRules.v ===== *)
(** * The contract of submission

    What a caller of [internal/message] may rely on: one message per
    idempotency key whatever the order of requests, budgets that hold after
    every admission, and what a successful cancellation means. *)

From S2P Require Import Prelude GoText Delivery SmtpClient Provider Database Suppression Message Queue QueueInv QueueOps MessageOps QueueClaim Demo QueueSpec System Frames.

Import Message.

(** ** Frames of submission *)

Lemma framed_lift {V} (view : DB -> V) {A} e (o : option A) : preserves view (lift e o).
Proof. intros v. apply triple_lift_. Qed.
Lemma framed_guard {V} (view : DB -> V) e ok : preserves view (guard e ok).
Proof. intros v. apply triple_guard_. Qed.
#[export] Hint Resolve framed_lift framed_guard framed_websites : framed.

Lemma enqueueTx_websites s source apiKey keyHash : preserves websites (enqueueTx s source apiKey keyHash).
Proof. unfold enqueueTx, insert_message, insert_recipient, set_message, record. framed. Qed.

Lemma framed_key_enabled identity : framed (key_enabled identity).
Proof. unfold key_enabled. framed. Qed.
#[export] Hint Resolve enqueueTx_websites framed_key_enabled : framed.

Lemma framed_cancelPendingTx identity id replacement : framed (cancelPendingTx identity id replacement).
Proof. unfold cancelPendingTx, set_message. framed. Qed.
#[export] Hint Resolve framed_cancelPendingTx : framed.

Lemma Enqueue_websites s : preserves websites (Enqueue s).
Proof. unfold Enqueue. framed. Qed.
Lemma framed_CancelPending identity id : framed (CancelPending identity id).
Proof. unfold CancelPending. framed. Qed.

(** ** Admission *)

Section Admission.
  Context (w : World) (identity id : UUID) (units : Z).

(** What [reserveSubmission] checked and wrote, given the tables at its start. *)
Definition reserved (keys : gmap UUID ApiKey) (streams : gmap (UUID * string) StreamRow)
    (quota : gmap UUID SubmissionQuota) (name : string) (expiresAt scheduleAt : Time)
    (quota' : gmap UUID SubmissionQuota) : Prop :=
  exists stream k row kk ks t,
    CanonicalStream name = Some stream /\
    keys !! identity = Some k /\ k_enabled k = true /\
    streams !! (identity, stream) = Some row /\ sm_enabled row = true /\
    (expiresAt <> 0 -> exists n, w_clock w n < expiresAt <= w_clock w n + Window30) /\
    (scheduleAt <> 0 -> (expiresAt <> 0 -> scheduleAt < expiresAt) /\
       exists n, w_clock w n < scheduleAt <= w_clock w n + Window30) /\
    (forall db, api_submission_quota db = quota ->
       within (key_limits k) (usage (of_key identity) (at_step w kk) db) units = true /\
       within (stream_limits row) (usage (of_stream identity stream) (at_step w ks) db) units = true) /\
    quota !! id = None /\ quota' = <[id := MkSubmissionQuota identity units stream t]> quota.

Lemma usage_same p t db db' :
  api_submission_quota db' = api_submission_quota db -> usage p t db' = usage p t db.
Proof. intros H. unfold usage, admitted. by rewrite H. Qed.

Context (db0 : DB).
Let tables (db : DB) : Prop := websites db = websites db0.

Lemma admitSchedule_checks at_ expiry size :
  wtriple w tables (admitSchedule identity at_ expiry size)
    (fun _ db => tables db /\ (at_ <> 0 -> (expiry <> 0 -> at_ < expiry) /\
       exists n, w_clock w n < at_ <= w_clock w n + Window30)).
Proof.
  unfold admitSchedule, IsZero, After. destruct (Z.eqb_spec at_ 0) as [->|Hne].
  { apply wtriple_of, triple_return. intros db Hdb. split; [done|lia]. }
  wstep (fun (_ : unit) db => tables db /\ ((expiry =? 0) || (at_ <? expiry)) = true);
    [apply wtriple_of, triple_guard|].
  apply wtriple_pure. intros He.
  wstep (fun (ok : bool) db => tables db /\ exists n, ok = (w_clock w n <? at_) && (at_ <=? w_clock w n + Window30)).
  { apply wtriple_query. intros k db Hdb. split; [done|]. by exists k. }
  apply wtriple_pure. intros (n & ->).
  wstep (fun (_ : unit) db => tables db /\ (w_clock w n <? at_) && (at_ <=? w_clock w n + Window30) = true);
    [apply wtriple_of, triple_guard|].
  apply wtriple_pure. intros Hn. bsimpl.
  wstep (fun (_ : Z * Z) => tables); [by apply wtriple_query|].
  apply wtriple_of. eapply triple_conseq; [apply triple_guard_|done|].
  intros [] db Hdb. split; [done|]. intros _. split; [lia|]. exists n. lia.
Qed.

Lemma reserveSubmission_spec name expiresAt scheduleAt size :
  wtriple w tables (reserveSubmission identity id units name expiresAt scheduleAt size)
    (fun _ db => api_keys db = api_keys db0 /\ api_message_streams db = api_message_streams db0 /\
       api_submission_ledger db = api_submission_ledger db0 /\
       reserved (api_keys db0) (api_message_streams db0) (api_submission_quota db0) name expiresAt scheduleAt
         (api_submission_quota db)).
Proof.
  unfold reserveSubmission.
  assert (Htab : forall db, tables db -> api_keys db = api_keys db0 /\
      api_message_streams db = api_message_streams db0 /\ api_submission_ledger db = api_submission_ledger db0 /\
      api_submission_quota db = api_submission_quota db0)
    by (intros db H; unfold tables, websites in H; by simplify_eq).
  wstep (fun stream db => tables db /\ CanonicalStream name = Some stream); [apply wtriple_of, triple_lift|].
  apply wtriple_pure. intros Hstream. rename a into stream.
  wstep (fun k db => tables db /\ api_keys db0 !! identity = Some k).
  { apply wtriple_of, triple_query_row. intros t db k Hdb Hk. split; [done|]. destruct (Htab db Hdb) as [<- _]. done. }
  apply wtriple_pure. intros Hk. rename a into k.
  wstep (fun (_ : unit) db => tables db /\
           (expiresAt <> 0 -> exists n, w_clock w n < expiresAt <= w_clock w n + Window30)).
  { unfold IsZero. destruct (Z.eqb_spec expiresAt 0) as [->|Hne];
      [apply wtriple_of, triple_return; intros db Hdb; split; [done|lia]|].
    wstep (fun late db => tables db /\ exists n, late = (expiresAt <=? w_clock w n, w_clock w n + Window30 <? expiresAt)).
    { apply wtriple_query. intros n db Hdb. split; [done|]. by exists n. }
    apply wtriple_pure. intros (n & ->). simpl.
    wstep (fun (_ : unit) db => tables db /\ negb (expiresAt <=? w_clock w n) = true); [apply wtriple_of, triple_guard|].
    apply wtriple_pure. intros H1. apply wtriple_of. eapply triple_conseq; [apply triple_guard|done|].
    intros [] db [Hdb H2]. split; [done|]. intros _. exists n. bsimpl. lia. }
  apply wtriple_pure. intros Hexp.
  wstep (fun (_ : unit) db => tables db /\ (scheduleAt <> 0 -> (expiresAt <> 0 -> scheduleAt < expiresAt) /\
       exists n, w_clock w n < scheduleAt <= w_clock w n + Window30)); [apply admitSchedule_checks|].
  apply wtriple_pure. intros Hsched.
  wstep (fun (_ : unit) db => tables db /\ k_enabled k = true); [apply wtriple_of, triple_guard|].
  apply wtriple_pure. intros Hen.
  wstep (fun (_ : unit) => tables); [apply wtriple_of, triple_guard_|].
  wstep (fun used db => tables db /\ exists kk, used = usage (of_key identity) (at_step w kk) db0).
  { apply wtriple_query. intros kk db Hdb. split; [done|]. exists kk. apply usage_same. by destruct (Htab db Hdb) as (_ & _ & _ & ->). }
  apply wtriple_pure. intros (kk & ->).
  wstep (fun (_ : unit) db => tables db /\ within (key_limits k) (usage (of_key identity) (at_step w kk) db0) units = true);
    [apply wtriple_of, triple_guard|].
  apply wtriple_pure. intros Hkey.
  wstep (fun lane db => tables db /\ lane = api_message_streams db0 !! (identity, stream)).
  { apply wtriple_query. intros n db Hdb. split; [done|]. by destruct (Htab db Hdb) as (_ & -> & _). }
  apply wtriple_pure. intros ->.
  wstep (fun row db => tables db /\ api_message_streams db0 !! (identity, stream) = Some row); [apply wtriple_of, triple_lift|].
  apply wtriple_pure. intros Hrow. rename a4 into row.
  wstep (fun (_ : unit) db => tables db /\ sm_enabled row = true); [apply wtriple_of, triple_guard|].
  apply wtriple_pure. intros Hlane.
  wstep (fun (_ : unit) => tables); [apply wtriple_of, triple_guard_|].
  wstep (fun used db => tables db /\ exists ks, used = usage (of_stream identity stream) (at_step w ks) db0).
  { apply wtriple_query. intros ks db Hdb. split; [done|]. exists ks. apply usage_same. by destruct (Htab db Hdb) as (_ & _ & _ & ->). }
  apply wtriple_pure. intros (ks & ->).
  wstep (fun (_ : unit) db => tables db /\ within (stream_limits row) (usage (of_stream identity stream) (at_step w ks) db0) units = true);
    [apply wtriple_of, triple_guard|].
  apply wtriple_pure. intros Hstr.
  apply wtriple_stmt. intros n db [] db' Hdb H. destruct (Htab db Hdb) as (T1 & T2 & T3 & T4). rewrite T4 in H.
  destruct (insert_row _ _ _) as [rows|] eqn:E; [|done]. injection H as <-. apply insert_row_some in E as [Hn ->].
  simpl. do 3 (split; [done|]). exists stream, k, row, kk, ks, (w_clock w n). do 7 (split; [done|]).
  split; [|done]. intros d Hd. rewrite !(usage_same _ _ db0 d) by done. done.
Qed.

End Admission.

(** ** One message per idempotency key *)

Section Idempotency.
  Context (w : World) (s : Submission) (apiKey : UUID) (keyHash fingerprint : string)
    (publish : option (Submission -> option Submission)) (db0 : DB).

(** How a submission can end. *)
Definition submitted (r : TxEnd EnqueueResult) (db : DB) : Prop :=
  match r with
  | Commit (inr x) =>
      x = MkEnqueueResult (s_ID s) false /\
      api_submission_ledger db0 !! (apiKey, keyHash) = None /\
      api_submission_ledger db = <[(apiKey, keyHash) := MkLedger fingerprint (s_ID s)]> (api_submission_ledger db0) /\
      reserved w apiKey (s_ID s) (Z.of_nat (length (s_Recipients s))) (api_keys db0) (api_message_streams db0)
        (api_submission_quota db0) (s_Stream s) (z_at (s_ExpiresAt s)) (z_at (s_ScheduleAt s)) (api_submission_quota db)
  | Rollback (inr x) =>
      exists l, api_submission_ledger db0 !! (apiKey, keyHash) = Some l /\ lg_request_sha256 l = fingerprint /\
                x = MkEnqueueResult (lg_message_id l) true
  | _ => False
  end.

(** How the admission can end. *)
Definition decided (r : option EnqueueResult) (db : DB) : Prop :=
  match r with
  | Some x =>
      exists l, api_submission_ledger db0 !! (apiKey, keyHash) = Some l /\ lg_request_sha256 l = fingerprint /\
                x = MkEnqueueResult (lg_message_id l) true
  | None =>
      api_submission_ledger db0 !! (apiKey, keyHash) = None /\
      api_submission_ledger db = <[(apiKey, keyHash) := MkLedger fingerprint (s_ID s)]> (api_submission_ledger db0) /\
      reserved w apiKey (s_ID s) (Z.of_nat (length (s_Recipients s))) (api_keys db0) (api_message_streams db0)
        (api_submission_quota db0) (s_Stream s) (z_at (s_ExpiresAt s)) (z_at (s_ScheduleAt s)) (api_submission_quota db)
  end.

Lemma admission_decides :
  wtriple w (fun db => db = db0) (admission s apiKey keyHash fingerprint) decided.
Proof.
  unfold admission.
  set (db1 := db0 <| api_submission_ledger :=
                <[(apiKey, keyHash) := MkLedger fingerprint (s_ID s)]> (api_submission_ledger db0) |>).
  wstep (fun (b : bool) db => if b then db = db1 /\ api_submission_ledger db0 !! (apiKey, keyHash) = None else db = db0).
  { apply wtriple_stmt. intros k db b db' -> H.
    destruct (api_submission_ledger db0 !! (apiKey, keyHash)); [by injection H as <- <-|].
    destruct (exists_row _ _); [done|]. by injection H as <- <-. }
  destruct a; simpl.
  2: { apply wtriple_of.
       step (fun l (_ : DB) => api_submission_ledger db0 !! (apiKey, keyHash) = Some l).
       { apply triple_query_row. by intros t db l ->. }
       step (fun (_ : unit) (_ : DB) => api_submission_ledger db0 !! (apiKey, keyHash) = Some a /\
               String.eqb (lg_request_sha256 a) fingerprint = true); [apply triple_guard|].
       apply triple_return. intros db [Hl Hf]. apply String.eqb_eq in Hf. by exists a. }
  apply wtriple_pure. intros Hnew. set (T := fun db => websites db = websites db1).
  wstep (fun (_ : unit) => T).
  { apply wtriple_of, (triple_conseq T _ _ (fun _ => T)); [|intros db Hdb; by rewrite Hdb|done].
    assert (Hf : preserves websites (match s_Replaces s with
                         | None => mret tt
                         | Some target => key_enabled apiKey;; cancelPendingTx apiKey target (Some (s_ID s));; mret tt
                         end)) by framed. apply Hf. }
  wstep (fun (_ : unit) db => api_keys db = api_keys db1 /\ api_message_streams db = api_message_streams db1 /\
       api_submission_ledger db = api_submission_ledger db1 /\
       reserved w apiKey (s_ID s) (Z.of_nat (length (s_Recipients s))) (api_keys db1) (api_message_streams db1)
         (api_submission_quota db1) (s_Stream s) (z_at (s_ExpiresAt s)) (z_at (s_ScheduleAt s)) (api_submission_quota db));
    [apply reserveSubmission_spec|].
  apply wtriple_of, triple_return. intros db (_ & _ & HL & HR). unfold decided. by rewrite HL.
Qed.

Lemma enqueueIdempotent_submits :
  wtriple w (fun db => db = db0) (enqueueIdempotent s apiKey keyHash fingerprint publish) submitted.
Proof.
  unfold enqueueIdempotent. wstep decided; [apply admission_decides|]. destruct a; [by apply wtriple_of, triple_return|].
  apply wtriple_of, triple_from. intros db2 (Hnew & HL & HR).
  assert (Hf : preserves websites (
      s' ← (match publish with None => mret s | Some save => lift (ErrText "archive") (save s) end);
      enqueueTx (s' <| s_Account := None |>) "api" (Some apiKey) (Some keyHash);;
      (match s_Replaces s with
       | None => mret tt
       | Some target => set_message (s_ID s) (fun _ => true) (fun _ m => m <| m_replaces_message_id := Some target |>)
       end);;
      mret (Commit (inr (MkEnqueueResult (s_ID s) false))))) by (unfold set_message; framed).
  eapply triple_conseq; [apply (triple_and _ _ _ (fun r _ => r = Commit (inr (MkEnqueueResult (s_ID s) false)))
                                 (Hf (websites db2)))|by intros db ->|].
  - step (fun (_ : Submission) (_ : DB) => True); [apply triple_any|].
    do 2 (step (fun (_ : unit) (_ : DB) => True); [apply triple_any|]). by apply triple_return.
  - intros r db [HW ->].
    assert (api_submission_ledger db = api_submission_ledger db2 /\ api_submission_quota db = api_submission_quota db2)
      as [E1 E2] by (unfold websites in HW; by simplify_eq).
    simpl. rewrite E1, E2, HL. done.
Qed.

End Idempotency.

(** What a transaction leaves behind, in the world it ran in. *)
Lemma wtransact {A} w P (body : M (TxEnd A)) (Q : TxEnd A -> DB -> Prop) db r db' :
  wtriple w P body Q -> P db -> transact w body db = (r, db') ->
  db' = db \/ exists r', Q (Commit r') db' /\ (r = r' \/ r = inl ErrSQL).
Proof.
  intros Ht HP H. unfold transact in H.
  destruct (body w (0%nat, db)) as [e|[[r'|r'] [k db1]]] eqn:E; simplify_eq; auto.
  pose proof (Ht _ _ _ _ _ HP E) as HQ. destruct (w_commit w); simplify_eq; eauto.
Qed.

Lemma framed_ledger {A} w (body : M (TxEnd A)) db r db' :
  preserves websites body -> transact w body db = (r, db') -> api_submission_ledger db ⊆ api_submission_ledger db'.
Proof.
  intros Hf Hrun. pose proof (preserves_transact _ _ _ _ _ _ Hf Hrun) as HW.
  assert (api_submission_ledger db' = api_submission_ledger db) as -> by (unfold websites in HW; by simplify_eq). done.
Qed.

Lemma submit_ledger w s apiKey keyHash fingerprint publish db r db' :
  transact w (enqueueIdempotent s apiKey keyHash fingerprint publish) db = (r, db') ->
  api_submission_ledger db ⊆ api_submission_ledger db'.
Proof.
  intros Hrun.
  destruct (wtransact _ _ _ _ _ _ _ (enqueueIdempotent_submits w s apiKey keyHash fingerprint publish db) eq_refl Hrun)
    as [->|([e|x] & HS & _)]; [done|done|].
  destruct HS as (_ & Hn & -> & _). by apply insert_subseteq.
Qed.

#[local] Hint Resolve framed_SweepExpired framed_SweepSuppressed framed_Recover framed_schedule
  framed_ResolveUnknown Enqueue_websites framed_CancelPending framed_Add framed_Release framed_Record : framed.

(** No step forgets a submission. *)
Lemma step_ledger s s' : step s s' -> api_submission_ledger (st_db s) ⊆ api_submission_ledger (st_db s').
Proof.
  intros [A body w db ws r db' Hs Hrun|db ws db' He|repo w db ws r db' Hrun|w db ws aid j r db' Hw Hrun|
    db ws aid j Hw|db ws aid j ph out Hw Hrep Hph|repo w db ws aid j out r db' Hw Hrun]; simpl; try done.
  - destruct Hs; try (eapply framed_ledger; [|exact Hrun]; by eauto with framed nocore); by eapply submit_ledger.
  - apply He.
  - eapply framed_ledger; [apply framed_websites, framed_claim|exact Hrun].
  - eapply framed_ledger; [apply framed_websites, framed_ArmData|exact Hrun].
  - eapply framed_ledger; [apply framed_websites, framed_Finish|exact Hrun].
Qed.

Lemma run_ledger s s' : rtc step s s' -> api_submission_ledger (st_db s) ⊆ api_submission_ledger (st_db s').
Proof. induction 1 as [s|s s1 s2 H1 _ IH]; [done|]. etrans; [by apply step_ledger|exact IH]. Qed.

(** A key that was used is answered from the ledger. *)
Lemma replay_outcome w s apiKey keyHash fingerprint publish db l r db' :
  api_submission_ledger db !! (apiKey, keyHash) = Some l ->
  transact w (enqueueIdempotent s apiKey keyHash fingerprint publish) db = (r, db') ->
  db' = db /\ (r = inl ErrSQL \/
    r = if String.eqb (lg_request_sha256 l) fingerprint
        then inr (MkEnqueueResult (lg_message_id l) true) else inl ErrIdempotencyConflict).
Proof.
  intros Hl. unfold transact, enqueueIdempotent, admission, mbind, M_bind, stmt. simpl. rewrite Hl.
  destruct (w_fault w 0); [intros [= <- <-]; auto|]. simpl.
  unfold query_row, query, mbind, M_bind, stmt. simpl. rewrite Hl.
  destruct (w_fault w 1); [intros [= <- <-]; auto|]. unfold mret, M_ret, guard. simpl.
  destruct (String.eqb _ _); simpl; intros [= <- <-]; auto.
Qed.

(** C8. One message per idempotency key.  A submission that succeeded is in the
    ledger under its key.  Once a key is there, whether or not the submitter
    was told (the answer of the commit may have been lost), then after any
    further steps of the whole system a submission with that key changes
    nothing: for the same request it answers with the message of the ledger,
    for another request it is refused as a conflict, and only a failing
    database gives any other answer. *)
Theorem one_message_per_key w s apiKey keyHash fingerprint publish db r db1 :
  transact w (enqueueIdempotent s apiKey keyHash fingerprint publish) db = (r, db1) ->
  (forall x, r = inr x ->
     api_submission_ledger db1 !! (apiKey, keyHash) = Some (MkLedger fingerprint (er_MessageID x))) /\
  (forall l ws s2, api_submission_ledger db1 !! (apiKey, keyHash) = Some l -> rtc step (MkState db1 ws) s2 ->
   forall w' s' fingerprint' publish' r' db',
     transact w' (enqueueIdempotent s' apiKey keyHash fingerprint' publish') (st_db s2) = (r', db') ->
     db' = st_db s2 /\ (r' = inl ErrSQL \/
       r' = if String.eqb (lg_request_sha256 l) fingerprint'
            then inr (MkEnqueueResult (lg_message_id l) true) else inl ErrIdempotencyConflict)).
Proof.
  intros Hrun. split.
  - intros x ->.
    destruct (wtriple_value _ _ _ _ _ _ _ (enqueueIdempotent_submits w s apiKey keyHash fingerprint publish db) eq_refl Hrun)
      as [(-> & _ & -> & _)|(d & (l & Hl & <- & ->) & ->)]; simpl; [by rewrite lookup_insert_eq|].
    by destruct l.
  - intros l ws s2 Hl Hs w' s' fp' pub' r' db'. apply replay_outcome.
    pose proof (run_ledger _ _ Hs) as Hsub. simpl in Hsub. by eapply lookup_weaken.
Qed.

(** ** Budgets *)

Lemma admitted_insert p t window id q db db' :
  api_submission_quota db !! id = None -> 0 <= sq_units q ->
  api_submission_quota db' = <[id := q]> (api_submission_quota db) ->
  admitted p t window db' <= admitted p t window db + sq_units q.
Proof.
  intros Hn Hq HQ. unfold admitted, sum_of, select. rewrite HQ.
  set (keep := fun kr : UUID * SubmissionQuota => p (snd kr) && (at_clock t - window <? sq_reserved_at (snd kr))).
  rewrite (sum_permutation (fun kq => sq_units (snd kq)) _
             (List.filter keep ((id, q) :: map_to_list (api_submission_quota db)))).
  - simpl. destruct (keep (id, q)); simpl; lia.
  - by apply filter_perm, map_to_list_insert.
Qed.

(** Limits that hold for what is admitted. *)
Definition budgets_hold (limits used : list Z) : Prop :=
  forall limit n, (limit, n) ∈ combine limits used -> 0 < limit -> n <= limit.

Lemma within_budgets limits p t units id identity stream at_ db db' :
  length limits = 3%nat -> 0 <= units ->
  within limits (usage p t db) units = true ->
  api_submission_quota db !! id = None ->
  api_submission_quota db' = <[id := MkSubmissionQuota identity units stream at_]> (api_submission_quota db) ->
  budgets_hold limits (usage p t db').
Proof.
  intros Hlen Hu Hw Hn HQ limit n Hin Hpos. destruct limits as [|l1 [|l2 [|l3 []]]]; try done.
  pose proof (fun window => admitted_insert p t window id (MkSubmissionQuota identity units stream at_) db db' Hn Hu HQ) as Hadd.
  unfold within in Hw. simpl in Hw, Hin. rewrite !andb_true_iff, !negb_true_iff, !andb_false_iff, !Z.ltb_ge in Hw.
  simpl in Hadd. rewrite !elem_of_cons in Hin. pose proof (Hadd Minute). pose proof (Hadd Hour). pose proof (Hadd (24 * Hour)).
  destruct Hin as [E|[E|[E|E]]]; [..|by apply elem_of_nil in E]; injection E as -> ->; lia.
Qed.

(** C9. Budgets hold after every admission.  A new message of a website is
    accepted only while its key and its stream are enabled, and after the
    submission the recipients admitted in the last minute, hour and day, as
    of the instant of the check, exceed none of the enabled limits of the
    website nor of the stream; the admission is charged for exactly the
    recipients of the envelope. *)
Theorem submission_within_budget w s apiKey keyHash fingerprint publish db x db' :
  transact w (enqueueIdempotent s apiKey keyHash fingerprint publish) db = (inr x, db') -> er_Replayed x = false ->
  exists stream k row kk ks at_,
    CanonicalStream (s_Stream s) = Some stream /\
    api_keys db !! apiKey = Some k /\ k_enabled k = true /\
    api_message_streams db !! (apiKey, stream) = Some row /\ sm_enabled row = true /\
    budgets_hold (key_limits k) (usage (of_key apiKey) (at_step w kk) db') /\
    budgets_hold (stream_limits row) (usage (of_stream apiKey stream) (at_step w ks) db') /\
    api_submission_quota db' = <[s_ID s := MkSubmissionQuota apiKey (Z.of_nat (length (s_Recipients s))) stream at_]>
                                 (api_submission_quota db).
Proof.
  intros Hrun Hx.
  destruct (wtriple_value _ _ _ _ _ _ _ (enqueueIdempotent_submits w s apiKey keyHash fingerprint publish db) eq_refl Hrun)
    as [(_ & _ & _ & stream & k & row & kk & ks & at_ & H1 & H2 & H3 & H4 & H5 & _ & _ & H6 & H7 & H8)|
        (d & (l & _ & _ & ->) & _)]; [|done].
  exists stream, k, row, kk, ks, at_. destruct (H6 db eq_refl) as [Hk Hs].
  do 5 (split; [done|]). split; [|split; [|done]]; eapply within_budgets; eauto; lia.
Qed.

(** ** Cancellation *)

(** No attempt of the message is in flight or may have delivered it. *)
Definition undelivered (mid : UUID) (db : DB) : Prop :=
  (forall aid a, delivery_attempts db !! aid = Some a -> a_message_id a = mid -> delivery_evidence a = false) /\
  (forall aid rid x, attempt_recipients db !! (aid, rid) = Some x -> attempt_of mid aid db = true ->
     ar_status x <> SMTP_ACCEPTED /\ ar_status x <> DELIVERY_UNKNOWN).

(** The rows a cancellation at [t] and [t'] leaves. *)
Definition pending_of (mid : UUID) (_ : UUID) (r : RecipientRow) : bool :=
  bool_decide (r_message_id r = mid) && one_of (r_status r) [QUEUED; TEMP_FAILED].
Definition closed_row (at_ : Time) (m : Message) : Message :=
  m <| m_status := CANCELLED |> <| m_cancelled_at := Some at_ |> <| m_completed_at := Some at_ |> <| m_next_attempt_at := None |>.
Definition cancelled_event (mid : UUID) (replacement : option UUID) (at_ : Time) : EventRow :=
  MkEventRow mid None None "MESSAGE_CANCELLED" at_ "api"
    (JObj [("replacement_message_id", match replacement with Some u => JId u | None => JStr "" end)]%string) None.

(** The message was pending, its own, and without any sign of delivery; the
    pending recipients and the message are closed, one event is recorded and
    captured, and that is all that changed. *)
Definition withdrawn (identity mid : UUID) (replacement : option UUID) (db db' : DB) : Prop :=
  exists m t t' at_ eid, messages db !! mid = Some m /\ owned_by identity m = true /\ m_cancelled_at m = None /\
    m_locked_by m = None /\ m_status m ∈ [QUEUED; TEMP_FAILED] /\ undelivered mid db /\
    (forall rid r, recipients db !! rid = Some r -> r_message_id r = mid ->
       r_status r ∈ [QUEUED; TEMP_FAILED; PERM_FAILED; SUPPRESSED; EXPIRED]) /\
    records eid (cancelled_event mid replacement at_)
      (db <| recipients := update (pending_of mid) (cancel_row t) (recipients db) |>
          <| messages := <[mid := closed_row (at_clock t') m]> (messages db) |>) db'.

Lemma not_cancellable_false mid m db :
  not_cancellable mid m db = false ->
  m_locked_by m = None /\ m_status m ∈ [QUEUED; TEMP_FAILED] /\ undelivered mid db /\
  forall rid r, recipients db !! rid = Some r -> r_message_id r = mid ->
    r_status r ∈ [QUEUED; TEMP_FAILED; PERM_FAILED; SUPPRESSED; EXPIRED].
Proof.
  unfold not_cancellable. rewrite !orb_false_iff, negb_false_iff, one_of_true.
  intros ((((Hl & Hs) & Ha) & Hx) & Hr). split; [by destruct (m_locked_by m)|]. split; [done|]. split; [split|].
  - intros aid a Hk E. pose proof (exists_row_false _ _ _ _ Ha Hk) as H. simpl in H.
    by rewrite bool_decide_eq_true_2 in H.
  - intros aid rid x Hk E. pose proof (exists_row_false _ _ _ _ Hx Hk) as H. simpl in H. rewrite E in H. simpl in H.
    apply not_true_iff_false in H. rewrite one_of_true in H. set_solver.
  - intros rid r Hk E. pose proof (exists_row_false _ _ _ _ Hr Hk) as H. simpl in H.
    rewrite bool_decide_eq_true_2 in H by done. simpl in H. by rewrite negb_false_iff, one_of_true in H.
Qed.

Lemma cancelPendingTx_spec identity id replacement db0 :
  triple (fun db => db = db0) (cancelPendingTx identity id replacement) (fun replay db =>
    if replay : bool then db = db0 /\ replacement = None /\ exists m, messages db0 !! id = Some m /\ m_cancelled_at m <> None
    else withdrawn identity id replacement db0 db).
Proof.
  unfold cancelPendingTx.
  step (fun (o : option Database.Message) db => db = db0 /\ forall m, o = Some m -> messages db0 !! id = Some m /\ owned_by identity m = true).
  { apply triple_query. intros t db ->. split; [done|]. intros m Hm.
    destruct (messages db0 !! id) as [m'|]; [|done]. simpl in Hm.
    destruct (owned_by identity m') eqn:E; [|done]. by injection Hm as <-. }
  step (fun m db => (db = db0 /\ forall m, a = Some m -> messages db0 !! id = Some m /\ owned_by identity m = true) /\ a = Some m);
    [apply triple_lift|].
  apply triple_pure. intros ->. rename a0 into m. apply triple_pure. intros Hm. destruct (Hm m eq_refl) as [Hrow Hown].
  destruct (m_cancelled_at m) as [at_|] eqn:Hc; simpl.
  { step (fun (_ : unit) db => db = db0 /\ is_null replacement = true); [apply triple_guard|]. apply triple_return.
    intros db [-> Hr]. split; [done|]. split; [by destruct replacement|]. exists m. split; [done|]. by rewrite Hc. }
  step (fun (unsafe : bool) db => db = db0 /\ unsafe = not_cancellable id m db0); [apply triple_query; by intros t db ->|].
  apply triple_pure. intros ->.
  step (fun (_ : unit) db => db = db0 /\ negb (not_cancellable id m db0) = true); [apply triple_guard|].
  apply triple_pure. rewrite negb_true_iff. intros Hsafe.
  apply not_cancellable_false in Hsafe as (Hl & Hs & Hun & Hrs).
  step (fun (_ : unit) db => exists t, db = db0 <| recipients := update (pending_of id) (cancel_row t) (recipients db0) |>);
    [apply triple_exec; intros t db ->; by exists t|].
  set (D := fun db => exists t t', db = db0 <| recipients := update (pending_of id) (cancel_row t) (recipients db0) |>
    <| messages := <[id := closed_row (at_clock t') m]> (messages db0) |>).
  step (fun (_ : unit) => D).
  { apply triple_exec. intros t' db (t & ->). exists t, t'. f_equal.
    simpl. apply map_eq. intros k. rewrite lookup_update. destruct (decide (k = id)) as [->|Hne].
    - by rewrite lookup_insert_eq, Hrow; simpl; rewrite bool_decide_eq_true_2.
    - rewrite lookup_insert_ne by done. destruct (messages db0 !! k); simpl; by rewrite ?bool_decide_eq_false_2. }
  step (fun (_ : UUID) => D); [apply triple_fresh|].
  step (fun (_ : unit) db => withdrawn identity id replacement db0 db); [|by apply triple_return].
  apply triple_record. intros t3 db outbox (t & t' & ->) Hnew Hcap.
  exists m, t, t', (at_clock t3), a2. repeat (split; [done|]). by exists outbox.
Qed.

(** A withdrawn message is over. *)
Lemma withdrawn_shut identity mid replacement db db' : withdrawn identity mid replacement db db' -> shut mid db'.
Proof.
  intros (m & t & t' & at_ & eid & Hm & _ & _ & _ & _ & [Hno _] & Hst & _ & outbox & _ & ->). split; [|split]; simpl.
  - rewrite lookup_insert_eq. by eexists.
  - intros aid a Ha Hp E. specialize (Hno aid a Ha E). unfold delivery_evidence in Hno. unfold in_progress in Hp. by rewrite Hp in Hno.
  - intros rid r'. rewrite lookup_update. destruct (recipients db !! rid) as [r|] eqn:Hr; [|done]. simpl. intros [= <-].
    unfold pending_of. destruct (bool_decide_reflect (r_message_id r = mid)) as [E|E]; simpl; [|done].
    destruct (one_of (r_status r) [QUEUED; TEMP_FAILED]) eqn:Ep; intros _.
    + apply one_of_true. reflexivity.
    + specialize (Hst rid r Hr E). apply one_of_true. apply one_of_true in Hst. by destruct (r_status r).
Qed.

Lemma shut_unclaimed mid repo w db j db' : shut mid db -> transact w (Queue.claim repo) db = (inr j, db') -> Queue.j_ID j <> mid.
Proof.
  intros Hs Hclaim <-. destruct (wtriple_value _ _ _ _ _ _ _ (claim_admitted repo w db) eq_refl Hclaim) as [HA|(d & [] & _)].
  destruct HA as (m & _ & km & _ & _ & _ & Hel & _). by apply eligible_open in Hel.
Qed.

(** C10. Cancelling means not delivering.  When a website's cancellation of a
    message reports a fresh success, the message was its own, pending and
    unlocked, no attempt of it was in flight, armed, or had any sign of
    delivery, and every recipient of it was pending or had failed.  The
    transaction closed exactly its pending recipients and the message itself,
    recorded one MESSAGE_CANCELLED event with its notice for the website's
    endpoint, and changed nothing else.  From then on, in every state that any
    run of the system reaches, all its recipients stay closed, and no claim
    hands the message out.  A repeated cancellation changes nothing. *)
Theorem cancel_withdraws w identity id db replay db' :
  transact w (CancelPending identity id) db = (inr replay, db') ->
  if replay
  then db' = db /\ exists m, messages db !! id = Some m /\ m_cancelled_at m <> None
  else withdrawn identity id None db db' /\
       (forall repo w' j d, transact w' (Queue.claim repo) db' = (inr j, d) -> Queue.j_ID j <> id) /\
       forall ws s, reachable (MkState db' ws) -> rtc step (MkState db' ws) s ->
         (forall rid r, recipients (st_db s) !! rid = Some r -> r_message_id r = id -> r_status r ∈ closed_states) /\
         forall repo w' j d, transact w' (Queue.claim repo) (st_db s) = (inr j, d) -> Queue.j_ID j <> id.
Proof.
  intros Hrun.
  assert (Ht : triple (fun d => d = db) (CancelPending identity id) (fun e d => match e with
    | Commit (inr b) => if b : bool then d = db /\ exists m, messages db !! id = Some m /\ m_cancelled_at m <> None
                        else withdrawn identity id None db d
    | _ => False end)).
  { unfold CancelPending. step (fun (_ : unit) d => d = db); [apply key_enabled_ok|].
    step (fun (b : bool) d => if b then d = db /\ @None UUID = None /\ exists m, messages db !! id = Some m /\ m_cancelled_at m <> None
                              else withdrawn identity id None db d); [apply cancelPendingTx_spec|].
    apply triple_return. intros d H. destruct a0; [|exact H]. destruct H as (? & _ & ?). auto. }
  destruct (transact_value _ _ _ _ _ _ _ Ht eq_refl Hrun) as [H|(d & [] & _)]. destruct replay; [exact H|].
  pose proof (withdrawn_shut _ _ _ _ _ H) as Hshut. split; [exact H|]. split; [by intros repo w' j d; apply shut_unclaimed|].
  intros ws s Hreach Hruns. pose proof (ev_shut _ _ (proj2 (run_good _ _ Hreach Hruns)) id Hshut) as Hs.
  split; [apply Hs|by intros repo w' j d; apply shut_unclaimed].
Qed.

(** ** A website's scenario

    Key 50 may send two recipients a minute.  It submits a message for one
    recipient, repeats the request, reuses the key for another request,
    exceeds its budget, and cancels the message twice. *)

Definition site_db : DB :=
  demo_db <| api_keys := {[50%N := MkApiKey "rts_" "production" true 2 0 0 ""]} |>
          <| api_message_streams := {[(50%N, "normal"%string) := MkStreamRow true 1 0 0 0]} |>.

Definition site_submission (id : UUID) (rcpts : list string) : Submission :=
  MkSubmission None Zero Zero "" (MkBusiness "order-1" ["b"; "a"]%string) id None "shop@example.com" rcpts
    "mail/200.eml" 3 "00" "<2@example.com>" "shop@example.com" "receipt" demo_day demo_day.

Definition site_submit (base : UUID) (id : UUID) (rcpts : list string) (key fingerprint : string) (db : DB) :=
  transact (demo_world (demo_day + Second) base) (enqueueIdempotent (site_submission id rcpts) 50 key fingerprint None) db.

Definition site1 := site_submit 7000 200 ["c@example.org"]%string "k1" "f1" site_db.
Definition site_cancel (db : DB) := transact (demo_world (demo_day + 2 * Second) 8000) (CancelPending 50 200) db.

Example site_run :
  fst site1 = inr (MkEnqueueResult 200 false) /\
  fst (site_submit 7100 201 ["c@example.org"]%string "k1" "f1" (snd site1)) = inr (MkEnqueueResult 200 true) /\
  fst (site_submit 7200 202 ["d@example.org"]%string "k1" "f2" (snd site1)) = inl ErrIdempotencyConflict /\
  fst (site_submit 7300 203 ["c@example.org"; "d@example.org"]%string "k2" "f3" (snd site1)) = inl ErrSubmissionBudget /\
  fst (site_cancel (snd site1)) = inr false /\
  fst (site_cancel (snd (site_cancel (snd site1)))) = inr true.
Proof. vm_compute. done. Qed.

Lemma one_message_per_key_witness :
  api_submission_ledger (snd site1) !! (50%N, "k1"%string) = Some (MkLedger "f1" 200).
Proof.
  apply (proj1 (one_message_per_key (demo_world (demo_day + Second) 7000) (site_submission 200 ["c@example.org"]%string)
    50 "k1" "f1" None site_db (fst site1) (snd site1) (surjective_pairing site1)) (MkEnqueueResult 200 false)).
  vm_compute. reflexivity.
Defined.

Lemma submission_within_budget_witness :
  exists at_, api_submission_quota (snd site1) = <[200%N := MkSubmissionQuota 50 1 "normal" at_]> ∅.
Proof.
  destruct (submission_within_budget (demo_world (demo_day + Second) 7000) (site_submission 200 ["c@example.org"]%string)
    50 "k1" "f1" None site_db (MkEnqueueResult 200 false) (snd site1)) as (stream & k & row & kk & ks & at_ & Hs & _ & _ & _ & _ & _ & _ & HQ);
    [vm_compute; reflexivity|reflexivity|].
  exists at_. injection Hs as <-. exact HQ.
Defined.

Lemma site_reachable : reachable (MkState (snd (site_cancel (snd site1))) ∅).
Proof.
  eapply reachable_step; [|eapply (step_service _ (CancelPending 50 200)); [constructor|apply surjective_pairing]].
  eapply reachable_step; [|eapply (step_service _ (enqueueIdempotent (site_submission 200 ["c@example.org"]%string) 50 "k1" "f1" None));
    [constructor|apply surjective_pairing]].
  apply reachable_start. split; [done|]. split; [done|]. split; [done|].
  assert (Hall : map_Forall (fun (_ : UUID) r => r_retry_at r = None) (recipients site_db))
    by (apply (bool_decide_unpack (map_Forall _ _)); vm_compute; exact I).
  intros rid r Hr. by apply (Hall rid r).
Qed.

Lemma cancel_withdraws_witness : withdrawn 50 200 None (snd site1) (snd (site_cancel (snd site1))) /\
  forall s, rtc step (MkState (snd (site_cancel (snd site1))) ∅) s ->
    forall rid r, recipients (st_db s) !! rid = Some r -> r_message_id r = 200%N -> r_status r ∈ closed_states.
Proof.
  destruct (cancel_withdraws (demo_world (demo_day + 2 * Second) 8000) 50 200 (snd site1) false
    (snd (site_cancel (snd site1))) ltac:(vm_compute; reflexivity)) as (H & _ & Hruns).
  split; [exact H|]. intros s Hs. exact (proj1 (Hruns ∅ s site_reachable Hs)).
Defined.
