(* ===== verification/Limiter.v ===== *)
(** * The resource limiter: [internal/resource/limiter.go]

    [Acquire] queues a request and waits for its turn and for room; the
    function it returns gives the reservation back once.  Everything between
    [mu.Lock] and [mu.Unlock] is one step: entering (which runs the first pass
    of the loop), a pass of the loop after waking up, and the release.  A
    waiter sleeps on the channel [changed] it saw; closing it is a new
    [changed], counted here, so a waiter may run again when the counter has
    moved or when its context is done.

    A request is identified by its pointer, a reservation by its two amounts.
    Amounts are int64: sums are written with their wrap-around, which the
    invariant shows never happens. *)

From S2P Require Import Prelude.

Module Resource.

Abbreviation Ref := N.

Record reservation := MkReservation { r_memory : Z; r_spool : Z }.

Record Limiter := MkLimiter {
  queue : list Ref; changed : nat; memoryLimit : Z; spoolLimit : Z; memory : Z; spool : Z;
  peakMemory : Z; peakSpool : Z; waiting : Z }.
#[export] Instance eta_Limiter : Eta Limiter := fun l =>
  MkLimiter (queue l) (changed l) (memoryLimit l) (spoolLimit l) (memory l) (spool l)
    (peakMemory l) (peakSpool l) (waiting l).

(** [New] *)
Definition New (memory spool : Z) : Limiter := MkLimiter [] 0 memory spool 0 0 0 0 0.

(** [close(l.changed); l.changed = make(chan struct{})] *)
Definition broadcast (l : Limiter) : Limiter := l <| changed := S (changed l) |>.

(** [append(l.queue[:i], l.queue[i+1:]...)] at the first match *)
Fixpoint remove_ref (x : Ref) (q : list Ref) : list Ref :=
  match q with
  | [] => []
  | y :: rest => if (y =? x)%N then rest else y :: remove_ref x rest
  end.

Definition fits (r : reservation) (l : Limiter) : bool :=
  (r_memory r <=? i64 (memoryLimit l - memory l)) && (r_spool r <=? i64 (spoolLimit l - spool l)).

(** What a pass of the loop decides. *)
Inductive Pass := Cancelled | Granted | Wait (on : nat).

(** One pass of the loop in [Acquire], and the code after it; [err] is
    [ctx.Err() != nil]. *)
Definition pass (x : Ref) (r : reservation) (err : bool) (l : Limiter) : Pass * Limiter :=
  if err then
    (Cancelled, broadcast (l <| waiting := i64 (waiting l - 1) |> <| queue := remove_ref x (queue l) |>))
  else
    match queue l with
    | y :: rest =>
        if (y =? x)%N && fits r l then
          let l := broadcast (l <| waiting := i64 (waiting l - 1) |> <| queue := rest |>) in
          let l := l <| memory := i64 (memory l + r_memory r) |> <| spool := i64 (spool l + r_spool r) |> in
          (Granted, l <| peakMemory := if peakMemory l <? memory l then memory l else peakMemory l |>
                      <| peakSpool := if peakSpool l <? spool l then spool l else peakSpool l |>)
        else (Wait (changed l), l)
    | [] => (Wait (changed l), l)
    end.

(** [Acquire] up to its first wait: [None] is "work exceeds resource budget". *)
Definition Acquire (x : Ref) (r : reservation) (err : bool) (l : Limiter) : option (Pass * Limiter) :=
  if (r_memory r <? 0) || (r_spool r <? 0) || (memoryLimit l <? r_memory r) || (spoolLimit l <? r_spool r)
  then None
  else Some (pass x r err (l <| waiting := i64 (waiting l + 1) |> <| queue := queue l ++ [x] |>)).

(** The returned function, on its first call. *)
Definition release (r : reservation) (l : Limiter) : Limiter :=
  broadcast (l <| memory := i64 (memory l - r_memory r) |> <| spool := i64 (spool l - r_spool r) |>).

(** [Stats] *)
Definition Stats (l : Limiter) : Z * Z * Z * Z * Z * Z * Z :=
  (memoryLimit l, spoolLimit l, memory l, spool l, peakMemory l, peakSpool l, waiting l).

(** ** Callers *)

(** Where a call of [Acquire] stands. *)
Inductive Task := Parked (r : reservation) (on : nat) | Holding (r : reservation) | Over.

Definition task_of (r : reservation) (p : Pass) : Task :=
  match p with Cancelled => Over | Granted => Holding r | Wait on => Parked r on end.

Record State := MkState { lim : Limiter; tasks : gmap Ref Task }.

Inductive step : State -> State -> Prop :=
| step_refused l ts x r err :
    ts !! x = None -> Acquire x r err l = None -> step (MkState l ts) (MkState l (<[x := Over]> ts))
| step_enter l ts x r err p l' :
    ts !! x = None -> Acquire x r err l = Some (p, l') ->
    step (MkState l ts) (MkState l' (<[x := task_of r p]> ts))
| step_wake l ts x r on err p l' :
    ts !! x = Some (Parked r on) -> (err = true \/ on <> changed l) -> pass x r err l = (p, l') ->
    step (MkState l ts) (MkState l' (<[x := task_of r p]> ts))
| step_release l ts x r :
    ts !! x = Some (Holding r) -> step (MkState l ts) (MkState (release r l) (<[x := Over]> ts)).

(** The limiter's budgets are int64 values. *)
Definition initial (s : State) : Prop :=
  exists m p, - 2 ^ 63 <= m < 2 ^ 63 /\ - 2 ^ 63 <= p < 2 ^ 63 /\ s = MkState (New m p) ∅.

(** Fewer callers than an int can count. *)
Inductive reachable : State -> Prop :=
| reachable_start s : initial s -> reachable s
| reachable_step s s' : reachable s -> step s s' -> Z.of_nat (size (tasks s')) < 2 ^ 63 -> reachable s'.

(** ** The invariant *)

(** What the holders of reservations have together. *)
Definition cost (f : reservation -> Z) (t : Task) : Z := match t with Holding r => f r | _ => 0 end.
Definition held (f : reservation -> Z) (ts : gmap Ref Task) : Z := map_fold (fun _ t acc => cost f t + acc) 0 ts.

Lemma held_new f x t ts : ts !! x = None -> held f (<[x := t]> ts) = cost f t + held f ts.
Proof. intros H. unfold held. rewrite map_fold_insert_L; [done| |done]. intros; lia. Qed.

Lemma held_set f x t t0 ts : ts !! x = Some t0 -> held f (<[x := t]> ts) = held f ts - cost f t0 + cost f t.
Proof.
  intros H. rewrite <- (insert_delete_id ts x t0 H) at 2. rewrite <- insert_delete_eq.
  rewrite !held_new by apply lookup_delete_eq. lia.
Qed.

Definition in_budget (r : reservation) (l : Limiter) : Prop :=
  0 <= r_memory r <= memoryLimit l /\ 0 <= r_spool r <= spoolLimit l.

(** [Inv_but x]: the invariant, where [x] may be asleep although it could go on. *)
Record Inv_but (but : Ref -> Prop) (l : Limiter) (ts : gmap Ref Task) : Prop := {
  i_limits : - 2 ^ 63 <= memoryLimit l < 2 ^ 63 /\ - 2 ^ 63 <= spoolLimit l < 2 ^ 63;
  i_queue : forall x, x ∈ queue l <-> exists r on, ts !! x = Some (Parked r on);
  i_nodup : NoDup (queue l);
  i_waiting : waiting l = Z.of_nat (length (queue l)) /\ waiting l < 2 ^ 63;
  i_memory : memory l = held r_memory ts;
  i_spool : spool l = held r_spool ts;
  i_bounds : 0 <= memory l <= Z.max 0 (memoryLimit l) /\ 0 <= spool l <= Z.max 0 (spoolLimit l);
  i_peak : memory l <= peakMemory l <= Z.max 0 (memoryLimit l) /\ spool l <= peakSpool l <= Z.max 0 (spoolLimit l);
  i_parked : forall x r on, ts !! x = Some (Parked r on) -> in_budget r l /\ (on <= changed l)%nat;
  i_holding : forall x r, ts !! x = Some (Holding r) -> in_budget r l;
  i_awake : forall x rest r on, queue l = x :: rest -> ts !! x = Some (Parked r on) -> ~ but x ->
    fits r l = true -> on <> changed l }.

Definition Inv (s : State) : Prop := Inv_but (fun _ => False) (lim s) (tasks s).

Lemma elem_remove x q y : NoDup q -> y ∈ remove_ref x q <-> y ∈ q /\ y <> x.
Proof.
  induction q as [|z q IH]; simpl; intros Hnd; [set_solver|].
  apply NoDup_cons in Hnd as [Hz Hnd]. destruct (N.eqb_spec z x) as [->|Hne]; [set_solver|].
  rewrite !elem_of_cons, IH by done. naive_solver.
Qed.

Lemma nodup_remove x q : NoDup q -> NoDup (remove_ref x q).
Proof.
  induction q as [|z q IH]; simpl; intros Hnd; [done|]. pose proof Hnd as Hnd'.
  apply NoDup_cons in Hnd as [Hz Hnd]. destruct (N.eqb_spec z x); [done|].
  constructor; [|auto]. rewrite elem_remove by done. tauto.
Qed.

Lemma length_remove x q : x ∈ q -> length q = S (length (remove_ref x q)).
Proof.
  induction q as [|z q IH]; simpl; intros Hin; [by apply elem_of_nil in Hin|].
  destruct (N.eqb_spec z x) as [->|Hne]; [done|]. simpl. f_equal. apply IH. set_solver.
Qed.

(** Waiting calls are calls. *)
Lemma queue_size q (ts : gmap Ref Task) :
  NoDup q -> (forall x, x ∈ q -> is_Some (ts !! x)) -> (length q <= size ts)%nat.
Proof.
  intros Hnd Hin. rewrite <- size_dom, <- (size_list_to_set (C := gset Ref) q) by done.
  apply subseteq_size. intros x Hx. apply elem_of_list_to_set, Hin in Hx. by apply elem_of_dom.
Qed.

(** A pass of the loop restores the invariant. *)
Lemma pass_inv l ts x r on err p l' :
  Inv_but (fun y => y = x) l ts -> ts !! x = Some (Parked r on) -> pass x r err l = (p, l') ->
  Inv (MkState l' (<[x := task_of r p]> ts)).
Proof.
  intros [Hlim Hq Hnd Hwait Hm Hs Hb Hpk Hpar Hhold Haw] Hx Hpass.
  assert (Hin : x ∈ queue l) by (apply Hq; eauto).
  destruct (Hpar _ _ _ Hx) as [[Hr1 Hr2] Hon]. unfold Inv. simpl.
  assert (Hheld : forall f t, held f (<[x := t]> ts) = held f ts + cost f t)
    by (intros f t; rewrite (held_set f x t _ ts Hx); simpl; lia).
  assert (Hold : forall t y r0 on0, (forall r1 on1, t <> Parked r1 on1) -> <[x := t]> ts !! y = Some (Parked r0 on0) ->
            y <> x /\ ts !! y = Some (Parked r0 on0)).
  { intros t y r0 on0 Ht. rewrite lookup_insert_Some. intros [[<- E]|[Hne Hy]]; [by destruct (Ht r0 on0)|].
    split; [congruence|done]. }
  unfold pass in Hpass. destruct err.
  - simplify_eq. pose proof (length_remove _ _ Hin) as Hlen. split; simpl; try done.
    + intros y. rewrite elem_remove, Hq by done. split.
      * intros [(r0 & on0 & Hy) Hne]. exists r0, on0. by rewrite lookup_insert_ne.
      * intros (r0 & on0 & Hy). apply Hold in Hy as [? ?]; [|done]. eauto.
    + by apply nodup_remove.
    + rewrite i64_small by lia. lia.
    + rewrite Hheld. simpl. lia.
    + rewrite Hheld. simpl. lia.
    + intros y r0 on0 Hy. apply Hold in Hy as [_ Hy]; [|done]. destruct (Hpar _ _ _ Hy). split; [done|lia].
    + intros y r0. rewrite lookup_insert_Some. intros [[_ E]|[_ Hy]]; [done|eauto].
    + intros y rest r0 on0 _ Hy _ _. apply Hold in Hy as [_ Hy]; [|done]. destruct (Hpar _ _ _ Hy). lia.
  - destruct (queue l) as [|y rest] eqn:Eq; [by apply elem_of_nil in Hin|].
    apply NoDup_cons in Hnd as [Hy Hnd].
    destruct ((y =? x)%N && fits r l) eqn:E; simplify_eq.
    + apply andb_true_iff in E as [E Hf]. apply N.eqb_eq in E as ->. unfold fits in Hf. bsimpl.
      rewrite !i64_small in Hf by lia.
      assert (Em : i64 (memory l + r_memory r) = memory l + r_memory r) by (apply i64_small; lia).
      assert (Es : i64 (spool l + r_spool r) = spool l + r_spool r) by (apply i64_small; lia).
      simpl in Hwait. split; simpl; rewrite ?Em, ?Es; try done.
      * intros z. split.
        { intros Hz. assert (z <> x) by congruence. rewrite lookup_insert_ne by done. apply Hq. by right. }
        { intros (r0 & on0 & Hz). apply Hold in Hz as [Hne Hz]; [|done].
          assert (Hz' : z ∈ x :: rest) by (apply Hq; eauto). set_solver. }
      * rewrite i64_small by lia. lia.
      * rewrite Hheld. simpl. lia.
      * rewrite Hheld. simpl. lia.
      * lia.
      * repeat case_match; bsimpl; lia.
      * intros z r0 on0 Hz. apply Hold in Hz as [_ Hz]; [|done]. destruct (Hpar _ _ _ Hz). split; [done|lia].
      * intros z r0. rewrite lookup_insert_Some. intros [[_ E]|[_ Hz]]; [by injection E as <-|eauto].
      * intros z q r0 on0 _ Hz _ _. apply Hold in Hz as [_ Hz]; [|done]. destruct (Hpar _ _ _ Hz). lia.
    + split; simpl; rewrite ?Hheld, ?Eq; try done; simpl; try lia.
      * intros z. rewrite Hq. split.
        { intros (r0 & on0 & Hz). destruct (decide (z = x)) as [->|Hne]; [rewrite lookup_insert_eq; eauto|].
          rewrite lookup_insert_ne; eauto. }
        { intros (r0 & on0 & Hz). rewrite lookup_insert_Some in Hz. destruct Hz as [[<- _]|[_ Hz]]; eauto. }
      * by constructor.
      * intros z r0 on0. rewrite lookup_insert_Some. intros [[<- E']|[_ Hz]]; [|eauto]. injection E' as <- <-. done.
      * intros z r0. rewrite lookup_insert_Some. intros [[_ E']|[_ Hz]]; [done|eauto].
      * intros z q r0 on0 [= <- <-] Hz _ Hf. rewrite lookup_insert_Some in Hz. destruct Hz as [[<- E']|[Hne Hz]].
        { injection E' as <- <-. by rewrite N.eqb_refl, Hf in E. }
        { eapply Haw; eauto. }
Qed.

(** Entering is a pass of a call that has just queued up. *)
Lemma enter_inv l ts x r :
  Inv (MkState l ts) -> ts !! x = None -> in_budget r l -> Z.of_nat (size ts) + 1 < 2 ^ 63 ->
  Inv_but (fun y => y = x) (l <| waiting := i64 (waiting l + 1) |> <| queue := queue l ++ [x] |>)
    (<[x := Parked r (changed l)]> ts).
Proof.
  intros [Hlim Hq Hnd Hwait Hm Hs Hb Hpk Hpar Hhold Haw] Hx Hr Hsize. simpl in *.
  assert (Hfresh : x ∉ queue l) by (rewrite Hq; intros (r0 & on0 & H); congruence).
  assert (Hlen : (length (queue l) <= size ts)%nat)
    by (apply queue_size; [done|]; intros y Hy; apply Hq in Hy as (r0 & on0 & ->); done).
  split; simpl; try done.
  - intros y. rewrite elem_of_app, Hq, list_elem_of_singleton. split.
    + intros [(r0 & on0 & Hy)| ->]; [|rewrite lookup_insert_eq; eauto].
      rewrite lookup_insert_ne by congruence. eauto.
    + intros (r0 & on0 & Hy). rewrite lookup_insert_Some in Hy. destruct Hy as [[<- _]|[_ Hy]]; eauto.
  - apply NoDup_app. split; [done|]. split; [|apply NoDup_singleton]. intros y Hy. set_solver.
  - rewrite length_app. simpl. rewrite i64_small by lia. lia.
  - rewrite held_new by done. simpl. lia.
  - rewrite held_new by done. simpl. lia.
  - intros y r0 on0. rewrite lookup_insert_Some. intros [[<- E]|[_ Hy]]; [|eauto]. by injection E as <- <-.
  - intros y r0. rewrite lookup_insert_Some. intros [[<- E]|[_ Hy]]; [done|eauto].
  - intros y rest r0 on0 Hh Hy Hne Hf. rewrite lookup_insert_ne in Hy by congruence.
    destruct (queue l) as [|z q] eqn:E; [simpl in Hh; by injection Hh as <-|].
    injection Hh as <- <-. exact (Haw z q r0 on0 eq_refl Hy (fun H => H) Hf).
Qed.

Lemma release_inv l ts x r :
  Inv (MkState l ts) -> ts !! x = Some (Holding r) -> Inv (MkState (release r l) (<[x := Over]> ts)).
Proof.
  intros [Hlim Hq Hnd Hwait Hm Hs Hb Hpk Hpar Hhold Haw] Hx. simpl in *. destruct (Hhold _ _ Hx) as [Hr1 Hr2].
  assert (Hpos : forall f, (forall y r0, ts !! y = Some (Holding r0) -> 0 <= f r0) -> f r <= held f ts).
  { intros f Hf. rewrite <- (insert_delete_id ts x _ Hx), held_new by apply lookup_delete_eq. simpl.
    assert (Hd : forall y r0, delete x ts !! y = Some (Holding r0) -> 0 <= f r0)
      by (intros y r0 Hy; apply lookup_delete_Some in Hy as [_ Hy]; eauto).
    enough (0 <= held f (delete x ts)) by lia. revert Hd. generalize (delete x ts). clear.
    apply (map_ind (fun m => (forall y r0, m !! y = Some (Holding r0) -> 0 <= f r0) -> 0 <= held f m)); [done|].
    intros y t m Hy IH Hd. rewrite held_new by done.
    assert (0 <= held f m).
    { apply IH. intros z r0 Hz. apply (Hd z). rewrite lookup_insert_ne; [done|intros ->; congruence]. }
    destruct t as [|r0|]; simpl; try lia. specialize (Hd y r0). rewrite lookup_insert_eq in Hd. specialize (Hd eq_refl). lia. }
  assert (Hm' := Hpos r_memory (fun y r0 Hy => proj1 (proj1 (Hhold y r0 Hy)))).
  assert (Hs' := Hpos r_spool (fun y r0 Hy => proj1 (proj2 (Hhold y r0 Hy)))).
  assert (Hold : forall y r0 on0, <[x := Over]> ts !! y = Some (Parked r0 on0) <-> ts !! y = Some (Parked r0 on0)).
  { intros y r0 on0. rewrite lookup_insert_Some. split; [intros [[_ ?]|[_ ?]]; done|]. intros Hy. right. split; congruence. }
  unfold Inv. split; simpl; rewrite ?i64_small by lia; try done; try lia.
  - intros y. rewrite Hq. by setoid_rewrite Hold.
  - rewrite (held_set _ _ _ _ _ Hx). simpl. lia.
  - rewrite (held_set _ _ _ _ _ Hx). simpl. lia.
  - intros y r0 on0. rewrite Hold. intros Hy. destruct (Hpar _ _ _ Hy). split; [done|lia].
  - intros y r0. rewrite lookup_insert_Some. intros [[_ E]|[_ Hy]]; [done|eauto].
  - intros y rest r0 on0 _ Hy _ _. rewrite Hold in Hy. destruct (Hpar _ _ _ Hy). lia.
Qed.

Lemma Acquire_some x r err l p l' :
  Acquire x r err l = Some (p, l') ->
  in_budget r l /\ pass x r err (l <| waiting := i64 (waiting l + 1) |> <| queue := queue l ++ [x] |>) = (p, l').
Proof.
  unfold Acquire, in_budget. destruct (_ || _ || _ || _) eqn:E; [done|]. bsimpl. intros [= H]. split; [lia|exact H].
Qed.

Lemma limiter_step_inv s s' : Inv s -> step s s' -> Z.of_nat (size (tasks s')) < 2 ^ 63 -> Inv s'.
Proof.
  intros HI Hst Hsize.
  destruct Hst as [l ts x r err Hx _|l ts x r err p l' Hx HA|l ts x r on err p l' Hx _ Hpass|l ts x r Hx]; simpl in *.
  - destruct HI as [Hlim Hq Hnd Hwait Hm Hs Hb Hpk Hpar Hhold Haw]. simpl in *.
    assert (Hold : forall y t, t <> Over -> <[x := Over]> ts !! y = Some t <-> ts !! y = Some t).
    { intros y t Ht. rewrite lookup_insert_Some. split; [intros [[_ ?]|[_ ?]]; congruence|]. intros Hy. right. split; congruence. }
    split; simpl; rewrite ?(held_new _ _ _ _ Hx); simpl; try done; try lia.
    + intros y. rewrite Hq. split; intros (r0 & on0 & Hy); exists r0, on0; by apply Hold in Hy || apply Hold.
    + intros y r0 on0 Hy. apply Hold in Hy; [eauto|done].
    + intros y r0 Hy. apply Hold in Hy; [eauto|done].
    + intros y rest r0 on0 Hh Hy. apply Hold in Hy; [eauto|done].
  - apply Acquire_some in HA as [Hr Hpass]. rewrite map_size_insert_None in Hsize by done.
    pose proof (enter_inv l ts x r HI Hx Hr ltac:(lia)) as HI'.
    rewrite <- (insert_insert_eq ts x (task_of r p) (Parked r (changed l))).
    eapply pass_inv; [exact HI'|apply lookup_insert_eq|exact Hpass].
  - eapply pass_inv; [|exact Hx|exact Hpass].
    destruct HI as [Hlim Hq Hnd Hwait Hm Hs Hb Hpk Hpar Hhold Haw]. split; try done. eauto.
  - by apply release_inv.
Qed.

Lemma limiter_reachable_inv s : reachable s -> Inv s.
Proof.
  induction 1 as [s (m & p & Hm & Hp & ->)|s s' _ IH Hst Hsize]; [|by eapply limiter_step_inv].
  split; simpl; try done; try lia.
  - intros x. split; [by intros ?%elem_of_nil|intros (r & on & H); by rewrite lookup_empty in H].
  - constructor.
Qed.

(** C32. The limiter never over-commits.  In every run of callers that enter,
    wait, give up, are granted and release, the memory and spool in use are
    exactly what the holders have together and stay within the limits, as do
    the recorded peaks; no int64 sum overflows; the counter of waiting calls is
    the number of calls in the queue. *)
Theorem limiter_within_budget s :
  reachable s ->
  memory (lim s) = held r_memory (tasks s) /\ 0 <= memory (lim s) <= Z.max 0 (memoryLimit (lim s)) /\
  spool (lim s) = held r_spool (tasks s) /\ 0 <= spool (lim s) <= Z.max 0 (spoolLimit (lim s)) /\
  memory (lim s) <= peakMemory (lim s) <= Z.max 0 (memoryLimit (lim s)) /\
  spool (lim s) <= peakSpool (lim s) <= Z.max 0 (spoolLimit (lim s)) /\
  waiting (lim s) = Z.of_nat (length (queue (lim s))) /\
  (forall x, x ∈ queue (lim s) <-> exists r on, tasks s !! x = Some (Parked r on)).
Proof. intros H. destruct (limiter_reachable_inv s H). tauto. Qed.

(** First come, first served: a call is granted only at the head of the
    queue (or on entering an empty one), and the calls behind it keep their
    order. *)
Theorem limiter_fifo s s' x r :
  reachable s -> step s s' -> tasks s' !! x = Some (Holding r) -> tasks s !! x <> Some (Holding r) ->
  queue (lim s) = x :: queue (lim s') \/ (queue (lim s) = [] /\ queue (lim s') = [] /\ tasks s !! x = None).
Proof.
  intros Hr Hst Hx Hold. destruct Hst as [l ts y r0 err Hy _|l ts y r0 err p l' Hy HA|l ts y r0 on err p l' Hy _ Hpass|l ts y r0 Hy];
    simpl in *; rewrite lookup_insert_Some in Hx; destruct Hx as [[<- E]|[_ Hx]]; try done.
  - destruct p; try done. injection E as <-. apply Acquire_some in HA as [_ Hpass]. unfold pass in Hpass. simpl in Hpass.
    right. destruct err; [done|]. destruct (queue l) as [|z q] eqn:Eq; simpl in Hpass.
    + destruct (_ && _); [by simplify_eq/=|done].
    + destruct ((z =? y)%N && _) eqn:E; [|done]. apply andb_true_iff in E as [E _]. apply N.eqb_eq in E as ->.
      assert (Hin : y ∈ queue l) by (rewrite Eq; by left).
      apply (i_queue _ _ _ (limiter_reachable_inv _ Hr)) in Hin as (? & ? & H). simpl in H. congruence.
  - left. destruct p; try done. unfold pass in Hpass. destruct err; [done|].
    destruct (queue l) as [|z q]; [done|]. destruct ((z =? y)%N && _) eqn:E'; [|done].
    apply andb_true_iff in E' as [E' _]. apply N.eqb_eq in E' as ->. by simplify_eq/=.
Qed.

(** C33. No lost wake-up and no deadlock.  Whenever the call at the head of the
    queue fits, it is not asleep: it can run, and then it is granted.  In
    particular, when nothing is held, a waiting queue always moves. *)
Theorem limiter_progress s x rest :
  reachable s -> queue (lim s) = x :: rest ->
  exists r on, tasks s !! x = Some (Parked r on) /\
    (fits r (lim s) = true ->
       on <> changed (lim s) /\ exists s', step s s' /\ tasks s' !! x = Some (Holding r) /\ queue (lim s') = rest) /\
    ((forall y r0, tasks s !! y <> Some (Holding r0)) -> fits r (lim s) = true).
Proof.
  intros Hr Hq. pose proof (limiter_reachable_inv s Hr) as HI. destruct s as [l ts]. simpl in *.
  assert (Hin : x ∈ queue l) by (rewrite Hq; by left).
  apply (i_queue _ _ _ HI) in Hin as (r & on & Hx). exists r, on. split; [done|]. simpl in Hx.
  pose proof (i_parked _ _ _ HI _ _ _ Hx) as [[Hr1 Hr2] _]. split.
  - intros Hf. pose proof (i_awake _ _ _ HI x rest r on Hq Hx (fun H => H) Hf) as Hon. split; [done|].
    destruct (pass x r false l) as [p l'] eqn:Hpass.
    pose proof Hpass as Hp. unfold pass in Hp. rewrite Hq, N.eqb_refl, Hf in Hp. simpl in Hp. injection Hp as <- <-.
    eexists. split; [eapply step_wake; [exact Hx|by right|exact Hpass]|]. simpl. by rewrite lookup_insert_eq.
  - intros Hnone. pose proof (i_limits _ _ _ HI). pose proof (i_memory _ _ _ HI) as Hm. pose proof (i_spool _ _ _ HI) as Hs.
    simpl in *. assert (Hz : forall f, held f ts = 0).
    { intros f. revert Hnone. clear. revert ts.
      apply (map_ind (fun m => (forall y r0, m !! y <> Some (Holding r0)) -> held f m = 0)); [done|].
      intros y t m Hy IH Hn. rewrite held_new by done. rewrite IH.
      - destruct t as [|r0|]; try done. destruct (Hn y r0). apply lookup_insert_eq.
      - intros z r0 Hz. apply (Hn z r0). rewrite lookup_insert_ne; [done|intros ->; congruence]. }
    rewrite Hz in Hm, Hs. unfold fits. rewrite Hm, Hs, !i64_small by lia. bsimpl. lia.
Qed.

(** ** A run

    With budgets of ten, call 1 takes eight; call 2 wants five and waits; call
    3 wants one, which would fit, and waits behind call 2; call 1 releases. *)

Definition enter (x : Ref) (m : Z) (s : State) : State :=
  match Acquire x (MkReservation m m) false (lim s) with
  | Some (p, l) => MkState l (<[x := task_of (MkReservation m m) p]> (tasks s))
  | None => MkState (lim s) (<[x := Over]> (tasks s))
  end.

Lemma enter_step x m s : tasks s !! x = None -> step s (enter x m s).
Proof.
  intros Hx. unfold enter. destruct s as [l ts]. simpl in *.
  destruct (Acquire _ _ _ _) as [[p l']|] eqn:E; [by eapply step_enter|by eapply step_refused].
Qed.

Definition leave (x : Ref) (r : reservation) (s : State) : State :=
  MkState (release r (lim s)) (<[x := Over]> (tasks s)).
Lemma leave_step x r s : tasks s !! x = Some (Holding r) -> step s (leave x r s).
Proof. destruct s. apply step_release. Qed.

Definition wake (x : Ref) (r : reservation) (s : State) : State :=
  let '(p, l) := pass x r false (lim s) in MkState l (<[x := task_of r p]> (tasks s)).
Lemma wake_step x r on s : tasks s !! x = Some (Parked r on) -> on <> changed (lim s) -> step s (wake x r s).
Proof.
  intros Hx Hon. unfold wake. destruct (pass _ _ _ _) as [p l] eqn:E. destruct s. simpl in *.
  apply (step_wake lim0 tasks0 x r on false p l); [exact Hx|by right|exact E].
Qed.

Definition run0 : State := MkState (New 10 10) ∅.
Definition run1 : State := enter 1 8 run0.
Definition run2 : State := enter 2 5 run1.
Definition run3 : State := enter 3 1 run2.
Definition run4 : State := leave 1 (MkReservation 8 8) run3.
Definition run5 : State := wake 2 (MkReservation 5 5) run4.

Lemma run3_reachable : reachable run3.
Proof.
  assert (H0 : reachable run0) by (apply reachable_start; exists 10, 10; split; [lia|]; split; [lia|done]).
  assert (H1 : reachable run1)
    by (apply (reachable_step run0); [exact H0|by apply (enter_step 1 8 run0)|vm_compute; reflexivity]).
  assert (H2 : reachable run2)
    by (apply (reachable_step run1); [exact H1|apply (enter_step 2 5 run1); vm_compute; reflexivity|vm_compute; reflexivity]).
  apply (reachable_step run2); [exact H2|apply (enter_step 3 1 run2); vm_compute; reflexivity|vm_compute; reflexivity].
Qed.

Lemma run4_reachable : reachable run4.
Proof.
  apply (reachable_step run3); [apply run3_reachable| |vm_compute; reflexivity].
  apply (leave_step 1 (MkReservation 8 8) run3). vm_compute. reflexivity.
Qed.

Lemma run5_step : step run4 run5.
Proof.
  apply (wake_step 2 (MkReservation 5 5) 1 run4); [vm_compute; reflexivity|vm_compute; discriminate].
Qed.

Lemma limiter_within_budget_witness :
  memory (lim run3) = 8 /\ waiting (lim run3) = 2 /\ memory (lim run3) = held r_memory (tasks run3).
Proof.
  split; [vm_compute; reflexivity|]. split; [vm_compute; reflexivity|].
  apply (limiter_within_budget run3 run3_reachable).
Defined.

Lemma limiter_fifo_witness :
  queue (lim run4) = 2%N :: queue (lim run5) \/
  (queue (lim run4) = [] /\ queue (lim run5) = [] /\ tasks run4 !! 2%N = None).
Proof.
  apply (limiter_fifo run4 run5 2 (MkReservation 5 5) run4_reachable run5_step);
    [vm_compute; reflexivity|vm_compute; discriminate].
Defined.

Lemma limiter_progress_witness :
  exists r on, tasks run4 !! 2%N = Some (Parked r on) /\
    (fits r (lim run4) = true ->
       on <> changed (lim run4) /\
       exists s', step run4 s' /\ tasks s' !! 2%N = Some (Holding r) /\ queue (lim s') = [3%N]) /\
    ((forall y r0, tasks run4 !! y <> Some (Holding r0)) -> fits r (lim run4) = true).
Proof. apply (limiter_progress run4 2 [3%N] run4_reachable). vm_compute. reflexivity. Defined.

End Resource.
