(* ===== verification/AesGcm.v ===== *)
(** * AES-256-GCM

    What the credential store uses of Go's [crypto/aes] and [crypto/cipher]:
    [NewCipher] with a 32-byte key, [NewGCM] with a 12-byte nonce and 16-byte
    tag, [Seal] and [Open].  AES follows FIPS 197 on bytes kept in [N], GCM
    follows NIST SP 800-38D with blocks as 128-bit numbers; a published test
    vector is evaluated at the end. *)

From S2P Require Import Prelude Sha256.
Local Open Scope N_scope.

Module Aes.

(** ** The field of 256 elements and the S-box *)

Definition xtime (x : N) : N :=
  let y := N.shiftl x 1 in if y <? 256 then y else N.lxor y 0x11b.

Fixpoint gmul_bits (bits : nat) (x y : N) : N :=
  match bits with
  | O => 0
  | S k => N.lxor (if N.odd y then x else 0) (gmul_bits k (xtime x) (N.shiftr y 1))
  end.
Definition gmul : N -> N -> N := gmul_bits 8.

(** [x^254], the inverse of a nonzero [x] *)
Definition ginv (x : N) : N :=
  let x2 := gmul x x in let x3 := gmul x2 x in let x6 := gmul x3 x3 in let x12 := gmul x6 x6 in
  let x15 := gmul x12 x3 in let x30 := gmul x15 x15 in let x60 := gmul x30 x30 in
  let x120 := gmul x60 x60 in let x126 := gmul x120 x6 in let x127 := gmul x126 x in gmul x127 x127.

Definition rotl8 (n x : N) : N := N.lor (N.shiftl x n mod 256) (N.shiftr x (8 - n)).

Definition sbox_entry (x : N) : N :=
  let i := ginv x in
  N.lxor i (N.lxor (rotl8 1 i) (N.lxor (rotl8 2 i) (N.lxor (rotl8 3 i) (N.lxor (rotl8 4 i) 0x63)))).

Definition sbox_table : list N := Eval vm_compute in map (fun k => sbox_entry (N.of_nat k)) (seq 0 256).
Definition sbox (x : N) : N := nth (N.to_nat x) sbox_table 0.

(** ** Key expansion: 60 words from eight *)

Definition sub_word (w : list N) : list N := map sbox w.
Definition rot_word (w : list N) : list N := match w with a :: rest => rest ++ [a] | [] => [] end.
Definition xor_word (v w : list N) : list N := zip_with N.lxor v w.

Fixpoint rcon (n : nat) : N := match n with O => 1 | S k => xtime (rcon k) end.

(** Newest word first; [i] is the index of the next word. *)
Fixpoint expand (count i : nat) (ws : list (list N)) : list (list N) :=
  match count with
  | O => ws
  | S k =>
      let prev := nth 0 ws [] in
      let t := if (i mod 8 =? 0)%nat then xor_word (sub_word (rot_word prev)) [rcon (i / 8 - 1); 0; 0; 0]
               else if (i mod 8 =? 4)%nat then sub_word prev else prev in
      expand k (S i) (xor_word (nth 7 ws []) t :: ws)
  end.

Fixpoint word_groups (count : nat) (bs : list N) : list (list N) :=
  match count with O => [] | S k => firstn 4 bs :: word_groups k (skipn 4 bs) end.

(** The fifteen round keys of sixteen bytes. *)
Definition round_keys (key : list byte) : list (list N) :=
  let words := rev (expand 52 8 (rev (word_groups 8 (map Byte.to_N key)))) in
  map (fun r => concat (firstn 4 (skipn (4 * r) words))) (seq 0 15).

(** ** The cipher, on a state of sixteen bytes in column order *)

Definition at_ (i : nat) (st : list N) : N := nth i st 0.
Definition add_round_key (rk st : list N) : list N :=
  map (fun i => N.lxor (at_ i st) (at_ i rk)) (seq 0 16).
Definition sub_shift (st : list N) : list N :=
  map (fun i => sbox (at_ ((i + 4 * (i mod 4)) mod 16) st)) (seq 0 16).
Definition mix_columns (st : list N) : list N :=
  map (fun i => let c := (4 * (i / 4))%nat in
                let b k := at_ (c + (i + k) mod 4) st in
                N.lxor (gmul (b 0%nat) 2) (N.lxor (gmul (b 1%nat) 3) (N.lxor (b 2%nat) (b 3%nat)))) (seq 0 16).

Definition encrypt (rks : list (list N)) (block : list N) : list N :=
  let middle := fold_left (fun st rk => add_round_key rk (mix_columns (sub_shift st)))
                  (firstn 13 (skipn 1 rks)) (add_round_key (nth 0 rks []) block) in
  add_round_key (nth 14 rks []) (sub_shift middle).

Lemma length_encrypt rks block : length (encrypt rks block) = 16%nat.
Proof. unfold encrypt, add_round_key. by rewrite length_map. Qed.

End Aes.

(** ** Galois/counter mode *)

Module Gcm.

Definition bytes_of_ns (ns : list N) : list byte := map Sha.byte_of ns.

(** A block as a number, most significant byte first; a short one is padded
    with zero bytes. *)
Definition block_number (bs : list byte) : N :=
  fold_left (fun acc b => acc * 256 + Byte.to_N b) (firstn 16 (bs ++ repeat x00 16)) 0.
Definition number_bytes (n : N) : list N :=
  map (fun i => N.shiftr n (8 * N.of_nat (15 - i)) mod 256) (seq 0 16).

(** Multiplication in the field of 2^128 elements, leftmost bit first. *)
Fixpoint mul_bits (bits : nat) (x z v : N) : N :=
  match bits with
  | O => z
  | S k => mul_bits k x (if N.testbit x (N.of_nat k) then N.lxor z v else z)
             (if N.odd v then N.lxor (N.shiftr v 1) (N.shiftl 0xe1 120) else N.shiftr v 1)
  end.
Definition mul (x y : N) : N := mul_bits 128 x 0 y.

Definition block_count (bs : list byte) : nat := ((length bs + 15) / 16)%nat.
Definition block_at (i : nat) (bs : list byte) : list byte := firstn 16 (skipn (16 * i) bs).
Definition ghash_blocks (bs : list byte) : list N :=
  map (fun i => block_number (block_at i bs)) (seq 0 (block_count bs)).
Definition ghash (h : N) (aad ct : list byte) : N :=
  let lengths := N.of_nat (length aad) * 8 * 2 ^ 64 + N.of_nat (length ct) * 8 in
  fold_left (fun acc b => mul (N.lxor acc b) h) (ghash_blocks aad ++ ghash_blocks ct ++ [lengths]) 0.

(** The counter block of a nonce, with its last 32 bits at [n]. *)
Definition counter (nonce : list byte) (n : nat) : list N :=
  map Byte.to_N nonce ++ map Byte.to_N (Sha.be32 (N.of_nat n mod 2 ^ 32)).

Definition keystream (rks : list (list N)) (nonce : list byte) (blocks : nat) : list N :=
  concat (map (fun i => Aes.encrypt rks (counter nonce (i + 2))) (seq 0 blocks)).

Definition xor_bytes (bs : list byte) (ks : list N) : list byte :=
  zip_with (fun b k => Sha.byte_of (N.lxor (Byte.to_N b) k)) bs ks.

Definition gctr (rks : list (list N)) (nonce data : list byte) : list byte :=
  xor_bytes data (keystream rks nonce (block_count data)).

Definition tag (rks : list (list N)) (nonce aad ct : list byte) : list byte :=
  let h := block_number (bytes_of_ns (Aes.encrypt rks (repeat 0 16))) in
  xor_bytes (bytes_of_ns (number_bytes (ghash h aad ct))) (Aes.encrypt rks (counter nonce 1)).

(** [Seal(nil, nonce, plaintext, aad)] *)
Definition Seal (key nonce plaintext aad : list byte) : list byte :=
  let rks := Aes.round_keys key in
  let ct := gctr rks nonce plaintext in
  ct ++ tag rks nonce aad ct.

(** [Open(nil, nonce, ciphertext, aad)] *)
Definition Open (key nonce ciphertext aad : list byte) : option (list byte) :=
  if (length ciphertext <? 16)%nat then None
  else
    let n := (length ciphertext - 16)%nat in
    let ct := firstn n ciphertext in
    let rks := Aes.round_keys key in
    if bool_decide (skipn n ciphertext = tag rks nonce aad ct) then Some (gctr rks nonce ct) else None.

(** *** Opening what was sealed *)

Lemma byte_of_to_N (b : byte) : Sha.byte_of (Byte.to_N b) = b.
Proof. by destruct b. Qed.

Lemma to_N_byte_of n : Byte.to_N (Sha.byte_of n) = n mod 256.
Proof.
  unfold Sha.byte_of. destruct (Byte.of_N (n mod 256)) as [b|] eqn:E; [by apply Byte.to_of_N in E|].
  apply Byte.of_N_None_iff in E. pose proof (N.mod_upper_bound n 256). lia.
Qed.

Lemma byte_of_mod n : Sha.byte_of (n mod 256) = Sha.byte_of n.
Proof. unfold Sha.byte_of. by rewrite N.Div0.mod_mod. Qed.

Lemma xor_byte_twice b k :
  Sha.byte_of (N.lxor (Byte.to_N (Sha.byte_of (N.lxor (Byte.to_N b) k))) k) = b.
Proof.
  rewrite to_N_byte_of, <- byte_of_mod. rewrite <- (byte_of_to_N b) at 2. f_equal.
  assert (Hb : Byte.to_N b = Byte.to_N b mod 2 ^ 8)
    by (rewrite N.mod_small; [done|]; pose proof (Byte.to_N_bounded b); change (2 ^ 8) with 256; lia).
  rewrite Hb at 2. change 256 with (2 ^ 8). rewrite <- !N.land_ones.
  apply N.bits_inj. intros i. rewrite !N.land_spec, !N.lxor_spec, N.land_spec, N.lxor_spec.
  by destruct (N.testbit (N.ones 8) i), (N.testbit (Byte.to_N b) i), (N.testbit k i).
Qed.

Lemma xor_bytes_twice bs ks : (length bs <= length ks)%nat -> xor_bytes (xor_bytes bs ks) ks = bs.
Proof.
  revert ks. induction bs as [|b bs IH]; intros [|k ks] Hlen; simpl in *; try done; [lia|].
  rewrite xor_byte_twice. f_equal. apply IH. lia.
Qed.

Lemma length_xor_bytes bs ks : (length bs <= length ks)%nat -> length (xor_bytes bs ks) = length bs.
Proof. intros H. unfold xor_bytes. rewrite length_zip_with. lia. Qed.

Lemma length_keystream rks nonce blocks : length (keystream rks nonce blocks) = (16 * blocks)%nat.
Proof.
  unfold keystream. set (f := fun i => Aes.encrypt rks (counter nonce (i + 2))).
  generalize 0%nat at 1. induction blocks as [|n IH]; intros k; [done|].
  cbn [seq map concat]. rewrite length_app, IH. unfold f. rewrite Aes.length_encrypt. lia.
Qed.

Lemma block_count_enough bs : (length bs <= 16 * block_count bs)%nat.
Proof.
  unfold block_count. pose proof (Nat.div_mod_eq (length bs + 15) 16).
  pose proof (Nat.mod_upper_bound (length bs + 15) 16). lia.
Qed.

Lemma length_gctr rks nonce data : length (gctr rks nonce data) = length data.
Proof. apply length_xor_bytes. rewrite length_keystream. apply block_count_enough. Qed.

Lemma gctr_twice rks nonce data : gctr rks nonce (gctr rks nonce data) = data.
Proof.
  unfold gctr at 1. replace (block_count (gctr rks nonce data)) with (block_count data)
    by (unfold block_count; by rewrite length_gctr).
  apply xor_bytes_twice. rewrite length_keystream. apply block_count_enough.
Qed.

Lemma length_tag rks nonce aad ct : length (tag rks nonce aad ct) = 16%nat.
Proof.
  unfold tag, bytes_of_ns, number_bytes. rewrite length_xor_bytes; rewrite !length_map, length_seq; [done|].
  by rewrite Aes.length_encrypt.
Qed.

(** Decryption undoes encryption, for the same key, nonce and associated data. *)
Lemma Open_Seal key nonce plaintext aad :
  Open key nonce (Seal key nonce plaintext aad) aad = Some plaintext.
Proof.
  unfold Open, Seal. set (rks := Aes.round_keys key). set (ct := gctr rks nonce plaintext).
  rewrite length_app, length_tag. destruct (Nat.ltb_spec (length ct + 16) 16); [lia|].
  replace (length ct + 16 - 16)%nat with (length ct) by lia.
  rewrite firstn_app, skipn_app, Nat.sub_diag, firstn_all, skipn_all, firstn_O, skipn_O, app_nil_r, app_nil_l.
  rewrite bool_decide_eq_true_2 by reflexivity. unfold ct. by rewrite gctr_twice.
Qed.

End Gcm.

(** NIST test case 16: 60 bytes of plaintext and 20 of associated data. *)
Example gcm_test_case_16 :
  option_map (fun x : list byte * list byte * list byte * list byte => let '(k, iv, p, a) := x in EncodeToString (Gcm.Seal k iv p a))
    (k ← DecodeString "feffe9928665731c6d6a8f9467308308feffe9928665731c6d6a8f9467308308";
     iv ← DecodeString "cafebabefacedbaddecaf888";
     p ← DecodeString "d9313225f88406e5a55909c5aff5269a86a7a9531534f7da2e4c303d8a318a721c3c0c95956809532fcf0e2449a6b525b16aedf5aa0de657ba637b39";
     a ← DecodeString "feedfacedeadbeeffeedfacedeadbeefabaddad2"; Some (k, iv, p, a))
  = Some ("522dc1f099567d07f47f37a32a84427d643a8cdcbfe5c0c97598a2bd2555d1aa"
          ++ "8cb08e48590dbb3da7b08b1056828838c5f61e6393ba7a0abcc9f662"
          ++ "76fc6ece0f4e1768cddf8853bb2d551b")%string.
Proof. vm_compute. reflexivity. Qed.
