(* ===== verification/Credentials.v ===== *)
(** * Provider credentials: [internal/encryption]

    The sealed form of a provider's password ([credentials.go]) and the
    rotation of all of them to the active key ([rotation.go]).

    Keys of a [Box] are the 32-byte keys themselves, where the code keeps the
    cipher built from them.  A [map] of Go is a [gmap]; ranging over one has no
    order, and nothing here depends on it.  Random nonces are arguments.
    [NewEnvironment], which reads the keyring as JSON from the environment and
    ends in [New] or [NewRing], is modelled with the configuration. *)

From S2P Require Import Prelude Sha256 GoText TextFacts AesGcm Delivery SmtpClient Provider Database.

#[export] Instance eta_ProviderRow : Eta ProviderRow := fun p =>
  MkProviderRow (p_name p) (p_enabled p) (p_host p) (p_port p) (p_security p) (p_username p)
    (p_password_ciphertext p) (p_nonce p) (p_priority p) (p_hourly_limit p) (p_daily_limit p)
    (p_max_connections p) (p_timeout_seconds p) (p_from_domains p) (p_health_check_enabled p)
    (p_quota_group_id p) (p_revision p).

Module Encryption.

Record Box := MkBox { keys : gmap string (list byte); active : string; legacyWriter : bool }.

(** [keyName]: [^[A-Za-z0-9_-]{1,64}$] *)
Definition keyName (s : string) : bool :=
  all_chars name_char s && (1 <=? String.length s)%nat && (String.length s <=? 64)%nat.

(** [aead] *)
Definition aead (encoded : string) : option (list byte) :=
  match DecodeString encoded with
  | Some key => if (length key =? 32)%nat then Some key else None
  | None => None
  end.

(** [New] *)
Definition New (encoded : string) : option Box :=
  a ← aead encoded; Some (MkBox {["legacy"%string := a]} "legacy" true).

(** [NewRing] *)
Definition NewRing (active : string) (ks : gmap string string) : option Box :=
  if negb (keyName active) || String.eqb active "legacy" || (size ks <? 1)%nat || (16 <? size ks)%nat then None
  else if exists_row (fun id encoded => negb (keyName id) || is_null (aead encoded)) ks then None
  else
    let b := MkBox (omap aead ks) active false in
    if is_null (keys b !! active) then None else Some b.

(** [ActiveVersion] *)
Definition ActiveVersion (b : Box) : string := active b.

(** [Version] *)
Definition Version (nonce : list byte) : option string :=
  if (length nonce =? 12)%nat then Some "legacy"%string
  else if (length nonce <? 18)%nat || negb (bool_decide (firstn 4 nonce = bytes_of "RTK1")) then None
  else
    let n := N.to_nat (Byte.to_N (nth 4 nonce x00)) in
    if (n <? 1)%nat || (64 <? n)%nat || negb (length nonce =? 5 + n + 12)%nat then None
    else
      let id := string_of_list_byte (firstn n (skipn 5 nonce)) in
      if negb (keyName id) || String.eqb id "legacy" then None else Some id.

(** The associated data of a credential *)
Definition nul : ascii := ascii_of_N 0.
Definition versioned_aad (id version : string) : list byte :=
  bytes_of (id ++ String nul ("relaytale.credential/RTK1/" ++ version))%string.

(** [Seal]; [rand] is what [rand.Read] filled the nonce with. *)
Definition Seal (b : Box) (rand : option (list byte)) (id password : string) : option (list byte * list byte) :=
  a ← keys b !! active b;
  nonce ← rand;
  let aad := if legacyWriter b then bytes_of id else versioned_aad id (active b) in
  let encrypted := Gcm.Seal a nonce (bytes_of password) aad in
  if legacyWriter b then Some (encrypted, nonce)
  else Some (encrypted,
             bytes_of "RTK1" ++ [Sha.byte_of (N.of_nat (String.length (active b)))] ++ bytes_of (active b) ++ nonce).

(** [Open] *)
Definition Open (b : Box) (id : string) (encrypted nonce : list byte) : option string :=
  version ← Version nonce;
  a ← keys b !! version;
  let legacy := String.eqb version "legacy" in
  let aad := if legacy then bytes_of id else versioned_aad id version in
  let nonce := if legacy then nonce else skipn (length nonce - 12) nonce in
  raw ← Gcm.Open a nonce encrypted aad;
  Some (string_of_list_byte raw).

(** ** Opening what was sealed *)

(** A box as [New] and [NewRing] make it. *)
Definition well_formed (b : Box) : Prop :=
  is_Some (keys b !! active b) /\
  if legacyWriter b then active b = "legacy"%string
  else keyName (active b) = true /\ active b <> "legacy"%string.

Lemma New_well_formed encoded b : New encoded = Some b -> well_formed b.
Proof. unfold New. intros H. destruct (aead encoded); simplify_eq/=. split; [|done]. simpl. by rewrite lookup_singleton_eq. Qed.

Lemma NewRing_well_formed act ks b : NewRing act ks = Some b -> well_formed b.
Proof.
  unfold NewRing. intros H. destruct (_ || _ || _ || _) eqn:E; [done|]. destruct (exists_row _ _); [done|].
  destruct (is_null _) eqn:En; [done|]. injection H as <-. simpl in *. bsimpl. split; simpl.
  - by destruct (omap aead ks !! act).
  - tauto.
Qed.

Lemma string_bytes s : string_of_list_byte (bytes_of s) = s.
Proof. apply string_of_list_byte_of_string. Qed.

Lemma length_bytes s : length (bytes_of s) = String.length s.
Proof. unfold bytes_of, list_byte_of_string. rewrite length_map. induction s; simpl; congruence. Qed.

(** The envelope of a version and nonce names the version. *)
Definition envelope (version : string) (nonce : list byte) : list byte :=
  bytes_of "RTK1" ++ [Sha.byte_of (N.of_nat (String.length version))] ++ bytes_of version ++ nonce.

Lemma Version_envelope version nonce :
  keyName version = true -> version <> "legacy"%string -> length nonce = 12%nat ->
  Version (envelope version nonce) = Some version /\
  skipn (length (envelope version nonce) - 12) (envelope version nonce) = nonce.
Proof.
  intros Hk Hne Hn. pose proof Hk as Hk'. unfold keyName in Hk'. rewrite !andb_true_iff, !Nat.leb_le in Hk'.
  destruct Hk' as [[_ H1] H2]. pose proof (length_bytes version) as Hb.
  assert (Hlen : length (envelope version nonce) = (5 + String.length version + 12)%nat)
    by (unfold envelope; rewrite !length_app, Hb, Hn; simpl; lia).
  split.
  - unfold Version. rewrite Hlen. destruct (Nat.eqb_spec (5 + String.length version + 12) 12); [lia|].
    destruct (Nat.ltb_spec (5 + String.length version + 12) 18); [lia|].
    assert (firstn 4 (envelope version nonce) = bytes_of "RTK1") as -> by done.
    assert (nth 4 (envelope version nonce) x00 = Sha.byte_of (N.of_nat (String.length version))) as -> by done.
    assert (skipn 5 (envelope version nonce) = bytes_of version ++ nonce) as -> by done.
    rewrite bool_decide_eq_true_2 by done. rewrite Gcm.to_N_byte_of, N.mod_small, Nat2N.id by lia. cbn [negb orb].
    destruct (Nat.ltb_spec (String.length version) 1); [lia|]. destruct (Nat.ltb_spec 64 (String.length version)); [lia|].
    rewrite Nat.eqb_refl. cbn [orb negb].
    rewrite firstn_app, Hb, Nat.sub_diag, firstn_O, app_nil_r, firstn_all2 by lia. rewrite string_bytes, Hk.
    by destruct (String.eqb_spec version "legacy").
  - rewrite Hlen. unfold envelope. rewrite app_assoc, app_assoc, skipn_app, skipn_all2; rewrite !length_app, Hb; simpl; [|lia].
    replace (_ - _)%nat with 0%nat by lia. by rewrite skipn_O.
Qed.

Lemma Open_sealed b b' nonce id password :
  well_formed b -> length nonce = 12%nat -> keys b' !! active b = keys b !! active b ->
  exists ct env, Seal b (Some nonce) id password = Some (ct, env) /\ Version env = Some (active b) /\
                 Open b' id ct env = Some password.
Proof.
  intros [[a Ha] Hmode] Hn Hb'. unfold Seal. rewrite Ha. simpl.
  destruct (legacyWriter b).
  - eexists _, nonce. split; [reflexivity|]. unfold Open, Version. rewrite Hn, Hmode in *. simpl. split; [done|].
    rewrite Hb', Ha. simpl. rewrite Gcm.Open_Seal. simpl. by rewrite string_bytes.
  - destruct Hmode as [Hk Hne]. destruct (Version_envelope (active b) nonce Hk Hne Hn) as [Hv Hs].
    eexists _, (envelope (active b) nonce). split; [reflexivity|]. split; [done|].
    unfold Open. rewrite Hv. cbn [mbind option_bind]. rewrite Hb', Ha. cbn [mbind option_bind].
    destruct (String.eqb_spec (active b) "legacy"); [done|]. rewrite Hs, Gcm.Open_Seal. simpl. by rewrite string_bytes.
Qed.

(** A sealed password opens again.  For every box that [New] or [NewRing]
    accepts, sealing with a fresh nonce succeeds, the stored envelope names the
    active key, and every box that still has that key under its name, whatever
    its active key is, opens the credential of that provider to the same
    password. *)
Theorem sealed_opens b nonce id password :
  (exists encoded, New encoded = Some b) \/ (exists act ks, NewRing act ks = Some b) -> length nonce = 12%nat ->
  exists ct env, Seal b (Some nonce) id password = Some (ct, env) /\ Version env = Some (ActiveVersion b) /\
    forall b', keys b' !! ActiveVersion b = keys b !! ActiveVersion b -> Open b' id ct env = Some password.
Proof.
  intros Hb Hn. assert (Hw : well_formed b)
    by (destruct Hb as [(e & H)|(act & ks & H)]; [by eapply New_well_formed|by eapply NewRing_well_formed]).
  destruct (Open_sealed b b nonce id password Hw Hn eq_refl) as (ct & env & H1 & H2 & _).
  exists ct, env. split; [done|]. split; [done|]. intros b' Hb'.
  destruct (Open_sealed b b' nonce id password Hw Hn Hb') as (ct' & env' & H1' & _ & H3). congruence.
Qed.

(** ** The form of stored envelopes *)

Lemma keyName_length s : keyName s = true -> (1 <= String.length s <= 64)%nat.
Proof. unfold keyName. rewrite !andb_true_iff, !Nat.leb_le. lia. Qed.

(** The version of an envelope is unambiguous: an envelope is either a bare
    twelve-byte nonce, of the legacy key, or it is exactly the marker, the
    length, the name and a twelve-byte nonce of a valid key name other than
    "legacy"; everything else is refused. *)
Theorem Version_spec nonce v :
  Version nonce = Some v <->
  (length nonce = 12%nat /\ v = "legacy"%string) \/
  (keyName v = true /\ v <> "legacy"%string /\ exists tail, length tail = 12%nat /\ nonce = envelope v tail).
Proof.
  split.
  - unfold Version. destruct (Nat.eqb_spec (length nonce) 12) as [H12|H12]; [intros [= <-]; auto|].
    destruct (_ || _) eqn:E; [done|]. bsimpl. rewrite Nat.ltb_ge in E. destruct E as [H18 Hpre].
    set (n := N.to_nat (Byte.to_N (nth 4 nonce x00))).
    destruct (_ || _ || _) eqn:E2; [done|]. bsimpl. rewrite !Nat.ltb_ge, Nat.eqb_eq in E2. destruct E2 as [[Hn1 Hn2] Hlen].
    destruct (negb _ || _) eqn:E3; [done|]. bsimpl. destruct E3 as [Hk Hne]. intros [= <-]. right.
    split; [done|]. split; [done|]. exists (skipn (5 + n) nonce). rewrite length_skipn. split; [lia|].
    set (name := firstn n (skipn 5 nonce)) in *.
    assert (Hname : bytes_of (string_of_list_byte name) = name) by apply list_byte_of_string_of_list_byte.
    assert (Hln : length name = n) by (unfold name; rewrite length_firstn, length_skipn; lia).
    unfold envelope. rewrite <- length_bytes, Hname, Hln.
    assert (Hb : Sha.byte_of (N.of_nat n) = nth 4 nonce x00) by (unfold n; rewrite N2Nat.id; apply Gcm.byte_of_to_N).
    rewrite Hb, <- Hpre. rewrite <- (firstn_skipn 4 nonce) at 1. f_equal.
    assert (H4 : skipn 4 nonce = nth 4 nonce x00 :: skipn 5 nonce).
    { clear -H18. do 5 (destruct nonce as [|? nonce]; [simpl in H18; lia|]). done. }
    rewrite H4. simpl. f_equal. unfold name. rewrite <- (firstn_skipn n (skipn 5 nonce)) at 1. by rewrite skipn_skipn, Nat.add_comm.
  - intros [[Hn ->]|(Hk & Hne & tail & Hlen & ->)]; [unfold Version; by rewrite Hn|]. by apply Version_envelope.
Qed.

(** ** Rotation: [rotation.go] *)

Record RotationReport := MkRotationReport {
  rep_Active : string; rep_Versions : gmap string Z; rep_Checked : Z; rep_Changed : Z; rep_Applied : bool }.
#[export] Instance eta_RotationReport : Eta RotationReport := fun r =>
  MkRotationReport (rep_Active r) (rep_Versions r) (rep_Checked r) (rep_Changed r) (rep_Applied r).

(** Every failure after the checks has this one error. *)
Definition fail : DBErr := ErrText "provider key rotation failed; no successful commit confirmed".

Definition has_nul (s : string) : bool := existsb (fun c => Ascii.eqb c nul) (list_ascii_of_string s).

Definition rotation_refused (b : Box) (actor reason : string) : bool :=
  String.eqb (ActiveVersion b) "legacy" || negb (ValidString actor) || negb (ValidString reason)
  || String.eqb (TrimSpace actor) "" || String.eqb (TrimSpace reason) ""
  || (128 <? String.length actor)%nat || (2048 <? String.length reason)%nat || has_nul actor || has_nul reason.

(** A value of the code or its one error. *)
Definition or_fail {A} (o : option A) : M A := match o with Some a => mret a | None => raise fail end.

Definition count_version (v : string) (m : gmap string Z) : gmap string Z :=
  <[v := match m !! v with Some n => n | None => 0 end + 1]> m.

(** The loop over the records; a trigger advances the revision of a provider
    that is updated. *)
Fixpoint rotate_records (b : Box) (rand : UUID -> option (list byte)) (apply : bool)
    (records : list (UUID * ProviderRow)) (report : RotationReport) : M RotationReport :=
  match records with
  | [] => mret report
  | (id, r) :: rest =>
      version ← or_fail (Version (p_nonce r));
      plain ← or_fail (Open b (uuid_text id) (p_password_ciphertext r) (p_nonce r));
      let report := report <| rep_Checked := rep_Checked report + 1 |>
                           <| rep_Versions := count_version version (rep_Versions report) |> in
      if String.eqb version (rep_Active report) then rotate_records b rand apply rest report
      else
        let report := report <| rep_Changed := rep_Changed report + 1 |> in
        (if apply then
           sealed ← or_fail (Seal b (rand id) (uuid_text id) plain);
           exec (fun _ db => db <| providers := update (fun k _ => bool_decide (k = id))
                   (fun p => p <| p_password_ciphertext := fst sealed |> <| p_nonce := snd sealed |>
                             <| p_revision := p_revision p + 1 |>)
                   (providers db) |>)
         else mret tt);;
        rotate_records b rand apply rest report
  end.

Definition provider_id_leb (x y : UUID * ProviderRow) : bool := (fst x <=? fst y)%N.

Definition report_json (reason : string) (r : RotationReport) : json :=
  JObj [("reason", JStr reason);
        ("report", JObj [("active_version", JStr (rep_Active r));
                         ("source_versions", JObj (map (fun kv => (fst kv, JNum (snd kv))) (map_to_list (rep_Versions r))));
                         ("checked", JNum (rep_Checked r)); ("changed", JNum (rep_Changed r));
                         ("applied", JBool (rep_Applied r))])]%string.

(** [RotateProviders]; [noRuntime] is the answer of [database.CheckNoRuntime]. *)
Definition RotateProviders (b : Box) (rand : UUID -> option (list byte)) (actor reason : string)
    (apply noRuntime : bool) : M (TxEnd RotationReport) :=
  if rotation_refused b actor reason
  then raise (ErrText "rotation requires a versioned keyring and valid actor/reason")
  else if negb noRuntime then raise (ErrText "runtime owner is active")
  else
    records ← query (fun _ db =>
      firstn (Z.to_nat 10001) (sort_by provider_id_leb (select (fun _ _ => true) (providers db))));
    (if 10000 <? Z.of_nat (length records) then raise fail else mret tt);;
    report ← rotate_records b rand apply records (MkRotationReport (ActiveVersion b) ∅ 0 0 apply);
    if negb apply then mret (Rollback (inr report))
    else
      id ← fresh;
      stmt (fun _ db => rows ← insert_row id (MkAudit "PROVIDER_KEYS_ROTATED" actor (report_json reason report))
                                 (maintenance_audit db);
                        Some (tt, db <| maintenance_audit := rows |>));;
      mret (Commit (inr report)).

(** The credential of provider [pid] was moved to the active key. *)
Definition rotated (b : Box) (pid : UUID) (p p' : ProviderRow) : Prop :=
  exists password,
    Open b (uuid_text pid) (p_password_ciphertext p) (p_nonce p) = Some password /\
    Open b (uuid_text pid) (p_password_ciphertext p') (p_nonce p') = Some password /\
    Version (p_nonce p') = Some (ActiveVersion b) /\
    (p' = p \/ p_revision p' = p_revision p + 1) /\
    p' = p <| p_password_ciphertext := p_password_ciphertext p' |> <| p_nonce := p_nonce p' |> <| p_revision := p_revision p' |>.

Section Rotation.
  Context (b : Box) (rand : UUID -> option (list byte)).
  Hypothesis Hb : well_formed b.
  Hypothesis Hrand : forall id nonce, rand id = Some nonce -> length nonce = 12%nat.

Lemma triple_or_fail {A} (P : DB -> Prop) (o : option A) : triple P (or_fail o) (fun a db => P db /\ o = Some a).
Proof. destruct o; [by apply triple_return|apply triple_raise]. Qed.

(** The records are read, nothing else is. *)
Definition rotation_of (records : list (UUID * ProviderRow)) (db0 db : DB) : Prop :=
  (exists ps, db = db0 <| providers := ps |>) /\
  forall pid, match providers db0 !! pid with
              | Some p => exists p', providers db !! pid = Some p' /\
                                     if bool_decide (pid ∈ map fst records) then rotated b pid p p' else p' = p
              | None => providers db !! pid = None
              end.

Lemma rotate_records_ok records report db0 :
  NoDup (map fst records) -> (forall id r, (id, r) ∈ records -> providers db0 !! id = Some r) ->
  rep_Active report = active b ->
  triple (fun db => db = db0) (rotate_records b rand true records report) (fun rep db =>
    rotation_of records db0 db /\ rep_Checked rep = rep_Checked report + Z.of_nat (length records)).
Proof.
  revert report db0. induction records as [|[id r] rest IH]; intros report db0 Hnd Hin Hact; cbn [rotate_records].
  { apply triple_return. intros db ->. split; [|simpl; lia]. split; [exists (providers db0); by destruct db0|].
    intros pid. destruct (providers db0 !! pid); [|done]. simpl. eauto. }
  simpl in Hnd. apply NoDup_cons in Hnd as [Hfresh Hnd].
  assert (Hrow : providers db0 !! id = Some r) by (apply Hin; by left).
  apply (triple_bind _ (fun v db => db = db0 /\ Version (p_nonce r) = Some v)); [apply triple_or_fail|]. intros version.
  apply triple_pure. intros Hv.
  apply (triple_bind _ (fun plain db => db = db0 /\ Open b (uuid_text id) (p_password_ciphertext r) (p_nonce r) = Some plain));
    [apply triple_or_fail|]. intros plain. apply triple_pure. intros Hopen.
  (* What is left of the list, from a database in which this record is done. *)
  assert (Hrest : forall report1 db1, rep_Active report1 = active b -> rep_Checked report1 = rep_Checked report + 1 ->
    (exists ps, db1 = db0 <| providers := ps |>) ->
    (forall pid, pid <> id -> providers db1 !! pid = providers db0 !! pid) ->
    (exists p', providers db1 !! id = Some p' /\ rotated b id r p') ->
    triple (fun db => db = db1) (rotate_records b rand true rest report1) (fun rep db =>
      rotation_of ((id, r) :: rest) db0 db /\ rep_Checked rep = rep_Checked report + Z.of_nat (length ((id, r) :: rest)))).
  { intros report1 db1 Ha Hc (ps & ->) Hother (p' & Hp' & Hrot).
    eapply triple_conseq; [apply (IH report1 (db0 <| providers := ps |>)); [done| |done]|done|].
    - intros k x Hk. rewrite Hother; [apply Hin; by right|]. intros ->. apply Hfresh.
      apply list_elem_of_fmap. exists (id, x). done.
    - intros rep db [[(ps' & ->) Hall] Hcheck]. split; [|simpl length; lia].
      split; [by exists ps'|]. intros pid. specialize (Hall pid). simpl in *.
      destruct (decide (pid = id)) as [->|Hne].
      + rewrite Hrow. rewrite Hp' in Hall. destruct Hall as (q & Hq & Hcase). exists q. split; [done|].
        rewrite bool_decide_eq_true_2 by set_solver. rewrite bool_decide_eq_false_2 in Hcase by done. by subst.
      + rewrite Hother in Hall by done. destruct (providers db0 !! pid); [|done]. destruct Hall as (q & Hq & Hcase).
        exists q. split; [done|]. case_bool_decide; case_bool_decide; set_solver. }
  cbv zeta. simpl rep_Active. rewrite Hact. destruct (String.eqb_spec version (active b)) as [->|Hne].
  - apply Hrest; try done; [exists (providers db0); by destruct db0|]. exists r. split; [done|].
    exists plain. do 3 (split; [done|]). split; [by left|]. by destruct r.
  - apply (triple_bind _ (fun (_ : unit) db => exists p', rotated b id r p' /\
             db = db0 <| providers := <[id := p']> (providers db0) |>)).
    + apply (triple_bind _ (fun sealed db => db = db0 /\ Seal b (rand id) (uuid_text id) plain = Some sealed));
        [apply triple_or_fail|]. intros [ct env]. apply triple_pure. intros Hseal. apply triple_exec. intros t db ->.
      exists (r <| p_password_ciphertext := ct |> <| p_nonce := env |> <| p_revision := p_revision r + 1 |>). split.
      * destruct (rand id) as [nonce|] eqn:Er; [|unfold Seal in Hseal; by destruct (keys b !! active b)].
        destruct (Open_sealed b b nonce (uuid_text id) plain Hb (Hrand id nonce Er) eq_refl) as (ct' & env' & H1 & H2 & H3).
        rewrite H1 in Hseal. injection Hseal as <- <-. exists plain. do 3 (split; [done|]). split; [by right|done].
      * simpl. f_equal. apply map_eq. intros k. rewrite lookup_update. destruct (decide (k = id)) as [->|Hk].
        { rewrite Hrow, lookup_insert_eq. simpl. by rewrite bool_decide_eq_true_2. }
        { rewrite lookup_insert_ne by done. destruct (providers db0 !! k); simpl; by rewrite ?bool_decide_eq_false_2. }
    + intros []. apply triple_from. intros db1 (p' & Hrot & ->). apply Hrest; try done; simpl.
      * eauto.
      * intros pid Hk. by rewrite lookup_insert_ne.
      * exists p'. by rewrite lookup_insert_eq.
Qed.

End Rotation.

Lemma all_records (ps : gmap UUID ProviderRow) :
  let all := sort_by provider_id_leb (select (fun _ _ => true) ps) in
  NoDup (map fst all) /\ (forall id r, (id, r) ∈ all <-> ps !! id = Some r) /\ length all = size ps.
Proof.
  assert (Hsel : select (fun _ _ => true) ps = map_to_list ps)
    by (unfold select; induction (map_to_list ps) as [|x l IH]; simpl; congruence).
  cbv zeta. rewrite Hsel. split; [|split].
  - rewrite (fmap_Permutation fst _ _ (sort_by_perm provider_id_leb (map_to_list ps))). apply NoDup_fst_map_to_list.
  - intros id r. by rewrite elem_sort_by, elem_of_map_to_list.
  - by rewrite sort_by_perm, length_map_to_list.
Qed.

(** Every credential is under the active key and nothing but credentials and
    the audit trail changed. *)
Definition all_rotated (b : Box) (db db' : DB) : Prop :=
  (exists ps rows, db' = db <| providers := ps |> <| maintenance_audit := rows |>) /\
  forall pid, match providers db !! pid with
              | Some p => exists p', providers db' !! pid = Some p' /\ rotated b pid p p'
              | None => providers db' !! pid = None
              end.

Lemma RotateProviders_ok b rand actor reason noRuntime db0 :
  well_formed b -> (forall id nonce, rand id = Some nonce -> length nonce = 12%nat) ->
  triple (fun db => db = db0) (RotateProviders b rand actor reason true noRuntime) (fun r db => match r with
    | Commit (inr report) => all_rotated b db0 db /\ rep_Checked report = Z.of_nat (size (providers db0))
    | _ => False
    end).
Proof.
  intros Hb Hrand. unfold RotateProviders. destruct (rotation_refused b actor reason); [apply triple_raise|].
  destruct (negb noRuntime); [apply triple_raise|].
  set (all := sort_by provider_id_leb (select (fun _ _ => true) (providers db0))).
  apply (triple_bind _ (fun records db => db = db0 /\ records = firstn (Z.to_nat 10001) all));
    [apply triple_query; by intros t db ->|]. intros records. apply triple_pure. intros ->.
  apply (triple_bind _ (fun (_ : unit) db => db = db0 /\ firstn (Z.to_nat 10001) all = all)).
  { destruct (Z.ltb_spec 10000 (Z.of_nat (length (firstn (Z.to_nat 10001) all)))) as [|Hle]; [apply triple_raise|].
    apply triple_return. intros db ->. split; [done|]. apply firstn_all2. rewrite length_firstn in Hle. lia. }
  intros []. apply triple_pure. intros ->. destruct (all_records (providers db0)) as (Hnd & Hall & Hlen). fold all in Hnd, Hall, Hlen.
  apply (triple_bind _ (fun rep db => rotation_of b all db0 db /\ rep_Checked rep = Z.of_nat (length all))).
  { eapply triple_conseq; [apply (rotate_records_ok b rand Hb Hrand all _ db0 Hnd)| |]; try done. intros id r. apply Hall. }
  intros report. cbn [negb]. apply (triple_bind _ (fun (_ : UUID) db => rotation_of b all db0 db /\ rep_Checked report = Z.of_nat (length all)));
    [apply triple_fresh|]. intros id.
  apply (triple_bind _ (fun (_ : unit) db => all_rotated b db0 db /\ rep_Checked report = Z.of_nat (length all))).
  - apply triple_stmt. intros t db [] db' [[(ps & ->) Hrot] Hc] H. destruct (insert_row _ _ _) as [rows|]; [|done].
    injection H as <-. split; [|done]. split; [by exists ps, rows|]. intros pid. specialize (Hrot pid). simpl in *.
    destruct (providers db0 !! pid) as [p|] eqn:Hp; [|done]. destruct Hrot as (p' & Hp' & Hcase). exists p'. split; [done|].
    rewrite bool_decide_eq_true_2 in Hcase; [done|]. apply list_elem_of_fmap. exists (pid, p). split; [done|]. by apply Hall.
  - intros []. apply triple_return. intros db [H1 H2]. split; [done|]. by rewrite H2, Hlen.
Qed.

(** A dry run never changes anything, *)
Lemma Rotate_dry w b rand actor reason noRuntime db : snd (transact w (RotateProviders b rand actor reason false noRuntime) db) = db.
Proof.
  assert (Hdry : triple (fun _ => True) (RotateProviders b rand actor reason false noRuntime)
            (fun e _ => exists rep, e = Rollback rep)).
  { unfold RotateProviders. destruct (rotation_refused _ _ _); [apply triple_raise|]. destruct (negb noRuntime); [apply triple_raise|].
    eapply triple_bind; [apply triple_any|]. intros records. eapply triple_bind; [apply triple_any|]. intros [].
    eapply triple_bind; [apply triple_any|]. intros rep. apply triple_return. eauto. }
  destruct (transact w (RotateProviders b rand actor reason false noRuntime) db) as [r2 d2] eqn:E. simpl.
  destruct (transact_triple _ _ _ _ _ _ _ Hdry I E) as [->|(r' & (rep & H) & _)]; done.
Qed.

(** and a rotation changes nothing or everything. *)
Lemma Rotate_outcome w b rand actor reason noRuntime db r db' :
  well_formed b -> (forall id nonce, rand id = Some nonce -> length nonce = 12%nat) ->
  transact w (RotateProviders b rand actor reason true noRuntime) db = (r, db') -> db' = db \/ all_rotated b db db'.
Proof.
  intros Hb Hrand Hrun. pose proof (RotateProviders_ok b rand actor reason noRuntime db Hb Hrand) as Ht.
  destruct (transact_triple _ _ _ _ _ _ _ Ht eq_refl Hrun) as [->|([e|rep] & H & _)]; [by left|done|right; apply H].
Qed.

(** C38. Rotation re-seals everything or nothing.  Whatever becomes of a
    rotation (an unreadable credential, a failing statement, a lost commit
    answer), afterwards either nothing changed, or every provider's credential
    opens to the same password as before and is under the active key, every
    other column but the revision and every other table but the audit trail
    being as before; a reported
    success has checked every provider; and a dry run never changes anything. *)
Theorem rotation_reseals w b rand actor reason noRuntime db r db' :
  (exists act ks, NewRing act ks = Some b) -> (forall id nonce, rand id = Some nonce -> length nonce = 12%nat) ->
  transact w (RotateProviders b rand actor reason true noRuntime) db = (r, db') ->
  (db' = db \/ all_rotated b db db') /\
  (forall report, r = inr report -> all_rotated b db db' /\ rep_Checked report = Z.of_nat (size (providers db))) /\
  snd (transact w (RotateProviders b rand actor reason false noRuntime) db) = db.
Proof.
  intros (act & ks & Hring) Hrand Hrun. pose proof (NewRing_well_formed _ _ _ Hring) as Hb.
  pose proof (RotateProviders_ok b rand actor reason noRuntime db Hb Hrand) as Ht. split; [|split; [|apply Rotate_dry]].
  - by eapply Rotate_outcome.
  - intros report ->. by destruct (transact_value _ _ _ _ _ _ _ Ht eq_refl Hrun) as [H|(d & [] & _)].
Qed.

(** ** A keyring of two keys *)

Definition demo_hex (c : string) : string := String.concat "" (repeat c 64).
Definition demo_ring : gmap string string := {["2025"%string := demo_hex "a"; "legacy"%string := demo_hex "b"]}.
Definition demo_box : Box := default (MkBox ∅ "" false) (NewRing "2025" demo_ring).
Definition demo_legacy : Box := default (MkBox ∅ "" false) (New (demo_hex "b")).
Definition demo_nonce : list byte := repeat x07 12.

Example demo_boxes :
  NewRing "2025" demo_ring = Some demo_box /\ New (demo_hex "b") = Some demo_legacy /\
  NewRing "2026" demo_ring = None /\ Version demo_nonce = Some "legacy"%string.
Proof. vm_compute. done. Qed.

Lemma sealed_opens_witness :
  exists ct env, Seal demo_box (Some demo_nonce) "p1" "secret" = Some (ct, env) /\
    Version env = Some "2025"%string /\
    forall b', keys b' !! "2025"%string = keys demo_box !! "2025"%string -> Open b' "p1" ct env = Some "secret"%string.
Proof.
  apply (sealed_opens demo_box demo_nonce "p1" "secret"); [|reflexivity].
  right. exists "2025"%string, demo_ring. vm_compute. reflexivity.
Defined.

(** A provider whose password the legacy key sealed. *)
Definition demo_row : ProviderRow :=
  let c := default ([], []) (Seal demo_legacy (Some demo_nonce) (uuid_text 7) "secret") in
  MkProviderRow "demo" true "smtp.example" 465 "implicit_tls" "user" (fst c) (snd c) 0 None None 1 30 [] true None 1.
Definition demo_providers : DB :=
  MkDB ∅ ∅ ∅ ∅ {[7%N := demo_row]} ∅ ∅ ∅ ∅ ∅ ∅ ∅ 0 ∅ ∅ ∅ ∅ ∅ ∅ [] ∅ ∅ ∅ ∅ ∅ ∅ ∅ ∅ ∅ ∅ ∅ ∅ ∅ ∅.
Definition demo_tx : World :=
  MkWorld 0 (fun _ => 0) (fun _ => 0) (fun k => N.of_nat k) (fun _ => false) (fun _ _ => false) (fun _ _ => false) Z.of_N (fun _ => "{}"%string) (fun _ => EmptyString) Committed.
Definition demo_rotation :=
  transact demo_tx (RotateProviders demo_box (fun _ => Some demo_nonce) "ops" "yearly" true true) demo_providers.

Lemma rotation_reseals_witness : all_rotated demo_box demo_providers (snd demo_rotation).
Proof.
  apply (proj1 (proj2 (rotation_reseals demo_tx demo_box (fun _ => Some demo_nonce) "ops" "yearly" true demo_providers
    (fst demo_rotation) (snd demo_rotation)
    (ex_intro _ "2025"%string (ex_intro _ demo_ring (proj1 demo_boxes)))
    (fun _ nonce H => eq_trans (f_equal (@length byte) (eq_sym (f_equal (default []) H))) eq_refl)
    (surjective_pairing demo_rotation)))
    (MkRotationReport "2025" {["legacy"%string := 1]} 1 1 true)).
  vm_compute. reflexivity.
Defined.

End Encryption.
