(* ===== verification/Auth.v ===== *)
(** * SMTP accounts: [internal/auth]

    Addresses and the sender rights of an account ([accounts.go]), passwords
    ([password.go]).  The mail parser of Go's [net/mail] and Argon2id
    ([golang.org/x/crypto/argon2]) are parameters: a class of operations, with
    the one law the code relies on, that a derived key has the length asked
    for. *)

From S2P Require Import Prelude Sha256 GoText TextFacts.

(** [mail.ParseAddress]: display name and address, or an error. *)
Class MailParser := ParseAddress : string -> option (string * string).

(** [argon2.IDKey(password, salt, 3, 64*1024, 2, 32)] *)
Class Argon2 := {
  IDKey : list byte -> list byte -> list byte;
  IDKey_length : forall password salt, length (IDKey password salt) = 32%nat }.

Module Auth.

(** ** Addresses *)

Section Addresses.
  Context {parser : MailParser}.

Record Account := MkAccount { ac_ID : UUID; AllowedFrom : list string }.

(** [strings.LastIndexByte(value, '@')] *)
Fixpoint last_at (s : string) : option nat :=
  match s with
  | EmptyString => None
  | String c rest =>
      match last_at rest with
      | Some n => Some (S n)
      | None => if Ascii.eqb c "@" then Some 0%nat else None
      end
  end.

(** A byte above 127 starts a rune above 127, or the replacement rune of an
    invalid sequence. *)
Fixpoint is_ascii (s : string) : bool :=
  match s with EmptyString => true | String c rest => (N_of_ascii c <=? 127)%N && is_ascii rest end.

Definition line_breaks : string := String "010" (String "013" EmptyString).

(** [CanonicalAddress] *)
Definition CanonicalAddress (value : string) : option string :=
  if (254 <? String.length value)%nat || ContainsAny value line_breaks then None
  else if negb (is_ascii value) then None
  else match ParseAddress value with
       | Some (name, address) =>
           if negb (String.eqb name "") || negb (String.eqb address value) then None
           else match last_at value with
                | Some at_ =>
                    if (at_ =? 0)%nat || (at_ =? String.length value - 1)%nat then None
                    else Some (take (S at_) value ++ ToLower (drop (S at_) value))%string
                | None => None
                end
       | None => None
       end.

(** [Account.Allows] *)
Definition Allows (a : Account) (from : string) : bool :=
  match CanonicalAddress from with
  | None => false
  | Some value => existsb (fun allowed => bool_decide (CanonicalAddress allowed = Some value)) (AllowedFrom a)
  end.

(** *** What the canonical form keeps *)

Lemma last_at_lt s n : last_at s = Some n -> (n < String.length s)%nat.
Proof.
  revert n. induction s as [|c s IH]; intros n; simpl; [done|].
  destruct (last_at s) as [k|]; [intros [= <-]; specialize (IH k eq_refl); lia|].
  destruct (Ascii.eqb c "@"); [intros [= <-]; lia|done].
Qed.

(** The domain has no further [@]; lowering letters makes none. *)
Lemma last_at_split s n :
  last_at s = Some n <->
  exists l r, s = (l ++ String "@" r)%string /\ String.length l = n /\ last_at r = None.
Proof.
  revert n. induction s as [|c s IH]; intros n; simpl.
  - split; [done|]. intros (l & r & H & _). by destruct l.
  - destruct (last_at s) as [k|] eqn:E.
    + split.
      * intros [= <-]. destruct (proj1 (IH k) eq_refl) as (l & r & -> & Hl & Hr).
        exists (String c l), r. rewrite append_cons. simpl. by rewrite Hl.
      * intros (l & r & H & Hl & Hr). destruct l as [|d l]; rewrite ?append_nil, ?append_cons in H; simplify_eq/=.
        assert (Some k = Some (String.length l)) as [= ->]; [|done]. apply IH. eauto.
    + split.
      * destruct (Ascii.eqb_spec c "@") as [->|]; [|done]. intros [= <-]. by exists EmptyString, s.
      * intros (l & r & H & Hl & Hr). destruct l as [|d l]; rewrite ?append_nil, ?append_cons in H; simplify_eq/=; [done|].
        exfalso. assert (None = Some (String.length l)); [|done]. apply IH. eauto.
Qed.

Lemma last_at_lower s : last_at (ToLower s) = last_at s.
Proof.
  induction s as [|c s IH]; simpl; [done|]. rewrite IH.
  assert (Ascii.eqb (lower_char c) "@" = Ascii.eqb c "@") as ->; [|done].
  destruct c as [[] [] [] [] [] [] [] []]; vm_compute; reflexivity.
Qed.

(** A mailbox in canonical form: local part, [@], domain in lower case. *)
Definition mailbox (local domain : string) : string := (local ++ String "@" (ToLower domain))%string.

Lemma CanonicalAddress_some value c :
  CanonicalAddress value = Some c ->
  exists local domain, value = (local ++ String "@" domain)%string /\ c = mailbox local domain /\
    local <> ""%string /\ domain <> ""%string /\ last_at domain = None /\
    (String.length value <= 254)%nat /\ is_ascii value = true /\ ContainsAny value line_breaks = false.
Proof.
  unfold CanonicalAddress. destruct ((254 <? String.length value)%nat || ContainsAny value line_breaks) eqn:E1; [done|].
  destruct (negb (is_ascii value)) eqn:E2; [done|].
  destruct (ParseAddress value) as [[name address]|]; [|done].
  destruct (negb (String.eqb name "") || negb (String.eqb address value)); [done|].
  destruct (last_at value) as [n|] eqn:Ea; [|done].
  destruct ((n =? 0)%nat || (n =? String.length value - 1)%nat) eqn:E4; [done|]. intros Hc.
  assert (Hform : c = (take (S n) value ++ ToLower (drop (S n) value))%string) by congruence. clear Hc. subst c.
  bsimpl. rewrite Nat.ltb_ge in E1. rewrite !Nat.eqb_neq in E4.
  apply last_at_split in Ea as (l & r & -> & <- & Hr). exists l, r.
  rewrite length_append in E4. simpl in E4.
  assert (Hsplit : (l ++ String "@" r)%string = ((l ++ "@") ++ r)%string) by (by rewrite append_assoc).
  assert (Hlen : S (String.length l) = String.length (l ++ "@")) by (rewrite length_append; simpl; lia).
  split; [done|]. split; [by rewrite Hsplit, Hlen, take_exact, drop_exact, append_assoc|]. destruct E4 as [E4 E5].
  split; [intros ->; simpl in E4; lia|]. split; [intros ->; simpl in E5; lia|]. tauto.
Qed.

(** Canonical addresses.  A canonical address keeps the local part exactly
    and lowers the domain; two addresses have the same form exactly when they
    differ at most in the case of the domain, so a sender right never extends
    to another mailbox; and an account allows exactly the senders whose form is
    that of one of its addresses. *)
Theorem sender_rights a from :
  Allows a from = true <->
  exists allowed local domain domain',
    allowed ∈ AllowedFrom a /\
    is_Some (CanonicalAddress from) /\ is_Some (CanonicalAddress allowed) /\
    from = (local ++ String "@" domain)%string /\ allowed = (local ++ String "@" domain')%string /\
    last_at domain = None /\ last_at domain' = None /\ ToLower domain = ToLower domain'.
Proof.
  assert (Hsame : forall x y cx cy, CanonicalAddress x = Some cx -> CanonicalAddress y = Some cy ->
    cx = cy <-> exists l d d', x = (l ++ String "@" d)%string /\ y = (l ++ String "@" d')%string /\
                  last_at d = None /\ last_at d' = None /\ ToLower d = ToLower d').
  { intros x y cx cy Hx Hy.
    apply CanonicalAddress_some in Hx as (l & d & -> & -> & _ & _ & Hd & _).
    apply CanonicalAddress_some in Hy as (l' & d' & -> & -> & _ & _ & Hd' & _). unfold mailbox. split.
    - intros Heq. assert (Hl : last_at (l ++ String "@" (ToLower d)) = Some (String.length l))
        by (apply last_at_split; exists l, (ToLower d); by rewrite last_at_lower).
      assert (Hl' : last_at (l' ++ String "@" (ToLower d')) = Some (String.length l'))
        by (apply last_at_split; exists l', (ToLower d'); by rewrite last_at_lower).
      rewrite Heq, Hl' in Hl. injection Hl as Hlen.
      assert (l = l') as ->.
      { rewrite <- (take_exact l (String "@" (ToLower d))), <- (take_exact l' (String "@" (ToLower d'))). by rewrite Heq, Hlen. }
      exists l', d, d'. split; [done|]. split; [done|]. split; [done|]. split; [done|].
      pose proof (drop_exact l' (String "@" (ToLower d))) as H1. rewrite Heq, drop_exact in H1. congruence.
    - intros (k & e & e' & H1 & H2 & He & He' & Heq).
      assert (Hk : last_at (l ++ String "@" d) = Some (String.length k)) by (rewrite H1; apply last_at_split; eauto).
      assert (Hk' : last_at (l' ++ String "@" d') = Some (String.length k)) by (rewrite H2; apply last_at_split; eauto).
      assert (Hl : last_at (l ++ String "@" d) = Some (String.length l)) by (apply last_at_split; eauto).
      assert (Hl' : last_at (l' ++ String "@" d') = Some (String.length l')) by (apply last_at_split; eauto).
      rewrite Hk in Hl. rewrite Hk' in Hl'. injection Hl as Hl. injection Hl' as Hl'.
      assert (l = k) as -> by (rewrite <- (take_exact l (String "@" d)), H1, <- Hl; apply take_exact).
      assert (l' = k) as -> by (rewrite <- (take_exact l' (String "@" d')), H2, <- Hl'; apply take_exact).
      pose proof (drop_exact k (String "@" d)) as D1. rewrite H1, drop_exact in D1. injection D1 as ->.
      pose proof (drop_exact k (String "@" d')) as D2. rewrite H2, drop_exact in D2. injection D2 as ->. by rewrite Heq. }
  unfold Allows. destruct (CanonicalAddress from) as [value|] eqn:Ef.
  - rewrite existsb_exists. split.
    + intros (allowed & Hin & Hc). apply bool_decide_eq_true in Hc.
      destruct (proj1 (Hsame from allowed value value Ef Hc) eq_refl) as (l & d & d' & H1 & H2 & H3 & H4 & H5).
      exists allowed, l, d, d'. rewrite Hc. split; [by apply list_elem_of_In|]. split; [done|]. split; [done|]. done.
    + intros (allowed & l & d & d' & Hin & _ & [ca Hca] & H1 & H2 & H3 & H4 & H5). exists allowed.
      split; [by apply list_elem_of_In|]. apply bool_decide_eq_true. rewrite Hca. f_equal. symmetry.
      apply (Hsame from allowed value ca Ef Hca). eauto 10.
  - split; [done|]. intros (? & ? & ? & ? & _ & [? ?] & _). done.
Qed.

End Addresses.
(** ** Unpadded base64: [base64.RawStdEncoding] *)

Fixpoint raw64 (bs : list byte) : string :=
  let hi n k := base64_char (N.shiftr n k mod 64) in
  match bs with
  | [] => EmptyString
  | [a] =>
      let n := (Byte.to_N a * 65536)%N in String (hi n 18%N) (String (hi n 12%N) EmptyString)
  | [a; b] =>
      let n := (Byte.to_N a * 65536 + Byte.to_N b * 256)%N in
      String (hi n 18%N) (String (hi n 12%N) (String (hi n 6%N) EmptyString))
  | a :: b :: c :: rest =>
      let n := (Byte.to_N a * 65536 + Byte.to_N b * 256 + Byte.to_N c)%N in
      String (hi n 18%N) (String (hi n 12%N) (String (hi n 6%N) (String (hi n 0%N) (raw64 rest))))
  end.

(** Groups of four digits and a last group of two or three. *)
Fixpoint raw_groups (cs : list ascii) : option (list byte) :=
  match cs with
  | [] => Some []
  | [a; b] =>
      x ← base64_value a; y ← base64_value b;
      Some [byte_of_N (N.shiftr (x * 262144 + y * 4096) 16)]
  | [a; b; c] =>
      x ← base64_value a; y ← base64_value b; z ← base64_value c;
      let n := (x * 262144 + y * 4096 + z * 64)%N in
      Some [byte_of_N (N.shiftr n 16); byte_of_N (N.shiftr n 8)]
  | a :: b :: c :: d :: rest =>
      x ← base64_value a; y ← base64_value b; z ← base64_value c; t ← base64_value d;
      let n := (x * 262144 + y * 4096 + z * 64 + t)%N in
      bs ← raw_groups rest;
      Some (byte_of_N (N.shiftr n 16) :: byte_of_N (N.shiftr n 8) :: byte_of_N n :: bs)
  | [_] => None
  end.

(** Line breaks are skipped. *)
Definition raw_decode (s : string) : option (list byte) :=
  raw_groups (List.filter (fun c => negb (Ascii.eqb c "010" || Ascii.eqb c "013")) (list_ascii_of_string s)).

Definition digit_char (c : ascii) : bool :=
  match base64_value c with Some _ => true | None => false end.

Lemma base64_digit n : (n < 64)%N -> base64_value (base64_char n) = Some n.
Proof.
  intros Hn. assert (H : forall k, (k < 64)%nat -> base64_value (base64_char (N.of_nat k)) = Some (N.of_nat k)).
  { intros k Hk. do 64 (destruct k as [|k]; [reflexivity|]). lia. }
  specialize (H (N.to_nat n)). rewrite N2Nat.id in H. apply H. lia.
Qed.

Lemma raw64_digits bs : forall c, c ∈ list_ascii_of_string (raw64 bs) -> digit_char c = true.
Proof.
  assert (Hd : forall n k, digit_char (base64_char (N.shiftr n k mod 64)) = true)
    by (intros n k; unfold digit_char; rewrite base64_digit by (apply N.mod_upper_bound; lia); done).
  revert bs. fix IH 1. intros bs c Hc. destruct bs as [|a [|b [|d rest]]]; cbn [raw64 list_ascii_of_string] in Hc.
  - by apply elem_of_nil in Hc.
  - rewrite !elem_of_cons, elem_of_nil in Hc. destruct Hc as [->|[->|[]]]; apply Hd.
  - rewrite !elem_of_cons, elem_of_nil in Hc. destruct Hc as [->|[->|[->|[]]]]; apply Hd.
  - rewrite !elem_of_cons in Hc. destruct Hc as [->|[->|[->|[->|Hc]]]]; try apply Hd. by apply (IH rest).
Qed.

Lemma byte_of_N_to_N b n : (n mod 256 = Byte.to_N b)%N -> byte_of_N n = b.
Proof. intros H. unfold byte_of_N. rewrite H. by rewrite Byte.of_to_N. Qed.

Lemma raw_groups_raw64 bs : raw_groups (list_ascii_of_string (raw64 bs)) = Some bs.
Proof.
  revert bs. fix IH 1. intros bs. destruct bs as [|a [|b [|c rest]]]; [done| | |].
  1: pose proof (Byte.to_N_bounded a).
  2: pose proof (Byte.to_N_bounded a); pose proof (Byte.to_N_bounded b).
  3: pose proof (Byte.to_N_bounded a); pose proof (Byte.to_N_bounded b); pose proof (Byte.to_N_bounded c).
  all: cbn [raw64 list_ascii_of_string raw_groups];
    rewrite !base64_digit by (apply N.mod_upper_bound; lia); cbn [mbind option_bind].
  3: rewrite IH; cbn [mbind option_bind].
  all: repeat f_equal; apply byte_of_N_to_N; rewrite ?N.shiftr_div_pow2; 
    change (2 ^ 18)%N with 262144%N; change (2 ^ 16)%N with 65536%N; change (2 ^ 12)%N with 4096%N;
    change (2 ^ 8)%N with 256%N; change (2 ^ 6)%N with 64%N; change (2 ^ 0)%N with 1%N; rewrite ?N.div_1_r;
    zify; Z.to_euclidean_division_equations; lia.
Qed.

Lemma filter_digits l :
  (forall c, c ∈ l -> digit_char c = true) ->
  List.filter (fun c => negb (Ascii.eqb c "010" || Ascii.eqb c "013")) l = l.
Proof.
  induction l as [|c l IH]; intros Hl; [done|]. cbn [List.filter].
  assert (Hc : digit_char c = true) by (apply Hl; by left).
  destruct (Ascii.eqb_spec c "010") as [->|]; [done|]. destruct (Ascii.eqb_spec c "013") as [->|]; [done|].
  cbn [orb negb]. f_equal. apply IH. intros x Hx. apply Hl. by right.
Qed.

(** Unpadded base64 decodes back to the bytes it encodes. *)
Lemma raw_roundtrip bs : raw_decode (raw64 bs) = Some bs.
Proof. unfold raw_decode. rewrite filter_digits by apply raw64_digits. apply raw_groups_raw64. Qed.

(** ** Passwords *)

Section Passwords.
  Context {argon2 : Argon2}.

Definition dollar : ascii := "$".
Definition hashPrefix : string := "$argon2id$v=19$m=65536,t=3,p=2$".

(** [Hash]; [rand] is what [rand.Read] filled the salt with. *)
Definition Hash (rand : option (list byte)) (password : string) : option string :=
  if (String.length password <? 16)%nat || (1024 <? String.length password)%nat then None
  else
    salt ← rand;
    Some (hashPrefix ++ raw64 salt ++ String dollar (raw64 (IDKey (bytes_of password) salt)))%string.

(** The salt and key of an encoded hash, where they have the fixed form. *)
Definition decode_hash (encoded : string) : option (list byte * list byte) :=
  if negb (HasPrefix encoded hashPrefix) then None
  else match Split (drop (String.length hashPrefix) encoded) dollar with
       | [p0; p1] =>
           match raw_decode p0, raw_decode p1 with
           | Some salt, Some key =>
               if negb (length salt =? 16)%nat || negb (length key =? 32)%nat then None else Some (salt, key)
           | _, _ => None
           end
       | _ => None
       end.

(** [Verify] *)
Definition Verify (encoded password : string) : bool :=
  if (1024 <? String.length password)%nat then false
  else match decode_hash encoded with
       | Some (salt, key) => bool_decide (IDKey (bytes_of password) salt = key)
       | None => false
       end.

(** [ValidHash] *)
Definition ValidHash (encoded : string) : bool :=
  match decode_hash encoded with Some _ => true | None => false end.

Lemma decode_hash_encoded salt key :
  length salt = 16%nat -> length key = 32%nat ->
  decode_hash (hashPrefix ++ raw64 salt ++ String dollar (raw64 key)) = Some (salt, key).
Proof.
  intros Hs Hk. unfold decode_hash. rewrite prefix_append, drop_exact. cbn [negb].
  assert (Hclean : forall bs c, c ∈ list_ascii_of_string (raw64 bs) -> c <> dollar)
    by (intros bs c Hc ->; by apply raw64_digits in Hc).
  unfold Split. rewrite split_at_two, split_at_clean by apply Hclean. rewrite !string_rev_rev, !raw_roundtrip, Hs, Hk. done.
Qed.

(** Password hashes.  [Hash] succeeds exactly for passwords of 16 to 1024
    bytes when randomness is available; the hash has the fixed form, and the
    password verifies against it; any password verifies against it exactly
    when it is at most 1024 bytes long and derives the same key from the same
    salt. *)
Theorem hash_verifies salt password :
  length salt = 16%nat ->
  match Hash (Some salt) password with
  | Some encoded =>
      (16 <= String.length password <= 1024)%nat /\ ValidHash encoded = true /\ Verify encoded password = true /\
      forall other, Verify encoded other = true <->
        (String.length other <= 1024)%nat /\ IDKey (bytes_of other) salt = IDKey (bytes_of password) salt
  | None => (String.length password < 16)%nat \/ (1024 < String.length password)%nat
  end.
Proof.
  intros Hs. unfold Hash. destruct (_ || _) eqn:E; simpl mbind.
  - apply orb_true_iff in E. rewrite !Nat.ltb_lt in E. tauto.
  - apply orb_false_iff in E. rewrite !Nat.ltb_ge in E. cbn [mbind option_bind].
    pose proof (decode_hash_encoded salt (IDKey (bytes_of password) salt) Hs (IDKey_length _ _)) as Hd.
    unfold ValidHash, Verify. rewrite Hd. split; [lia|]. split; [done|]. split.
    + destruct (Nat.ltb_spec 1024 (String.length password)); [lia|]. by rewrite bool_decide_eq_true_2.
    + intros other. destruct (Nat.ltb_spec 1024 (String.length other)); [split; [done|lia]|].
      rewrite bool_decide_eq_true. split; [intros ?; split; [lia|done]|tauto].
Qed.

(** ** Authentication *)

Inductive AuthErr := ErrBusy | ErrCredentials | ErrOther.

(** A row of [smtp_accounts] *)
Record AccountRow := MkAccountRow {
  row_id : UUID; row_hash : string; row_allowed : option (list string); row_enabled : bool }.

(** What [QueryRow(...).Scan] answers: an error, no row or a row. *)
Inductive Found := QueryFailed | NoRow | Row (r : AccountRow).

(** [Authenticate]: [cancelled k] is [ctx.Err() != nil] at its [k]-th check,
    [free] whether a slot was free; [accounts] answers the query.  The decoding
    of [allowed_from] fails where the column has none.  The verification of the
    dummy hash for an unknown name has no effect but time. *)
Definition Authenticate (cancelled : nat -> bool) (free : bool) (accounts : string -> Found)
    (username password : string) : AuthErr + Account :=
  if cancelled 0%nat then inl ErrOther
  else if negb free then inl ErrBusy
  else if (128 <? String.length username)%nat || (1024 <? String.length password)%nat then inl ErrCredentials
  else match accounts username with
       | NoRow => inl ErrCredentials
       | QueryFailed => inl ErrOther
       | Row r =>
           let valid := Verify (row_hash r) password in
           if cancelled 1%nat then inl ErrOther
           else if negb valid || negb (row_enabled r) then inl ErrCredentials
           else match row_allowed r with
                | None => inl ErrOther
                | Some l => inr (MkAccount (row_id r) l)
                end
       end.

(** C37. Who may log in.  Authentication gives an account exactly when the
    context is live, a slot is free, the name and password are of bounded
    length, the account of that name exists, is enabled and has a readable list
    of senders, and the password verifies against its hash; and from the error
    a client cannot tell an unknown name, a wrong password and a disabled
    account apart. *)
Theorem authenticate_spec cancelled free accounts username password :
  (forall a, Authenticate cancelled free accounts username password = inr a <->
     cancelled 0%nat = false /\ cancelled 1%nat = false /\ free = true /\
     (String.length username <= 128)%nat /\ (String.length password <= 1024)%nat /\
     exists r l, accounts username = Row r /\ row_enabled r = true /\ row_allowed r = Some l /\
                 Verify (row_hash r) password = true /\ a = MkAccount (row_id r) l) /\
  (cancelled 0%nat = false -> cancelled 1%nat = false -> free = true -> accounts username <> QueryFailed ->
   (forall r, accounts username = Row r -> Verify (row_hash r) password = false \/ row_enabled r = false) ->
   Authenticate cancelled free accounts username password = inl ErrCredentials).
Proof.
  unfold Authenticate. split.
  - intros a. destruct (cancelled 0%nat); [split; [done|by intros (? & _)]|]. destruct free; simpl; [|split; [done|by intros (_ & _ & ? & _)]].
    destruct (_ || _) eqn:E.
    + apply orb_true_iff in E. rewrite !Nat.ltb_lt in E. split; [done|]. intros (_ & _ & _ & ? & ? & _). lia.
    + apply orb_false_iff in E. rewrite !Nat.ltb_ge in E.
      destruct (accounts username) as [| |r]; [split; [done|by intros (_ & _ & _ & _ & _ & ? & ? & ? & _)]..|].
      destruct (cancelled 1%nat); [split; [done|by intros (_ & ? & _)]|].
      destruct (Verify (row_hash r) password) eqn:Ev, (row_enabled r) eqn:Ee, (row_allowed r) as [l|] eqn:Ea; simpl;
        split; try done; try (intros [= <-]; repeat (split; [done || lia|]); exists r, l; done);
        intros (_ & _ & _ & _ & _ & r0 & l0 & [= <-] & ? & ? & ? & ->); congruence.
  - intros -> -> -> Hq Hbad. simpl. destruct (_ || _); [done|]. destruct (accounts username) as [| |r]; [done|done|].
    destruct (Hbad r eq_refl) as [->| ->]; simpl; [done|]. by rewrite orb_true_r.
Qed.

End Passwords.

(** ** A key derivation for examples *)

Definition demo_argon2 : Argon2.
Proof.
  refine {| IDKey := fun password salt => firstn 32 (Sha.Sum256 (password ++ salt) ++ repeat x00 32) |}.
  intros password salt. rewrite length_firstn, length_app, repeat_length. lia.
Defined.

Lemma hash_verifies_witness :
  Verify (argon2 := demo_argon2)
    (default ""%string (Hash (argon2 := demo_argon2) (Some (repeat x01 16)) "correct horse battery")) "correct horse battery" = true.
Proof.
  pose proof (hash_verifies (argon2 := demo_argon2) (repeat x01 16) "correct horse battery" eq_refl) as H.
  destruct (Hash (argon2 := demo_argon2) (Some (repeat x01 16)) "correct horse battery") as [encoded|] eqn:E.
  - exact (proj1 (proj2 (proj2 H))).
  - exfalso. cbn [String.length] in H. lia.
Defined.

End Auth.
