(* ===== verification/Storage.v ===== *)
(** * The archive of message files: [internal/storage]

    [Save] publishes a received message under its name, [ReadVerified] reads
    it back.  The file system is a map from paths to contents.  What a system
    call answers is an argument; a call that the code makes with a file it has
    just created acts on that file.  The root directory is a clean path and
    symbolic links are not modelled: a path outside the root, or an entry that
    is not a regular file, is what [ReadVerified] refuses. *)

From S2P Require Import Prelude Sha256 GoText Calendar Delivery SmtpClient Provider Database.

Module Storage.

Record Archive := MkArchive { Path : string; Size : Z; SHA256 : string }.

(** Where the messages are kept. *)
Abbreviation Files := (gmap string (list byte)).

Inductive StoreErr := ErrTooLarge | ErrIO.

(** ** Save *)

(** The answers of the system calls of one [Save]. *)
Record Calls := MkCalls {
  c_dir : bool;             (* durableDir *)
  c_temp : option string;   (* os.CreateTemp: the new name *)
  c_copy : bool;            (* reading the message and writing it *)
  c_written : nat;          (* what was written when that failed *)
  c_live : bool;            (* ctx.Err() == nil *)
  c_sync : bool; c_close : bool; c_link : bool;
  c_remove : bool;          (* the removal before the directory is synced *)
  c_syncdir : bool;
  c_cleanup : bool          (* the deferred removal *) }.

Definition archive_path (root : string) (at_ : Time) (id : UUID) : string :=
  (root ++ "/" ++ date_path at_ ++ "/" ++ uuid_text id ++ ".eml")%string.

(** The deferred [os.Remove(f.Name())] *)
Definition cleanup (calls : Calls) (tmp : string) (fs : Files) : Files :=
  if c_cleanup calls then delete tmp fs else fs.

(** [LocalStore.Save] *)
Definition Save (root : string) (MaxBytes : Z) (calls : Calls) (id : UUID) (at_ : Time) (data : list byte)
    (fs : Files) : (StoreErr + Archive) * Files :=
  if MaxBytes <=? 0 then (inl ErrIO, fs)
  else if negb (c_dir calls) then (inl ErrIO, fs)
  else match c_temp calls with
  | None => (inl ErrIO, fs)
  | Some tmp =>
      if not_null (fs !! tmp) then (inl ErrIO, fs)
      else
        let copied := firstn (Z.to_nat (MaxBytes + 1)) data in
        let fs1 := <[tmp := copied]> fs in
        if negb (c_copy calls) then (inl ErrIO, cleanup calls tmp (<[tmp := firstn (c_written calls) copied]> fs))
        else if MaxBytes <? Z.of_nat (length copied) then (inl ErrTooLarge, cleanup calls tmp fs1)
        else if negb (c_live calls) || negb (c_sync calls) || negb (c_close calls)
        then (inl ErrIO, cleanup calls tmp fs1)
        else
          let path := archive_path root at_ id in
          if negb (c_link calls) || not_null (fs1 !! path) then (inl ErrIO, cleanup calls tmp fs1)
          else
            let fs2 := <[path := copied]> fs1 in
            if negb (c_remove calls) then (inl ErrIO, cleanup calls tmp fs2)
            else
              let fs3 := delete tmp fs2 in
              if negb (c_syncdir calls) then (inl ErrIO, fs3)
              else (inr (MkArchive path (Z.of_nat (length copied)) (EncodeToString (Sha.Sum256 copied))), fs3)
  end.

(** ** ReadVerified *)

(** What a path under the root names. *)
Inductive Entry := Missing | Regular (content : list byte) | Other.

(** [LocalStore.ReadVerified]: [opened] is what the root gives for the path,
    [live] that no read failed and the context held. *)
Definition ReadVerified (a : Archive) (limit : Z) (opened : Entry) (live : bool) : StoreErr + list byte :=
  if (limit <? 1) || (Size a <? 1) || (limit <? Size a) then inl ErrTooLarge
  else match opened with
       | Regular content =>
           let raw := firstn (Z.to_nat (Size a + 1)) content in
           if negb live then inl ErrIO
           else if negb (Z.of_nat (length raw) =? Size a) || negb (String.eqb (EncodeToString (Sha.Sum256 raw)) (SHA256 a))
           then inl ErrIO else inr raw
       | _ => inl ErrIO
       end.

(** ** What they promise *)

Lemma cleanup_old calls tmp p fs : p <> tmp -> cleanup calls tmp fs !! p = fs !! p.
Proof. intros H. unfold cleanup. destruct (c_cleanup calls); [|done]. by rewrite lookup_delete_ne. Qed.

(** The metadata of a file holding [data]. *)
Definition archive_of (path : string) (data : list byte) : Archive :=
  MkArchive path (Z.of_nat (length data)) (EncodeToString (Sha.Sum256 data)).

Lemma Save_result root MaxBytes calls id at_ data fs r fs' :
  Save root MaxBytes calls id at_ data fs = (r, fs') ->
  let path := archive_path root at_ id in
  match r with
  | inr a => fs !! path = None /\ fs' = <[path := data]> fs /\ a = archive_of path data /\
             Z.of_nat (length data) <= MaxBytes
  | inl _ => fs ⊆ fs' /\
             (fs !! path = None -> c_temp calls <> Some path -> fs' !! path = None \/ fs' !! path = Some data)
  end.
Proof.
  intros H path. unfold Save in H. fold path in H.
  destruct (MaxBytes <=? 0) eqn:Hmax; [simplify_eq; auto|]. destruct (c_dir calls); [|simplify_eq/=; auto]. simpl in H.
  destruct (c_temp calls) as [tmp|] eqn:Etmp; [|simplify_eq; auto].
  destruct (fs !! tmp) eqn:Hfree; [simplify_eq/=; auto|]. simpl in H.
  set (copied := firstn (Z.to_nat (MaxBytes + 1)) data) in *. bsimpl.
  assert (Hsub : forall b, fs ⊆ <[tmp := b]> fs) by (intros b; by apply insert_subseteq).
  assert (Hclean : forall fs1, fs ⊆ fs1 -> fs ⊆ cleanup calls tmp fs1).
  { intros fs1 Hs. apply map_subseteq_spec. intros p b Hp. rewrite cleanup_old by congruence. by eapply lookup_weaken. }
  assert (Hearly : forall e b, (inl e, cleanup calls tmp (<[tmp := b]> fs)) = (r, fs') ->
    match r with
    | inr _ => False
    | inl _ => fs ⊆ fs' /\ (fs !! path = None -> Some tmp <> Some path -> fs' !! path = None \/ fs' !! path = Some data)
    end).
  { intros e b [= <- <-]. split; [auto|]. intros Hn Hne. left. rewrite cleanup_old, lookup_insert_ne by congruence. done. }
  destruct (negb (c_copy calls)); [apply Hearly in H; by destruct r|].
  destruct (Z.ltb_spec MaxBytes (Z.of_nat (length copied))) as [|Hle]; [apply Hearly in H; by destruct r|].
  assert (Hall : copied = data).
  { unfold copied in *. rewrite length_firstn in Hle. apply firstn_all2. lia. }
  destruct (_ || _ || _); [apply Hearly in H; by destruct r|].
  destruct (negb (c_link calls) || _) eqn:El; [apply Hearly in H; by destruct r|].
  apply orb_false_iff in El as [_ Hnew]. destruct (<[tmp:=copied]> fs !! path) eqn:Hp; [done|].
  apply lookup_insert_None in Hp as [Hp Hne].
  assert (Hsub2 : fs ⊆ <[path := copied]> (<[tmp := copied]> fs))
    by (etrans; [apply (Hsub copied)|apply insert_subseteq; rewrite lookup_insert_ne by done; done]).
  destruct (negb (c_remove calls)).
  { simplify_eq. split; [auto|]. intros _ _. right. rewrite cleanup_old by congruence. rewrite lookup_insert_eq. by f_equal. }
  assert (Hfs : delete tmp (<[path := copied]> (<[tmp := copied]> fs)) = <[path := data]> fs).
  { rewrite delete_insert_ne, delete_insert_id by done. by rewrite Hall. }
  destruct (negb (c_syncdir calls)); simplify_eq; rewrite Hfs.
  - split; [by apply insert_subseteq|]. intros _ _. right. by rewrite lookup_insert_eq.
  - split; [done|]. split; [done|]. rewrite Hall. split; [done|]. rewrite Hall in Hle. done.
Qed.

(** Saving is atomic and never overwrites.  On success the one new file is
    the message, whole and unchanged, within the size limit, and the archive
    returned gives its path, length and SHA-256.  On failure no file that was
    there before is touched, and a file at the message's path can only be the
    whole message. *)
Theorem save_publishes root MaxBytes calls id at_ data fs r fs' :
  Save root MaxBytes calls id at_ data fs = (r, fs') ->
  let path := archive_path root at_ id in
  match r with
  | inr a => fs !! path = None /\ fs' = <[path := data]> fs /\ a = archive_of path data /\
             Z.of_nat (length data) <= MaxBytes
  | inl _ => fs ⊆ fs' /\
             (fs !! path = None -> c_temp calls <> Some path -> fs' !! path = None \/ fs' !! path = Some data)
  end.
Proof. exact (Save_result root MaxBytes calls id at_ data fs r fs'). Qed.

(** What is read back is what was saved.  [ReadVerified] of an archive
    returns bytes only when they are exactly the file's content with the
    archive's size and SHA-256; for a saved, nonempty message within the limit
    it returns that message. *)
Theorem read_back_verified a limit opened live :
  (forall raw, ReadVerified a limit opened live = inr raw ->
     opened = Regular raw /\ Z.of_nat (length raw) = Size a /\ EncodeToString (Sha.Sum256 raw) = SHA256 a /\ Size a <= limit) /\
  (forall path data, a = archive_of path data -> opened = Regular data -> live = true -> data <> [] ->
     Z.of_nat (length data) <= limit -> ReadVerified a limit opened live = inr data).
Proof.
  unfold ReadVerified. split.
  - intros raw H. destruct (_ || _ || _) eqn:E; [done|]. bsimpl. destruct opened as [|content|]; try done.
    destruct (negb live); [done|]. destruct (negb _ || _) eqn:E2; [done|]. bsimpl. injection H as <-.
    destruct E2 as [E2 E3]. rewrite length_firstn in E2.
    assert (firstn (Z.to_nat (Size a + 1)) content = content) as Hall by (apply firstn_all2; lia).
    rewrite Hall in *. split; [done|]. split; [lia|]. split; [done|lia].
  - intros path data -> -> -> Hne Hle. simpl. assert (0 < Z.of_nat (length data)) by (destruct data; [done|simpl; lia]).
    destruct (_ || _ || _) eqn:E; [bsimpl; lia|].
    rewrite firstn_all2 by lia. rewrite Z.eqb_refl, String.eqb_refl. done.
Qed.

(** ** A run *)

Definition demo_calls : Calls := MkCalls true (Some "tmp"%string) true 0 true true true true true true true.

Lemma save_publishes_witness :
  let path := archive_path "data" 0 1 in
  snd (Save "data" 10 demo_calls 1 0 [CR; LF] ∅) = <[path := [CR; LF]]> ∅.
Proof.
  apply (save_publishes "data" 10 demo_calls 1 0 [CR; LF] ∅
    (inr (archive_of (archive_path "data" 0 1) [CR; LF])) (snd (Save "data" 10 demo_calls 1 0 [CR; LF] ∅))).
  vm_compute. reflexivity.
Defined.

End Storage.
