(* ===== verification/Receive.v ===== *)
(** * Receiving a message over SMTP: [internal/message/receive.go]

    [readHeader] reads the header of the message through a buffered reader,
    [metadata] takes from it what is recorded and checks the sender, and
    [Receiver.Receive] archives the message and queues it.

    The data of a connection is what the client sends before the end of DATA,
    and how it ends.  The reader's buffer has 4096 bytes.  Go's [net/mail]
    is a class of operations, as in [Auth]. *)

From S2P Require Import Prelude Sha256 GoText Delivery SmtpClient Provider Database Suppression Message Auth Storage Queue QueueOps MessageOps Worker Demo.

Module Receive.

(** ** Reading the header *)

(** How the input ends. *)
Inductive Ending := EOF | ReadError.

Inductive SliceErr := BufferFull | AtEnd (e : Ending).

Fixpoint newline_at (bs : list byte) : option nat :=
  match bs with
  | [] => None
  | c :: rest => if is_byte c LF then Some 0%nat else option_map S (newline_at rest)
  end.

Definition buffer_size : nat := 4096.

(** [ReadSlice('\n')]: the slice, its error, and what is left. *)
Definition ReadSlice (input : list byte) (ending : Ending) : list byte * option SliceErr * list byte :=
  match newline_at (firstn buffer_size input) with
  | Some i => (firstn (S i) input, None, skipn (S i) input)
  | None =>
      if (length input <? buffer_size)%nat then (input, Some (AtEnd ending), [])
      else (firstn buffer_size input, Some BufferFull, skipn buffer_size input)
  end.

Inductive RecvErr := ErrInvalidMessage | ErrSenderDenied | ErrRead | ErrArchive (e : Storage.StoreErr)
  | ErrEnqueue (e : DBErr) | ErrResources.

Definition header_limit : N := 262144.

(** The loop of [readHeader]: [b] is the buffer, [lineBytes] the length of the
    current line.  Each pass consumes at least one byte, so the length of the
    input plus one passes are enough. *)
Fixpoint header_loop (fuel : nat) (b : list byte) (lineBytes : nat) (input : list byte) (ending : Ending)
  : option (RecvErr + list byte * list byte) :=
  match fuel with
  | O => None
  | S fuel =>
      let '(line, err, rest) := ReadSlice input ending in
      let b := b ++ line in
      let lineBytes := (lineBytes + length line)%nat in
      if (header_limit <? N.of_nat (length b))%N then Some (inl ErrInvalidMessage)
      else match err with
           | Some BufferFull => header_loop fuel b lineBytes rest ending
           | Some (AtEnd EOF) => Some (inl ErrInvalidMessage)
           | Some (AtEnd ReadError) => Some (inl ErrRead)
           | None =>
               if ((lineBytes =? 2)%nat && bool_decide (line = [CR; LF])) || ((lineBytes =? 1)%nat && bool_decide (line = [LF]))
               then Some (inr (b, rest))
               else header_loop fuel b 0 rest ending
           end
  end.

(** [readHeader]: the header and the rest of the input. *)
Definition readHeader (input : list byte) (ending : Ending) : RecvErr + list byte * list byte :=
  match header_loop (S (length input)) [] 0 input ending with
  | Some r => r
  | None => inl ErrInvalidMessage
  end.

(** *** What it reads *)

(** The length of the input up to and including its first empty line; [cur]
    is the current line so far. *)
Fixpoint blank_end (cur : list byte) (bs : list byte) : option nat :=
  match bs with
  | [] => None
  | c :: rest =>
      if is_byte c LF then
        if bool_decide (cur = []) || bool_decide (cur = [CR]) then Some 1%nat else option_map S (blank_end [] rest)
      else option_map S (blank_end (cur ++ [c]) rest)
  end.

Lemma newline_some bs i :
  newline_at bs = Some i -> exists l r, bs = l ++ LF :: r /\ length l = i /\ LF ∉ l.
Proof.
  revert i. induction bs as [|c bs IH]; intros i; simpl; [done|].
  destruct (is_byte c LF) eqn:E; bsimpl.
  - intros [= <-]. exists [], bs. subst. split; [done|]. split; [done|]. set_solver.
  - destruct (newline_at bs) as [k|]; [|done]. simpl. intros [= <-].
    destruct (IH k eq_refl) as (l & r & -> & <- & Hl). exists (c :: l), r. split; [done|]. split; [done|]. set_solver.
Qed.

Lemma newline_none bs : newline_at bs = None -> LF ∉ bs.
Proof.
  induction bs as [|c bs IH]; simpl; intros H; [set_solver|].
  destruct (is_byte c LF) eqn:E; [done|]. bsimpl. destruct (newline_at bs); [done|]. set_solver.
Qed.

(** A line without a newline is passed over. *)
Lemma blank_end_line cur l r : LF ∉ l -> blank_end cur (l ++ r) = option_map (Nat.add (length l)) (blank_end (cur ++ l) r).
Proof.
  revert cur. induction l as [|c l IH]; intros cur Hl; simpl.
  - rewrite app_nil_r. by destruct (blank_end cur r).
  - destruct (is_byte c LF) eqn:E; [bsimpl; set_solver|]. rewrite IH by set_solver. rewrite <- app_assoc. simpl.
    by destruct (blank_end _ r).
Qed.

(** The answer that belongs to an input: [seen] bytes were read before it. *)
Definition header_answer (seen : list byte) (cur : list byte) (input : list byte) (ending : Ending)
  : RecvErr + list byte * list byte :=
  match blank_end cur input with
  | Some n => if (header_limit <? N.of_nat (length seen + n))%N then inl ErrInvalidMessage
              else inr (seen ++ firstn n input, skipn n input)
  | None => if (header_limit <? N.of_nat (length seen + length input))%N then inl ErrInvalidMessage
            else match ending with EOF => inl ErrInvalidMessage | ReadError => inl ErrRead end
  end.

Lemma blank_end_bound cur bs n : blank_end cur bs = Some n -> (1 <= n <= length bs)%nat.
Proof.
  revert cur n. induction bs as [|c bs IH]; intros cur n; simpl; [done|].
  destruct (is_byte c LF).
  - destruct (_ || _); [intros [= <-]; lia|]. destruct (blank_end [] bs) eqn:E; [|done]. intros [= <-].
    apply IH in E. lia.
  - destruct (blank_end (cur ++ [c]) bs) eqn:E; [|done]. intros [= <-]. apply IH in E. lia.
Qed.

Definition is_blank (cur : list byte) : bool := bool_decide (cur = []) || bool_decide (cur = [CR]).

(** Passing over part of a line. *)
Lemma header_answer_part b cur l rest ending :
  LF ∉ l -> header_answer b cur (l ++ rest) ending =
  if (header_limit <? N.of_nat (length (b ++ l)))%N then inl ErrInvalidMessage
  else header_answer (b ++ l) (cur ++ l) rest ending.
Proof.
  intros Hl. unfold header_answer. rewrite blank_end_line by done. rewrite !length_app.
  destruct (N.ltb_spec header_limit (N.of_nat (length b + length l))) as [Hbig|Hsmall].
  - destruct (blank_end (cur ++ l) rest) as [n|]; simpl.
    + destruct (N.ltb_spec header_limit (N.of_nat (length b + (length l + n)))); [done|lia].
    + destruct (N.ltb_spec header_limit (N.of_nat (length b + (length l + length rest)))); [done|lia].
  - destruct (blank_end (cur ++ l) rest) as [n|]; simpl; rewrite Nat.add_assoc; [|done].
    rewrite firstn_app, skipn_app, firstn_all2, skipn_all2 by lia.
    replace (length l + n - length l)%nat with n by lia. by rewrite app_assoc.
Qed.

(** Passing over the end of a line. *)
Lemma header_answer_newline b cur rest ending :
  header_answer b cur (LF :: rest) ending =
  if (header_limit <? N.of_nat (length (b ++ [LF])))%N then inl ErrInvalidMessage
  else if is_blank cur then inr (b ++ [LF], rest) else header_answer (b ++ [LF]) [] rest ending.
Proof.
  unfold header_answer, is_blank. rewrite length_app. simpl.
  destruct (_ || _); [done|].
  destruct (N.ltb_spec header_limit (N.of_nat (length b + 1))) as [Hbig|Hsmall].
  - destruct (blank_end [] rest) as [n|]; simpl.
    + destruct (N.ltb_spec header_limit (N.of_nat (length b + S n))); [done|lia].
    + destruct (N.ltb_spec header_limit (N.of_nat (length b + S (length rest)))); [done|lia].
  - destruct (blank_end [] rest) as [n|]; simpl.
    + replace (length b + S n)%nat with (length b + 1 + n)%nat by lia. by rewrite <- app_assoc.
    + by replace (length b + S (length rest))%nat with (length b + 1 + length rest)%nat by lia.
Qed.

(** A slice that ends in a newline: the test of the code is the test for an
    empty line, since what precedes the slice is nothing or a full buffer. *)
Lemma blank_test cur l :
  cur = [] \/ (buffer_size <= length cur)%nat ->
  (((length cur + length (l ++ [LF]))%nat =? 2)%nat && bool_decide (l ++ [LF] = [CR; LF]))
  || (((length cur + length (l ++ [LF]))%nat =? 1)%nat && bool_decide (l ++ [LF] = [LF]))
  = is_blank (cur ++ l).
Proof.
  intros Hcur. unfold is_blank. rewrite length_app. apply eq_iff_eq_true. simpl. bsimpl. rewrite !Nat.eqb_eq. split.
  - intros [[Hlen Hl]|[Hlen Hl]].
    + assert (l = [CR]) as -> by (by apply (app_inj_tail l [CR] LF LF)). simpl in Hlen.
      destruct cur; [by right|simpl in Hlen; lia].
    + assert (l = []) as -> by (by apply (app_inj_tail l [] LF LF)). simpl in Hlen.
      destruct cur; [by left|simpl in Hlen; lia].
  - destruct Hcur as [->|Hbig].
    + simpl. intros [-> | ->]; [by right|by left].
    + intros [H|H]; apply (f_equal length) in H; rewrite length_app in H; unfold buffer_size in Hbig; simpl in H; lia.
Qed.

Lemma header_loop_answer fuel b cur input ending :
  (length input < fuel)%nat -> (N.of_nat (length b) <= header_limit)%N -> LF ∉ cur ->
  cur = [] \/ (buffer_size <= length cur)%nat ->
  header_loop fuel b (length cur) input ending = Some (header_answer b cur input ending).
Proof.
  revert b cur input. induction fuel as [|fuel IH]; intros b cur input Hfuel Hb Hcur Hbuf; [lia|].
  cbn [header_loop]. unfold ReadSlice.
  destruct (newline_at (firstn buffer_size input)) as [i|] eqn:En.
  - apply newline_some in En as (l & r & Heq & Hi & Hl).
    assert (Hin : input = l ++ LF :: skipn (S i) input /\ firstn (S i) input = l ++ [LF]).
    { rewrite <- (firstn_skipn buffer_size input), Heq, <- Hi.
      assert (Hlen : S (length l) = length (l ++ [LF])) by (rewrite length_app; simpl; lia).
      replace ((l ++ LF :: r) ++ skipn buffer_size input) with ((l ++ [LF]) ++ r ++ skipn buffer_size input)
        by (rewrite <- !app_assoc; done).
      rewrite Hlen, skipn_app, firstn_app, Nat.sub_diag, skipn_all, firstn_all, firstn_O, skipn_O, app_nil_r.
      split; [|done]. by rewrite <- !app_assoc. }
    destruct Hin as [Hin ->]. set (rest := skipn (S i) input) in *. rewrite Hin.
    rewrite header_answer_part, header_answer_newline by done. rewrite blank_test by done. rewrite <- (app_assoc b).
    rewrite !length_app. cbn [length].
    destruct (N.ltb_spec header_limit (N.of_nat (length b + length l))) as [H1|H1].
    { destruct (N.ltb_spec header_limit (N.of_nat (length b + (length l + 1)))); [done|lia]. }
    rewrite Nat.add_assoc. destruct (N.ltb_spec header_limit (N.of_nat (length b + length l + 1))) as [H2|H2]; [done|].
    destruct (is_blank (cur ++ l)); [done|].
    apply (IH _ [] rest); [|rewrite !length_app; simpl; lia|set_solver|by left].
    rewrite Hin, length_app in Hfuel. simpl in Hfuel. lia.
  - apply newline_none in En. destruct (Nat.ltb_spec (length input) buffer_size) as [Hshort|Hlong].
    + assert (Hn : LF ∉ input) by (rewrite firstn_all2 in En by lia; done).
      replace (header_answer b cur input ending) with (header_answer b cur (input ++ []) ending) by (by rewrite app_nil_r).
      rewrite header_answer_part by done. unfold header_answer. simpl.
      rewrite Nat.add_0_r. destruct (header_limit <? _)%N; [done|]. by destruct ending.
    + replace (header_answer b cur input ending)
        with (header_answer b cur (firstn buffer_size input ++ skipn buffer_size input) ending) by (by rewrite firstn_skipn).
      rewrite header_answer_part by done.
      destruct (N.ltb_spec header_limit (N.of_nat (length (b ++ firstn buffer_size input)))) as [|Hok]; [done|].
      assert (Hlen : length (firstn buffer_size input) = buffer_size) by (rewrite length_firstn; lia).
      rewrite <- length_app. apply IH; [|done|set_solver|].
      * rewrite length_skipn. unfold buffer_size in *. lia.
      * right. rewrite length_app, Hlen. lia.
Qed.

Lemma readHeader_eq input ending :
  header_loop (S (length input)) [] 0 input ending = Some (readHeader input ending) /\
  readHeader input ending = header_answer [] [] input ending.
Proof.
  unfold readHeader. pose proof (header_loop_answer (S (length input)) [] [] input ending) as H. simpl length in H.
  rewrite H; [done|lia|done|set_solver|by left].
Qed.

(** C36. The header reader and the message.  Reading through the bounded
    buffer finds exactly the bytes up to and including the first empty line
    (LF or CRLF), if that is within 256 KiB, and leaves exactly the rest; the
    loop always ends; input without an empty line within the limit is refused,
    and a failing connection is reported as such. *)
Theorem readHeader_spec input ending :
  header_loop (S (length input)) [] 0 input ending = Some (readHeader input ending) /\
  readHeader input ending =
    match blank_end [] input with
    | Some n => if (header_limit <? N.of_nat n)%N then inl ErrInvalidMessage else inr (firstn n input, skipn n input)
    | None => if (header_limit <? N.of_nat (length input))%N then inl ErrInvalidMessage
              else match ending with EOF => inl ErrInvalidMessage | ReadError => inl ErrRead end
    end.
Proof. exact (readHeader_eq input ending). Qed.

Lemma readHeader_split input ending header rest :
  readHeader input ending = inr (header, rest) -> input = header ++ rest.
Proof.
  rewrite (proj2 (readHeader_eq input ending)). unfold header_answer. intros E.
  repeat (case_match; try done). simplify_eq/=. by rewrite firstn_skipn.
Qed.

(** ** What the message's header says *)

(** [mail.ReadMessage] of a header block: the values of each field, under its
    canonical name; and [mail.ParseAddressList]. *)
Class HeaderParser := {
  ReadMessage : list byte -> option (list (string * list string));
  ParseAddressList : string -> option (list (string * string)) }.

Section Receiver.
  Context {addresses : MailParser} {headers : HeaderParser}.

Definition values (key : string) (h : list (string * list string)) : list string :=
  match List.find (fun kv => String.eqb (fst kv) key) h with Some kv => snd kv | None => [] end.

(** [msg.Header.Get], [msg.Header.AddressList] *)
Definition Get (key : string) (h : list (string * list string)) : string :=
  match values key h with v :: _ => v | [] => EmptyString end.
Definition AddressList (key : string) (h : list (string * list string)) : option (list (string * string)) :=
  if String.eqb (Get key h) "" then None else ParseAddressList (Get key h).

(** [metadata]: message id, author and subject. *)
Definition metadata (header : list byte) (account : Auth.Account) : RecvErr + string * string * string :=
  match ReadMessage header with
  | None => inl ErrInvalidMessage
  | Some h =>
      if negb (length (values "From" h) =? 1)%nat then inl ErrInvalidMessage
      else match AddressList "From" h with
      | Some [(_, from)] =>
          if negb (Auth.Allows account from) then inl ErrSenderDenied
          else if (1 <? length (values "Sender" h))%nat then inl ErrInvalidMessage
          else
            let sender := Get "Sender" h in
            let denied := negb (String.eqb sender "") &&
                          match ParseAddress sender with
                          | Some (_, a) => negb (Auth.Allows account a)
                          | None => true
                          end in
            if denied then inl ErrSenderDenied
            else inr (TrimSpace (Get "Message-Id" h), from, Get "Subject" h)
      | _ => inl ErrInvalidMessage
      end
  end.

(** A copy fails where the reader does, unless the limit stopped it before. *)
Definition copying (ending : Ending) (MaxBytes : Z) (data : list byte) (calls : Storage.Calls) : Storage.Calls :=
  match ending with
  | EOF => calls
  | ReadError =>
      Storage.MkCalls (Storage.c_dir calls) (Storage.c_temp calls)
        (Storage.c_copy calls && (MaxBytes <? Z.of_nat (length data))) (Storage.c_written calls) (Storage.c_live calls)
        (Storage.c_sync calls) (Storage.c_close calls) (Storage.c_link calls) (Storage.c_remove calls)
        (Storage.c_syncdir calls) (Storage.c_cleanup calls)
  end.

(** ** [Receiver.Receive]

    [acquired]: the resource limiter admitted the message; [id], [received]
    and [archived] are the identifier and the times the code takes; [w] is the
    world of the transaction. *)
Definition Receive (acquired : bool) (root : string) (MaxBytes : Z) (calls : Storage.Calls) (w : World)
    (account : Auth.Account) (from : string) (rcpts : list string) (id : UUID) (received archived : Time)
    (input : list byte) (ending : Ending) (fs : Storage.Files) (db : DB)
  : (RecvErr + UUID) * Storage.Files * DB :=
  if negb acquired then (inl ErrResources, fs, db)
  else if negb (Auth.Allows account from) || bool_decide (rcpts = []) then (inl ErrSenderDenied, fs, db)
  else match readHeader input ending with
  | inl e => (inl e, fs, db)
  | inr (header, rest) =>
      match metadata header account with
      | inl e => (inl e, fs, db)
      | inr (mid, headerFrom, subject) =>
          match Storage.Save root MaxBytes (copying ending MaxBytes (header ++ rest) calls) id received (header ++ rest) fs with
          | (inl e, fs') => (inl (ErrArchive e), fs', db)
          | (inr a, fs') =>
              let s := Message.MkSubmission None Message.Zero Message.Zero "" (Message.MkBusiness "" []) id
                         (Some (Auth.ac_ID account)) from rcpts (Storage.Path a) (Storage.Size a) (Storage.SHA256 a)
                         mid headerFrom subject received archived in
              match transact w (Message.Enqueue s) db with
              | (inl e, db') => (inl (ErrEnqueue e), fs', db')
              | (inr _, db') => (inr id, fs', db')
              end
          end
      end
  end.

End Receiver.

(** ** What is queued *)

(** The message row of a submission, whatever became of it since: [pending] is
    the status it starts with. *)
Definition queued_row (s : Message.Submission) (source environment : string) (apiKey : option UUID) (pending : Status)
    (m : Database.Message) : Prop :=
  m_source_type m = source /\ m_api_key_id m = apiKey /\ m_smtp_account_id m = Message.s_Account s /\
  m_envelope_from m = Message.s_From s /\ m_header_from m = Some (Message.s_HeaderFrom s) /\
  m_eml_path m = Message.s_Path s /\ m_eml_size m = Message.s_Size s /\ m_eml_sha256 m = Message.s_SHA256 s /\
  m_environment m = environment /\ m_archive_state m = "AVAILABLE"%string /\
  (m_status m = pending \/ m_status m = SUPPRESSED).

Definition recipient_entered (pending : Status) (mid : UUID) (address : string) (db : DB) : Prop :=
  exists rid r, recipients db !! rid = Some r /\ r_message_id r = mid /\ r_address r = address /\
                (r_status r = pending \/ r_status r = SUPPRESSED).
Abbreviation has_recipient := (recipient_entered QUEUED).

Definition queued (s : Message.Submission) (source environment : string) (apiKey : option UUID) (pending : Status)
    (db0 db : DB) : Prop :=
  (exists m, messages db !! Message.s_ID s = Some m /\ queued_row s source environment apiKey pending m) /\
  (forall k, k <> Message.s_ID s -> messages db !! k = messages db0 !! k) /\
  messages db0 !! Message.s_ID s = None.

Lemma triple_forM_each {A} (I : DB -> Prop) (P : A -> DB -> Prop) (l : list A) (body : A -> M unit) :
  (forall x, triple I (body x) (fun _ db => I db /\ P x db)) ->
  (forall x y, triple (fun db => I db /\ P y db) (body x) (fun _ => P y)) ->
  triple I (forM l body) (fun _ db => I db /\ forall x, x ∈ l -> P x db).
Proof.
  intros Hset Hkeep. induction l as [|x l IH]; simpl.
  - apply triple_return. intros db HI. split; [done|]. set_solver.
  - step (fun (_ : unit) db => I db /\ P x db); [apply Hset|].
    apply (triple_conseq (fun db => I db /\ P x db) _ _ (fun _ db => (I db /\ forall y, y ∈ l -> P y db) /\ P x db)); [|done|].
    + apply triple_and.
      * eapply triple_conseq; [exact IH|by intros db [? _]|done].
      * assert (Hboth : triple (fun db => I db /\ P x db) (forM l body) (fun _ db => I db /\ P x db)).
        { apply triple_loop. intros z _. apply triple_and; [|apply Hkeep].
          eapply triple_conseq; [apply Hset|by intros db [? _]|by intros [] db [? _]]. }
        eapply triple_conseq; [exact Hboth|done|by intros [] db [_ ?]].
    + intros [] db [[HI Hl] Hx]. split; [done|]. intros y Hy. apply elem_of_cons in Hy as [->|Hy]; auto.
Qed.

Section Queueing.
  Context (s : Message.Submission) (source environment : string) (apiKey : option UUID) (pending : Status) (db0 : DB).
Let mid := Message.s_ID s.
Let row_there := queued s source environment apiKey pending db0.

(** The message and the recipients in [rs] are there. *)
Definition entered (rs : list string) (db : DB) : Prop :=
  row_there db /\ forall a, a ∈ rs -> recipient_entered pending mid a db.

Lemma entered_kept rs db db' :
  messages db' = messages db -> recipients db' = recipients db -> entered rs db -> entered rs db'.
Proof. intros Hm Hr [HQ HR]. unfold entered, row_there, queued, recipient_entered in *. by rewrite Hm, Hr. Qed.

Lemma entered_suppress rs hit t sid db :
  entered rs db ->
  entered rs (db <| recipients := update hit (Suppression.suppress_row t sid) (recipients db) |>).
Proof.
  intros [HQ HR]. split; [done|]. intros a Ha. destruct (HR a Ha) as (rid & r & Hr & H1 & H2 & H3).
  unfold recipient_entered. simpl. setoid_rewrite lookup_update. exists rid. rewrite Hr. simpl. eexists. split; [done|].
  destruct (hit rid r); [|done]. simpl. auto.
Qed.

Lemma insert_recipient_adds address :
  triple (row_there) (Message.insert_recipient mid address pending)
    (fun _ db => row_there db /\ recipient_entered pending mid address db).
Proof.
  unfold Message.insert_recipient. step (fun (_ : UUID) => row_there); [apply triple_fresh|].
  apply triple_stmt. intros t db [] db' HQ H. destruct (insert_row _ _ _) as [rows|] eqn:E; [|done]. injection H as <-.
  apply insert_row_some in E as [Hn ->]. split; [done|]. eexists _, _. simpl. rewrite lookup_insert_eq. split; [done|]. auto.
Qed.

Lemma insert_recipient_keeps address other :
  triple (fun db => row_there db /\ recipient_entered pending mid other db) (Message.insert_recipient mid address pending)
    (fun _ => recipient_entered pending mid other).
Proof.
  unfold Message.insert_recipient.
  step (fun (_ : UUID) db => row_there db /\ recipient_entered pending mid other db); [apply triple_fresh|].
  apply triple_stmt. intros t db [] db' [_ (rid & r & Hr & Hrest)] H.
  destruct (insert_row _ _ _) as [rows|] eqn:E; [|done]. injection H as <-.
  apply insert_row_some in E as [Hn ->]. exists rid, r. simpl. rewrite lookup_insert_ne by congruence. done.
Qed.

Lemma Apply_entered rs attempt sending :
  triple (entered rs) (Suppression.Apply mid attempt sending) (fun _ => entered rs).
Proof.
  unfold Suppression.Apply. step (fun (_ : list (UUID * UUID)) => entered rs); [by apply triple_query|].
  step (fun (_ : unit) => entered rs); [|by apply triple_return].
  apply triple_loop. intros [rid sid] _. step (fun (_ : unit) => entered rs).
  - apply triple_exec. intros t db H. by apply entered_suppress.
  - step (fun (_ : UUID) => entered rs); [apply triple_fresh|]. apply triple_record. intros t db outbox HE _ _.
    by eapply entered_kept; [..|exact HE].
Qed.

Lemma close_message rs p f :
  (forall t m, queued_row s source environment apiKey pending m -> queued_row s source environment apiKey pending (f t m)) ->
  triple (entered rs) (Message.set_message mid p f) (fun _ => entered rs).
Proof.
  intros Hf. apply triple_exec. intros t db [[(m & Hm & Hrow) [Hother Hnew]] HR]. split; [|exact HR].
  split; [|split; [|exact Hnew]]; simpl.
  - rewrite lookup_update. fold mid in Hm |- *. rewrite Hm. simpl. eexists. split; [done|]. destruct (_ && _); auto.
  - intros k Hk. rewrite lookup_update. fold mid in Hk. rewrite bool_decide_eq_false_2 by done. simpl.
    rewrite Hother by done. by destruct (messages db0 !! k).
Qed.

Lemma record_entered rs kind at_ from data :
  triple (entered rs) (Message.record mid kind at_ from data) (fun _ => entered rs).
Proof.
  unfold Message.record. step (fun (_ : UUID) => entered rs); [apply triple_fresh|].
  apply triple_record. intros t db outbox HE _ _. by eapply entered_kept; [..|exact HE].
Qed.

Lemma record_loop_entered rs l data :
  triple (entered rs) (forM l (fun ka => Message.record mid (fst ka) (snd ka) source (data ka))) (fun _ => entered rs).
Proof. apply triple_loop. intros ka _. apply record_entered. Qed.

End Queueing.

(** The status a message starts with in an environment *)
Definition first_status (environment : string) : Status :=
  if String.eqb environment "sandbox" then SANDBOX_STORED else QUEUED.

Lemma enqueueTx_queues s source apiKey keyHash db0 :
  triple (fun db => db = db0) (Message.enqueueTx s source apiKey keyHash)
    (fun _ db => exists environment, (source <> "api"%string -> environment = "production"%string) /\
       entered s source environment apiKey (first_status environment) db0 (Message.s_Recipients s) db).
Proof.
  unfold Message.enqueueTx. set (S0 := fun db => db = db0).
  step (fun (_ : Message.Business) => S0); [apply triple_lift_|].
  step (fun (_ : unit) => S0); [apply triple_guard_|].
  step (fun (_ : option Time) => S0); [apply triple_lift_|].
  step (fun (_ : unit) => S0); [apply triple_guard_|].
  step (fun (_ : option Time) => S0); [apply triple_lift_|].
  step (fun (_ : unit) => S0); [apply triple_guard_|].
  step (fun (_ : string) => S0); [apply triple_lift_|].
  step (fun (_ : unit) => S0); [apply triple_guard_|].
  step (fun environment db => S0 db /\ (source <> "api"%string -> environment = "production"%string)).
  { destruct (String.eqb_spec source "api") as [->|]; [by apply triple_query_row|by apply triple_return]. }
  apply triple_pure. intros Henv. rename a7 into environment. fold (first_status environment).
  set (E := entered s source environment apiKey (first_status environment) db0 (Message.s_Recipients s)).
  step (fun (_ : Time) => S0); [apply triple_gotime|].
  step (fun (_ : unit) => queued s source environment apiKey (first_status environment) db0).
  { apply triple_stmt. intros t db [] db' -> H. destruct (Message.retired_archive _ _ _); [done|].
    destruct (insert_row _ _ _) as [rows|] eqn:Ei; [|done]. simpl in H. injection H as <-.
    apply insert_row_some in Ei as [Hn ->]. split; [|split; [|done]]; simpl.
    - rewrite lookup_insert_eq. eexists. split; [done|]. unfold queued_row. simpl. repeat split; auto.
    - intros k Hk. by rewrite lookup_insert_ne. }
  step (fun (_ : unit) => E).
  { apply (triple_forM_each (queued s source environment apiKey (first_status environment) db0)
             (fun a => recipient_entered (first_status environment) (Message.s_ID s) a));
      [intros x; apply insert_recipient_adds|intros x y; apply insert_recipient_keeps]. }
  step (fun (_ : unit) => E).
  { destruct (String.eqb environment "sandbox").
    - apply close_message. intros t m. unfold queued_row. simpl. tauto.
    - step (fun (_ : unit) => E); [by apply triple_query|].
      step (fun (_ : nat) => E); [apply Apply_entered|]. apply close_message. intros t m. unfold queued_row. simpl. naive_solver. }
  step (fun (_ : Database.Message) => E); [by apply triple_query_row|].
  eapply triple_conseq; [apply record_loop_entered|done|]. intros [] db HE. by exists environment.
Qed.

Lemma Enqueue_queues s db0 :
  triple (fun db => db = db0) (Message.Enqueue s)
    (fun r db => r = Commit (inr tt) /\ entered s "smtp" "production" None QUEUED db0 (Message.s_Recipients s) db).
Proof.
  unfold Message.Enqueue. eapply triple_bind; [apply enqueueTx_queues|]. intros [].
  apply triple_return. intros db (environment & Henv & HE). rewrite Henv in HE by done. done.
Qed.


(** A job of the worker reads back what the archive of a message holds. *)
Lemma readVerified_archive MaxBytes (j : Queue.Job) path data :
  Queue.j_Size j = Z.of_nat (length data) -> Queue.j_SHA256 j = Storage.SHA256 (Storage.archive_of path data) ->
  Z.of_nat (length data) <= MaxBytes -> Worker.readVerified MaxBytes j true (Some data) = Some data.
Proof.
  intros Hsize Hsha Hmax. unfold Worker.readVerified. rewrite Hsize, Hsha.
  destruct (_ || _) eqn:E; [bsimpl; lia|]. rewrite Nat2Z.id, firstn_all, skipn_all. simpl.
  by rewrite Z.eqb_refl, String.eqb_refl.
Qed.

Lemma Receive_result {addresses : MailParser} {headers : HeaderParser}
    acquired root MaxBytes calls w account from rcpts id received archived input ending fs db r fs' db' :
  Receive acquired root MaxBytes calls w account from rcpts id received archived input ending fs db = (r, fs', db') ->
  let path := Storage.archive_path root received id in
  match r with
  | inr id' =>
      id' = id /\ Auth.Allows account from = true /\ rcpts <> [] /\
      (exists header rest mid author subject, input = header ++ rest /\ metadata header account = inr (mid, author, subject) /\
         Auth.Allows account author = true) /\
      fs !! path = None /\ fs' = <[path := input]> fs /\ Z.of_nat (length input) <= MaxBytes /\
      exists m, messages db' !! id = Some m /\ messages db !! id = None /\
        m_smtp_account_id m = Some (Auth.ac_ID account) /\ m_envelope_from m = from /\
        m_eml_path m = path /\ m_eml_size m = Z.of_nat (length input) /\
        m_eml_sha256 m = EncodeToString (Sha.Sum256 input) /\
        (forall a, a ∈ rcpts -> has_recipient id a db') /\
        (forall j, Queue.j_Path j = m_eml_path m -> Queue.j_Size j = m_eml_size m -> Queue.j_SHA256 j = m_eml_sha256 m ->
           Worker.readVerified MaxBytes j true (fs' !! Queue.j_Path j) = Some input)
  | inl (ErrEnqueue _) => fs' = <[path := input]> fs
  | inl _ => fs ⊆ fs' /\ db' = db
  end.
Proof.
  intros H path. unfold Receive in H.
  destruct acquired; [|simplify_eq/=; done]. simpl in H.
  destruct (Auth.Allows account from) eqn:Ha; [|simplify_eq/=; done]. simpl in H.
  destruct (bool_decide_reflect (rcpts = [])) as [|Hr]; [simplify_eq/=; done|].
  destruct (readHeader input ending) as [e|[header rest]] eqn:Eh.
  { simplify_eq/=. rewrite (proj2 (readHeader_eq input ending)) in Eh. unfold header_answer in Eh. repeat (case_match; try done); by simplify_eq/=. }
  apply readHeader_split in Eh as Hin.
  destruct (metadata header account) as [e|[[mid author] subject]] eqn:Em.
  { simplify_eq/=. unfold metadata in Em. repeat (case_match; try done); by simplify_eq/=. }
  assert (Hauthor : Auth.Allows account author = true).
  { unfold metadata in Em. repeat (case_match; try done); simplify_eq/=; by destruct (Auth.Allows account author). }
  rewrite <- Hin in H. destruct (Storage.Save root MaxBytes _ id received input fs) as [[e|a] fs1] eqn:Es.
  { injection H as <- <- <-. pose proof (Storage.Save_result _ _ _ _ _ _ _ _ _ Es) as [Hsub _]. done. }
  pose proof (Storage.Save_result _ _ _ _ _ _ _ _ _ Es) as (Hfree & -> & -> & Hmax). fold path in Hfree, H.
  set (s := Message.MkSubmission _ _ _ _ _ _ _ _ _ _ _ _ _ _ _ _ _) in H.
  destruct (transact w (Message.Enqueue s) db) as [[e|u] db1] eqn:Et; injection H as <- <- <-; [done|].
  destruct (transact_value _ _ _ _ _ _ _ (Enqueue_queues s db) eq_refl Et) as [[_ HE]|(d & [HE _] & _)]; [|done].
  destruct HE as [[(m & Hm & Hrow) [_ Hnew]] HR]. unfold queued_row in Hrow. simpl in Hrow.
  destruct Hrow as (_ & _ & H1 & H2 & _ & H4 & H5 & H6 & _).
  do 3 (split; [done|]). split; [exists header, rest, mid, author, subject; done|]. do 3 (split; [done|]).
  exists m. do 7 (split; [done|]). split; [exact HR|].
  intros j -> Hj2 Hj3. rewrite H4, lookup_insert_eq. apply (readVerified_archive MaxBytes j path input); [congruence|simpl; congruence|done].
Qed.


(** ** A message received

    Parsers that take an address as it stands and find one author. *)

Definition demo_addresses : MailParser := fun s => Some (EmptyString, s).
Definition demo_headers : HeaderParser := {|
  ReadMessage := fun _ => Some [("From", ["f@example.com"])]%string;
  ParseAddressList := fun s => Some [(EmptyString, s)] |}.

Definition demo_account : Auth.Account := Auth.MkAccount 9 ["f@Example.com"]%string.
Definition demo_input : list byte := bytes_of "From: f@example.com" ++ [CR; LF; CR; LF] ++ bytes_of "hi".

Definition demo_receive :=
  Receive (addresses := demo_addresses) (headers := demo_headers) true "data" 1000 Storage.demo_calls
    (demo_world (demo_day + Second) 9000) demo_account "f@example.com" ["a@example.org"]%string 300 demo_day
    (demo_day + Second) demo_input EOF ∅ demo_db.

Example demo_header : readHeader demo_input EOF = inr (bytes_of "From: f@example.com" ++ [CR; LF; CR; LF], bytes_of "hi").
Proof. vm_compute. reflexivity. Qed.


End Receive.
