(* ===== verification/Admission.v ===== *)
(** * Admission of SMTP connections: [internal/smtpserver/admission.go]

    Connections and password checks are admitted per source under a mutex:
    each function is one step.  Rates are kept in float64; a bucket's tokens
    are binary64 numbers here too, computed with the Standard Library's
    specification of IEEE 754 arithmetic (53 bits of precision, exponents up to
    1024, round to nearest even).

    [connect] and [authenticate] return functions that give the place back
    once.  They keep a pointer to the source's state; the state machine below
    looks the state up again by its key, and the invariant shows that it is
    still the same entry: a source is not dropped while it is in use. *)

From Stdlib Require Import Floats.SpecFloat.
From S2P Require Import Prelude.

Module Admission.

(** ** float64 *)

Abbreviation float64 := spec_float.
Definition of_int (z : Z) : float64 := binary_normalize 53 1024 z 0 false.
Definition fadd : float64 -> float64 -> float64 := SFadd 53 1024.
Definition fsub : float64 -> float64 -> float64 := SFsub 53 1024.
Definition fmul : float64 -> float64 -> float64 := SFmul 53 1024.
Definition fdiv : float64 -> float64 -> float64 := SFdiv 53 1024.
Definition flt : float64 -> float64 -> bool := SFltb.
(** [min] and [max] of numbers that are not NaN. *)
Definition fmin (x y : float64) : float64 := if flt y x then y else x.
Definition fmax (x y : float64) : float64 := if flt x y then y else x.

(** [Duration.Seconds] *)
Definition Seconds (d : Z) : float64 :=
  fadd (of_int (Z.quot d Second)) (fdiv (of_int (Z.rem d Second)) (of_int 1000000000)).

(** ** Buckets *)

Record bucket := MkBucket { tokens : float64; b_at : Time }.

(** [bucket.take] *)
Definition take (now : Time) (rate : float64) (burst : Z) (b : bucket) : bool * bucket :=
  let tokens :=
    if IsZero (b_at b) then of_int burst
    else fmin (of_int burst) (fadd (tokens b) (fmul (fmax (of_int 0) (Seconds (now - b_at b))) rate)) in
  if flt tokens (of_int 1) then (false, MkBucket tokens now)
  else (true, MkBucket (fsub tokens (of_int 1)) now).

(** A fresh bucket of two takes twice in a burst, then once a second. *)
Example bucket_run :
  let one := of_int 1 in
  let '(r1, b1) := take Second one 2 (MkBucket (of_int 0) 0) in
  let '(r2, b2) := take Second one 2 b1 in
  let '(r3, b3) := take Second one 2 b2 in
  let '(r4, b4) := take (Second + Second / 2) one 2 b3 in
  let '(r5, b5) := take (2 * Second) one 2 b4 in
  [r1; r2; r3; r4; r5] = [true; true; false; false; true].
Proof. vm_compute. reflexivity. Qed.

(** ** Admission *)

Record Limits := MkLimits {
  Connections : Z; PerSource : Z; AuthPerMinute : Z; AuthBurst : Z; Lifetime : Z }.

Definition DefaultLimits : Limits := MkLimits 128 8 60 20 (5 * Minute).

(** The check of [smtpserver.New], which panics otherwise. *)
Definition limits_valid (l : Limits) : bool :=
  negb ((Connections l <? 1) || (PerSource l <? 1) || (Connections l <? PerSource l) || (AuthPerMinute l <? 1)
        || (AuthBurst l <? 1) || (Lifetime l <=? 0)).

Record sourceState := MkSource {
  connections : Z; auth : Z; touched : Time; accepts : bucket; attempts : bucket }.
#[export] Instance eta_sourceState : Eta sourceState := fun s =>
  MkSource (connections s) (auth s) (touched s) (accepts s) (attempts s).

Record admission := MkAdmission {
  limits : Limits; sources : gmap string sourceState; total : Z; nextSweep : Time }.
#[export] Instance eta_admission : Eta admission := fun a =>
  MkAdmission (limits a) (sources a) (total a) (nextSweep a).

Definition maxSources : Z := 4096.
Definition sourceTTL : Z := 5 * Minute.
Definition new_bucket : bucket := MkBucket (of_int 0) 0.
Definition new_source : sourceState := MkSource 0 0 0 new_bucket new_bucket.

(** [newAdmission] *)
Definition newAdmission (l : Limits) : admission := MkAdmission l ∅ 0 0.

(** A source that the sweep drops. *)
Definition idle (now : Time) (s : sourceState) : bool :=
  (connections s =? 0) && (auth s =? 0) && (sourceTTL <=? now - touched s).

Definition sweep (now : Time) (a : admission) : admission :=
  if Before now (nextSweep a) then a
  else a <| sources := filter (fun ks => idle now (snd ks) = false) (sources a) |>
         <| nextSweep := now + Minute |>.

(** [connect]: whether the connection is admitted. *)
Definition connect (now : Time) (key : string) (a : admission) : bool * admission :=
  let a := sweep now a in
  if Connections (limits a) <=? total a then (false, a)
  else
    let known := sources a !! key in
    if bool_decide (known = None) && (maxSources <=? Z.of_nat (size (sources a))) then (false, a)
    else
      let s := (default new_source known) <| touched := now |> in
      if PerSource (limits a) <=? connections s then (false, a <| sources := <[key := s]> (sources a) |>)
      else
        let '(ok, b) := take now (of_int 1) 32 (accepts s) in
        let s := s <| accepts := b |> in
        if negb ok then (false, a <| sources := <[key := s]> (sources a) |>)
        else (true, a <| sources := <[key := s <| connections := connections s + 1 |>]> (sources a) |>
                      <| total := total a + 1 |>).

(** [authenticate]: whether the password check may start. *)
Definition authenticate (now : Time) (key : string) (a : admission) : bool * admission :=
  match sources a !! key with
  | None => (false, a)
  | Some s =>
      let s := s <| touched := now |> in
      if 1 <=? auth s then (false, a <| sources := <[key := s]> (sources a) |>)
      else
        let '(ok, b) := take now (fdiv (of_int (AuthPerMinute (limits a))) (of_int 60)) (AuthBurst (limits a)) (attempts s) in
        let s := s <| attempts := b |> in
        if negb ok then (false, a <| sources := <[key := s]> (sources a) |>)
        else (true, a <| sources := <[key := s <| auth := auth s + 1 |>]> (sources a) |>)
  end.

(** The functions they return, on the state of the source. *)
Definition set_source (key : string) (f : sourceState -> sourceState) (a : admission) : admission :=
  a <| sources := alter f key (sources a) |>.
Definition disconnect (now : Time) (key : string) (a : admission) : admission :=
  (set_source key (fun s => s <| connections := connections s - 1 |> <| touched := now |>) a) <| total := total a - 1 |>.
Definition authenticated (now : Time) (key : string) (a : admission) : admission :=
  set_source key (fun s => s <| auth := auth s - 1 |> <| touched := now |>) a.

(** ** Runs *)

(** Open connections and running password checks, each with its source. *)
Record State := MkState { adm : admission; conns : gmap N string; checks : gmap N string }.

Inductive step : State -> State -> Prop :=
| step_connect a cs ks now key c ok a' :
    connect now key a = (ok, a') -> cs !! c = None ->
    step (MkState a cs ks) (MkState a' (if ok : bool then <[c := key]> cs else cs) ks)
| step_disconnect a cs ks now key c :
    cs !! c = Some key -> step (MkState a cs ks) (MkState (disconnect now key a) (delete c cs) ks)
| step_authenticate a cs ks now key k ok a' :
    authenticate now key a = (ok, a') -> ks !! k = None ->
    step (MkState a cs ks) (MkState a' cs (if ok : bool then <[k := key]> ks else ks))
| step_authenticated a cs ks now key k :
    ks !! k = Some key -> step (MkState a cs ks) (MkState (authenticated now key a) cs (delete k ks)).

Inductive reachable (l : Limits) : State -> Prop :=
| reachable_start : reachable l (MkState (newAdmission l) ∅ ∅)
| reachable_step s s' : reachable l s -> step s s' -> reachable l s'.

(** ** The invariant *)

(** How many are in use by a source. *)
Definition uses (key : string) (m : gmap N string) : Z := Z.of_nat (size (filter (fun ck => snd ck = key) m)).

Lemma uses_insert key k c m :
  m !! c = None -> uses key (<[c := k]> m) = uses key m + if bool_decide (k = key) then 1 else 0.
Proof.
  intros Hc. unfold uses. case_bool_decide as Hk.
  - rewrite map_filter_insert_True by done. rewrite map_size_insert_None; [lia|].
    apply map_lookup_filter_None. by left.
  - rewrite map_filter_insert_False by done. rewrite delete_id by done. lia.
Qed.

Lemma uses_delete key k c m :
  m !! c = Some k -> uses key (delete c m) = uses key m - if bool_decide (k = key) then 1 else 0.
Proof.
  intros Hc. rewrite <- (insert_delete_id m c k Hc) at 2. rewrite uses_insert by apply lookup_delete_eq. lia.
Qed.

Lemma uses_pos key m : 0 <= uses key m.
Proof. unfold uses. lia. Qed.

Lemma uses_some key c m : m !! c = Some key -> 1 <= uses key m.
Proof.
  intros Hc. rewrite <- (insert_delete_id m c key Hc), uses_insert by apply lookup_delete_eq.
  rewrite bool_decide_eq_true_2 by done. pose proof (uses_pos key (delete c m)). lia.
Qed.

(** What the state of a source says of the connections and checks. *)
Definition source_ok (l : Limits) (o : option sourceState) (n k : Z) : Prop :=
  match o with
  | Some s => connections s = n /\ n <= Z.max 0 (PerSource l) /\ auth s = k /\ k <= 1
  | None => n = 0 /\ k = 0
  end.

Record Inv (l : Limits) (s : State) : Prop := {
  i_limits : limits (adm s) = l;
  i_total : total (adm s) = Z.of_nat (size (conns s)) /\ total (adm s) <= Z.max 0 (Connections l);
  i_size : Z.of_nat (size (sources (adm s))) <= maxSources;
  i_source : forall key, source_ok l (sources (adm s) !! key) (uses key (conns s)) (uses key (checks s)) }.

(** Dropping idle sources loses nothing. *)
Lemma sweep_inv l a cs ks now : Inv l (MkState a cs ks) -> Inv l (MkState (sweep now a) cs ks).
Proof.
  intros [H1 H2 H3 H4]. unfold sweep. destruct (Before now (nextSweep a)); [by split|]. split; simpl in *; try done.
  - etrans; [|exact H3]. apply inj_le, map_subseteq_size, map_filter_subseteq.
  - intros key. specialize (H4 key). destruct (sources a !! key) as [s|] eqn:Es; simpl in H4.
    + destruct (idle now s) eqn:Ei.
      * assert (filter (fun ks0 => idle now (snd ks0) = false) (sources a) !! key = None) as ->
          by (apply map_lookup_filter_None; right; intros x Hx; simpl; congruence).
        unfold idle in Ei. bsimpl. simpl. lia.
      * assert (filter (fun ks0 => idle now (snd ks0) = false) (sources a) !! key = Some s) as ->
          by (apply map_lookup_filter_Some; split; done). done.
    + assert (filter (fun ks0 => idle now (snd ks0) = false) (sources a) !! key = None) as ->
        by (apply map_lookup_filter_None; by left). done.
Qed.

(** Setting the entry of [key], known or new. *)
Lemma put_inv l a cs ks key s cs' ks' n :
  Inv l (MkState a cs ks) -> source_ok l (Some s) (uses key cs') (uses key ks') ->
  (forall k, k <> key -> uses k cs' = uses k cs /\ uses k ks' = uses k ks) ->
  (sources a !! key = None -> Z.of_nat (size (sources a)) < maxSources) ->
  n = Z.of_nat (size cs') -> n <= Z.max 0 (Connections l) ->
  Inv l (MkState (a <| sources := <[key := s]> (sources a) |> <| total := n |>) cs' ks').
Proof.
  intros [H1 H2 H3 H4] Hs Hother Hroom Hn Hle. split; simpl in *; try done.
  - destruct (sources a !! key) eqn:E.
    + rewrite map_size_insert_Some by done. done.
    + rewrite map_size_insert_None by done. specialize (Hroom eq_refl). lia.
  - intros k. destruct (decide (k = key)) as [->|Hne]; [by rewrite lookup_insert_eq|].
    rewrite lookup_insert_ne by done. destruct (Hother k Hne) as [-> ->]. apply H4.
Qed.

Lemma same_total a ss : a <| sources := ss |> = a <| sources := ss |> <| total := total a |>.
Proof. by destruct a. Qed.

Lemma connect_inv l a cs ks now key c ok a' :
  Inv l (MkState a cs ks) -> connect now key a = (ok, a') -> cs !! c = None ->
  Inv l (MkState a' (if ok : bool then <[c := key]> cs else cs) ks).
Proof.
  intros HI Hc Hfree. apply (sweep_inv _ _ _ _ now) in HI. unfold connect in Hc.
  set (b := sweep now a) in *. pose proof HI as [H1 H2 H3 H4]. simpl in H1, H2, H3, H4. rewrite H1 in Hc.
  destruct (Z.leb_spec (Connections l) (total b)) as [|Hroom]; [by injection Hc as <- <-|].
  destruct (bool_decide (sources b !! key = None) && _) eqn:Efull; [by injection Hc as <- <-|].
  assert (Hsize : sources b !! key = None -> Z.of_nat (size (sources b)) < maxSources).
  { intros En. rewrite bool_decide_eq_true_2 in Efull by done. simpl in Efull. by apply Z.leb_gt in Efull. }
  specialize (H4 key) as Hkey.
  set (s := (default new_source (sources b !! key)) <| touched := now |>) in *.
  assert (Hs : connections s = uses key cs /\ uses key cs <= Z.max 0 (PerSource l) /\ auth s = uses key ks /\ uses key ks <= 1).
  { unfold s. destruct (sources b !! key); [exact Hkey|]. destruct Hkey as [-> ->]. split; [done|]. split; [lia|]. split; [done|lia]. }
  clearbody s.
  assert (Hkeep : forall s', connections s' = connections s -> auth s' = auth s ->
            Inv l (MkState (b <| sources := <[key := s']> (sources b) |>) cs ks)).
  { intros s' E1 E2. rewrite same_total. apply put_inv with (cs := cs) (ks := ks); try done; try tauto.
    simpl. rewrite E1, E2. tauto. }
  destruct (Z.leb_spec (PerSource l) (connections s)) as [|Hper]; [injection Hc as <- <-; by apply Hkeep|].
  destruct (take now (of_int 1) 32 (accepts s)) as [got bk]. destruct got; simpl in Hc; injection Hc as <- <-.
  - apply put_inv with (cs := cs) (ks := ks); try done.
    + simpl. rewrite uses_insert, bool_decide_eq_true_2 by done. lia.
    + intros k Hne. rewrite uses_insert, bool_decide_eq_false_2 by done. split; [lia|done].
    + rewrite map_size_insert_None by done. lia.
    + lia.
  - by apply Hkeep.
Qed.

Lemma authenticate_inv l a cs ks now key k ok a' :
  Inv l (MkState a cs ks) -> authenticate now key a = (ok, a') -> ks !! k = None ->
  Inv l (MkState a' cs (if ok : bool then <[k := key]> ks else ks)).
Proof.
  intros HI Hc Hfree. unfold authenticate in Hc. pose proof HI as [H1 H2 H3 H4]. simpl in H1, H2, H3, H4.
  specialize (H4 key) as Hkey. destruct (sources a !! key) as [s|] eqn:Es; [|by injection Hc as <- <-]. simpl in Hkey.
  assert (Hkeep : forall s', connections s' = connections s -> auth s' = auth s ->
            Inv l (MkState (a <| sources := <[key := s']> (sources a) |>) cs ks)).
  { intros s' E1 E2. rewrite same_total. apply put_inv with (cs := cs) (ks := ks); try done; try tauto; [|congruence].
    simpl. rewrite E1, E2. tauto. }
  change (auth (s <| touched := now |>)) with (auth s) in Hc.
  destruct (Z.leb_spec 1 (auth s)) as [|Hauth]; [injection Hc as <- <-; by apply Hkeep|].
  destruct (take _ _ _ _) as [got bk]. destruct got; cbn [negb] in Hc; (apply pair_equal_spec in Hc as [<- <-]); [|by apply Hkeep].
  rewrite same_total. apply put_inv with (cs := cs) (ks := ks); try done; try tauto; [| |congruence].
  - simpl. rewrite uses_insert, bool_decide_eq_true_2 by done. lia.
  - intros k' Hne. rewrite uses_insert, bool_decide_eq_false_2 by done. split; [done|lia].
Qed.

Lemma alter_source a key f s : sources a !! key = Some s -> set_source key f a = a <| sources := <[key := f s]> (sources a) |>.
Proof.
  intros Hs. unfold set_source. f_equal. apply map_eq. intros k. destruct (decide (k = key)) as [->|Hne].
  - by rewrite lookup_alter_eq, Hs, lookup_insert_eq.
  - by rewrite lookup_alter_ne, lookup_insert_ne.
Qed.

Lemma admission_step_inv l s s' : Inv l s -> step s s' -> Inv l s'.
Proof.
  intros HI Hst. destruct Hst as [a cs ks now key c ok a' Hc Hfree|a cs ks now key c Hc|a cs ks now key k ok a' Hc Hfree|a cs ks now key k Hk].
  - by eapply connect_inv.
  - pose proof HI as [H1 H2 H3 H4]. simpl in *. specialize (H4 key) as Hkey. pose proof (uses_some _ _ _ Hc) as Hu.
    destruct (sources a !! key) as [s|] eqn:Es; simpl in Hkey; [|lia]. unfold disconnect. rewrite (alter_source _ _ _ s Es).
    apply put_inv with (cs := cs) (ks := ks); try done; [| |congruence| |].
    + simpl. rewrite (uses_delete _ _ _ _ Hc), bool_decide_eq_true_2 by done. lia.
    + intros k Hne. rewrite (uses_delete _ _ _ _ Hc), bool_decide_eq_false_2 by congruence. split; [lia|done].
    + rewrite map_size_delete_Some by done. pose proof (map_size_ne_0_lookup_2 cs c). simpl.
      assert (size cs <> 0%nat) by (apply map_size_ne_0_lookup_2 with c; by rewrite Hc). lia.
    + simpl. lia.
  - by eapply authenticate_inv.
  - pose proof HI as [H1 H2 H3 H4]. simpl in *. specialize (H4 key) as Hkey. pose proof (uses_some _ _ _ Hk) as Hu.
    destruct (sources a !! key) as [s|] eqn:Es; simpl in Hkey; [|lia]. unfold authenticated. rewrite (alter_source _ _ _ s Es), same_total.
    apply put_inv with (cs := cs) (ks := ks); try done; try tauto; [| |congruence].
    + simpl. rewrite (uses_delete _ _ _ _ Hk), bool_decide_eq_true_2 by done. lia.
    + intros k' Hne. rewrite (uses_delete _ _ _ _ Hk), bool_decide_eq_false_2 by congruence. split; [done|lia].
Qed.

Lemma admission_reachable_inv l s : reachable l s -> Inv l s.
Proof.
  induction 1 as [|s s' _ IH Hst]; [|by eapply admission_step_inv].
  split; [done|simpl; rewrite map_size_empty; lia|simpl; rewrite map_size_empty; unfold maxSources; lia|].
  intros key. simpl. rewrite lookup_empty. simpl. unfold uses. by rewrite map_filter_empty.
Qed.

(** C35. Admission limits hold.  In every run, the total is the number of open
    connections and at most the limit; no source has more connections than its
    limit or more than one password check at a time; the table of sources
    never exceeds its bound; and a source in use is always in the table, so
    that giving a place back updates the entry that admitted it. *)
Theorem admission_limits l s :
  limits_valid l = true -> reachable l s ->
  total (adm s) = Z.of_nat (size (conns s)) /\ total (adm s) <= Connections l /\
  Z.of_nat (size (sources (adm s))) <= maxSources /\
  forall key, uses key (conns s) <= PerSource l /\ uses key (checks s) <= 1 /\
    (0 < uses key (conns s) + uses key (checks s) -> exists st, sources (adm s) !! key = Some st /\
       connections st = uses key (conns s) /\ auth st = uses key (checks s)).
Proof.
  intros Hv Hr. unfold limits_valid in Hv. bsimpl. destruct (admission_reachable_inv l s Hr) as [H1 [H2 H2'] H3 H4].
  split; [done|]. split; [lia|]. split; [done|]. intros key. specialize (H4 key).
  destruct (sources (adm s) !! key) as [st|]; simpl in H4.
  - split; [lia|]. split; [lia|]. intros _. exists st. tauto.
  - split; [lia|]. split; [lia|]. lia.
Qed.

Definition demo_key : string := "192.0.2.1".
Definition demo_state : State :=
  MkState (snd (connect Second demo_key (newAdmission DefaultLimits))) {[1%N := demo_key]} ∅.

Lemma admission_limits_witness : total (adm demo_state) = 1 /\ total (adm demo_state) <= 128.
Proof.
  split; [vm_compute; reflexivity|].
  assert (Hr : reachable DefaultLimits demo_state).
  { eapply reachable_step; [apply reachable_start|].
    apply (step_connect (newAdmission DefaultLimits) ∅ ∅ Second demo_key 1 true
             (snd (connect Second demo_key (newAdmission DefaultLimits)))); [vm_compute; reflexivity|done]. }
  exact (proj1 (proj2 (admission_limits DefaultLimits demo_state eq_refl Hr))).
Defined.

End Admission.
