(* ===== verification/SmtpSession.v ===== *)
(** * An SMTP submission session: [internal/smtpserver/server.go]

    The handlers of a session, which the SMTP library ([go-smtp]) calls for the
    client's commands, and the connection's lifetime.  The library calls the
    handlers in any order, except that it refuses AUTH once a client is
    authenticated and runs a mechanism to its end before the next command.  Replies of the library are named, those of the code carry
    their code and enhanced code. *)

From S2P Require Import Prelude Sha256 GoText Delivery SmtpClient Provider Database Suppression Message Auth Storage Receive Demo.

Module SmtpSession.

(** ** Replies *)

Inductive Reply :=
| Accepted | AuthRequired | AuthFailed | AuthUnknownMechanism
| SMTPError (code : Z) (enhanced : Z * Z * Z) (text : string).

Definition busy : Reply := SMTPError 454 (4, 7, 0) "Authentication temporarily unavailable".

(** ** The session *)

Section Session.
  Context {addresses : MailParser} {headers : Receive.HeaderParser}.

Record session := MkSession {
  account : option Auth.Account; from : string; recipients : list string; authAttempts : Z }.
#[export] Instance eta_session : Eta session := fun s =>
  MkSession (account s) (from s) (recipients s) (authAttempts s).

Definition NewSession : session := MkSession None "" [] 0.

Definition Reset (s : session) : session := s <| from := ""%string |> <| recipients := [] |>.
Definition Logout (s : session) : session := (Reset s) <| account := None |>.

Inductive Mechanism := Plain | Login | OtherMechanism.

(** [Auth]: the mechanism to run, or the refusal. *)
Definition AuthStart (tls : bool) (mech : Mechanism) (s : session) : (Reply + Mechanism) * session :=
  if negb tls then (inl (SMTPError 538 (5, 7, 11) "STARTTLS required"), s)
  else if 5 <=? authAttempts s then (inl (SMTPError 454 (4, 7, 0) "Too many authentication attempts"), s)
  else
    let s := s <| authAttempts := authAttempts s + 1 |> in
    match mech with
    | OtherMechanism => (inl AuthUnknownMechanism, s)
    | m => (inr m, s)
    end.

(** [authenticate]: [admitted] is the answer of the admission, [result] that of
    [Accounts.Authenticate]. *)
Definition authenticate (admitted : bool) (result : Auth.AuthErr + Auth.Account) (s : session) : Reply * session :=
  if negb admitted then (busy, s)
  else match result with
       | inl Auth.ErrCredentials => (AuthFailed, s)
       | inl _ => (busy, s)
       | inr a => (Accepted, s <| account := Some a |>)
       end.

(** The callback of the PLAIN mechanism *)
Definition plain (identity username : string) (admitted : bool) (result : Auth.AuthErr + Auth.Account) (s : session)
  : Reply * session :=
  if negb (String.eqb identity "") && negb (String.eqb identity username) then (AuthFailed, s)
  else authenticate admitted result s.

(** [Mail] *)
Definition Mail (sender : string) (s : session) : Reply * session :=
  match account s with
  | None => (SMTPError 530 (5, 7, 0) "Authentication required", s)
  | Some a =>
      let s := Reset s in
      if negb (Auth.Allows a sender) then (SMTPError 550 (5, 7, 1) "Sender not allowed", s)
      else (Accepted, s <| from := sender |>)
  end.

(** [Rcpt] *)
Definition Rcpt (to : string) (s : session) : Reply * session :=
  if bool_decide (account s = None) || String.eqb (from s) "" then (AuthRequired, s)
  else match Auth.CanonicalAddress to with
       | None => (SMTPError 550 (5, 1, 3) "Invalid recipient", s)
       | Some canonical =>
           if one_of canonical (recipients s) then (Accepted, s)
           else (Accepted, s <| recipients := recipients s ++ [canonical] |>)
       end.

(** What the reader of the library fails with. *)
Inductive ReadFailure := TooLongLine | DataTooLarge | OtherFailure.

(** The reply to the outcome of [Receive]; [why] is what an error of reading
    the data wraps. *)
Definition data_reply (outcome : Receive.RecvErr + UUID) (why : ReadFailure) : Reply :=
  let reading e := match e with Receive.ErrRead | Receive.ErrArchive Storage.ErrIO => true | _ => false end in
  match outcome with
  | inr _ => Accepted
  | inl e =>
      if match e with Receive.ErrSenderDenied => true | _ => false end
      then SMTPError 550 (5, 7, 1) "Header sender not allowed"
      else if match e with Receive.ErrInvalidMessage => true | _ => reading e && match why with TooLongLine => true | _ => false end end
      then SMTPError 554 (5, 6, 0) "Invalid message headers"
      else if match e with Receive.ErrArchive Storage.ErrTooLarge => true
                         | _ => reading e && match why with DataTooLarge => true | _ => false end end
      then SMTPError 552 (5, 3, 4) "Message too large"
      else SMTPError 451 (4, 3, 0) "Unable to durably queue message; retry later"
  end.

(** The envelope [Data] hands to the receiver, if it gets that far. *)
Definition envelope (s : session) : option (Auth.Account * string * list string) :=
  match account s with
  | Some a => if String.eqb (from s) "" || bool_decide (recipients s = []) then None else Some (a, from s, recipients s)
  | None => None
  end.

(** [Data]: the message goes to [Receive], whose arguments after the envelope
    are the environment's. *)
Definition Data (acquired : bool) (root : string) (MaxBytes : Z) (calls : Storage.Calls) (w : World)
    (id : UUID) (received archived : Time) (input : list byte) (ending : Receive.Ending) (why : ReadFailure)
    (s : session) (fs : Storage.Files) (db : DB) : Reply * session * Storage.Files * DB :=
  match envelope s with
  | None => (AuthRequired, s, fs, db)
  | Some (a, sender, rcpts) =>
      let '(outcome, fs', db') := Receive.Receive acquired root MaxBytes calls w a sender rcpts id received archived input ending fs db in
      (data_reply outcome why, Reset s, fs', db')
  end.

(** *** LOGIN *)

Record login := MkLogin { l_step : Z; username : string }.

(** What [Next] asks of the session: a further challenge, the check of a name
    and password, or a refusal. *)
Inductive LoginStep := Challenge (text : string) | CheckPassword (name password : string) | LoginFailed.

Definition Next (response : option string) (l : login) : LoginStep * login :=
  let user (l : login) :=
    match response with
    | Some r => if (String.length r =? 0)%nat || (128 <? String.length r)%nat then (LoginFailed, l)
                else (Challenge "Password:", MkLogin 2 r)
    | None => (LoginFailed, l)
    end in
  if l_step l =? 0 then
    let l := MkLogin 1 (username l) in
    match response with
    | None => (Challenge "Username:", l)
    | Some _ => user l
    end
  else if l_step l =? 1 then user l
  else if l_step l =? 2 then
    (CheckPassword (username l) (match response with Some r => r | None => EmptyString end), MkLogin 3 (username l))
  else (LoginFailed, l).

(** *** The connection's deadline *)

Definition deadline (expires t : Time) : Time := if IsZero t || After t expires then expires else t.

(** ** Runs of a session

    The library runs one exchange at a time: it calls [Auth] only for a client
    that is not authenticated and, when that hands it a mechanism, feeds the
    client's lines to it until the mechanism is done or the client gives up; no
    other command is handled meanwhile.  The PLAIN mechanism calls back at most
    once.  [log] records what a run asked of [Auth] and of the account store;
    no handler reads it. *)

Inductive Exchange := PlainExchange | LoginExchange (l : login).

Inductive Call :=
| Asked (tls : bool) (mech : Mechanism) (answer : Reply + Mechanism)
| Checked (result : Auth.AuthErr + Auth.Account) (reply : Reply).

Record conn := MkConn { handler : session; exchange : option Exchange; log : list Call }.

Definition begin_exchange (answer : Reply + Mechanism) : option Exchange :=
  match answer with
  | inr Plain => Some PlainExchange
  | inr Login => Some (LoginExchange (MkLogin 0 ""))
  | _ => None
  end.

Inductive step : conn -> conn -> Prop :=
| step_reset s t : step (MkConn s None t) (MkConn (Reset s) None t)
| step_logout s e t : step (MkConn s e t) (MkConn (Logout s) None t)
| step_auth tls mech s r s' t :
    account s = None -> AuthStart tls mech s = (r, s') ->
    step (MkConn s None t) (MkConn s' (begin_exchange r) (t ++ [Asked tls mech r]))
| step_plain identity name admitted result s r s' t :
    plain identity name admitted result s = (r, s') ->
    step (MkConn s (Some PlainExchange) t) (MkConn s' None (t ++ [Checked result r]))
| step_challenge response l text l' s t :
    Next response l = (Challenge text, l') ->
    step (MkConn s (Some (LoginExchange l)) t) (MkConn s (Some (LoginExchange l')) t)
| step_login response l name password l' admitted result s r s' t :
    Next response l = (CheckPassword name password, l') -> authenticate admitted result s = (r, s') ->
    step (MkConn s (Some (LoginExchange l)) t) (MkConn s' None (t ++ [Checked result r]))
| step_give_up e s t : step (MkConn s (Some e) t) (MkConn s None t)
| step_mail sender s r s' t : Mail sender s = (r, s') -> step (MkConn s None t) (MkConn s' None t)
| step_rcpt to s r s' t : Rcpt to s = (r, s') -> step (MkConn s None t) (MkConn s' None t)
| step_data acquired root MaxBytes calls w id received archived input ending why s fs db r s' fs' db' t :
    Data acquired root MaxBytes calls w id received archived input ending why s fs db = (r, s', fs', db') ->
    step (MkConn s None t) (MkConn s' None t).

Inductive reachable : conn -> Prop :=
| reachable_start : reachable (MkConn NewSession None [])
| reachable_step c c' : reachable c -> step c c' -> reachable c'.

(** The authentications a run started, with whether the connection had TLS, and
    the passwords it checked. *)
Definition starts (t : list Call) : list bool :=
  omap (fun c => match c with Asked tls _ (inr _) => Some tls | _ => None end) t.
Definition checks (t : list Call) : list (Auth.AuthErr + Auth.Account) :=
  omap (fun c => match c with Checked result _ => Some result | _ => None end) t.

Record Inv (s : session) : Prop := {
  i_from : from s <> ""%string -> exists a, account s = Some a /\ Auth.Allows a (from s) = true;
  i_rcpt : recipients s <> [] -> from s <> ""%string;
  i_nodup : NoDup (recipients s);
  i_canonical : forall r, r ∈ recipients s -> exists to, Auth.CanonicalAddress to = Some r;
  i_attempts : 0 <= authAttempts s <= 5 }.

Lemma reset_inv s : Inv s -> Inv (Reset s).
Proof. intros [H1 H2 H3 H4 H5]. split; simpl; try done; try lia; try apply NoDup_nil_2; by intros r ?%elem_of_nil. Qed.

Lemma auth_start_inv tls mech s r s' : Inv s -> AuthStart tls mech s = (r, s') -> Inv s'.
Proof.
  intros [H1 H2 H3 H4 H5] H. unfold AuthStart in H. destruct (negb tls); [by simplify_eq|].
  destruct (Z.leb_spec 5 (authAttempts s)); [by simplify_eq|]. destruct mech; simplify_eq/=; split; simpl; try done; lia.
Qed.

Lemma login_inv admitted result s r s' :
  account s = None -> Inv s -> authenticate admitted result s = (r, s') -> Inv s'.
Proof.
  intros Hnone [H1 H2 H3 H4 H5] H. unfold authenticate in H.
  assert (Hempty : from s = ""%string).
  { destruct (String.eqb_spec (from s) ""); [done|]. destruct (H1 n) as (a & Ha & _). congruence. }
  repeat case_match; simplify_eq/=; split; simpl; try done; intros Hne; congruence.
Qed.

Lemma mail_inv sender s r s' : Inv s -> Mail sender s = (r, s') -> Inv s'.
Proof.
  intros HI H. unfold Mail in H. destruct (account s) as [a|] eqn:Ea; [|by simplify_eq].
  destruct (reset_inv s HI) as [H1 H2 H3 H4 H5].
  destruct (Auth.Allows a sender) eqn:Eal; simpl in H; simplify_eq/=; split; simpl in *; try done.
  intros _. exists a. rewrite Ea. done.
Qed.

Lemma rcpt_inv to s r s' : Inv s -> Rcpt to s = (r, s') -> Inv s'.
Proof.
  intros [H1 H2 H3 H4 H5] H. unfold Rcpt in H. destruct (_ || _) eqn:E; [by simplify_eq|]. bsimpl.
  destruct (Auth.CanonicalAddress to) as [c|] eqn:Ec; [|by simplify_eq].
  destruct (one_of c (recipients s)) eqn:Eo; simplify_eq/=; [done|].
  apply not_true_iff_false in Eo. rewrite one_of_true in Eo. split; simpl; try done.
  - intros _. tauto.
  - apply NoDup_app. split; [done|]. split; [set_solver|apply NoDup_singleton].
  - intros r Hr. apply elem_of_app in Hr as [Hr|Hr]; [auto|]. apply list_elem_of_singleton in Hr as ->. eauto.
Qed.

(** A run as a whole: the counter covers the authentications started, each
    under TLS; each start pays for at most one check, an open exchange for one
    still to come; and an account stands for a check that found it. *)
Record RunInv (c : conn) : Prop := {
  r_session : Inv (handler c);
  r_exchange : exchange c <> None -> account (handler c) = None;
  r_counted : Z.of_nat (length (starts (log c))) <= authAttempts (handler c);
  r_tls : Forall (eq true) (starts (log c));
  r_checks : (length (checks (log c)) + (if exchange c then 1 else 0) <= length (starts (log c)))%nat;
  r_account : forall a, account (handler c) = Some a -> Checked (inr a) Accepted ∈ log c }.

(** A step that asks nothing of [Auth] or of the account store. *)
Lemma silent_inv s s' e e' t :
  RunInv (MkConn s e t) -> Inv s' -> authAttempts s' = authAttempts s ->
  (account s' = account s \/ account s' = None) -> (e' <> None -> e <> None) -> RunInv (MkConn s' e' t).
Proof.
  intros [H1 H2 H3 H4 H5 H6] HI Ha Hac He. simpl in *. split; simpl; try done.
  - intros Hne. destruct Hac as [->|]; auto.
  - lia.
  - destruct e, e'; simpl in *; try lia. by destruct He.
  - intros a Hs. apply H6. destruct Hac; congruence.
Qed.

Lemma asked_inv tls mech s r s' t :
  RunInv (MkConn s None t) -> account s = None -> AuthStart tls mech s = (r, s') ->
  RunInv (MkConn s' (begin_exchange r) (t ++ [Asked tls mech r])).
Proof.
  intros [H1 H2 H3 H4 H5 H6] Hnone H. simpl in *. pose proof (auth_start_inv _ _ _ _ _ H1 H) as HI.
  assert (Hs : account s' = None /\
    match r with
    | inl _ => authAttempts s <= authAttempts s'
    | inr m => tls = true /\ m <> OtherMechanism /\ authAttempts s' = authAttempts s + 1
    end).
  { unfold AuthStart in H. destruct tls; simpl in H; [|by simplify_eq].
    destruct (5 <=? authAttempts s); [by simplify_eq|]. destruct mech; simplify_eq/=; split_and!; try done; lia. }
  destruct Hs as [Ha Hs]. split; simpl; unfold starts, checks in *; rewrite ?omap_app; simpl; try done.
  - destruct r; simpl; rewrite ?app_nil_r, ?length_app; simpl; lia.
  - destruct r; simpl; rewrite ?app_nil_r; [done|]. apply Forall_app. split; [done|]. by destruct Hs as [-> _]; constructor.
  - rewrite app_nil_r. destruct r as [|[]]; simpl; rewrite ?app_nil_r, ?length_app; simpl; lia.
  - intros a Hs'. congruence.
Qed.

Lemma authenticate_shape admitted result s r s' :
  authenticate admitted result s = (r, s') ->
  authAttempts s' = authAttempts s /\
  (account s' = account s \/ exists a, result = inr a /\ r = Accepted /\ account s' = Some a).
Proof. unfold authenticate. intros H. repeat case_match; simplify_eq/=; eauto 10. Qed.

(** A step that settles an exchange by a check. *)
Lemma checked_inv e s s' t result r :
  RunInv (MkConn s (Some e) t) -> Inv s' -> authAttempts s' = authAttempts s ->
  (account s' = account s \/ exists a, result = inr a /\ r = Accepted /\ account s' = Some a) ->
  RunInv (MkConn s' None (t ++ [Checked result r])).
Proof.
  intros [H1 H2 H3 H4 H5 H6] HI Ha Hac. simpl in *.
  split; simpl; unfold starts, checks in *; rewrite ?omap_app; simpl; rewrite ?app_nil_r, ?length_app; simpl; try done; try lia.
  intros a Hs. apply elem_of_app. destruct Hac as [Hac|(a' & -> & -> & Hac)]; [left; apply H6; congruence|].
  right. apply list_elem_of_singleton. congruence.
Qed.

Lemma session_step_inv c c' : RunInv c -> step c c' -> RunInv c'.
Proof.
  intros HR Hst. destruct Hst as [s t|s e t|tls mech s r s' t Hnone H|identity name admitted result s r s' t H
    |response l text l' s t H|response l name password l' admitted result s r s' t Hn H|e s t
    |sender s r s' t H|to s r s' t H
    |acquired root MaxBytes calls w id received archived input ending why s fs db r s' fs' db' t H].
  all: pose proof (r_session _ HR) as HI; simpl in HI.
  - apply (silent_inv s _ None); auto using reset_inv.
  - apply (silent_inv s _ e); auto. destruct (reset_inv s HI) as [H1 H2 H3 H4 H5]. split; simpl in *; done.
  - by eapply asked_inv.
  - pose proof (r_exchange _ HR ltac:(done)) as Hnone. unfold plain in H. case_match; [simplify_eq; eapply checked_inv; eauto|].
    destruct (authenticate_shape _ _ _ _ _ H). eapply checked_inv; eauto using login_inv.
  - apply (silent_inv s _ (Some (LoginExchange l))); auto.
  - pose proof (r_exchange _ HR ltac:(done)) as Hnone.
    destruct (authenticate_shape _ _ _ _ _ H). eapply checked_inv; eauto using login_inv.
  - apply (silent_inv s _ (Some e)); auto.
  - apply (silent_inv s _ None); eauto using mail_inv; unfold Mail in H; repeat case_match; simplify_eq/=; auto.
  - apply (silent_inv s _ None); eauto using rcpt_inv; unfold Rcpt in H; repeat case_match; simplify_eq/=; auto.
  - assert (s' = s \/ s' = Reset s) as [->| ->]; [|done|apply (silent_inv s _ None); auto using reset_inv].
    unfold Data in H. repeat case_match; simplify_eq/=; auto.
Qed.

Lemma session_reachable_inv c : reachable c -> RunInv c.
Proof.
  induction 1 as [|c c' _ IH Hst]; [|by eapply session_step_inv].
  split; simpl; try done. split; simpl; try done; try lia; try apply NoDup_nil_2; by intros r ?%elem_of_nil.
Qed.

(** C34. What a session lets through.  In every run of a session, whatever the
    commands and their order, a message is handed to the receiver only for an
    authenticated account, with a sender that account may use, and with a
    nonempty list of distinct canonical recipients.  The run has started at most
    five authentications, each of them while the connection had TLS, and checked
    at most one password for each; and an account is in place only where one of
    these checks found it. *)
Theorem session_envelope s e t :
  reachable (MkConn s e t) ->
  (forall a sender rcpts, envelope s = Some (a, sender, rcpts) ->
     account s = Some a /\ Auth.Allows a sender = true /\ rcpts <> [] /\ NoDup rcpts /\
     (forall r, r ∈ rcpts -> exists to, Auth.CanonicalAddress to = Some r)) /\
  (length (checks t) <= length (starts t) <= 5)%nat /\ Forall (eq true) (starts t) /\
  (forall a, account s = Some a -> Checked (inr a) Accepted ∈ t).
Proof.
  intros Hr. destruct (session_reachable_inv _ Hr) as [[H1 H2 H3 H4 H5] _ Hc Ht Hk Ha]. simpl in *.
  split; [|split; [destruct e; lia|done]].
  intros a sender rcpts He. unfold envelope in He. destruct (account s) as [a'|] eqn:Ea; [|done].
  destruct (_ || _) eqn:E; [done|]. injection He as <- <- <-. bsimpl. destruct E as [E1 E2].
  destruct (H1 E1) as (a'' & Ha'' & Hall). split; [done|]. split; [congruence|]. done.
Qed.

(** A positive reply to DATA means the message is safe: it is given only
    when the receiver reported success, so the archive holds exactly the data
    received and the message is queued; every other outcome is a permanent
    refusal of this message or asks the client to retry; and the transaction is
    over in any case. *)
Theorem data_accepts acquired root MaxBytes calls w id received archived input ending why s fs db r s' fs' db' a sender rcpts :
  envelope s = Some (a, sender, rcpts) ->
  Data acquired root MaxBytes calls w id received archived input ending why s fs db = (r, s', fs', db') ->
  s' = Reset s /\
  match r with
  | Accepted =>
      fs' = <[Storage.archive_path root received id := input]> fs /\
      exists m, messages db' !! id = Some m /\ m_eml_sha256 m = EncodeToString (Sha.Sum256 input) /\
        forall address, address ∈ rcpts -> Receive.has_recipient id address db'
  | SMTPError code _ _ => code = 550 \/ code = 552 \/ code = 554 \/ code = 451
  | _ => False
  end.
Proof.
  intros He H. unfold Data in H. rewrite He in H.
  destruct (Receive.Receive _ _ _ _ _ _ _ _ _ _ _ _ _ _ _) as [[outcome fs1] db1] eqn:Er. injection H as <- <- <- <-.
  split; [done|]. destruct outcome as [e|id'].
  - unfold data_reply. repeat case_match; simplify_eq; auto.
  - simpl. destruct (Receive.Receive_result _ _ _ _ _ _ _ _ _ _ _ _ _ _ _ _ _ _ Er)
      as (_ & _ & _ & _ & _ & Hfs & _ & m & Hm & _ & _ & _ & _ & _ & Hsha & Hr & _). split; [done|]. exists m. done.
Qed.

End Session.

(** ** A session *)

#[local] Existing Instance Receive.demo_addresses.
#[local] Existing Instance Receive.demo_headers.

Definition session0 : session := snd (AuthStart true Login NewSession).
Definition session1 : session := snd (authenticate true (inr Receive.demo_account) session0).
Definition session2 : session := snd (Mail "f@example.com" session1).
Definition session3 : session := snd (Rcpt "a@Example.org" session2).
Definition session_log : list Call := [Asked true Login (inr Login); Checked (inr Receive.demo_account) Accepted].

Example session_run : envelope session3 = Some (Receive.demo_account, "f@example.com", ["a@example.org"])%string.
Proof. vm_compute. reflexivity. Qed.

(** The client authenticates by LOGIN and names a sender and a recipient. *)
Lemma session3_reachable : reachable (MkConn session3 None session_log).
Proof.
  apply (reachable_step (MkConn session2 None session_log));
    [|apply (step_rcpt "a@Example.org" _ Accepted); vm_compute; reflexivity].
  apply (reachable_step (MkConn session1 None session_log));
    [|apply (step_mail "f@example.com" _ Accepted); vm_compute; reflexivity].
  apply (reachable_step (MkConn session0 (Some (LoginExchange (MkLogin 2 "user"))) [Asked true Login (inr Login)]));
    [|apply (step_login (Some "secret") _ "user" "secret" (MkLogin 3 "user") true (inr Receive.demo_account) _ Accepted _
        [Asked true Login (inr Login)]); vm_compute; reflexivity].
  apply (reachable_step (MkConn session0 (Some (LoginExchange (MkLogin 0 ""))) [Asked true Login (inr Login)]));
    [|apply (step_challenge (Some "user") _ "Password:"); vm_compute; reflexivity].
  apply (reachable_step (MkConn NewSession None [])); [apply reachable_start|].
  apply (step_auth true Login NewSession (inr Login) session0 []); vm_compute; reflexivity.
Qed.

Lemma session_envelope_witness :
  Auth.Allows Receive.demo_account "f@example.com" = true /\ (length (starts session_log) <= 5)%nat.
Proof.
  destruct (session_envelope session3 None session_log session3_reachable) as (He & Hc & _).
  split; [|exact (proj2 Hc)].
  exact (proj1 (proj2 (He Receive.demo_account "f@example.com"%string ["a@example.org"]%string session_run))).
Defined.

Definition demo_data :=
  Data true "data" 1000 Storage.demo_calls (demo_world (demo_day + Second) 9000) 300 demo_day (demo_day + Second)
    Receive.demo_input Receive.EOF OtherFailure session3 ∅ demo_db.

Lemma data_accepts_witness :
  snd (fst demo_data) = <[Storage.archive_path "data" demo_day 300 := Receive.demo_input]> ∅.
Proof.
  apply (data_accepts true "data" 1000 Storage.demo_calls (demo_world (demo_day + Second) 9000) 300 demo_day
    (demo_day + Second) Receive.demo_input Receive.EOF OtherFailure session3 ∅ demo_db Accepted (Reset session3)
    (snd (fst demo_data)) (snd demo_data) Receive.demo_account "f@example.com" ["a@example.org"]%string session_run).
  vm_compute. reflexivity.
Defined.

End SmtpSession.
