(* ===== verification/Webhook.v ===== *)
(** * The webhook outbox

    [internal/webhook]: the configured endpoints ([config.go]), the worker that
    claims, sends and finishes notifications ([worker.go]) and the operator's
    commands ([manage.go]), as transactions over the database.  Notifications
    enter the outbox by the trigger [capture_webhook_event] of [migrations/]
    ([Database]), in the transaction that records the event.  The row locks of [SKIP LOCKED] are those
    the world reports for the row's sequence number. *)

From S2P Require Import Prelude Sha256 GoText TextFacts JsonText Delivery SmtpClient Provider Database WebhookHttp Suppression Message QueueOps MessageOps.

Module Webhook.

Import Hook.

(** ** [json.Marshal] of endpoints *)

Definition marshal_key (k : Key) : string := object [("id", quoted (key_ID k)); ("secret", quoted (key_Secret k))]%string.
Definition schema_field (e : Endpoint) : list (string * string) :=
  if ep_SchemaVersion e =? 0 then [] else [("schema_version"%string, FormatInt (ep_SchemaVersion e))].
Definition marshal_endpoint (e : Endpoint) : string :=
  object (schema_field e ++
    [("id", quoted (uuid_text (ep_ID e))); ("api_key_id", quoted (uuid_text (ep_APIKeyID e)));
     ("url", quoted (ep_URL e)); ("keys", array (map marshal_key (ep_Keys e)))]%string).

(** [Endpoint.Version], [Endpoint.Hash] *)
Definition Version (e : Endpoint) : Z := if ep_SchemaVersion e =? 2 then 2 else 1.
Definition Hash (e : Endpoint) : string := EncodeToString (Sha.Sum256 (bytes_of (marshal_endpoint e))).

(** ** Configuration *)

Definition canonicalID (u : UUID) : bool := negb (u =? 0)%N.

Fixpoint keys_valid (kids : list string) (ks : list Key) : bool :=
  match ks with
  | [] => true
  | k :: rest =>
      match DecodeString (key_Secret k) with
      | Some b => keyID (key_ID k) && negb (bool_decide (key_ID k ∈ kids)) && (length b =? 32)%nat
                  && String.eqb (EncodeToString b) (key_Secret k) && keys_valid (key_ID k :: kids) rest
      | None => false
      end
  end.

Section Configuration.
  Context {parser : URLParser}.

(** The loop of [Parse] over the decoded endpoints. *)
Fixpoint endpoints_ok (ids owners : list UUID) (es : list Endpoint) : bool :=
  match es with
  | [] => true
  | v :: rest =>
      one_of (ep_SchemaVersion v) [0; 1; 2] && canonicalID (ep_ID v) && canonicalID (ep_APIKeyID v)
      && negb (bool_decide (ep_ID v ∈ ids)) && negb (bool_decide (ep_APIKeyID v ∈ owners))
      && ValidateURL (ep_URL v) && (1 <=? length (ep_Keys v))%nat && (length (ep_Keys v) <=? 2)%nat
      && keys_valid [] (ep_Keys v) && endpoints_ok (ep_ID v :: ids) (ep_APIKeyID v :: owners) rest
  end.

(** [Parse] of the marshalled endpoints. *)
Definition Parse (es : list Endpoint) : bool :=
  (N.of_nat (String.length (array (map marshal_endpoint es))) <=? 65536)%N && (length es <=? 32)%nat && endpoints_ok [] [] es.

(** Another enabled endpoint of the same website would violate the unique index. *)
Definition identity_taken (e : Endpoint) (db : DB) : bool :=
  exists_row (fun k row => negb (bool_decide (k = ep_ID e)) && bool_decide (we_api_key_id row = ep_APIKeyID e) && we_enabled row)
    (webhook_endpoints db).

(** The INSERT ... ON CONFLICT ... DO UPDATE; the number of rows affected. *)
Definition upsert (e : Endpoint) : M Z :=
  stmt (fun _ db =>
    match webhook_endpoints db !! ep_ID e with
    | Some row =>
        if bool_decide (we_api_key_id row = ep_APIKeyID e) && String.eqb (we_url row) (ep_URL e)
        then if identity_taken e db then None
             else Some (1, db <| webhook_endpoints := <[ep_ID e := row <| we_config_hash := Hash e |> <| we_enabled := true |>
                                                                        <| we_schema_version := Version e |>]>
                                                       (webhook_endpoints db) |>)
        else Some (0, db)
    | None =>
        if identity_taken e db then None
        else Some (1, db <| webhook_endpoints :=
               <[ep_ID e := MkWebhookEndpoint (ep_APIKeyID e) (ep_URL e) (Hash e) true (Version e)]> (webhook_endpoints db) |>)
    end).

Definition sync_one (e : Endpoint) : M unit :=
  ok ← query (fun _ db => match api_keys db !! ep_APIKeyID e with
                          | Some k => k_enabled k && String.eqb (k_prefix k) "rts_"
                          | None => false
                          end);
  Message.guard (ErrText "webhook requires configured enabled send identity") ok;;
  n ← upsert e;
  Message.guard (ErrText "webhook endpoint destination and owner are immutable") (n =? 1).

Definition Sync (es : list Endpoint) : M (TxEnd unit) :=
  Message.guard (ErrText "invalid WEBHOOK_ENDPOINTS") (Parse es);;
  exec (fun _ db => db);;
  exec (fun _ db => db <| webhook_endpoints := update (fun _ _ => true) (fun row => row <| we_enabled := false |>)
                                                 (webhook_endpoints db) |>);;
  forM es sync_one;;
  Suppression.audit "WEBHOOK_CONFIGURED" "startup_config"
    (JObj [("endpoints", JArr (map (fun v => JObj [("endpoint_id", JId (ep_ID v)); ("api_key_id", JId (ep_APIKeyID v));
                                                   ("config_hash", JStr (Hash v))]) es))]%string);;
  mret (Commit (inr tt)).

End Configuration.

(** ** The worker *)

Record claim := MkClaim { c_Sequence : Z; c_Payload : string; c_Token : UUID; c_Attempt : Z; c_Generation : Z }.

Definition state_is (o : OutboxRow) (s : HookState) : bool := bool_decide (ob_state o = s).

(** [e.enabled AND k.enabled AND e.config_hash=$2]; no row is [None]. *)
Definition eligible (e : Endpoint) (db : DB) : option bool :=
  row ← webhook_endpoints db !! ep_ID e;
  k ← api_keys db !! we_api_key_id row;
  Some (we_enabled row && k_enabled k && String.eqb (we_config_hash row) (Hash e)).

Definition log_entry (seq gen attempt : Z) (outcome : HookOutcome) : DeliveryLog :=
  MkDeliveryLog seq gen attempt outcome None None None.
Definition append_log (ls : list DeliveryLog) (db : DB) : DB :=
  db <| webhook_delivery_log := webhook_delivery_log db ++ ls |>.

(** Expired rows, including a final crashed claim. *)
Definition retirable (id : UUID) (t : Time) (o : OutboxRow) : bool :=
  bool_decide (ob_endpoint_id o = id)
  && (state_is o HookPending || (state_is o HookInFlight && le_time (ob_lease_until o) t))
  && ((ob_deadline o <=? t) || (8 <=? ob_attempts o)).

Definition sequence_leb (x y : Z * OutboxRow) : bool := fst x <=? fst y.

Definition retired (id : UUID) (t : At) (db : DB) : list (Z * OutboxRow) :=
  limit 100 (sort_by sequence_leb
    (select (fun k o => negb (at_skip t (Z.to_N k)) && retirable id (at_clock t) o) (webhook_outbox db))).

Definition retire (id : UUID) : M unit :=
  exec (fun t db =>
    let rows := retired id t db in
    append_log (map (fun ko => log_entry (fst ko) (ob_generation (snd ko)) (ob_attempts (snd ko)) EXHAUSTED) rows)
      (db <| webhook_outbox := update (fun k _ => bool_decide (k ∈ map fst rows))
               (fun o => o <| ob_state := HookDead |> <| ob_lease_token := None |> <| ob_lease_until := None |>)
               (webhook_outbox db) |>)).

Definition due (id : UUID) (t : Time) (o : OutboxRow) : bool :=
  bool_decide (ob_endpoint_id o = id) && (ob_attempts o <? 8) && (t <? ob_deadline o)
  && ((state_is o HookPending && (ob_next_at o <=? t)) || (state_is o HookInFlight && le_time (ob_lease_until o) t)).

Definition due_leb (x y : Z * OutboxRow) : bool :=
  (ob_next_at (snd x) <? ob_next_at (snd y)) || ((ob_next_at (snd x) =? ob_next_at (snd y)) && (fst x <=? fst y)).

Definition candidate (id : UUID) (t : At) (db : DB) : option (Z * OutboxRow) :=
  head (limit 1 (sort_by due_leb
    (select (fun k o => negb (at_skip t (Z.to_N k)) && due id (at_clock t) o) (webhook_outbox db)))).

Definition lease (token : UUID) (until : Time) (o : OutboxRow) : OutboxRow :=
  o <| ob_state := HookInFlight |> <| ob_attempts := ob_attempts o + 1 |> <| ob_lease_token := Some token |>
    <| ob_lease_until := Some until |>.

Definition take_due (id token : UUID) : M (option claim) :=
  stmt (fun t db =>
    match candidate id t db with
    | None => Some (None, db)
    | Some (seq, o) =>
        Some (Some (MkClaim seq (ob_payload o) token (ob_attempts o + 1) (ob_generation o)),
              db <| webhook_outbox := <[seq := lease token (at_clock t + 60 * Second) o]> (webhook_outbox db) |>)
    end).

(** [Worker.claim]; no notification is [None]. *)
Definition claim_next (e : Endpoint) : M (TxEnd (option claim)) :=
  ok ← query (fun _ db => eligible e db);
  match ok with
  | Some true =>
      retire (ep_ID e);;
      token ← fresh;
      r ← take_due (ep_ID e) token;
      match r with
      | None => mret (Commit (inr None))
      | Some c =>
          exec (fun _ => append_log [log_entry (c_Sequence c) (c_Generation c) (c_Attempt c) STARTED]);;
          mret (Commit (inr (Some c)))
      end
  | _ => mret (Commit (inr None))
  end.

(** A 2xx answer that was read to its end. *)
Definition acknowledges (code : Z) (sendErr : bool) : bool := negb sendErr && (200 <=? code) && (code <? 300).

(** The pause before the next attempt; [jitter] is [rand.IntN(16)]. *)
Definition backoff (attempt jitter : Z) : Z := Minute * Z.shiftl 1 (Z.min (attempt - 1) 6) + jitter * Second.

(** The row the claim still holds. *)
Definition owned (c : claim) (t : Time) (k : Z) (o : OutboxRow) : bool :=
  bool_decide (k = c_Sequence c) && is_id (ob_lease_token o) (c_Token c) && state_is o HookInFlight
  && gt_time (ob_lease_until o) t.

(** [Worker.finish] *)
Definition finish (c : claim) (code : Z) (sendErr : bool) (jitter : Z) : M (TxEnd unit) :=
  let acked := acknowledges code sendErr in
  let state := if acked then HookDelivered else if 8 <=? c_Attempt c then HookDead else HookPending in
  let outcome := if acked then ACKNOWLEDGED else if 8 <=? c_Attempt c then EXHAUSTED else RETRY in
  n ← stmt (fun t db =>
    Some (count_rows (owned c (at_clock t)) (webhook_outbox db),
          db <| webhook_outbox := update (owned c (at_clock t))
                  (fun o => o <| ob_state := state |> <| ob_lease_token := None |> <| ob_lease_until := None |>
                              <| ob_next_at := at_clock t + backoff (c_Attempt c) jitter |>)
                  (webhook_outbox db) |>));
  Message.guard (ErrText "webhook claim no longer owned") (n =? 1);;
  let http := if (code <? 100) || (599 <? code) then None else Some code in
  exec (fun _ => append_log [MkDeliveryLog (c_Sequence c) (c_Generation c) (c_Attempt c) outcome http None None]);;
  mret (Commit (inr tt)).

(** ** Operator commands *)

Definition named (actor reason : string) : bool :=
  negb (String.eqb (TrimSpace actor) "" || (128 <? String.length actor)%nat
        || String.eqb (TrimSpace reason) "" || (1000 <? String.length reason)%nat).

(** [Replay]; [generation] is a 32-bit column. *)
Definition Replay (sequence generation : Z) (actor reason : string) : M (TxEnd unit) :=
  Message.guard (ErrText "invalid webhook replay arguments") ((1 <=? sequence) && (0 <=? generation) && named actor reason);;
  n ← stmt (fun t db =>
    let hit k o := bool_decide (k = sequence) && (ob_generation o =? generation) && state_is o HookDead in
    if exists_row hit (webhook_outbox db) && (2 ^ 31 <=? generation + 1) then None
    else Some (count_rows hit (webhook_outbox db),
               db <| webhook_outbox := update hit
                       (fun o => o <| ob_state := HookPending |> <| ob_attempts := 0 |> <| ob_generation := ob_generation o + 1 |>
                                   <| ob_next_at := at_clock t |> <| ob_deadline := at_clock t + 24 * Hour |>)
                       (webhook_outbox db) |>));
  Message.guard (ErrText "webhook is not dead or replay generation changed") (n =? 1);;
  exec (fun _ => append_log [MkDeliveryLog sequence (generation + 1) 0 REPLAY_REQUESTED None (Some actor) (Some reason)]);;
  mret (Commit (inr tt)).

Definition Pause (id : UUID) (actor reason : string) : M (TxEnd unit) :=
  Message.guard (ErrText "invalid webhook pause arguments") (canonicalID id && named actor reason);;
  n ← stmt (fun _ db =>
    let hit k (_ : WebhookEndpoint) := bool_decide (k = id) in
    Some (count_rows hit (webhook_endpoints db),
          db <| webhook_endpoints := update hit (fun row => row <| we_enabled := false |>) (webhook_endpoints db) |>));
  Message.guard (ErrText "webhook endpoint not found") (n =? 1);;
  Suppression.audit "WEBHOOK_PAUSED" actor (JObj [("endpoint_id", JStr (uuid_text id)); ("reason", JStr reason)]%string);;
  mret (Commit (inr tt)).

End Webhook.
