(* ===== verification/WebhookSpec.v ===== *)
(** * The contract of the webhook outbox

    Workers, operators and the capturing trigger act on the outbox in any
    order, any transaction of theirs may fail or lose its commit answer, and a
    worker may stop at any point.  Notifications are delivered at least once
    within a bounded number of attempts, and never to another destination. *)

From S2P Require Import Prelude Sha256 GoText TextFacts Delivery SmtpClient Provider Database WebhookHttp Suppression Message Queue QueueOps MessageOps Demo Webhook.

Import Hook Webhook.

Module HookSpec.

(** ** Runs *)

(** A request that was sent: endpoint, request, answer. *)
Record Notice := MkNotice { n_endpoint : UUID; n_request : Request; n_code : Z; n_err : bool }.

Inductive Stage := Claimed | Answered (code : Z) (err : bool).

Record State := MkState {
  db_of : DB; workers : gmap N (Endpoint * claim * Stage); sent : list Notice }.

Section Runs.
  Context {parser : URLParser}.

Inductive command : M (TxEnd unit) -> Prop :=
| command_sync es : command (Sync es)
| command_replay sequence generation actor reason : command (Replay sequence generation actor reason)
| command_pause id actor reason : command (Pause id actor reason).

Definition noticed (e : Endpoint) (r : option Request * (Z * bool)) : list Notice :=
  match fst r with Some req => [MkNotice (ep_ID e) req (fst (snd r)) (snd (snd r))] | None => [] end.

Inductive step : State -> State -> Prop :=
| step_capture db ws out seq endpoint event message payload at_ deadline :
    webhook_outbox db !! seq = None ->
    step (MkState db ws out)
      (MkState (db <| webhook_outbox := <[seq := captured endpoint event message payload at_ deadline]> (webhook_outbox db) |>)
         ws out)
| step_command body w db ws out r db' :
    command body -> transact w body db = (r, db') -> step (MkState db ws out) (MkState db' ws out)
| step_idle w e db ws out r db' :
    transact w (claim_next e) db = (r, db') -> step (MkState db ws out) (MkState db' ws out)
| step_claim w e n db ws out c db' :
    transact w (claim_next e) db = (inr (Some c), db') -> ws !! n = None ->
    step (MkState db ws out) (MkState db' (<[n := (e, c, Claimed)]> ws) out)
| step_send e c n now Do db ws out r :
    ws !! n = Some (e, c, Claimed) -> eligible e db = Some true ->
    r = Send e now (bytes_of (c_Payload c)) Do ->
    step (MkState db ws out) (MkState db (<[n := (e, c, Answered (fst (snd r)) (snd (snd r)))]> ws) (out ++ noticed e r))
| step_unavailable e c n db ws out :
    ws !! n = Some (e, c, Claimed) -> step (MkState db ws out) (MkState db (<[n := (e, c, Answered 0 true)]> ws) out)
| step_finish w e c n code err jitter db ws out r db' :
    ws !! n = Some (e, c, Answered code err) -> transact w (finish c code err jitter) db = (r, db') ->
    step (MkState db ws out) (MkState db' (delete n ws) out)
| step_stop n db ws out : step (MkState db ws out) (MkState db (delete n ws) out)
| step_elsewhere db db' ws out :
    webhook_outbox db' = webhook_outbox db -> webhook_delivery_log db' = webhook_delivery_log db ->
    step (MkState db ws out) (MkState db' ws out).

Definition initial (s : State) : Prop :=
  workers s = ∅ /\ webhook_outbox (db_of s) = ∅ /\ webhook_delivery_log (db_of s) = [].

(** The trigger is such a step: recording an event captures it at most once
    and leaves the rest of the outbox alone. *)
Lemma records_step id e db db' ws out : records id e db db' -> rtc step (MkState db ws out) (MkState db' ws out).
Proof.
  intros (_ & outbox & Hc & ->). apply captures_cases in Hc as [->|(_ & seq & endpoint & payload & at_ & Hs & ->)].
  - by apply rtc_once, step_elsewhere.
  - eapply rtc_l; [by apply (step_capture db ws out seq endpoint id (e_message_id e) payload at_ (at_ + 24 * Hour))|].
    by apply rtc_once, step_elsewhere.
Qed.

Inductive reachable : State -> Prop :=
| reachable_start s : initial s -> reachable s
| reachable_step s s' : reachable s -> step s s' -> reachable s'.

(** ** The invariant *)

(** The endpoint acknowledged a request with exactly this payload. *)
Definition acked (out : list Notice) (endpoint : UUID) (payload : string) : Prop :=
  exists nt, nt ∈ out /\ n_endpoint nt = endpoint /\ rq_Body (n_request nt) = bytes_of payload /\
    n_err nt = false /\ 200 <= n_code nt < 300.

(** Attempts the log has for a notification in a generation. *)
Definition is_start (seq gen : Z) (l : DeliveryLog) : bool :=
  (dl_sequence l =? seq) && (dl_generation l =? gen) && bool_decide (dl_outcome l = STARTED).
Definition starts (seq gen : Z) (log : list DeliveryLog) : Z := Z.of_nat (length (List.filter (is_start seq gen) log)).

Record row_ok (out : list Notice) (log : list DeliveryLog) (owed seq : Z) (o : OutboxRow) : Prop := {
  ok_attempts : 0 <= ob_attempts o <= 8;
  ok_generation : 0 <= ob_generation o;
  ok_token : ob_state o = HookInFlight <-> is_Some (ob_lease_token o);
  ok_until : is_Some (ob_lease_token o) <-> is_Some (ob_lease_until o);
  ok_acked : ob_state o = HookDelivered -> acked out (ob_endpoint_id o) (ob_payload o);
  ok_starts : starts seq (ob_generation o) log + owed = ob_attempts o }.

Record hooks_ok (out : list Notice) (owed : Z -> Z) (db : DB) : Prop := {
  hk_rows : forall seq o, webhook_outbox db !! seq = Some o -> row_ok out (webhook_delivery_log db) (owed seq) seq o;
  hk_log : forall l, l ∈ webhook_delivery_log db -> exists o, webhook_outbox db !! dl_sequence l = Some o /\
             dl_generation l <= ob_generation o }.

(** What never changes for a notification, and what only moves on. *)
Definition row_evolves (o o' : OutboxRow) : Prop :=
  ob_endpoint_id o' = ob_endpoint_id o /\ ob_event_id o' = ob_event_id o /\ ob_message_id o' = ob_message_id o /\
  ob_payload o' = ob_payload o /\ ob_generation o <= ob_generation o' /\
  (ob_state o = HookDelivered -> ob_state o' = HookDelivered).

Definition evolves (db db' : DB) : Prop :=
  (forall seq o, webhook_outbox db !! seq = Some o -> exists o', webhook_outbox db' !! seq = Some o' /\ row_evolves o o') /\
  webhook_delivery_log db `prefix_of` webhook_delivery_log db'.

Definition none : Z -> Z := fun _ => 0.

(** The state of a transaction that started from [db0]. *)
Definition Ok (out : list Notice) (db0 : DB) (owed : Z -> Z) (db : DB) : Prop := hooks_ok out owed db /\ evolves db0 db.

#[export] Instance row_evolves_preorder : PreOrder row_evolves.
Proof.
  split; [intros o; unfold row_evolves; repeat split; auto; lia|].
  intros o1 o2 o3 (A1 & A2 & A3 & A4 & A5 & A6) (B1 & B2 & B3 & B4 & B5 & B6).
  unfold row_evolves. repeat split; try congruence; [lia|auto].
Qed.

#[export] Instance evolves_preorder : PreOrder evolves.
Proof.
  split; [intros db; split; [intros seq o Ho; exists o; split; [done|reflexivity]|reflexivity]|].
  intros d1 d2 d3 [A1 A2] [B1 B2]. split; [|by etrans].
  intros seq o Ho. destruct (A1 seq o Ho) as (o2 & H2 & E2). destruct (B1 seq o2 H2) as (o3 & H3 & E3).
  exists o3. split; [done|by etrans].
Qed.

Lemma starts_app seq gen log ls : starts seq gen (log ++ ls) = starts seq gen log + starts seq gen ls.
Proof. unfold starts. rewrite List.filter_app, length_app. lia. Qed.

(** Rows change one by one. *)
Lemma ok_update out db0 owed db p f :
  Ok out db0 owed db ->
  (forall seq o, webhook_outbox db !! seq = Some o -> p seq o = true ->
     row_ok out (webhook_delivery_log db) (owed seq) seq (f o) /\ row_evolves o (f o)) ->
  Ok out db0 owed (db <| webhook_outbox := update p f (webhook_outbox db) |>).
Proof.
  intros [[Hr Hl] He] Hf.
  assert (Hev : evolves db (db <| webhook_outbox := update p f (webhook_outbox db) |>)).
  { split; [|reflexivity]. intros seq o Ho. simpl. rewrite lookup_update, Ho. simpl. eexists. split; [done|].
    destruct (p seq o) eqn:Ep; [by apply (Hf seq o)|reflexivity]. }
  split; [|by etrans]. split; simpl.
  - intros seq o' Ho. rewrite lookup_update in Ho. destruct (webhook_outbox db !! seq) as [o|] eqn:Eo; simplify_eq/=.
    destruct (p seq o) eqn:Ep; [by apply (Hf seq o)|by apply Hr].
  - intros l Hin. destruct (Hl l Hin) as (o & Ho & Hg). destruct Hev as [Hev _].
    destruct (Hev _ o Ho) as (o' & Ho' & _ & _ & _ & _ & Hg' & _). exists o'. split; [done|lia].
Qed.

(** The log grows by entries of rows that exist. *)
Lemma ok_log out db0 owed owed' db ls :
  Ok out db0 owed db ->
  (forall l, l ∈ ls -> exists o, webhook_outbox db !! dl_sequence l = Some o /\ dl_generation l <= ob_generation o) ->
  (forall seq o, webhook_outbox db !! seq = Some o -> owed seq = owed' seq + starts seq (ob_generation o) ls) ->
  Ok out db0 owed' (append_log ls db).
Proof.
  intros [[Hr Hl] He] Hls Ho. split; [split; simpl|].
  - intros seq o Hrow. destruct (Hr seq o Hrow) as [? ? ? ? ? H]. split; try done.
    rewrite starts_app. specialize (Ho seq o Hrow). lia.
  - intros l [Hin|Hin]%elem_of_app; [by apply Hl|by apply Hls].
  - etrans; [exact He|]. split; [intros seq o Hrow; exists o; split; [done|reflexivity]|]. simpl. by apply prefix_app_r.
Qed.

Lemma filter_none {A} (f : A -> bool) l : (forall x, x ∈ l -> f x = false) -> List.filter f l = [].
Proof.
  intros H. induction l as [|x l IH]; [done|]. simpl. rewrite (H x) by left. apply IH. intros y Hy. apply H. by right.
Qed.

(** Entries that are not starts change nothing. *)
Lemma ok_note out db0 owed db ls :
  Ok out db0 owed db ->
  (forall l, l ∈ ls -> dl_outcome l <> STARTED /\
     exists o, webhook_outbox db !! dl_sequence l = Some o /\ dl_generation l <= ob_generation o) ->
  Ok out db0 owed (append_log ls db).
Proof.
  intros H Hls. apply (ok_log _ _ owed); [done|intros l Hl; by apply Hls|]. intros seq o _.
  unfold starts. rewrite filter_none; [simpl; lia|]. intros l Hl. destruct (Hls l Hl) as [Hne _].
  unfold is_start. rewrite (bool_decide_eq_false_2 _ Hne). apply andb_false_r.
Qed.

(** One row is replaced, with another debt to the log. *)
Lemma ok_replace out db0 owed owed' db seq o o' :
  Ok out db0 owed db -> webhook_outbox db !! seq = Some o -> row_evolves o o' ->
  row_ok out (webhook_delivery_log db) (owed' seq) seq o' -> (forall k, k <> seq -> owed' k = owed k) ->
  Ok out db0 owed' (db <| webhook_outbox := <[seq := o']> (webhook_outbox db) |>).
Proof.
  intros [[Hr Hl] He] Ho Hev Hok Howed. split; [split; simpl|].
  - intros k x Hx. destruct (decide (k = seq)) as [->|Hk].
    + rewrite lookup_insert_eq in Hx. by simplify_eq.
    + rewrite lookup_insert_ne in Hx by done. rewrite Howed by done. by apply Hr.
  - intros l Hin. destruct (Hl l Hin) as (x & Hx & Hg). destruct (decide (dl_sequence l = seq)) as [<-|Hk].
    + rewrite lookup_insert_eq. exists o'. split; [done|]. destruct Hev as (_ & _ & _ & _ & Hg' & _). simplify_eq. lia.
    + rewrite lookup_insert_ne by done. eauto.
  - etrans; [exact He|]. split; [|reflexivity]. intros k x Hx. simpl. destruct (decide (k = seq)) as [->|Hk].
    + rewrite lookup_insert_eq. simplify_eq. eauto.
    + rewrite lookup_insert_ne by done. exists x. split; [done|reflexivity].
Qed.

Lemma state_is_true o st : state_is o st = true <-> ob_state o = st.
Proof. unfold state_is. apply bool_decide_eq_true. Qed.

Lemma retired_spec id t db seq o :
  (seq, o) ∈ retired id t db ->
  webhook_outbox db !! seq = Some o /\ (ob_state o = HookPending \/ ob_state o = HookInFlight).
Proof.
  intros [Ho [_ H]%andb_true_iff]%elem_limit%elem_sort_by%elem_select. split; [done|]. unfold retirable in H.
  apply andb_true_iff in H as [[_ H]%andb_true_iff _]. apply orb_true_iff in H as [H|[H _]%andb_true_iff];
    apply state_is_true in H; auto.
Qed.

Lemma retire_ok out db0 id : triple (Ok out db0 none) (retire id) (fun _ => Ok out db0 none).
Proof.
  apply triple_exec. intros t db HO. set (rows := retired id t db).
  assert (Hrows : forall seq o, (seq, o) ∈ rows -> webhook_outbox db !! seq = Some o /\ ob_state o <> HookDelivered).
  { intros seq o Hin. destruct (retired_spec _ _ _ _ _ Hin) as [Ho Hs]. split; [done|]. destruct Hs as [-> | ->]; done. }
  apply ok_note; [apply ok_update; [done|]|].
  - intros seq o Ho Hp. apply bool_decide_eq_true in Hp. apply list_elem_of_fmap in Hp as ([k o1] & -> & Hin).
    destruct (Hrows k o1 Hin) as [Ho1 Hs]. simpl in Ho. assert (o1 = o) as -> by congruence.
    destruct HO as [[Hr _] _]. destruct (Hr k o Ho) as [A1 A2 A3 A4 A5 A6]. split.
    + split; simpl; try done; by split; [|intros []].
    + unfold row_evolves. simpl. repeat split; try done; lia.
  - intros l Hl. apply list_elem_of_fmap in Hl as ([k o1] & -> & Hin). split; [done|]. simpl.
    destruct (Hrows k o1 Hin) as [Ho1 _]. rewrite lookup_update, Ho1. simpl. eexists. split; [done|].
    destruct (bool_decide _); simpl; lia.
Qed.

Definition held (e : Endpoint) (c : claim) (db : DB) : Prop :=
  exists o, webhook_outbox db !! c_Sequence c = Some o /\ ob_endpoint_id o = ep_ID e /\ ob_payload o = c_Payload c /\
    c_Generation c <= ob_generation o.

(** Right after the claim the generation is that of the row. *)
Definition taken (e : Endpoint) (c : claim) (db : DB) : Prop :=
  held e c db /\ forall o, webhook_outbox db !! c_Sequence c = Some o -> ob_generation o = c_Generation c.

(** The start of one attempt is still to be logged. *)
Definition owes (seq : Z) : Z -> Z := fun k => if k =? seq then 1 else 0.

Lemma take_due_ok out db0 e token :
  triple (Ok out db0 none) (take_due (ep_ID e) token) (fun r db =>
    match r with Some c => Ok out db0 (owes (c_Sequence c)) db /\ taken e c db | None => Ok out db0 none db end).
Proof.
  apply triple_stmt. intros t db r db' HO H. destruct (candidate (ep_ID e) t db) as [[seq o]|] eqn:E; simplify_eq; [|done].
  assert (Hin : (seq, o) ∈ select (fun k o => negb (at_skip t (Z.to_N k)) && due (ep_ID e) (at_clock t) o) (webhook_outbox db)).
  { apply (elem_sort_by due_leb), (elem_limit 1). by apply head_Some_elem_of. }
  apply elem_select in Hin as [Ho [_ Hd]%andb_true_iff]. unfold due in Hd.
  apply andb_true_iff in Hd as [[[He Ha]%andb_true_iff _]%andb_true_iff Hs].
  apply bool_decide_eq_true in He. apply Z.ltb_lt in Ha.
  assert (Hnd : ob_state o <> HookDelivered)
    by (apply orb_true_iff in Hs as [[H _]%andb_true_iff|[H _]%andb_true_iff]; apply state_is_true in H; congruence).
  split.
  - apply (ok_replace _ _ none _ _ _ o); [done|done| | |].
    + unfold row_evolves, lease. simpl. repeat split; try done; lia.
    + destruct HO as [[Hr _] _]. destruct (Hr seq o Ho) as [A1 A2 A3 A4 A5 A6]. split; simpl; try done.
      * lia.
      * unfold owes, none in *. rewrite Z.eqb_refl. lia.
    + intros k Hk. unfold owes, none. simpl. by destruct (Z.eqb_spec k seq).
  - unfold taken, held. simpl. rewrite lookup_insert_eq. split.
    + exists (lease token (at_clock t + 60 * Second) o). simpl. repeat split; done.
    + by intros ? [= <-].
Qed.

Lemma claim_next_ok out db0 e :
  triple (Ok out db0 none) (claim_next e) (fun r db =>
    Ok out db0 none db /\ exists x, r = Commit (inr x) /\ forall c, x = Some c -> held e c db).
Proof.
  unfold claim_next. step (fun (_ : option bool) => Ok out db0 none); [by apply triple_query|].
  destruct a as [[]|]; [|apply triple_return; intros db HO; split; [done|]; by exists None..].
  step (fun (_ : unit) => Ok out db0 none); [apply retire_ok|]. step (fun (_ : UUID) => Ok out db0 none); [apply triple_fresh|].
  eapply triple_bind; [apply take_due_ok|]. intros [c|]; [|apply triple_return; intros db HO; split; [done|]; by exists None].
  step (fun (_ : unit) db => Ok out db0 none db /\ held e c db).
  - apply triple_exec. intros t db [HO [(o & Ho & H1 & H2 & H3) Hgen]]. split; [|exists o; done].
    specialize (Hgen o Ho).
    apply (ok_log _ _ (owes (c_Sequence c))); [done| |].
    + intros l ->%list_elem_of_singleton. exists o. simpl. split; [done|lia].
    + intros k x Hx. unfold owes, none, starts, is_start, log_entry. simpl.
      destruct (Z.eqb_spec k (c_Sequence c)) as [->|Hk].
      * simplify_eq. by rewrite Z.eqb_refl, Hgen, Z.eqb_refl.
      * destruct (Z.eqb_spec (c_Sequence c) k); [congruence|done].
  - apply triple_return. intros db [HO Hh]. split; [done|]. eexists. split; [done|]. by intros ? [= <-].
Qed.

Lemma finish_ok out db0 c code err jitter :
  triple (fun db => Ok out db0 none db /\ (acknowledges code err = true -> forall o, webhook_outbox db !! c_Sequence c = Some o ->
            acked out (ob_endpoint_id o) (ob_payload o)) /\ exists e, held e c db)
    (finish c code err jitter) (fun _ => Ok out db0 none).
Proof.
  unfold finish.
  step (fun (_ : Z) db => Ok out db0 none db /\ exists o, webhook_outbox db !! c_Sequence c = Some o /\ c_Generation c <= ob_generation o).
  - apply triple_stmt. intros t db n db' (HO & Hack & e & o & Ho & _ & _ & Hgen) H. simplify_eq. split.
    + apply ok_update; [done|]. intros k x Hx Hp. unfold owned in Hp.
      apply andb_true_iff in Hp as [[[Hk _]%andb_true_iff Hs]%andb_true_iff _]. apply bool_decide_eq_true in Hk as ->.
      apply state_is_true in Hs. assert (x = o) as -> by congruence.
      destruct HO as [[Hr _] _]. destruct (Hr _ o Ho) as [A1 A2 A3 A4 A5 A6]. split.
      * split; simpl; try done.
        -- split; [|by intros []]. by repeat case_match.
        -- intros Hd. destruct (acknowledges code err) eqn:E; [by apply Hack|]. by case_match.
      * unfold row_evolves. simpl. repeat split; try done; try lia. congruence.
    + simpl. rewrite lookup_update, Ho. simpl. eexists. split; [done|]. case_match; simpl; lia.
  - step (fun (_ : unit) db => Ok out db0 none db /\ exists o, webhook_outbox db !! c_Sequence c = Some o /\ c_Generation c <= ob_generation o);
      [apply triple_guard_|].
    step (fun (_ : unit) => Ok out db0 none); [|by apply triple_return].
    apply triple_exec. intros t db (HO & o & Ho & Hg). apply ok_note; [done|].
    intros l ->%list_elem_of_singleton. simpl. split; [by repeat case_match|eauto].
Qed.

Lemma Replay_ok out db0 sequence generation actor reason :
  triple (Ok out db0 none) (Replay sequence generation actor reason) (fun _ => Ok out db0 none).
Proof.
  unfold Replay. step (fun (_ : unit) => Ok out db0 none); [apply triple_guard_|].
  set (hit := fun k o => bool_decide (k = sequence) && (ob_generation o =? generation) && state_is o HookDead).
  step (fun n db => Ok out db0 none db /\ (n = 1 ->
    exists o, webhook_outbox db !! sequence = Some o /\ generation + 1 <= ob_generation o)).
  - apply triple_stmt. intros t db n db' HO H. destruct (_ && _) in H; [done|]. injection H as <- <-. split.
    + apply ok_update; [done|]. intros k o Ho Hp. unfold hit in Hp.
      apply andb_true_iff in Hp as [_ Hs]. apply state_is_true in Hs.
      destruct HO as [[Hr Hl] _]. destruct (Hr k o Ho) as [A1 A2 A3 A4 A5 A6]. split.
      * split; simpl; try done; try lia.
        -- rewrite <- A3, Hs. done.
        -- unfold none. rewrite Z.add_0_r. unfold starts.
           assert (List.filter (is_start k (ob_generation o + 1)) (webhook_delivery_log db) = []) as ->; [|done].
           apply filter_none. intros l Hin. unfold is_start. destruct (Z.eqb_spec (dl_sequence l) k) as [Ek|]; [|done].
           destruct (Hl l Hin) as (x & Hx & Hg). assert (x = o) as -> by congruence.
           destruct (Z.eqb_spec (dl_generation l) (ob_generation o + 1)); [lia|done].
      * unfold row_evolves. simpl. repeat split; try done; [lia|congruence].
    + intros Hn. assert (Hone : exists o, webhook_outbox db !! sequence = Some o /\ hit sequence o = true).
      { unfold count_rows in Hn. destruct (select hit (webhook_outbox db)) as [|[k o] l] eqn:E; [done|].
        assert (Hin : (k, o) ∈ select hit (webhook_outbox db)) by (rewrite E; left).
        apply elem_select in Hin as [Ho Hh]. exists o. pose proof Hh as Hk. unfold hit in Hk.
        apply andb_true_iff in Hk as [[Hk _]%andb_true_iff _]. apply bool_decide_eq_true in Hk as ->. done. }
      destruct Hone as (o & Ho & Hh). simpl. rewrite lookup_update, Ho. simpl. rewrite Hh. eexists. split; [done|]. simpl.
      unfold hit in Hh. apply andb_true_iff in Hh as [[_ Hg%Z.eqb_eq]%andb_true_iff _]. lia.
  - rename a into n.
    apply (triple_bind _ (fun (_ : unit) db => Ok out db0 none db /\ exists o, webhook_outbox db !! sequence = Some o /\
             generation + 1 <= ob_generation o)).
    + eapply triple_conseq; [apply triple_guard|intros db H; exact H|]. intros [] db [[HO H] Hn%Z.eqb_eq]. auto.
    + intros _. step (fun (_ : unit) => Ok out db0 none); [|by apply triple_return].
      apply triple_exec. intros t db (HO & o & Ho & Hg). apply ok_note; [done|].
      intros l ->%list_elem_of_singleton. simpl. split; [done|eauto].
Qed.

(** Statements on other tables. *)
Lemma ok_frame out db0 owed db db' :
  Ok out db0 owed db -> webhook_outbox db' = webhook_outbox db -> webhook_delivery_log db' = webhook_delivery_log db ->
  Ok out db0 owed db'.
Proof.
  intros [[Hr Hl] [He1 He2]] Ho Hlog. unfold Ok. split; [split|split]; rewrite ?Ho, ?Hlog; done.
Qed.

Lemma audit_frame out db0 action actor data :
  triple (Ok out db0 none) (Suppression.audit action actor data) (fun _ => Ok out db0 none).
Proof.
  unfold Suppression.audit. step (fun (_ : UUID) => Ok out db0 none); [apply triple_fresh|].
  apply triple_stmt. intros t db [] db' HO H. simpl in H. destruct (insert_row _ _ _) as [rows|]; simplify_eq/=.
  by eapply ok_frame.
Qed.

Lemma Pause_ok out db0 id actor reason :
  triple (Ok out db0 none) (Pause id actor reason) (fun _ => Ok out db0 none).
Proof.
  unfold Pause. step (fun (_ : unit) => Ok out db0 none); [apply triple_guard_|].
  step (fun (_ : Z) => Ok out db0 none).
  { apply triple_stmt. intros t db n db' HO H. simplify_eq. by eapply ok_frame. }
  step (fun (_ : unit) => Ok out db0 none); [apply triple_guard_|].
  step (fun (_ : unit) => Ok out db0 none); [apply audit_frame|by apply triple_return].
Qed.

Lemma Sync_ok out db0 es : triple (Ok out db0 none) (Sync es) (fun _ => Ok out db0 none).
Proof.
  unfold Sync. step (fun (_ : unit) => Ok out db0 none); [apply triple_guard_|].
  step (fun (_ : unit) => Ok out db0 none); [by apply triple_exec|].
  step (fun (_ : unit) => Ok out db0 none); [apply triple_exec; intros t db HO; by eapply ok_frame|].
  step (fun (_ : unit) => Ok out db0 none).
  - apply (triple_forM (fun _ => Ok out db0 none)). intros e _. unfold sync_one.
    step (fun (_ : bool) => Ok out db0 none); [by apply triple_query|].
    step (fun (_ : unit) => Ok out db0 none); [apply triple_guard_|].
    step (fun (_ : Z) => Ok out db0 none); [|apply triple_guard_].
    apply triple_stmt. intros t db n db' HO H. repeat case_hyp H; simplify_eq; by eapply ok_frame.
  - step (fun (_ : unit) => Ok out db0 none); [apply audit_frame|by apply triple_return].
Qed.

Lemma command_ok out db0 body : command body -> triple (Ok out db0 none) body (fun _ => Ok out db0 none).
Proof. intros [es|? ? ? ?|? ? ?]; [apply Sync_ok|apply Replay_ok|apply Pause_ok]. Qed.

(** ** Runs keep the invariant *)

Definition worker_ok (out : list Notice) (db : DB) (w : Endpoint * claim * Stage) : Prop :=
  let '(e, c, st) := w in
  held e c db /\
  match st with
  | Claimed => True
  | Answered code err => acknowledges code err = true -> acked out (ep_ID e) (c_Payload c)
  end.

Record Inv (s : State) : Prop := {
  inv_hooks : hooks_ok (sent s) none (db_of s);
  inv_workers : forall n w, workers s !! n = Some w -> worker_ok (sent s) (db_of s) w }.

Lemma acked_more out out' id payload : acked out id payload -> acked (out ++ out') id payload.
Proof. intros (nt & Hn & H). exists nt. split; [apply elem_of_app; by left|done]. Qed.

Lemma hooks_more out out' owed db : hooks_ok out owed db -> hooks_ok (out ++ out') owed db.
Proof.
  intros [Hr Hl]. split; [|done]. intros seq o Ho. destruct (Hr seq o Ho) as [? ? ? ? Ha ?]. split; try done.
  intros Hd. by apply acked_more, Ha.
Qed.

Lemma held_evolves e c db db' : held e c db -> evolves db db' -> held e c db'.
Proof.
  intros (o & Ho & H1 & H2 & H3) [He _]. destruct (He _ o Ho) as (o' & Ho' & E1 & _ & _ & E4 & E5 & _).
  exists o'. split; [done|]. repeat split; [congruence|congruence|lia].
Qed.

Lemma worker_evolves out db db' w : worker_ok out db w -> evolves db db' -> worker_ok out db' w.
Proof. destruct w as [[e c] st]. intros [Hh Hs] He. split; [by eapply held_evolves|done]. Qed.

Lemma workers_more out out' db w : worker_ok out db w -> worker_ok (out ++ out') db w.
Proof. destruct w as [[e c] [|code err]]; intros [Hh Hs]; split; try done. intros H. by apply acked_more, Hs. Qed.

Lemma transact_ok {A} out w (body : M (TxEnd A)) db r db' (P : DB -> Prop) :
  (forall db0, triple (fun d => Ok out db0 none d /\ P d) body (fun _ => Ok out db0 none)) ->
  hooks_ok out none db -> P db -> transact w body db = (r, db') -> hooks_ok out none db' /\ evolves db db'.
Proof.
  intros Hb HI HP H.
  assert (HO : Ok out db none db) by (split; [done|reflexivity]).
  destruct (transact_triple _ _ _ _ _ _ _ (Hb db) (conj HO HP) H) as [->|(r' & HQ & _)]; [split; [done|reflexivity]|exact HQ].
Qed.

Lemma triple_weaken {A} (P P' : DB -> Prop) (m : M A) (Q : A -> DB -> Prop) :
  triple P m Q -> triple (fun d => P d /\ P' d) m Q.
Proof. intros H. eapply triple_conseq; [exact H|by intros db []|done]. Qed.

Lemma inv_keep out db db' ws :
  Inv (MkState db ws out) -> hooks_ok out none db' -> evolves db db' -> Inv (MkState db' ws out).
Proof. intros [_ Hw] Hh He. split; [done|]. intros n w Hn. eapply worker_evolves; [by apply (Hw n)|done]. Qed.

Lemma inv_drop out db ws n : Inv (MkState db ws out) -> Inv (MkState db (delete n ws) out).
Proof. intros [Hh Hw]. split; [done|]. intros k w Hk. simpl in Hk. apply lookup_delete_Some in Hk as [_ Hk]. by apply (Hw k). Qed.

Lemma inv_add out db ws n w : Inv (MkState db ws out) -> worker_ok out db w -> Inv (MkState db (<[n := w]> ws) out).
Proof.
  intros [Hh Hw] Hok. split; [done|]. intros k x Hk. simpl in Hk.
  destruct (decide (k = n)) as [->|Hne]; [rewrite lookup_insert_eq in Hk; by simplify_eq|].
  rewrite lookup_insert_ne in Hk by done. by apply (Hw k).
Qed.

(** An acknowledged answer comes with the request that was sent. *)
Lemma send_acked e now payload Do :
  let r := Send e now (bytes_of payload) Do in
  acknowledges (fst (snd r)) (snd (snd r)) = true -> acked (noticed e r) (ep_ID e) payload.
Proof.
  intros r. unfold r, Send, noticed. destruct (_ || _); [done|]. destruct (sendHTTP e now (bytes_of payload) Do) as [req res] eqn:E.
  cbn [fst snd]. unfold acknowledges. intros H. exists (MkNotice (ep_ID e) req (fst res) (snd res)). split; [by left|].
  cbn [n_endpoint n_request n_code n_err]. split; [done|]. split.
  - unfold sendHTTP in E. destruct (Sign _ _ _) as [stamp sig]. by injection E as <- _.
  - apply andb_true_iff in H as [[H1%negb_true_iff H2%Z.leb_le]%andb_true_iff H3%Z.ltb_lt]. auto.
Qed.

Lemma capture_ok out db seq o :
  hooks_ok out none db -> webhook_outbox db !! seq = None ->
  o = captured (ob_endpoint_id o) (ob_event_id o) (ob_message_id o) (ob_payload o) (ob_next_at o) (ob_deadline o) ->
  hooks_ok out none (db <| webhook_outbox := <[seq := o]> (webhook_outbox db) |>) /\
  evolves db (db <| webhook_outbox := <[seq := o]> (webhook_outbox db) |>).
Proof.
  intros [Hr Hl] Hno Ho. split; [split; simpl|split; [|reflexivity]].
  - intros k x Hx. destruct (decide (k = seq)) as [->|Hk]; [|rewrite lookup_insert_ne in Hx by done; by apply Hr].
    rewrite lookup_insert_eq in Hx. injection Hx as <-. rewrite Ho. split; simpl; try done; try lia.
    unfold none, starts. rewrite filter_none; [done|]. intros l Hin. unfold is_start.
    destruct (Hl l Hin) as (x & Hx & _). destruct (Z.eqb_spec (dl_sequence l) seq); [congruence|done].
  - intros l Hin. destruct (Hl l Hin) as (x & Hx & Hg). rewrite lookup_insert_ne by congruence. eauto.
  - intros k x Hx. simpl. rewrite lookup_insert_ne by congruence. exists x. split; [done|reflexivity].
Qed.

Lemma claim_held out w e db c db' :
  hooks_ok out none db -> transact w (claim_next e) db = (inr (Some c), db') ->
  hooks_ok out none db' /\ evolves db db' /\ held e c db'.
Proof.
  intros HI H. assert (HO : Ok out db none db) by (split; [done|reflexivity]).
  destruct (transact_value _ _ _ _ _ _ _ (claim_next_ok out db e) HO H) as [([H1 H2] & x & Hx & Hh)|(d & (_ & x & Hx & _) & _)];
    [|done].
  injection Hx as <-. auto.
Qed.

Lemma hook_step_inv s s' : Inv s -> step s s' -> Inv s' /\ evolves (db_of s) (db_of s').
Proof.
  intros HI Hst. pose proof (inv_hooks s HI) as Hh. pose proof (inv_workers s HI) as Hw.
  destruct Hst as [db ws out seq endpoint event message payload at_ deadline Hno|body w db ws out r db' Hc Ht
    |w e db ws out r db' Ht|w e n db ws out c db' Ht Hn|e c n now Do db ws out r Hn Hel Hr|e c n db ws out Hn
    |w e c n code err jitter db ws out r db' Hn Ht|n db ws out|db db' ws out Ho Hl]; simpl in *.
  - destruct (capture_ok out db seq _ Hh Hno (eq_refl : captured endpoint event message payload at_ deadline = _)) as [H1 H2].
    split; [by eapply inv_keep|done].
  - destruct (transact_ok out w body db r db' (fun _ => True)) as [H1 H2]; [|done..|split; [by eapply inv_keep|done]].
    intros db0. by apply triple_weaken, command_ok.
  - destruct (transact_ok out w (claim_next e) db r db' (fun _ => True)) as [H1 H2]; [|done..|split; [by eapply inv_keep|done]].
    intros db0. apply triple_weaken. eapply triple_conseq; [apply claim_next_ok|done|by intros ? ? []].
  - destruct (claim_held out w e db c db' Hh Ht) as (H1 & H2 & H3).
    split; [|done]. apply inv_add; [by eapply inv_keep|]. by split.
  - split; [|reflexivity]. destruct (Hw n _ Hn) as [Hheld _]. split; [by apply hooks_more|]. intros k x Hk. simpl in Hk.
    destruct (decide (k = n)) as [->|Hne].
    + rewrite lookup_insert_eq in Hk. injection Hk as <-. split; [done|]. intros Hack. subst r. simpl.
      destruct (send_acked e now (c_Payload c) Do Hack) as (nt & Hin & Hrest). exists nt. split; [|done]. apply elem_of_app. by right.
    + rewrite lookup_insert_ne in Hk by done. by apply workers_more, (Hw k).
  - split; [|reflexivity]. apply inv_add; [done|]. destruct (Hw n _ Hn) as [Hheld _]. by split.
  - destruct (Hw n _ Hn) as [Hheld Hack].
    destruct (transact_ok out w (finish c code err jitter) db r db' (fun d =>
      (acknowledges code err = true -> forall o, webhook_outbox d !! c_Sequence c = Some o ->
         acked out (ob_endpoint_id o) (ob_payload o)) /\ exists e, held e c d)) as [H1 H2];
      [intros db0; apply finish_ok|done| |done|split; [by eapply inv_drop, inv_keep|done]].
    split; [|by exists e]. intros Ha o Ho. destruct Hheld as (o' & Ho' & E1 & E2 & _). simplify_eq. rewrite E1, E2. by apply Hack.
  - split; [by apply inv_drop|reflexivity].
  - assert (HO : Ok out db none db) by (split; [done|reflexivity]).
    destruct (ok_frame out db none db db' HO Ho Hl) as [H1 H2]. split; [by eapply inv_keep|done].
Qed.

Lemma hook_reachable_inv s : reachable s -> Inv s.
Proof.
  induction 1 as [s (Hw & Ho & Hl)|s s' _ IH Hst]; [|by apply (hook_step_inv s)].
  split; [split; rewrite ?Ho, ?Hl|rewrite Hw]; intros ? *; intros H; by apply elem_of_nil in H || done.
Qed.

Lemma hook_run_evolves s s' : Inv s -> rtc step s s' -> evolves (db_of s) (db_of s').
Proof.
  intros HI Hrun. induction Hrun as [s|s s1 s2 Hst _ IH]; [reflexivity|].
  destruct (hook_step_inv s s1 HI Hst) as [H1 H2]. etrans; [exact H2|by apply IH].
Qed.

(** C39. Notifications are delivered at least once, within bounds, and never
    altered.  In every run of workers, operators and the trigger, with any
    failures and lost commit answers: a notification is marked delivered only
    after its endpoint acknowledged a request with exactly its payload; each
    generation of it has at most eight attempts, all of them logged before the
    request; it is in flight exactly while a lease is recorded; and from then
    on its endpoint, event, message and payload stay the same, its generation
    never decreases, a delivered notification stays delivered, and the log
    only grows. *)
Theorem webhook_at_least_once s :
  reachable s ->
  (forall seq o, webhook_outbox (db_of s) !! seq = Some o ->
     (ob_state o = HookDelivered -> acked (sent s) (ob_endpoint_id o) (ob_payload o)) /\
     starts seq (ob_generation o) (webhook_delivery_log (db_of s)) = ob_attempts o /\ 0 <= ob_attempts o <= 8 /\
     (ob_state o = HookInFlight <-> is_Some (ob_lease_token o)) /\
     (ob_state o = HookInFlight <-> is_Some (ob_lease_until o))) /\
  forall s', rtc step s s' -> evolves (db_of s) (db_of s').
Proof.
  intros Hr. pose proof (hook_reachable_inv s Hr) as HI. split; [|intros s'; by apply hook_run_evolves].
  intros seq o Ho. destruct (hk_rows _ _ _ (inv_hooks s HI) seq o Ho) as [A1 A2 A3 A4 A5 A6].
  unfold none in A6. rewrite Z.add_0_r in A6. repeat (split; [done|]). by rewrite A3, A4.
Qed.

(** ** Configuration *)

(** Destination and owner of every known endpoint stay; mail and outbox are untouched. *)
Record settled (db0 db : DB) : Prop := {
  st_kept : forall id row, webhook_endpoints db0 !! id = Some row -> exists row', webhook_endpoints db !! id = Some row' /\
              we_api_key_id row' = we_api_key_id row /\ we_url row' = we_url row;
  st_mail : messages db = messages db0 /\ recipients db = recipients db0 /\ delivery_attempts db = delivery_attempts db0 /\
              attempt_recipients db = attempt_recipients db0 /\ events db = events db0;
  st_outbox : webhook_outbox db = webhook_outbox db0 /\ webhook_delivery_log db = webhook_delivery_log db0;
  st_keys : api_keys db = api_keys db0 }.

Definition endpoint_row (e : Endpoint) : WebhookEndpoint :=
  MkWebhookEndpoint (ep_APIKeyID e) (ep_URL e) (Hash e) true (Version e).

(** The enabled endpoints are exactly those of the list, as configured. *)
Definition configured (es : list Endpoint) (db : DB) : Prop :=
  (forall id row, webhook_endpoints db !! id = Some row -> we_enabled row = true -> id ∈ map ep_ID es) /\
  forall e, e ∈ es -> webhook_endpoints db !! ep_ID e = Some (endpoint_row e) /\
    exists k, api_keys db !! ep_APIKeyID e = Some k /\ k_enabled k = true /\ k_prefix k = "rts_"%string.

Lemma endpoints_ok_nodup ids owners es :
  endpoints_ok ids owners es = true -> NoDup (map ep_ID es) /\ forall id, id ∈ map ep_ID es -> id ∉ ids.
Proof.
  revert ids owners. induction es as [|e es IH]; intros ids owners H.
  - split; [apply NoDup_nil_2|]. by intros id ?%elem_of_nil.
  - cbn [endpoints_ok] in H. apply andb_true_iff in H as [H Hrest].
    destruct (IH _ _ Hrest) as [Hnd Hnew].
    assert (Hid : ep_ID e ∉ ids) 
      by (rewrite !andb_true_iff, !negb_true_iff, !bool_decide_eq_false in H; tauto).
    split; [constructor; [|done]|].
    + intros Hin. apply (Hnew _ Hin). by left.
    + intros id [->|Hin]%elem_of_cons; [done|]. intros Hi. apply (Hnew _ Hin). by right.
Qed.

Lemma upsert_ok db0 es e :
  ep_ID e ∉ map ep_ID es ->
  triple (fun db => (settled db0 db /\ configured es db) /\
            exists k, api_keys db !! ep_APIKeyID e = Some k /\ k_enabled k = true /\ k_prefix k = "rts_"%string)
    (upsert e) (fun n db => n = 1 -> settled db0 db /\ configured (es ++ [e]) db).
Proof.
  intros Hnew. apply triple_stmt. intros t db n db' [[[Hk Hm Ho Ha] [Hen Hall]] Hkey] H Hn.
  assert (Hput : forall db1, db1 = db <| webhook_endpoints := <[ep_ID e := endpoint_row e]> (webhook_endpoints db) |> ->
    (forall row, webhook_endpoints db !! ep_ID e = Some row -> we_api_key_id row = ep_APIKeyID e /\ we_url row = ep_URL e) ->
    settled db0 db1 /\ configured (es ++ [e]) db1).
  { intros db1 -> Hold. split.
    - split; try done. intros id row Hrow. destruct (Hk id row Hrow) as (r & Hr & E1 & E2). simpl.
      destruct (decide (id = ep_ID e)) as [->|Hne].
      + rewrite lookup_insert_eq. destruct (Hold r Hr) as [F1 F2]. eexists. split; [done|]. simpl. split; congruence.
      + rewrite lookup_insert_ne by done. eauto.
    - split; simpl.
      + intros id row Hrow Hrun. rewrite map_app, elem_of_app. destruct (decide (id = ep_ID e)) as [->|Hne]; [right; by left|].
        rewrite lookup_insert_ne in Hrow by done. left. by eapply Hen.
      + intros x [Hx|Hx]%elem_of_app.
        * destruct (Hall x Hx) as [Hrow Hkx]. split; [|done]. rewrite lookup_insert_ne; [done|].
          intros E. apply Hnew. rewrite E. by apply list_elem_of_fmap_2.
        * apply list_elem_of_singleton in Hx as ->. split; [apply lookup_insert_eq|done]. }
  destruct (webhook_endpoints db !! ep_ID e) as [row|] eqn:E; simpl in H.
  - destruct (bool_decide _ && _) eqn:Eb; [|simplify_eq]. destruct (identity_taken e db); [done|].
    apply andb_true_iff in Eb as [Eo%bool_decide_eq_true Eu%String.eqb_eq]. apply Hput.
    + simplify_eq. by destruct row; simpl in *; subst.
    + intros r [= <-]. auto.
  - destruct (identity_taken e db); [done|]. simplify_eq. by apply Hput.
Qed.

Lemma Sync_settles db0 es :
  triple (fun db => db = db0) (Sync es) (fun r db => r = Commit (inr tt) /\ settled db0 db /\ configured es db).
Proof.
  unfold Sync. apply (triple_bind _ (fun (_ : unit) db => db = db0 /\ Parse es = true)); [apply triple_guard|]. intros _.
  apply triple_pure. intros HP. unfold Parse in HP. apply andb_true_iff in HP as [_ [Hnd _]%endpoints_ok_nodup].
  step (fun (_ : unit) db => db = db0); [by apply triple_exec|].
  step (fun (_ : unit) db => settled db0 db /\ configured [] db).
  { apply triple_exec. intros t db ->. split.
    - split; try done. intros id row Hrow. simpl. rewrite lookup_update, Hrow. simpl. by eexists.
    - split; [|by intros e ?%elem_of_nil]. intros id row Hrow Hen. simpl in Hrow. rewrite lookup_update in Hrow.
      destruct (webhook_endpoints db0 !! id); by simplify_eq/=. }
  step (fun (_ : unit) db => settled db0 db /\ configured es db).
  - apply (triple_conseq (fun db => exists pre, es = pre ++ es /\ settled db0 db /\ configured pre db)
             _ _ (fun _ db => exists pre, es = pre ++ [] /\ settled db0 db /\ configured pre db)).
    + apply (triple_forM (fun rest db => exists pre, es = pre ++ rest /\ settled db0 db /\ configured pre db)). intros e rest.
      apply triple_from. intros db1 (pre & Hes & H1). rewrite Hes, map_app in Hnd. simpl in Hnd.
      assert (Hnew : ep_ID e ∉ map ep_ID pre) by (apply NoDup_app in Hnd as (_ & Hd & _); intros Hin; apply (Hd _ Hin); by left).
      unfold sync_one. apply (triple_bind _ (fun ok db => (settled db0 db /\ configured pre db) /\ (ok = true ->
        exists k, api_keys db !! ep_APIKeyID e = Some k /\ k_enabled k = true /\ k_prefix k = "rts_"%string))).
      { apply triple_query. intros t db ->. split; [done|]. destruct (api_keys db1 !! ep_APIKeyID e) as [k|]; [|done].
        intros [Hen Hp%String.eqb_eq]%andb_true_iff. eauto. }
      intros ok. eapply triple_bind; [apply triple_guard|]. intros [].
      eapply triple_bind; [eapply triple_conseq; [apply (upsert_ok db0 pre e Hnew)|intros db [[H2 H3] ->]; auto|intros ? ? H; exact H]|].
      intros n. eapply triple_conseq; [apply triple_guard|intros db H; exact H|]. intros [] db [H Hn%Z.eqb_eq].
      exists (pre ++ [e]). rewrite <- app_assoc. auto.
    + intros db H. by exists [].
    + intros [] db (pre & Hes & H). rewrite app_nil_r in Hes. by subst.
  - step (fun (_ : unit) db => settled db0 db /\ configured es db); [|by apply triple_return].
    unfold Suppression.audit. step (fun (_ : UUID) db => settled db0 db /\ configured es db); [apply triple_fresh|].
    apply triple_stmt. intros t db [] db' [[S1 S2 S3 S4] [C1 C2]] H. simpl in H. destruct (insert_row _ _ _) as [rows|]; by simplify_eq/=.
Qed.

(** Notifications never change destination.  Whatever becomes of a
    configuration at start-up, every endpoint that was known keeps its website
    and URL, and mail, outbox and log are untouched; either nothing changed,
    or the enabled endpoints are exactly the configured ones, each with its
    current keys and belonging to an enabled sending key; a reported success
    means the latter. *)
Theorem destinations_fixed w es db r db' :
  transact w (Sync es) db = (r, db') ->
  settled db db' /\ (db' = db \/ configured es db') /\ (r = inr tt -> configured es db').
Proof.
  intros H.
  assert (Href : settled db db) by (split; eauto; done).
  assert (Hout : db' = db \/ settled db db' /\ configured es db').
  { destruct (transact_triple _ _ _ _ _ _ _ (Sync_settles db es) eq_refl H) as [->|(r' & (_ & Hs) & _)]; auto. }
  split; [by destruct Hout as [->|[]]|]. split; [destruct Hout as [->|[]]; auto|].
  intros ->. by destruct (transact_value _ _ _ _ _ _ _ (Sync_settles db es) eq_refl H) as [(_ & _ & Hc)|(d & (Hx & _) & _)].
Qed.

End Runs.

(** ** A concrete run: captured, claimed, sent, acknowledged *)

#[local] Instance hook_parser : URLParser := fun _ => Some (MkURL "https" false "" "hooks.example" "" "" false "").

Definition hook_endpoint : Endpoint := MkEndpoint 0 5 50 "https://hooks.example/relay" [demo_key "k1" "a"].
Definition hook_empty : DB :=
  MkDB ∅ ∅ ∅ ∅ ∅ ∅ ∅ ∅ ∅ ∅ ∅ ∅ 0 ∅ {[50%N := MkApiKey "rts_" "production" true 0 0 0 ""]} ∅ ∅ ∅ ∅ [] ∅ ∅ ∅ ∅ ∅ ∅ ∅ ∅ ∅ ∅ ∅ ∅ ∅ ∅.

Definition hook_sync := transact (demo_world demo_day 10) (Sync [hook_endpoint]) hook_empty.
Definition hook_captured : DB := (snd hook_sync) <| webhook_outbox :=
  <[1 := captured 5 6 7 "{}" demo_day (demo_day + 24 * Hour)]> (webhook_outbox (snd hook_sync)) |>.
Definition hook_claim := transact (demo_world (demo_day + Second) 100) (claim_next hook_endpoint) hook_captured.
Definition hook_job : claim :=
  match fst hook_claim with inr (Some c) => c | _ => MkClaim 0 "" 0 0 0 end.
Definition hook_answer : option Request * (Z * bool) :=
  Send hook_endpoint (demo_day + 2 * Second) (bytes_of (c_Payload hook_job)) (fun _ => Responded 204 (Some 0)).
Definition hook_finish := transact (demo_world (demo_day + 3 * Second) 200)
  (finish hook_job (fst (snd hook_answer)) (snd (snd hook_answer)) 3) (snd hook_claim).
Definition hook_end : State := MkState (snd hook_finish) (delete 1%N (<[1%N := (hook_endpoint, hook_job,
  Answered (fst (snd hook_answer)) (snd (snd hook_answer)))]> (<[1%N := (hook_endpoint, hook_job, Claimed)]> ∅)))
  ([] ++ noticed hook_endpoint hook_answer).

Lemma hook_claimed : fst hook_claim = inr (Some hook_job).
Proof. vm_compute. reflexivity. Qed.

Lemma hook_eligible : eligible hook_endpoint (snd hook_claim) = Some true.
Proof. vm_compute. reflexivity. Qed.

Lemma hook_end_reachable : reachable hook_end.
Proof.
  assert (H0 : reachable (MkState (snd hook_sync) ∅ [])).
  { refine (reachable_step (MkState hook_empty ∅ []) _ (reachable_start _ _) _); [by repeat split|].
    exact (step_command _ _ hook_empty ∅ [] _ _ (command_sync [hook_endpoint]) (surjective_pairing hook_sync)). }
  assert (H1 : reachable (MkState hook_captured ∅ [])).
  { refine (reachable_step _ _ H0 (step_capture (snd hook_sync) ∅ [] 1 5 6 7 "{}" demo_day (demo_day + 24 * Hour) _)).
    vm_compute. reflexivity. }
  assert (Hc : hook_claim = (inr (Some hook_job), snd hook_claim))
    by (rewrite <- hook_claimed; exact (surjective_pairing hook_claim)).
  pose proof (reachable_step _ _ H1 (step_claim _ hook_endpoint 1%N hook_captured ∅ [] hook_job _ Hc eq_refl)) as H2.
  pose proof (reachable_step _ _ H2 (step_send hook_endpoint hook_job 1%N _ _ _ _ [] hook_answer
                (lookup_insert_eq _ _ _) hook_eligible eq_refl)) as H3.
  exact (reachable_step _ _ H3 (step_finish _ hook_endpoint hook_job 1%N _ _ 3 _ _ _ _ _
           (lookup_insert_eq _ _ _) (surjective_pairing hook_finish))).
Qed.

Lemma webhook_at_least_once_witness :
  exists o, webhook_outbox (db_of hook_end) !! 1 = Some o /\ ob_state o = HookDelivered /\
    acked (sent hook_end) (ob_endpoint_id o) (ob_payload o) /\
    starts 1 (ob_generation o) (webhook_delivery_log (db_of hook_end)) = 1.
Proof.
  destruct (webhook_outbox (db_of hook_end) !! 1) as [o|] eqn:E; [|exfalso; revert E; vm_compute; discriminate].
  exists o. assert (Ho : ob_state o = HookDelivered /\ ob_attempts o = 1).
  { assert (Hmap : option_map (fun x => (ob_state x, ob_attempts x)) (webhook_outbox (db_of hook_end) !! 1)
                   = Some (HookDelivered, 1)) by (vm_compute; reflexivity).
    rewrite E in Hmap. clear E. injection Hmap as H1 H2. split; assumption. }
  destruct Ho as [Hs Ha]. destruct (webhook_at_least_once hook_end hook_end_reachable) as [H _].
  destruct (H 1 o E) as (Hack & Hst & _). rewrite Ha in Hst. exact (conj eq_refl (conj Hs (conj (Hack Hs) Hst))).
Defined.

Lemma destinations_fixed_witness : configured [hook_endpoint] (snd hook_sync).
Proof.
  apply (destinations_fixed (demo_world demo_day 10) [hook_endpoint] hook_empty (fst hook_sync) (snd hook_sync)).
  - apply surjective_pairing.
  - vm_compute. reflexivity.
Defined.

End HookSpec.
