(* ===== verification/Ownership.v ===== *)
(** * Ownership of the database

    [internal/database/ownership.go] and [auxiliary.go]: which processes may
    run the gateway, do offline work (migration, restore, key rotation) or
    collect feedback beside it.  Ownership is a row without expiry together
    with PostgreSQL advisory locks of a dedicated session: the row outlives the
    session, the locks do not.  A process is known by its dedicated connection;
    [ok] says which of its database calls succeed; a transaction is one step,
    and the steps between transactions of one acquisition are kept apart. *)

From S2P Require Import Prelude Sha256 GoText TextFacts Delivery SmtpClient Provider Database Suppression.

Module Ownership.

Abbreviation Conn := N.

Inductive OwnErr := ErrSchemaBusy | ErrRuntimeOccupied | ErrOwnerLost | ErrOther.

Inductive Mode := Runtime | Offline.
#[export] Instance Mode_eq_dec : EqDecision Mode.
Proof. solve_decision. Defined.

(** ** Tables and locks *)

Record OwnerRow := MkOwnerRow { or_id : UUID; or_mode : Mode; or_backend : Conn }.
Record AuxRow := MkAuxRow { ax_slot : string; ax_lock : Z; ax_backend : Conn }.

(** [to_regclass] of the two tables, their rows, the holders of the migration
    lock (exclusive, shared), of the runtime lock and of the auxiliary locks,
    and the audit trail. *)
Record Server := MkServer {
  has_runtime : bool; has_auxiliary : bool; runtime_owner : option OwnerRow; auxiliary_owner : gmap UUID AuxRow;
  migration_x : option Conn; migration_s : gset Conn; runtime_lock : option Conn; auxiliary_locks : gmap Z Conn;
  audit_trail : list (string * string * UUID * string) }.
#[export] Instance eta_Server : Eta Server := fun s =>
  MkServer (has_runtime s) (has_auxiliary s) (runtime_owner s) (auxiliary_owner s) (migration_x s) (migration_s s)
    (runtime_lock s) (auxiliary_locks s) (audit_trail s).

(** [discard]: the end of a session gives its locks back. *)
Definition discard (c : Conn) (s : Server) : Server :=
  s <| migration_x := if bool_decide (migration_x s = Some c) then None else migration_x s |>
    <| migration_s := migration_s s ∖ {[c]} |>
    <| runtime_lock := if bool_decide (runtime_lock s = Some c) then None else runtime_lock s |>
    <| auxiliary_locks := filter (fun kc => snd kc <> c) (auxiliary_locks s) |>.

(** ** Acquiring *)

(** [RuntimeGuard]; the offline guard of a database without tables has no identifier. *)
Record Guard := MkGuard { g_auxiliary : bool; g_id : option UUID }.

Definition hostname_ok (host : string) : bool := negb (String.eqb host "") && (String.length host <=? 255)%nat.

(** [insertOwner], in the transaction of the caller *)
Definition insertOwner (ok : nat -> bool) (c : Conn) (id : UUID) (mode : Mode) (host : string) (s : Server)
  : OwnErr + Server :=
  if negb (ok 10%nat) then inl ErrOther
  else if not_null (runtime_lock s) && negb (is_id (runtime_lock s) c) then inl ErrRuntimeOccupied
  else if negb (hostname_ok host) then inl ErrOther
  else if negb (has_runtime s) || negb (ok 11%nat) then inl ErrOther
  else if not_null (runtime_owner s) then inl ErrRuntimeOccupied
  else inr (s <| runtime_lock := Some c |> <| runtime_owner := Some (MkOwnerRow id mode c) |>).

(** Commit, or the connection is discarded. *)
Definition commit {A} (answer : CommitAnswer) (c : Conn) (a : A) (s s' : Server) : (OwnErr + A) * Server :=
  match answer with
  | Committed => (inr a, s')
  | NotCommitted => (inl ErrOther, discard c s)
  | CommitUncertain => (inl ErrOther, discard c s')
  end.

(** [AcquireRuntime] on the fresh connection [c] *)
Definition AcquireRuntime (ok : nat -> bool) (answer : CommitAnswer) (c : Conn) (id : UUID) (host : string) (s : Server)
  : (OwnErr + Guard) * Server :=
  if negb (ok 0%nat) then (inl ErrOther, discard c s)
  else if not_null (migration_x s) then (inl ErrSchemaBusy, discard c s)
  else match insertOwner ok c id Runtime host s with
       | inl e => (inl e, discard c s)
       | inr s' => commit answer c (MkGuard false (Some id)) s s'
       end.

(** [CheckNoAuxiliary], [CheckNoRuntime]; [self] is the offline owner of the context. *)
Definition CheckNoAuxiliary (ok : nat -> bool) (s : Server) : option OwnErr :=
  if negb (ok 20%nat) then Some ErrOther
  else if negb (has_auxiliary s) then None
  else if negb (ok 21%nat) then Some ErrOther
  else if bool_decide (auxiliary_owner s = ∅) then None else Some ErrRuntimeOccupied.

Definition CheckNoRuntime (ok : nat -> bool) (self : option UUID) (s : Server) : option OwnErr :=
  if negb (ok 22%nat) then Some ErrOther
  else if negb (has_runtime s) then None
  else if negb (ok 23%nat) then Some ErrOther
  else if match runtime_owner s with
          | Some o => negb (is_id self (or_id o)) || negb (bool_decide (or_mode o = Offline))
          | None => false
          end then Some ErrRuntimeOccupied
  else CheckNoAuxiliary ok s.

(** [AcquireOffline] up to the migration lock, then its check, then
    [registerOffline]. *)
Definition offline_lock (ok : nat -> bool) (c : Conn) (s : Server) : OwnErr + Server :=
  if negb (ok 0%nat) then inl ErrOther
  else if not_null (migration_x s) || negb (bool_decide (migration_s s = ∅)) then inl ErrSchemaBusy
  else inr (s <| migration_x := Some c |>).

Definition registerOffline (ok : nat -> bool) (answer : CommitAnswer) (c : Conn) (id : UUID) (host : string) (s : Server)
  : (OwnErr + Guard) * Server :=
  if negb (ok 1%nat) then (inl ErrOther, discard c s)
  else if negb (has_runtime s) then (inr (MkGuard false None), s)
  else match insertOwner ok c id Offline host s with
       | inl e => (inl e, discard c s)
       | inr s' => commit answer c (MkGuard false (Some id)) s s'
       end.

(** [AcquireAuxiliary] up to the shared migration lock, and its transaction. *)
Definition slot_ok (slot : string) : bool :=
  negb (String.eqb slot "") && (String.length slot <=? 255)%nat && ValidString slot
  && negb (ContainsAny slot (String "000" EmptyString)).

Definition auxiliary_lock (ok : nat -> bool) (slot : string) (c : Conn) (s : Server) : OwnErr + Server :=
  if negb (slot_ok slot) || negb (ok 0%nat) then inl ErrOther
  else if not_null (migration_x s) then inl ErrSchemaBusy
  else inr (s <| migration_s := {[c]} ∪ migration_s s |>).

(** The first eight bytes of the digest of the identifier, as an int64. *)
Definition lock_id (id : UUID) : Z :=
  let digest := Sha.Sum256 (bytes_of ("relaytale.auxiliary/" ++ uuid_text id)) in
  i64 (Z.of_N (foldl (fun acc b => acc * 256 + Byte.to_N b)%N 0%N (firstn 8 digest))).

Definition auxiliary_conflict (id : UUID) (slot : string) (s : Server) : bool :=
  exists_row (fun k row => bool_decide (k = id) || String.eqb (ax_slot row) slot || (ax_lock row =? lock_id id))
    (auxiliary_owner s).

Definition auxiliary_register (ok : nat -> bool) (answer : CommitAnswer) (c : Conn) (id : UUID) (slot host : string)
    (s : Server) : (OwnErr + Guard) * Server :=
  if negb (ok 1%nat) || negb (has_runtime s) then (inl ErrOther, discard c s)
  else if match runtime_owner s with Some o => bool_decide (or_mode o = Offline) | None => false end
  then (inl ErrRuntimeOccupied, discard c s)
  else if negb (ok 2%nat) || negb (hostname_ok host) then (inl ErrOther, discard c s)
  else if not_null (auxiliary_locks s !! lock_id id) then (inl ErrRuntimeOccupied, discard c s)
  else if negb (has_auxiliary s) || negb (ok 3%nat) then (inl ErrOther, discard c s)
  else if auxiliary_conflict id slot s then (inl ErrRuntimeOccupied, discard c s)
  else commit answer c (MkGuard true (Some id)) s
         (s <| auxiliary_locks := <[lock_id id := c]> (auxiliary_locks s) |>
            <| auxiliary_owner := <[id := MkAuxRow slot (lock_id id) c]> (auxiliary_owner s) |>).

(** ** Giving back *)

(** [RuntimeGuard.Release]: [lost] is what the monitor saw, [live] whether the
    session still exists; the connection is discarded in any case. *)
Definition Release (ok : nat -> bool) (answer : CommitAnswer) (lost live : bool) (c : Conn) (g : Guard) (s : Server)
  : (OwnErr + unit) * Server :=
  if lost then (inl ErrOwnerLost, discard c s)
  else if negb live || negb (ok 0%nat) then (inl ErrOther, discard c s)
  else match g_id g with
  | None => (inr tt, discard c s)
  | Some id =>
      let gone :=
        if g_auxiliary g then
          if match auxiliary_owner s !! id with Some row => bool_decide (ax_backend row = c) | None => false end
          then Some (s <| auxiliary_owner := delete id (auxiliary_owner s) |>) else None
        else if match runtime_owner s with
                | Some o => bool_decide (or_id o = id) && bool_decide (or_backend o = c)
                | None => false
                end
        then Some (s <| runtime_owner := None |>) else None in
      match gone with
      | None => (inl ErrOwnerLost, discard c s)
      | Some s' => match commit answer c tt s s' with (r, s'') => (r, discard c s'') end
      end
  end.

(** [ReleaseStaleOwner] and [ReleaseStaleAuxiliary], in a session of their own
    that takes its locks for the transaction only. *)
Definition release_valid (id : UUID) (actor reason : string) : bool :=
  negb (id =? 0)%N && Suppression.validateAudit actor reason.

Definition settle {A} (answer : CommitAnswer) (a : A) (s s' : Server) : (OwnErr + A) * Server :=
  match answer with Committed => (inr a, s') | NotCommitted => (inl ErrOther, s) | CommitUncertain => (inl ErrOther, s') end.

Definition ReleaseStaleOwner (ok : nat -> bool) (answer : CommitAnswer) (id : UUID) (actor reason : string) (s : Server)
  : (OwnErr + unit) * Server :=
  if negb (release_valid id actor reason) || negb (ok 0%nat) then (inl ErrOther, s)
  else if not_null (migration_x s) || negb (bool_decide (migration_s s = ∅)) || not_null (runtime_lock s)
  then (inl ErrRuntimeOccupied, s)
  else match runtime_owner s with
  | Some o =>
      if (or_id o =? id)%N then
        settle answer tt s (s <| runtime_owner := None |>
                              <| audit_trail := audit_trail s ++ [("RUNTIME_OWNER_RELEASED"%string, actor, id, reason)] |>)
      else (inl ErrOther, s)
  | None => (inl ErrOther, s)
  end.

Definition ReleaseStaleAuxiliary (ok : nat -> bool) (answer : CommitAnswer) (id : UUID) (actor reason : string) (s : Server)
  : (OwnErr + unit) * Server :=
  if negb (release_valid id actor reason) || negb (ok 0%nat) then (inl ErrOther, s)
  else if not_null (migration_x s) then (inl ErrSchemaBusy, s)
  else match auxiliary_owner s !! id with
  | None => (inl ErrOther, s)
  | Some row =>
      if not_null (auxiliary_locks s !! ax_lock row) then (inl ErrRuntimeOccupied, s)
      else settle answer tt s (s <| auxiliary_owner := delete id (auxiliary_owner s) |>
             <| audit_trail := audit_trail s ++ [("AUXILIARY_OWNER_RELEASED"%string, actor, id, reason)] |>)
  end.

End Ownership.
