(* ===== verification/OwnershipSpec.v ===== *)
(** * Ownership is exclusive

    Any number of processes acquire, lose, keep and release ownership in any
    order; sessions end at any point, commits lose their answers, operators
    release stale owners.  At most one process runs the gateway or does offline
    work, and offline work excludes auxiliary owners, unless an operator
    released the owner after its session had ended. *)

From S2P Require Import Prelude Sha256 GoText TextFacts Delivery SmtpClient Provider Database Suppression Ownership.

Module OwnershipSpec.

Import Ownership.

(** ** Runs *)

(** How far an acquisition has come. *)
Inductive Stage := Locked | Checked | AuxLocked (slot : string).

(** A process that acts as an owner: its guard, what it acquired, whether its
    session exists, and whether an operator released it as stale. *)
Record Holder := MkHolder {
  h_guard : Guard; h_mode : Mode; h_slot : string; h_live : bool; h_evicted : bool }.
#[export] Instance eta_Holder : Eta Holder := fun h =>
  MkHolder (h_guard h) (h_mode h) (h_slot h) (h_live h) (h_evicted h).

Record State := MkState { server : Server; holders : gmap Conn Holder; pending : gmap Conn Stage }.

(** A new session: nobody uses the connection and it holds no lock. *)
Definition fresh_conn (c : Conn) (st : State) : Prop :=
  holders st !! c = None /\ pending st !! c = None /\ migration_x (server st) <> Some c /\
  c ∉ migration_s (server st) /\ runtime_lock (server st) <> Some c /\
  forall k, auxiliary_locks (server st) !! k <> Some c.

Definition join (r : OwnErr + Guard) (mode : Mode) (slot : string) (c : Conn) (hs : gmap Conn Holder) : gmap Conn Holder :=
  match r with inr g => <[c := MkHolder g mode slot true false]> hs | inl _ => hs end.

(** The owners an operator's release took the row from. *)
Definition evict (aux : bool) (id : UUID) (gone : bool) (hs : gmap Conn Holder) : gmap Conn Holder :=
  update (fun _ h => gone && Bool.eqb (g_auxiliary (h_guard h)) aux && is_id (g_id (h_guard h)) id)
    (fun h => h <| h_evicted := true |>) hs.

Inductive step : State -> State -> Prop :=
| step_runtime ok answer c id host s hs ps r s' :
    fresh_conn c (MkState s hs ps) -> AcquireRuntime ok answer c id host s = (r, s') ->
    step (MkState s hs ps) (MkState s' (join r Runtime "" c hs) ps)
| step_offline_lock ok c s hs ps s' :
    fresh_conn c (MkState s hs ps) -> offline_lock ok c s = inr s' ->
    step (MkState s hs ps) (MkState s' hs (<[c := Locked]> ps))
| step_offline_check ok c s hs ps :
    ps !! c = Some Locked -> CheckNoRuntime ok None s = None ->
    step (MkState s hs ps) (MkState s hs (<[c := Checked]> ps))
| step_offline_register ok answer c id host s hs ps r s' :
    ps !! c = Some Checked -> registerOffline ok answer c id host s = (r, s') ->
    step (MkState s hs ps) (MkState s' (join r Offline "" c hs) (delete c ps))
| step_auxiliary_lock ok slot c s hs ps s' :
    fresh_conn c (MkState s hs ps) -> auxiliary_lock ok slot c s = inr s' ->
    step (MkState s hs ps) (MkState s' hs (<[c := AuxLocked slot]> ps))
| step_auxiliary_register ok answer c id slot host s hs ps r s' :
    ps !! c = Some (AuxLocked slot) -> auxiliary_register ok answer c id slot host s = (r, s') ->
    step (MkState s hs ps) (MkState s' (join r Runtime slot c hs) (delete c ps))
| step_abandon c s hs ps :
    is_Some (ps !! c) -> step (MkState s hs ps) (MkState (discard c s) hs (delete c ps))
| step_session_lost c h s hs ps :
    hs !! c = Some h -> step (MkState s hs ps) (MkState (discard c s) (<[c := h <| h_live := false |>]> hs) ps)
| step_release ok answer lost c h s hs ps r s' :
    hs !! c = Some h -> Release ok answer lost (h_live h) c (h_guard h) s = (r, s') ->
    step (MkState s hs ps) (MkState s' (delete c hs) ps)
| step_retain c h s hs ps :
    hs !! c = Some h -> step (MkState s hs ps) (MkState (discard c s) (delete c hs) ps)
| step_stale_owner ok answer id actor reason s hs ps r s' :
    ReleaseStaleOwner ok answer id actor reason s = (r, s') ->
    step (MkState s hs ps) (MkState s' (evict false id (is_null (runtime_owner s')) hs) ps)
| step_stale_auxiliary ok answer id actor reason s hs ps r s' :
    ReleaseStaleAuxiliary ok answer id actor reason s = (r, s') ->
    step (MkState s hs ps) (MkState s' (evict true id (is_null (auxiliary_owner s' !! id)) hs) ps)
| step_migrate c h b s hs ps :
    hs !! c = Some h -> g_auxiliary (h_guard h) = false -> h_mode h = Offline ->
    step (MkState s hs ps) (MkState (s <| has_runtime := true |> <| has_auxiliary := has_auxiliary s || b |>) hs ps).

Definition initial (st : State) : Prop :=
  holders st = ∅ /\ pending st = ∅ /\ has_runtime (server st) = false /\ has_auxiliary (server st) = false /\
  runtime_owner (server st) = None /\ auxiliary_owner (server st) = ∅ /\
  migration_x (server st) = None /\ migration_s (server st) = ∅ /\ runtime_lock (server st) = None /\
  auxiliary_locks (server st) = ∅.

Inductive reachable : State -> Prop :=
| reachable_start st : initial st -> reachable st
| reachable_step st st' : reachable st -> step st st' -> reachable st'.

(** ** The invariant *)

#[local] Opaque lock_id.

(** What holds for an owner of connection [c]. *)
Record holder_ok (s : Server) (c : Conn) (h : Holder) : Prop := {
  ho_live : h_live h = true -> h_evicted h = false;
  ho_lock : g_auxiliary (h_guard h) = false -> h_live h = true -> is_Some (g_id (h_guard h)) -> runtime_lock s = Some c;
  ho_migration : g_auxiliary (h_guard h) = false -> h_live h = true -> h_mode h = Offline -> migration_x s = Some c;
  ho_row : forall id, g_auxiliary (h_guard h) = false -> h_evicted h = false -> g_id (h_guard h) = Some id ->
             runtime_owner s = Some (MkOwnerRow id (h_mode h) c);
  ho_first : g_auxiliary (h_guard h) = false -> g_id (h_guard h) = None ->
               h_mode h = Offline /\ (h_live h = true -> runtime_owner s = None /\ auxiliary_owner s = ∅);
  ho_aux : g_auxiliary (h_guard h) = true -> exists id, g_id (h_guard h) = Some id /\
             (h_evicted h = false -> auxiliary_owner s !! id = Some (MkAuxRow (h_slot h) (lock_id id) c)) /\
             (h_live h = true -> c ∈ migration_s s /\ auxiliary_locks s !! lock_id id = Some c) }.

Definition stage_ok (s : Server) (c : Conn) (st : Stage) : Prop :=
  match st with
  | Locked => migration_x s = Some c
  | Checked => migration_x s = Some c /\ runtime_owner s = None /\ auxiliary_owner s = ∅
  | AuxLocked _ => c ∈ migration_s s
  end.

Record server_ok (s : Server) : Prop := {
  so_exclusive : is_Some (migration_x s) -> migration_s s = ∅;
  so_offline : forall o, runtime_owner s = Some o -> or_mode o = Offline -> auxiliary_owner s = ∅;
  so_locks : forall id row, auxiliary_owner s !! id = Some row -> ax_lock row = lock_id id;
  so_runtime : has_runtime s = false -> runtime_owner s = None;
  so_auxiliary : has_auxiliary s = false -> auxiliary_owner s = ∅;
  so_order : has_auxiliary s = true -> has_runtime s = true;
  so_slots : forall id1 id2 r1 r2, auxiliary_owner s !! id1 = Some r1 -> auxiliary_owner s !! id2 = Some r2 ->
               ax_slot r1 = ax_slot r2 -> id1 = id2 }.

Record Inv (st : State) : Prop := {
  inv_server : server_ok (server st);
  inv_holders : forall c h, holders st !! c = Some h -> holder_ok (server st) c h;
  inv_pending : forall c p, pending st !! c = Some p -> stage_ok (server st) c p;
  inv_apart : forall c, is_Some (holders st !! c) -> pending st !! c = None }.

Lemma discard_x c s : migration_x (discard c s) = if bool_decide (migration_x s = Some c) then None else migration_x s.
Proof. reflexivity. Qed.
Lemma discard_s c s : migration_s (discard c s) = migration_s s ∖ {[c]}.
Proof. reflexivity. Qed.
Lemma discard_r c s : runtime_lock (discard c s) = if bool_decide (runtime_lock s = Some c) then None else runtime_lock s.
Proof. reflexivity. Qed.
Lemma discard_a c s : auxiliary_locks (discard c s) = filter (fun kc => snd kc <> c) (auxiliary_locks s).
Proof. reflexivity. Qed.

(** The locks of other sessions are not touched by the end of one. *)
Lemma discard_other c d s :
  d <> c ->
  (migration_x s = Some d -> migration_x (discard c s) = Some d) /\
  (d ∈ migration_s s -> d ∈ migration_s (discard c s)) /\
  (runtime_lock s = Some d -> runtime_lock (discard c s) = Some d) /\
  (forall k, auxiliary_locks s !! k = Some d -> auxiliary_locks (discard c s) !! k = Some d).
Proof.
  intros Hd. split; [|split; [|split]].
  - intros H. rewrite discard_x, bool_decide_eq_false_2; [done|congruence].
  - intros H. rewrite discard_s. by apply elem_of_difference; split; [|intros ->%elem_of_singleton].
  - intros H. rewrite discard_r, bool_decide_eq_false_2; [done|congruence].
  - intros k H. rewrite discard_a. apply map_lookup_filter_Some. by split.
Qed.


Lemma discard_server c s : server_ok s -> server_ok (discard c s).
Proof.
  intros [H1 H2 H3 H4 H5 H6 H7]. split; try done. rewrite discard_x, discard_s. intros Hx.
  rewrite H1; [clear; set_solver|]. destruct (bool_decide _) in Hx; [by destruct Hx|done].
Qed.

Lemma discard_holder c d s h : d <> c -> holder_ok s d h -> holder_ok (discard c s) d h.
Proof.
  intros Hd [A1 A2 A3 A4 A5 A6]. destruct (discard_other c d s Hd) as (D1 & D2 & D3 & D4).
  split; try done; try (intros; by auto).
  intros Ha. destruct (A6 Ha) as (id & Hid & Hrow & Hl). exists id. split; [done|]. split; [done|].
  intros Hlive. destruct (Hl Hlive) as [L1 L2]. auto.
Qed.

(** An owner whose session is over keeps only its row. *)
Lemma discard_dead c s h : holder_ok s c h -> holder_ok (discard c s) c (h <| h_live := false |>).
Proof.
  intros [A1 A2 A3 A4 A5 A6]. split; simpl; try done.
  - intros Ha Hid. by destruct (A5 Ha Hid).
  - intros Ha. destruct (A6 Ha) as (id & Hid & Hrow & _). exists id. by repeat split.
Qed.

Lemma discard_stage c d s p : d <> c -> stage_ok s d p -> stage_ok (discard c s) d p.
Proof.
  intros Hd. destruct (discard_other c d s Hd) as (D1 & D2 & _). destruct p; simpl; auto.
  intros (H & Ho & Ha). auto.
Qed.

(** The end of a session, whatever became of its process. *)
Lemma inv_discard c s hs ps hs' ps' :
  Inv (MkState s hs ps) ->
  (forall d, d <> c -> hs' !! d = hs !! d) -> (forall d, d <> c -> ps' !! d = ps !! d) -> ps' !! c = None ->
  (forall h, hs' !! c = Some h -> holder_ok (discard c s) c h) ->
  Inv (MkState (discard c s) hs' ps').
Proof.
  intros [I1 I2 I3 I4] Hh Hp Hpc Hc. simpl in *. split; simpl.
  - by apply discard_server.
  - intros d h Hd. destruct (decide (d = c)) as [->|Hne]; [by apply Hc|].
    apply discard_holder; [done|]. apply I2. by rewrite <- Hh.
  - intros d p Hd. destruct (decide (d = c)) as [->|Hne]; [congruence|].
    apply discard_stage; [done|]. apply I3. by rewrite <- Hp.
  - intros d Hd. destruct (decide (d = c)) as [->|Hne]; [done|]. rewrite Hp by done. apply I4. by rewrite <- Hh.
Qed.

(** A new owner's row and lock. *)
Lemma inv_insert c id mode s hs ps ps' :
  Inv (MkState s hs ps) -> hs !! c = None -> ps' !! c = None -> (forall d, d <> c -> ps' !! d = ps !! d) ->
  runtime_owner s = None -> has_runtime s = true -> (runtime_lock s = None \/ runtime_lock s = Some c) ->
  (forall d, migration_x s = Some d -> d = c) ->
  (mode = Offline -> migration_x s = Some c /\ auxiliary_owner s = ∅) ->
  Inv (MkState (s <| runtime_lock := Some c |> <| runtime_owner := Some (MkOwnerRow id mode c) |>)
         (<[c := MkHolder (MkGuard false (Some id)) mode "" true false]> hs) ps').
Proof.
  intros [[S1 S2 S3 S4 S5 S6 S7] I2 I3 I4] Hc Hpc Hps Ho Ht Hr Hx Hoff. simpl in *. split; simpl.
  - split; simpl; try done.
    + intros o [= <-] Hm. by apply Hoff.
    + congruence.
  - intros d h Hd. destruct (decide (d = c)) as [->|Hne].
    + rewrite lookup_insert_eq in Hd. injection Hd as <-. split; simpl; try done.
      * intros _ _ Hm. by apply Hoff.
      * congruence.
    + rewrite lookup_insert_ne in Hd by done. destruct (I2 d h Hd) as [A1 A2 A3 A4 A5 A6]. split; simpl; try done.
      * intros Ha Hl Hid. specialize (A2 Ha Hl Hid). destruct Hr; congruence.
      * intros id' Ha He Hid. specialize (A4 id' Ha He Hid). congruence.
      * intros Ha Hid. destruct (A5 Ha Hid) as [Hm _]. split; [done|]. intros Hl. destruct Hne. by apply Hx, A3.
  - intros d p Hd. destruct (decide (d = c)) as [->|Hne]; [congruence|]. rewrite Hps in Hd by done.
    specialize (I3 d p Hd). destruct p; simpl in *; try done. destruct I3 as [Hmx _]. destruct Hne. by apply Hx.
  - intros d Hd. destruct (decide (d = c)) as [->|Hne]; [done|]. rewrite Hps by done. apply I4.
    by rewrite lookup_insert_ne in Hd.
Qed.

(** Commit, abort or an uncertain commit of a new owner. *)
Lemma inv_commit answer c g mode slot s s' hs ps ps' r s'' :
  commit answer c g s s' = (r, s'') ->
  Inv (MkState s hs ps) -> hs !! c = None -> ps' !! c = None -> (forall d, d <> c -> ps' !! d = ps !! d) ->
  Inv (MkState s' (<[c := MkHolder g mode slot true false]> hs) ps') ->
  Inv (MkState s'' (join r mode slot c hs) ps').
Proof.
  intros H HI Hc Hpc Hps HI'. unfold commit in H. destruct answer; injection H as <- <-; simpl.
  - done.
  - apply (inv_discard _ _ hs ps); try done. intros h Hh. congruence.
  - apply (inv_discard _ _ _ _ hs ps' HI'); try done.
    + intros d Hd. by rewrite lookup_insert_ne.
    + intros h Hh. congruence.
Qed.

Lemma inv_gone c s hs ps ps' :
  Inv (MkState s hs ps) -> hs !! c = None -> ps' !! c = None -> (forall d, d <> c -> ps' !! d = ps !! d) ->
  Inv (MkState (discard c s) hs ps').
Proof. intros HI Hc Hpc Hps. apply (inv_discard _ _ hs ps); try done. intros h Hh. congruence. Qed.

Lemma insertOwner_some ok c id mode host s s' :
  insertOwner ok c id mode host s = inr s' ->
  runtime_owner s = None /\ has_runtime s = true /\ (runtime_lock s = None \/ runtime_lock s = Some c) /\
  s' = s <| runtime_lock := Some c |> <| runtime_owner := Some (MkOwnerRow id mode c) |>.
Proof.
  unfold insertOwner. intros H. destruct (ok 10%nat); [|done]. cbn [negb] in H.
  destruct (not_null (runtime_lock s) && negb (is_id (runtime_lock s) c)) eqn:El; [done|].
  destruct (hostname_ok host); [|done]. destruct (has_runtime s) eqn:Et; [|done]. destruct (ok 11%nat); [|done]. simpl in H.
  destruct (runtime_owner s) eqn:Eo; [done|]. simpl in H. injection H as <-. repeat split; try done.
  unfold is_id in El. destruct (runtime_lock s) as [d|]; [|by left]. right. simpl in El.
  by apply negb_false_iff, bool_decide_eq_true in El.
Qed.

Lemma runtime_inv ok answer c id host s hs ps r s' :
  Inv (MkState s hs ps) -> fresh_conn c (MkState s hs ps) -> AcquireRuntime ok answer c id host s = (r, s') ->
  Inv (MkState s' (join r Runtime "" c hs) ps).
Proof.
  intros HI (F1 & F2 & F3 & F4 & F5 & F6) H. simpl in *. unfold AcquireRuntime in H.
  destruct (ok 0%nat); [|injection H as <- <-; by apply (inv_gone _ _ _ ps)]. cbn [negb] in H.
  destruct (migration_x s) as [d|] eqn:Ex; cbn [not_null] in H; [injection H as <- <-; by apply (inv_gone _ _ _ ps)|].
  destruct (insertOwner ok c id Runtime host s) as [e|s1] eqn:Ei; [injection H as <- <-; by apply (inv_gone _ _ _ ps)|].
  apply insertOwner_some in Ei as (E1 & E2 & E3 & ->).
  eapply (inv_commit _ _ _ _ _ _ _ _ ps); [exact H|done..|]. apply (inv_insert _ _ _ _ _ ps); try done. congruence.
Qed.

Lemma check_none ok s : server_ok s -> CheckNoRuntime ok None s = None -> runtime_owner s = None /\ auxiliary_owner s = ∅.
Proof.
  intros [_ _ _ S4 S5 S6 _] H. unfold CheckNoRuntime in H. destruct (ok 22%nat); [|done]. cbn [negb] in H.
  destruct (has_runtime s) eqn:Er; cbn [negb] in H.
  - destruct (ok 23%nat); [|done]. cbn [negb] in H. destruct (runtime_owner s) as [o|] eqn:Eo; [done|].
    split; [done|]. unfold CheckNoAuxiliary in H. destruct (ok 20%nat); [|done]. cbn [negb] in H.
    destruct (has_auxiliary s) eqn:Ea; [|by apply S5]. cbn [negb] in H. destruct (ok 21%nat); [|done]. cbn [negb] in H.
    destruct (bool_decide (auxiliary_owner s = ∅)) eqn:Ed; [by apply bool_decide_eq_true in Ed|done].
  - split; [by apply S4|]. apply S5. destruct (has_auxiliary s); [|done]. by specialize (S6 eq_refl).
Qed.

Lemma offline_register_inv ok answer c id host s hs ps r s' :
  Inv (MkState s hs ps) -> ps !! c = Some Checked -> registerOffline ok answer c id host s = (r, s') ->
  Inv (MkState s' (join r Offline "" c hs) (delete c ps)).
Proof.
  intros HI Hp H. pose proof HI as [IS IH IP IA]. simpl in *. destruct (IP c _ Hp) as (Hx & Ho & Ha).
  assert (Hc : hs !! c = None) by (destruct (hs !! c) eqn:E; [rewrite IA in Hp by eauto; done|done]).
  assert (Hd : forall d, d <> c -> delete c ps !! d = ps !! d) by (intros d Hd; by rewrite lookup_delete_ne).
  assert (Hdc : delete c ps !! c = None) by apply lookup_delete_eq.
  unfold registerOffline in H. destruct (ok 1%nat); cbn [negb] in H; [|injection H as <- <-; by apply (inv_gone _ _ _ ps)].
  destruct (has_runtime s) eqn:Et; cbn [negb] in H.
  - destruct (insertOwner ok c id Offline host s) as [e|s1] eqn:Ei; [injection H as <- <-; by eapply inv_gone|].
    apply insertOwner_some in Ei as (E1 & E2 & E3 & ->).
    eapply (inv_commit _ _ _ _ _ _ _ _ ps); [exact H|done..|]. apply (inv_insert _ _ _ _ _ ps); try done. congruence.
  - injection H as <- <-. simpl. split; simpl; [done| | |].
    + intros d h Hh. destruct (decide (d = c)) as [->|Hne]; [|rewrite lookup_insert_ne in Hh by done; by apply IH].
      rewrite lookup_insert_eq in Hh. injection Hh as <-. split; simpl; try done. all: try by intros _ _ [].
    + intros d p Hq. apply lookup_delete_Some in Hq as [_ Hq]. by apply IP.
    + intros d Hq. destruct (decide (d = c)) as [->|Hne]; [done|]. rewrite Hd by done. apply IA. by rewrite lookup_insert_ne in Hq.
Qed.

Lemma auxiliary_conflict_false id slot s :
  auxiliary_conflict id slot s = false ->
  auxiliary_owner s !! id = None /\ forall k row, auxiliary_owner s !! k = Some row -> ax_slot row <> slot.
Proof.
  unfold auxiliary_conflict. intros H. split.
  - destruct (auxiliary_owner s !! id) as [row|] eqn:E; [|done]. apply (exists_row_false _ _ _ _ H) in E.
    by rewrite bool_decide_eq_true_2 in E.
  - intros k row E Hs. apply (exists_row_false _ _ _ _ H) in E. rewrite Hs, String.eqb_refl, orb_true_r in E. done.
Qed.

Lemma inv_insert_auxiliary c id slot s hs ps :
  Inv (MkState s hs ps) -> ps !! c = Some (AuxLocked slot) -> has_auxiliary s = true ->
  (forall o, runtime_owner s = Some o -> or_mode o <> Offline) ->
  auxiliary_locks s !! lock_id id = None -> auxiliary_owner s !! id = None ->
  (forall k row, auxiliary_owner s !! k = Some row -> ax_slot row <> slot) ->
  Inv (MkState (s <| auxiliary_locks := <[lock_id id := c]> (auxiliary_locks s) |>
                  <| auxiliary_owner := <[id := MkAuxRow slot (lock_id id) c]> (auxiliary_owner s) |>)
         (<[c := MkHolder (MkGuard true (Some id)) Runtime slot true false]> hs) (delete c ps)).
Proof.
  intros [[S1 S2 S3 S4 S5 S6 S7] I2 I3 I4] Hp Ht Hm Hl Hrow Hslot. simpl in *. pose proof (I3 c _ Hp) as Hs. simpl in Hs.
  assert (Hx : migration_x s = None).
  { destruct (migration_x s) as [d|] eqn:E; [|done]. rewrite S1 in Hs by eauto. by apply not_elem_of_empty in Hs. }
  split; simpl.
  - split; simpl; try done.
    + intros o Ho Hoff. by destruct (Hm o Ho).
    + intros k row Hk. destruct (decide (k = id)) as [->|Hne].
      * rewrite lookup_insert_eq in Hk. by injection Hk as <-.
      * rewrite lookup_insert_ne in Hk by done. by apply S3.
    + congruence.
    + intros k1 k2 r1 r2 H1 H2 E. apply lookup_insert_Some in H1 as [[<- <-]|[N1 H1]], H2 as [[<- <-]|[N2 H2]]; simpl in *.
      * done.
      * by destruct (Hslot k2 r2 H2).
      * by destruct (Hslot k1 r1 H1).
      * by eapply S7.
  - intros d h Hd. destruct (decide (d = c)) as [->|Hne].
    + rewrite lookup_insert_eq in Hd. injection Hd as <-. split; simpl; try done.
      intros _. exists id. by rewrite !lookup_insert_eq.
    + rewrite lookup_insert_ne in Hd by done. destruct (I2 d h Hd) as [A1 A2 A3 A4 A5 A6]. split; simpl; try done.
      * intros Ha Hid. destruct (A5 Ha Hid) as [Hmode _]. split; [done|]. intros Hlive.
        rewrite A3 in Hx by done. done.
      * intros Ha. destruct (A6 Ha) as (id' & Hid & Hr & Hlk). exists id'. split; [done|]. split.
        -- intros He. rewrite lookup_insert_ne; [by apply Hr|]. intros ->. rewrite Hr in Hrow; done.
        -- intros Hlive. destruct (Hlk Hlive) as [L1 L2]. split; [done|]. rewrite lookup_insert_ne; [done|].
           intros E. rewrite E in Hl. congruence.
  - intros d p Hd. apply lookup_delete_Some in Hd as [_ Hd]. specialize (I3 d p Hd). destruct p; simpl in *; try done.
    destruct I3 as [H _]. congruence.
  - intros d Hd. destruct (decide (d = c)) as [->|Hne]; [apply lookup_delete_eq|]. rewrite lookup_delete_ne by done.
    apply I4. by rewrite lookup_insert_ne in Hd.
Qed.

Lemma auxiliary_register_inv ok answer c id slot host s hs ps r s' :
  Inv (MkState s hs ps) -> ps !! c = Some (AuxLocked slot) -> auxiliary_register ok answer c id slot host s = (r, s') ->
  Inv (MkState s' (join r Runtime slot c hs) (delete c ps)).
Proof.
  intros HI Hp H. pose proof HI as [IS IH IP IA]. simpl in *.
  assert (Hc : hs !! c = None) by (destruct (hs !! c) eqn:E; [rewrite IA in Hp by eauto; done|done]).
  assert (Hd : forall d, d <> c -> delete c ps !! d = ps !! d) by (intros d Hd; by rewrite lookup_delete_ne).
  assert (Hdc : delete c ps !! c = None) by apply lookup_delete_eq.
  assert (Hgone : Inv (MkState (discard c s) hs (delete c ps))) by (by apply (inv_gone _ _ _ ps)).
  unfold auxiliary_register in H. destruct (_ || _) in H; [by injection H as <- <-|].
  destruct (match runtime_owner s with Some o => bool_decide (or_mode o = Offline) | None => false end) eqn:Eo;
    [by injection H as <- <-|].
  destruct (_ || _) in H; [by injection H as <- <-|].
  destruct (not_null (auxiliary_locks s !! lock_id id)) eqn:El; [by injection H as <- <-|].
  destruct (negb (has_auxiliary s) || negb (ok 3%nat)) eqn:Et; [by injection H as <- <-|].
  apply orb_false_iff in Et as [Et%negb_false_iff _].
  destruct (auxiliary_conflict id slot s) eqn:Ec; [by injection H as <- <-|].
  apply auxiliary_conflict_false in Ec as [Erow Eslot].
  eapply (inv_commit _ _ _ _ _ _ _ _ ps); [exact H|done..|]. apply inv_insert_auxiliary; try done.
  - intros o Ho Hm. rewrite Ho in Eo. by rewrite bool_decide_eq_true_2 in Eo.
  - by destruct (auxiliary_locks s !! lock_id id).
Qed.

(** An owner's row is deleted by the owner. *)
Lemma inv_delete_row c id s hs ps o :
  Inv (MkState s hs ps) -> runtime_owner s = Some o -> or_id o = id -> or_backend o = c ->
  Inv (MkState (s <| runtime_owner := None |>) (delete c hs) ps).
Proof.
  intros [[S1 S2 S3 S4 S5 S6 S7] I2 I3 I4] Ho Hid Hb. simpl in *. split; simpl.
  - by split.
  - intros d h Hd. apply lookup_delete_Some in Hd as [Hne Hd]. destruct (I2 d h Hd) as [A1 A2 A3 A4 A5 A6]. split; simpl; try done.
    + intros id' Ha He Hi. specialize (A4 id' Ha He Hi). rewrite Ho in A4. injection A4 as ->. by destruct Hne.
    + intros Ha Hi. destruct (A5 Ha Hi) as [Hm Hl]. split; [done|]. intros Hlive. by destruct (Hl Hlive).
  - intros d p Hd. specialize (I3 d p Hd). destruct p; simpl in *; try done. by destruct I3 as (H & _ & H').
  - intros d [h Hd]. apply lookup_delete_Some in Hd as [_ Hd]. eauto.
Qed.

Lemma inv_delete_auxiliary c id s hs ps row :
  Inv (MkState s hs ps) -> auxiliary_owner s !! id = Some row -> ax_backend row = c ->
  Inv (MkState (s <| auxiliary_owner := delete id (auxiliary_owner s) |>) (delete c hs) ps).
Proof.
  intros [[S1 S2 S3 S4 S5 S6 S7] I2 I3 I4] Ho Hb. simpl in *. split; simpl.
  - split; simpl; try done.
    + intros o Hr Hm. rewrite (S2 o Hr Hm) in Ho. by rewrite lookup_empty in Ho.
    + intros k x Hk. apply lookup_delete_Some in Hk as [_ Hk]. by apply S3.
    + intros Ht. rewrite S5 in Ho by done. by rewrite lookup_empty in Ho.
    + intros k1 k2 r1 r2 [_ H1]%lookup_delete_Some [_ H2]%lookup_delete_Some. by apply S7.
  - intros d h Hd. apply lookup_delete_Some in Hd as [Hne Hd]. destruct (I2 d h Hd) as [A1 A2 A3 A4 A5 A6]. split; simpl; try done.
    + intros Ha Hi. destruct (A5 Ha Hi) as [Hm Hl]. split; [done|]. intros Hlive. destruct (Hl Hlive) as [-> ->]. by rewrite delete_empty.
    + intros Ha. destruct (A6 Ha) as (id' & Hid & Hr & Hlk). exists id'. split; [done|]. split; [|done].
      intros He. specialize (Hr He). rewrite lookup_delete_ne; [done|]. intros ->. rewrite Ho in Hr. injection Hr as ->. by destruct Hne.
  - intros d p Hd. specialize (I3 d p Hd). destruct p; simpl in *; try done. destruct I3 as (H & H1 & ->). by rewrite delete_empty.
  - intros d [h Hd]. apply lookup_delete_Some in Hd as [_ Hd]. eauto.
Qed.

Lemma inv_leave c s hs ps : Inv (MkState s hs ps) -> is_Some (hs !! c) -> Inv (MkState (discard c s) (delete c hs) ps).
Proof.
  intros HI Hc. apply (inv_discard _ _ hs ps); try done.
  - intros d Hd. by rewrite lookup_delete_ne.
  - by apply (inv_apart _ HI).
  - intros h Hh. by rewrite lookup_delete_eq in Hh.
Qed.

Lemma inv_left c s hs ps : Inv (MkState s (delete c hs) ps) -> ps !! c = None -> Inv (MkState (discard c s) (delete c hs) ps).
Proof. intros HI Hc. apply (inv_discard _ _ _ ps _ _ HI); try done. intros h Hh. by rewrite lookup_delete_eq in Hh. Qed.

Lemma ownership_release_inv ok answer lost c h s hs ps r s' :
  Inv (MkState s hs ps) -> hs !! c = Some h -> Release ok answer lost (h_live h) c (h_guard h) s = (r, s') ->
  Inv (MkState s' (delete c hs) ps).
Proof.
  intros HI Hc H. assert (Hpc : ps !! c = None) by (apply (inv_apart _ HI); simpl; eauto).
  assert (Hleave : Inv (MkState (discard c s) (delete c hs) ps)) by (apply inv_leave; eauto).
  unfold Release in H. destruct lost; [by injection H as <- <-|]. destruct (_ || _) in H; [by injection H as <- <-|].
  destruct (g_id (h_guard h)) as [id|]; [|by injection H as <- <-].
  assert (Hend : forall s1, Inv (MkState s1 (delete c hs) ps) ->
    (let '(r1, s2) := commit answer c tt s s1 in (r1, discard c s2)) = (r, s') -> Inv (MkState s' (delete c hs) ps)).
  { intros s1 H1 He. destruct answer; simpl in He; injection He as <- <-;
      [by apply inv_left|by apply inv_left|by apply inv_left; [apply inv_left|]]. }
  destruct (g_auxiliary (h_guard h)).
  - destruct (auxiliary_owner s !! id) as [row|] eqn:Er; [|by injection H as <- <-].
    destruct (bool_decide (ax_backend row = c)) eqn:Eb; [|by injection H as <- <-]. apply bool_decide_eq_true in Eb.
    eapply Hend; [|exact H]. by eapply inv_delete_auxiliary.
  - destruct (runtime_owner s) as [o|] eqn:Er; [|by injection H as <- <-].
    destruct (bool_decide (or_id o = id) && bool_decide (or_backend o = c)) eqn:Eb; [|by injection H as <- <-].
    apply andb_true_iff in Eb as [E1%bool_decide_eq_true E2%bool_decide_eq_true].
    eapply Hend; [|exact H]. by eapply inv_delete_row.
Qed.

(** What eviction does to one owner. *)
Lemma evict_some aux id gone hs c h' :
  evict aux id gone hs !! c = Some h' ->
  exists h, hs !! c = Some h /\ h_guard h' = h_guard h /\ h_mode h' = h_mode h /\ h_slot h' = h_slot h /\ h_live h' = h_live h /\
    (h_evicted h' = false -> h_evicted h = false) /\
    (h_evicted h' = true -> h_evicted h = true \/ (gone = true /\ g_auxiliary (h_guard h) = aux /\ g_id (h_guard h) = Some id)) /\
    (gone = true -> g_auxiliary (h_guard h) = aux -> g_id (h_guard h) = Some id -> h_evicted h' = true).
Proof.
  unfold evict. rewrite lookup_update. destruct (hs !! c) as [h|] eqn:E; intros H; simplify_eq/=. exists h. split; [done|].
  destruct (gone && Bool.eqb (g_auxiliary (h_guard h)) aux && is_id (g_id (h_guard h)) id) eqn:Eb; simpl.
  - apply andb_true_iff in Eb as [[E1 E2%Bool.eqb_prop]%andb_true_iff E3]. apply bool_decide_eq_true in E3.
    do 4 (split; [done|]). split; [done|]. split; [by right|done].
  - do 4 (split; [done|]). split; [done|]. split; [by left|]. intros -> <- Hid. unfold is_id in Eb. rewrite Bool.eqb_reflx, Hid, bool_decide_eq_true_2 in Eb; done.
Qed.

Lemma evict_pending aux id gone hs c : is_Some (evict aux id gone hs !! c) -> is_Some (hs !! c).
Proof. intros [h H]. apply evict_some in H as (h0 & H0 & _). eauto. Qed.

(** The row of a stale owner is gone, or nothing changed. *)
Lemma stale_owner_inv id s s' hs ps :
  Inv (MkState s hs ps) ->
  (s' = s \/ exists o trail, runtime_owner s = Some o /\ or_id o = id /\ runtime_lock s = None /\
                s' = s <| runtime_owner := None |> <| audit_trail := trail |>) ->
  Inv (MkState s' (evict false id (is_null (runtime_owner s')) hs) ps).
Proof.
  intros [IS I2 I3 I4] Hs. simpl in *. split; simpl.
  - destruct Hs as [->|(o & trail & _ & _ & _ & ->)]; [done|]. by destruct IS as [S1 S2 S3 S4 S5 S6 S7]; split.
  - intros c h' Hh. apply evict_some in Hh as (h & Hh & Eg & Em & Es & El & Ev & Ev' & Ev'').
    destruct (I2 c h Hh) as [A1 A2 A3 A4 A5 A6]. rewrite <- Eg, <- Em, <- Es, <- El in *.
    destruct Hs as [->|(o & trail & Ho & Hid & Hlk & ->)]; simpl in *.
    + split; auto.
      * intros Hl. destruct (h_evicted h') eqn:E; [|done].
        destruct (Ev' eq_refl) as [H|(Hn & Ha & Hi)]; [by rewrite A1 in H|].
        rewrite (A4 id Ha (A1 Hl) Hi) in Hn. done.
      * intros Ha. destruct (A6 Ha) as (id' & Hi & Hr & Hk). exists id'. auto.
    + split; simpl; auto.
      * intros Hl. destruct (h_evicted h') eqn:E; [|done].
        destruct (Ev' eq_refl) as [H|(_ & Ha & Hi)]; [by rewrite A1 in H|]. rewrite A2 in Hlk by eauto. done.
      * intros id' Ha He Hi. specialize (A4 id' Ha (Ev He) Hi). rewrite Ho in A4. injection A4 as ->.
        simpl in Hid. subst id'. rewrite Ev'' in He by done. done.
      * intros Ha Hi. destruct (A5 Ha Hi) as [Hm Hl]. split; [done|]. intros Hlive. by destruct (Hl Hlive).
      * intros Ha. destruct (A6 Ha) as (id' & Hi & Hr & Hk). exists id'. auto.
  - intros c p Hp. specialize (I3 c p Hp). destruct Hs as [->|(o & trail & _ & _ & _ & ->)]; [done|].
    destruct p; simpl in *; try done. by destruct I3 as (H1 & _ & H2).
  - intros c Hc. by apply I4, (evict_pending false id (is_null (runtime_owner s'))).
Qed.

Lemma stale_auxiliary_inv id s s' hs ps :
  Inv (MkState s hs ps) ->
  (s' = s \/ exists row trail, auxiliary_owner s !! id = Some row /\ auxiliary_locks s !! ax_lock row = None /\
                s' = s <| auxiliary_owner := delete id (auxiliary_owner s) |> <| audit_trail := trail |>) ->
  Inv (MkState s' (evict true id (is_null (auxiliary_owner s' !! id)) hs) ps).
Proof.
  intros [IS I2 I3 I4] Hs. simpl in *. pose proof IS as [S1 S2 S3 S4 S5 S6 S7]. split; simpl.
  - destruct Hs as [->|(row & trail & Hr & _ & ->)]; [done|]. split; simpl; try done.
    + intros o Ho Hm. rewrite (S2 o Ho Hm) in Hr. by rewrite lookup_empty in Hr.
    + intros k x Hk. apply lookup_delete_Some in Hk as [_ Hk]. by apply S3.
    + intros Ht. rewrite S5 in Hr by done. by rewrite lookup_empty in Hr.
    + intros k1 k2 r1 r2 [_ H1]%lookup_delete_Some [_ H2]%lookup_delete_Some. by apply S7.
  - intros c h' Hh. apply evict_some in Hh as (h & Hh & Eg & Em & Es & El & Ev & Ev' & Ev'').
    destruct (I2 c h Hh) as [A1 A2 A3 A4 A5 A6]. rewrite <- Eg, <- Em, <- Es, <- El in *.
    destruct Hs as [->|(row & trail & Hr & Hlk & ->)]; simpl in *.
    + split; auto.
      * intros Hl. destruct (h_evicted h') eqn:E; [|done].
        destruct (Ev' eq_refl) as [H|(Hn & Ha & Hi)]; [by rewrite A1 in H|].
        destruct (A6 Ha) as (id' & Hi' & Hrow & _). rewrite Hi in Hi'. injection Hi' as <-. rewrite (Hrow (A1 Hl)) in Hn. done.
      * intros Ha. destruct (A6 Ha) as (id' & Hi & Hrow & Hk). exists id'. auto.
    + split; simpl; auto.
      * intros Hl. destruct (h_evicted h') eqn:E; [|done].
        destruct (Ev' eq_refl) as [H|(_ & Ha & Hi)]; [by rewrite A1 in H|].
        destruct (A6 Ha) as (id' & Hi' & _ & Hk). rewrite Hi in Hi'. injection Hi' as <-. destruct (Hk Hl) as [_ Hk'].
        rewrite (S3 _ _ Hr) in Hlk. congruence.
      * intros Ha Hi. destruct (A5 Ha Hi) as [Hm Hl]. split; [done|]. intros Hlive. destruct (Hl Hlive) as [-> ->].
        by rewrite delete_empty.
      * intros Ha. destruct (A6 Ha) as (id' & Hi & Hrow & Hk). exists id'. split; [done|]. split; [|done].
        intros He. destruct (decide (id' = id)) as [->|Hne]; [|rewrite lookup_delete_ne by done; auto].
        rewrite Ev'' in He; [done| |done|done]. by rewrite lookup_delete_eq.
  - intros c p Hp. specialize (I3 c p Hp). destruct Hs as [->|(row & trail & _ & _ & ->)]; [done|].
    destruct p; simpl in *; try done. destruct I3 as (H1 & H2 & ->). by rewrite delete_empty.
  - intros c Hc. by apply I4, (evict_pending true id (is_null (auxiliary_owner s' !! id))).
Qed.

Lemma inv_lock_migration c s hs ps :
  Inv (MkState s hs ps) -> hs !! c = None -> migration_x s = None -> migration_s s = ∅ ->
  Inv (MkState (s <| migration_x := Some c |>) hs (<[c := Locked]> ps)).
Proof.
  intros [[S1 S2 S3 S4 S5 S6 S7] I2 I3 I4] Hc Hx Hs. simpl in *. split; simpl.
  - by split.
  - intros d h Hd. destruct (I2 d h Hd) as [A1 A2 A3 A4 A5 A6]. split; simpl; try done.
    intros Ha Hl Hm. rewrite A3 in Hx; done.
  - intros d p Hd. apply lookup_insert_Some in Hd as [[<- <-]|[Hne Hd]]; [done|].
    specialize (I3 d p Hd). destruct p; simpl in *; [congruence|by destruct I3; congruence|done].
  - intros d Hd. destruct (decide (d = c)) as [->|Hne]; [by destruct Hd; congruence|]. rewrite lookup_insert_ne by done. by apply I4.
Qed.

Lemma inv_share_migration c slot s hs ps :
  Inv (MkState s hs ps) -> hs !! c = None -> migration_x s = None ->
  Inv (MkState (s <| migration_s := {[c]} ∪ migration_s s |>) hs (<[c := AuxLocked slot]> ps)).
Proof.
  intros [[S1 S2 S3 S4 S5 S6 S7] I2 I3 I4] Hc Hx. simpl in *. split; simpl.
  - split; simpl; try done. rewrite Hx. by intros [].
  - intros d h Hd. destruct (I2 d h Hd) as [A1 A2 A3 A4 A5 A6]. split; simpl; try done.
    intros Ha. destruct (A6 Ha) as (id & Hid & Hr & Hl). exists id. split; [done|]. split; [done|]. intros Hlive.
    destruct (Hl Hlive) as [L1 L2]. split; [apply elem_of_union; by right|done].
  - intros d p Hd. apply lookup_insert_Some in Hd as [[<- <-]|[Hne Hd]].
    + simpl. apply elem_of_union. left. by apply elem_of_singleton.
    + specialize (I3 d p Hd). destruct p; simpl in *; try done. apply elem_of_union. by right.
  - intros d Hd. destruct (decide (d = c)) as [->|Hne]; [by destruct Hd; congruence|]. rewrite lookup_insert_ne by done. by apply I4.
Qed.

Lemma settle_cases {A} answer (a : A) s s' r s'' : settle answer a s s' = (r, s'') -> s'' = s \/ s'' = s'.
Proof. destruct answer; intros [= <- <-]; auto. Qed.

Lemma ownership_step_inv st st' : Inv st -> step st st' -> Inv st'.
Proof.
  intros HI Hst.
  destruct Hst as [ok answer c id host s hs ps r s' Hf H|ok c s hs ps s' Hf H|ok c s hs ps Hp H|ok answer c id host s hs ps r s' Hp H
    |ok slot c s hs ps s' Hf H|ok answer c id slot host s hs ps r s' Hp H|c s hs ps Hp|c h s hs ps Hh|ok answer lost c h s hs ps r s' Hh H
    |c h s hs ps Hh|ok answer id actor reason s hs ps r s' H|ok answer id actor reason s hs ps r s' H|c h b s hs ps Hh Ha Hm].
  - by eapply runtime_inv.
  - unfold offline_lock in H. destruct (ok 0%nat); [|done]. cbn [negb] in H.
    destruct (not_null (migration_x s) || negb (bool_decide (migration_s s = ∅))) eqn:E; [done|]. injection H as <-.
    apply orb_false_iff in E as [E1 E2%negb_false_iff%bool_decide_eq_true]. apply inv_lock_migration; [done|apply Hf| |done].
    by destruct (migration_x s).
  - pose proof (check_none ok s (inv_server _ HI) H) as [E1 E2]. pose proof HI as [I1 I2 I3 I4]. simpl in *. split; simpl; try done.
    + intros d p Hd. apply lookup_insert_Some in Hd as [[<- <-]|[Hne Hd]]; [|by apply I3]. by specialize (I3 c Locked Hp).
    + intros d Hd. destruct (decide (d = c)) as [->|Hne]; [by rewrite I4 in Hp|]. rewrite lookup_insert_ne by done. by apply I4.
  - by eapply offline_register_inv.
  - unfold auxiliary_lock in H. destruct (_ || _) in H; [done|]. destruct (migration_x s) eqn:E; [done|]. cbn [not_null] in H.
    injection H as <-. apply inv_share_migration; [done|apply Hf|done].
  - by eapply auxiliary_register_inv.
  - apply (inv_discard _ _ hs ps); [done|done| | |].
    + intros d Hd. by rewrite lookup_delete_ne.
    + apply lookup_delete_eq.
    + intros h Hh. destruct Hp as [p Hp]. pose proof (inv_apart _ HI c (ex_intro _ h Hh)) as Hn. simpl in Hn. congruence.
  - apply (inv_discard _ _ hs ps); [done| |done| |].
    + intros d Hd. by rewrite lookup_insert_ne.
    + apply (inv_apart _ HI c). simpl. eauto.
    + intros h' Hh'. rewrite lookup_insert_eq in Hh'. injection Hh' as <-. by apply discard_dead, (inv_holders _ HI).
  - by eapply ownership_release_inv.
  - apply inv_leave; [done|]. eauto.
  - apply (stale_owner_inv _ s); [done|]. unfold ReleaseStaleOwner in H. destruct (_ || _) in H; [left; congruence|].
    destruct (_ || _) eqn:El in H; [left; congruence|]. destruct (runtime_owner s) as [o|] eqn:Eo; [|left; congruence].
    destruct (N.eqb_spec (or_id o) id) as [Hid|]; [|left; congruence]. apply settle_cases in H as [->|H]; [by left|].
    right. exists o. eexists. split; [done|]. split; [done|]. split; [|exact H].
    apply orb_false_iff in El as [_ El]. by destruct (runtime_lock s).
  - apply (stale_auxiliary_inv _ s); [done|]. unfold ReleaseStaleAuxiliary in H. destruct (_ || _) in H; [left; congruence|].
    destruct (not_null (migration_x s)); [left; congruence|]. destruct (auxiliary_owner s !! id) as [row|] eqn:Er; [|left; congruence].
    destruct (auxiliary_locks s !! ax_lock row) eqn:El; [left; simpl in H; congruence|]. cbn [not_null] in H.
    apply settle_cases in H as [->|H]; [by left|]. right. exists row. eexists. split; [done|]. split; [done|exact H].
  - pose proof HI as [[S1 S2 S3 S4 S5 S6 S7] I2 I3 I4]. simpl in *. split; simpl; [split; simpl; try done| | |done].
    + intros Hb. apply S5. by destruct (has_auxiliary s).
    + intros d x Hd. by destruct (I2 d x Hd); split.
    + intros d p Hd. specialize (I3 d p Hd). by destruct p.
Qed.

Lemma ownership_reachable_inv st : reachable st -> Inv st.
Proof.
  induction 1 as [st (H1 & H2 & H3 & H4 & H5 & H6 & H7 & H8 & H9 & H10)|st st' _ IH Hst]; [|by eapply ownership_step_inv].
  split; rewrite ?H1, ?H2; try done. split; rewrite ?H3, ?H4, ?H5, ?H6, ?H7, ?H8; done.
Qed.

(** An owner that may go on acting: not released by an operator, and either
    recorded in the database or (before the tables exist) with its session. *)
Definition entitled (h : Holder) : Prop := h_evicted h = false /\ (is_Some (g_id (h_guard h)) \/ h_live h = true).

(** C40. Ownership is exclusive.  In every run, with sessions lost at any time
    and commits of unknown outcome: at most one entitled process runs the
    gateway or does offline work; entitled offline work excludes every
    auxiliary owner; no two auxiliary owners share a slot; and an operator can
    release an owner only after its session has ended. *)
Theorem ownership_exclusive st :
  reachable st ->
  (forall c1 h1 c2 h2, holders st !! c1 = Some h1 -> holders st !! c2 = Some h2 ->
     g_auxiliary (h_guard h1) = false -> g_auxiliary (h_guard h2) = false -> entitled h1 -> entitled h2 -> c1 = c2) /\
  (forall c1 h1 c2 h2, holders st !! c1 = Some h1 -> holders st !! c2 = Some h2 ->
     g_auxiliary (h_guard h1) = false -> h_mode h1 = Offline -> entitled h1 ->
     g_auxiliary (h_guard h2) = true -> h_evicted h2 = true) /\
  (forall c1 h1 c2 h2, holders st !! c1 = Some h1 -> holders st !! c2 = Some h2 ->
     g_auxiliary (h_guard h1) = true -> g_auxiliary (h_guard h2) = true -> h_evicted h1 = false -> h_evicted h2 = false ->
     h_slot h1 = h_slot h2 -> c1 = c2) /\
  (forall c h, holders st !! c = Some h -> h_live h = true -> h_evicted h = false).
Proof.
  intros Hr. destruct (ownership_reachable_inv st Hr) as [[S1 S2 S3 S4 S5 S6 S7] IH _ _].
  split; [|split; [|split]].
  - intros c1 h1 c2 h2 H1 H2 X1 X2 [V1 P1] [V2 P2]. destruct (IH c1 h1 H1) as [_ _ M1 R1 F1 _], (IH c2 h2 H2) as [_ _ M2 R2 F2 _].
    destruct (g_id (h_guard h1)) as [id1|] eqn:E1, (g_id (h_guard h2)) as [id2|] eqn:E2.
    + specialize (R1 id1 X1 V1 eq_refl). specialize (R2 id2 X2 V2 eq_refl). congruence.
    + destruct P2 as [[? [=]]|L2]. destruct (F2 X2 eq_refl) as [_ N2]. destruct (N2 L2) as [N _]. rewrite (R1 id1) in N; done.
    + destruct P1 as [[? [=]]|L1]. destruct (F1 X1 eq_refl) as [_ N1]. destruct (N1 L1) as [N _]. rewrite (R2 id2) in N; done.
    + destruct P1 as [[? [=]]|L1], P2 as [[? [=]]|L2]. destruct (F1 X1 eq_refl) as [O1 _], (F2 X2 eq_refl) as [O2 _].
      specialize (M1 X1 L1 O1). specialize (M2 X2 L2 O2). congruence.
  - intros c1 h1 c2 h2 H1 H2 X1 Hm [V1 P1] X2. destruct (h_evicted h2) eqn:E; [done|].
    destruct (IH c1 h1 H1) as [_ _ _ R1 F1 _], (IH c2 h2 H2) as [_ _ _ _ _ A2].
    destruct (A2 X2) as (id2 & _ & Hrow & _). specialize (Hrow E).
    assert (Ha : auxiliary_owner (server st) = ∅).
    { destruct (g_id (h_guard h1)) as [id1|] eqn:E1; [by eapply (S2 _ (R1 id1 X1 V1 eq_refl))|].
      destruct P1 as [[? [=]]|L1]. destruct (F1 X1 eq_refl) as [_ N1]. by apply N1. }
    rewrite Ha, lookup_empty in Hrow. done.
  - intros c1 h1 c2 h2 H1 H2 X1 X2 V1 V2 Hs. destruct (IH c1 h1 H1) as [_ _ _ _ _ A1], (IH c2 h2 H2) as [_ _ _ _ _ A2].
    destruct (A1 X1) as (id1 & _ & R1 & _), (A2 X2) as (id2 & _ & R2 & _). specialize (R1 V1). specialize (R2 V2).
    pose proof (S7 _ _ _ _ R1 R2 Hs) as ->. congruence.
  - intros c h Hh. apply (IH c h Hh).
Qed.

(** ** A concrete run: first migration, then the gateway and a collector *)

Definition all_ok : nat -> bool := fun _ => true.
Definition server0 : Server := MkServer false false None ∅ None ∅ None ∅ [].
Definition server1 : Server := server0 <| migration_x := Some 1%N |>.
Definition first_migration : Holder := MkHolder (MkGuard false None) Offline "" true false.
Definition server2 : Server := server1 <| has_runtime := true |> <| has_auxiliary := false || true |>.
Definition server3 : Server := snd (Release all_ok Committed false true 1 (MkGuard false None) server2).
Definition run4 := AcquireRuntime all_ok Committed 2 7 "gateway" server3.
Definition run5 := auxiliary_lock all_ok "imap" 3 (snd run4).
Definition server5 : Server := (snd run4) <| migration_s := {[3%N]} ∪ migration_s (snd run4) |>.
Definition run6 := auxiliary_register all_ok Committed 3 8 "imap" "collector" server5.
Lemma no_locks c hs ps s :
  hs !! c = None -> ps !! c = None -> migration_x s = None -> migration_s s = ∅ -> runtime_lock s <> Some c ->
  auxiliary_locks s = ∅ -> fresh_conn c (MkState s hs ps).
Proof.
  intros H1 H2 H3 H4 H5 H6. repeat split; simpl; try done; rewrite ?H3, ?H4, ?H6; try done.
Qed.

Definition pending3 : gmap Conn Stage := delete 1%N (<[1%N := Checked]> (<[1%N := Locked]> ∅)).
Definition holders3 : gmap Conn Holder := delete 1%N (<[1%N := first_migration]> ∅).

Definition owners6 : State :=
  MkState (snd run6) (join (fst run6) Runtime "imap" 3 (join (fst run4) Runtime "" 2 holders3))
    (delete 3%N (<[3%N := AuxLocked "imap"]> pending3)).

Lemma fresh2 : fresh_conn 2 (MkState server3 holders3 pending3).
Proof. apply no_locks; by vm_compute. Qed.

Lemma fresh3 : fresh_conn 3 (MkState (snd run4) (join (fst run4) Runtime "" 2 holders3) pending3).
Proof. apply no_locks; by vm_compute. Qed.

Lemma owners6_reachable : reachable owners6.
Proof.
  assert (R0 : reachable (MkState server0 ∅ ∅)) by (apply reachable_start; by repeat split).
  assert (R1 : reachable (MkState server1 ∅ (<[1%N := Locked]> ∅)))
    by (exact (reachable_step _ _ R0 (step_offline_lock all_ok 1 server0 ∅ ∅ server1 ltac:(apply no_locks; by vm_compute) eq_refl))).
  pose proof (reachable_step _ _ R1 (step_offline_check all_ok 1 server1 ∅ _ (lookup_insert_eq _ _ _) eq_refl)) as R2.
  pose proof (reachable_step _ _ R2 (step_offline_register all_ok Committed 1 9 "admin" server1 ∅ _ (inr (MkGuard false None))
                server1 (lookup_insert_eq _ _ _) eq_refl)) as R3.
  pose proof (reachable_step _ _ R3 (step_migrate 1 first_migration true server1 _ _ (lookup_insert_eq _ _ _) eq_refl eq_refl)) as R4.
  pose proof (reachable_step _ _ R4 (step_release all_ok Committed false 1 first_migration server2 _ _ (inr tt) server3
                (lookup_insert_eq _ _ _) eq_refl)) as R5.
  pose proof (reachable_step _ _ R5 (step_runtime all_ok Committed 2 7 "gateway" server3 _ _ (fst run4) (snd run4)
                fresh2 eq_refl)) as R6.
  pose proof (reachable_step _ _ R6 (step_auxiliary_lock all_ok "imap" 3 (snd run4) _ _ server5 fresh3 eq_refl)) as R7.
  exact (reachable_step _ _ R7 (step_auxiliary_register all_ok Committed 3 8 "imap" "collector" server5 _ _ (fst run6) (snd run6)
           (lookup_insert_eq _ _ _) eq_refl)).
Qed.

Lemma ownership_exclusive_witness :
  exists g a, holders owners6 !! 2%N = Some g /\ holders owners6 !! 3%N = Some a /\
    g_auxiliary (h_guard g) = false /\ g_auxiliary (h_guard a) = true /\ h_evicted g = false /\ h_evicted a = false.
Proof.
  destruct (ownership_exclusive owners6 owners6_reachable) as (_ & _ & _ & H).
  exists (MkHolder (MkGuard false (Some 7%N)) Runtime "" true false), (MkHolder (MkGuard true (Some 8%N)) Runtime "imap" true false).
  assert (H2 : holders owners6 !! 2%N = Some (MkHolder (MkGuard false (Some 7%N)) Runtime "" true false)) by reflexivity.
  assert (H3 : holders owners6 !! 3%N = Some (MkHolder (MkGuard true (Some 8%N)) Runtime "imap" true false)) by reflexivity.
  split; [exact H2|]. split; [exact H3|]. split; [reflexivity|]. split; [reflexivity|].
  split; [exact (H _ _ H2 eq_refl)|exact (H _ _ H3 eq_refl)].
Defined.

End OwnershipSpec.
