(* ===== verification/Fingerprint.v ===== *)
(** * What identifies a submission: [RequestFingerprint]

    [internal/message/idempotency.go]: the digest under which the ledger
    recognises a repeated request.  It is taken over a JSON document of the
    envelope, the message's digest and size, and the canonical forms of the
    options; absent options leave their fields out, so that requests without
    them keep the digest of earlier versions. *)

From S2P Require Import Prelude Sha256 GoText TextFacts JsonText Calendar Delivery SmtpClient Provider Database UuidText Auth Suppression Message.

Module Fingerprint.
Import Message.

Section Requests.
  Context {addresses : MailParser}.

(** ** The function *)

(** A digest in canonical hexadecimal form *)
Definition digest_ok (sha : string) : bool :=
  match DecodeString sha with
  | Some b => (length b =? 32)%nat && String.eqb (EncodeToString b) sha
  | None => false
  end.

(** The values of the document *)
Record Identity := MkIdentity {
  q_From : string; q_Recipients : list string; q_SHA256 : string; q_Size : Z; q_Business : option Business;
  q_Stream : option string; q_ExpiresAt : option Time; q_ScheduleAt : option Time; q_Replaces : option string }.

Definition marshal_business (b : Business) : string :=
  object [("client_reference", quoted (ClientReference b)); ("tags", array (map quoted (Tags b)))]%string.

Definition document_version (q : Identity) : Z :=
  let version := 1 in
  let version := if not_null (q_Business q) then 2 else version in
  let version := if not_null (q_Stream q) then 3 else version in
  let version := if not_null (q_ExpiresAt q) then 4 else version in
  let version := if not_null (q_ScheduleAt q) then 5 else version in
  if not_null (q_Replaces q) then 6 else version.

Definition marshal_request (q : Identity) : string :=
  object (("version", FormatInt (document_version q))
    :: ("from", quoted (q_From q)) :: ("recipients", array (map quoted (q_Recipients q)))
    :: ("sha256", quoted (q_SHA256 q)) :: ("size", FormatInt (q_Size q))
    :: optional "business" marshal_business (q_Business q) ++ optional "stream" quoted (q_Stream q)
    ++ optional "expires_at" (fun t => quoted (RFC3339 t)) (q_ExpiresAt q)
    ++ optional "schedule_at" (fun t => quoted (RFC3339 t)) (q_ScheduleAt q)
    ++ optional "replaces" quoted (q_Replaces q))%string.

Definition digest_request (q : Identity) : string := EncodeToString (Sha.Sum256 (bytes_of (marshal_request q))).

(** The checks of [RequestFingerprint], up to the document *)
Definition identify (s : Submission) : DBErr + Identity :=
  if negb (digest_ok (s_SHA256 s)) || (s_Size s <? 1) || String.eqb (s_From s) ""
     || (length (s_Recipients s) =? 0)%nat || (1000 <? length (s_Recipients s))%nat
     || negb (not_null (Auth.CanonicalAddress (s_From s)))
     || negb (forallb (fun address => not_null (Auth.CanonicalAddress address)) (s_Recipients s))
  then inl ErrInvalidSubmission
  else match Canonical (s_Business s), CanonicalStream (s_Stream s), CanonicalExpiry (s_ExpiresAt s),
             CanonicalExpiry (s_ScheduleAt s) with
  | Some business, Some stream, Some expiry, Some schedule =>
      if not_null schedule && negb (IsZero (z_at (s_ExpiresAt s)))
         && negb (After (z_at (s_ExpiresAt s)) (z_at (s_ScheduleAt s)))
      then inl ErrInvalidSchedule
      else match s_Replaces s with
      | Some id =>
          if (id =? 0)%N then inl ErrInvalidSubmission
          else inr (MkIdentity (s_From s) (s_Recipients s) (s_SHA256 s) (s_Size s)
                      (if Present business then Some business else None)
                      (if String.eqb stream "normal" then None else Some stream) expiry schedule (Some (uuid_text id)))
      | None => inr (MkIdentity (s_From s) (s_Recipients s) (s_SHA256 s) (s_Size s)
                       (if Present business then Some business else None)
                       (if String.eqb stream "normal" then None else Some stream) expiry schedule None)
      end
  | _, _, _, _ => inl ErrInvalidSubmission
  end.

Definition RequestFingerprint (s : Submission) : DBErr + string :=
  match identify s with inl e => inl e | inr q => inr (digest_request q) end.

(** ** The document determines the request *)

Record proper (q : Identity) : Prop := {
  pr_from : ascii_text (q_From q);
  pr_recipients : Forall ascii_text (q_Recipients q);
  pr_sha : ascii_text (q_SHA256 q);
  pr_size : 0 <= q_Size q < 2 ^ 63;
  pr_business : forall b, q_Business q = Some b -> ascii_text (ClientReference b) /\ Forall ascii_text (Tags b);
  pr_stream : forall n, q_Stream q = Some n -> ascii_text n;
  pr_expires : forall t, q_ExpiresAt q = Some t -> 0 <= t < year_10000 /\ t mod Second = 0;
  pr_schedule : forall t, q_ScheduleAt q = Some t -> 0 <= t < year_10000 /\ t mod Second = 0;
  pr_replaces : forall u, q_Replaces q = Some u -> ascii_text u }.

Lemma business_inj b b' r r' :
  ascii_text (ClientReference b) -> Forall ascii_text (Tags b) ->
  ascii_text (ClientReference b') -> Forall ascii_text (Tags b') ->
  (marshal_business b ++ r)%string = (marshal_business b' ++ r')%string -> b = b' /\ r = r'.
Proof.
  intros H1 H2 H3 H4. unfold marshal_business. rewrite !object_text. cbn [more]. rewrite !append_assoc. intros E.
  apply string_tail in E. apply quoted_inj in E as [_ E]; [|by apply ascii_all..]. apply string_tail in E.
  apply quoted_inj in E as [Hr E]; [|done..]. apply string_tail in E.
  apply quoted_inj in E as [_ E]; [|by apply ascii_all..]. apply string_tail in E.
  apply strings_inj in E as [Ht E]; [|done..]. apply string_tail in E.
  split; [|done]. destruct b, b'. simpl in *. congruence.
Qed.

Lemma time_inj t t' r r' :
  0 <= t < year_10000 /\ t mod Second = 0 -> 0 <= t' < year_10000 /\ t' mod Second = 0 ->
  (quoted (RFC3339 t) ++ r)%string = (quoted (RFC3339 t') ++ r')%string -> t = t' /\ r = r'.
Proof.
  intros [H1 H2] [H3 H4] E. apply quoted_inj in E as [E ->]; [|by apply RFC3339_ascii..]. split; [|done]. by apply RFC3339_inj.
Qed.

(** The fields that follow have other names. *)
Ltac keys :=
  unfold other_keys, optional; repeat apply Forall_app_2; repeat case_match;
  repeat first [apply Forall_nil_2 | apply Forall_cons_2]; try (split; [by apply ascii_all|done]).

Lemma document_version_range q : 0 <= document_version q < 2 ^ 63.
Proof. unfold document_version. repeat case_match; lia. Qed.

(** Two requests with the same document are the same request. *)
Lemma marshal_inj q q' : proper q -> proper q' -> marshal_request q = marshal_request q' -> q = q'.
Proof.
  intros [P1 P2 P3 P4 P5 P6 P7 P8 P9] [Q1 Q2 Q3 Q4 Q5 Q6 Q7 Q8 Q9] E. unfold marshal_request in E.
  rewrite !object_text in E. apply string_tail in E. apply quoted_inj in E as [_ E]; [|by apply ascii_all..].
  apply string_tail in E. apply number_inj in E as [_ E]; [|apply document_version_range..|apply more_ends|apply more_ends].
  apply more_inj in E as [_ E]; [|by apply ascii_all..]. apply quoted_inj in E as [E1 E]; [|done..].
  apply more_inj in E as [_ E]; [|by apply ascii_all..]. apply strings_inj in E as [E2 E]; [|done..].
  apply more_inj in E as [_ E]; [|by apply ascii_all..]. apply quoted_inj in E as [E3 E]; [|done..].
  apply more_inj in E as [_ E]; [|by apply ascii_all..]. apply number_inj in E as [E4 E]; [|done|done|apply more_ends|apply more_ends].
  apply optional_inj in E as [E5 E]; [|by apply ascii_all|keys|keys|].
  2: { intros b b' Hb Hb' Eb. destruct (P5 b Hb), (Q5 b' Hb'). by apply business_inj in Eb. }
  apply optional_inj in E as [E6 E]; [|by apply ascii_all|keys|keys|].
  2: { intros n n' Hn Hn'. apply quoted_inj; auto. }
  apply optional_inj in E as [E7 E]; [|by apply ascii_all|keys|keys|].
  2: { intros t t' Ht Ht'. apply time_inj; auto. }
  apply optional_inj in E as [E8 E]; [|by apply ascii_all|keys|keys|].
  2: { intros t t' Ht Ht'. apply time_inj; auto. }
  rewrite <- (app_nil_r (optional _ _ (q_Replaces q))), <- (app_nil_r (optional _ _ (q_Replaces q'))) in E.
  apply optional_inj in E as [E9 _]; [|by apply ascii_all|keys|keys|].
  2: { intros u u' Hu Hu'. apply quoted_inj; auto. }
  destruct q, q'. simpl in *. congruence.
Qed.

#[local] Opaque uuid_text.

(** *** The values are proper *)

Lemma is_ascii_text s : Auth.is_ascii s = true -> ascii_text s.
Proof.
  induction s as [|c s IH]; intros H; [intros c Hc; by apply elem_of_nil in Hc|]. simpl in H. bsimpl. destruct H as [Hc Hs].
  apply ascii_text_cons. split; [apply N.leb_le in Hc; lia|auto].
Qed.

Lemma address_ascii a : not_null (Auth.CanonicalAddress a) = true -> ascii_text a.
Proof.
  unfold Auth.CanonicalAddress. destruct (_ || _); [done|]. destruct (Auth.is_ascii a) eqn:E; [|done]. intros _. by apply is_ascii_text.
Qed.

Definition ascii_ranges (ranges : list (N * N)) : bool := forallb (fun r => (snd r <? 128)%N) ranges.

Lemma char_in_ascii ranges c : ascii_ranges ranges = true -> char_in ranges c = true -> (N_of_ascii c < 128)%N.
Proof.
  intros Hr Hc. unfold char_in in Hc. apply existsb_exists in Hc as (r & Hin & Hc). unfold ascii_ranges in Hr.
  rewrite forallb_forall in Hr. specialize (Hr r Hin). apply andb_true_iff in Hc as [_ Hc]. apply N.leb_le in Hc. apply N.ltb_lt in Hr. lia.
Qed.

Lemma matches_ascii first rest n s : ascii_ranges first = true -> ascii_ranges rest = true -> matches first rest n s = true -> ascii_text s.
Proof.
  intros Hf Hr. destruct s as [|c s]; [done|]. simpl. intros H. bsimpl. destruct H as [[Hc Hs] _].
  apply ascii_text_cons. split; [by apply (char_in_ascii first)|]. clear Hc n. induction s as [|x s IH]; [intros y Hy; by apply elem_of_nil in Hy|].
  simpl in Hs. bsimpl. destruct Hs. apply ascii_text_cons. split; [by apply (char_in_ascii rest)|auto].
Qed.

Lemma tags_ascii prev l : tags_ok prev l = true -> Forall ascii_text l.
Proof.
  revert prev. induction l as [|x l IH]; intros prev H; [constructor|]. simpl in H. bsimpl. destruct H as [[Hx _] Hl].
  constructor; [by (eapply matches_ascii; [..|exact Hx])|by eapply IH].
Qed.

Lemma Canonical_ascii b c : Canonical b = Some c -> ascii_text (ClientReference c) /\ Forall ascii_text (Tags c).
Proof.
  unfold Canonical. destruct (_ || _) eqn:E; [done|]. destruct (tags_ok _ _) eqn:Ht; [|done]. intros [= <-]. simpl.
  split; [|by eapply tags_ascii]. bsimpl. destruct E as [E _]. destruct (String.eqb_spec (ClientReference b) "") as [->|Hne].
  - intros c Hc. by apply elem_of_nil in Hc.
  - destruct E as [E|E]; [done|]. by (eapply matches_ascii; [..|exact E]).
Qed.

Lemma hex_ascii bs : ascii_text (EncodeToString bs).
Proof.
  induction bs as [|b bs IH]; [intros c Hc; by apply elem_of_nil in Hc|]. destruct b; simpl; repeat (apply ascii_text_cons; split; [done|]); done.
Qed.

Lemma CanonicalExpiry_some z t : CanonicalExpiry z = Some (Some t) -> z_at z = t /\ 0 <= t < year_10000 /\ t mod Second = 0.
Proof.
  unfold CanonicalExpiry. destruct (IsZero _); [done|]. destruct (_ || _) eqn:E; [done|]. intros [= <-]. bsimpl. lia.
Qed.

Lemma CanonicalExpiry_none z : CanonicalExpiry z = Some None -> z_at z = 0.
Proof. unfold CanonicalExpiry, IsZero. destruct (Z.eqb_spec (z_at z) 0); [done|]. by destruct (_ || _). Qed.

Lemma CanonicalExpiry_inj z z' o : CanonicalExpiry z = Some o -> CanonicalExpiry z' = Some o -> z_at z = z_at z'.
Proof.
  destruct o as [t|]; intros H H'.
  - apply CanonicalExpiry_some in H as [-> _]. by apply CanonicalExpiry_some in H' as [-> _].
  - apply CanonicalExpiry_none in H as ->. by apply CanonicalExpiry_none in H' as ->.
Qed.

Lemma digest_ascii sha : digest_ok sha = true -> ascii_text sha.
Proof.
  unfold digest_ok. destruct (DecodeString sha) as [b|]; [|done]. intros H. bsimpl. destruct H as [_ <-]. apply hex_ascii.
Qed.

Lemma stream_ascii n c : CanonicalStream n = Some c -> ascii_text c.
Proof.
  unfold CanonicalStream. destruct (one_of n ["";"normal"]%string); [intros [= <-]; by apply ascii_all|].
  destruct (one_of n _) eqn:E; [|done]. intros [= <-]. apply one_of_true in E. rewrite !elem_of_cons, elem_of_nil in E.
  destruct E as [->|[->|[->|[]]]]; by apply ascii_all.
Qed.

(** The canonical values of a request, as the document has them *)
Definition same_request (s s' : Submission) : Prop :=
  s_From s = s_From s' /\ s_Recipients s = s_Recipients s' /\ s_SHA256 s = s_SHA256 s' /\ s_Size s = s_Size s' /\
  Canonical (s_Business s) = Canonical (s_Business s') /\ CanonicalStream (s_Stream s) = CanonicalStream (s_Stream s') /\
  z_at (s_ExpiresAt s) = z_at (s_ExpiresAt s') /\ z_at (s_ScheduleAt s) = z_at (s_ScheduleAt s') /\
  option_map uuid_text (s_Replaces s) = option_map uuid_text (s_Replaces s').

Lemma identify_some s q :
  identify s = inr q -> exists b c e h,
    Canonical (s_Business s) = Some b /\ CanonicalStream (s_Stream s) = Some c /\
    CanonicalExpiry (s_ExpiresAt s) = Some e /\ CanonicalExpiry (s_ScheduleAt s) = Some h /\
    digest_ok (s_SHA256 s) = true /\ 1 <= s_Size s /\ ascii_text (s_From s) /\ Forall ascii_text (s_Recipients s) /\
    q = MkIdentity (s_From s) (s_Recipients s) (s_SHA256 s) (s_Size s) (if Present b then Some b else None)
          (if String.eqb c "normal" then None else Some c) e h (option_map uuid_text (s_Replaces s)).
Proof.
  unfold identify. destruct (_ || _ || _ || _ || _ || _ || _) eqn:G; [done|].
  destruct (Canonical _) as [b|]; [|done]. destruct (CanonicalStream _) as [c|]; [|done].
  destruct (CanonicalExpiry (s_ExpiresAt s)) as [e|]; [|done]. destruct (CanonicalExpiry (s_ScheduleAt s)) as [h|]; [|done].
  destruct (_ && _ && _); [done|]. intros H. exists b, c, e, h. do 4 (split; [done|]).
  bsimpl. destruct G as [[[[[[G1 G2] _] _] _] G3] G4]. rewrite forallb_forall in G4. split; [done|]. split; [lia|].
  split; [by apply address_ascii|]. split; [apply Forall_forall; intros x Hx; apply address_ascii, G4; by apply list_elem_of_In|].
  destruct (s_Replaces s) as [u|]; [destruct (u =? 0)%N; [done|]|]; by injection H as <-.
Qed.

Lemma identify_proper s q : s_Size s < 2 ^ 63 -> identify s = inr q -> proper q.
Proof.
  intros Hsize H. apply identify_some in H as (b & c & e & h & Hb & Hc & He & Hh & Hd & Hs & Hf & Hr & ->).
  split; simpl; [done|done|by apply digest_ascii|lia|..].
  - intros b'. destruct (Present b); [|done]. intros [= <-]. by eapply Canonical_ascii.
  - intros n. destruct (String.eqb c "normal"); [done|]. intros [= <-]. by eapply stream_ascii.
  - intros t ->. by apply CanonicalExpiry_some in He as [_ ?].
  - intros t ->. by apply CanonicalExpiry_some in Hh as [_ ?].
  - intros u. destruct (s_Replaces s) as [v|]; [|done]. cbn [option_map]. intros Hu. apply (inj Some) in Hu as <-. apply uuid_text_ascii.
Qed.

Lemma absent_business b : Present b = false -> b = MkBusiness "" [].
Proof. unfold Present. intros H. bsimpl. destruct b as [r l]. simpl in *. destruct H as [-> ->]. done. Qed.

Lemma identity_same s s' q : identify s = inr q -> identify s' = inr q -> same_request s s'.
Proof.
  intros H H'. apply identify_some in H as (b & c & e & h & Hb & Hc & He & Hh & _ & _ & _ & _ & ->).
  apply identify_some in H' as (b' & c' & e' & h' & Hb' & Hc' & He' & Hh' & _ & _ & _ & _ & E).
  injection E as E1 E2 E3 E4 E5 E6 <- <- E9. unfold same_request. do 4 (split; [done|]). rewrite Hb, Hb', Hc, Hc'.
  split; [|split; [|split; [by eapply CanonicalExpiry_inj|split; [by eapply CanonicalExpiry_inj|done]]]].
  - destruct (Present b) eqn:P, (Present b') eqn:P'; try done. by rewrite (absent_business b P), (absent_business b' P').
  - destruct (String.eqb_spec c "normal") as [->|], (String.eqb_spec c' "normal") as [->|]; by simplify_eq.
Qed.

Lemma same_identity s s' q q' : same_request s s' -> identify s = inr q -> identify s' = inr q' -> q = q'.
Proof.
  intros (E1 & E2 & E3 & E4 & E5 & E6 & E7 & E8 & E9) H H'.
  apply identify_some in H as (b & c & e & h & Hb & Hc & He & Hh & _ & _ & _ & _ & ->).
  apply identify_some in H' as (b' & c' & e' & h' & Hb' & Hc' & He' & Hh' & _ & _ & _ & _ & ->).
  assert (Hexp : forall z z' o o', z_at z = z_at z' -> CanonicalExpiry z = Some o -> CanonicalExpiry z' = Some o' -> o = o').
  { intros z z' o o' Ez Ho Ho'. destruct o as [t|], o' as [t'|].
    - apply CanonicalExpiry_some in Ho as [? _]. apply CanonicalExpiry_some in Ho' as [? _]. congruence.
    - unfold CanonicalExpiry in Ho. apply CanonicalExpiry_none in Ho'. by rewrite Ez, Ho' in Ho.
    - unfold CanonicalExpiry in Ho'. apply CanonicalExpiry_none in Ho. by rewrite <- Ez, Ho in Ho'.
    - done. }
  assert (b = b') as <- by congruence. assert (c = c') as <- by congruence.
  rewrite (Hexp _ _ _ _ E7 He He'), (Hexp _ _ _ _ E8 Hh Hh'). congruence.
Qed.

Lemma bytes_of_inj a b : bytes_of a = bytes_of b -> a = b.
Proof. intros E. apply (f_equal string_of_list_byte) in E. unfold bytes_of in E. by rewrite !string_of_list_byte_of_string in E. Qed.

(** The documents of two requests are different and SHA-256 does not tell them apart. *)
Definition documents_collide (s s' : Submission) : Prop :=
  match identify s, identify s' with
  | inr q, inr q' => bytes_of (marshal_request q) <> bytes_of (marshal_request q') /\
                     Sha.Sum256 (bytes_of (marshal_request q)) = Sha.Sum256 (bytes_of (marshal_request q'))
  | _, _ => False
  end.

(** The fingerprint identifies the request.  Of two valid submissions, the
    same sender, ordered recipients, message digest and size, and the same
    canonical reference, tags, stream, deadline, schedule and replacement give
    the same fingerprint, whatever their identifiers, paths and times; and the
    same fingerprint means all of these agree, unless SHA-256 itself collides
    on the two documents. *)
Theorem fingerprint_identifies s s' f f' :
  s_Size s < 2 ^ 63 -> s_Size s' < 2 ^ 63 -> RequestFingerprint s = inr f -> RequestFingerprint s' = inr f' ->
  (same_request s s' -> f = f') /\
  (f = f' -> same_request s s' \/ documents_collide s s').
Proof.
  intros Hs Hs' H H'. unfold RequestFingerprint, documents_collide in *.
  destruct (identify s) as [?|q] eqn:E; [done|]. destruct (identify s') as [?|q'] eqn:E'; [done|]. injection H as <-. injection H' as <-.
  split; [intros Hsame; by rewrite (same_identity _ _ _ _ Hsame E E')|].
  intros Hd. unfold digest_request in Hd. apply EncodeToString_inj in Hd.
  destruct (decide (bytes_of (marshal_request q) = bytes_of (marshal_request q'))) as [Eq|Hne]; [|by right].
  left. apply bytes_of_inj in Eq.
  assert (q = q') as <- by exact (marshal_inj q q' (identify_proper s q Hs E) (identify_proper s' q' Hs' E') Eq).
  by eapply identity_same.
Qed.

End Requests.

(** ** Two requests *)

Definition plain_addresses : MailParser := fun s => Some (EmptyString, s).

(** The message of the first, with a deadline in a zone of its own, against the
    same message sent again with another identifier. *)
Definition demo_request (id : UUID) (offset : Z) : Submission :=
  MkSubmission None Zero (MkZoned (738000 * 24 * Hour) offset) "otp" (MkBusiness "order-1" ["b"; "a"]%string) id None
    "f@example.com" ["a@example.org"]%string "" 42 (EncodeToString (repeat xaa 32)) "" "" "" 0 0.

Lemma fingerprint_identifies_witness :
  RequestFingerprint (addresses := plain_addresses) (demo_request 1 0)
  = RequestFingerprint (addresses := plain_addresses) (demo_request 2 7200).
Proof.
  destruct (RequestFingerprint (addresses := plain_addresses) (demo_request 1 0)) as [|f] eqn:E; [vm_compute in E; discriminate|].
  destruct (RequestFingerprint (addresses := plain_addresses) (demo_request 2 7200)) as [|f'] eqn:E'; [vm_compute in E'; discriminate|].
  destruct (fingerprint_identifies (addresses := plain_addresses) (demo_request 1 0) (demo_request 2 7200) f f' eq_refl eq_refl E E') as [H _].
  f_equal. apply H. repeat split.
Defined.

End Fingerprint.
