(* ===== verification/ApiReceive.v ===== *)
(** * Receiving a message from a website: [internal/message/api_receive.go]

    [APIReceiver.ReceiveReplacing] checks the request, takes a private snapshot
    of the message while it is read, and hands the submission to the
    idempotent transaction, inside which the archive is published.

    The body of the request is an [io.Reader] as in [SmtpStream]; what the
    system calls answer is the argument [io].  The ledger is read once before
    the transaction, on the connection that holds the advisory lock of the key:
    [seen] is the database at that time, [db] the one the transaction finds. *)

From S2P Require Import Prelude Sha256 GoText TextFacts JsonText Calendar Delivery SmtpStream SmtpClient Provider Database Auth Suppression Message Storage Queue QueueOps MessageOps Worker Demo Frames SubmitRules Receive Fingerprint.

Module ApiReceive.

Import Message Fingerprint.

Inductive ApiErr := Submission_ (e : DBErr) | Refused (e : Receive.RecvErr) | TooLarge | Busy | Cancelled | Unreadable | Failed.

(** What the system answers to one request *)
Record Io := MkIo {
  io_acquired : bool;           (* Resources.Acquire *)
  io_temp : bool;               (* os.CreateTemp, os.Remove *)
  io_write : nat -> bool;       (* writing the snapshot, per read *)
  io_rewind : bool;             (* f.Seek before the header *)
  io_header : Receive.Ending;   (* how reading the snapshot back ends *)
  io_conn : bool;               (* DB.Conn *)
  io_lock : option bool;        (* pg_try_advisory_lock: failed, or its answer *)
  io_ledger : bool;             (* the query of the ledger *)
  io_again : bool;              (* f.Seek before the archive *)
  io_id : option UUID;          (* uuid.NewV7 *)
  io_received : Time; io_archived : Time }.

(** The error of the transaction: that of the archive when the callback failed *)
Definition submission_error (saved : Storage.StoreErr + Storage.Archive) (e : DBErr) : ApiErr :=
  match saved, e with
  | inl s, ErrText text => if String.eqb text "archive" then Refused (Receive.ErrArchive s) else Submission_ e
  | _, _ => Submission_ e
  end.

(** ** The snapshot *)

(** The loop over [limited.Read]: the bytes so far, whether the last one was a
    CR, and the last one.  More than [MaxBytes] in all is an error, so the
    limit of the reader, one byte more, only shortens a read that fails. *)
Fixpoint snapshot_loop (MaxBytes : Z) (write : nat -> bool) (k : nat) (acc : list byte) (s : Scan) (r : Reader)
  : ApiErr + list byte * Scan :=
  match r with
  | [] => inr (acc, s)
  | step :: rest =>
      if rd_cancelled step then inl Cancelled
      else if (0 <? length (rd_data step))%nat && (MaxBytes <? Z.of_nat (length acc + length (rd_data step))) then inl TooLarge
      else match scan_bytes s (rd_data step) with
      | None => inl (Refused Receive.ErrInvalidMessage)
      | Some s' =>
          if (0 <? length (rd_data step))%nat && negb (write k) then inl Failed
          else match rd_err step with
          | EOF => inr (acc ++ rd_data step, s')
          | ReadFailed => inl Unreadable
          | NoReadError => snapshot_loop MaxBytes write (S k) (acc ++ rd_data step) s' rest
          end
      end
  end.

Definition snapshot (MaxBytes : Z) (write : nat -> bool) (r : Reader) : ApiErr + list byte :=
  match snapshot_loop MaxBytes write 0 [] (MkScan false false false) r with
  | inl e => inl e
  | inr (data, s) => if previousCR s || negb (lastLF s) then inl (Refused Receive.ErrInvalidMessage) else inr data
  end.

(** ** The request *)

Definition key_ok (key : string) : bool :=
  (1 <=? String.length key)%nat && (String.length key <=? 128)%nat
  && all_chars (fun c => (33 <=? N_of_ascii c)%N && (N_of_ascii c <=? 126)%N) key.

Section Receiver.
  Context {addresses : MailParser} {headers : Receive.HeaderParser}.

(** The checks of the options, in their order; the canonical business data and
    stream *)
Definition options (key stream : string) (expiresAt scheduleAt : Zoned) (replaces : option UUID) (business : list Business)
  : DBErr + Business * string :=
  if match replaces with Some id => (id =? 0)%N | None => false end then inl ErrInvalidSubmission
  else if negb (not_null (CanonicalExpiry scheduleAt)) then inl ErrInvalidSubmission
  else if negb (IsZero (z_at scheduleAt)) && negb (IsZero (z_at expiresAt)) && negb (After (z_at expiresAt) (z_at scheduleAt))
  then inl ErrInvalidSchedule
  else if negb (not_null (CanonicalExpiry expiresAt)) then inl ErrInvalidSubmission
  else match CanonicalStream stream with
  | None => inl ErrInvalidSubmission
  | Some stream =>
      if (1 <? length business)%nat then inl ErrInvalidSubmission
      else match Canonical (match business with b :: _ => b | [] => MkBusiness "" [] end) with
      | None => inl ErrInvalidSubmission
      | Some correlation => if negb (key_ok key) then inl ErrInvalidSubmission else inr (correlation, stream)
      end
  end.

(** Everything before the database: the submission, its fingerprint and the
    snapshot. *)
Definition prepare (io : Io) (MaxBytes : Z) (account : Auth.Account) (from : string) (rcpts : list string) (r : Reader)
    (key stream : string) (expiresAt scheduleAt : Zoned) (replaces : option UUID) (business : list Business)
  : ApiErr + Submission * string * list byte :=
  match options key stream expiresAt scheduleAt replaces business with
  | inl e => inl (Submission_ e)
  | inr (correlation, stream) =>
      if negb (Auth.Allows account from) then inl (Refused Receive.ErrSenderDenied)
      else if (MaxBytes <? 1) || (100 * 2 ^ 20 <? MaxBytes) then inl (Submission_ ErrInvalidSubmission)
      else if negb (io_acquired io) then inl (Refused Receive.ErrResources)
      else if negb (io_temp io) then inl Failed
      else match snapshot MaxBytes (io_write io) r with
      | inl e => inl e
      | inr data =>
          if negb (io_rewind io) then inl Failed
          else match Receive.readHeader data (io_header io) with
          | inl e => inl (Refused e)
          | inr (header, _) =>
              match Receive.metadata header account with
              | inl e => inl (Refused e)
              | inr (mid, author, subject) =>
                  let s := MkSubmission replaces scheduleAt expiresAt stream correlation 0 (Some (Auth.ac_ID account)) from
                             rcpts "" (Z.of_nat (length data)) (EncodeToString (Sha.Sum256 data)) mid author subject 0 0 in
                  match RequestFingerprint s with
                  | inl e => inl (Submission_ e)
                  | inr fingerprint => inr (s, fingerprint, data)
                  end
              end
          end
      end
  end.

(** [ReceiveReplacing]; [root], [limit] and [calls] are those of the store. *)
Definition ReceiveReplacing (io : Io) (MaxBytes : Z) (root : string) (limit : Z) (calls : Storage.Calls) (w : World)
    (account : Auth.Account) (from : string) (rcpts : list string) (r : Reader) (identity : UUID)
    (key stream : string) (expiresAt scheduleAt : Zoned) (replaces : option UUID) (business : list Business)
    (seen : DB) (fs : Storage.Files) (db : DB) : (ApiErr + EnqueueResult) * Storage.Files * DB :=
  match prepare io MaxBytes account from rcpts r key stream expiresAt scheduleAt replaces business with
  | inl e => (inl e, fs, db)
  | inr (s, fingerprint, data) =>
      let keyHash := EncodeToString (Sha.Sum256 (bytes_of key)) in
      if negb (io_conn io) then (inl Failed, fs, db)
      else match io_lock io with
      | None => (inl Failed, fs, db)
      | Some false => (inl Busy, fs, db)
      | Some true =>
          if negb (io_ledger io) then (inl Failed, fs, db)
          else match api_submission_ledger seen !! (identity, keyHash) with
          | Some l =>
              if String.eqb (lg_request_sha256 l) fingerprint
              then (inr (MkEnqueueResult (lg_message_id l) true), fs, db)
              else (inl (Submission_ ErrIdempotencyConflict), fs, db)
          | None =>
              if negb (io_again io) then (inl Failed, fs, db)
              else match io_id io with
              | None => (inl Failed, fs, db)
              | Some id =>
                  let s := s <| s_ID := id |> <| s_ReceivedAt := io_received io |> in
                  let (saved, fs') := Storage.Save root limit calls id (io_received io) data fs in
                  let archive := match saved with
                                 | inr a => Some (Storage.Path a, Storage.Size a, Storage.SHA256 a)
                                 | inl _ => None
                                 end in
                  (* the callback runs when the transaction gets past the admission *)
                  let published := match admission s identity keyHash fingerprint w (0%nat, db) with
                                   | inr (None, _) => true
                                   | _ => false
                                   end in
                  let (result, db') := transact w (enqueueIdempotent s identity keyHash fingerprint
                                                    (Some (publish_archive archive (io_archived io)))) db in
                  (match result with inl e => inl (submission_error saved e) | inr x => inr x end, if published then fs' else fs, db')
              end
          end
      end
  end.

(** The shorter forms *)
Definition ReceiveScheduled io MaxBytes root limit calls w account from rcpts r identity key stream expiresAt scheduleAt business :=
  ReceiveReplacing io MaxBytes root limit calls w account from rcpts r identity key stream expiresAt scheduleAt None business.
Definition ReceiveExpiring io MaxBytes root limit calls w account from rcpts r identity key stream expiresAt business :=
  ReceiveScheduled io MaxBytes root limit calls w account from rcpts r identity key stream expiresAt Zero business.
Definition ReceiveStream io MaxBytes root limit calls w account from rcpts r identity key stream business :=
  ReceiveExpiring io MaxBytes root limit calls w account from rcpts r identity key stream Zero business.
Definition Receive io MaxBytes root limit calls w account from rcpts r identity key business :=
  ReceiveStream io MaxBytes root limit calls w account from rcpts r identity key "normal" business.

(** [EnqueueIdempotent]: the same transaction for a submission that is archived already *)
Definition EnqueueIdempotent (s : Submission) (apiKey : UUID) (key : string) : M (TxEnd EnqueueResult) :=
  if negb (key_ok key) then raise ErrInvalidSubmission
  else match RequestFingerprint s with
  | inl e => raise e
  | inr fingerprint => enqueueIdempotent s apiKey (EncodeToString (Sha.Sum256 (bytes_of key))) fingerprint None
  end.

End Receiver.

(** ** The snapshot is the canonical message *)

(** What a reader gives until it ends. *)
Fixpoint delivered (r : Reader) : list byte :=
  match r with
  | [] => []
  | step :: rest => rd_data step ++ match rd_err step with NoReadError => delivered rest | _ => [] end
  end.

Lemma snapshot_loop_spec MaxBytes write k acc s r data s' :
  snapshot_loop MaxBytes write k acc s r = inr (data, s') -> Z.of_nat (length acc) <= MaxBytes ->
  data = acc ++ delivered r /\ scan_bytes s (delivered r) = Some s' /\ Z.of_nat (length data) <= MaxBytes.
Proof.
  revert k acc s. induction r as [|step rest IH]; intros k acc s; cbn [snapshot_loop delivered].
  - intros [= <- <-] Hacc. by rewrite app_nil_r.
  - destruct (rd_cancelled step); [done|].
    destruct ((0 <? length (rd_data step))%nat && (MaxBytes <? Z.of_nat (length acc + length (rd_data step)))) eqn:Hsize; [done|].
    destruct (scan_bytes s (rd_data step)) as [s1|] eqn:Hs; [|done].
    destruct ((0 <? length (rd_data step))%nat && negb (write k)); [done|]. intros H Hacc.
    assert (Hlen : Z.of_nat (length (acc ++ rd_data step)) <= MaxBytes).
    { rewrite length_app. apply andb_false_iff in Hsize as [Hz|Hz]; [apply Nat.ltb_ge in Hz|apply Z.ltb_ge in Hz]; lia. }
    rewrite scan_bytes_app, Hs. destruct (rd_err step).
    + destruct (IH _ _ _ H Hlen) as (-> & H2 & H3). by rewrite <- app_assoc in *.
    + injection H as <- <-. by rewrite app_nil_r.
    + done.
Qed.

Lemma snapshot_spec MaxBytes write r data :
  0 <= MaxBytes -> snapshot MaxBytes write r = inr data ->
  data = delivered r /\ canonical data /\ Z.of_nat (length data) <= MaxBytes.
Proof.
  intros Hmax. unfold snapshot. destruct (snapshot_loop _ _ _ _ _ _) as [e|[d s]] eqn:E; [done|].
  apply snapshot_loop_spec in E as (Hd & Hs & Hl); [|simpl; lia]. destruct (_ || _) eqn:Hend; [done|]. intros [= ->].
  simpl in Hd. rewrite <- Hd in *. split; [done|]. split; [|done]. bsimpl. destruct Hend as [_ Hlf].
  assert (Hne : data <> []) by (intros ->; injection Hs as <-; done).
  destruct (scan_split data false false false s Hs Hlf Hne) as (ls & Hpl & Hls & ->). by exists ls.
Qed.

(** ** What the transaction leaves *)

(** The submission of the callback: archived, without an account. *)
Definition archived (s : Submission) (path : string) (data : list byte) (now : Time) : Submission :=
  s <| s_Path := path |> <| s_Size := Z.of_nat (length data) |> <| s_SHA256 := EncodeToString (Sha.Sum256 data) |>
    <| s_ArchivedAt := now |> <| s_Account := None |>.

Lemma enqueueIdempotent_queues s apiKey keyHash fingerprint save db0 :
  (forall s', save s = Some s' -> s_ID s' = s_ID s) ->
  triple (fun db => db = db0) (enqueueIdempotent s apiKey keyHash fingerprint (Some save))
    (fun r db => match r with
                 | Commit (inr x) =>
                     exists s' db2 environment, save s = Some s' /\
                       Receive.entered (s' <| s_Account := None |>) "api" environment (Some apiKey)
                         (Receive.first_status environment) db2 (s_Recipients s') db
                 | Commit (inl _) => False
                 | Rollback r => exists x, r = inr x /\ er_Replayed x = true
                 end).
Proof.
  intros Hid. unfold enqueueIdempotent.
  step (fun (r : option EnqueueResult) (_ : DB) => match r with Some x => er_Replayed x = true | None => True end).
  { unfold admission. step (fun (_ : bool) (_ : DB) => True); [apply triple_any|]. destruct (negb a).
    - step (fun (_ : Ledger) (_ : DB) => True); [apply triple_any|]. step (fun (_ : unit) (_ : DB) => True); [apply triple_any|].
      by apply triple_return.
    - do 2 (step (fun (_ : unit) (_ : DB) => True); [apply triple_any|]). by apply triple_return. }
  destruct a as [x|]; [apply triple_return; eauto|].
  step (fun s' (_ : DB) => save s = Some s').
  { destruct (save s) as [s'|]; [by apply triple_return|apply triple_raise]. }
  apply triple_from. intros db2 Hsave.
  eapply triple_bind; [apply Receive.enqueueTx_queues|]. intros [].
  apply triple_from. intros db3 (environment & _ & HE). simpl in HE.
  set (E := Receive.entered (a <| s_Account := None |>) "api" environment (Some apiKey) (Receive.first_status environment)
              db2 (s_Recipients a)) in *.
  step (fun (_ : unit) => E); [|apply triple_return; intros db HE'; by exists a, db2, environment].
  destruct (s_Replaces s); [|apply triple_return; by intros db ->].
  apply (triple_conseq E _ _ (fun _ => E)); [|by intros db ->|done]. rewrite <- (Hid a Hsave).
  refine (Receive.close_message (a <| s_Account := None |>) "api" environment (Some apiKey) (Receive.first_status environment)
            db2 (s_Recipients a) _ _ _).
  intros t m (? & ? & ? & ? & ? & ? & ? & ? & ? & ? & ?). done.
Qed.

(** A new submission commits only past the admission; a repeated one is
    answered by it. *)
Lemma admission_passed s apiKey keyHash fingerprint publish w db e k d :
  enqueueIdempotent s apiKey keyHash fingerprint publish w (0%nat, db) = inr (e, (k, d)) ->
  match admission s apiKey keyHash fingerprint w (0%nat, db) with
  | inr (None, _) => e = Commit (inr (MkEnqueueResult (s_ID s) false))
  | inr (Some y, _) => e = Rollback (inr y)
  | inl _ => False
  end.
Proof.
  unfold enqueueIdempotent. unfold mbind at 1, M_bind at 1.
  destruct (admission _ _ _ _ _ _) as [e'|[[y|] [n d']]]; [done|by intros [= <- _ _]|].
  match goal with |- context [?f w (n, d')] => set (rest := f) end.
  assert (Ht : triple (fun _ => True) rest (fun r _ => r = Commit (inr (MkEnqueueResult (s_ID s) false)))).
  { unfold rest. step (fun (_ : Submission) (_ : DB) => True); [apply triple_any|].
    do 2 (step (fun (_ : unit) (_ : DB) => True); [apply triple_any|]). by apply triple_return. }
  intros E. exact (Ht _ _ _ _ _ _ I E).
Qed.

Section Reception.
  Context {addresses : MailParser} {headers : Receive.HeaderParser}.

Lemma prepare_spec io MaxBytes account from rcpts r key stream expiresAt scheduleAt replaces business s fingerprint data :
  prepare io MaxBytes account from rcpts r key stream expiresAt scheduleAt replaces business = inr (s, fingerprint, data) ->
  data = delivered r /\ canonical data /\ Z.of_nat (length data) <= MaxBytes /\ Auth.Allows account from = true /\
  RequestFingerprint s = inr fingerprint /\ s_From s = from /\ s_Recipients s = rcpts /\ s_Replaces s = replaces /\
  s_SHA256 s = EncodeToString (Sha.Sum256 data) /\ s_Size s = Z.of_nat (length data) /\
  exists header rest mid author subject, data = header ++ rest /\ Receive.metadata header account = inr (mid, author, subject).
Proof.
  unfold prepare. destruct (options _ _ _ _ _ _) as [e|[correlation st]]; [done|].
  destruct (Auth.Allows account from) eqn:Ha; [|done]. cbn [negb].
  destruct ((MaxBytes <? 1) || (100 * 2 ^ 20 <? MaxBytes)) eqn:Hm; [done|].
  destruct (io_acquired io); [|done]. destruct (io_temp io); [|done]. cbn [negb].
  destruct (snapshot MaxBytes (io_write io) r) as [e|d] eqn:Es; [done|]. destruct (io_rewind io); [|done]. cbn [negb].
  destruct (Receive.readHeader d (io_header io)) as [e|[header rest]] eqn:Eh; [done|].
  destruct (Receive.metadata header account) as [e|[[mid author] subject]] eqn:Em; [done|].
  destruct (RequestFingerprint _) as [e|f] eqn:Ef; [done|]. intros [= <- <- <-].
  apply snapshot_spec in Es as (H1 & H2 & H3); [|apply orb_false_iff in Hm as [Hm _]; lia].
  apply Receive.readHeader_split in Eh. do 4 (split; [done|]). split; [exact Ef|]. do 5 (split; [done|]).
  exists header, rest, mid, author, subject. done.
Qed.

Definition key_hash (key : string) : string := EncodeToString (Sha.Sum256 (bytes_of key)).

(** How the body of the transaction of a prepared submission ends, files included *)
Lemma submit_result io root limit calls w identity keyHash s fingerprint data fs db id saved fs1 e k d :
  s_ID s = id ->
  Storage.Save root limit calls id (io_received io) data fs = (saved, fs1) ->
  enqueueIdempotent s identity keyHash fingerprint
    (Some (publish_archive (match saved with
                            | inr a => Some (Storage.Path a, Storage.Size a, Storage.SHA256 a)
                            | inl _ => None
                            end) (io_archived io))) w (0%nat, db) = inr (e, (k, d)) ->
  let path := Storage.archive_path root (io_received io) id in
  match e with
  | Rollback r => exists y st l, admission s identity keyHash fingerprint w (0%nat, db) = inr (Some y, st) /\
      api_submission_ledger db !! (identity, keyHash) = Some l /\ lg_request_sha256 l = fingerprint /\
      r = inr (MkEnqueueResult (lg_message_id l) true)
  | Commit r =>
    r = inr (MkEnqueueResult id false) /\ (exists st, admission s identity keyHash fingerprint w (0%nat, db) = inr (None, st)) /\
    fs !! path = None /\ fs1 = <[path := data]> fs /\ Z.of_nat (length data) <= limit /\
    api_submission_ledger db !! (identity, keyHash) = None /\
    api_submission_ledger d !! (identity, keyHash) = Some (MkLedger fingerprint id) /\
    exists environment db2, Receive.entered (archived s path data (io_archived io)) "api" environment (Some identity)
      (Receive.first_status environment) db2 (s_Recipients s) d
  end.
Proof.
  intros Hid Hsave Hrun path. pose proof (admission_passed _ _ _ _ _ _ _ _ _ _ Hrun) as Hadm.
  pose proof (enqueueIdempotent_submits w s identity keyHash fingerprint _ db _ _ _ _ _ eq_refl Hrun) as Hsub.
  set (save := publish_archive _ _) in Hrun.
  assert (Hkeep : forall s', save s = Some s' -> s_ID s' = s_ID s).
  { intros s'. unfold save, publish_archive. destruct saved as [e'|a]; [done|]. by intros [= <-]. }
  pose proof (enqueueIdempotent_queues s identity keyHash fingerprint save db Hkeep _ _ _ _ _ _ eq_refl Hrun) as Hq.
  destruct (admission _ _ _ _ _ _) as [e'|[[y|] st]] eqn:Ead; [done| |]; subst e.
  - destruct Hsub as (l & Hl & Hfp & ->). by exists (MkEnqueueResult (lg_message_id l) true), st, l.
  - destruct Hsub as (_ & Hnone & Hled & _). destruct Hq as (s' & db2 & environment & Hs' & HE).
    pose proof (Storage.Save_result _ _ _ _ _ _ _ _ _ Hsave) as Hres. destruct saved as [e'|a]; [done|].
    destruct Hres as (Hfree & Hfs & Ha & Hlim). split; [by rewrite Hid|]. split; [by eexists|]. do 3 (split; [done|]). split; [done|].
    split; [rewrite Hled, lookup_insert_eq; by rewrite Hid|]. exists environment, db2.
    unfold save, publish_archive in Hs'. subst a. injection Hs' as <-. exact HE.
Qed.

Local Ltac fails := intros [= <- <- <-]; split; [done|split; [by left|by intros []]].

(** A new message: the file and the rows *)
Definition new_message io root limit from (rcpts : list string) identity key (mid : UUID) fingerprint data (fs : Storage.Files) db (fs' : Storage.Files) db' : Prop :=
  let path := Storage.archive_path root (io_received io) mid in
  fs !! path = None /\ fs' = <[path := data]> fs /\
  api_submission_ledger db !! (identity, key_hash key) = None /\
  api_submission_ledger db' !! (identity, key_hash key) = Some (MkLedger fingerprint mid) /\
  exists m, messages db' !! mid = Some m /\ m_source_type m = "api"%string /\
    m_api_key_id m = Some identity /\ m_smtp_account_id m = None /\ m_envelope_from m = from /\
    m_eml_path m = path /\ m_eml_size m = Z.of_nat (length data) /\
    m_eml_sha256 m = EncodeToString (Sha.Sum256 data) /\
    (forall a, a ∈ rcpts -> Receive.recipient_entered (Receive.first_status (m_environment m)) mid a db') /\
    (forall j, Queue.j_Path j = m_eml_path m -> Queue.j_Size j = m_eml_size m -> Queue.j_SHA256 j = m_eml_sha256 m ->
       Worker.readVerified limit j true (fs' !! Queue.j_Path j) = Some data).

(** What a submission did, from its answer: with an error the database is as
    it was, except that a commit whose answer was lost has entered the message. *)
Definition submission_outcome io MaxBytes root limit w account from rcpts r identity key stream expiresAt scheduleAt
    replaces business seen (fs : Storage.Files) db (res : ApiErr + EnqueueResult) (fs' : Storage.Files) db' : Prop :=
  match res with
  | inr x =>
      exists s fingerprint data,
        prepare io MaxBytes account from rcpts r key stream expiresAt scheduleAt replaces business = inr (s, fingerprint, data) /\
        data = delivered r /\ canonical data /\ Z.of_nat (length data) <= MaxBytes /\ Auth.Allows account from = true /\
        if er_Replayed x then
          fs' = fs /\ db' = db /\ exists l, lg_request_sha256 l = fingerprint /\ lg_message_id l = er_MessageID x /\
            (api_submission_ledger seen !! (identity, key_hash key) = Some l \/
             api_submission_ledger db !! (identity, key_hash key) = Some l)
        else new_message io root limit from rcpts identity key (er_MessageID x) fingerprint data fs db fs' db'
  | inl e =>
      fs ⊆ fs' /\
      (db' = db \/ e = Submission_ ErrSQL /\ w_commit w = CommitUncertain /\ exists s fingerprint data mid,
         prepare io MaxBytes account from rcpts r key stream expiresAt scheduleAt replaces business = inr (s, fingerprint, data) /\
         new_message io root limit from rcpts identity key mid fingerprint data fs db fs' db') /\
      (fs' <> fs -> exists s fingerprint data id st,
         prepare io MaxBytes account from rcpts r key stream expiresAt scheduleAt replaces business = inr (s, fingerprint, data) /\
         admission (s <| s_ID := id |> <| s_ReceivedAt := io_received io |>) identity (key_hash key) fingerprint w (0%nat, db)
         = inr (None, st))
  end.

(** What [Receive.entered] says, in the words above *)
Lemma entered_new io root limit from rcpts identity key id fingerprint data s environment fs db db2 d :
  s_ID s = id -> s_From s = from -> s_Recipients s = rcpts ->
  let path := Storage.archive_path root (io_received io) id in
  fs !! path = None -> Z.of_nat (length data) <= limit -> api_submission_ledger db !! (identity, key_hash key) = None ->
  api_submission_ledger d !! (identity, key_hash key) = Some (MkLedger fingerprint id) ->
  Receive.entered (archived s path data (io_archived io)) "api" environment (Some identity) (Receive.first_status environment) db2 (s_Recipients s) d ->
  new_message io root limit from rcpts identity key id fingerprint data fs db (<[path := data]> fs) d.
Proof.
  intros Hid Hfrom Hrc path Hfree Hlim Hnone Hled [[(m & Hm & Hrow) _] HR]. unfold new_message. fold path.
  do 4 (split; [done|]). destruct Hrow as (R1 & R2 & R3 & R4 & _ & R6 & R7 & R8 & R9 & _ & _). cbn in Hm. rewrite Hid in Hm.
  exists m. split; [done|]. do 3 (split; [done|]).
  split; [rewrite R4; exact Hfrom|]. do 3 (split; [done|]). split.
  - intros a Hin. rewrite R9. rewrite <- Hid. apply (HR a). by rewrite Hrc.
  - intros j E1 E2 E3. rewrite E1, R6. simpl. rewrite lookup_insert_eq.
    apply (Receive.readVerified_archive limit j path data); [rewrite E2; exact R7|rewrite E3; exact R8|done].
Qed.

Lemma ReceiveReplacing_outcome io MaxBytes root limit calls w account from rcpts r identity key stream expiresAt scheduleAt
    replaces business seen fs db res fs' db' :
  ReceiveReplacing io MaxBytes root limit calls w account from rcpts r identity key stream expiresAt scheduleAt
    replaces business seen fs db = (res, fs', db') ->
  submission_outcome io MaxBytes root limit w account from rcpts r identity key stream expiresAt scheduleAt
    replaces business seen fs db res fs' db'.
Proof.
  unfold ReceiveReplacing, submission_outcome.
  destruct (prepare _ _ _ _ _ _ _ _ _ _ _ _) as [e|[[s fingerprint] data]] eqn:Ep; [fails|].
  apply prepare_spec in Ep as Hp. destruct Hp as (Hd & Hc & Hl & Ha & Hf & Hfrom & Hrc & _ & _ & _ & _).
  fold (key_hash key). unfold new_message. set (kh := key_hash key) in *.
  destruct (io_conn io); [|fails]. destruct (io_lock io) as [[]|]; [|fails|fails]. destruct (io_ledger io); [|fails]. cbn [negb].
  destruct (api_submission_ledger seen !! (identity, kh)) as [l|] eqn:El.
  { destruct (String.eqb_spec (lg_request_sha256 l) fingerprint) as [Efp|]; [|fails]. intros [= <- <- <-].
    exists s, fingerprint, data. do 5 (split; [done|]). cbn [er_Replayed er_MessageID]. do 2 (split; [done|]).
    exists l. split; [done|]. split; [done|]. by left. }
  destruct (io_again io); [|fails]. destruct (io_id io) as [id|]; [|fails]. cbn [negb].
  set (s1 := s <| s_ID := id |> <| s_ReceivedAt := io_received io |>).
  destruct (Storage.Save root limit calls id (io_received io) data fs) as [saved fs1] eqn:Hsave.
  assert (Hsub : fs ⊆ fs1).
  { pose proof (Storage.Save_result _ _ _ _ _ _ _ _ _ Hsave) as Hres. destruct saved; [by destruct Hres|].
    destruct Hres as (Hn & -> & _). by apply insert_subseteq. }
  unfold transact. set (body := enqueueIdempotent _ _ _ _ _). destruct (body w (0%nat, db)) as [e|[e [k d]]] eqn:Hrun.
  { intros [= <- <- <-]. destruct (admission s1 identity kh fingerprint w (0%nat, db)) as [e'|[[y|] st]] eqn:Ead;
      (split; [done|split; [by left|]]); [by intros []|by intros []|]. intros _. by exists s, fingerprint, data, id, st. }
  pose proof (submit_result io root limit calls w identity kh s1 fingerprint data fs db id saved fs1 e k d eq_refl Hsave Hrun) as Hres.
  cbv zeta in Hres. destruct e as [r'|r'].
  - destruct Hres as (-> & (st & Hadm) & Hfree & -> & Hlim & Hnone & Hled & environment & db2 & HE).
    pose proof (entered_new io root limit from rcpts identity key id fingerprint data s1 environment fs db db2 d eq_refl Hfrom Hrc
      Hfree Hlim Hnone Hled HE) as Hnew.
    rewrite Hadm. destruct (w_commit w); intros [= <- <- <-].
    + exists s, fingerprint, data. do 5 (split; [done|]). exact Hnew.
    + split; [done|]. split; [by left|]. intros _. by exists s, fingerprint, data, id, st.
    + split; [done|]. split; [right|intros _; by exists s, fingerprint, data, id, st]. destruct saved; (split; [done|split; [done|]]);
        exists s, fingerprint, data, id; (split; [done|exact Hnew]).
  - destruct Hres as (y & st & l & -> & Hl1 & Hl2 & ->). intros [= <- <- <-]. exists s, fingerprint, data. do 5 (split; [done|]).
    cbn [er_Replayed er_MessageID]. do 2 (split; [done|]). exists l. split; [done|]. split; [done|]. by right.
Qed.

(** A website's message: accepted means durable, once per key.  Whenever
    [ReceiveReplacing] reports success, the body read is whole, canonical
    (CRLF lines, so it can be transmitted as it is) and within the limit, from
    an allowed sender.  A new message: the archive holds exactly these bytes in
    one new file, and one transaction entered the key with the request's
    fingerprint in the ledger, the message with that file's path, size and
    digest, and every recipient; a job reads back the very bytes.  A repeated
    one: the key was in the ledger with the same fingerprint, the answer is its
    message, and neither files nor database change.  On any failure existing
    files are untouched, a file is added only if the transaction admitted the
    submission, and the database is as it was, unless the commit's answer was
    lost and the whole message was entered. *)
Theorem website_submission io MaxBytes root limit calls w account from rcpts r identity key stream expiresAt scheduleAt
    replaces business seen fs db res fs' db' :
  ReceiveReplacing io MaxBytes root limit calls w account from rcpts r identity key stream expiresAt scheduleAt
    replaces business seen fs db = (res, fs', db') ->
  submission_outcome io MaxBytes root limit w account from rcpts r identity key stream expiresAt scheduleAt
    replaces business seen fs db res fs' db'.
Proof. apply ReceiveReplacing_outcome. Qed.

End Reception.

(** ** A message from a website, in two reads *)

Definition site_body : list byte := bytes_of "From: f@example.com" ++ [CR; LF; CR; LF] ++ bytes_of "hi" ++ [CR; LF].
Definition site_reader : Reader := [MkRead false (firstn 20 site_body) NoReadError; MkRead false (skipn 20 site_body) EOF].
Definition site_io (id : UUID) : Io :=
  MkIo true true (fun _ => true) true Receive.EOF true (Some true) true true (Some id) demo_day (demo_day + Second).

Definition site_receive (id : UUID) (seen : DB) (fs : Storage.Files) (db : DB) :=
  ReceiveReplacing (addresses := Receive.demo_addresses) (headers := Receive.demo_headers) (site_io id) 1000 "data" 1000
    Storage.demo_calls (demo_world (demo_day + Second) 9000) Receive.demo_account "f@example.com" ["a@example.org"]%string
    site_reader 50 "k1" "normal" Zero Zero None [] seen fs db.

Definition site_first := site_receive 300 site_db ∅ site_db.

Example site_again :
  fst (fst (site_receive 301 (snd site_first) (snd (fst site_first)) (snd site_first))) = inr (MkEnqueueResult 300 true).
Proof. vm_compute. reflexivity. Qed.

Lemma website_submission_witness :
  snd (fst site_first) = <[Storage.archive_path "data" demo_day 300 := delivered site_reader]> ∅.
Proof.
  destruct (website_submission (addresses := Receive.demo_addresses) (headers := Receive.demo_headers) (site_io 300) 1000 "data"
    1000 Storage.demo_calls (demo_world (demo_day + Second) 9000) Receive.demo_account "f@example.com" ["a@example.org"]%string
    site_reader 50 "k1" "normal" Zero Zero None [] site_db ∅ site_db (inr (MkEnqueueResult 300 false)) (snd (fst site_first))
    (snd site_first)) as (s & f & data & _ & -> & _ & _ & _ & H); [vm_compute; reflexivity|].
  cbv zeta in H. apply H.
Defined.

End ApiReceive.
