(* ===== verification/Paging.v ===== *)
(** * Pages of a table

    [WHERE id>after ORDER BY id LIMIT n]: the rows after a cursor in the order
    of their identifiers, and that going on from the last row of a page visits
    every row exactly once. *)

From S2P Require Import Prelude GoText Delivery SmtpClient Provider Database.
From stdpp Require Import sorting.

Section Paging.
  Context {R : Type}.

Definition id_leb (x y : UUID * R) : bool := (fst x <=? fst y)%N.

(** [WHERE id>after ORDER BY id] *)
Definition rows_after (after : UUID) (t : gmap UUID R) : list (UUID * R) :=
  sort_by id_leb (select (fun id _ => (after <? id)%N) t).

Definition before (x y : UUID * R) : Prop := id_leb x y = true.

Lemma elem_rows_after after t id r : (id, r) ∈ rows_after after t <-> t !! id = Some r /\ (after < id)%N.
Proof. unfold rows_after. rewrite elem_sort_by, elem_select. by rewrite N.ltb_lt. Qed.

Lemma rows_after_nodup after t : NoDup (rows_after after t).
Proof. unfold rows_after. rewrite (sort_by_perm id_leb). apply (NoDup_fmap_1 fst), select_nodup. Qed.

Lemma rows_after_sorted after t : StronglySorted before (rows_after after t).
Proof. apply sort_by_sorted; unfold id_leb; intros *; rewrite ?N.leb_le; lia. Qed.

(** The rows after the last row of a page are the rest. *)
Lemma rows_after_next after t n x :
  last (firstn n (rows_after after t)) = Some x -> rows_after (fst x) t = skipn n (rows_after after t).
Proof.
  set (L := rows_after after t). intros Hx. pose proof (rows_after_sorted after t) as Hs. fold L in Hs.
  pose proof (rows_after_nodup after t) as Hnd. fold L in Hnd. rewrite <- (firstn_skipn n L) in Hs, Hnd.
  apply last_Some in Hx as [l Hl]. rewrite Hl in Hs, Hnd.
  assert (Hxin : x ∈ L) by (rewrite <- (firstn_skipn n L), Hl; set_solver).
  apply StronglySorted_app in Hs as (Hcross & Hleft & Hright). apply NoDup_app in Hnd as (_ & Hdisj & Hndr).
  destruct x as [xid xr]. assert (Hlook := proj1 (elem_rows_after after t xid xr) Hxin). simpl.
  apply (StronglySorted_unique_strong before); [| |done|].
  - intros [i1 r1] [i2 r2] H1 H2 B1 B2. apply elem_rows_after in H1 as [H1 _].
    assert (Hin : (i2, r2) ∈ L) by (rewrite <- (firstn_skipn n L); apply elem_of_app; by right).
    apply elem_rows_after in Hin as [Hin _]. unfold before, id_leb in B1, B2. simpl in B1, B2. apply N.leb_le in B1, B2.
    assert (i1 = i2) as -> by lia. congruence.
  - apply rows_after_sorted.
  - apply NoDup_Permutation; [apply rows_after_nodup|done|]. intros [i r]. rewrite elem_rows_after. split.
    + intros [Hi Hlt]. assert (Hin : (i, r) ∈ L) by (apply elem_rows_after; split; [done|lia]).
      rewrite <- (firstn_skipn n L), Hl in Hin. apply elem_of_app in Hin as [Hin|Hin]; [|done]. exfalso.
      apply elem_of_app in Hin as [Hin|Hin].
      * apply StronglySorted_app in Hleft as (Hc & _ & _). specialize (Hc (i, r) (xid, xr) Hin ltac:(by left)).
        unfold before, id_leb in Hc. simpl in Hc. apply N.leb_le in Hc. lia.
      * apply list_elem_of_singleton in Hin. injection Hin as -> ->. lia.
    + intros Hin. assert (HL : (i, r) ∈ L) by (rewrite <- (firstn_skipn n L); apply elem_of_app; by right).
      apply elem_rows_after in HL as [Hi _]. split; [done|].
      assert (Hx : (xid, xr) ∈ l ++ [(xid, xr)]) by (apply elem_of_app; right; by left).
      specialize (Hcross _ _ Hx Hin). unfold before, id_leb in Hcross. simpl in Hcross. apply N.leb_le in Hcross.
      destruct (decide (i = xid)) as [->|Hne]; [|lia]. destruct Hlook as [Hlook _]. rewrite Hi in Hlook. injection Hlook as ->.
      by destruct (Hdisj _ Hx).
Qed.

End Paging.
