(* ===== verification/Retention.v ===== *)
(** * Retention of archives: [internal/operations/cleanup.go], [lifecycle.go]

    [Cleanup] removes the files of finished messages after a number of days:
    a committed intent, the removal, a committed completion.
    [LifecyclePreflight] explains, without changing anything, what holds a
    message's file.

    Every statement outside a transaction runs in a transaction of its own.
    The root directory and the recorded paths are absolute and clean, so the
    path relative to the root is what follows it, and a path elsewhere is one
    the confined root refuses. *)

From S2P Require Import Prelude GoText Calendar Delivery SmtpClient Provider Database Storage Demo Paging.

(** [uuid.Parse] of github.com/google/uuid *)
Class UuidParser := ParseUUID : string -> option UUID.

Module Retention.

Record Retention := MkRetention {
  EMLDays : Z; DebugDays : Z; Batch : Z; Apply : bool; Actor : string; Now : Time }.
#[export] Instance eta_Retention : Eta Retention := fun p =>
  MkRetention (EMLDays p) (DebugDays p) (Batch p) (Apply p) (Actor p) (Now p).

Record CleanupItem := MkCleanupItem { ci_ID : UUID; ci_State : string; ci_path : string }.
Record CleanupReport := MkCleanupReport {
  DryRun : bool; Archives : list CleanupItem; DebugCandidates : Z; Purged : Z; DebugCleared : Z;
  Failures : list UUID }.
#[export] Instance eta_CleanupReport : Eta CleanupReport := fun r =>
  MkCleanupReport (DryRun r) (Archives r) (DebugCandidates r) (Purged r) (DebugCleared r) (Failures r).

(** ** Which messages *)

Definition terminal_statuses : list Status :=
  [SMTP_ACCEPTED; PERM_FAILED; DELIVERED; BOUNCED; SUPPRESSED; CANCELLED; EXPIRED; SANDBOX_STORED].

Definition attempt_open (mid : UUID) (db : DB) : bool :=
  exists_row (fun _ a => bool_decide (a_message_id a = mid) && bool_decide (a_result a = IN_PROGRESS)) (delivery_attempts db).

Definition unresolved (mid : UUID) (db : DB) : bool :=
  exists_row (fun _ r => bool_decide (r_message_id r = mid)
    && (one_of (r_status r) [QUEUED; SENDING; TEMP_FAILED; DELIVERY_UNKNOWN]
        || (bool_decide (r_status r = EXPIRED)
            && bool_decide (json_text (r_decision r) "may_have_delivered" = Some (TBool true))))) (recipients db).

Definition terminal (mid : UUID) (m : Message) (db : DB) : bool :=
  one_of (m_status m) terminal_statuses && is_null (m_locked_by m) && negb (attempt_open mid db) && negb (unresolved mid db).

Definition published (mid : UUID) (db : DB) : bool :=
  exists_row (fun _ l => bool_decide (fl_message_id l = mid)) (feedback_links db).
Definition in_ledger (mid : UUID) (db : DB) : bool :=
  exists_row (fun _ l => bool_decide (lg_message_id l = mid)) (api_submission_ledger db).
Definition notifying (mid : UUID) (db : DB) : bool :=
  exists_row (fun _ w => bool_decide (ob_message_id w = mid) && one_of (ob_state w) [HookPending; HookInFlight; HookDead])
    (webhook_outbox db).
Definition unreviewed (db : DB) : bool :=
  exists_row (fun id _ => is_null (feedback_reviews db !! id)) (feedback_reports db).

Definition retentionDependencies (mid : UUID) (m : Message) (db : DB) : bool :=
  is_null (m_idempotency_key m) && negb (published mid db) && negb (in_ledger mid db) && negb (notifying mid db)
  && negb (unreviewed db).

(** [c < t] *)
Definition lt_time (c : option Time) (t : Time) : bool := match c with Some x => x <? t | None => false end.

Definition available (m : Message) : bool := String.eqb (m_archive_state m) "AVAILABLE".
Definition pending (m : Message) : bool := String.eqb (m_archive_state m) "PURGE_PENDING".

Definition retentionCandidate (cutoff : Time) (mid : UUID) (m : Message) (db : DB) : bool :=
  (available m && lt_time (m_completed_at m) cutoff && retentionDependencies mid m db) || pending m.

(** [t.AddDate(0, 0, -days)] in UTC *)
Definition days_before (t : Time) (days : Z) : Time := t - days * (24 * Hour).

Definition ErrBounds : DBErr :=
  ErrText "retention days must be 0..36500 and batch 1..1000; 0 days disables that cleanup".

(** [validateRetention], [now] being the time it takes by default *)
Definition validateRetention (now : Time) (p : Retention) : DBErr + Retention :=
  let p := if IsZero (Now p) then p <| Now := now |> else p in
  let p := if String.eqb (Actor p) "" then p <| Actor := "local_cli"%string |> else p in
  if (EMLDays p <? 0) || (DebugDays p <? 0) || (36500 <? EMLDays p) || (36500 <? DebugDays p) || (Batch p <? 1) || (1000 <? Batch p)
  then inl ErrBounds else inr p.

(** [ORDER BY completed_at,id]: NULL last *)
Definition completed_leb (x y : UUID * Message) : bool :=
  match m_completed_at (snd x), m_completed_at (snd y) with
  | Some a, Some b => (a <? b) || ((a =? b) && (fst x <=? fst y)%N)
  | Some _, None => true
  | None, Some _ => false
  | None, None => (fst x <=? fst y)%N
  end.

Definition candidates (p : Retention) (db : DB) : list CleanupItem :=
  map (fun km => MkCleanupItem (fst km) (m_archive_state (snd km)) (m_eml_path (snd km)))
    (limit (Z.to_nat (Batch p)) (sort_by completed_leb
      (select (fun mid m => terminal mid m db && retentionCandidate (days_before (Now p) (EMLDays p)) mid m db) (messages db)))).

(** ** Debug logs *)

Definition debug_due (p : Retention) (a : Attempt) : bool :=
  lt_time (a_finished_at a) (days_before (Now p) (DebugDays p)) && negb (bool_decide (a_result a = IN_PROGRESS))
  && not_null (a_raw_debug_log a).

Definition finished_leb (x y : UUID * Attempt) : bool :=
  match a_finished_at (snd x), a_finished_at (snd y) with
  | Some a, Some b => (a <? b) || ((a =? b) && (fst x <=? fst y)%N)
  | Some _, None => true
  | None, Some _ => false
  | None, None => (fst x <=? fst y)%N
  end.

(** The rows of the SELECT; [skip] are those another transaction has locked. *)
Definition debug_rows (p : Retention) (skip : UUID -> bool) (db : DB) : list UUID :=
  map fst (limit (Z.to_nat (Batch p)) (sort_by finished_leb
    (select (fun aid a => debug_due p a && negb (skip aid)) (delivery_attempts db)))).

(** ** Writing *)

(** [auditTx]; [Audit] does the same outside a transaction *)
Definition auditTx (action actor : string) (data : json) : M unit :=
  id ← fresh;
  stmt (fun _ db => rows ← insert_row id (MkAudit action actor data) (maintenance_audit db);
                    Some (tt, db <| maintenance_audit := rows |>)).
Definition Audit (action actor : string) (data : json) : M (TxEnd unit) :=
  auditTx action actor data;; mret (Commit (inr tt)).

Definition message_data (mid : UUID) : json := JObj [("message_id", JId mid)]%string.

(** The three stages of [purge]: the intent, *)
Definition purge_intent (mid : UUID) (p : Retention) : M (TxEnd string) :=
  query_row (fun _ db => messages db !! mid);;
  path ← stmt (fun _ db =>
    match messages db !! mid with
    | Some m =>
        if terminal mid m db && retentionCandidate (days_before (Now p) (EMLDays p)) mid m db
        then Some (Some (m_eml_path m),
                   db <| messages := <[mid := m <| m_archive_state := "PURGE_PENDING"%string |>]> (messages db) |>)
        else Some (None, db)
    | None => Some (None, db)
    end);
  path ← match path with Some path => mret path | None => raise ErrNoRows end;
  auditTx "ARCHIVE_PURGE_PENDING" (Actor p) (message_data mid);;
  mret (Commit (inr path)).

(** the removal (the answers of the system calls are [FileCalls]), *)
Record FileCalls := MkFileCalls { fc_open : bool; fc_remove : bool; fc_sync : bool }.

Definition confined (root path : string) : bool := HasPrefix path (root ++ "/").

Definition purge_files (root path : string) (calls : FileCalls) (fs : Storage.Files) : bool * Storage.Files :=
  if negb (fc_open calls) then (false, fs)
  else if negb (confined root path) then (false, fs)
  else if not_null (fs !! path) && negb (fc_remove calls) then (false, fs)
  else (fc_sync calls, delete path fs).

(** and the completion. *)
Definition purge_complete (mid : UUID) (p : Retention) : M (TxEnd unit) :=
  exec (fun t db => db <| messages := update (fun k m => bool_decide (k = mid) && pending m)
    (fun m => m <| m_archive_state := "PURGED"%string |> <| m_eml_purged_at := Some (at_now t) |>) (messages db) |>);;
  id ← fresh;
  record_event id (fun t => MkEventRow mid None None "ARCHIVE_PURGED" (at_now t) "maintenance" (JObj []) None);;
  auditTx "ARCHIVE_PURGED" (Actor p) (message_data mid);;
  mret (Commit (inr tt)).

Definition purge (w1 w2 : World) (calls : FileCalls) (root : string) (mid : UUID) (p : Retention)
    (fs : Storage.Files) (db : DB) : (DBErr + unit) * Storage.Files * DB :=
  match transact w1 (purge_intent mid p) db with
  | (inl e, db1) => (inl e, fs, db1)
  | (inr path, db1) =>
      match purge_files root path calls fs with
      | (false, fs1) => (inl (ErrText "file"), fs1, db1)
      | (true, fs1) => let (r, db2) := transact w2 (purge_complete mid p) db1 in (r, fs1, db2)
      end
  end.

Definition clear_debug (p : Retention) : M (TxEnd Z) :=
  n ← stmt (fun t db => let rows := debug_rows p (at_skip t) db in
    Some (Z.of_nat (length rows),
          db <| delivery_attempts := update (fun aid _ => one_of aid rows) (fun a => a <| a_raw_debug_log := None |>)
                                       (delivery_attempts db) |>));
  auditTx "DEBUG_LOGS_PURGED" (Actor p)
    (JObj [("before", JNum (days_before (Now p) (DebugDays p))); ("count", JNum n)]%string);;
  mret (Commit (inr n)).

(** ** [Cleanup] *)

(** The connection, the advisory lock, and the worlds of the transactions of
    one run; [nat] numbers the messages. *)
Record Run := MkRun {
  rn_conn : bool; rn_lock : option bool; rn_now : Time; rn_select : World; rn_count : World; rn_started : World;
  rn_intent : nat -> World; rn_complete : nat -> World; rn_failed : nat -> World; rn_files : nat -> FileCalls;
  rn_debug : World; rn_finished : World }.

Definition report_json (r : CleanupReport) : json :=
  JObj (app [("dry_run", JBool (DryRun r));
         ("archives", JArr (map (fun i => JObj [("message_id", JId (ci_ID i)); ("archive_state", JStr (ci_State i))]) (Archives r)));
         ("debug_candidates", JNum (DebugCandidates r)); ("purged_archives", JNum (Purged r));
         ("debug_logs_cleared", JNum (DebugCleared r))]
        match Failures r with [] => [] | l => [("failed_message_ids", JArr (map JId l))] end)%string.

(** The loop over the archives: the report, or the audit that failed. *)
Fixpoint purge_all (rn : Run) (k : nat) (root : string) (p : Retention) (items : list CleanupItem) (report : CleanupReport)
    (fs : Storage.Files) (db : DB) : option DBErr * CleanupReport * Storage.Files * DB :=
  match items with
  | [] => (None, report, fs, db)
  | item :: rest =>
      match purge (rn_intent rn k) (rn_complete rn k) (rn_files rn k) root (ci_ID item) p fs db with
      | (inr _, fs1, db1) => purge_all rn (S k) root p rest (report <| Purged := Purged report + 1 |>) fs1 db1
      | (inl _, fs1, db1) =>
          let report := report <| Failures := Failures report ++ [ci_ID item] |> in
          match transact (rn_failed rn k) (Audit "ARCHIVE_PURGE_FAILED" (Actor p) (message_data (ci_ID item))) db1 with
          | (inl e, db2) => (Some e, report, fs1, db2)
          | (inr _, db2) => purge_all rn (S k) root p rest report fs1 db2
          end
      end
  end.

Definition read_only {A} (f : DB -> A) : M (TxEnd A) := r ← query (fun _ db => f db); mret (Commit (inr r)).

(** What follows the loop. *)
Definition clear_and_finish (rn : Run) (p : Retention) (report : CleanupReport) (db : DB) : option DBErr * CleanupReport * DB :=
  let '(stop, report, db) :=
    if 0 <? DebugDays p then
      match transact (rn_debug rn) (clear_debug p) db with
      | (inl e, db1) => (Some e, report, db1)
      | (inr n, db1) => (None, report <| DebugCleared := n |>, db1)
      end
    else (None, report, db) in
  match stop with
  | Some e => (Some e, report, db)
  | None =>
      match transact (rn_finished rn) (Audit "CLEANUP_FINISHED" (Actor p) (report_json report)) db with
      | (inl e, db1) => (Some e, report, db1)
      | (inr _, db1) =>
          (match Failures report with [] => None | _ => Some (ErrText "archive purges failed; pending files can be retried") end,
           report, db1)
      end
  end.

Definition Cleanup (rn : Run) (root : string) (p : Retention) (fs : Storage.Files) (db : DB)
  : option DBErr * CleanupReport * Storage.Files * DB :=
  let report := MkCleanupReport (negb (Apply p)) [] 0 0 0 [] in
  match validateRetention (rn_now rn) p with
  | inl e => (Some e, report, fs, db)
  | inr p =>
      if negb (rn_conn rn) then (Some ErrSQL, report, fs, db)
      else match rn_lock rn with
      | None => (Some ErrSQL, report, fs, db)
      | Some false => (Some (ErrText "another cleanup is running"), report, fs, db)
      | Some true =>
          match (if 0 <? EMLDays p then fst (transact (rn_select rn) (read_only (candidates p)) db) else inr []) with
          | inl e => (Some e, report, fs, db)
          | inr items =>
              let report := report <| Archives := items |> in
              match (if 0 <? DebugDays p
                     then fst (transact (rn_count rn) (read_only (fun db => Z.of_nat (length (debug_rows p (fun _ => false) db)))) db)
                     else inr 0) with
              | inl e => (Some e, report, fs, db)
              | inr n =>
                  let report := report <| DebugCandidates := n |> in
                  if negb (Apply p) then (None, report, fs, db)
                  else match transact (rn_started rn) (Audit "CLEANUP_STARTED" (Actor p)
                         (JObj [("batch", JNum (Batch p)); ("debug_days", JNum (DebugDays p)); ("eml_days", JNum (EMLDays p))]%string)) db with
                  | (inl e, db1) => (Some e, report, fs, db1)
                  | (inr _, db1) =>
                      match purge_all rn 0 root p items report fs db1 with
                      | (Some e, report, fs2, db2) => (Some e, report, fs2, db2)
                      | (None, report, fs2, db2) =>
                          let '(err, report, db3) := clear_and_finish rn p report db2 in (err, report, fs2, db3)
                      end
                  end
              end
          end
      end
  end.

(** ** [LifecyclePreflight] *)

Record LifecycleOptions := MkLifecycleOptions { lo_EMLDays : Z; lo_Limit : Z; lo_After : string; lo_AsOf : Time }.
Record LifecycleItem := MkLifecycleItem {
  li_MessageID : UUID; li_Status : Status; li_ArchiveState : string; li_EMLDisposition : string; li_Reasons : list string }.
Record LifecycleReport := MkLifecycleReport {
  lr_ReadOnly : bool; lr_DeletionAuthorized : bool; lr_AsOf : Time; lr_EMLDays : Z; lr_Items : list LifecycleItem;
  lr_HasMore : bool; lr_NextAfter : option UUID; lr_UnreviewedFeedback : bool; lr_MetadataDisposition : string }.

(** [hold]: the reasons whose condition holds, in order *)
Definition holds (l : list (bool * string)) : list string := map snd (List.filter fst l).

Definition hold_reasons (days : Z) (asOf : Time) (unreviewedFeedback : bool) (mid : UUID) (m : Message) (db : DB) : list string :=
  holds [((days =? 0)%Z, "RETENTION_DISABLED");
         (negb (one_of (m_status m) terminal_statuses), "NON_TERMINAL_MESSAGE");
         (not_null (m_locked_by m), "MESSAGE_LEASE");
         (attempt_open mid db, "ATTEMPT_IN_PROGRESS");
         (unresolved mid db, "RECIPIENT_UNRESOLVED");
         (is_null (m_completed_at m), "COMPLETION_UNRECORDED");
         (match m_completed_at m with Some c => negb (Before c (days_before asOf days)) | None => false end, "RETENTION_WINDOW");
         (in_ledger mid db || not_null (m_idempotency_key m), "IDEMPOTENCY_REFERENCE");
         (notifying mid db, "WEBHOOK_REQUIRES_REVIEW");
         (published mid db, "MANUAL_FEEDBACK_HISTORY");
         (unreviewedFeedback, "UNSCOPED_FEEDBACK_REVIEW");
         (negb (String.eqb (m_archive_state m) "AVAILABLE"), "ARCHIVE_NOT_AVAILABLE")]%string.

Definition lifecycle_item (days : Z) (asOf : Time) (unreviewedFeedback : bool) (db : DB) (km : UUID * Message) : LifecycleItem :=
  let reasons := hold_reasons days asOf unreviewedFeedback (fst km) (snd km) db in
  MkLifecycleItem (fst km) (m_status (snd km)) (m_archive_state (snd km))
    (match reasons with [] => "REVIEW_CANDIDATE" | _ => "RETAIN" end) reasons.

(** The loop over the rows: it stops at the row after the limit. *)
Fixpoint lifecycle_page (limit : nat) (rows : list (UUID * Message)) : list (UUID * Message) * bool :=
  match rows with
  | [] => ([], false)
  | row :: rest => match limit with
                   | O => ([], true)
                   | S k => let (items, more) := lifecycle_page k rest in (row :: items, more)
                   end
  end.

Section Lifecycle.
  Context {parser : UuidParser}.

(** [ok]: no statement failed; [now] is [transaction_timestamp()]. *)
Definition LifecyclePreflight (ok : bool) (now : Time) (p : LifecycleOptions) (db : DB) : DBErr + LifecycleReport :=
  if (lo_EMLDays p <? 0) || (36500 <? lo_EMLDays p) || (lo_Limit p <? 1) || (1000 <? lo_Limit p)
  then inl (ErrText "invalid lifecycle bounds")
  else match (if String.eqb (lo_After p) "" then Some 0%N else ParseUUID (lo_After p)) with
  | None => inl (ErrText "invalid lifecycle cursor")
  | Some after =>
      if negb ok then inl ErrSQL
      else
        let asOf := if IsZero (lo_AsOf p) then now else lo_AsOf p in
        let year := fst (fst (civil asOf)) in
        if After asOf now || (year <? 1) || (9999 <? year) then inl (ErrText "invalid lifecycle as-of")
        else
          let rows := limit (Z.to_nat (lo_Limit p + 1)) (rows_after after (messages db)) in
          let (items, more) := lifecycle_page (Z.to_nat (lo_Limit p)) rows in
          inr (MkLifecycleReport true false asOf (lo_EMLDays p)
                 (map (lifecycle_item (lo_EMLDays p) asOf (unreviewed db) db) items) more
                 (option_map fst (last items)) (unreviewed db) "RETAIN_ALL")
  end.

(** ** What the preview says *)

Lemma lifecycle_page_spec n rows :
  lifecycle_page n rows = (firstn n rows, (n <? length rows)%nat).
Proof.
  revert n. induction rows as [|row rows IH]; intros [|n]; simpl; [done|done|done|]. by rewrite IH.
Qed.

(** Nothing holds the message exactly when a cleanup of that age would select it. *)
Lemma hold_reasons_none days asOf mid m db :
  hold_reasons days asOf (unreviewed db) mid m db = [] <->
  days <> 0 /\ terminal mid m db && (available m && lt_time (m_completed_at m) (days_before asOf days)
                                     && retentionDependencies mid m db) = true.
Proof.
  unfold hold_reasons, holds, terminal, retentionDependencies, lt_time, Before, available.
  assert (Hnil : forall l : list (bool * string), map snd (List.filter fst l) = [] <-> Forall (fun x => fst x = false) l).
  { induction l as [|[[] r] l IH]; simpl; rewrite ?Forall_cons; naive_solver. }
  rewrite Hnil, !Forall_cons. simpl. bsimpl.
  destruct (m_locked_by m), (m_completed_at m), (m_idempotency_key m); simpl; bsimpl; naive_solver.
Qed.

(** The preview agrees with the cleanup, and paging is exact.  A page of
    [LifecyclePreflight] lists the messages after the cursor in the order of
    their identifiers, as many as asked for; it says whether more follow, and
    continuing from its last item gives exactly the rest, so a walk visits
    every message once.  An item is a REVIEW_CANDIDATE exactly when no reason
    is given, and exactly when the message is one that a cleanup with the same
    age would newly select; the report never authorises a deletion. *)
Theorem lifecycle_agrees ok now p db r :
  LifecyclePreflight ok now p db = inr r ->
  lr_ReadOnly r = true /\ lr_DeletionAuthorized r = false /\
  exists after, (if String.eqb (lo_After p) "" then Some 0%N else ParseUUID (lo_After p)) = Some after /\
  let rows := rows_after after (messages db) in let n := Z.to_nat (lo_Limit p) in
  map li_MessageID (lr_Items r) = map fst (firstn n rows) /\
  (lr_HasMore r = true <-> (n < length rows)%nat) /\
  (forall next, lr_NextAfter r = Some next -> rows_after next (messages db) = skipn n rows) /\
  (lr_NextAfter r = None -> rows = []) /\
  (forall item, item ∈ lr_Items r -> exists m, messages db !! li_MessageID item = Some m /\
     (li_EMLDisposition item = "REVIEW_CANDIDATE"%string <-> li_Reasons item = []) /\
     (li_EMLDisposition item = "REVIEW_CANDIDATE"%string <->
        lo_EMLDays p <> 0 /\ available m = true /\ terminal (li_MessageID item) m db = true /\
        retentionCandidate (days_before (lr_AsOf r) (lo_EMLDays p)) (li_MessageID item) m db = true)).
Proof.
  unfold LifecyclePreflight. destruct (_ || _ || _ || _) eqn:Eb; [done|].
  assert (Hlim : 1 <= lo_Limit p) by (rewrite !orb_false_iff, !Z.ltb_ge in Eb; tauto). clear Eb.
  destruct (if String.eqb _ _ then _ else _) as [after|]; [|done]. destruct (negb ok); [done|].
  cbv zeta. destruct (After _ now || _ || _); [done|].
  unfold limit. set (rows := rows_after after (messages db)). rewrite lifecycle_page_spec. intros [= <-]. cbn [lr_ReadOnly lr_DeletionAuthorized lr_Items lr_HasMore lr_NextAfter lr_AsOf].
  assert (Hn : (0 < Z.to_nat (lo_Limit p))%nat) by lia.
  replace (Z.to_nat (lo_Limit p + 1)) with (S (Z.to_nat (lo_Limit p))) by lia.
  set (n := Z.to_nat (lo_Limit p)) in *.
  assert (Hf : firstn n (firstn (S n) rows) = firstn n rows) by (rewrite firstn_firstn; f_equal; lia). rewrite Hf.
  do 2 (split; [done|]). exists after. split; [done|]. cbv zeta. fold rows n. repeat split.
  - rewrite map_map. by apply map_ext.
  - intros H. apply Nat.ltb_lt in H. rewrite length_firstn in H. lia.
  - intros H. apply Nat.ltb_lt. rewrite length_firstn. lia.
  - intros next. destruct (last (firstn n rows)) as [x|] eqn:E; [|done]. intros [= <-]. by apply rows_after_next.
  - intros H. destruct (last (firstn n rows)) as [x|] eqn:E; [done|]. apply last_None in E. destruct rows as [|y l]; [done|]. destruct n; [lia|done].
  - intros item Hin. apply list_elem_of_In, in_map_iff in Hin as ([mid m] & <- & Hin). apply list_elem_of_In in Hin.
    assert (Hrow : (mid, m) ∈ rows) by (rewrite <- (firstn_skipn n rows); apply elem_of_app; by left).
    apply elem_rows_after in Hrow as [Hm _]. exists m. split; [done|].
    cbn [lifecycle_item li_EMLDisposition li_Reasons li_MessageID fst snd].
    pose proof (hold_reasons_none (lo_EMLDays p) (if IsZero (lo_AsOf p) then now else lo_AsOf p) mid m db) as Hnone.
    set (reasons := hold_reasons _ _ _ _ _ _) in *. clearbody reasons.
    assert (Hr : match reasons with [] => "REVIEW_CANDIDATE"%string | _ => "RETAIN"%string end = "REVIEW_CANDIDATE"%string <-> reasons = [])
      by (by destruct reasons). split; [done|]. rewrite Hr, Hnone. unfold retentionCandidate.
    rewrite !andb_true_iff, orb_true_iff, !andb_true_iff.
    assert (Hp : available m = true -> pending m <> true).
    { unfold available, pending. intros H. apply String.eqb_eq in H. by rewrite H. }
    naive_solver.
Qed.

End Lifecycle.

(** ** A queued message is held for three reasons *)

Definition lifecycle_demo (p : LifecycleOptions) : DBErr + LifecycleReport :=
  LifecyclePreflight (parser := fun _ => None) true (demo_day + Hour) p demo_db.

Example lifecycle_example :
  match lifecycle_demo (MkLifecycleOptions 30 10 "" 0) with
  | inr r => map (fun i => (li_MessageID i, li_Reasons i)) (lr_Items r)
             = [(100%N, ["NON_TERMINAL_MESSAGE"; "RECIPIENT_UNRESOLVED"; "COMPLETION_UNRECORDED"]%string)]
  | inl _ => False
  end.
Proof. vm_compute. reflexivity. Qed.

Lemma lifecycle_agrees_witness :
  match lifecycle_demo (MkLifecycleOptions 30 10 "" 0) with
  | inr r => lr_DeletionAuthorized r = false
  | inl _ => False
  end.
Proof.
  destruct (lifecycle_demo (MkLifecycleOptions 30 10 "" 0)) as [e|r] eqn:E; [vm_compute in E; discriminate E|].
  destruct (lifecycle_agrees (parser := fun _ => None) true (demo_day + Hour) (MkLifecycleOptions 30 10 "" 0) demo_db r) as (_ & H & _);
    [exact E|exact H].
Defined.

End Retention.
