(* ===== verification/Reclaim.v ===== *)
(** * Reclaiming archives without a message: [internal/operations/archive_recovery.go]

    [ObserveArchive] records a file no message refers to; [ReclaimArchive]
    removes it a day later: a committed retirement of its identifier, which
    the database then refuses to every message, and only then the removal.

    As in [Retention], the root is absolute and clean.  A file is what its
    path names: that two paths are links to one file is an answer of the
    system. *)

From S2P Require Import Prelude Sha256 GoText Delivery SmtpClient Provider Database Storage Retention.

Module Reclaim.

Definition archiveRecoveryMax : Z := 100 * 2 ^ 20.

Record ArchiveObservation := MkArchiveObservation {
  ob_ID : option UUID; ob_ArchiveID : UUID; ob_Path : string; ob_Size : Z; ob_SHA256 : string }.
#[export] Instance eta_ArchiveObservation : Eta ArchiveObservation := fun o =>
  MkArchiveObservation (ob_ID o) (ob_ArchiveID o) (ob_Path o) (ob_Size o) (ob_SHA256 o).

(** ** The path of an archive: [2006/01/02/<uuid>.eml] *)

(** [n] digits *)
Fixpoint fixed (n : nat) (acc : Z) (s : string) : option Z :=
  match n, s with
  | O, EmptyString => Some acc
  | S k, String c rest => match digit c with Some d => fixed k (acc * 10 + d) rest | None => None end
  | _, _ => None
  end.

Definition leap (y : Z) : bool := ((y mod 4 =? 0) && negb (y mod 100 =? 0)) || (y mod 400 =? 0).
Definition days_in (y m : Z) : Z :=
  if m =? 2 then (if leap y then 29 else 28) else if one_of m [4; 6; 9; 11] then 30 else 31.

(** [time.Parse("2006/01/02", ...)] succeeds, and formats as it was *)
Definition day_ok (y m d : string) : bool :=
  match fixed 4 0 y, fixed 2 0 m, fixed 2 0 d with
  | Some y, Some m, Some d => (1 <=? m) && (m <=? 12) && (1 <=? d) && (d <=? days_in y m)
  | _, _, _ => false
  end.

Definition TrimSuffix (s suffix : string) : string :=
  let n := (String.length s - String.length suffix)%nat in
  if String.eqb (drop n s) suffix then take n s else s.

Section Recovery.
  Context {parser : UuidParser}.

(** The identifier in a canonical path *)
Definition archive_identity (path : string) : option UUID :=
  match Split path "/" with
  | [y; m; d; name] =>
      if day_ok y m d then
        let id := TrimSuffix name ".eml" in
        match ParseUUID id with
        | Some u => if String.eqb (uuid_text u) id && String.eqb name (id ++ ".eml") then Some u else None
        | None => None
        end
      else None
  | _ => None
  end.

(** ** Looking at a file *)

Inductive LookErr := NotExist | LookFailed.

(** What the system answers: an error of opening the directory or looking at
    an entry, whether reading went through, whether the file was unchanged. *)
Record Look := MkLook { lk_error : option LookErr; lk_read : bool; lk_same : bool }.

Definition full_path (root path : string) : string := (root ++ "/" ++ path)%string.

Definition recoveryFile (root path : string) (look : Look) (fs : Storage.Files) : LookErr + ArchiveObservation :=
  match archive_identity path with
  | None => inl LookFailed
  | Some id =>
      match lk_error look with
      | Some e => inl e
      | None =>
          match fs !! full_path root path with
          | None => inl NotExist
          | Some content =>
              if archiveRecoveryMax <? Z.of_nat (length content) then inl LookFailed
              else if negb (lk_read look) || negb (lk_same look) then inl LookFailed
              else inr (MkArchiveObservation None id path (Z.of_nat (length content)) (EncodeToString (Sha.Sum256 content)))
          end
      end
  end.

(** ** [ObserveArchive] *)

Definition same_observation (root : string) (o : ArchiveObservation) (row : ObservationRow) : bool :=
  String.eqb (ao_root row) root && String.eqb (ao_path row) (ob_Path o) && (ao_size row =? ob_Size o)
  && String.eqb (ao_sha256 row) (ob_SHA256 o).

(** The transaction of [ObserveArchive]; [root] is the root as it was given. *)
Definition observe (absolute root : string) (o : ArchiveObservation) : M (TxEnd ArchiveObservation) :=
  query (fun _ _ => tt);;
  referenced ← query (fun _ db => exists_row (fun mid m => bool_decide (mid = ob_ArchiveID o)
      || String.eqb (m_eml_path m) (full_path absolute (ob_Path o)) || String.eqb (m_eml_path m) (full_path root (ob_Path o)))
      (messages db));
  if referenced : bool then raise (ErrText "archive has a visible reference")
  else
    known ← query (fun _ db => head (map fst (select (fun _ row => same_observation absolute o row) (archive_observations db))));
    match known with
    | Some id => mret (Commit (inr (o <| ob_ID := Some id |>)))
    | None =>
        count ← query (fun _ db => count_rows (fun _ _ => true) (archive_observations db));
        if 100000 <=? count then raise (ErrText "archive observation capacity reached")
        else
          id ← fresh;
          stmt (fun t db =>
            rows ← insert_row id (MkObservationRow (ob_ArchiveID o) absolute (ob_Path o) (ob_Size o) (ob_SHA256 o) (at_clock t))
                     (archive_observations db);
            Some (tt, db <| archive_observations := rows |>));;
          mret (Commit (inr (o <| ob_ID := Some id |>)))
    end.

Definition ObserveArchive (w : World) (look : Look) (absolute root path : string) (fs : Storage.Files) (db : DB)
  : (option DBErr * option ArchiveObservation) * DB :=
  match recoveryFile absolute path look fs with
  | inl _ => ((Some (ErrText "archive"), None), db)
  | inr o => match transact w (observe absolute root o) db with
             | (inl e, db') => ((Some e, None), db')
             | (inr o, db') => ((None, Some o), db')
             end
  end.

(** ** [ReclaimArchive] *)

Record ArchiveReclaimResult := MkArchiveReclaimResult { rs_Retired : bool; rs_Removed : bool }.

(** The two reads: the observation, with its age, and an earlier retirement *)
Definition reclaim_observation (absolute : string) (observation : UUID) : M (TxEnd (ArchiveObservation * bool)) :=
  r ← query_row (fun t db =>
    match archive_observations db !! observation with
    | Some row =>
        if String.eqb (ao_root row) absolute
        then Some (MkArchiveObservation (Some observation) (ao_archive_id row) (ao_path row) (ao_size row) (ao_sha256 row),
                   ao_observed_at row <=? at_clock t - 24 * Hour)
        else None
    | None => None
    end);
  mret (Commit (inr r)).
Definition reclaim_existing (archive : UUID) : M (TxEnd (option UUID)) :=
  r ← query (fun _ db => option_map rt_observation_id (archive_retirements db !! archive));
  mret (Commit (inr r)).

(** The fence; [same p] that path [p] is another name of the file, [stat]
    that looking at the files went through; [text] is the observation as given,
    which is compared with the database's text of the one on record.  The triggers: a used identifier
    or observation is a violation. *)
Definition retire (absolute : string) (o : ArchiveObservation) (observation : UUID) (text actor reason : string) (apply : bool)
    (stat : bool) (same : string -> bool) : M (TxEnd bool) :=
  query (fun _ _ => tt);;
  referenced ← query (fun _ db => exists_row (fun mid m => bool_decide (mid = ob_ArchiveID o)
      || String.eqb (m_eml_path m) (full_path absolute (ob_Path o)) || same (m_eml_path m)) (messages db));
  if negb stat then raise (ErrText "stat")
  else if referenced : bool then raise (ErrText "archive is referenced; removal refused")
  else if negb apply then mret (Rollback (inr false))
  else
    stmt (fun _ db =>
      if not_null (messages db !! ob_ArchiveID o) then None
      else match archive_retirements db !! ob_ArchiveID o with
           | Some _ => Some (tt, db)
           | None =>
               if exists_row (fun _ r => bool_decide (rt_observation_id r = observation)) (archive_retirements db) then None
               else Some (tt, db <| archive_retirements :=
                                    <[ob_ArchiveID o := MkRetirement observation actor reason]> (archive_retirements db) |>)
           end);;
    chosen ← query_row (fun _ db => option_map rt_observation_id (archive_retirements db !! ob_ArchiveID o));
    if String.eqb (uuid_text chosen) text then mret (Commit (inr true))
    else raise (ErrText "concurrent retirement conflict").

Definition differs (a b : ArchiveObservation) : bool :=
  negb (ob_Size a =? ob_Size b) || negb (String.eqb (ob_SHA256 a) (ob_SHA256 b)).

(** Removing the file after the fence: it is looked at once more.  [remove]
    and [sync] are the answers of the calls. *)
Definition unlink (absolute : string) (o : ArchiveObservation) (look : Look) (remove : bool) (fs : Storage.Files)
  : bool * Storage.Files :=
  match recoveryFile absolute (ob_Path o) look fs with
  | inl _ => (false, fs)
  | inr current =>
      if differs current o then (false, fs)
      else if remove then (true, delete (full_path absolute (ob_Path o)) fs) else (false, fs)
  end.

Definition reclaimed (archive : UUID) : M (TxEnd unit) :=
  exec (fun _ db => db <| archive_reclaims := {[archive]} ∪ archive_reclaims db |>);;
  mret (Commit (inr tt)).

Definition signed (actor reason : string) : bool :=
  negb ((String.length (TrimSpace actor) <? 1)%nat || (128 <? String.length actor)%nat
        || (String.length (TrimSpace reason) <? 1)%nat || (1000 <? String.length reason)%nat).

(** The answers and worlds of one call *)
Record Reclaiming := MkReclaiming {
  rc_lookup : World; rc_existing : World; rc_first : Look; rc_fence : World; rc_stat : bool; rc_same : string -> bool;
  rc_second : Look; rc_remove : bool; rc_sync : bool; rc_done : World }.

Definition ReclaimArchive (io : Reclaiming) (absolute observation actor reason : string) (apply : bool)
    (fs : Storage.Files) (db : DB) : option DBErr * ArchiveReclaimResult * Storage.Files * DB :=
  let fail (e : string) retired fs db := (Some (ErrText e), MkArchiveReclaimResult retired false, fs, db) in
  match ParseUUID observation with
  | None => fail "uuid"%string false fs db
  | Some id =>
      if apply && negb (signed actor reason) then fail "actor and reason required"%string false fs db
      else match fst (transact (rc_lookup io) (reclaim_observation absolute id) db) with
      | inl e => (Some e, MkArchiveReclaimResult false false, fs, db)
      | inr (o, old) =>
          if negb old then fail "observation must age at least 24 hours"%string false fs db
          else match fst (transact (rc_existing io) (reclaim_existing (ob_ArchiveID o)) db) with
          | inl e => (Some e, MkArchiveReclaimResult false false, fs, db)
          | inr existing =>
              if match existing with Some e => negb (String.eqb (uuid_text e) observation) | None => false end
              then fail "different retirement evidence exists"%string false fs db
              else
                let retired := not_null existing in
                let inspected := recoveryFile absolute (ob_Path o) (rc_first io) fs in
                let usable := match inspected with
                              | inl NotExist => retired
                              | inl LookFailed => false
                              | inr current => negb (differs current o)
                              end in
                if negb usable then fail "archive"%string retired fs db
                else match transact (rc_fence io) (retire absolute o id observation actor reason apply (rc_stat io) (rc_same io)) db with
                | (inl e, db1) => (Some e, MkArchiveReclaimResult retired false, fs, db1)
                | (inr false, db1) => (None, MkArchiveReclaimResult retired false, fs, db1)
                | (inr true, db1) =>
                    let '(removed, fs1) := match inspected with
                                           | inr _ => unlink absolute o (rc_second io) (rc_remove io) fs
                                           | inl _ => (true, fs)
                                           end in
                    if negb removed || negb (rc_sync io) then fail "unlink"%string true fs1 db1
                    else match transact (rc_done io) (reclaimed (ob_ArchiveID o)) db1 with
                    | (inl e, db2) => (Some e, MkArchiveReclaimResult true false, fs1, db2)
                    | (inr _, db2) => (None, MkArchiveReclaimResult true true, fs1, db2)
                    end
                end
          end
      end
  end.

End Recovery.

End Reclaim.
