(* ===== verification/ArchiveLife.v ===== *)
(** * The life of an archive

    Reception, delivery, retention and reclaiming act on the archive files and
    on the database in any order, each stopping wherever it may.  Whatever
    they do, the file of a message whose archive is available is there, with
    the bytes it was received with. *)

From S2P Require Import Prelude Sha256 GoText TextFacts Calendar Delivery SmtpClient Provider Database UuidText Suppression Message Queue Worker QueueOps MessageOps QueueSpec Frames SubmitRules Auth Storage Receive Retention Reclaim Fingerprint ApiReceive.

Module ArchiveLife.

Import Retention Reclaim.
#[local] Opaque uuid_text.

(** ** Names of files *)

(** The file is named after [u]. *)
Definition named (u : UUID) (path : string) : Prop := exists dir, path = (dir ++ uuid_text u ++ ".eml")%string.

Lemma append_suffix (a b c d : string) :
  (a ++ b)%string = (c ++ d)%string -> String.length b = String.length d -> b = d.
Proof.
  revert c. induction a as [|x a IH]; intros [|y c] E Hl; rewrite ?append_nil in E; [done| | |].
  - apply (f_equal String.length) in E. rewrite append_cons in E. cbn [String.length] in E. rewrite length_append in E. lia.
  - apply (f_equal String.length) in E. rewrite append_cons in E. cbn [String.length] in E. rewrite length_append in E. lia.
  - rewrite !append_cons in E. apply string_tail in E. by apply (IH c).
Qed.

Lemma named_unique u v path : (u < width)%N -> (v < width)%N -> named u path -> named v path -> u = v.
Proof.
  intros Hu Hv [d ->] [d' E]. apply append_suffix in E; [|rewrite !length_append, !uuid_text_length; done].
  apply uuid_text_inj; [done|done|]. rewrite <- (take_exact (uuid_text u) ".eml"), <- (take_exact (uuid_text v) ".eml"), E.
  by rewrite !uuid_text_length.
Qed.

Lemma archive_path_named root at_ id : named id (Storage.archive_path root at_ id).
Proof. exists (root ++ "/" ++ date_path at_ ++ "/")%string. unfold Storage.archive_path. by rewrite !append_assoc. Qed.

Lemma split_nonempty sep cur s : split_at sep cur s <> [].
Proof. revert cur. induction s as [|c s IH]; intros cur; cbn [split_at]; [done|]. by destruct (Ascii.eqb c sep). Qed.

(** The last part of a split text ends it. *)
Lemma split_last sep cur s :
  exists dir, (string_rev EmptyString cur ++ s)%string = (dir ++ List.last (split_at sep cur s) EmptyString)%string.
Proof.
  revert cur. induction s as [|c s IH]; intros cur; cbn [split_at].
  - exists EmptyString. cbn [List.last]. rewrite append_nil. induction (string_rev EmptyString cur) as [|x r IHr]; [done|].
    rewrite append_cons. by f_equal.
  - destruct (Ascii.eqb c sep).
    + destruct (IH EmptyString) as [dir E]. exists (string_rev EmptyString cur ++ String c dir)%string.
      pose proof (split_nonempty sep EmptyString s) as Hne. cbn [string_rev] in E. rewrite append_nil in E.
      destruct (split_at sep EmptyString s) as [|x l]; [done|]. cbn [List.last] in E |- *.
      rewrite E, append_assoc, append_cons. done.
    + destruct (IH (String c cur)) as [dir E]. exists dir. rewrite <- E. cbn [string_rev].
      rewrite (string_rev_append cur (String c EmptyString)), append_assoc, append_cons. done.
Qed.

Section Names.
  Context {parser : UuidParser}.

Lemma archive_identity_spec path u :
  archive_identity path = Some u -> named u path /\ exists text, ParseUUID text = Some u.
Proof.
  unfold archive_identity. intros H. destruct (split_last "/" EmptyString path) as [dir E].
  unfold Split in H. cbn [string_rev] in E. rewrite append_nil in E.
  destruct (split_at "/" EmptyString path) as [|y [|m [|d [|name [|]]]]]; try done.
  destruct (day_ok y m d); [|done]. destruct (ParseUUID _) as [v|] eqn:Ep; [|done].
  match type of H with (if ?b then _ else _) = _ => destruct b eqn:Eb; [|discriminate H] end.
  apply andb_true_iff in Eb as [Ev En]. apply String.eqb_eq in Ev, En. apply (inj Some) in H as <-.
  cbn [List.last] in E. rewrite <- Ev in En. split; [exists dir; by rewrite E, En|eauto].
Qed.

Lemma archive_identity_named root path u : archive_identity path = Some u -> named u (full_path root path).
Proof.
  intros H. destruct (archive_identity_spec path u H) as [[dir ->] _]. exists (root ++ "/" ++ dir)%string.
  unfold full_path. by rewrite !append_assoc.
Qed.

End Names.

(** ** What the transactions do to the archive columns *)

Abbreviation Columns := (string * Z * string * string * option Time)%type.

(** The part of the database that the life of archives depends on. *)
Definition archiving (db : DB) :=
  (archive_observations db, archive_retirements db, archives db).

Lemma framed_archiving {A} (m : M A) : framed m -> preserves archiving m.
Proof.
  apply preserves_part. intros db db' H.
  pose proof (f_equal (fun v => snd (fst v)) H) as H1. pose proof (f_equal snd H) as H2. unfold archiving.
  unfold outside, other_tables in H1, H2. cbn [fst snd] in H1, H2. simplify_eq. congruence.
Qed.

(** The columns a submission is entered with. *)
Definition new_columns (s : Message.Submission) : Columns :=
  (Message.s_Path s, Message.s_Size s, Message.s_SHA256 s, "AVAILABLE"%string, None).

(** The submission was entered, under an identifier that is neither used nor
    retired, and nothing else changed. *)
Definition entered (s : Message.Submission) (db0 db : DB) : Prop :=
  messages db0 !! Message.s_ID s = None /\ archive_retirements db0 !! Message.s_ID s = None /\
  archive_observations db = archive_observations db0 /\ archive_retirements db = archive_retirements db0 /\
  archives db = <[Message.s_ID s := new_columns s]> (archives db0).

Lemma entered_view s db0 db1 db2 : archiving db2 = archiving db1 -> entered s db0 db1 -> entered s db0 db2.
Proof. unfold archiving, entered. intros E. simplify_eq. naive_solver congruence. Qed.

Lemma entered_from s db0 db1 db2 :
  archiving db1 = archiving db0 -> entered s db1 db2 -> entered s db0 db2.
Proof.
  unfold archiving, entered. intros E (H1 & H2 & H3). simplify_eq. split; [|split; [congruence|naive_solver congruence]].
  assert (Hl : archives db1 !! Message.s_ID s = archives db0 !! Message.s_ID s) by congruence.
  unfold archives in Hl. rewrite !lookup_fmap, H1 in Hl. by destruct (messages db0 !! Message.s_ID s).
Qed.

Lemma not_retired mid path db : Message.retired_archive mid path db = false -> archive_retirements db !! mid = None.
Proof.
  intros H. destruct (archive_retirements db !! mid) as [r|] eqn:E; [|done].
  pose proof (exists_row_false _ _ _ _ H E) as Hf. cbv beta in Hf. by rewrite N.eqb_refl in Hf.
Qed.

Lemma after_preserving {A} s db0 (m : M A) : preserves archiving m -> triple (entered s db0) m (fun _ => entered s db0).
Proof.
  intros Hm. apply triple_from. intros db1 H1. eapply triple_conseq; [apply (Hm (archiving db1))|by intros db ->|].
  intros a db H. eapply entered_view; [exact H|exact H1].
Qed.

#[local] Hint Resolve framed_archiving framed_lift framed_guard framed_Lock framed_Apply : framed.

Lemma set_message_archives mid p f :
  (forall t m, archive_columns (f t m) = archive_columns m) -> preserves archiving (Message.set_message mid p f).
Proof.
  intros Hf. apply preserves_exec. intros t db. unfold archiving, archives. simpl. by rewrite columns_update by apply Hf.
Qed.

Lemma enqueueTx_entered s source apiKey keyHash db0 :
  triple (fun db => db = db0) (Message.enqueueTx s source apiKey keyHash) (fun _ => entered s db0).
Proof.
  unfold Message.enqueueTx. set (S0 := fun db => db = db0).
  step (fun (_ : Message.Business) => S0); [apply triple_lift_|].
  step (fun (_ : unit) => S0); [apply triple_guard_|].
  step (fun (_ : option Time) => S0); [apply triple_lift_|].
  step (fun (_ : unit) => S0); [apply triple_guard_|].
  step (fun (_ : option Time) => S0); [apply triple_lift_|].
  step (fun (_ : unit) => S0); [apply triple_guard_|].
  step (fun (_ : string) => S0); [apply triple_lift_|].
  step (fun (_ : unit) => S0); [apply triple_guard_|].
  step (fun (_ : string) => S0); [case_match; [by apply triple_query_row|by apply triple_return]|].
  step (fun (_ : Time) => S0); [apply triple_gotime|].
  step (fun (_ : unit) => entered s db0).
  { apply triple_stmt. intros t db [] db' -> H. destruct (Message.retired_archive _ _ _) eqn:Er; [done|].
    destruct (insert_row _ _ _) as [rows|] eqn:Ei; [|done]. simpl in H. injection H as <-.
    apply insert_row_some in Ei as [Hn ->]. apply not_retired in Er. do 4 (split; [done|]).
    unfold archives. simpl. by rewrite fmap_insert. }
  apply after_preserving. unfold Message.insert_recipient, Message.record. framed;
    apply set_message_archives; intros; reflexivity.
Qed.

Lemma admission_archives s apiKey keyHash fingerprint : preserves archiving (Message.admission s apiKey keyHash fingerprint).
Proof.
  assert (Hkey : preserves archiving (Message.key_enabled apiKey)) by (apply framed_archiving, framed_key_enabled).
  assert (Hcancel : forall target, preserves archiving (Message.cancelPendingTx apiKey target (Some (Message.s_ID s))))
    by (intros; apply framed_archiving, framed_cancelPendingTx).
  unfold Message.admission, Message.reserveSubmission, Message.admitSchedule. framed.
Qed.

Lemma enqueueIdempotent_entered s apiKey keyHash fingerprint save db0 :
  (forall s', save s = Some s' -> Message.s_ID s' = Message.s_ID s) ->
  triple (fun db => db = db0) (Message.enqueueIdempotent s apiKey keyHash fingerprint (Some save))
    (fun r db => match r with Commit _ => exists s', save s = Some s' /\ entered s' db0 db | Rollback _ => True end).
Proof.
  intros Hid. unfold Message.enqueueIdempotent.
  step (fun (_ : option Message.EnqueueResult) db => archiving db = archiving db0).
  { eapply triple_conseq; [apply (admission_archives s apiKey keyHash fingerprint (archiving db0))|by intros db ->|done]. }
  destruct a as [x|]; [by apply triple_return|].
  step (fun s' db => archiving db = archiving db0 /\ save s = Some s').
  { destruct (save s) as [s'|]; [by apply triple_return|apply triple_raise]. }
  apply triple_pure. intros Hs. apply triple_from. intros db1 H1.
  eapply triple_bind; [apply enqueueTx_entered|]. intros [].
  apply (triple_conseq (entered a db0) _ _ (fun r db => match r with Commit _ => entered a db0 db | Rollback _ => True end));
    [|intros db HE; by apply (entered_from a db0 db1 db H1)|intros [] db HE; [by exists a|done]].
  step (fun (_ : unit) => entered a db0); [|by apply triple_return].
  apply after_preserving. destruct (Message.s_Replaces s); [|apply preserves_ret].
  apply set_message_archives. intros; reflexivity.
Qed.

Definition archive_in (c : Columns) : Storage.Archive :=
  let '(path, size, sha, _, _) := c in Storage.MkArchive path size sha.
Definition state_in (c : Columns) : string := snd (fst c).

(** What the three transactions of retention and reclaiming do. *)
Definition same_tables (db0 db : DB) : Prop :=
  archive_observations db = archive_observations db0 /\ archive_retirements db = archive_retirements db0.

Lemma auditTx_view {V} (view : DB -> V) action actor data :
  (forall db rows, view (db <| maintenance_audit := rows |>) = view db) -> preserves view (auditTx action actor data).
Proof.
  intros Hv. unfold auditTx. apply preserves_bind; [apply preserves_fresh|]. intros id. apply preserves_stmt.
  intros t db [] db' H. destruct (insert_row _ _ _); [|done]. injection H as <-. apply Hv.
Qed.

(** The intent: the message is finished and due, or was already pending. *)
Lemma purge_intent_spec mid p db0 :
  triple (fun db => db = db0) (purge_intent mid p) (fun r db => match r with
    | Commit (inr path) => exists m, messages db0 !! mid = Some m /\ path = m_eml_path m /\ terminal mid m db0 = true /\
        retentionCandidate (days_before (Now p) (EMLDays p)) mid m db0 = true /\ same_tables db0 db /\
        archives db = <[mid := archive_columns (m <| m_archive_state := "PURGE_PENDING"%string |>)]> (archives db0)
    | _ => False
    end).
Proof.
  unfold purge_intent. step (fun (_ : Message) db => db = db0); [by apply triple_query_row|].
  set (Q := fun path db => exists m, messages db0 !! mid = Some m /\ path = m_eml_path m /\ terminal mid m db0 = true /\
    retentionCandidate (days_before (Now p) (EMLDays p)) mid m db0 = true /\ same_tables db0 db /\
    archives db = <[mid := archive_columns (m <| m_archive_state := "PURGE_PENDING"%string |>)]> (archives db0)).
  step (fun path db => match path with Some path => Q path db | None => True end).
  { apply triple_stmt. intros t db a0 db' -> H. destruct (messages db0 !! mid) as [m|] eqn:Em; [|by simplify_eq].
    destruct (terminal mid m db0 && _) eqn:Ec; [|by simplify_eq]. apply andb_true_iff in Ec as [Ht Hr]. injection H as <- <-.
    exists m. do 4 (split; [done|]). split; [done|]. unfold archives. simpl. by rewrite fmap_insert. }
  step Q; [destruct a0; [by apply triple_return|apply triple_raise]|].
  step (fun (_ : unit) => Q a1); [|by apply triple_return].
  apply triple_from. intros db1 H1.
  eapply triple_conseq; [apply (auditTx_view archiving _ _ _ (fun _ _ => eq_refl) (archiving db1))|by intros db ->|].
  intros [] db HE. unfold archiving in HE. simplify_eq. unfold Q, same_tables in *. naive_solver congruence.
Qed.

Lemma purge_complete_spec mid p db0 :
  triple (fun db => db = db0) (purge_complete mid p) (fun _ db => same_tables db0 db /\
    forall k, archives db !! k = archives db0 !! k \/
      exists c t, archives db0 !! k = Some c /\ state_in c = "PURGE_PENDING"%string /\
        archives db !! k = Some (fst (fst c), "PURGED"%string, Some t)).
Proof.
  unfold purge_complete.
  set (Q := fun db => same_tables db0 db /\ forall k, archives db !! k = archives db0 !! k \/
      exists c t, archives db0 !! k = Some c /\ state_in c = "PURGE_PENDING"%string /\
        archives db !! k = Some (fst (fst c), "PURGED"%string, Some t)).
  step (fun (_ : unit) => Q).
  { apply triple_exec. intros t db ->. split; [done|]. intros k. unfold archives. simpl. rewrite !lookup_fmap, lookup_update.
    destruct (messages db0 !! k) as [m|]; [|by left]. simpl. destruct (_ && pending m) eqn:E; [|by left].
    right. apply andb_true_iff in E as [_ E]. apply String.eqb_eq in E. eexists _, (at_now t). split; [done|]. done. }
  assert (Hkeep : forall A (m : M A), preserves archiving m -> triple Q m (fun _ => Q)).
  { intros A m Hm. apply triple_from. intros db1 H1. eapply triple_conseq; [apply (Hm (archiving db1))|by intros db ->|].
    intros x db HE. unfold archiving in HE. simplify_eq. unfold Q, same_tables in *. destruct H1 as [[T1 T2] T3].
    split; [split; congruence|]. intros k. destruct (T3 k) as [T|(c & t & C1 & C2 & C3)]; [left; congruence|right].
    exists c, t. split; [done|]. split; [done|]. congruence. }
  step (fun (_ : UUID) => Q); [apply Hkeep, preserves_fresh|]. step (fun (_ : unit) => Q).
  { by apply Hkeep, preserves_record. }
  step (fun (_ : unit) => Q); [apply Hkeep, auditTx_view; done|by apply triple_return].
Qed.

Lemma retire_spec absolute o observation text actor reason apply stat same db0 :
  triple (fun db => db = db0) (retire absolute o observation text actor reason apply stat same) (fun r db => match r with
    | Commit (inr _) => messages db0 !! ob_ArchiveID o = None /\ archive_observations db = archive_observations db0 /\
        archives db = archives db0 /\ archive_retirements db !! ob_ArchiveID o <> None /\
        (forall k, k <> ob_ArchiveID o -> archive_retirements db !! k = archive_retirements db0 !! k)
    | Commit (inl _) => False
    | Rollback r => r = inr false
    end).
Proof.
  unfold retire. step (fun (_ : unit) db => db = db0); [by apply triple_query|].
  step (fun (_ : bool) db => db = db0); [by apply triple_query|].
  destruct (negb stat); [apply triple_raise|]. destruct a0; [apply triple_raise|].
  destruct (negb apply); [by apply triple_return|].
  set (Q := fun db => messages db0 !! ob_ArchiveID o = None /\ archive_observations db = archive_observations db0 /\
        archives db = archives db0 /\ archive_retirements db !! ob_ArchiveID o <> None /\
        (forall k, k <> ob_ArchiveID o -> archive_retirements db !! k = archive_retirements db0 !! k)).
  step (fun (_ : unit) => Q).
  { apply triple_stmt. intros t db [] db' -> H. destruct (messages db0 !! ob_ArchiveID o) eqn:Em; [done|]. cbn [not_null] in H.
    destruct (archive_retirements db0 !! ob_ArchiveID o) as [r|] eqn:Er.
    - injection H as <-. unfold Q. rewrite Er. done.
    - destruct (exists_row _ _); [done|]. injection H as <-. unfold Q. simpl. rewrite lookup_insert_eq. do 3 (split; [done|]).
      split; [done|]. intros k Hk. by rewrite lookup_insert_ne. }
  step (fun (_ : UUID) => Q); [by apply triple_query_row|].
  destruct (String.eqb _ _); [by apply triple_return|apply triple_raise].
Qed.

Lemma observe_spec absolute root o db0 :
  triple (fun db => db = db0) (observe absolute root o) (fun _ db =>
    archives db = archives db0 /\ archive_retirements db = archive_retirements db0 /\
    forall k row, archive_observations db !! k = Some row -> archive_observations db0 !! k = Some row \/
      (ao_archive_id row = ob_ArchiveID o /\ ao_path row = ob_Path o)).
Proof.
  unfold observe. set (S0 := fun db => db = db0).
  step (fun (_ : unit) => S0); [by apply triple_query|]. step (fun (_ : bool) => S0); [by apply triple_query|].
  destruct a0; [apply triple_raise|]. step (fun (_ : option UUID) => S0); [by apply triple_query|].
  destruct a0 as [id|]; [apply triple_return; intros db ->; auto|].
  step (fun (_ : Z) => S0); [by apply triple_query|]. destruct (100000 <=? a0); [apply triple_raise|].
  step (fun (_ : UUID) => S0); [apply triple_fresh|].
  step (fun (_ : unit) db => archives db = archives db0 /\ archive_retirements db = archive_retirements db0 /\
    forall k row, archive_observations db !! k = Some row -> archive_observations db0 !! k = Some row \/
      (ao_archive_id row = ob_ArchiveID o /\ ao_path row = ob_Path o)); [|by apply triple_return].
  apply triple_stmt. intros t db [] db' -> H. destruct (insert_row _ _ _) as [rows|] eqn:E; [|done]. injection H as <-.
  apply insert_row_some in E as [Hn ->]. do 2 (split; [done|]). intros k row. simpl. rewrite lookup_insert_Some.
  intros [[_ <-]|[_ Hk]]; auto.
Qed.

(** ** Processes *)

(** The files, the database, the archives a receiver has saved and may still
    enter, the intents and the retirements whose process may still remove the
    file.  A process that stops just takes no further step. *)
Record State := MkState {
  st_files : Storage.Files; st_db : DB;
  st_saved : list (UUID * Storage.Archive); st_purging : list (UUID * string); st_retired : list ArchiveObservation }.

Section Life.
  Context {parser : UuidParser} (root : string).

(** The submission of a saved archive *)
Definition of_archive (id : UUID) (a : Storage.Archive) (s : Message.Submission) : Prop :=
  Message.s_ID s = id /\ Message.s_Path s = Storage.Path a /\ Message.s_Size s = Storage.Size a /\
  Message.s_SHA256 s = Storage.SHA256 a.

(** What [ReclaimArchive] reads of an observation *)
Definition observed (observation : UUID) (row : ObservationRow) : ArchiveObservation :=
  MkArchiveObservation (Some observation) (ao_archive_id row) (ao_path row) (ao_size row) (ao_sha256 row).

Inductive step : State -> State -> Prop :=
(* reception: [Receive], [ReceiveReplacing] *)
| step_save MaxBytes calls id at_ data fs db saved purging retired r fs' :
    (id < width)%N -> Storage.Save root MaxBytes calls id at_ data fs = (r, fs') ->
    step (MkState fs db saved purging retired)
      (MkState fs' db (match r with inr a => (id, a) :: saved | inl _ => saved end) purging retired)
| step_enqueue w s id a fs db saved purging retired r db' :
    (id, a) ∈ saved -> of_archive id a s -> transact w (Message.Enqueue s) db = (r, db') ->
    step (MkState fs db saved purging retired) (MkState fs db' saved purging retired)
| step_submit w s apiKey keyHash fingerprint archive now fs db saved purging retired r db' :
    (forall a, archive = Some a -> (Message.s_ID s, a) ∈ saved) ->
    transact w (Message.enqueueIdempotent s apiKey keyHash fingerprint
      (Some (Message.publish_archive (option_map (fun a => (Storage.Path a, Storage.Size a, Storage.SHA256 a)) archive) now))) db
    = (r, db') ->
    step (MkState fs db saved purging retired) (MkState fs db' saved purging retired)
(* the queue, the operator, notifications, feedback: whatever leaves the archive columns alone *)
| step_other A w (body : M (TxEnd A)) fs db saved purging retired r db' :
    preserves archiving body -> transact w body db = (r, db') ->
    step (MkState fs db saved purging retired) (MkState fs db' saved purging retired)
(* retention: [purge] *)
| step_intent w mid p fs db saved purging retired r db' :
    transact w (purge_intent mid p) db = (r, db') ->
    step (MkState fs db saved purging retired)
      (MkState fs db' saved (match r with inr path => (mid, path) :: purging | inl _ => purging end) retired)
| step_remove mid path calls fs db saved purging retired ok fs' :
    (mid, path) ∈ purging -> purge_files root path calls fs = (ok, fs') ->
    step (MkState fs db saved purging retired) (MkState fs' db saved purging retired)
| step_complete w mid path p fs db saved purging retired r db' :
    (mid, path) ∈ purging -> transact w (purge_complete mid p) db = (r, db') ->
    step (MkState fs db saved purging retired) (MkState fs db' saved purging retired)
(* reclaiming: [ObserveArchive], [ReclaimArchive] *)
| step_observe w look given path fs db saved purging retired r db' :
    ObserveArchive w look root given path fs db = (r, db') ->
    step (MkState fs db saved purging retired) (MkState fs db' saved purging retired)
| step_retire w observation row text actor reason apply stat same fs db saved purging retired r db' :
    archive_observations db !! observation = Some row ->
    transact w (retire root (observed observation row) observation text actor reason apply stat same) db = (r, db') ->
    step (MkState fs db saved purging retired)
      (MkState fs db' saved purging (match r with inr true => observed observation row :: retired | _ => retired end))
| step_unlink o look remove fs db saved purging retired ok fs' :
    o ∈ retired -> unlink root o look remove fs = (ok, fs') ->
    step (MkState fs db saved purging retired) (MkState fs' db saved purging retired).

(** A gateway starts with empty tables, and with whatever files there are. *)
Definition initial (s : State) : Prop :=
  messages (st_db s) = ∅ /\ archive_observations (st_db s) = ∅ /\ archive_retirements (st_db s) = ∅ /\
  st_saved s = [] /\ st_purging s = [] /\ st_retired s = [].

Inductive reachable : State -> Prop :=
| reachable_start s : initial s -> reachable s
| reachable_step s s' : reachable s -> step s s' -> reachable s'.

(** The file of an archive is there as it was recorded. *)
Definition holds_file (fs : Storage.Files) (a : Storage.Archive) : Prop :=
  exists data, fs !! Storage.Path a = Some data /\ a = Storage.archive_of (Storage.Path a) data.

Record Inv (s : State) : Prop := {
  i_path : forall mid c, archives (st_db s) !! mid = Some c -> (mid < width)%N /\ named mid (Storage.Path (archive_in c));
  i_file : forall mid c, archives (st_db s) !! mid = Some c -> state_in c = "AVAILABLE"%string ->
    holds_file (st_files s) (archive_in c);
  i_retired : forall aid, archive_retirements (st_db s) !! aid <> None -> archives (st_db s) !! aid = None;
  i_saved : forall id a, (id, a) ∈ st_saved s -> (id < width)%N /\ named id (Storage.Path a) /\
    (archives (st_db s) !! id <> None \/ archive_retirements (st_db s) !! id <> None \/ holds_file (st_files s) a);
  i_purging : forall mid path, (mid, path) ∈ st_purging s -> exists c, archives (st_db s) !! mid = Some c /\
    Storage.Path (archive_in c) = path /\ state_in c <> "AVAILABLE"%string;
  i_observed : forall k row, archive_observations (st_db s) !! k = Some row ->
    archive_identity (ao_path row) = Some (ao_archive_id row);
  i_reclaiming : forall o, o ∈ st_retired s -> archive_identity (ob_Path o) = Some (ob_ArchiveID o) /\
    archive_retirements (st_db s) !! ob_ArchiveID o <> None }.

(** *** Files *)

(** The archives of [u] must be there: its message's is available, or nothing
    of it is in the database yet. *)
Definition live (db : DB) (u : UUID) : Prop :=
  (exists c, archives db !! u = Some c /\ state_in c = "AVAILABLE"%string) \/
  (archives db !! u = None /\ archive_retirements db !! u = None).

Lemma inv_files fs fs' db saved purging retired :
  Inv (MkState fs db saved purging retired) ->
  (forall u a, (u < width)%N -> named u (Storage.Path a) -> live db u -> holds_file fs a -> holds_file fs' a) ->
  Inv (MkState fs' db saved purging retired).
Proof.
  intros [I1 I2 I3 I4 I5 I6 I7] Hkeep. split; simpl in *; [done| |done| |done|done|done].
  - intros mid c Hc Hs. destruct (I1 mid c Hc) as [Hw Hn]. apply (Hkeep mid); [done|done|left; eauto|eauto].
  - intros id a Ha. destruct (I4 id a Ha) as (Hw & Hn & Hor). do 2 (split; [done|]).
    destruct (archives db !! id) eqn:E1; [by left|]. destruct (archive_retirements db !! id) eqn:E2; [by right; left|].
    right; right. destruct Hor as [?|[?|Hor]]; [done|done|]. apply (Hkeep id); [done|done|by right|done].
Qed.

Lemma holds_grow fs fs' a : fs ⊆ fs' -> holds_file fs a -> holds_file fs' a.
Proof. intros Hs (data & Hd & E). exists data. split; [|done]. by eapply lookup_weaken. Qed.

(** Removing the file of something that is not live *)
Lemma inv_delete u path fs db saved purging retired :
  (u < width)%N -> named u path -> ~ live db u ->
  Inv (MkState fs db saved purging retired) -> Inv (MkState (delete path fs) db saved purging retired).
Proof.
  intros Hu Hn Hdead HI. apply (inv_files fs); [done|]. intros v a Hv Hna Hlive (data & Hd & E).
  exists data. split; [|done]. rewrite lookup_delete_ne; [done|]. intros Hp. apply Hdead. rewrite Hp in Hn.
  by rewrite (named_unique u v _ Hu Hv Hn Hna).
Qed.

(** *** The database *)

Lemma inv_same db db' fs saved purging retired :
  archiving db' = archiving db -> Inv (MkState fs db saved purging retired) -> Inv (MkState fs db' saved purging retired).
Proof.
  intros E [I1 I2 I3 I4 I5 I6 I7]. unfold archiving in E. injection E as E1 E2 E4.
  split; simpl in *; by rewrite ?E1, ?E2, ?E4.
Qed.

Lemma archives_none db mid : messages db !! mid = None <-> archives db !! mid = None.
Proof. unfold archives. rewrite lookup_fmap. by destruct (messages db !! mid). Qed.

(** Entering a saved archive *)
Lemma inv_entered s id a fs db db' saved purging retired :
  (id, a) ∈ saved -> of_archive id a s -> entered s db db' ->
  Inv (MkState fs db saved purging retired) -> Inv (MkState fs db' saved purging retired).
Proof.
  intros Hin (Hid & Hp & Hsz & Hsh) (Hn & Hnr & HO & HR & HA) [I1 I2 I3 I4 I5 I6 I7]. simpl in *.
  rewrite Hid in *. apply archives_none in Hn. destruct (I4 id a Hin) as (Hw & Hname & Hfile).
  assert (Ha : archive_in (new_columns s) = a) by (unfold archive_in, new_columns; rewrite Hp, Hsz, Hsh; by destruct a).
  destruct Hfile as [?|[?|Hfile]]; [done|done|]. split; simpl; rewrite ?HO, ?HR, ?HA; [| | | | |done|done].
  - intros mid c. rewrite lookup_insert_Some. intros [[<- <-]|[_ Hc]]; [by rewrite Ha|eauto].
  - intros mid c. rewrite lookup_insert_Some. intros [[<- <-]|[_ Hc]]; [by rewrite Ha|eauto].
  - intros aid Hr. rewrite lookup_insert_ne; [by apply I3|]. intros <-. by rewrite Hnr in Hr.
  - intros k b Hb. destruct (I4 k b Hb) as (Kw & Kn & Kor). do 2 (split; [done|]).
    destruct (decide (k = id)) as [->|Hne]; [left; by rewrite lookup_insert_eq|]. by rewrite lookup_insert_ne by done.
  - intros mid path Hm. destruct (I5 mid path Hm) as (c & Hc & Hrest). exists c. split; [|done].
    rewrite lookup_insert_ne; [done|]. intros <-. congruence.
Qed.

(** The state of an archive leaves AVAILABLE: its columns stay where they were *)
Lemma inv_restate db db' fs saved purging retired :
  same_tables db db' ->
  (forall k, archives db' !! k = archives db !! k \/
     exists c c', archives db !! k = Some c /\ archives db' !! k = Some c' /\ archive_in c' = archive_in c /\
                  state_in c' <> "AVAILABLE"%string) ->
  Inv (MkState fs db saved purging retired) -> Inv (MkState fs db' saved purging retired).
Proof.
  intros [HO HR] HA [I1 I2 I3 I4 I5 I6 I7]. simpl in *. split; simpl; rewrite ?HO, ?HR; [| | | | |done|done].
  - intros mid c' Hc'. destruct (HA mid) as [E|(c & c1 & Hc & E & Ein & _)]; [rewrite E in Hc'; eauto|].
    rewrite E in Hc'. injection Hc' as <-. rewrite Ein. eauto.
  - intros mid c' Hc' Hs. destruct (HA mid) as [E|(c & c1 & Hc & E & Ein & Hno)]; [rewrite E in Hc'; eauto|].
    rewrite E in Hc'. by injection Hc' as <-.
  - intros aid Hr. pose proof (I3 aid Hr) as Hn. destruct (HA aid) as [E|(c & c1 & Hc & _)]; congruence.
  - intros id a Ha. destruct (I4 id a Ha) as (Hw & Hn & Hor). do 2 (split; [done|]).
    destruct Hor as [Hor|Hor]; [left|by right]. destruct (HA id) as [E|(c & c1 & Hc & E & _)]; by rewrite E.
  - intros mid path Hm. destruct (I5 mid path Hm) as (c & Hc & Hpath & Hst).
    destruct (HA mid) as [E|(c0 & c1 & Hc0 & E & Ein & Hno)]; [exists c; by rewrite E|].
    exists c1. rewrite Hc in Hc0. injection Hc0 as <-. by rewrite Ein.
Qed.

(** *** Every step *)

(** What was retired stays retired. *)
Definition retains (db db' : DB) : Prop := forall aid, archive_retirements db !! aid <> None -> archive_retirements db' !! aid <> None.

(** Archives do not move, files do not change, what left AVAILABLE does not
    come back, nor does what was retired. *)
Record continues (s s' : State) : Prop := {
  ct_files : forall p d d', st_files s !! p = Some d -> st_files s' !! p = Some d' -> d' = d;
  ct_archives : forall mid c, archives (st_db s) !! mid = Some c -> exists c', archives (st_db s') !! mid = Some c' /\
    archive_in c' = archive_in c /\ (state_in c' = "AVAILABLE"%string -> state_in c = "AVAILABLE"%string);
  ct_retired : retains (st_db s) (st_db s') }.

Lemma continues_db fs db db' saved saved' purging purging' retired retired' :
  retains db db' ->
  (forall k c, archives db !! k = Some c -> archives db' !! k = Some c \/
     exists c', archives db' !! k = Some c' /\ archive_in c' = archive_in c /\ state_in c' <> "AVAILABLE"%string) ->
  continues (MkState fs db saved purging retired) (MkState fs db' saved' purging' retired').
Proof.
  intros Hr H. split; simpl; [congruence| |done]. intros mid c Hc. destruct (H mid c Hc) as [H1|(c' & H1 & H2 & H3)]; [by exists c|].
  by exists c'.
Qed.

Lemma continues_files fs fs' db saved saved' purging retired :
  (forall p d d', fs !! p = Some d -> fs' !! p = Some d' -> d' = d) ->
  continues (MkState fs db saved purging retired) (MkState fs' db saved' purging retired).
Proof. intros H. split; simpl; [done| |by intros aid]. intros mid c Hc. by exists c. Qed.

Lemma continues_same fs db saved purging retired purging' : continues (MkState fs db saved purging retired) (MkState fs db saved purging' retired).
Proof. apply continues_db; [by intros aid|]. auto. Qed.

Lemma Save_grows MaxBytes calls id at_ data fs r fs' :
  Storage.Save root MaxBytes calls id at_ data fs = (r, fs') -> fs ⊆ fs'.
Proof.
  intros H. pose proof (Storage.Save_result _ _ _ _ _ _ _ _ _ H) as Hr. destruct r; [apply Hr|].
  destruct Hr as (Hn & -> & _). by apply insert_subseteq.
Qed.

Lemma step_save_ok MaxBytes calls id at_ data fs db saved purging retired r fs' :
  (id < width)%N -> Storage.Save root MaxBytes calls id at_ data fs = (r, fs') ->
  Inv (MkState fs db saved purging retired) ->
  Inv (MkState fs' db (match r with inr a => (id, a) :: saved | inl _ => saved end) purging retired).
Proof.
  intros Hw Hs HI. assert (HI' : Inv (MkState fs' db saved purging retired)).
  { apply (inv_files fs); [done|]. intros u a _ _ _. by apply holds_grow, (Save_grows _ _ _ _ _ _ _ _ Hs). }
  destruct r as [e|a]; [done|]. pose proof (Storage.Save_result _ _ _ _ _ _ _ _ _ Hs) as (_ & -> & -> & _).
  destruct HI' as [I1 I2 I3 I4 I5 I6 I7]. split; simpl in *; [done|done|done| |done|done|done].
  intros k b Hb. apply elem_of_cons in Hb as [Hb|Hb]; [|eauto]. injection Hb as -> ->.
  split; [done|]. split; [apply archive_path_named|]. right; right. exists data. simpl. by rewrite lookup_insert_eq.
Qed.

Lemma enqueue_outcome w s db r db' :
  transact w (Message.Enqueue s) db = (r, db') -> db' = db \/ entered s db db'.
Proof.
  intros H. assert (Ht : triple (fun d => d = db) (Message.Enqueue s) (fun _ => entered s db)).
  { unfold Message.Enqueue. eapply triple_bind; [apply enqueueTx_entered|]. intros []. by apply triple_return. }
  destruct (transact_triple _ _ _ _ _ _ _ Ht eq_refl H) as [->|(r' & HE & _)]; auto.
Qed.

Lemma submit_outcome w s apiKey keyHash fingerprint archive now db r db' :
  transact w (Message.enqueueIdempotent s apiKey keyHash fingerprint
    (Some (Message.publish_archive (option_map (fun a => (Storage.Path a, Storage.Size a, Storage.SHA256 a)) archive) now))) db
  = (r, db') ->
  db' = db \/ exists a s', archive = Some a /\ of_archive (Message.s_ID s) a s' /\ entered s' db db'.
Proof.
  intros H. set (save := Message.publish_archive _ _) in H.
  assert (Hid : forall s', save s = Some s' -> exists a, archive = Some a /\ of_archive (Message.s_ID s) a s').
  { intros s'. unfold save, Message.publish_archive. destruct archive as [a|]; [|done]. intros [= <-]. by exists a. }
  destruct (transact_triple _ _ _ _ _ _ _ (enqueueIdempotent_entered s apiKey keyHash fingerprint save db
    (fun s' Hs => match Hid s' Hs with ex_intro _ _ (conj _ (conj E _)) => E end)) eq_refl H) as [->|(r' & (s' & Hs & HE) & _)];
    [by left|right]. destruct (Hid s' Hs) as (a & Ha & Hof). by exists a, s'.
Qed.

Lemma entered_continues s fs db db' saved purging retired :
  entered s db db' -> continues (MkState fs db saved purging retired) (MkState fs db' saved purging retired).
Proof.
  intros (Hn & _ & _ & HR & HA). apply continues_db; [unfold retains; by rewrite HR|]. intros k c Hc. left. rewrite HA.
  rewrite lookup_insert_ne; [done|]. intros <-. apply archives_none in Hn. congruence.
Qed.

(** The intent, when it changed anything *)
Lemma intent_outcome w mid p db r db' :
  transact w (purge_intent mid p) db = (r, db') ->
  match r with
  | inr path => exists m, messages db !! mid = Some m /\ path = m_eml_path m /\
      archives db' !! mid = Some (archive_columns (m <| m_archive_state := "PURGE_PENDING"%string |>))
  | inl _ => True
  end /\
  (db' = db \/ exists m, messages db !! mid = Some m /\ terminal mid m db = true /\
     retentionCandidate (days_before (Now p) (EMLDays p)) mid m db = true /\ same_tables db db' /\
     archives db' = <[mid := archive_columns (m <| m_archive_state := "PURGE_PENDING"%string |>)]> (archives db)).
Proof.
  intros H. split.
  - destruct r as [e|path]; [done|].
    destruct (transact_value _ _ _ _ _ _ _ (purge_intent_spec mid p db) eq_refl H) as [HQ|(d & HQ & _)]; [|done].
    destruct HQ as (m & Hm & Hp & _ & _ & _ & HA). exists m. do 2 (split; [done|]). by rewrite HA, lookup_insert_eq.
  - destruct (transact_triple _ _ _ _ _ _ _ (purge_intent_spec mid p db) eq_refl H) as [->|([e|path] & HQ & _)]; [by left|done|].
    destruct HQ as (m & Hm & _ & Ht & Hc & HT & HA). right. by exists m.
Qed.

Lemma pending_restates mid m db db' k :
  messages db !! mid = Some m ->
  archives db' = <[mid := archive_columns (m <| m_archive_state := "PURGE_PENDING"%string |>)]> (archives db) ->
  archives db' !! k = archives db !! k \/
  exists c c', archives db !! k = Some c /\ archives db' !! k = Some c' /\ archive_in c' = archive_in c /\
               state_in c' <> "AVAILABLE"%string.
Proof.
  intros Hm ->. destruct (decide (k = mid)) as [->|Hne]; [right|left; by rewrite lookup_insert_ne].
  exists (archive_columns m). eexists. rewrite lookup_insert_eq. unfold archives. rewrite lookup_fmap, Hm. done.
Qed.

Lemma step_intent_ok w mid p fs db saved purging retired r db' :
  transact w (purge_intent mid p) db = (r, db') -> Inv (MkState fs db saved purging retired) ->
  Inv (MkState fs db' saved (match r with inr path => (mid, path) :: purging | inl _ => purging end) retired).
Proof.
  intros H HI. destruct (intent_outcome _ _ _ _ _ _ H) as [Hr Hdb].
  assert (HI' : Inv (MkState fs db' saved purging retired)).
  { destruct Hdb as [->|(m & Hm & _ & _ & HT & HA)]; [done|]. apply (inv_restate db); [done| |done].
    intros k. by apply (pending_restates mid m). }
  destruct r as [e|path]; [done|]. destruct Hr as (m & Hm & -> & Hc).
  destruct HI' as [I1 I2 I3 I4 I5 I6 I7]. split; simpl in *; [done|done|done|done| |done|done].
  intros k q Hk. apply elem_of_cons in Hk as [Hk|Hk]; [|eauto]. injection Hk as -> ->. eexists. split; [exact Hc|]. done.
Qed.

Lemma complete_restates w mid p db r db' :
  transact w (purge_complete mid p) db = (r, db') ->
  db' = db \/ (same_tables db db' /\ forall k, archives db' !! k = archives db !! k \/
    exists c c', archives db !! k = Some c /\ archives db' !! k = Some c' /\ archive_in c' = archive_in c /\
                 state_in c' <> "AVAILABLE"%string).
Proof.
  intros H. destruct (transact_triple _ _ _ _ _ _ _ (purge_complete_spec mid p db) eq_refl H) as [->|(r' & [HT HA] & _)];
    [by left|right]. split; [done|]. intros k. destruct (HA k) as [E|(c & t & Hc & _ & E)]; [by left|right].
  exists c. eexists. split; [done|]. split; [exact E|]. by destruct c as [[[[path size] sha] state] purged].
Qed.

Lemma restates_continues fs db db' saved purging purging' retired retired' :
  same_tables db db' ->
  (forall k, archives db' !! k = archives db !! k \/
     exists c c', archives db !! k = Some c /\ archives db' !! k = Some c' /\ archive_in c' = archive_in c /\
                  state_in c' <> "AVAILABLE"%string) ->
  continues (MkState fs db saved purging retired) (MkState fs db' saved purging' retired').
Proof.
  intros [_ HR] HA. apply continues_db; [unfold retains; by rewrite HR|]. intros k c Hc. destruct (HA k) as [E|(c0 & c' & Hc0 & E & E1 & E2)]; [left; by rewrite E|].
  right. exists c'. rewrite Hc in Hc0. by injection Hc0 as <-.
Qed.

(** A UUID has 128 bits. *)
Context (parse_width : forall s u, ParseUUID s = Some u -> (u < width)%N).

Lemma identity_width path u : archive_identity path = Some u -> (u < width)%N.
Proof.
  intros H. destruct (archive_identity_spec path u H) as [_ [text Ht]]. eauto.
Qed.

Lemma step_remove_ok mid path calls fs db saved purging retired ok fs' :
  (mid, path) ∈ purging -> purge_files root path calls fs = (ok, fs') ->
  Inv (MkState fs db saved purging retired) ->
  Inv (MkState fs' db saved purging retired) /\ (fs' = fs \/ fs' = delete path fs).
Proof.
  intros Hin H HI. unfold purge_files in H. destruct (negb (fc_open calls)); [simplify_eq; auto|].
  destruct (negb (confined root path)); [simplify_eq; auto|]. destruct (_ && negb _); [simplify_eq; auto|].
  injection H as _ <-. split; [|by right]. destruct (i_purging _ HI mid path Hin) as (c & Hc & <- & Hs). simpl in Hc.
  destruct (i_path _ HI mid c Hc) as [Hw Hn]. apply (inv_delete mid); [done|done| |done].
  intros [(c' & Hc' & Ha)|[Hnone _]]; congruence.
Qed.

Lemma step_unlink_ok o look remove fs db saved purging retired ok fs' :
  o ∈ retired -> unlink root o look remove fs = (ok, fs') ->
  Inv (MkState fs db saved purging retired) ->
  Inv (MkState fs' db saved purging retired) /\ (fs' = fs \/ fs' = delete (full_path root (ob_Path o)) fs).
Proof.
  intros Hin H HI. unfold unlink in H. destruct (recoveryFile _ _ _ _); [simplify_eq; auto|].
  destruct (differs _ _); [simplify_eq; auto|]. destruct remove; [|simplify_eq; auto]. injection H as _ <-. split; [|by right].
  destruct (i_reclaiming _ HI o Hin) as [Hid Hr]. simpl in Hr.
  apply (inv_delete (ob_ArchiveID o)); [by eapply identity_width|by apply archive_identity_named| |done].
  intros [(c & Hc & _)|[_ Hn]]; [|congruence]. pose proof (i_retired _ HI _ Hr) as Hn. simpl in Hn. congruence.
Qed.

Lemma recoveryFile_identity path look fs o :
  recoveryFile root path look fs = inr o -> archive_identity (ob_Path o) = Some (ob_ArchiveID o).
Proof.
  unfold recoveryFile. destruct (archive_identity path) as [u|] eqn:E; [|done]. intros H.
  repeat (case_match; try discriminate H). by injection H as <-.
Qed.

Lemma step_observe_ok w look given path fs db saved purging retired r db' :
  ObserveArchive w look root given path fs db = (r, db') ->
  Inv (MkState fs db saved purging retired) ->
  Inv (MkState fs db' saved purging retired) /\ archives db' = archives db /\ retains db db'.
Proof.
  unfold ObserveArchive. destruct (recoveryFile root path look fs) as [e|o] eqn:El; [intros [= _ <-]; unfold retains; auto|].
  apply recoveryFile_identity in El. destruct (transact w (observe root given o) db) as [q d] eqn:Et.
  intros H HI. assert (db' = d) as -> by (by destruct q; injection H as _ <-). clear H.
  destruct (transact_triple _ _ _ _ _ _ _ (observe_spec root given o db) eq_refl Et) as [->|(r' & (HA & HR & HO) & _)]; [by unfold retains; auto|].
  split; [|split; [done|unfold retains; by rewrite HR]]. destruct HI as [I1 I2 I3 I4 I5 I6 I7]. split; simpl in *; rewrite ?HA, ?HR; try done.
  intros k row Hk. destruct (HO k row Hk) as [Hk0|[-> ->]]; eauto.
Qed.

Lemma step_retire_ok w observation row text actor reason apply stat same fs db saved purging retired r db' :
  archive_observations db !! observation = Some row ->
  transact w (retire root (observed observation row) observation text actor reason apply stat same) db = (r, db') ->
  Inv (MkState fs db saved purging retired) ->
  Inv (MkState fs db' saved purging (match r with inr true => observed observation row :: retired | _ => retired end)) /\
  archives db' = archives db /\ retains db db'.
Proof.
  intros Hrow H HI. set (o := observed observation row) in *.
  pose proof (retire_spec root o observation text actor reason apply stat same db) as Hspec.
  assert (Hdb : (db' = db /\ r <> inr true) \/
    (messages db !! ob_ArchiveID o = None /\ archive_observations db' = archive_observations db /\
     archives db' = archives db /\ archive_retirements db' !! ob_ArchiveID o <> None /\
     (forall k, k <> ob_ArchiveID o -> archive_retirements db' !! k = archive_retirements db !! k))).
  { destruct r as [e|b].
    - destruct (transact_triple _ _ _ _ _ _ _ Hspec eq_refl H) as [->|([e'|b'] & HQ & _)]; [by left|done|by right].
    - destruct (transact_value _ _ _ _ _ _ _ Hspec eq_refl H) as [HQ|(d & HQ & ->)]; [by right|left].
      injection HQ as ->. done. }
  destruct HI as [I1 I2 I3 I4 I5 I6 I7]. simpl in *.
  destruct Hdb as [[-> Hr]|(Hm & HO & HA & HR & Hother)]; [split; [destruct r as [e|[|]]; done|by split; [|intros aid]]|].
  apply archives_none in Hm.
  assert (Hmono : retains db db').
  { intros k Hk. destruct (decide (k = ob_ArchiveID o)) as [->|Hne]; [done|by rewrite Hother]. }
  split; [|done].
  split; simpl; rewrite ?HO, ?HA; [done|done| | |done|done|].
  - intros aid Ha. destruct (decide (aid = ob_ArchiveID o)) as [->|Hne]; [done|]. rewrite Hother in Ha by done. eauto.
  - intros id a Ha. destruct (I4 id a Ha) as (Hw & Hn & [Hor|[Hor|Hor]]); eauto 10.
  - intros o' Ho'. assert (o' = o \/ o' ∈ retired) as [->|Hin].
    { destruct r as [e|[|]]; [by right| |by right]. by apply elem_of_cons in Ho'. }
    + split; [|done]. exact (I6 observation row Hrow).
    + destruct (I7 o' Hin) as [K1 K2]. eauto.
Qed.

Lemma step_ok s s' : step s s' -> Inv s -> Inv s' /\ continues s s'.
Proof.
  assert (Hsub : forall (fs fs' : Storage.Files), fs ⊆ fs' -> forall p d d', fs !! p = Some d -> fs' !! p = Some d' -> d' = d).
  { intros fs fs' Hs p d d' H1 H2. pose proof (lookup_weaken _ _ _ _ H1 Hs). congruence. }
  assert (Hdel : forall (fs fs' : Storage.Files) q, (fs' = fs \/ fs' = delete q fs) ->
            forall p d d', fs !! p = Some d -> fs' !! p = Some d' -> d' = d).
  { intros fs fs' q [-> | ->] p d d' H1 H2; [congruence|]. apply lookup_delete_Some in H2 as [_ H2]. congruence. }
  intros [MaxBytes calls id at_ data fs db saved purging retired r fs' Hw Hs
    |w sub id a fs db saved purging retired r db' Hin Hof H
    |w sub apiKey keyHash fingerprint archive now fs db saved purging retired r db' Hin H
    |A w body fs db saved purging retired r db' Hp H|w mid p fs db saved purging retired r db' H
    |mid path calls fs db saved purging retired ok fs' Hin H|w mid path p fs db saved purging retired r db' Hin H
    |w look given path fs db saved purging retired r db' H
    |w observation row text actor reason apply stat same fs db saved purging retired r db' Hrow H
    |o look remove fs db saved purging retired ok fs' Hin H] HI.
  - split; [by eapply step_save_ok|]. apply continues_files, Hsub. by eapply Save_grows.
  - destruct (enqueue_outcome _ _ _ _ _ H) as [->|HE]; [split; [done|apply continues_same]|].
    split; [by apply (inv_entered sub id a fs db)|by eapply entered_continues].
  - destruct (submit_outcome _ _ _ _ _ _ _ _ _ _ H) as [->|(a & s1 & Ha & Hof & HE)]; [split; [done|apply continues_same]|].
    split; [apply (inv_entered s1 (Message.s_ID sub) a fs db); auto|by eapply entered_continues].
  - pose proof (preserves_transact _ _ _ _ _ _ Hp H) as HE. split; [by apply (inv_same db)|]. unfold archiving in HE. injection HE as E1 E2 E3.
    apply continues_db; [unfold retains; congruence|]. intros k c Hc. left. congruence.
  - split; [by eapply step_intent_ok|]. destruct (intent_outcome _ _ _ _ _ _ H) as [_ [->|(m & Hm & _ & _ & HT & HA)]].
    + apply continues_same.
    + apply restates_continues; [done|]. intros k. by apply (pending_restates mid m).
  - destruct (step_remove_ok _ _ _ _ _ _ _ _ _ _ Hin H HI) as [HI' Hf]. split; [done|]. apply continues_files. by eapply Hdel.
  - destruct (complete_restates _ _ _ _ _ _ H) as [->|[HT HA]]; [split; [done|apply continues_same]|].
    split; [by apply (inv_restate db)|by apply restates_continues].
  - destruct (step_observe_ok _ _ _ _ _ _ _ _ _ _ _ H HI) as (HI' & HA & HR). split; [done|]. apply continues_db; [done|]. rewrite HA. auto.
  - destruct (step_retire_ok _ _ _ _ _ _ _ _ _ _ _ _ _ _ _ _ Hrow H HI) as (HI' & HA & HR). split; [done|]. apply continues_db; [done|]. rewrite HA. auto.
  - destruct (step_unlink_ok _ _ _ _ _ _ _ _ _ _ Hin H HI) as [HI' Hf]. split; [done|]. apply continues_files. by eapply Hdel.
Qed.

Lemma reachable_inv s : reachable s -> Inv s.
Proof.
  induction 1 as [s (Hm & Ho & Hr & Hs & Hp & Hd)|s s' _ IH Hstep]; [|by apply (step_ok s s')].
  split; unfold archives; rewrite ?Hm, ?Ho, ?Hr, ?Hs, ?Hp, ?Hd; intros *; rewrite ?lookup_fmap, ?lookup_empty; try done;
    by rewrite elem_of_nil.
Qed.

End Life.

End ArchiveLife.
