(* ===== verification/ArchiveSpec.v ===== *)
(** * What archives promise

    The theorems about the life of archives, and that the operations of the
    code ([Receive], [ReceiveReplacing], [Cleanup], [ReclaimArchive]) are runs
    of its steps. *)

From S2P Require Import Prelude Sha256 GoText Delivery SmtpClient Provider Database UuidText Message Queue Worker QueueOps QueueSpec Frames SubmitRules Auth Storage Receive Retention Reclaim Fingerprint ApiReceive Demo ArchiveLife.

Module ArchiveSpec.

Import Retention Reclaim ArchiveLife.
#[local] Opaque uuid_text.

Section Spec.
  Context {parser : UuidParser} (root : string).

(** *** Runs *)

Context (parse_width : forall s u, ParseUUID s = Some u -> (u < width)%N).

Lemma reachable_run s s' : reachable root s -> rtc (step root) s s' -> reachable root s'.
Proof. intros Hr H. revert Hr. induction H as [x|x y z H1 _ IH]; [done|]. intros Hr. apply IH. by eapply reachable_step. Qed.

Lemma run_keeps s s' :
  Inv s -> rtc (step root) s s' -> Inv s' /\
  forall mid c, archives (st_db s) !! mid = Some c -> exists c', archives (st_db s') !! mid = Some c' /\
    archive_in c' = archive_in c /\
    (state_in c' = "AVAILABLE"%string -> state_in c = "AVAILABLE"%string /\
       forall data, st_files s !! Storage.Path (archive_in c) = Some data -> st_files s' !! Storage.Path (archive_in c) = Some data).
Proof.
  intros HI Hrun. revert HI. induction Hrun as [s|s s1 s' Hstep _ IH]; intros HI.
  - split; [done|]. intros mid c Hc. exists c. auto.
  - destruct (step_ok root parse_width s s1 Hstep HI) as [HI1 [Hf HA _]]. destruct (IH HI1) as [HI' Hend]. split; [done|].
    intros mid c Hc. destruct (HA mid c Hc) as (c1 & Hc1 & E1 & K1). destruct (Hend mid c1 Hc1) as (c' & Hc' & E' & K').
    exists c'. split; [done|]. split; [congruence|]. intros Hav. destruct (K' Hav) as [Hav1 Hd]. split; [auto|].
    intros data Hdata. rewrite E1 in Hd. apply Hd.
    destruct (i_file _ HI1 mid c1 Hc1 Hav1) as (data1 & Hdata1 & _). rewrite E1 in Hdata1.
    by rewrite Hdata1, (Hf _ _ _ Hdata Hdata1).
Qed.

Lemma run_retains s s' : Inv s -> rtc (step root) s s' -> retains (st_db s) (st_db s').
Proof.
  intros HI Hrun. revert HI. induction Hrun as [s|s s1 s' Hstep _ IH]; intros HI; [by intros aid|].
  destruct (step_ok root parse_width s s1 Hstep HI) as [HI1 [_ _ Hr]]. intros aid Ha. by apply (IH HI1), Hr.
Qed.

Lemma archives_message db mid m :
  messages db !! mid = Some m -> archives db !! mid = Some (archive_columns m).
Proof. intros H. unfold archives. by rewrite lookup_fmap, H. Qed.

Lemma message_archives db mid c :
  archives db !! mid = Some c -> exists m, messages db !! mid = Some m /\ c = archive_columns m.
Proof. unfold archives. rewrite lookup_fmap. destruct (messages db !! mid) as [m|]; [|done]. intros [= <-]. eauto. Qed.

(** The file holds the message as it was received. *)
Definition intact (fs : Storage.Files) (m : Message) (data : list byte) : Prop :=
  fs !! m_eml_path m = Some data /\ m_eml_size m = Z.of_nat (length data) /\
  m_eml_sha256 m = EncodeToString (Sha.Sum256 data).

Lemma intact_holds fs m : holds_file fs (archive_in (archive_columns m)) -> exists data, intact fs m data.
Proof. intros (data & Hd & E). exists data. simpl in *. unfold intact. injection E as E1 E2. done. Qed.

(** C11. Archives are never lost.  In every state that reception, delivery,
    retention and reclaiming can reach, in whatever order and wherever they
    stop: a message keeps its row and its path, size and digest for ever; as
    long as its archive is AVAILABLE the file is there with exactly the bytes
    it had in any earlier state, and they have the recorded length and SHA-256;
    every job a worker claims reads back exactly these bytes; and an identifier
    that was retired, the condition for reclaiming its file, stays retired and
    is never that of a message. *)
Theorem archive_never_lost s s' :
  reachable root s -> rtc (step root) s s' ->
  (forall mid m, messages (st_db s) !! mid = Some m -> exists m', messages (st_db s') !! mid = Some m' /\
     m_eml_path m' = m_eml_path m /\ m_eml_size m' = m_eml_size m /\ m_eml_sha256 m' = m_eml_sha256 m /\
     (available m' = true -> available m = true /\
        exists data, intact (st_files s) m data /\ intact (st_files s') m' data)) /\
  (forall repo w j db', transact w (Queue.claim repo) (st_db s') = (inr j, db') ->
     exists data, st_files s' !! Queue.j_Path j = Some data /\
       forall MaxBytes, Z.of_nat (length data) <= MaxBytes ->
         Worker.readVerified MaxBytes j true (st_files s' !! Queue.j_Path j) = Some data) /\
  (forall o, o ∈ st_retired s \/ archive_retirements (st_db s) !! ob_ArchiveID o <> None ->
     archive_retirements (st_db s') !! ob_ArchiveID o <> None /\ messages (st_db s') !! ob_ArchiveID o = None).
Proof.
  intros Hr Hrun. pose proof (reachable_inv root parse_width s Hr) as HI.
  destruct (run_keeps s s' HI Hrun) as [HI' Hkeep]. split; [|split].
  - intros mid m Hm. apply archives_message in Hm. destruct (Hkeep mid _ Hm) as (c' & Hc' & E & Hav).
    apply message_archives in Hc' as (m' & Hm' & ->). injection E as E1 E2 E3. exists m'. do 4 (split; [done|]).
    intros Ha. apply String.eqb_eq in Ha. destruct (Hav Ha) as [Ha0 Hdata]. split; [by apply String.eqb_eq|].
    destruct (intact_holds _ _ (i_file _ HI mid _ Hm Ha0)) as (data & Hin). exists data. split; [done|].
    destruct Hin as (H1 & H2 & H3). specialize (Hdata data H1). simpl in Hdata. unfold intact.
    by rewrite E1, E2, E3.
  - intros repo w j db' Hclaim.
    destruct (wtriple_value _ _ _ _ _ _ _ (claim_admitted repo w (st_db s')) eq_refl Hclaim) as [HA|(d & [] & _)].
    destruct HA as (m & p & km & kp & ka & Hm & Hel & _ & _ & _ & _ & _ & _ & J1 & J2 & J3).
    unfold Queue.eligible in Hel. rewrite !andb_true_iff in Hel. destruct Hel as ((((((_ & _) & _) & Hav) & _) & _) & _).
    apply String.eqb_eq in Hav. apply archives_message in Hm.
    destruct (intact_holds _ _ (i_file _ HI' _ _ Hm Hav)) as (data & H1 & H2 & H3). exists data. rewrite J1. split; [done|].
    intros MaxBytes Hmax. rewrite H1. apply (Receive.readVerified_archive MaxBytes j (m_eml_path m) data); [congruence|simpl; congruence|done].
  - intros o Ho. assert (Hret : archive_retirements (st_db s') !! ob_ArchiveID o <> None).
    { apply (run_retains s s' HI Hrun). destruct Ho as [Ho|Ho]; [by apply (i_reclaiming _ HI)|done]. }
    split; [done|]. apply archives_none. by apply (i_retired _ HI').
Qed.

(** Only finished messages lose their archive.  The one step at which the
    archive of a message stops being AVAILABLE is the intent of a cleanup, and
    at that moment the message is final and unlocked, has no attempt in
    progress and no recipient whose outcome is open or unknown, was completed
    before the retention period, and nothing refers to it: no idempotency key,
    submission, notification under way or dead, feedback publication, nor any
    unreviewed feedback at all. *)
Theorem only_finished_expire s s' mid m m' :
  reachable root s -> step root s s' ->
  messages (st_db s) !! mid = Some m -> available m = true ->
  messages (st_db s') !! mid = Some m' -> available m' = false ->
  terminal mid m (st_db s) = true /\ retentionDependencies mid m (st_db s) = true /\
  exists p, lt_time (m_completed_at m) (days_before (Now p) (EMLDays p)) = true.
Proof.
  intros Hr Hstep Hm Hav Hm' Hno. pose proof (reachable_inv root parse_width s Hr) as HI.
  assert (Hkey : forall db, archives db !! mid = archives (st_db s) !! mid -> st_db s' = db -> False).
  { intros db E <-. rewrite (archives_message _ _ _ Hm), (archives_message _ _ _ Hm') in E. injection E as _ _ _ E _.
    unfold available in *. rewrite E in Hno. congruence. }
  destruct Hstep as [|w sub id a fs db saved purging retired r db' Hin Hof H
    |w sub apiKey keyHash fingerprint archive now fs db saved purging retired r db' Hin H
    |A w body fs db saved purging retired r db' Hp H|w k p fs db saved purging retired r db' H|
    |w k path p fs db saved purging retired r db' Hin H
    |w look given path fs db saved purging retired r db' H
    |w observation row text actor reason apply stat same fs db saved purging retired r db' Hrow H|]; simpl in *.
  - by destruct (Hkey db).
  - assert (archives db' !! mid = archives db !! mid); [|by destruct (Hkey db')].
    destruct (enqueue_outcome _ _ _ _ _ H) as [->|(Hn & _ & _ & _ & ->)]; [done|]. rewrite lookup_insert_ne; [done|congruence].
  - assert (archives db' !! mid = archives db !! mid); [|by destruct (Hkey db')].
    destruct (submit_outcome _ _ _ _ _ _ _ _ _ _ H) as [->|(a & s1 & _ & _ & Hn & _ & _ & _ & ->)]; [done|].
    rewrite lookup_insert_ne; [done|congruence].
  - assert (archives db' !! mid = archives db !! mid); [|by destruct (Hkey db')].
    pose proof (preserves_transact _ _ _ _ _ _ Hp H) as HE. unfold archiving in HE. by injection HE as _ _ ->.
  - destruct (intent_outcome _ _ _ _ _ _ H) as [_ [->|(m0 & Hm0 & Ht & Hc & _ & HA)]]; [by destruct (Hkey db)|].
    destruct (decide (k = mid)) as [->|Hne].
    + rewrite Hm in Hm0. injection Hm0 as <-. unfold retentionCandidate in Hc. rewrite Hav in Hc.
      assert (pending m = false) as Hpen.
      { unfold available in Hav. apply String.eqb_eq in Hav. unfold pending. by rewrite Hav. }
      rewrite Hpen, orb_false_r in Hc. apply andb_true_iff in Hc as [Hc Hd]. simpl in Hc. eauto.
    + destruct (Hkey db'); [|done]. rewrite HA. by rewrite lookup_insert_ne.
  - by destruct (Hkey db).
  - assert (archives db' !! mid = archives db !! mid); [|by destruct (Hkey db')].
    destruct (transact_triple _ _ _ _ _ _ _ (purge_complete_spec k p db) eq_refl H) as [->|(r' & [_ HA] & _)]; [done|].
    destruct (HA mid) as [E|(c & t & Hc & Hpen & _)]; [done|]. rewrite (archives_message _ _ _ Hm) in Hc. injection Hc as <-.
    unfold state_in in Hpen. simpl in Hpen. unfold available in Hav. by rewrite Hpen in Hav.
  - destruct (step_observe_ok root _ _ _ _ _ _ _ _ _ _ _ H HI) as (_ & HA & _). destruct (Hkey db'); [by rewrite HA|done].
  - destruct (step_retire_ok root _ _ _ _ _ _ _ _ _ _ _ _ _ _ _ _ Hrow H HI) as (_ & HA & _). destruct (Hkey db'); [by rewrite HA|done].
  - by destruct (Hkey db).
Qed.

(** *** The operations of the code are runs *)

Lemma framed_step A w (body : M (TxEnd A)) fs db saved purging retired r db' :
  framed body -> transact w body db = (r, db') ->
  rtc (step root) (MkState fs db saved purging retired) (MkState fs db' saved purging retired).
Proof. intros Hf H. apply rtc_once. eapply step_other; [by apply framed_archiving|exact H]. Qed.

Lemma Audit_step w action actor data fs db saved purging retired r db' :
  transact w (Audit action actor data) db = (r, db') ->
  rtc (step root) (MkState fs db saved purging retired) (MkState fs db' saved purging retired).
Proof.
  intros H. apply rtc_once. eapply step_other; [|exact H]. unfold Audit.
  apply preserves_bind; [by apply auditTx_view|intros; apply preserves_ret].
Qed.

Lemma receive_steps {addresses : MailParser} {headers : Receive.HeaderParser}
    acquired MaxBytes calls w account from rcpts id received archived input ending fs db r fs' db' saved purging retired :
  (id < width)%N ->
  Receive.Receive acquired root MaxBytes calls w account from rcpts id received archived input ending fs db = (r, fs', db') ->
  exists saved', rtc (step root) (MkState fs db saved purging retired) (MkState fs' db' saved' purging retired).
Proof.
  intros Hw H. unfold Receive.Receive in H. destruct (negb acquired); [simplify_eq; eauto using rtc_refl|].
  destruct (_ || _); [simplify_eq; eauto using rtc_refl|].
  destruct (Receive.readHeader input ending) as [e|[header rest]]; [simplify_eq; eauto using rtc_refl|].
  destruct (Receive.metadata header account) as [e|[[mid author] subject]]; [simplify_eq; eauto using rtc_refl|].
  destruct (Storage.Save root MaxBytes _ id received (header ++ rest) fs) as [[e|a] fs1] eqn:Es.
  { simplify_eq. exists saved. apply rtc_once.
    exact (step_save root MaxBytes _ id received (header ++ rest) fs db' saved purging retired (inl e) fs' Hw Es). }
  exists ((id, a) :: saved). eapply rtc_l.
  { exact (step_save root MaxBytes _ id received (header ++ rest) fs db saved purging retired (inr a) fs1 Hw Es). }
  apply rtc_once. set (s := Message.MkSubmission _ _ _ _ _ _ _ _ _ _ _ _ _ _ _ _ _) in H.
  destruct (transact w (Message.Enqueue s) db) as [q db1] eqn:Et. assert (fs' = fs1 /\ db' = db1) as [-> ->] by (destruct q; by simplify_eq).
  eapply (step_enqueue root w s id a); [by left|done|exact Et].
Qed.

(** A transaction that does not get past the admission changes nothing. *)
Lemma refused_submission w s apiKey keyHash fingerprint publish db r db' :
  (forall st, Message.admission s apiKey keyHash fingerprint w (0%nat, db) <> inr (None, st)) ->
  transact w (Message.enqueueIdempotent s apiKey keyHash fingerprint publish) db = (r, db') -> db' = db.
Proof.
  intros Hno. unfold transact, Message.enqueueIdempotent. unfold mbind at 1, M_bind at 1.
  destruct (Message.admission _ _ _ _ _ _) as [e|[[y|] [n d]]]; [by intros [= _ <-]|by intros [= _ <-]|].
  by destruct (Hno (n, d)).
Qed.

Lemma replacing_steps {addresses : MailParser} {headers : Receive.HeaderParser}
    io MaxBytes limit calls w account from rcpts r identity key stream expiresAt scheduleAt
    replaces business seen fs db res fs' db' saved purging retired :
  (forall id, ApiReceive.io_id io = Some id -> (id < width)%N) ->
  ApiReceive.ReceiveReplacing io MaxBytes root limit calls w account from rcpts r identity key stream expiresAt scheduleAt
    replaces business seen fs db = (res, fs', db') ->
  exists saved', rtc (step root) (MkState fs db saved purging retired) (MkState fs' db' saved' purging retired).
Proof.
  intros Hw. unfold ApiReceive.ReceiveReplacing.
  destruct (ApiReceive.prepare _ _ _ _ _ _ _ _ _ _ _ _) as [e|[[s fingerprint] data]]; [intros [= _ <- <-]; eauto using rtc_refl|].
  destruct (negb _); [intros [= _ <- <-]; eauto using rtc_refl|].
  destruct (ApiReceive.io_lock io) as [[]|]; [|intros [= _ <- <-]; eauto using rtc_refl|intros [= _ <- <-]; eauto using rtc_refl].
  destruct (negb _); [intros [= _ <- <-]; eauto using rtc_refl|].
  destruct (api_submission_ledger seen !! _) as [l|]; [destruct (String.eqb _ _); intros [= _ <- <-]; eauto using rtc_refl|].
  destruct (negb _); [intros [= _ <- <-]; eauto using rtc_refl|].
  destruct (ApiReceive.io_id io) as [id|]; [|intros [= _ <- <-]; eauto using rtc_refl].
  specialize (Hw id eq_refl). set (s1 := s <| Message.s_ID := id |> <| Message.s_ReceivedAt := ApiReceive.io_received io |>).
  set (kh := EncodeToString _). clearbody kh.
  destruct (Storage.Save root limit calls id (ApiReceive.io_received io) data fs) as [q fs1] eqn:Es.
  set (archive := match q with inr a => Some a | inl _ => None end).
  assert (Earch : match q with
                  | inr a => Some (Storage.Path a, Storage.Size a, Storage.SHA256 a)
                  | inl _ => None
                  end = option_map (fun a => (Storage.Path a, Storage.Size a, Storage.SHA256 a)) archive) by (by destruct q).
  rewrite Earch. destruct (transact w _ db) as [result db1] eqn:Et. intros [= _ <- <-].
  destruct (Message.admission s1 identity kh fingerprint w (0%nat, db)) as [e|[[y|] st]] eqn:Ea.
  1,2: exists saved; apply refused_submission in Et as ->; [apply rtc_refl|intros st'; by rewrite Ea].
  exists (match q with inr a => (id, a) :: saved | inl _ => saved end). eapply rtc_l.
  { exact (step_save root limit calls id (ApiReceive.io_received io) data fs db saved purging retired q fs1 Hw Es). }
  apply rtc_once. eapply step_submit; [|exact Et]. intros a Ha. unfold archive in Ha. destruct q; [done|].
  injection Ha as <-. by left.
Qed.

Lemma purge_steps w1 w2 calls mid p fs db r fs' db' saved purging retired :
  purge w1 w2 calls root mid p fs db = (r, fs', db') ->
  exists purging', rtc (step root) (MkState fs db saved purging retired) (MkState fs' db' saved purging' retired).
Proof.
  unfold purge. destruct (transact w1 (purge_intent mid p) db) as [[e|path] db1] eqn:E1; intros H.
  { simplify_eq. exists purging. apply rtc_once. exact (step_intent root w1 mid p fs' db saved purging retired (inl e) db' E1). }
  exists ((mid, path) :: purging). eapply rtc_l.
  { exact (step_intent root w1 mid p fs db saved purging retired (inr path) db1 E1). }
  destruct (purge_files root path calls fs) as [ok fs1] eqn:E2. eapply rtc_l.
  { exact (step_remove root mid path calls fs db1 saved ((mid, path) :: purging) retired ok fs1 (list_elem_of_here _ _) E2). }
  destruct ok; [|simplify_eq; apply rtc_refl]. destruct (transact w2 (purge_complete mid p) db1) as [q db2] eqn:E3.
  simplify_eq. apply rtc_once. eapply step_complete; [by left|exact E3].
Qed.

Lemma purge_all_steps rn k p items report fs db stop report' fs' db' saved purging retired :
  purge_all rn k root p items report fs db = (stop, report', fs', db') ->
  exists purging', rtc (step root) (MkState fs db saved purging retired) (MkState fs' db' saved purging' retired).
Proof.
  revert k report fs db purging. induction items as [|item items IH]; intros k report fs db purging; cbn [purge_all].
  { intros [= _ _ <- <-]. eauto using rtc_refl. }
  destruct (purge _ _ _ _ _ _ _ _) as [[r fs1] db1] eqn:Ep.
  destruct (purge_steps _ _ _ _ _ _ _ _ _ _ saved purging retired Ep) as [purging1 H1]. destruct r as [e|u].
  - destruct (transact (rn_failed rn k) _ db1) as [[e'|u'] db2] eqn:Ea;
      pose proof (Audit_step _ _ _ _ fs1 db1 saved purging1 retired _ _ Ea) as H2.
    + intros [= _ _ <- <-]. exists purging1. by etrans.
    + intros H. destruct (IH _ _ _ _ purging1 H) as [purging2 H3]. exists purging2. by do 2 (etrans; [eassumption|]).
  - intros H. destruct (IH _ _ _ _ purging1 H) as [purging2 H3]. exists purging2. by etrans.
Qed.

Lemma clear_debug_archives p : preserves archiving (clear_debug p).
Proof.
  unfold clear_debug. apply preserves_bind; [apply preserves_stmt; intros t db a db' H; by injection H as <- <-|].
  intros n. apply preserves_bind; [by apply auditTx_view|intros; apply preserves_ret].
Qed.

Lemma clear_and_finish_steps rn p report fs db stop report' db' saved purging retired :
  clear_and_finish rn p report db = (stop, report', db') ->
  rtc (step root) (MkState fs db saved purging retired) (MkState fs db' saved purging retired).
Proof.
  unfold clear_and_finish.
  assert (Hend : forall report db1, (match transact (rn_finished rn) (Audit "CLEANUP_FINISHED" (Actor p) (report_json report)) db1 with
      | (inl e, db1) => (Some e, report, db1)
      | (inr _, db1) =>
          (match Failures report with [] => None | _ => Some (ErrText "archive purges failed; pending files can be retried") end,
           report, db1)
      end) = (stop, report', db') ->
    rtc (step root) (MkState fs db1 saved purging retired) (MkState fs db' saved purging retired)).
  { intros rep db1. destruct (transact (rn_finished rn) _ db1) as [[e|u] db2] eqn:Ea;
      pose proof (Audit_step _ _ _ _ fs db1 saved purging retired _ _ Ea); by intros [= _ _ <-]. }
  destruct (0 <? DebugDays p); [|apply Hend].
  destruct (transact (rn_debug rn) (clear_debug p) db) as [q db1] eqn:Ed.
  assert (H1 : rtc (step root) (MkState fs db saved purging retired) (MkState fs db1 saved purging retired))
    by (apply rtc_once; eapply step_other; [apply clear_debug_archives|exact Ed]).
  destruct q as [e|n]; [by intros [= _ _ <-]|]. intros H. etrans; [exact H1|]. by eapply Hend.
Qed.

Lemma cleanup_steps rn p fs db err report fs' db' saved purging retired :
  Cleanup rn root p fs db = (err, report, fs', db') ->
  exists purging', rtc (step root) (MkState fs db saved purging retired) (MkState fs' db' saved purging' retired).
Proof.
  unfold Cleanup. destruct (validateRetention (rn_now rn) p) as [e|q]; [intros [= _ _ <- <-]; eauto using rtc_refl|].
  destruct (negb (rn_conn rn)); [intros [= _ _ <- <-]; eauto using rtc_refl|].
  destruct (rn_lock rn) as [[]|]; [|intros [= _ _ <- <-]; eauto using rtc_refl|intros [= _ _ <- <-]; eauto using rtc_refl].
  destruct (if 0 <? EMLDays q then _ else _) as [e|items]; [intros [= _ _ <- <-]; eauto using rtc_refl|].
  destruct (if 0 <? DebugDays q then _ else _) as [e|n]; [intros [= _ _ <- <-]; eauto using rtc_refl|].
  destruct (negb (Apply q)); [intros [= _ _ <- <-]; eauto using rtc_refl|].
  destruct (transact (rn_started rn) _ db) as [[e|u] db1] eqn:Es;
    pose proof (Audit_step _ _ _ _ fs db saved purging retired _ _ Es) as H1; [intros [= _ _ <- <-]; eauto|].
  destruct (purge_all _ _ _ _ _ _ _ _) as [[[stop rep] fs2] db2] eqn:Ep.
  destruct (purge_all_steps _ _ _ _ _ _ _ _ _ _ _ saved purging retired Ep) as [purging' H2].
  destruct stop; [intros [= _ _ <- <-]; exists purging'; by etrans|].
  destruct (clear_and_finish rn q rep db2) as [[e' rep'] db3] eqn:Ec. intros [= _ _ <- <-]. exists purging'.
  etrans; [exact H1|]. etrans; [exact H2|]. by eapply clear_and_finish_steps.
Qed.

Lemma lookup_observed w observation db o old d :
  transact w (reclaim_observation root observation) db = (inr (o, old), d) ->
  exists row, archive_observations db !! observation = Some row /\ o = observed observation row.
Proof.
  intros H.
  assert (Ht : triple (fun x => x = db) (reclaim_observation root observation) (fun r x => match r with
    | Commit (inr (o, _)) => exists row, archive_observations db !! observation = Some row /\ o = observed observation row
    | _ => False end)).
  { unfold reclaim_observation.
    step (fun (r : ArchiveObservation * bool) (_ : DB) =>
            exists row, archive_observations db !! observation = Some row /\ fst r = observed observation row).
    - apply triple_query_row. intros t x r -> Hr. destruct (archive_observations db !! observation) as [row|]; [|done].
      destruct (String.eqb _ _); [|done]. injection Hr as <-. by exists row.
    - destruct a as [o' b]. by apply triple_return. }
  destruct (transact_value _ _ _ _ _ _ _ Ht eq_refl H) as [HQ|(x & [] & _)]. exact HQ.
Qed.

Lemma reclaimed_archives archive : preserves archiving (reclaimed archive).
Proof. unfold reclaimed. apply preserves_bind; [by apply preserves_exec|intros; apply preserves_ret]. Qed.

Lemma reclaim_steps io observation actor reason apply fs db err result fs' db' saved purging retired :
  ReclaimArchive io root observation actor reason apply fs db = (err, result, fs', db') ->
  exists retired', rtc (step root) (MkState fs db saved purging retired) (MkState fs' db' saved purging retired').
Proof.
  unfold ReclaimArchive. destruct (ParseUUID observation) as [u|]; [|intros [= _ _ <- <-]; eauto using rtc_refl].
  destruct (apply && _); [intros [= _ _ <- <-]; eauto using rtc_refl|].
  destruct (transact (rc_lookup io) (reclaim_observation root u) db) as [[e|[o old]] d] eqn:El; cbn [fst];
    [intros [= _ _ <- <-]; eauto using rtc_refl|].
  apply lookup_observed in El as (row & Hrow & ->). destruct (negb old); [intros [= _ _ <- <-]; eauto using rtc_refl|].
  destruct (fst (transact (rc_existing io) _ db)) as [e|existing]; [intros [= _ _ <- <-]; eauto using rtc_refl|].
  destruct (match existing with Some _ => _ | None => false end); [intros [= _ _ <- <-]; eauto using rtc_refl|].
  destruct (recoveryFile root _ (rc_first io) fs) as [le|current] eqn:Ei; cbv zeta;
  (match goal with |- (if negb ?b then _ else _) = _ -> _ => destruct (negb b) end; [intros [= _ _ <- <-]; eauto using rtc_refl|]);
  (destruct (transact (rc_fence io) _ db) as [q db1] eqn:Et;
   pose proof (step_retire root _ _ _ _ _ _ _ _ _ fs db saved purging retired q db1 Hrow Et) as H1; cbv beta in H1;
   destruct q as [e|[|]]; [intros [= _ _ <- <-]; eauto using rtc_once| |intros [= _ _ <- <-]; eauto using rtc_once]).
  - (* the file was already gone *)
    destruct (negb true || negb (rc_sync io)); [intros [= _ _ <- <-]; eauto using rtc_once|].
    destruct (transact (rc_done io) _ db1) as [q db2] eqn:Ed. intros H. eexists. eapply rtc_l; [exact H1|]. apply rtc_once.
    assert (fs' = fs /\ db' = db2) as [-> ->] by (destruct q; by simplify_eq). eapply step_other; [apply reclaimed_archives|exact Ed].
  - destruct (unlink root (observed u row) (rc_second io) (rc_remove io) fs) as [ok fs1] eqn:Eu.
    pose proof (step_unlink root _ _ _ fs db1 saved purging _ ok fs1 (list_elem_of_here (observed u row) retired) Eu) as H2.
    destruct (negb ok || negb (rc_sync io)); [intros [= _ _ <- <-]; eexists; eapply rtc_l; [exact H1|]; by apply rtc_once|].
    destruct (transact (rc_done io) _ db1) as [q db2] eqn:Ed. intros H. eexists. eapply rtc_l; [exact H1|].
    eapply rtc_l; [exact H2|]. apply rtc_once.
    assert (fs' = fs1 /\ db' = db2) as [-> ->] by (destruct q; by simplify_eq). eapply step_other; [apply reclaimed_archives|exact Ed].
Qed.

(** C12. The operations of the code are runs of the system.  Whatever a call of
    [Receive], [ReceiveReplacing], [Cleanup] or [ReclaimArchive] does to the
    files and the database, wherever it fails or loses an answer, and any
    transaction of the queue and the other services that leaves the archive
    columns alone, is a sequence of the steps above. *)
Theorem operations_are_runs fs db saved purging retired :
  (forall (addresses : MailParser) (headers : Receive.HeaderParser) acquired MaxBytes calls w account from rcpts id received
     archived input ending r fs' db', (id < width)%N ->
     Receive.Receive acquired root MaxBytes calls w account from rcpts id received archived input ending fs db = (r, fs', db') ->
     exists saved', rtc (step root) (MkState fs db saved purging retired) (MkState fs' db' saved' purging retired)) /\
  (forall (addresses : MailParser) (headers : Receive.HeaderParser) io MaxBytes limit calls w account from rcpts r identity key
     stream expiresAt scheduleAt replaces business seen res fs' db',
     (forall id, ApiReceive.io_id io = Some id -> (id < width)%N) ->
     ApiReceive.ReceiveReplacing io MaxBytes root limit calls w account from rcpts r identity key stream expiresAt scheduleAt
       replaces business seen fs db = (res, fs', db') ->
     exists saved', rtc (step root) (MkState fs db saved purging retired) (MkState fs' db' saved' purging retired)) /\
  (forall rn p err report fs' db', Cleanup rn root p fs db = (err, report, fs', db') ->
     exists purging', rtc (step root) (MkState fs db saved purging retired) (MkState fs' db' saved purging' retired)) /\
  (forall io observation actor reason apply err result fs' db',
     ReclaimArchive io root observation actor reason apply fs db = (err, result, fs', db') ->
     exists retired', rtc (step root) (MkState fs db saved purging retired) (MkState fs' db' saved purging retired')) /\
  (forall A w (body : M (TxEnd A)) r db', framed body -> transact w body db = (r, db') ->
     rtc (step root) (MkState fs db saved purging retired) (MkState fs db' saved purging retired)).
Proof.
  split; [intros; by eapply receive_steps|]. split; [intros; by eapply replacing_steps|].
  split; [intros; by eapply cleanup_steps|]. split; [intros; by eapply reclaim_steps|]. intros; by eapply framed_step.
Qed.

End Spec.

(** ** A message received, suppressed, kept for a day and removed *)

(** Reading the canonical form only *)
Definition canonical_parser : UuidParser := fun s =>
  let u := uuid_value 0 s in if (u <? width)%N && String.eqb (uuid_text u) s then Some u else None.

Lemma canonical_width s u : canonical_parser s = Some u -> (u < width)%N.
Proof.
  unfold canonical_parser. destruct (N.ltb_spec (uuid_value 0 s) width) as [Hw|]; [|done].
  destruct (String.eqb _ _); [|done]. intros H. apply (inj Some) in H as <-. done.
Qed.

Definition life_db : DB :=
  demo_db <| messages := ∅ |> <| recipients := ∅ |>
    <| suppression_entries := {[1%N := MkSuppression "a@example.org" "HARD_BOUNCE" "manual" "op" "" 0 None None]} |>.

Definition life_receive :=
  Receive.Receive (addresses := Receive.demo_addresses) (headers := Receive.demo_headers) true "data" 1000 Storage.demo_calls
    (demo_world (demo_day + Second) 9000) Receive.demo_account "f@example.com" ["a@example.org"]%string 300 demo_day
    (demo_day + Second) Receive.demo_input Receive.EOF ∅ life_db.
Definition life_files : Storage.Files := snd (fst life_receive).
Definition life_rows : DB := snd life_receive.

Definition life_policy : Retention := MkRetention 1 1 10 true "op" (demo_day + 72 * Hour).
Definition life_intent := transact (demo_world (demo_day + 72 * Hour) 9100) (purge_intent 300 life_policy) life_rows.
Definition life_run : Run :=
  let w n := demo_world (demo_day + 72 * Hour) (9100 + 100 * n) in
  MkRun true (Some true) (demo_day + 72 * Hour) (w 1%N) (w 2%N) (w 3%N) (fun _ => w 4%N) (fun _ => w 5%N) (fun _ => w 6%N)
    (fun _ => MkFileCalls true true true) (w 7%N) (w 8%N).
Definition life_cleanup := Cleanup life_run "data" life_policy life_files life_rows.

Example life_example :
  fst (fst (fst life_cleanup)) = None /\ Purged (snd (fst (fst life_cleanup))) = 1 /\
  snd (fst life_cleanup) !! Storage.archive_path "data" demo_day 300 = None /\
  option_map m_archive_state (messages (snd life_cleanup) !! 300%N) = Some "PURGED"%string.
Proof. vm_compute. done. Qed.

Definition life_start : State := MkState ∅ life_db [] [] [].
Definition life_received (saved : list (UUID * Storage.Archive)) : State := MkState life_files life_rows saved [] [].

Lemma operations_are_runs_witness :
  (exists saved, rtc (@step canonical_parser "data") life_start (life_received saved)) /\
  (exists purging, rtc (@step canonical_parser "data") (life_received [])
     (MkState (snd (fst life_cleanup)) (snd life_cleanup) [] purging [])).
Proof.
  split.
  - destruct (@operations_are_runs canonical_parser "data" ∅ life_db [] [] []) as (H & _).
    apply (H Receive.demo_addresses Receive.demo_headers true 1000 Storage.demo_calls (demo_world (demo_day + Second) 9000)
      Receive.demo_account "f@example.com"%string ["a@example.org"%string] 300%N demo_day (demo_day + Second) Receive.demo_input
      Receive.EOF (fst (fst life_receive))); [vm_compute; reflexivity|].
    unfold life_files, life_rows, life_receive. generalize (Receive.Receive (addresses := Receive.demo_addresses)
      (headers := Receive.demo_headers) true "data" 1000 Storage.demo_calls
      (demo_world (demo_day + Second) 9000) Receive.demo_account "f@example.com" ["a@example.org"]%string 300 demo_day
      (demo_day + Second) Receive.demo_input Receive.EOF ∅ life_db). intros [[r fs] db]. reflexivity.
  - destruct (@operations_are_runs canonical_parser "data" life_files life_rows [] [] []) as (_ & _ & H & _).
    apply (H life_run life_policy (fst (fst (fst life_cleanup))) (snd (fst (fst life_cleanup)))).
    change (life_cleanup = (fst (fst (fst life_cleanup)), snd (fst (fst life_cleanup)), snd (fst life_cleanup), snd life_cleanup)).
    generalize life_cleanup. intros [[[e r] fs] db]. reflexivity.
Defined.

Lemma life_reachable : exists saved, @reachable canonical_parser "data" (life_received saved).
Proof.
  destruct (@receive_steps canonical_parser "data" Receive.demo_addresses Receive.demo_headers true 1000 Storage.demo_calls
    (demo_world (demo_day + Second) 9000) Receive.demo_account "f@example.com"%string ["a@example.org"%string] 300%N demo_day
    (demo_day + Second) Receive.demo_input Receive.EOF ∅ life_db (fst (fst life_receive)) life_files life_rows [] [] [])
    as [saved Hrun]; [vm_compute; reflexivity| |].
  { change (life_receive = (fst (fst life_receive), snd (fst life_receive), snd life_receive)).
    generalize life_receive. intros [[r fs] db]. reflexivity. }
  exists saved. assert (H0 : @reachable canonical_parser "data" life_start) by (apply reachable_start; done).
  by eapply reachable_run.
Qed.

Definition life_message : Message := default demo_message (messages life_rows !! 300%N).
Lemma life_lookup : messages life_rows !! 300%N = Some life_message.
Proof. vm_compute. reflexivity. Qed.

Lemma archive_never_lost_witness :
  exists data, intact life_files life_message data.
Proof.
  destruct life_reachable as [saved Hr].
  destruct (@archive_never_lost canonical_parser "data" canonical_width (life_received saved) (life_received saved) Hr
    (rtc_refl _ _)) as [H _].
  destruct (H 300%N life_message life_lookup) as (m' & Hm' & _ & _ & _ & Hav).
  assert (E : option_map available (messages life_rows !! 300%N) = Some true) by (vm_compute; reflexivity).
  change (messages life_rows !! 300%N = Some m') in Hm'. rewrite Hm' in E. apply (inj Some) in E.
  destruct (Hav E) as (_ & data & Hin & _). exists data. exact Hin.
Defined.

Lemma only_finished_expire_witness :
  terminal 300 life_message life_rows = true /\ available life_message = true /\
  option_map available (messages (snd life_intent) !! 300%N) = Some false.
Proof.
  destruct life_reachable as [saved Hr]. split; [|split; vm_compute; reflexivity].
  destruct (messages (snd life_intent) !! 300%N) as [m'|] eqn:Em; [|vm_compute in Em; discriminate Em].
  apply (@only_finished_expire canonical_parser "data" canonical_width (life_received saved)
    (MkState life_files (snd life_intent) saved (match fst life_intent with inr path => [(300%N, path)] | inl _ => [] end) [])
    300%N life_message m' Hr).
  - apply (step_intent "data" (demo_world (demo_day + 72 * Hour) 9100) 300 life_policy life_files life_rows saved [] []).
    exact (surjective_pairing life_intent).
  - exact life_lookup.
  - vm_compute. reflexivity.
  - exact Em.
  - assert (E : option_map available (messages (snd life_intent) !! 300%N) = Some false) by (vm_compute; reflexivity).
    rewrite Em in E. exact (inj Some _ _ E).
Defined.

End ArchiveSpec.
