(* ===== verification/FeedbackParse.v ===== *)
(** * Reading delivery reports: [internal/feedback/parse.go], [explain.go]

    [Parse] accepts a top-level delivery status notification (RFC 3464) of
    bounded size and strict form, and nothing else; [Explain] describes the
    same text, strict or not, with the issues it has.

    Go's [net/mail], [mime], [mime/multipart] and [net/textproto] parsers are a
    class of operations; header fields are kept under their canonical names. *)

From S2P Require Import Prelude Sha256 GoText Delivery SmtpClient Provider Database Auth.

Module FeedbackParse.

Definition MaxBytes : Z := 2 ^ 20.
Definition maxStatusBytes : Z := 64 * 2 ^ 10.
Definition MaxRecipients : nat := 100.

Inductive ParseErr := ErrSize | ErrFormat | ErrRead.

Abbreviation Header := (list (string * list string)).

Definition values (key : string) (h : Header) : list string :=
  match List.find (fun kv => String.eqb (fst kv) key) h with Some kv => snd kv | None => [] end.
Definition Get (key : string) (h : Header) : string := match values key h with v :: _ => v | [] => EmptyString end.

(** A part of a multipart body: its header, its content, and whether reading
    it went through. *)
Record Part := MkPart { pt_header : Header; pt_body : list byte; pt_read : bool }.

Class Mime := {
  ReadMessage : list byte -> option (Header * list byte);
  ParseMediaType : string -> option (string * list (string * string));
  RawParts : list byte -> string -> list Part * bool;  (* [NextRawPart] until it ends; whether it ended with EOF *)
  ReadMIMEHeader : string -> option Header }.

(** ** Text *)

Definition param (key : string) (params : list (string * string)) : string :=
  match List.find (fun kv => String.eqb (fst kv) key) params with Some kv => snd kv | None => EmptyString end.

Definition newline : ascii := ascii_of_N 10.
Definition return_ : ascii := ascii_of_N 13.
Definition nul : ascii := ascii_of_N 0.

(** [strings.Cut] at the first [sep] *)
Fixpoint Cut (s : string) (sep : ascii) : option (string * string) :=
  match s with
  | EmptyString => None
  | String c rest => if Ascii.eqb c sep then Some (EmptyString, rest)
                     else match Cut rest sep with Some (a, b) => Some (String c a, b) | None => None end
  end.

Fixpoint has_char (c : ascii) (s : string) : bool :=
  match s with EmptyString => false | String x rest => Ascii.eqb x c || has_char c rest end.

(** [bytes.ReplaceAll(b, "\r\n", "\n")] *)
Fixpoint unix_lines (s : string) : string :=
  match s with
  | EmptyString => EmptyString
  | String c rest =>
      match rest with
      | String d tail => if Ascii.eqb c return_ && Ascii.eqb d newline then String newline (unix_lines tail)
                         else String c (unix_lines rest)
      | EmptyString => String c EmptyString
      end
  end.

(** [bytes.Trim(b, "\n")] *)
Fixpoint trim_left (s : string) : string :=
  match s with String c rest => if Ascii.eqb c newline then trim_left rest else s | EmptyString => EmptyString end.
Definition trim_lines (s : string) : string := string_rev EmptyString (trim_left (string_rev EmptyString (trim_left s))).

(** [bytes.Split(b, "\n\n")] *)
Fixpoint split_blank (cur s : string) : list string :=
  match s with
  | EmptyString => [string_rev EmptyString cur]
  | String c rest =>
      match rest with
      | String d tail => if Ascii.eqb c newline && Ascii.eqb d newline then string_rev EmptyString cur :: split_blank EmptyString tail
                         else split_blank (String c cur) rest
      | EmptyString => split_blank (String c cur) rest
      end
  end.

Definition short_lines (s : string) : bool :=
  forallb (fun line => (String.length line <=? 4096)%nat) (Split s newline).

(** [statusPattern]: [^[245]\.[0-9]{1,3}\.[0-9]{1,3}$] *)
Fixpoint all_digits (s : string) : bool :=
  match s with EmptyString => true | String c rest => not_null (digit c) && all_digits rest end.
Definition number3 (s : string) : bool := all_digits s && (1 <=? String.length s)%nat && (String.length s <=? 3)%nat.
Definition statusPattern (s : string) : bool :=
  match Split s "." with
  | [a; b; c] => one_of a ["2"; "4"; "5"]%string && number3 b && number3 c
  | _ => false
  end.

Definition typed (s : string) : bool :=
  match Cut s ";" with
  | Some (a, b) => negb (String.eqb (TrimSpace a) "") && negb (String.eqb (TrimSpace b) "")
  | None => false
  end.

(** ** [Read] *)

(** [input] is what the reader gives, [ok] that it gave it without an error. *)
Definition Read (input : list byte) (ok : bool) : ParseErr + list byte :=
  let b := firstn (Z.to_nat (MaxBytes + 1)) input in
  if negb ok && (Z.of_nat (length input) <=? MaxBytes) then inl ErrRead
  else if (length b =? 0)%nat || (MaxBytes <? Z.of_nat (length b)) then inl ErrSize else inr b.

(** ** [statusBody] *)

Definition plainEncoding (h : Header) : bool :=
  if (1 <? length (values "Content-Transfer-Encoding" h))%nat then false
  else one_of (ToLower (Get "Content-Transfer-Encoding" h)) [""; "7bit"; "8bit"]%string.

Section Parsing.
  Context {mime : Mime}.

(** The loop over the parts: [count] and [status] as in the code. *)
Fixpoint status_parts (count : nat) (status : list byte) (parts : list Part) (eof : bool) : ParseErr + list byte :=
  match parts with
  | [] => if negb eof then inl ErrFormat else if (count <? 2)%nat then inl ErrFormat else inr status
  | p :: rest =>
      let count := S count in
      if (3 <? count)%nat then inl ErrFormat
      else match ParseMediaType (Get "Content-Type" (pt_header p)) with
      | None => inl ErrFormat
      | Some (typ, _) =>
          if negb (length (values "Content-Type" (pt_header p)) =? 1)%nat then inl ErrFormat
          else
            let admissible := match count with
                              | 1%nat => String.eqb typ "text/plain"
                              | 2%nat => String.eqb typ "message/delivery-status" && plainEncoding (pt_header p)
                                         && (Z.of_nat (length (pt_body p)) <=? maxStatusBytes)
                              | _ => one_of typ ["message/rfc822"; "text/rfc822-headers"]%string
                              end in
            if negb admissible || negb (pt_read p) then inl ErrFormat
            else status_parts count (if (count =? 2)%nat then pt_body p else status) rest eof
      end
  end.

Definition statusBody (raw : list byte) : ParseErr + list byte :=
  if (length raw =? 0)%nat || (MaxBytes <? Z.of_nat (length raw)) then inl ErrSize
  else match ReadMessage raw with
  | None => inl ErrFormat
  | Some (h, body) =>
      if negb (length (values "Content-Type" h) =? 1)%nat then inl ErrFormat
      else match ParseMediaType (Get "Content-Type" h) with
      | None => inl ErrFormat
      | Some (kind, params) =>
          if negb (String.eqb kind "multipart/report") || negb (EqualFold (param "report-type" params) "delivery-status")
             || String.eqb (param "boundary" params) "" || negb (plainEncoding h) then inl ErrFormat
          else let (parts, eof) := RawParts body (param "boundary" params) in status_parts 0 [] parts eof
      end
  end.

(** ** [parseStatus] *)

(** The text both readers start from: UTF-8 without NUL, LF line ends, lines of
    at most 4096 bytes. *)
Definition status_text (b : list byte) : option string :=
  let s := string_of_list_byte b in
  if negb (ValidString s) || has_char nul s then None
  else
    let s := unix_lines s in
    if has_char return_ s then None else if short_lines s then Some s else None.

(** The header of one block; the code appends an empty line. *)
Definition block_header (block : string) : option Header :=
  ReadMIMEHeader (block ++ String newline (String newline EmptyString)).

Definition single (h : Header) : bool := forallb (fun kv => (length (snd kv) =? 1)%nat) h.

Definition class_ok (action status : string) : bool :=
  match status with
  | String c _ =>
      if String.eqb action "failed" then Ascii.eqb c "5"
      else if String.eqb action "delayed" then Ascii.eqb c "4"
      else if one_of action ["delivered"; "relayed"; "expanded"]%string then Ascii.eqb c "2" else false
  | EmptyString => false
  end.

Definition recipient_of (h : Header) : ReportedRecipient :=
  MkReportedRecipient (Get "Final-Recipient" h) (Get "Original-Recipient" h) (ToLower (Get "Action" h)) (Get "Status" h)
    (Get "Diagnostic-Code" h).

Definition recipient_ok (r : ReportedRecipient) : bool :=
  typed (rp_FinalRecipient r) && (String.eqb (rp_OriginalRecipient r) "" || typed (rp_OriginalRecipient r))
  && statusPattern (rp_Status r) && class_ok (rp_Action r) (rp_Status r).

(** The loop over the blocks after the first *)
Fixpoint parse_recipients (blocks : list string) : option (list ReportedRecipient) :=
  match blocks with
  | [] => Some []
  | block :: rest =>
      match block_header block with
      | Some h => if single h && recipient_ok (recipient_of h)
                  then option_map (cons (recipient_of h)) (parse_recipients rest) else None
      | None => None
      end
  end.

Definition parseStatus (b : list byte) : ParseErr + Report :=
  match status_text b with
  | None => inl ErrFormat
  | Some s =>
      let blocks := split_blank EmptyString (trim_lines s) in
      if (length blocks <? 2)%nat || (MaxRecipients + 1 <? length blocks)%nat then inl ErrFormat
      else match blocks with
      | [] => inl ErrFormat
      | first :: rest =>
          match block_header first with
          | None => inl ErrFormat
          | Some h =>
              if negb (single h) || negb (typed (Get "Reporting-Mta" h)) then inl ErrFormat
              else match parse_recipients rest with
              | Some rs => inr (MkReport (Get "Reporting-Mta" h) (Get "Original-Envelope-Id" h) rs)
              | None => inl ErrFormat
              end
          end
      end
  end.

Definition Parse (raw : list byte) : ParseErr + Report :=
  match statusBody raw with inl e => inl e | inr body => parseStatus body end.

(** ** [Explain] *)

Record FormatIssue := MkFormatIssue { fi_Block : Z; fi_Code : string; fi_Field : string }.
Record ExplainedBlock := MkExplainedBlock { eb_Index : nat; eb_Fields : Header; eb_Mailbox : string; eb_SMTPCode : Z }.
Record Explanation := MkExplanation {
  ex_SHA256 : string; ex_Trust : string; ex_AutomaticActionAllowed : bool; ex_StrictlyParsed : bool; ex_RawStatus : list byte;
  ex_Blocks : list ExplainedBlock; ex_Issues : list FormatIssue }.

(** [sort.Slice] of the issues *)
Definition issue_leb (a b : FormatIssue) : bool :=
  if negb (fi_Block a =? fi_Block b) then fi_Block a <? fi_Block b
  else if negb (String.eqb (fi_Field a) (fi_Field b)) then String.ltb (fi_Field a) (fi_Field b)
  else String.leb (fi_Code a) (fi_Code b).

Definition duplicates (h : Header) : list string :=
  map fst (List.filter (fun kv => (1 <? length (snd kv))%nat) h).

Section Explaining.
  Context {addresses : MailParser}.

Definition count_char (c : ascii) (s : string) : nat := length (List.filter (Ascii.eqb c) (list_ascii_of_string s)).

(** An exact bare mailbox *)
Definition bare_mailbox (final : string) : bool :=
  match ParseAddress final with
  | Some (name, a) => String.eqb name "" && String.eqb a final && (count_char "@" final =? 1)%nat
                      && negb (ContainsAny final (String " " (String "<" (String ">" (String (ascii_of_N 9) EmptyString)))))
  | None => false
  end.

(** [strconv.Atoi] of a three-letter text that is a number in 400..599 *)
Definition smtp_code_hint (status : string) : option Z :=
  if (String.length status =? 3)%nat && all_digits status then
    match digits 0 false status with
    | Some (code, EmptyString) => if (400 <=? code) && (code <=? 599) then Some code else None
    | _ => None
    end
  else None.

(** One group: the block and its issues *)
Definition explain_block (i : nat) (h : Header) : ExplainedBlock * list FormatIssue :=
  let at_ := MkFormatIssue (Z.of_nat i) in
  let twice := map (at_ "DUPLICATE_FIELD"%string) (duplicates h) in
  let duplicate := negb (length twice =? 0)%nat in
  let final := Get "Final-Recipient" h in
  let status := Get "Status" h in
  if (i =? 0)%nat then
    (MkExplainedBlock i h "" 0,
     twice ++ if typed (Get "Reporting-Mta" h) then [] else [at_ "INVALID_REPORTING_MTA" "Reporting-MTA"]%string)
  else if String.eqb final "" then (MkExplainedBlock i h "" 0, twice ++ [at_ "UNASSIGNED_BLOCK" ""]%string)
  else
    let mailbox := if negb (typed final) && negb duplicate && bare_mailbox final then final else EmptyString in
    let code := if negb (statusPattern status) && negb duplicate then smtp_code_hint status else None in
    (MkExplainedBlock i h mailbox (default 0 code),
     twice ++ (if typed final then [] else [at_ "MISSING_ADDRESS_TYPE" "Final-Recipient"]%string)
     ++ (if statusPattern status then []
         else at_ "INVALID_ENHANCED_STATUS"%string "Status"%string
              :: match code with Some _ => [at_ "SMTP_CODE_IN_STATUS" "Status"]%string | None => [] end)
     ++ (if one_of (ToLower (Get "Action" h)) ["failed"; "delayed"; "delivered"; "relayed"; "expanded"]%string then []
         else [at_ "INVALID_ACTION" "Action"]%string)).

(** The loop over the groups *)
Fixpoint explain_blocks (i : nat) (groups : list string) : option (list ExplainedBlock * list FormatIssue) :=
  match groups with
  | [] => Some ([], [])
  | group :: rest =>
      match block_header group with
      | Some h =>
          if (length h =? 0)%nat then None
          else
            let (block, issues) := explain_block i h in
            match explain_blocks (S i) rest with
            | Some (blocks, more) => Some (block :: blocks, issues ++ more)
            | None => None
            end
      | None => None
      end
  end.

Definition Explain (raw : list byte) : ParseErr + Explanation :=
  match statusBody raw with
  | inl e => inl e
  | inr body =>
      match status_text body with
      | None => inl ErrFormat
      | Some s =>
          let groups := split_blank EmptyString (trim_lines s) in
          if (length groups <? 2)%nat || (2 * MaxRecipients + 1 <? length groups)%nat then inl ErrFormat
          else
            let strict := match parseStatus body with inr _ => true | inl _ => false end in
            match explain_blocks 0 groups with
            | None => inl ErrFormat
            | Some (blocks, issues) =>
                let issues := if strict then issues else issues ++ [MkFormatIssue (-1) "STRICT_PARSE_REJECTED" ""] in
                inr (MkExplanation (EncodeToString (Sha.Sum256 raw)) "UNVERIFIED" false strict body blocks
                       (sort_by issue_leb issues))
            end
      end
  end.

(** *** A strictly parsed report has no issues *)

Lemma single_duplicates h : single h = true -> duplicates h = [].
Proof.
  unfold single, duplicates. induction h as [|[k v] h IH]; simpl; [done|]. intros H. apply andb_true_iff in H as [H1 H2].
  apply Nat.eqb_eq in H1. rewrite H1. simpl. auto.
Qed.

Lemma Get_nonempty key h : Get key h <> EmptyString -> (length h =? 0)%nat = false.
Proof. destruct h; [|done]. unfold Get, values. simpl. done. Qed.

Lemma typed_nonempty s : typed s = true -> s <> EmptyString.
Proof. by intros H ->. Qed.

Lemma class_ok_action action status : class_ok action status = true ->
  one_of action ["failed"; "delayed"; "delivered"; "relayed"; "expanded"]%string = true.
Proof.
  unfold class_ok. destruct status as [|c status]; [done|]. intros H.
  destruct (String.eqb_spec action "failed") as [->|]; [done|]. destruct (String.eqb_spec action "delayed") as [->|]; [done|].
  destruct (one_of action _) eqn:E; [|done]. apply one_of_true in E. apply one_of_true. set_solver.
Qed.

Lemma explain_strict i h : single h = true -> recipient_ok (recipient_of h) = true -> snd (explain_block (S i) h) = [].
Proof.
  intros Hs Hr. unfold explain_block. rewrite (single_duplicates h Hs). simpl.
  unfold recipient_ok in Hr. simpl in Hr. rewrite !andb_true_iff in Hr. destruct Hr as [[[Hf _] Hst] Hc].
  destruct (String.eqb_spec (Get "Final-Recipient" h) "") as [E|]; [by rewrite E in Hf|].
  rewrite Hf, Hst, (class_ok_action _ _ Hc). done.
Qed.

Lemma explain_recipients i blocks rs :
  parse_recipients blocks = Some rs -> exists bs, explain_blocks (S i) blocks = Some (bs, []).
Proof.
  revert i rs. induction blocks as [|b blocks IH]; intros i rs; simpl; [by exists []|].
  destruct (block_header b) as [h|]; [|done]. destruct (single h && _) eqn:E; [|done].
  apply andb_true_iff in E as [Hs Hr]. destruct (parse_recipients blocks) as [rs'|] eqn:Ep; [|done]. intros _.
  destruct (IH (S i) rs' eq_refl) as [bs Hbs]. pose proof (explain_strict i h Hs Hr) as Hi.
  assert (Hne : (length h =? 0)%nat = false).
  { apply (Get_nonempty "Final-Recipient"). unfold recipient_ok in Hr. rewrite !andb_true_iff in Hr.
    apply typed_nonempty. apply Hr. }
  rewrite Hne, Hbs. destruct (explain_block (S i) h) as [block issues]. simpl in Hi. subst. by exists (block :: bs).
Qed.

Lemma explain_parsed body r s :
  parseStatus body = inr r -> status_text body = Some s ->
  let groups := split_blank EmptyString (trim_lines s) in
  (2 <= length groups <= 2 * MaxRecipients + 1)%nat /\ exists bs, explain_blocks 0 groups = Some (bs, []).
Proof.
  intros H Hs groups. unfold parseStatus in H. rewrite Hs in H. fold groups in H.
  destruct (_ || _) eqn:Eb; [done|]. apply orb_false_iff in Eb as [E1 E2]. apply Nat.ltb_ge in E1, E2.
  split; [unfold MaxRecipients in *; lia|]. destruct groups as [|first rest]; [done|]. cbn [explain_blocks].
  destruct (block_header first) as [h|]; [|done]. destruct (negb (single h) || _) eqn:Eh; [done|].
  apply orb_false_iff in Eh as [Hsing Htyped]. apply negb_false_iff in Hsing, Htyped.
  destruct (parse_recipients rest) as [rs|] eqn:Er; [|done]. destruct (explain_recipients 0 rest rs Er) as [bs ->].
  assert (Hne : (length h =? 0)%nat = false) by (apply (Get_nonempty "Reporting-Mta"); by apply typed_nonempty).
  rewrite Hne. unfold explain_block. rewrite (single_duplicates h Hsing), Htyped. simpl. eauto.
Qed.

(** Strict parsing and its explanation.  A report that [Parse] accepts is
    within bounds, names a typed reporting server, has one to a hundred
    recipients, each with a typed address, a well-formed status code and an
    action of the code's class; and it is accepted exactly when [Explain]
    describes the same evidence without a single issue.  An explanation never
    grants trust or an automatic action. *)
Theorem strict_reports raw :
  (forall r, Parse raw = inr r ->
     (0 < length raw)%nat /\ Z.of_nat (length raw) <= MaxBytes /\ typed (rp_ReportingMTA r) = true /\
     (1 <= length (rp_Recipients r) <= MaxRecipients)%nat /\
     Forall (fun x => recipient_ok x = true) (rp_Recipients r)) /\
  ((exists r, Parse raw = inr r) <-> exists e, Explain raw = inr e /\ ex_Issues e = []) /\
  (forall e, Explain raw = inr e ->
     ex_Trust e = "UNVERIFIED"%string /\ ex_AutomaticActionAllowed e = false /\
     ex_SHA256 e = EncodeToString (Sha.Sum256 raw) /\ (ex_StrictlyParsed e = true <-> exists r, Parse raw = inr r)).
Proof.
  assert (Hrcpt : forall blocks rs, parse_recipients blocks = Some rs ->
            length rs = length blocks /\ Forall (fun x => recipient_ok x = true) rs).
  { induction blocks as [|b blocks IH]; intros rs; simpl; [by intros [= <-]|]. destruct (block_header b) as [h|]; [|done].
    destruct (single h && recipient_ok (recipient_of h)) eqn:E; [|done]. destruct (parse_recipients blocks) as [rs'|]; [|done].
    intros [= <-]. destruct (IH rs' eq_refl) as [Hl Hall]. apply andb_true_iff in E as [_ E]. simpl. rewrite Hl. auto. }
  split; [|split].
  - intros r. unfold Parse. destruct (statusBody raw) as [e|body] eqn:Eb; [done|]. unfold statusBody in Eb.
    destruct (_ || _) eqn:Esz in Eb; [done|]. apply orb_false_iff in Esz as [E1 E2]. apply Nat.eqb_neq in E1. apply Z.ltb_ge in E2.
    clear Eb. unfold parseStatus. destruct (status_text body) as [s|]; [|done]. set (blocks := split_blank _ _).
    destruct ((length blocks <? 2)%nat || _) eqn:Ec; [done|]. apply orb_false_iff in Ec as [E3 E4]. apply Nat.ltb_ge in E3, E4.
    destruct blocks as [|first rest]; [done|]. destruct (block_header first) as [h|]; [|done].
    destruct (negb (single h) || _) eqn:Eh; [done|]. apply orb_false_iff in Eh as [_ Ht]. apply negb_false_iff in Ht.
    destruct (parse_recipients rest) as [rs|] eqn:Er; [|done]. intros [= <-]. destruct (Hrcpt rest rs Er) as [Hl Hall]. simpl in *.
    split; [lia|]. split; [done|]. split; [done|]. split; [unfold MaxRecipients in *; lia|done].
  - split.
    + intros [r Hr]. unfold Parse in Hr. unfold Explain. destruct (statusBody raw) as [e|body]; [done|]. rewrite Hr.
      destruct (status_text body) as [s|] eqn:Es; [|unfold parseStatus in Hr; by rewrite Es in Hr].
      destruct (explain_parsed body r s Hr Es) as ([Hlo Hhi] & bs & Hbs). rewrite Hbs.
      assert (((length (split_blank EmptyString (trim_lines s)) <? 2)%nat
               || (2 * MaxRecipients + 1 <? length (split_blank EmptyString (trim_lines s)))%nat) = false) as ->
        by (apply orb_false_iff; split; apply Nat.ltb_ge; lia). by eexists.
    + intros (e & He & Hi). unfold Explain in He. unfold Parse. destruct (statusBody raw) as [e'|body]; [done|].
      destruct (parseStatus body) as [e'|r] eqn:Ep; [|by exists r].
      destruct (status_text body); [|done]. destruct (_ || _); [done|]. destruct (explain_blocks _ _) as [[blocks issues]|]; [|done].
      injection He as <-. cbn [ex_Issues] in Hi. assert (Hp := sort_by_perm issue_leb (issues ++ [MkFormatIssue (-1) "STRICT_PARSE_REJECTED" ""])).
      rewrite Hi in Hp. apply Permutation_nil in Hp. by destruct issues.
  - intros e He. unfold Explain in He. unfold Parse. destruct (statusBody raw) as [e'|body]; [done|].
    destruct (status_text body) as [s|]; [|done]. destruct (_ || _); [done|]. destruct (explain_blocks _ _) as [[blocks issues]|]; [|done].
    injection He as <-. cbn [ex_Trust ex_AutomaticActionAllowed ex_SHA256 ex_StrictlyParsed]. do 3 (split; [done|]).
    destruct (parseStatus body) as [e'|r]; split; [done|by intros [r Hr]|eauto|done].
Qed.

End Explaining.

End Parsing.

(** ** A report, with readers that take one field per line *)

Definition line_field (line : string) : option (string * list string) :=
  match Cut line ":" with Some (k, v) => Some (k, [TrimSpace v]) | None => None end.
Definition lf (a b : string) : string := (a ++ String newline b)%string.
Definition dsn_text (status : string) : string :=
  lf "Reporting-Mta: dns; mx.example" (lf "" (lf "Final-Recipient: rfc822; a@example.org" (lf "Action: failed" ("Status: " ++ status)))).
Definition dsn_mime (status : string) : Mime := {|
  ReadMessage := fun raw => Some ([("Content-Type", ["multipart/report"])]%string, raw);
  ParseMediaType := fun s => Some (s, [("report-type", "delivery-status"); ("boundary", "b")]%string);
  RawParts := fun _ _ => ([MkPart [("Content-Type", ["text/plain"])]%string [] true;
                           MkPart [("Content-Type", ["message/delivery-status"])]%string (bytes_of (dsn_text status)) true], true);
  ReadMIMEHeader := fun block => Some (omap line_field (Split block newline)) |}.
Definition dsn_addresses : MailParser := fun s => Some (EmptyString, s).

Example dsn_parsed :
  Parse (mime := dsn_mime "5.1.1") [x2e]
  = inr (MkReport "dns; mx.example" "" [MkReportedRecipient "rfc822; a@example.org" "" "failed" "5.1.1" ""]).
Proof. vm_compute. reflexivity. Qed.

Example dsn_explained :
  Parse (mime := dsn_mime "550") [x2e] = inl ErrFormat /\
  match Explain (mime := dsn_mime "550") (addresses := dsn_addresses) [x2e] with
  | inr e => map fi_Code (ex_Issues e) = ["STRICT_PARSE_REJECTED"; "INVALID_ENHANCED_STATUS"; "SMTP_CODE_IN_STATUS"]%string
  | inl _ => False
  end.
Proof. vm_compute. done. Qed.

End FeedbackParse.
