(* ===== verification/Feedback.v ===== *)
(** * Feedback: [internal/feedback]

    Reports of other mail systems are kept as evidence ([Import]), looked at
    ([Inspect], [Candidates]), dismissed, or published to a website by an
    operator ([Link], [Review]).  Nothing here changes a delivery.

    Identifiers arrive as text; [ParseUUID] reads them, and the database is
    asked for the identifier that was read.  The triggers of [migrations/] on
    these tables are part of the statements that fire them; whether the
    evidence capacity is exhausted is an argument. *)

From S2P Require Import Prelude Sha256 GoText Delivery SmtpClient Provider Database Auth Storage Paging Retention FeedbackParse.

Module Feedback.

Import FeedbackParse.

Definition ErrReviewed : DBErr := ErrText "feedback already reviewed".
Definition ErrPublication : DBErr := ErrText "feedback publication conflicts with evidence or review state".
Definition ErrInvalidPublication : DBErr := ErrText "invalid feedback publication request".
Definition ErrCapacity : DBErr := ErrText "feedback evidence or collector storage quota reached".

(** ** Assessing a report: [decision.go] *)

Record Assessment := MkAssessment {
  as_Classification : string; as_CandidateMatches : bool; as_Action : string; as_AutomaticSuppression : bool;
  as_Reasons : list string }.
#[export] Instance eta_Assessment : Eta Assessment := fun a =>
  MkAssessment (as_Classification a) (as_CandidateMatches a) (as_Action a) (as_AutomaticSuppression a) (as_Reasons a).

(** The status fields are [None] where the code has the empty string. *)
Record AssociationEvidence := MkAssociationEvidence {
  ae_RecordState : string; ae_Parsed : bool; ae_RelationMatches : bool; ae_ExpectedDigestMatches : bool; ae_Address : string;
  ae_CurrentStatus : option Status; ae_AttemptStatus : option Status; ae_FinalAccepted : bool; ae_LatestAttempt : bool;
  ae_PredatesAttempt : bool; ae_Selected : ReportedRecipient; ae_SameAddressRows : Z }.

Definition classify (r : ReportedRecipient) : string :=
  if negb (statusPattern (rp_Status r)) then "UNCLASSIFIED"
  else
    let class c := match rp_Status r with String x _ => Ascii.eqb x c | EmptyString => false end in
    if String.eqb (rp_Action r) "failed" then
      if String.eqb (rp_Status r) "5.1.1" then "ADDRESS_INVALID_REPORTED"
      else if class "5"%char then "PERMANENT_FAILURE_REPORTED" else "UNCLASSIFIED"
    else if String.eqb (rp_Action r) "delayed" then if class "4"%char then "TEMPORARY_FAILURE_REPORTED" else "UNCLASSIFIED"
    else if String.eqb (rp_Action r) "delivered" then if class "2"%char then "DELIVERY_REPORTED" else "UNCLASSIFIED"
    else if String.eqb (rp_Action r) "relayed" then if class "2"%char then "RELAY_REPORTED" else "UNCLASSIFIED"
    else if String.eqb (rp_Action r) "expanded" then if class "2"%char then "EXPANSION_REPORTED" else "UNCLASSIFIED"
    else "UNCLASSIFIED".

Definition line_breaks : string := String nul (String return_ (String newline EmptyString)).

(** The part before and after the last [@] *)
Fixpoint last_at (s : string) : option (string * string) :=
  match s with
  | EmptyString => None
  | String c rest =>
      match last_at rest with
      | Some (a, b) => Some (String c a, b)
      | None => if Ascii.eqb c "@" then Some (EmptyString, rest) else None
      end
  end.

Definition sameMailbox (a b : string) : bool :=
  match last_at a, last_at b with
  | Some (al, ad), Some (bl, bd) => negb (String.eqb al "") && negb (String.eqb bl "") && String.eqb al bl && EqualFold ad bd
  | _, _ => false
  end.

Definition ascii_only (s : string) : bool := forallb (fun c => (N_of_ascii c <=? 127)%N) (list_ascii_of_string s).

Section Assessing.
  Context {addresses : MailParser}.

Definition reportMailbox (s : string) : option string :=
  match Cut s ";" with
  | Some (kind, address) =>
      let address := TrimSpace address in
      if negb (EqualFold (TrimSpace kind) "rfc822") then None
      else match ParseAddress address with
      | Some (_, a) =>
          if negb (String.eqb a address) || (320 <? String.length address)%nat || ContainsAny address line_breaks then None
          else if ascii_only address then Some address else None
      | None => None
      end
  | None => None
  end.

Definition add (yes : bool) (reason : string) : list string := if yes then [reason] else [].
Definition is_status (c : option Status) (s : Status) : bool := bool_decide (c = Some s).

Definition Assess (e : AssociationEvidence) : Assessment :=
  let classification := classify (ae_Selected e) in
  let final := reportMailbox (rp_FinalRecipient (ae_Selected e)) in
  let ok := not_null final in
  let final := default EmptyString final in
  let original := rp_OriginalRecipient (ae_Selected e) in
  let rewritten := negb (String.eqb original "")
                   && match reportMailbox original with Some a => negb (sameMailbox a final) | None => true end in
  let same := sameMailbox final (ae_Address e) in
  let reasons := List.concat
    [["SOURCE_UNVERIFIED"];
     add (negb (ae_ExpectedDigestMatches e)) "EVIDENCE_DIGEST_MISMATCH";
     add (String.eqb (ae_RecordState e) "CONFLICT") "SOURCE_EVENT_CONFLICT";
     add (String.eqb (ae_RecordState e) "DISMISSED") "FEEDBACK_DISMISSED";
     add (negb (ae_Parsed e)) "UNSUPPORTED_REPORT";
     add (negb (ae_RelationMatches e)) "RELATION_MISMATCH";
     if negb ok then ["UNSUPPORTED_RECIPIENT_ADDRESS"] else add (negb same) "RECIPIENT_ADDRESS_MISMATCH";
     add rewritten "RECIPIENT_REWRITTEN";
     add (negb (ae_SameAddressRows e =? 1)%Z) "AMBIGUOUS_RECIPIENT_BLOCKS";
     add (ae_PredatesAttempt e) "REPORT_PREDATES_ATTEMPT";
     add (ae_RelationMatches e && negb (ae_LatestAttempt e)) "NEWER_RECIPIENT_ATTEMPT";
     add (is_status (ae_CurrentStatus e) DELIVERY_UNKNOWN || is_status (ae_AttemptStatus e) DELIVERY_UNKNOWN)
       "DELIVERY_UNKNOWN_PRESERVED";
     add (ae_RelationMatches e && (negb (is_status (ae_CurrentStatus e) SMTP_ACCEPTED)
            || negb (is_status (ae_AttemptStatus e) SMTP_ACCEPTED) || negb (ae_FinalAccepted e))) "NO_STABLE_SMTP_ACCEPTANCE";
     [if String.eqb classification "ADDRESS_INVALID_REPORTED" then "ADDRESS_FAILURE_REQUIRES_VERIFIED_SOURCE"
      else if String.eqb classification "TEMPORARY_FAILURE_REPORTED" then "TEMPORARY_FAILURE_NOT_ADDRESS_SUPPRESSION"
      else if String.eqb classification "PERMANENT_FAILURE_REPORTED" then "PERMANENT_FAILURE_NOT_PROOF_OF_INVALID_ADDRESS"
      else if one_of classification ["DELIVERY_REPORTED"; "RELAY_REPORTED"; "EXPANSION_REPORTED"]
      then "REPORT_DOES_NOT_PROVE_INBOX_DELIVERY" else "UNCLASSIFIED_REPORT"]]%string in
  MkAssessment classification
    (ae_ExpectedDigestMatches e && ae_Parsed e && ae_RelationMatches e && ok && same && (ae_SameAddressRows e =? 1)
     && negb rewritten && negb (ae_PredatesAttempt e))
    "QUARANTINE" false reasons.

End Assessing.

(** ** The evidence: [service.go] *)

Record ImportRequest := MkImportRequest { im_Source : string; im_ExternalID : string; im_Actor : string; im_Reason : string }.
Record Entry := MkEntry {
  en_ID : UUID; en_Source : string; en_ExternalID : string; en_SHA256 : string; en_Parsed : bool; en_Trust : string;
  en_State : string; en_CreatedAt : Time; en_Report : option Report }.

Definition valid (s : string) (max : nat) : bool :=
  negb (String.eqb (TrimSpace s) "") && (String.length s <=? max)%nat && ValidString s && negb (ContainsAny s line_breaks).

Definition audit (action actor : string) (data : json) : M unit :=
  id ← fresh;
  stmt (fun _ db => rows ← insert_row id (MkAudit action actor data) (maintenance_audit db);
                    Some (tt, db <| maintenance_audit := rows |>)).

(** Other evidence for the same event, with other bytes *)
Definition conflicting (f g : FeedbackReport) : bool :=
  String.eqb (fr_source g) (fr_source f) && String.eqb (fr_external_id g) (fr_external_id f)
  && negb (String.eqb (fr_sha256 g) (fr_sha256 f)).
Definition in_conflict (f : FeedbackReport) (db : DB) : bool := exists_row (fun _ g => conflicting f g) (feedback_reports db).

(** The state of [columns] *)
Definition record_state (id : UUID) (f : FeedbackReport) (db : DB) : string :=
  if in_conflict f db then "CONFLICT" else if not_null (feedback_reviews db !! id) then "DISMISSED" else "QUARANTINED".

(** [scan]; [detail]: with the parsed report *)
Definition entry_of (detail : bool) (db : DB) (id : UUID) (f : FeedbackReport) : Entry :=
  MkEntry id (fr_source f) (fr_external_id f) (fr_sha256 f) (not_null (fr_parsed f)) "UNVERIFIED" (record_state id f db)
    (fr_created_at f) (if detail then fr_parsed f else None).

(** The trigger [invalidate_feedback_publication]: an event for each
    publication that the new row invalidates. *)
Definition invalidate (hit : DB -> FeedbackLink -> bool) : M unit :=
  links ← query (fun _ db => select (fun _ l => hit db l) (feedback_links db));
  forM links (fun kl =>
    id ← fresh;
    record_event id (fun t => MkEventRow (fl_message_id (snd kl)) (Some (fl_recipient_id (snd kl))) (Some (fl_attempt_id (snd kl)))
      "FEEDBACK_INVALIDATED" (at_now t) "operator"
      (JObj [("feedback_link_id", JId (fst kl)); ("source_trust", JStr "UNVERIFIED")]%string) None)).

Section Service.
  Context {parser : UuidParser} {addresses : MailParser} {mime : Mime}.

(** [importRaw]: the identifier, and whether it was there already; [full]:
    the capacity is exhausted. *)
Definition importRaw (full : bool) (v : ImportRequest) (raw : list byte) : M (UUID * bool) :=
  let digest := EncodeToString (Sha.Sum256 raw) in
  let external := if String.eqb (im_ExternalID v) "" then ("sha256:" ++ digest)%string else im_ExternalID v in
  let parsed := match Parse raw with inr r => Some r | inl _ => None end in
  let same (f : FeedbackReport) := String.eqb (fr_source f) (im_Source v) && String.eqb (fr_external_id f) external
                                   && String.eqb (fr_sha256 f) digest in
  id ← fresh;
  inserted ← stmt (fun t db =>
    if exists_row (fun _ f => same f) (feedback_reports db) then Some (false, db)
    else
      rows ← insert_row id (MkFeedbackReport (im_Source v) external digest raw parsed (im_Actor v) (im_Reason v) (at_clock t))
               (feedback_reports db);
      Some (true, db <| feedback_reports := rows |>));
  if inserted : bool then
    (if full then raise ErrCapacity else mret tt);;
    invalidate (fun db l => match feedback_reports db !! fl_feedback_id l, feedback_reports db !! id with
                            | Some f, Some g => conflicting f g
                            | _, _ => false
                            end);;
    audit "FEEDBACK_QUARANTINED" (im_Actor v)
      (JObj [("id", JId id); ("reason", JStr (im_Reason v)); ("sha256", JStr digest); ("source", JStr (im_Source v));
             ("trust", JStr "UNVERIFIED")]%string);;
    mret (id, false)
  else
    found ← query_row (fun _ db => option_map fst (head (select (fun _ f => same f) (feedback_reports db))));
    mret (found, true).

Definition Get (id : string) : M (TxEnd Entry) :=
  match ParseUUID id with
  | None => raise (ErrText "valid feedback UUID required")
  | Some id => e ← query_row (fun _ db => option_map (entry_of true db id) (feedback_reports db !! id)); mret (Commit (inr e))
  end.

Record ImportResult := MkImportResult { ir_Entry : Entry; ir_Duplicate : bool }.

Definition import_tx (full : bool) (v : ImportRequest) (raw : list byte) : M (TxEnd (UUID * bool)) :=
  r ← importRaw full v raw; mret (Commit (inr r)).

(** [Import]; the second world is that of reading the entry back. *)
Definition Import (w w' : World) (full : bool) (v : ImportRequest) (input : list byte) (ok : bool) (db : DB)
  : (DBErr + ImportResult) * DB :=
  if negb (valid (im_Source v) 128) || negb (valid (im_Actor v) 128) || negb (valid (im_Reason v) 2048)
     || (negb (String.eqb (im_ExternalID v) "") && negb (valid (im_ExternalID v) 256))
  then (inl (ErrText "source, actor, reason and bounded external ID required"), db)
  else match Read input ok with
  | inl _ => (inl (ErrText "feedback must contain 1..1048576 bytes"), db)
  | inr raw =>
      match transact w (import_tx full v raw) db with
      | (inl e, db') => (inl e, db')
      | (inr (id, duplicate), db') =>
          match transact w' (Get (uuid_text id)) db' with
          | (inl e, _) => (inl e, db')
          | (inr e, _) => (inr (MkImportResult e duplicate), db')
          end
      end
  end.

(** [List] *)
Definition reports_from (after : option UUID) (db : DB) : list (UUID * FeedbackReport) :=
  sort_by id_leb (select (fun id _ => match after with None => true | Some a => (a <? id)%N end) (feedback_reports db)).

Definition List (after : string) (lim : Z) : M (TxEnd (list Entry)) :=
  let cursor := if String.eqb after "" then Some None else option_map Some (ParseUUID after) in
  match cursor with
  | None => raise (ErrText "invalid feedback cursor")
  | Some after =>
      if (lim <? 1) || (200 <? lim) then raise (ErrText "limit must be 1..200")
      else rows ← query (fun _ db => map (fun kf => entry_of false db (fst kf) (snd kf)) (limit (Z.to_nat lim) (reports_from after db)));
           mret (Commit (inr rows))
  end.

(** [Dismiss] *)
Definition Dismiss (id digest actor reason : string) : M (TxEnd unit) :=
  match ParseUUID id with
  | None => raise (ErrText "valid feedback UUID required")
  | Some id =>
      if negb (valid actor 128) || negb (valid reason 2048) then raise (ErrText "actor and reason required")
      else
        found ← query_row (fun _ db => option_map fr_sha256 (feedback_reports db !! id));
        (if String.eqb found digest then mret tt else raise (ErrText "feedback digest does not match reviewed evidence"));;
        inserted ← stmt (fun _ db =>
          match feedback_reviews db !! id with
          | Some _ => Some (false, db)
          | None => Some (true, db <| feedback_reviews := <[id := MkFeedbackReview actor reason]> (feedback_reviews db) |>)
          end);
        (if inserted : bool then mret tt else raise ErrReviewed);;
        invalidate (fun _ l => bool_decide (fl_feedback_id l = id));;
        audit "FEEDBACK_DISMISSED" actor (JObj [("id", JId id); ("reason", JStr reason); ("sha256", JStr digest)]%string);;
        mret (Commit (inr tt))
  end.

(** ** Looking at a report: [inspect.go] *)

Record InspectRequest := MkInspectRequest {
  iq_FeedbackID : string; iq_ExpectedSHA256 : string; iq_MessageID : string; iq_ProviderID : string; iq_AttemptID : string;
  iq_RecipientID : string; iq_ReportIndex : Z }.
(** The identifiers of a request, as read *)
Record Ids := MkIds { i_feedback : UUID; i_message : UUID; i_provider : UUID; i_attempt : UUID; i_recipient : UUID }.

Record Inspection := MkInspection {
  in_Ids : Ids; in_SnapshotAt : Time; in_FeedbackState : string; in_CurrentStatus : option Status;
  in_AttemptStatus : option Status; in_Selected : option ReportedRecipient; in_Assessment : Assessment }.
#[export] Instance eta_Inspection : Eta Inspection := fun x =>
  MkInspection (in_Ids x) (in_SnapshotAt x) (in_FeedbackState x) (in_CurrentStatus x) (in_AttemptStatus x) (in_Selected x)
    (in_Assessment x).

(** A later attempt for the recipient *)
Definition newer_attempt (rid : UUID) (number : Z) (db : DB) : bool :=
  exists_row (fun k _ => bool_decide (snd k = rid)
    && match delivery_attempts db !! fst k with Some a => number <? a_attempt_number a | None => false end) (attempt_recipients db).

(** [final_response_at IS NOT NULL AND finished_at IS NOT NULL AND smtp_code BETWEEN 200 AND 299] *)
Definition finally_accepted (a : Attempt) : bool :=
  not_null (a_finished_at a)
  && match a_smtp a with
     | Some out => negb (IsZero (o_FinalResponseAt out)) && (200 <=? o_Code out) && (o_Code out <=? 299)
     | None => false
     end.

(** The membership query *)
Definition relation (ids : Ids) (db : DB) : option (Attempt * AttemptRecipient * RecipientRow) :=
  match delivery_attempts db !! i_attempt ids, attempt_recipients db !! (i_attempt ids, i_recipient ids),
        recipients db !! i_recipient ids with
  | Some a, Some ar, Some r =>
      if bool_decide (a_message_id a = i_message ids) && bool_decide (r_message_id r = i_message ids)
         && bool_decide (a_provider_id a = i_provider ids)
      then Some (a, ar, r) else None
  | _, _, _ => None
  end.

Definition no_recipient : ReportedRecipient := MkReportedRecipient "" "" "" "" "".

Definition same_address_rows (report : Report) (selected : ReportedRecipient) : Z :=
  match reportMailbox (rp_FinalRecipient selected) with
  | Some address =>
      Z.of_nat (length (List.filter (fun r => match reportMailbox (rp_FinalRecipient r) with
                                              | Some other => sameMailbox address other
                                              | None => false
                                              end) (rp_Recipients report)))
  | None => 0
  end.

(** [inspectSnapshot] at [now] *)
Definition inspectSnapshot (now : Time) (ids : Ids) (expected : string) (index : Z) (db : DB) : DBErr + Inspection :=
  match feedback_reports db !! i_feedback ids with
  | None => inl ErrNoRows
  | Some f =>
      let chosen := match fr_parsed f with
                    | Some report => match rp_Recipients report !! Z.to_nat index with
                                     | Some selected => Some (Some selected, same_address_rows report selected)
                                     | None => None
                                     end
                    | None => Some (None, 0)
                    end in
      match chosen with
      | None => inl (ErrText "report index out of range")
      | Some (selected, rows) =>
          let rel := relation ids db in
          let current := option_map (fun x => r_status (snd x)) rel in
          let attempt := option_map (fun x => ar_status (snd (fst x))) rel in
          let e := MkAssociationEvidence (record_state (i_feedback ids) f db) (not_null (fr_parsed f)) (not_null rel)
                     (String.eqb (fr_sha256 f) expected)
                     (match rel with Some (_, _, r) => r_address r | None => EmptyString end) current attempt
                     (match rel with Some (a, _, _) => finally_accepted a | None => false end)
                     (match rel with Some (a, _, _) => negb (newer_attempt (i_recipient ids) (a_attempt_number a) db) | None => false end)
                     (match rel with Some (a, _, _) => fr_created_at f <? a_started_at a | None => false end)
                     (default no_recipient selected) rows in
          inr (MkInspection ids now (record_state (i_feedback ids) f db) current attempt selected (Assess e))
      end
  end.

Definition parse_ids (v : InspectRequest) : option Ids :=
  match ParseUUID (iq_FeedbackID v), ParseUUID (iq_MessageID v), ParseUUID (iq_ProviderID v), ParseUUID (iq_AttemptID v),
        ParseUUID (iq_RecipientID v) with
  | Some f, Some m, Some p, Some a, Some r => Some (MkIds f m p a r)
  | _, _, _, _, _ => None
  end.

Definition index_ok (index : Z) : bool := (0 <=? index) && (index <? Z.of_nat MaxRecipients).

Definition Inspect (v : InspectRequest) : M (TxEnd Inspection) :=
  match parse_ids v with
  | None => raise (ErrText "feedback, message, provider, attempt and recipient UUIDs required")
  | Some ids =>
      if negb (String.length (iq_ExpectedSHA256 v) =? 64)%nat || negb (index_ok (iq_ReportIndex v))
      then raise (ErrText "expected SHA-256 and report index 0..99 required")
      else
        out ← query (fun t db => inspectSnapshot (at_now t) ids (iq_ExpectedSHA256 v) (iq_ReportIndex v) db);
        match out with inl e => raise e | inr x => mret (Commit (inr x)) end
  end.

End Service.

End Feedback.
