(* ===== verification/Publication.v ===== *)
(** * Publishing feedback: [internal/feedback/publication.go], [candidates.go]

    An operator associates a report with a recipient of a delivery ([Link]) and
    reviews the association ([Review]); what a website sees of it is the
    projection.  [Candidates] finds the attempts a report may be about,
    [ExplainStored] explains stored evidence. *)

From S2P Require Import Prelude Sha256 GoText Delivery SmtpClient Provider Database Auth Storage Paging Retention FeedbackParse Feedback.

Module Publication.

Import FeedbackParse Feedback.

Inductive PubState := PENDING_REVIEW | FAILURE_CONFIRMED_BY_OPERATOR | WITHDRAWN | EVIDENCE_CONFLICT.
#[export] Instance PubState_eq_dec : EqDecision PubState.
Proof. solve_decision. Defined.

Record Publication := MkPublication {
  pb_ID : UUID; pb_RecipientID : UUID; pb_AttemptID : UUID; pb_State : PubState; pb_SourceTrust : string; pb_Revision : Z;
  pb_CreatedAt : Time; pb_ReviewedAt : option Time }.

(** ** The projection *)

(** [ORDER BY revision DESC LIMIT 1] *)
Definition latest_review (id : UUID) (db : DB) : option (Z * LinkReview) :=
  match head (sort_by (fun x y => snd (fst y) <=? snd (fst x)) (select (fun k _ => bool_decide (fst k = id)) (feedback_link_reviews db))) with
  | Some (k, r) => Some (snd k, r)
  | None => None
  end.

Definition publication_state (feedback : UUID) (f : FeedbackReport) (latest : option (Z * LinkReview)) (db : DB) : PubState :=
  if in_conflict f db then EVIDENCE_CONFLICT
  else if not_null (feedback_reviews db !! feedback) then WITHDRAWN
  else match latest with
       | Some (_, r) => match lr_action r with WITHDRAW => WITHDRAWN | CONFIRM_FAILURE => FAILURE_CONFIRMED_BY_OPERATOR end
       | None => PENDING_REVIEW
       end.

(** [Projection] of one link *)
Definition projection (id : UUID) (db : DB) : option Publication :=
  match feedback_links db !! id with
  | Some l =>
      match feedback_reports db !! fl_feedback_id l with
      | Some f =>
          let latest := latest_review id db in
          Some (MkPublication id (fl_recipient_id l) (fl_attempt_id l) (publication_state (fl_feedback_id l) f latest db) "UNVERIFIED"
                  (match latest with Some (n, _) => n | None => 0 end) (fl_created_at l) (option_map (fun x => lr_created_at (snd x)) latest))
      | None => None
      end
  | None => None
  end.

(** ** [Link] *)

Record LinkRequest := MkLinkRequest {
  lq_Inspect : InspectRequest; lq_Reason : string; lq_AcknowledgeUnverified : bool; lq_ManualAssociation : bool }.

Definition publicationEvent (id mid aid rid : UUID) (kind actor reason : string) : M unit :=
  eid ← fresh;
  record_event eid (fun t => MkEventRow mid (Some rid) (Some aid) kind (at_now t) "operator"
    (JObj [("feedback_link_id", JId id); ("source_trust", JStr "UNVERIFIED")]%string) None);;
  audit kind actor (JObj [("feedback_link_id", JId id); ("message_id", JId mid); ("reason", JStr reason);
                          ("source_trust", JStr "UNVERIFIED")]%string).

(** The trigger [validate_feedback_link] *)
Definition link_allowed (l : FeedbackLink) (db : DB) : bool :=
  (count_rows (fun _ x => bool_decide (fl_message_id x = fl_message_id l)) (feedback_links db) <? 100)
  && match messages db !! fl_message_id l, delivery_attempts db !! fl_attempt_id l,
           attempt_recipients db !! (fl_attempt_id l, fl_recipient_id l), recipients db !! fl_recipient_id l with
     | Some m, Some a, Some ar, Some r =>
         String.eqb (m_source_type m) "api" && String.eqb (m_environment m) "production" && String.eqb (m_archive_state m) "AVAILABLE"
         && bool_decide (r_message_id r = fl_message_id l) && bool_decide (a_message_id a = fl_message_id l)
         && bool_decide (ar_status ar = SMTP_ACCEPTED) && finally_accepted a
     | _, _, _, _ => false
     end.

Section Publishing.
  Context {parser : UuidParser} {addresses : MailParser} {mime : Mime}.

(** [uuid.Parse], not Nil, in canonical text *)
Definition canonical_id (s : string) : option UUID :=
  match ParseUUID s with
  | Some u => if negb (u =? 0)%N && String.eqb (uuid_text u) s then Some u else None
  | None => None
  end.

Definition canonical_ids (v : InspectRequest) : option Ids :=
  match canonical_id (iq_FeedbackID v), canonical_id (iq_MessageID v), canonical_id (iq_ProviderID v),
        canonical_id (iq_AttemptID v), canonical_id (iq_RecipientID v) with
  | Some f, Some m, Some p, Some a, Some r => Some (MkIds f m p a r)
  | _, _, _, _, _ => None
  end.

(** [hex.DecodeString], 32 bytes, in canonical text *)
Definition canonical_digest (s : string) : bool :=
  match DecodeString s with
  | Some b => (length b =? 32)%nat && String.eqb (EncodeToString b) s
  | None => false
  end.

(** What must hold of the inspection *)
Definition has_reason (x : Inspection) (reason : string) : bool := one_of reason (as_Reasons (in_Assessment x)).
Definition linkable (x : Inspection) (manual : bool) (index : Z) : bool :=
  String.eqb (in_FeedbackState x) "QUARANTINED" && is_status (in_CurrentStatus x) SMTP_ACCEPTED
  && is_status (in_AttemptStatus x) SMTP_ACCEPTED && negb (has_reason x "NO_STABLE_SMTP_ACCEPTANCE")
  && negb (has_reason x "NEWER_RECIPIENT_ATTEMPT") && negb (has_reason x "REPORT_PREDATES_ATTEMPT")
  && if has_reason x "UNSUPPORTED_REPORT"
     then manual && (index =? 0) && negb (has_reason x "RELATION_MISMATCH")
     else negb manual && as_CandidateMatches (in_Assessment x).

Definition Link (v : LinkRequest) (actor : string) : M (TxEnd Publication) :=
  let index := iq_ReportIndex (lq_Inspect v) in
  let expected := iq_ExpectedSHA256 (lq_Inspect v) in
  if negb (lq_AcknowledgeUnverified v) || negb (valid (lq_Reason v) 2048) || negb (valid actor 128) || negb (index_ok index)
  then raise ErrInvalidPublication
  else match canonical_ids (lq_Inspect v) with
  | None => raise ErrInvalidPublication
  | Some ids =>
      if negb (canonical_digest expected) then raise ErrInvalidPublication
      else
        query (fun _ _ => tt);;
        raw ← query_row (fun _ db => option_map fr_raw (feedback_reports db !! i_feedback ids));
        (if String.eqb (EncodeToString (Sha.Sum256 raw)) expected then mret tt else raise ErrPublication);;
        inspection ← query (fun t db => inspectSnapshot (at_now t) ids expected index db);
        match inspection with
        | inl _ => raise ErrPublication
        | inr x =>
            (if linkable x (lq_ManualAssociation v) index then mret tt else raise ErrPublication);;
            existing ← query (fun _ db => exists_row (fun _ l => bool_decide (fl_feedback_id l = i_feedback ids)
                                                       && (fl_report_index l =? index)) (feedback_links db));
            (if existing : bool then raise ErrPublication else mret tt);;
            id ← fresh;
            stmt (fun t db =>
              let l := MkFeedbackLink (i_feedback ids) index (i_message ids) (i_attempt ids) (i_recipient ids) actor (lq_Reason v) (at_clock t) in
              if link_allowed l db
                 && negb (exists_row (fun _ x => bool_decide (fl_feedback_id x = i_feedback ids) && (fl_report_index x =? index)) (feedback_links db))
              then rows ← insert_row id l (feedback_links db); Some (tt, db <| feedback_links := rows |>)
              else None);;
            publicationEvent id (i_message ids) (i_attempt ids) (i_recipient ids) "FEEDBACK_LINKED" actor (lq_Reason v);;
            out ← query_row (fun _ db => projection id db);
            mret (Commit (inr out))
        end
  end.

(** ** [Review] *)

Record ReviewRequest := MkReviewRequest {
  vq_ExpectedRevision : Z; vq_Action : string; vq_Reason : string; vq_AcknowledgeUnverified : bool }.

Definition action_of (s : string) : option ReviewAction :=
  if String.eqb s "CONFIRM_FAILURE" then Some CONFIRM_FAILURE else if String.eqb s "WITHDRAW" then Some WITHDRAW else None.

(** [parsed->'recipients'->index]: action failed, status 5.x *)
Definition reported_failure (f : FeedbackReport) (index : Z) : bool :=
  match fr_parsed f with
  | Some report => match rp_Recipients report !! Z.to_nat index with
                   | Some r => String.eqb (rp_Action r) "failed" && HasPrefix (rp_Status r) "5."
                   | None => false
                   end
  | None => false
  end.

Definition reviewable (out : Publication) (expected : Z) (action : ReviewAction) : bool :=
  (pb_Revision out =? expected) && negb (bool_decide (pb_State out = WITHDRAWN))
  && negb (bool_decide (action = CONFIRM_FAILURE) && negb (bool_decide (pb_State out = PENDING_REVIEW)))
  && negb ((pb_Revision out =? 1) && negb (bool_decide (action = WITHDRAW))).

(** The CHECK constraints and the trigger of [feedback_link_reviews] *)
Definition review_allowed (id : UUID) (revision : Z) (action : ReviewAction) (db : DB) : bool :=
  let previous := option_map (fun x => lr_action (snd x)) (latest_review id db) in
  one_of revision [1; 2] && ((revision =? 1) || bool_decide (action = WITHDRAW))
  && negb ((revision =? 1) && not_null previous)
  && negb ((revision =? 2) && negb (bool_decide (previous = Some CONFIRM_FAILURE))).

Definition Review (id : string) (v : ReviewRequest) (actor : string) : M (TxEnd Publication) :=
  match canonical_id id, action_of (vq_Action v) with
  | Some id, Some action =>
      if negb (vq_AcknowledgeUnverified v) || negb (valid (vq_Reason v) 2048) || negb (valid actor 128)
         || (vq_ExpectedRevision v <? 0) || (1 <? vq_ExpectedRevision v)
      then raise ErrInvalidPublication
      else
        query (fun _ _ => tt);;
        out ← query_row (fun _ db => projection id db);
        (if reviewable out (vq_ExpectedRevision v) action then mret tt else raise ErrPublication);;
        (if bool_decide (action = CONFIRM_FAILURE) then
           report ← query_row (fun _ db => l ← feedback_links db !! id;
                                           f ← feedback_reports db !! fl_feedback_id l; Some (f, fl_report_index l));
           (if not_null (fr_parsed (fst report)) && negb (reported_failure (fst report) (snd report))
            then raise ErrPublication else mret tt);;
           stable ← query_row (fun _ db =>
             r ← recipients db !! pb_RecipientID out;
             original ← delivery_attempts db !! pb_AttemptID out;
             Some (bool_decide (r_status r = SMTP_ACCEPTED)
                   && negb (newer_attempt (pb_RecipientID out) (a_attempt_number original) db)));
           (if stable : bool then mret tt else raise ErrPublication)
         else mret tt);;
        stmt (fun t db =>
          if review_allowed id (pb_Revision out + 1) action db
          then rows ← insert_row (id, pb_Revision out + 1) (MkLinkReview action actor (vq_Reason v) (at_clock t))
                        (feedback_link_reviews db);
               Some (tt, db <| feedback_link_reviews := rows |>)
          else None);;
        mid ← query_row (fun _ db => option_map fl_message_id (feedback_links db !! id));
        publicationEvent id mid (pb_AttemptID out) (pb_RecipientID out) "FEEDBACK_REVIEWED" actor (vq_Reason v);;
        out ← query_row (fun _ db => projection id db);
        mret (Commit (inr out))
  | _, _ => raise ErrInvalidPublication
  end.

(** ** [Candidates] *)

Record CandidateRequest := MkCandidateRequest {
  cq_FeedbackID : string; cq_ExpectedSHA256 : string; cq_RFCMessageID : string; cq_ReportIndex : Z; cq_Limit : Z }.
Record CandidateSearch := MkCandidateSearch {
  cs_SnapshotAt : Time; cs_AutomaticActionAllowed : bool; cs_MultipleMessages : bool; cs_Truncated : bool;
  cs_Reasons : list string; cs_Candidates : list Inspection }.

(** Message, provider, attempt with its number, and recipient of a row *)
Abbreviation Hit := (UUID * UUID * UUID * Z * UUID)%type.

(** [ORDER BY m.id,a.attempt_number DESC,r.id] *)
Definition hit_leb (x y : Hit) : bool :=
  let '(m1, _, _, n1, r1) := x in let '(m2, _, _, n2, r2) := y in
  if negb (m1 =? m2)%N then (m1 <? m2)%N else if negb (n1 =? n2) then n2 <? n1 else (r1 <=? r2)%N.

Definition hits (rfc : string) (db : DB) : list Hit :=
  sort_by hit_leb (omap (fun kx =>
    match delivery_attempts db !! fst (fst kx), recipients db !! snd (fst kx) with
    | Some a, Some r =>
        match messages db !! a_message_id a with
        | Some m => if bool_decide (r_message_id r = a_message_id a) && String.eqb (m_message_id m) rfc
                    then Some (a_message_id a, a_provider_id a, fst (fst kx), a_attempt_number a, snd (fst kx)) else None
        | None => None
        end
    | _, _ => None
    end) (map_to_list (attempt_recipients db))).

Definition matching_messages (rfc : string) (db : DB) : nat :=
  length (limit 2 (select (fun _ m => String.eqb (m_message_id m) rfc) (messages db))).

(** One candidate, with the reasons the search adds *)
Definition weaken (multiple truncated : bool) (x : Inspection) : Inspection :=
  let a := in_Assessment x in
  x <| in_Assessment := a <| as_CandidateMatches := as_CandidateMatches a && negb multiple && negb truncated |>
         <| as_Reasons := as_Reasons a ++ ["OPERATOR_MESSAGE_ID_HINT"%string] ++ add multiple "AMBIGUOUS_MESSAGE_ID"
                          ++ add truncated "CANDIDATES_TRUNCATED" |> |>.

Fixpoint inspect_all (now : Time) (feedback : UUID) (expected : string) (index : Z) (l : list Hit) (db : DB)
  : DBErr + list Inspection :=
  match l with
  | [] => inr []
  | (m, p, a, _, r) :: rest =>
      match inspectSnapshot now (MkIds feedback m p a r) expected index db with
      | inl e => inl e
      | inr x => match inspect_all now feedback expected index rest db with inl e => inl e | inr xs => inr (x :: xs) end
      end
  end.

Definition search (now : Time) (feedback : UUID) (v : CandidateRequest) (db : DB) : DBErr + CandidateSearch :=
  match feedback_reports db !! feedback with
  | None => inl ErrNoRows
  | Some f =>
      if negb (String.eqb (fr_sha256 f) (cq_ExpectedSHA256 v))
         || negb (String.eqb (EncodeToString (Sha.Sum256 (fr_raw f))) (cq_ExpectedSHA256 v))
      then inl (ErrText "evidence digest mismatch")
      else if match fr_parsed f with
              | Some report => Z.of_nat (length (rp_Recipients report)) <=? cq_ReportIndex v
              | None => false
              end
      then inl (ErrText "report index unavailable")
      else
        let count := matching_messages (cq_RFCMessageID v) db in
        let multiple := (1 <? count)%nat in
        let found := limit (Z.to_nat (cq_Limit v + 1)) (hits (cq_RFCMessageID v) db) in
        let truncated := (Z.to_nat (cq_Limit v) <? length found)%nat in
        let requests := if truncated then firstn (Z.to_nat (cq_Limit v)) found else found in
        match inspect_all now feedback (cq_ExpectedSHA256 v) (cq_ReportIndex v) requests db with
        | inl e => inl e
        | inr xs =>
            inr (MkCandidateSearch now false multiple truncated
                   (["SOURCE_UNVERIFIED"; "MESSAGE_ID_IS_NOT_PROOF"]%string ++ add (is_null (fr_parsed f)) "UNSUPPORTED_REPORT"
                    ++ add (count =? 0)%nat "NO_MESSAGE_MATCH" ++ add multiple "AMBIGUOUS_MESSAGE_ID"
                    ++ add truncated "CANDIDATES_TRUNCATED"
                    ++ add ((0 <? count)%nat && (length requests =? 0)%nat) "NO_ATTEMPT_CANDIDATES")
                   (map (weaken multiple truncated) xs))
        end
  end.

Definition Candidates (v : CandidateRequest) : M (TxEnd CandidateSearch) :=
  match ParseUUID (cq_FeedbackID v) with
  | None => raise (ErrText "valid feedback UUID required")
  | Some feedback =>
      if negb (canonical_digest (cq_ExpectedSHA256 v)) || String.eqb (cq_RFCMessageID v) ""
         || (998 <? String.length (cq_RFCMessageID v))%nat || negb (String.eqb (TrimSpace (cq_RFCMessageID v)) (cq_RFCMessageID v))
         || ContainsAny (cq_RFCMessageID v) line_breaks || (cq_Limit v <? 1) || (50 <? cq_Limit v) || negb (index_ok (cq_ReportIndex v))
      then raise (ErrText "invalid candidate search bounds or digest")
      else
        out ← query (fun t db => search (at_now t) feedback v db);
        match out with inl e => raise e | inr x => mret (Commit (inr x)) end
  end.

(** ** [ExplainStored] *)
Definition ExplainStored (id expected : string) : M (TxEnd Explanation) :=
  match ParseUUID id with
  | None => raise (ErrText "valid feedback UUID required")
  | Some id =>
      if negb (canonical_digest expected) then raise (ErrText "canonical evidence SHA-256 required")
      else
        f ← query_row (fun _ db => feedback_reports db !! id);
        if negb (String.eqb expected (fr_sha256 f)) || negb (String.eqb expected (EncodeToString (Sha.Sum256 (fr_raw f))))
        then raise (ErrText "evidence digest mismatch")
        else match Explain (fr_raw f) with
             | inl _ => raise (ErrText "unsupported or malformed DSN; manual inspection required")
             | inr e => mret (Commit (inr e))
             end
  end.

End Publishing.

End Publication.
