(* ===== verification/Collect.v ===== *)
(** * Collecting reports from a mailbox: [internal/feedback/collect.go]

    A collector reads a window of a mailbox in the order of the message
    numbers (UIDs) and, message by message, commits what became of it together
    with the evidence and the checkpoint.

    The mailbox is what the server answers; [None] is an error.  UIDs are
    32-bit numbers.  The counters of a run that stopped in the transaction of
    its checkpoint are those before it. *)

From S2P Require Import Prelude Sha256 GoText TextFacts Delivery SmtpClient Provider Database Auth Storage Paging Retention FeedbackParse Feedback Publication.

Module Collect.

Import FeedbackParse Feedback.

Definition ErrCollectorBusy : DBErr := ErrText "feedback collector already running for this source".
Definition ErrMailboxChanged : DBErr := ErrText "mailbox identity or UID epoch changed; manual review required".
Definition CollectorMaxBytes : Z := 100 * 2 ^ 20.
Definition CollectorMaxRecords : Z := 10000.

Record MailMetadata := MkMailMetadata { mm_UID : Z; mm_Size : Z }.

(** [Mailbox]: UIDVALIDITY and UIDNEXT; sizes in a window; a body, or that it
    is gone *)
Record Mailbox := MkMailbox {
  mb_Select : option (Z * Z); mb_Metadata : Z -> Z -> option (list MailMetadata);
  mb_Body : Z -> option (option (list byte)) }.

Record CollectOptions := MkCollectOptions {
  co_Source : string; co_IdentitySHA256 : string; co_Batch : Z; co_AcceptUIDValidity : Z }.
Record Collection := MkCollection { cn_UIDValidity : Z; cn_LastUID : Z; cn_Imported : Z; cn_Issues : Z }.
#[export] Instance eta_Collection : Eta Collection := fun c =>
  MkCollection (cn_UIDValidity c) (cn_LastUID c) (cn_Imported c) (cn_Issues c).

(** [sourceName]: [^[A-Za-z0-9._-]{1,64}$] *)
Definition source_char (c : ascii) : bool :=
  let n := N_of_ascii c in
  ((65 <=? n)%N && (n <=? 90)%N) || ((97 <=? n)%N && (n <=? 122)%N) || ((48 <=? n)%N && (n <=? 57)%N)
  || one_of c ["."; "_"; "-"]%char.
Definition sourceName (s : string) : bool :=
  all_chars source_char s && (1 <=? String.length s)%nat && (String.length s <=? 64)%nat.

Definition set_source (name : string) (f : ImapSource -> ImapSource) (db : DB) : DB :=
  db <| feedback_imap_sources := update (fun k _ => String.eqb k name) f (feedback_imap_sources db) |>.

(** ** [collectorAlert] *)

Definition collectorAlert (source : string) (validity : Z) (kind : string) : M (TxEnd unit) :=
  inserted ← stmt (fun _ db =>
    if bool_decide ((source, validity, kind) ∈ feedback_imap_alerts db) then Some (false, db)
    else Some (true, db <| feedback_imap_alerts := {[(source, validity, kind)]} ∪ feedback_imap_alerts db |>));
  (if inserted : bool then
     charged ← stmt (fun _ db =>
       match feedback_imap_sources db !! source with
       | Some s => if is_records s <? 10000
                   then Some (true, set_source source (fun s => s <| is_records := is_records s + 1 |>) db)
                   else Some (false, db)
       | None => Some (false, db)
       end);
     (if charged : bool then mret tt else raise ErrCapacity);;
     audit "FEEDBACK_IMAP_ALERT" "imap_collector"
       (JObj [("kind", JStr kind); ("source", JStr source); ("uid_validity", JNum validity)]%string)
   else mret tt);;
  mret (Commit (inr tt)).

(** ** [initializeSource] *)

(** How its transaction ends, with the checkpoint it read: [EpochChanged] is
    where the code rolls back and raises an alert. *)
Inductive Prepared := Ready (last : Z) | EpochChanged (last : Z) | Refused (e : DBErr) (last : Z).

Definition initialize (o : CollectOptions) (validity : Z) : M (TxEnd Prepared) :=
  inserted ← stmt (fun _ db =>
    match feedback_imap_sources db !! co_Source o with
    | Some _ => Some (false, db)
    | None => Some (true, db <| feedback_imap_sources :=
                <[co_Source o := MkImapSource (co_IdentitySHA256 o) validity 0 0 0]> (feedback_imap_sources db) |>)
    end);
  s ← query_row (fun _ db => feedback_imap_sources db !! co_Source o);
  if negb (String.eqb (is_identity_sha256 s) (co_IdentitySHA256 o)) then mret (Rollback (inr (Refused ErrMailboxChanged (is_last_uid s))))
  else if CollectorMaxRecords <=? is_records s then mret (Rollback (inr (Refused ErrCapacity (is_last_uid s))))
  else if negb (is_uid_validity s =? validity) && negb (co_AcceptUIDValidity o =? validity)
  then mret (Rollback (inr (EpochChanged (is_last_uid s))))
  else
    let reset := negb (is_uid_validity s =? validity) in
    (if reset then
       exec (fun _ => set_source (co_Source o) (fun s => s <| is_uid_validity := validity |> <| is_last_uid := 0 |>));;
       audit "FEEDBACK_IMAP_EPOCH_RESET" "local_cli"
         (JObj [("new", JNum validity); ("old", JNum (is_uid_validity s)); ("source", JStr (co_Source o))]%string)
     else mret tt);;
    (if inserted : bool then
       audit "FEEDBACK_IMAP_SOURCE_CREATED" "local_cli"
         (JObj [("identity_sha256", JStr (is_identity_sha256 s)); ("source", JStr (co_Source o))]%string)
     else mret tt);;
    mret (Commit (inr (Ready (if reset then 0 else is_last_uid s)))).

Definition initializeSource (w w' : World) (o : CollectOptions) (validity : Z) (db : DB) : option DBErr * Z * DB :=
  match transact w (initialize o validity) db with
  | (inl e, db') => (Some e, 0, db')
  | (inr (Ready last), db') => (None, last, db')
  | (inr (Refused e last), db') => (Some e, last, db')
  | (inr (EpochChanged last), db') =>
      match transact w' (collectorAlert (co_Source o) validity "UIDVALIDITY_CHANGED") db' with
      | (inl e, db'') => (Some e, last, db'')
      | (inr _, db'') => (Some ErrMailboxChanged, last, db'')
      end
  end.

Section Collector.
  Context {parser : UuidParser} {addresses : MailParser} {mime : Mime}.

(** ** [saveCollected] *)

Definition collected_text (c : Collected) : string :=
  match c with IMPORTED => "IMPORTED" | OVERSIZE => "OVERSIZE" | EMPTY => "EMPTY" | VANISHED => "VANISHED" end.

Definition request_for (o : CollectOptions) (validity uid : Z) : ImportRequest :=
  MkImportRequest ("imap:" ++ co_Source o) (co_IdentitySHA256 o ++ ":" ++ FormatInt validity ++ ":" ++ FormatInt uid)
    "imap_collector" "authenticated mailbox read; feedback source remains unverified".

Definition saveCollected (full : bool) (o : CollectOptions) (validity : Z) (m : MailMetadata) (raw : list byte)
    (outcome : Collected) : M (TxEnd unit) :=
  let bytes := Z.of_nat (length raw) in
  known ← query (fun _ db => not_null (feedback_imap_receipts db !! (co_Source o, validity, mm_UID m)));
  if known : bool then
    exec (fun _ => set_source (co_Source o) (fun s => s <| is_last_uid := mm_UID m |>));;
    mret (Commit (inr tt))
  else
    charged ← stmt (fun _ db =>
      match feedback_imap_sources db !! co_Source o with
      | Some s => if (is_records s <? 10000) && (is_stored_bytes s + bytes <=? CollectorMaxBytes)
                  then Some (true, set_source (co_Source o) (fun s => s <| is_stored_bytes := is_stored_bytes s + bytes |>
                                     <| is_records := is_records s + 1 |> <| is_last_uid := mm_UID m |>) db)
                  else Some (false, db)
      | None => Some (false, db)
      end);
    (if charged : bool then mret tt else raise ErrCapacity);;
    id ← (if bool_decide (outcome = IMPORTED)
          then r ← importRaw full (request_for o validity (mm_UID m)) raw; mret (Some (fst r))
          else mret None);
    stmt (fun _ db =>
      rows ← insert_row (co_Source o, validity, mm_UID m) (MkReceipt outcome (mm_Size m) id) (feedback_imap_receipts db);
      Some (tt, db <| feedback_imap_receipts := rows |>));;
    audit "FEEDBACK_IMAP_COLLECTED" "imap_collector"
      (JObj [("feedback_id", match id with Some u => JId u | None => JStr "" end); ("outcome", JStr (collected_text outcome));
             ("source", JStr (co_Source o)); ("uid", JNum (mm_UID m)); ("uid_validity", JNum validity)]%string);;
    mret (Commit (inr tt)).

(** ** [Collect] *)

(** The last checkpoint *)
Definition advance (o : CollectOptions) (last : Z) : M (TxEnd unit) :=
  exec (fun _ => set_source (co_Source o) (fun s => s <| is_last_uid := last |>));;
  mret (Commit (inr tt)).

(** The connection, the advisory lock, the worlds of the transactions, and
    what the capacity trigger answers for each message *)
Record Session := MkSession {
  sn_conn : bool; sn_lock : option bool; sn_open : option Mailbox; sn_init : World; sn_alert : World;
  sn_save : nat -> World; sn_full : nat -> bool; sn_advance : World }.

Definition uid_leb (x y : MailMetadata) : bool := mm_UID x <=? mm_UID y.

Fixpoint window_ok (start stop : Z) (previous : option Z) (l : list MailMetadata) : bool :=
  match l with
  | [] => true
  | m :: rest => negb ((mm_UID m <? start) || (stop <? mm_UID m) || (mm_Size m <? 0) || bool_decide (previous = Some (mm_UID m)))
                 && window_ok start stop (Some (mm_UID m)) rest
  end.

(** What a message is: the outcome and the bytes to keep *)
Definition fetch (box : Mailbox) (m : MailMetadata) : DBErr + Collected * list byte :=
  if MaxBytes <? mm_Size m then inr (OVERSIZE, [])
  else if mm_Size m =? 0 then inr (EMPTY, [])
  else match mb_Body box (mm_UID m) with
  | None => inl (ErrText "IMAP body fetch failed; checkpoint retained")
  | Some None => inr (VANISHED, [])
  | Some (Some raw) =>
      if MaxBytes <? Z.of_nat (length raw) then inr (OVERSIZE, [])
      else if Z.of_nat (length raw) =? mm_Size m then inr (IMPORTED, raw)
      else inl (ErrText "IMAP body size mismatch; checkpoint retained")
  end.

(** The loop over the messages *)
Fixpoint collect_all (sn : Session) (k : nat) (box : Mailbox) (o : CollectOptions) (validity : Z) (l : list MailMetadata)
    (out : Collection) (db : DB) : option DBErr * Collection * DB :=
  match l with
  | [] => (None, out, db)
  | m :: rest =>
      match fetch box m with
      | inl e => (Some e, out, db)
      | inr (outcome, raw) =>
          match transact (sn_save sn k) (saveCollected (sn_full sn k) o validity m raw outcome) db with
          | (inl e, db') => (Some e, out, db')
          | (inr _, db') =>
              let out := out <| cn_LastUID := mm_UID m |> in
              let out := if bool_decide (outcome = IMPORTED) then out <| cn_Imported := cn_Imported out + 1 |>
                         else out <| cn_Issues := cn_Issues out + 1 |> in
              collect_all sn (S k) box o validity rest out db'
          end
      end
  end.

(** From the checkpoint on *)
Definition collect_window (sn : Session) (box : Mailbox) (o : CollectOptions) (validity next last : Z) (db : DB)
  : option DBErr * Collection * DB :=
  let out := MkCollection validity last 0 0 in
  let stop := if next <=? last + co_Batch o then next - 1 else last + co_Batch o in
  if stop =? last then (None, out, db)
  else
    let start := (last + 1) mod 2 ^ 32 in
    match mb_Metadata box start stop with
    | None => (Some (ErrText "IMAP metadata fetch failed"), out, db)
    | Some metadata =>
        if co_Batch o <? Z.of_nat (length metadata) then (Some (ErrText "IMAP metadata exceeds requested window"), out, db)
        else
          let metadata := sort_by uid_leb metadata in
          if negb (window_ok start stop None metadata) then (Some (ErrText "invalid IMAP metadata"), out, db)
          else match collect_all sn 0 box o validity metadata out db with
          | (Some e, out, db') => (Some e, out, db')
          | (None, out, db') =>
              match transact (sn_advance sn) (advance o stop) db' with
              | (inl e, db'') => (Some e, out, db'')
              | (inr _, db'') => (None, out <| cn_LastUID := stop |>, db'')
              end
          end
    end.

Definition Collect (sn : Session) (o : CollectOptions) (db : DB) : option DBErr * Collection * DB :=
  let out := MkCollection 0 0 0 0 in
  if negb (sourceName (co_Source o)) || negb (Publication.canonical_digest (co_IdentitySHA256 o)) || (co_Batch o <? 1) || (100 <? co_Batch o)
  then (Some (ErrText "invalid collection identity or batch"), out, db)
  else if negb (sn_conn sn) then (Some ErrSQL, out, db)
  else match sn_lock sn with
  | None => (Some ErrSQL, out, db)
  | Some false => (Some ErrCollectorBusy, out, db)
  | Some true =>
      match sn_open sn with
      | None => (Some (ErrText "IMAP connection/authentication failed"), out, db)
      | Some box =>
          match mb_Select box with
          | None => (Some (ErrText "IMAP read-only mailbox selection failed"), out, db)
          | Some (validity, next) =>
              if (validity =? 0) || (next =? 0) then (Some (ErrText "mailbox lacks valid UIDVALIDITY/UIDNEXT"), out, db)
              else
                let out := out <| cn_UIDValidity := validity |> in
                if negb (co_AcceptUIDValidity o =? 0) && negb (co_AcceptUIDValidity o =? validity) then (Some ErrMailboxChanged, out, db)
                else match initializeSource (sn_init sn) (sn_alert sn) o validity db with
                | (Some e, last, db') => (Some e, out <| cn_LastUID := last |>, db')
                | (None, last, db') =>
                    let out := out <| cn_LastUID := last |> in
                    if next <=? last then
                      match transact (sn_alert sn) (collectorAlert (co_Source o) validity "UIDNEXT_REGRESSED") db' with
                      | (inl e, db'') => (Some e, out, db'')
                      | (inr _, db'') => (Some ErrMailboxChanged, out, db'')
                      end
                    else collect_window sn box o validity next last db'
                end
          end
      end
  end.

End Collector.

End Collect.
