(* ===== verification/FeedbackSpec.v ===== *)
(** * What feedback may do

    The feedback transactions only add evidence and reviews: none of them
    touches a delivery, and what was recorded stays.  From this follow the life
    of a publication and the guarantees of the collector. *)

From S2P Require Import Prelude Sha256 GoText TextFacts Delivery SmtpClient Provider Database Suppression Message Queue Worker QueueOps MessageOps QueueSpec Demo System Frames Runs Auth Storage Paging Retention ArchiveSpec FeedbackParse Feedback Publication Collect.

Module FeedbackSpec.

Import FeedbackParse Feedback Publication Collect.

(** ** Evidence grows, deliveries stay *)

(** Everything a delivery consists of and depends on *)
Definition delivery_tables (db : DB) :=
  (websites db, (messages db, recipients db, delivery_attempts db, attempt_recipients db),
   (provider_health db, provider_quota db, suppression_entries db, queue_fair_owners db, queue_fair_ticket db),
   (providers db, provider_quota_groups db, api_keys db, api_message_streams db),
   (api_submission_ledger db, api_submission_quota db),
   (webhook_endpoints db, webhook_delivery_log db),
   (archive_observations db, archive_retirements db, archive_reclaims db)).

(** The reviews of a link: the first, and after a confirmation at most a withdrawal *)
Definition well_reviewed (t : gmap (UUID * Z) LinkReview) : Prop := forall id n r, t !! (id, n) = Some r ->
  n = 1 \/ n = 2 /\ lr_action r = WITHDRAW /\ exists r1, t !! (id, 1) = Some r1 /\ lr_action r1 = CONFIRM_FAILURE.

(** What a mailbox may have brought in *)
Definition within_quota (s : ImapSource) : Prop := is_records s <= CollectorMaxRecords /\ is_stored_bytes s <= CollectorMaxBytes.
Definition bounded (t : gmap string ImapSource) : Prop := forall name s, t !! name = Some s -> within_quota s.

Record advisory (db db' : DB) : Prop := {
  ad_delivery : delivery_tables db' = delivery_tables db;
  ad_reports : feedback_reports db ⊆ feedback_reports db';
  ad_reviews : feedback_reviews db ⊆ feedback_reviews db';
  ad_links : feedback_links db ⊆ feedback_links db';
  ad_link_reviews : feedback_link_reviews db ⊆ feedback_link_reviews db';
  ad_receipts : feedback_imap_receipts db ⊆ feedback_imap_receipts db';
  ad_alerts : feedback_imap_alerts db ⊆ feedback_imap_alerts db';
  ad_sources : forall k s, feedback_imap_sources db !! k = Some s -> exists s', feedback_imap_sources db' !! k = Some s' /\
    is_identity_sha256 s' = is_identity_sha256 s /\ is_stored_bytes s <= is_stored_bytes s' /\ is_records s <= is_records s';
  ad_audit : maintenance_audit db ⊆ maintenance_audit db';
  ad_events : events db ⊆ events db';
  ad_kinds : forall k e, events db' !! k = Some e -> events db !! k = None -> e_event_type e ∈ feedback_kinds;
  ad_reviewed : well_reviewed (feedback_link_reviews db) -> well_reviewed (feedback_link_reviews db');
  ad_bounded : bounded (feedback_imap_sources db) -> bounded (feedback_imap_sources db');
  ad_notices : notified db db' }.

Lemma advisory_refl db : advisory db db.
Proof.
  split; try done; [|congruence|apply notified_refl]. intros k s Hs. exists s. do 2 (split; [done|]). lia.
Qed.

Lemma advisory_trans a b c : advisory a b -> advisory b c -> advisory a c.
Proof.
  intros [A1 A2 A3 A4 A5 A6 A7 A8 A9 A10 A11 A12 A13 A14] [B1 B2 B3 B4 B5 B6 B7 B8 B9 B10 B11 B12 B13 B14].
  split; try (by etrans); try auto; [| |by eapply notified_trans].
  - intros k s Hs. destruct (A8 k s Hs) as (s1 & H1 & E1 & L1 & N1). destruct (B8 k s1 H1) as (s2 & H2 & E2 & L2 & N2).
    exists s2. split; [done|]. split; [congruence|lia].
  - intros k e He Hn. destruct (events b !! k) as [e'|] eqn:Eb; [|by apply (B11 k)].
    pose proof (lookup_weaken _ _ _ _ Eb B10) as Hc. rewrite He in Hc. injection Hc as ->. by apply (A11 k).
Qed.

Abbreviation advises := (respects advisory).

Create HintDb advises.
#[export] Hint Resolve respects_ret respects_raise respects_query respects_query_row respects_fresh : advises.

Ltac advises :=
  repeat first
    [ progress intros
    | solve [eauto with advises nocore]
    | apply respects_bind
    | apply respects_forM
    | case_match ].

Lemma advises_stmt {A} (f : At -> DB -> option (A * DB)) :
  (forall t db a db', f t db = Some (a, db') -> advisory db db') -> advises (stmt f).
Proof. apply respects_stmt. exact advisory_trans. Qed.

Lemma advisory_audit db k x : maintenance_audit db !! k = None ->
  advisory db (db <| maintenance_audit := <[k := x]> (maintenance_audit db) |>).
Proof. intros Hn. destruct (advisory_refl db). split; simpl; try done; try (by apply notified_same). by apply insert_subseteq. Qed.

Lemma advisory_event db k x outbox : events db !! k = None -> e_event_type x ∈ feedback_kinds ->
  captures k x db outbox -> advisory db (with_event k x outbox db).
Proof.
  intros Hn Hx Hc. destruct (advisory_refl db). split; simpl; try done; [by apply insert_subseteq| |by apply notified_event].
  intros j e. rewrite lookup_insert_Some. intros [[<- <-]|[_ He]]; [done|congruence].
Qed.

Lemma advises_record id e : (forall t, e_event_type (e t) ∈ feedback_kinds) -> advises (record_event id e).
Proof.
  intros Hk. apply advises_stmt. intros t db [] db' H. destruct (insert_event _ _ _ _) as [d|] eqn:E; [|done]. injection H as <-.
  apply insert_event_some in E as (Hn & outbox & Hc & ->). by apply advisory_event.
Qed.

Lemma audit_advises action actor data : advises (audit action actor data).
Proof.
  unfold audit. apply respects_bind; [apply respects_fresh|]. intros id. apply advises_stmt. intros t db [] db' H.
  destruct (insert_row _ _ _) as [rows|] eqn:E; [|done]. injection H as <-. apply insert_row_some in E as [Hn ->].
  by apply advisory_audit.
Qed.
#[export] Hint Resolve audit_advises : advises.

Lemma invalidate_advises hit : advises (invalidate hit).
Proof.
  unfold invalidate. advises. apply advises_record. intros t. simpl. set_solver.
Qed.
#[export] Hint Resolve invalidate_advises : advises.

Lemma set_source_advisory name f db :
  (forall s, feedback_imap_sources db !! name = Some s ->
     is_identity_sha256 (f s) = is_identity_sha256 s /\ is_stored_bytes s <= is_stored_bytes (f s) /\
     is_records s <= is_records (f s) /\ (within_quota s -> within_quota (f s))) ->
  advisory db (set_source name f db).
Proof.
  intros Hf. destruct (advisory_refl db). split; simpl; try done; try (by apply notified_same).
  - intros k s Hs. rewrite lookup_update, Hs. simpl. eexists. split; [done|].
    destruct (String.eqb_spec k name) as [->|]; [by destruct (Hf s Hs) as (? & ? & ? & _)|]. split; [done|lia].
  - intros Hb k s. rewrite lookup_update. destruct (feedback_imap_sources db !! k) as [s0|] eqn:Ek; [|done].
    simpl. intros [= <-]. destruct (String.eqb_spec k name) as [->|]; [|by eapply Hb].
    destruct (Hf s0 Ek) as (_ & _ & _ & Hw). by eapply Hw, Hb.
Qed.

Lemma advises_source name f :
  (forall s, is_identity_sha256 (f s) = is_identity_sha256 s /\ is_stored_bytes (f s) = is_stored_bytes s /\
             is_records (f s) = is_records s) ->
  advises (exec (fun _ => set_source name f)).
Proof.
  intros Hf. apply respects_exec; [exact advisory_trans|]. intros t db. apply set_source_advisory. intros s _.
  destruct (Hf s) as (E1 & E2 & E3). unfold within_quota. rewrite E1, E2, E3. split; [done|]. lia.
Qed.
#[export] Hint Extern 1 (respects advisory (exec (fun _ => set_source _ _))) => by apply advises_source : advises.

(** The reviews of one link, newest first *)
Lemma latest_review_some id db n r : latest_review id db = Some (n, r) ->
  feedback_link_reviews db !! (id, n) = Some r /\ forall k x, feedback_link_reviews db !! (id, k) = Some x -> k <= n.
Proof.
  unfold latest_review. destruct (head _) as [[k x]|] eqn:E; [|done]. intros [= <- <-].
  assert (Hin : (k, x) ∈ select (fun k _ => bool_decide (fst k = id)) (feedback_link_reviews db)).
  { apply head_Some_elem_of in E. by apply elem_sort_by in E. }
  apply elem_select in Hin as [Hl Hb]. apply bool_decide_eq_true in Hb. destruct k as [id' n]. simpl in *. subst id'. split; [done|].
  intros j y Hy. assert (Hj : ((id, j), y) ∈ select (fun k _ => bool_decide (fst k = id)) (feedback_link_reviews db)).
  { apply elem_select. split; [done|]. by apply bool_decide_eq_true. }
  eapply sort_by_head in E; [| | |exact Hj]; simpl in *; [lia|intros; lia|intros; lia].
Qed.

Lemma latest_review_none id db : latest_review id db = None -> forall k, feedback_link_reviews db !! (id, k) = None.
Proof.
  unfold latest_review. destruct (head _) as [[k x]|] eqn:E; [done|]. intros _ k. apply head_None in E.
  destruct (feedback_link_reviews db !! (id, k)) as [y|] eqn:Ey; [|done].
  assert (Hj : ((id, k), y) ∈ select (fun k _ => bool_decide (fst k = id)) (feedback_link_reviews db)).
  { apply elem_select. split; [done|]. by apply bool_decide_eq_true. }
  apply (elem_sort_by (fun x y => snd (fst y) <=? snd (fst x))) in Hj. rewrite E in Hj. by apply elem_of_nil in Hj.
Qed.

Lemma reviewed_insert id n action r db :
  review_allowed id n action db = true -> feedback_link_reviews db !! (id, n) = None -> lr_action r = action ->
  well_reviewed (feedback_link_reviews db) -> well_reviewed (<[(id, n) := r]> (feedback_link_reviews db)).
Proof.
  intros Ha Hn Hr Hw id' k x. unfold review_allowed in Ha. rewrite !andb_true_iff in Ha. destruct Ha as [[[H1 H2] H3] H4].
  apply one_of_true in H1. rewrite lookup_insert_Some. intros [[[= <- <-] <-]|[Hne Hx]].
  - apply elem_of_cons in H1 as [->|H1]; [by left|]. apply list_elem_of_singleton in H1 as ->. right. split; [done|]. simpl in *.
    apply bool_decide_eq_true in H2. split; [congruence|]. apply negb_true_iff, negb_false_iff, bool_decide_eq_true in H4.
    destruct (latest_review id db) as [[k x]|] eqn:El; [|done]. injection H4 as H4. apply latest_review_some in El as [Hk _].
    exists x. split; [|done]. rewrite lookup_insert_ne; [|congruence].
    destruct (Hw _ _ _ Hk) as [->|(-> & Hwd & _)]; congruence.
  - destruct (Hw _ _ _ Hx) as [->|(-> & Hwd & r1 & Hr1 & Hc)]; [by left|]. right. split; [done|]. split; [done|].
    exists r1. split; [|done]. rewrite lookup_insert_ne; [done|]. intros [= -> ->]. congruence.
Qed.

Section Operations.
  Context {parser : UuidParser} {addresses : MailParser} {mime : Mime}.

Lemma importRaw_advises full v raw : advises (importRaw full v raw).
Proof.
  unfold importRaw. apply respects_bind; [apply respects_fresh|]. intros id. apply respects_bind; [|advises].
  apply advises_stmt. intros t db b db' H. destruct (exists_row _ _); [injection H as <- <-; apply advisory_refl|].
  destruct (insert_row _ _ _) as [rows|] eqn:E; [|done]. injection H as <- <-. apply insert_row_some in E as [Hn ->].
  destruct (advisory_refl db). split; simpl; try done; try (by apply notified_same). by apply insert_subseteq.
Qed.
#[local] Hint Resolve importRaw_advises : advises.

Lemma Dismiss_advises id digest actor reason : advises (Dismiss id digest actor reason).
Proof.
  unfold Dismiss. advises. apply advises_stmt. intros t db b db' He.
  destruct (feedback_reviews db !! _) eqn:E in He; injection He as <- <-; [apply advisory_refl|].
  destruct (advisory_refl db). split; simpl; try done; try (by apply notified_same). by apply insert_subseteq.
Qed.

Lemma publicationEvent_advises id mid aid rid kind actor reason :
  kind ∈ feedback_kinds -> advises (publicationEvent id mid aid rid kind actor reason).
Proof.
  intros Hk. unfold publicationEvent. advises. by apply advises_record.
Qed.

#[local] Hint Extern 1 (respects advisory (publicationEvent _ _ _ _ _ _ _)) =>
  apply publicationEvent_advises; set_solver : advises.

Lemma Link_advises v actor : advises (Link v actor).
Proof.
  unfold Link. advises. apply advises_stmt. intros t db [] db' He. destruct (link_allowed _ _ && _); [|done].
  destruct (insert_row _ _ _) as [rows|] eqn:E; [|done]. injection He as <-. apply insert_row_some in E as [Hn ->].
  destruct (advisory_refl db). split; simpl; try done; try (by apply notified_same). by apply insert_subseteq.
Qed.

Lemma Review_advises id v actor : advises (Review id v actor).
Proof.
  unfold Review. advises.
  all: apply advises_stmt; intros t db [] db' He; destruct (review_allowed _ _ _ _) eqn:Ea; [|done];
    destruct (insert_row _ _ _) as [rows|] eqn:E; [|done]; injection He as <-; apply insert_row_some in E as [Hn ->];
    destruct (advisory_refl db); split; simpl; try done; try (by apply notified_same); [by apply insert_subseteq|by eapply reviewed_insert].
Qed.

Lemma Get_advises id : advises (Get id).
Proof. unfold Get. advises. Qed.
Lemma List_advises after lim : advises (List after lim).
Proof. unfold List. advises. Qed.
Lemma Inspect_advises v : advises (Inspect v).
Proof. unfold Inspect. advises. Qed.
Lemma Candidates_advises v : advises (Candidates v).
Proof. unfold Candidates. advises. Qed.
Lemma ExplainStored_advises id digest : advises (ExplainStored id digest).
Proof. unfold ExplainStored. advises. Qed.
Lemma import_tx_advises full v raw : advises (import_tx full v raw).
Proof. unfold import_tx. advises. Qed.

Lemma collectorAlert_advises source validity kind : advises (collectorAlert source validity kind).
Proof.
  unfold collectorAlert. advises; apply advises_stmt; intros t db b db' He.
  - destruct (bool_decide _); injection He as <- <-; [apply advisory_refl|].
    destruct (advisory_refl db). split; simpl; try done; try (by apply notified_same). set_solver.
  - destruct (feedback_imap_sources db !! source) as [s|] eqn:Es; [|injection He as <- <-; apply advisory_refl].
    destruct (Z.ltb_spec (is_records s) 10000); injection He as <- <-; [|apply advisory_refl].
    apply set_source_advisory. intros s'. rewrite Es. intros [= <-]. unfold within_quota, CollectorMaxRecords. simpl. split; [done|lia].
Qed.

Lemma initialize_advises o validity : advises (initialize o validity).
Proof.
  unfold initialize. advises. apply advises_stmt. intros t db b db' He.
  destruct (feedback_imap_sources db !! co_Source o) eqn:E; injection He as <- <-; [apply advisory_refl|].
  destruct (advisory_refl db). split; simpl; try done; try (by apply notified_same).
  - intros k s Hs. exists s. rewrite lookup_insert_ne by congruence. do 2 (split; [done|]). lia.
  - intros Hb k s. rewrite lookup_insert_Some. intros [[_ <-]|[_ Hs]]; [|by eapply Hb]. unfold within_quota. simpl. done.
Qed.

Lemma saveCollected_advises full o validity m raw outcome : advises (saveCollected full o validity m raw outcome).
Proof.
  unfold saveCollected. advises; apply advises_stmt; intros t db b db' He.
  - destruct (feedback_imap_sources db !! _) as [s|] eqn:Es; [|injection He as <- <-; apply advisory_refl].
    destruct (Z.ltb_spec (is_records s) 10000); [|injection He as <- <-; apply advisory_refl].
    destruct (Z.leb_spec (is_stored_bytes s + Z.of_nat (length raw)) CollectorMaxBytes); injection He as <- <-; [|apply advisory_refl].
    apply set_source_advisory. intros s'. rewrite Es. intros [= <-]. unfold within_quota, CollectorMaxRecords. simpl. split; [done|lia].
  - destruct (insert_row _ _ _) as [rows|] eqn:E; [|done]. injection He as <- <-. apply insert_row_some in E as [Hn ->].
    destruct (advisory_refl db). split; simpl; try done; try (by apply notified_same). by apply insert_subseteq.
Qed.

Lemma advance_advises o last : advises (advance o last).
Proof. unfold advance. advises. Qed.

(** ** The transactions of the feedback component *)

Inductive feedback_op : forall {A : Type}, M (TxEnd A) -> Prop :=
| op_import full v raw : feedback_op (import_tx full v raw)
| op_get id : feedback_op (Get id)
| op_list after lim : feedback_op (List after lim)
| op_dismiss id digest actor reason : feedback_op (Dismiss id digest actor reason)
| op_inspect v : feedback_op (Inspect v)
| op_candidates v : feedback_op (Candidates v)
| op_explain id digest : feedback_op (ExplainStored id digest)
| op_link v actor : feedback_op (Link v actor)
| op_review id v actor : feedback_op (Review id v actor)
| op_initialize o validity : feedback_op (initialize o validity)
| op_alert source validity kind : feedback_op (collectorAlert source validity kind)
| op_save full o validity m raw outcome : feedback_op (saveCollected full o validity m raw outcome)
| op_advance o last : feedback_op (advance o last).

#[local] Hint Resolve Get_advises List_advises Inspect_advises Candidates_advises ExplainStored_advises import_tx_advises
  Dismiss_advises Link_advises Review_advises collectorAlert_advises initialize_advises saveCollected_advises advance_advises : advises.

Lemma feedback_op_advises {A} (body : M (TxEnd A)) : feedback_op body -> advises body.
Proof. destruct 1; eauto with advises nocore. Qed.

Lemma feedback_advisory {A} w (body : M (TxEnd A)) db r db' :
  feedback_op body -> transact w body db = (r, db') -> advisory db db'.
Proof.
  intros Hop. apply respects_transact; [exact advisory_refl|by apply feedback_op_advises].
Qed.

(** One transaction, and any number of them *)
Inductive feedback_step : DB -> DB -> Prop :=
| feedback_transaction A (body : M (TxEnd A)) w db r db' :
    feedback_op body -> transact w body db = (r, db') -> feedback_step db db'.
Definition feedback_run : DB -> DB -> Prop := rtc feedback_step.

Lemma run_once {A} w (body : M (TxEnd A)) db r db' :
  feedback_op body -> transact w body db = (r, db') -> feedback_run db db'.
Proof. intros Hop Hrun. apply rtc_once. by eapply feedback_transaction. Qed.

Lemma run_advisory db db' : feedback_run db db' -> advisory db db'.
Proof.
  induction 1 as [|a b c [A body w x r y Hop Hrun] _ IH]; [apply advisory_refl|].
  eapply advisory_trans; [|exact IH]. by eapply feedback_advisory.
Qed.

Lemma advisory_elsewhere db db' : advisory db db' -> elsewhere db db'.
Proof.
  intros [Hd _ _ _ _ _ _ _ _ He Hk _ _]. unfold delivery_tables in Hd. split; try congruence.
  - intros mid m Hm. exists m. split; [congruence|done].
  - split; [done|]. intros eid e H1 H2. specialize (Hk eid e H1 H2). intros Hu. rewrite Hu in Hk. set_solver.
  - assert (E : api_submission_ledger db' = api_submission_ledger db) by congruence. by rewrite E.
Qed.

#[local] Hint Constructors feedback_op : core.
#[local] Ltac runs := match goal with H : transact _ _ ?db = (_, ?db') |- feedback_run ?db ?db' =>
  eapply run_once; [|exact H]; auto end.

Lemma Import_run w w' full v input ok db r db' :
  Import w w' full v input ok db = (r, db') -> feedback_run db db'.
Proof.
  unfold Import. destruct (_ || _); [intros [= _ <-]; apply rtc_refl|].
  destruct (Read input ok) as [|raw]; [intros [= _ <-]; apply rtc_refl|].
  destruct (transact w _ db) as [[e|[id dup]] db1] eqn:Et; [intros [= _ <-]; runs|].
  destruct (transact w' _ db1) as [[e|entry] db2]; intros [= _ <-]; runs.
Qed.

Lemma initializeSource_run w w' o validity db e last db' :
  initializeSource w w' o validity db = (e, last, db') -> feedback_run db db'.
Proof.
  unfold initializeSource. destruct (transact w _ db) as [[x|[n|n|x n]] db1] eqn:Et; try (intros [= _ _ <-]; runs).
  destruct (transact w' _ db1) as [[x|u] db2] eqn:Ea; intros [= _ _ <-]; (trans db1; runs).
Qed.

Lemma collect_all_run sn k box o validity l out db e out' db' :
  collect_all sn k box o validity l out db = (e, out', db') -> feedback_run db db'.
Proof.
  revert k out db. induction l as [|m l IH]; intros k out db; simpl; [intros [= _ _ <-]; apply rtc_refl|].
  destruct (fetch box m) as [x|[outcome raw]]; [intros [= _ _ <-]; apply rtc_refl|].
  destruct (transact _ _ db) as [[x|u] db1] eqn:Et; [intros [= _ _ <-]; runs|].
  intros H. apply IH in H. trans db1; [runs|exact H].
Qed.

Lemma collect_window_run sn box o validity next last db e out' db' :
  collect_window sn box o validity next last db = (e, out', db') -> feedback_run db db'.
Proof.
  unfold collect_window. set (stop := if next <=? last + co_Batch o then _ else _). clearbody stop.
  destruct (stop =? last); [intros [= _ _ <-]; apply rtc_refl|].
  destruct (mb_Metadata box _ _) as [ms|]; [|intros [= _ _ <-]; apply rtc_refl].
  destruct (co_Batch o <? _); [intros [= _ _ <-]; apply rtc_refl|].
  destruct (negb _); [intros [= _ _ <-]; apply rtc_refl|].
  destruct (collect_all _ _ _ _ _ _ _ _) as [[[x|] out] db1] eqn:Ec; [intros [= _ _ <-]; by eapply collect_all_run|].
  destruct (transact _ _ db1) as [[x|u] db2] eqn:Et; intros [= _ _ <-];
    (trans db1; [by eapply collect_all_run|runs]).
Qed.

Lemma Collect_run sn o db e out db' : Collect sn o db = (e, out, db') -> feedback_run db db'.
Proof.
  unfold Collect. destruct (_ || _); [intros [= _ _ <-]; apply rtc_refl|].
  destruct (sn_conn sn); [simpl negb; cbv iota|intros [= _ _ <-]; apply rtc_refl]. destruct (sn_lock sn) as [[|]|]; try (intros [= _ _ <-]; apply rtc_refl).
  destruct (sn_open sn) as [box|]; [|intros [= _ _ <-]; apply rtc_refl].
  destruct (mb_Select box) as [[validity next]|]; [|intros [= _ _ <-]; apply rtc_refl].
  destruct ((validity =? 0) || _); [intros [= _ _ <-]; apply rtc_refl|]. destruct (_ && _); [intros [= _ _ <-]; apply rtc_refl|].
  destruct (initializeSource _ _ _ _ _) as [[[x|] last] db1] eqn:Ei; [intros [= _ _ <-]; by eapply initializeSource_run|].
  destruct (next <=? last).
  - destruct (transact _ _ db1) as [[x|u] db2] eqn:Ea; intros [= _ _ <-];
      (trans db1; [by eapply initializeSource_run|runs]).
  - intros H. apply collect_window_run in H. etrans; [by eapply initializeSource_run|done].
Qed.

(** C13. Feedback is advisory.  Any sequence of feedback transactions, whole
    imports and collections included, leaves messages, recipients, attempts,
    suppressions, providers, webhook endpoints and their log, keys and archives
    untouched; evidence, reviews, links, receipts, alerts and the audit are
    append-only, the only events it adds are the three feedback kinds, the
    outbox only gains fresh notices, each of an event it added, the reviews stay
    well-formed and the collector within its quota.  So for the delivery system it is a step
    of another program, and all invariants of deliveries survive it. *)
Theorem feedback_is_advisory :
  (forall db db' ws, feedback_run db db' -> advisory db db' /\ step (MkState db ws) (MkState db' ws)) /\
  (forall w w' full v input ok db r db', Import w w' full v input ok db = (r, db') -> feedback_run db db') /\
  (forall sn o db e out db', Collect sn o db = (e, out, db') -> feedback_run db db').
Proof.
  split; [|split].
  - intros db db' ws Hrun. apply run_advisory in Hrun. split; [done|]. by apply step_elsewhere, advisory_elsewhere.
  - intros w w' full v input ok db r db'. apply Import_run.
  - intros sn o db e out db'. apply Collect_run.
Qed.

End Operations.

(** ** A report, from its import to its withdrawal *)

Definition desk_parser : UuidParser := ArchiveSpec.ArchiveSpec.canonical_parser.
Definition desk_mime : Mime := dsn_mime "5.1.1".

Definition desk_db : DB :=
  demo_db <| messages := {[100%N := demo_message <| m_source_type := "api"%string |>]} |>
    <| recipients := {[1%N := (demo_recipient "a@example.org") <| r_status := SMTP_ACCEPTED |>]} |>
    <| delivery_attempts := {[50%N := MkAttempt 100 7 1 SMTP_ACCEPTED 60 "smtp.example" demo_day (Some (demo_day + Second)) None
         (Some (empty_result <| o_Code := 250 |> <| o_FinalResponseAt := demo_day + Second |>)) None None None None None None None]} |>
    <| attempt_recipients := {[(50%N, 1%N) := MkAttemptRecipient SMTP_ACCEPTED (Some 250) None None None None]} |>.

Definition desk_world (n : N) : World := demo_world (demo_day + Hour + Z.of_N n * Minute) (10000 * n).
Definition desk_import := Import (mime := desk_mime) (parser := desk_parser) (desk_world 1) (desk_world 2) false
  (MkImportRequest "postmaster" "bounce-1" "op" "bounce") [x2e] true desk_db.
Definition desk_inspect : InspectRequest :=
  MkInspectRequest (uuid_text 10000) (EncodeToString (Sha.Sum256 [x2e])) (uuid_text 100) (uuid_text 7) (uuid_text 50) (uuid_text 1) 0.
Definition desk_link := transact (desk_world 3)
  (Link (parser := desk_parser) (addresses := dsn_addresses) (MkLinkRequest desk_inspect "bounce" true false) "op") (snd desk_import).
Definition desk_confirm := transact (desk_world 4)
  (Review (parser := desk_parser) (uuid_text 30004) (MkReviewRequest 0 "CONFIRM_FAILURE" "seen" true) "op") (snd desk_link).
Definition desk_withdraw := transact (desk_world 5)
  (Review (parser := desk_parser) (uuid_text 30004) (MkReviewRequest 1 "WITHDRAW" "mistake" true) "op") (snd desk_confirm).

Definition desk_state (db : DB) : option (PubState * Z) := option_map (fun p => (pb_State p, pb_Revision p)) (projection 30004 db).

Example desk_example :
  match fst desk_import with inr r => en_State (ir_Entry r) = "QUARANTINED"%string | inl _ => False end /\
  desk_state (snd desk_link) = Some (PENDING_REVIEW, 0) /\
  desk_state (snd desk_confirm) = Some (FAILURE_CONFIRMED_BY_OPERATOR, 1) /\
  desk_state (snd desk_withdraw) = Some (WITHDRAWN, 2).
Proof. vm_compute. done. Qed.

Lemma feedback_is_advisory_witness : advisory desk_db (snd desk_import).
Proof.
  destruct (feedback_is_advisory (parser := desk_parser) (addresses := dsn_addresses) (mime := desk_mime)) as (H & Himp & _).
  apply (H desk_db (snd desk_import) ∅).
  apply (Himp (desk_world 1) (desk_world 2) false (MkImportRequest "postmaster" "bounce-1" "op" "bounce") [x2e] true desk_db (fst desk_import)).
  unfold desk_import. apply surjective_pairing.
Defined.

End FeedbackSpec.
