(* ===== verification/PublicationSpec.v ===== *)
(** * What publishing a report promises

    The assessment of a report, what an operator's association and
    confirmation rest on, and the life of a publication. *)

From S2P Require Import Prelude Sha256 GoText TextFacts Delivery SmtpClient Provider Database Suppression Message Queue Worker Demo System Runs Auth Storage Paging Retention FeedbackParse Feedback Publication Collect FeedbackSpec.

Module PublicationSpec.

Import FeedbackParse Feedback Publication FeedbackSpec.

(** ** The reasons of an assessment *)

Section Assessment.
  Context {parser : UuidParser} {addresses : MailParser} {mime : Mime}.

Lemma one_of_app {A} `{EqDecision A} (x : A) l1 l2 : one_of x (l1 ++ l2) = one_of x l1 || one_of x l2.
Proof. unfold one_of. apply existsb_app. Qed.
Lemma one_of_add (x : string) b r : one_of x (add b r) = b && String.eqb x r.
Proof.
  unfold one_of, add. destruct b; simpl; [|done]. rewrite orb_false_r.
  destruct (String.eqb_spec x r); [by rewrite bool_decide_eq_true_2|by rewrite bool_decide_eq_false_2].
Qed.
Lemma one_of_single (x r : string) : one_of x [r] = String.eqb x r.
Proof. apply (one_of_add x true r). Qed.

Definition mailbox_of (e : AssociationEvidence) : option string := reportMailbox (rp_FinalRecipient (ae_Selected e)).
Definition rewritten (e : AssociationEvidence) : bool :=
  let original := rp_OriginalRecipient (ae_Selected e) in
  negb (String.eqb original "")
  && match reportMailbox original with Some a => negb (sameMailbox a (default EmptyString (mailbox_of e))) | None => true end.

(** The reasons that rule a candidate out *)
Definition disqualifying : list string :=
  ["EVIDENCE_DIGEST_MISMATCH"; "UNSUPPORTED_REPORT"; "RELATION_MISMATCH"; "UNSUPPORTED_RECIPIENT_ADDRESS";
   "RECIPIENT_ADDRESS_MISMATCH"; "RECIPIENT_REWRITTEN"; "AMBIGUOUS_RECIPIENT_BLOCKS"; "REPORT_PREDATES_ATTEMPT"]%string.

(** Which condition a reason stands for *)
Definition given (reason : string) (e : AssociationEvidence) : bool := one_of reason (as_Reasons (Assess e)).

(** The last reason: what the classification does not prove *)
Definition caveat (c : string) : string :=
  if String.eqb c "ADDRESS_INVALID_REPORTED" then "ADDRESS_FAILURE_REQUIRES_VERIFIED_SOURCE"
  else if String.eqb c "TEMPORARY_FAILURE_REPORTED" then "TEMPORARY_FAILURE_NOT_ADDRESS_SUPPRESSION"
  else if String.eqb c "PERMANENT_FAILURE_REPORTED" then "PERMANENT_FAILURE_NOT_PROOF_OF_INVALID_ADDRESS"
  else if one_of c ["DELIVERY_REPORTED"; "RELAY_REPORTED"; "EXPANSION_REPORTED"]%string
  then "REPORT_DOES_NOT_PROVE_INBOX_DELIVERY" else "UNCLASSIFIED_REPORT".
Definition caveats : list string :=
  ["ADDRESS_FAILURE_REQUIRES_VERIFIED_SOURCE"; "TEMPORARY_FAILURE_NOT_ADDRESS_SUPPRESSION";
   "PERMANENT_FAILURE_NOT_PROOF_OF_INVALID_ADDRESS"; "REPORT_DOES_NOT_PROVE_INBOX_DELIVERY"; "UNCLASSIFIED_REPORT"]%string.

Lemma caveat_other reason c : one_of reason caveats = false -> String.eqb reason (caveat c) = false.
Proof.
  intros H. destruct (String.eqb_spec reason (caveat c)) as [->|]; [|done].
  assert (caveat c ∈ caveats) as Hin by (unfold caveat, caveats; repeat case_match; set_solver).
  apply one_of_true in Hin. congruence.
Qed.

Lemma given_or reason e : one_of reason caveats = false -> given reason e =
  String.eqb reason "SOURCE_UNVERIFIED"
  || (negb (ae_ExpectedDigestMatches e) && String.eqb reason "EVIDENCE_DIGEST_MISMATCH"
  || (String.eqb (ae_RecordState e) "CONFLICT" && String.eqb reason "SOURCE_EVENT_CONFLICT"
  || (String.eqb (ae_RecordState e) "DISMISSED" && String.eqb reason "FEEDBACK_DISMISSED"
  || (negb (ae_Parsed e) && String.eqb reason "UNSUPPORTED_REPORT"
  || (negb (ae_RelationMatches e) && String.eqb reason "RELATION_MISMATCH"
  || ((is_null (mailbox_of e) && String.eqb reason "UNSUPPORTED_RECIPIENT_ADDRESS"
       || match mailbox_of e with Some a => negb (sameMailbox a (ae_Address e)) | None => false end && String.eqb reason "RECIPIENT_ADDRESS_MISMATCH")
  || (rewritten e && String.eqb reason "RECIPIENT_REWRITTEN"
  || (negb (ae_SameAddressRows e =? 1) && String.eqb reason "AMBIGUOUS_RECIPIENT_BLOCKS"
  || (ae_PredatesAttempt e && String.eqb reason "REPORT_PREDATES_ATTEMPT"
  || (ae_RelationMatches e && negb (ae_LatestAttempt e) && String.eqb reason "NEWER_RECIPIENT_ATTEMPT"
  || ((is_status (ae_CurrentStatus e) DELIVERY_UNKNOWN || is_status (ae_AttemptStatus e) DELIVERY_UNKNOWN) && String.eqb reason "DELIVERY_UNKNOWN_PRESERVED"
  || (ae_RelationMatches e && (negb (is_status (ae_CurrentStatus e) SMTP_ACCEPTED)
        || negb (is_status (ae_AttemptStatus e) SMTP_ACCEPTED) || negb (ae_FinalAccepted e)) && String.eqb reason "NO_STABLE_SMTP_ACCEPTANCE")))))))))))).
Proof.
  intros H. apply (caveat_other _ (classify (ae_Selected e))) in H. unfold given, Assess. fold (mailbox_of e). fold (rewritten e).
  fold (caveat (classify (ae_Selected e))). cbn [as_Reasons List.concat].
  rewrite app_nil_r, !one_of_app, !one_of_single, H, orb_false_r, !one_of_add.
  destruct (mailbox_of e); cbn [not_null negb default id is_null]; rewrite ?one_of_single, ?one_of_add, ?andb_true_l, ?andb_false_l, ?orb_false_r, ?orb_false_l;
    reflexivity.
Qed.

Ltac reason := rewrite given_or by reflexivity; cbn [String.eqb Ascii.eqb Bool.eqb];
  rewrite ?andb_false_r, ?andb_true_r, ?orb_false_r, ?orb_false_l; done.

Lemma reason_unverified e : given "SOURCE_UNVERIFIED" e = true.
Proof. reason. Qed.
Lemma reason_digest e : given "EVIDENCE_DIGEST_MISMATCH" e = negb (ae_ExpectedDigestMatches e).
Proof. reason. Qed.
Lemma reason_unsupported e : given "UNSUPPORTED_REPORT" e = negb (ae_Parsed e).
Proof. reason. Qed.
Lemma reason_relation e : given "RELATION_MISMATCH" e = negb (ae_RelationMatches e).
Proof. reason. Qed.
Lemma reason_address e : given "UNSUPPORTED_RECIPIENT_ADDRESS" e = is_null (mailbox_of e).
Proof. reason. Qed.
Lemma reason_mismatch e : given "RECIPIENT_ADDRESS_MISMATCH" e =
  match mailbox_of e with Some a => negb (sameMailbox a (ae_Address e)) | None => false end.
Proof. reason. Qed.
Lemma reason_rewritten e : given "RECIPIENT_REWRITTEN" e = rewritten e.
Proof. reason. Qed.
Lemma reason_ambiguous e : given "AMBIGUOUS_RECIPIENT_BLOCKS" e = negb (ae_SameAddressRows e =? 1).
Proof. reason. Qed.
Lemma reason_predates e : given "REPORT_PREDATES_ATTEMPT" e = ae_PredatesAttempt e.
Proof. reason. Qed.
Lemma reason_newer e : given "NEWER_RECIPIENT_ATTEMPT" e = ae_RelationMatches e && negb (ae_LatestAttempt e).
Proof. reason. Qed.
Lemma reason_unstable e : given "NO_STABLE_SMTP_ACCEPTANCE" e =
  ae_RelationMatches e && (negb (is_status (ae_CurrentStatus e) SMTP_ACCEPTED)
    || negb (is_status (ae_AttemptStatus e) SMTP_ACCEPTED) || negb (ae_FinalAccepted e)).
Proof. reason. Qed.

Lemma matches_iff e : as_CandidateMatches (Assess e) = true <->
  ae_ExpectedDigestMatches e = true /\ ae_Parsed e = true /\ ae_RelationMatches e = true /\
  (exists a, mailbox_of e = Some a /\ sameMailbox a (ae_Address e) = true) /\ ae_SameAddressRows e = 1 /\
  rewritten e = false /\ ae_PredatesAttempt e = false.
Proof.
  unfold Assess. fold (mailbox_of e). cbn [as_CandidateMatches]. fold (rewritten e).
  rewrite !andb_true_iff, !negb_true_iff, Z.eqb_eq. split.
  - intros [[[[[[[H1 H2] H3] H4] H5] H6] H7] H8]. destruct (mailbox_of e) as [a|]; [|done]. eauto 10.
  - intros (H1 & H2 & H3 & (a & Ea & H4) & H5 & H6 & H7). rewrite Ea. simpl. auto 10.
Qed.

Lemma matches_reasons e : as_CandidateMatches (Assess e) = true <->
  forall reason, reason ∈ disqualifying -> reason ∉ as_Reasons (Assess e).
Proof.
  transitivity (Forall (fun reason => given reason e = false) disqualifying).
  - rewrite matches_iff. unfold disqualifying. rewrite !Forall_cons, reason_digest, reason_unsupported, reason_relation, reason_address,
      reason_mismatch, reason_rewritten, reason_ambiguous, reason_predates, !negb_false_iff, Z.eqb_eq.
    split.
    + intros (H1 & H2 & H3 & (a & -> & H4) & H5 & H6 & H7). by rewrite H4, Forall_nil.
    + intros (H1 & H2 & H3 & H4 & H5 & H6 & H7 & H8 & _). destruct (mailbox_of e) as [a|]; [|done].
      apply negb_false_iff in H5. eauto 10.
  - rewrite Forall_forall. unfold given. split; intros H reason Hr.
    + intros Hin. apply one_of_true in Hin. by rewrite H in Hin.
    + destruct (one_of reason _) eqn:E; [|done]. apply one_of_true in E. by destruct (H reason Hr).
Qed.

(** ** An inspection *)

Definition evidence_of (ids : Ids) (expected : string) (index : Z) (f : FeedbackReport) (db : DB) : AssociationEvidence :=
  let rel := relation ids db in
  let selected := match fr_parsed f with Some report => rp_Recipients report !! Z.to_nat index | None => None end in
  MkAssociationEvidence (record_state (i_feedback ids) f db) (not_null (fr_parsed f)) (not_null rel) (String.eqb (fr_sha256 f) expected)
    (match rel with Some (_, _, r) => r_address r | None => EmptyString end)
    (option_map (fun x => r_status (snd x)) rel) (option_map (fun x => ar_status (snd (fst x))) rel)
    (match rel with Some (a, _, _) => finally_accepted a | None => false end)
    (match rel with Some (a, _, _) => negb (newer_attempt (i_recipient ids) (a_attempt_number a) db) | None => false end)
    (match rel with Some (a, _, _) => fr_created_at f <? a_started_at a | None => false end)
    (default no_recipient selected)
    (match fr_parsed f, selected with Some report, Some s => same_address_rows report s | _, _ => 0 end).

Lemma inspection now ids expected index db x : inspectSnapshot now ids expected index db = inr x ->
  exists f, feedback_reports db !! i_feedback ids = Some f /\ in_Assessment x = Assess (evidence_of ids expected index f db) /\
    in_FeedbackState x = record_state (i_feedback ids) f db /\
    in_CurrentStatus x = option_map (fun y => r_status (snd y)) (relation ids db) /\
    in_AttemptStatus x = option_map (fun y => ar_status (snd (fst y))) (relation ids db) /\
    (fr_parsed f = None \/ exists report selected, fr_parsed f = Some report /\ rp_Recipients report !! Z.to_nat index = Some selected).
Proof.
  unfold inspectSnapshot, evidence_of. destruct (feedback_reports db !! i_feedback ids) as [f|]; [|done]. intros H. exists f.
  destruct (fr_parsed f) as [report|] eqn:Ep; [destruct (rp_Recipients report !! Z.to_nat index) as [selected|] eqn:Es; [|done]|];
    injection H as <-; cbn [in_Assessment in_FeedbackState in_CurrentStatus in_AttemptStatus]; eauto 10.
Qed.

(** Inspection is exact.  A report counts as a match of a recipient exactly
    when its stored digest is the reviewed one, it parsed, the recipient is one
    of the attempt's of that message and provider, the report's final recipient
    is a plain address of the same mailbox, named by that block alone and not
    rewritten, and the report is not older than the attempt; equivalently, when
    none of the eight disqualifying reasons is given.  Whatever it finds, the
    action is quarantine, the source stays unverified and no address is
    suppressed. *)
Theorem inspection_exact now ids expected index db x : inspectSnapshot now ids expected index db = inr x ->
  let a := in_Assessment x in
  (as_CandidateMatches a = true <->
     exists f report selected address attempt row r,
       feedback_reports db !! i_feedback ids = Some f /\ fr_sha256 f = expected /\ fr_parsed f = Some report /\
       rp_Recipients report !! Z.to_nat index = Some selected /\ relation ids db = Some (attempt, row, r) /\
       reportMailbox (rp_FinalRecipient selected) = Some address /\ sameMailbox address (r_address r) = true /\
       same_address_rows report selected = 1 /\
       (rp_OriginalRecipient selected = EmptyString \/
        exists original, reportMailbox (rp_OriginalRecipient selected) = Some original /\ sameMailbox original address = true) /\
       a_started_at attempt <= fr_created_at f) /\
  (as_CandidateMatches a = true <-> forall reason, reason ∈ disqualifying -> reason ∉ as_Reasons a) /\
  "SOURCE_UNVERIFIED"%string ∈ as_Reasons a /\ as_Action a = "QUARANTINE"%string /\ as_AutomaticSuppression a = false.
Proof.
  intros Hx. apply inspection in Hx as (f & Hf & Ea & _ & _ & _ & Hsel). cbv zeta. rewrite Ea.
  split; [|split; [apply matches_reasons|split; [apply one_of_true, (reason_unverified (evidence_of ids expected index f db))|done]]].
  rewrite matches_iff. unfold mailbox_of, rewritten, mailbox_of, evidence_of.
  cbn [ae_ExpectedDigestMatches ae_Parsed ae_RelationMatches ae_Selected ae_Address ae_SameAddressRows ae_PredatesAttempt].
  rewrite String.eqb_eq. split.
  - intros (H1 & H2 & H3 & (address & H4 & H5) & H6 & H7 & H8). destruct Hsel as [Hn|(report & selected & Hp & Hs)]; [by rewrite Hn in H2|].
    rewrite Hp in *. rewrite Hs in *. simpl in *. destruct (relation ids db) as [[[attempt row] r]|]; [|done].
    exists f, report, selected, address, attempt, row, r. do 8 (split; [done|]). split; [|lia].
    rewrite H4 in H7. simpl in H7. destruct (String.eqb_spec (rp_OriginalRecipient selected) ""); [by left|].
    right. simpl in H7. destruct (reportMailbox (rp_OriginalRecipient selected)) as [o|]; [|done]. exists o.
    by apply negb_false_iff in H7.
  - intros (f' & report & selected & address & attempt & row & r & Hf' & H1 & H2 & H3 & H4 & H5 & H6 & H7 & H8 & H9).
    rewrite Hf in Hf'. injection Hf' as <-. rewrite H2, H3, H4. simpl. rewrite H5, H7. do 3 (split; [done|]).
    split; [eauto|]. split; [done|]. split; [|lia].
    destruct H8 as [->|(o & -> & Ho)]; [done|]. simpl. rewrite Ho. apply andb_false_r.
Qed.

(** ** What an association rests on *)

(** The report [f] may be published for the recipient [r] of the attempt [a]
    of the message [m]. *)
Record associated (db : DB) (ids : Ids) (expected : string) (index : Z) (manual : bool) (f : FeedbackReport) (m : Message)
    (a : Attempt) (ar : AttemptRecipient) (r : RecipientRow) : Prop := {
  ev_report : feedback_reports db !! i_feedback ids = Some f;
  ev_digest : EncodeToString (Sha.Sum256 (fr_raw f)) = expected;
  ev_open : in_conflict f db = false /\ feedback_reviews db !! i_feedback ids = None;
  ev_relation : relation ids db = Some (a, ar, r);
  ev_accepted : r_status r = SMTP_ACCEPTED /\ ar_status ar = SMTP_ACCEPTED /\ finally_accepted a = true;
  ev_latest : newer_attempt (i_recipient ids) (a_attempt_number a) db = false;
  ev_time : a_started_at a <= fr_created_at f;
  ev_message : messages db !! i_message ids = Some m /\ m_source_type m = "api"%string /\ m_environment m = "production"%string /\
    m_archive_state m = "AVAILABLE"%string;
  ev_names : match fr_parsed f with
    | Some report => manual = false /\ exists selected address, rp_Recipients report !! Z.to_nat index = Some selected /\
        reportMailbox (rp_FinalRecipient selected) = Some address /\ sameMailbox address (r_address r) = true /\
        same_address_rows report selected = 1
    | None => manual = true /\ index = 0
    end }.

Lemma quarantined id f db : String.eqb (record_state id f db) "QUARANTINED" = true ->
  in_conflict f db = false /\ feedback_reviews db !! id = None.
Proof. unfold record_state. destruct (in_conflict f db); [done|]. by destruct (feedback_reviews db !! id). Qed.

Lemma linkable_associated now ids expected index manual db x f m l :
  inspectSnapshot now ids expected index db = inr x -> linkable x manual index = true ->
  feedback_reports db !! i_feedback ids = Some f -> EncodeToString (Sha.Sum256 (fr_raw f)) = expected ->
  link_allowed l db = true -> fl_message_id l = i_message ids -> messages db !! i_message ids = Some m ->
  exists a ar r, associated db ids expected index manual f m a ar r.
Proof.
  intros Hx Hl Hf Hd Hallow Hmid Hm. apply inspection in Hx as (f' & Hf' & Ea & Es & Ec & Et & Hsel).
  rewrite Hf in Hf'. injection Hf' as <-. unfold linkable, has_reason in Hl. rewrite Ea, Es, Ec, Et in Hl.
  fold (given "NO_STABLE_SMTP_ACCEPTANCE" (evidence_of ids expected index f db)) (given "NEWER_RECIPIENT_ATTEMPT" (evidence_of ids expected index f db))
    (given "REPORT_PREDATES_ATTEMPT" (evidence_of ids expected index f db)) (given "UNSUPPORTED_REPORT" (evidence_of ids expected index f db))
    (given "RELATION_MISMATCH" (evidence_of ids expected index f db)) in Hl.
  rewrite reason_unstable, reason_newer, reason_predates, reason_unsupported, reason_relation in Hl.
  rewrite !andb_true_iff in Hl. destruct Hl as [[[[[[Hq Hcur] Hatt] Hst] Hnew] Hpre] Hsup].
  assert (Hm' := Hallow). unfold link_allowed in Hm'. rewrite Hmid, Hm in Hm'. apply andb_true_iff in Hm' as [_ Hm'].
  assert (Hmsg : m_source_type m = "api"%string /\ m_environment m = "production"%string /\ m_archive_state m = "AVAILABLE"%string).
  { destruct (delivery_attempts db !! fl_attempt_id l); [|done]. destruct (attempt_recipients db !! _); [|done].
    destruct (recipients db !! _); [|done].
    rewrite !andb_true_iff, !String.eqb_eq in Hm'. tauto. }
  assert (Hnames : match fr_parsed f with
    | Some report => manual = false /\ as_CandidateMatches (Assess (evidence_of ids expected index f db)) = true
    | None => manual = true /\ index = 0
    end).
  { change (ae_Parsed (evidence_of ids expected index f db)) with (not_null (fr_parsed f)) in Hsup.
    destruct (fr_parsed f); cbn [not_null negb] in Hsup; rewrite !andb_true_iff in Hsup.
    - destruct Hsup as [H1 H2]. by apply negb_true_iff in H1.
    - destruct Hsup as [[H1 H2] _]. split; [done|lia]. }
  clear Hsup. unfold is_status in Hcur, Hatt. apply bool_decide_eq_true in Hcur, Hatt. unfold evidence_of in Hst, Hnew, Hpre.
  cbn [ae_RelationMatches ae_CurrentStatus ae_AttemptStatus ae_FinalAccepted ae_LatestAttempt ae_PredatesAttempt] in *.
  destruct (relation ids db) as [[[a ar] r]|] eqn:Er; [|done]. exists a, ar, r. simpl in Hcur, Hatt, Hst, Hnew, Hpre.
  injection Hcur as Hcur. injection Hatt as Hatt. rewrite Hcur, Hatt in Hst. simpl in Hst.
  split; try done.
  - by apply quarantined.
  - split; [done|]. split; [done|]. by destruct (finally_accepted a).
  - by destruct (newer_attempt _ _ _).
  - lia.
  - destruct Hsel as [Hn|(report & selected & Hp & Hs)]; [by rewrite Hn in *|].
    rewrite Hp in *. destruct Hnames as [H1 H2]. split; [done|].
    apply matches_iff in H2 as (_ & _ & _ & (address & H3 & H4) & H5 & _). unfold mailbox_of, evidence_of in *.
    cbn [ae_Selected ae_Address ae_SameAddressRows] in *. rewrite Hp, Hs, Er in *. simpl in *. eauto 10.
Qed.

(** The event and the audit entry of a publication *)
Lemma run_audit action actor data w k db u k' db' : Feedback.audit action actor data w (k, db) = inr (u, (k', db')) ->
  exists id, maintenance_audit db !! id = None /\
    db' = db <| maintenance_audit := <[id := MkAudit action actor data]> (maintenance_audit db) |>.
Proof.
  intros H. apply run_bind in H as (id & k1 & db1 & H1 & H2). apply run_fresh in H1 as ->. apply run_stmt in H2 as [t H2].
  destruct (insert_row _ _ _) as [rows|] eqn:E; [|done]. apply insert_row_some in E as [Hn ->]. injection H2 as _ <-. eauto.
Qed.

Definition publication_event (kind : string) (id mid rid aid : UUID) (at_ : Time) : EventRow :=
  MkEventRow mid (Some rid) (Some aid) kind at_ "operator"
    (JObj [("feedback_link_id", JId id); ("source_trust", JStr "UNVERIFIED")]%string) None.

Definition noted (kind actor : string) (id : UUID) (mid rid aid : UUID) (db db' : DB) : Prop :=
  exists eid uid at_ data d, records eid (publication_event kind id mid rid aid at_) db d /\ maintenance_audit db !! uid = None /\
    db' = d <| maintenance_audit := <[uid := MkAudit kind actor data]> (maintenance_audit db) |>.

Lemma run_event id mid aid rid kind actor reason w k db u k' db' :
  publicationEvent id mid aid rid kind actor reason w (k, db) = inr (u, (k', db')) -> noted kind actor id mid rid aid db db'.
Proof.
  intros H. apply run_bind in H as (eid & k1 & db1 & H1 & H2). apply run_fresh in H1 as ->.
  apply run_bind in H2 as (u1 & k2 & db2 & H2 & H3). apply run_stmt in H2 as [t H2].
  destruct (insert_event _ _ _ _) as [d|] eqn:E; [|done]. injection H2 as _ <-. apply insert_event_some in E.
  apply run_audit in H3 as (uid & Hu & ->). exists eid, uid, (at_now t). eexists _, d. split; [exact E|].
  destruct E as (_ & outbox & _ & ->). done.
Qed.

Lemma noted_projection kind actor id mid rid aid db db' j :
  noted kind actor id mid rid aid db db' -> projection j db' = projection j db.
Proof. intros (eid & uid & at_ & data & d & (_ & outbox & _ & ->) & _ & ->). reflexivity. Qed.

(** What [Link] did when it returns [out] *)
Definition linked (v : LinkRequest) (actor : string) (db : DB) (out : Publication) (db' : DB) : Prop :=
  exists ids f m a ar r at_,
    canonical_ids (lq_Inspect v) = Some ids /\ lq_AcknowledgeUnverified v = true /\
    associated db ids (iq_ExpectedSHA256 (lq_Inspect v)) (iq_ReportIndex (lq_Inspect v)) (lq_ManualAssociation v) f m a ar r /\
    (forall k l, feedback_links db !! k = Some l ->
       ~ (fl_feedback_id l = i_feedback ids /\ fl_report_index l = iq_ReportIndex (lq_Inspect v))) /\
    feedback_links db !! pb_ID out = None /\
    noted "FEEDBACK_LINKED" actor (pb_ID out) (i_message ids) (i_recipient ids) (i_attempt ids)
      (db <| feedback_links := <[pb_ID out := MkFeedbackLink (i_feedback ids) (iq_ReportIndex (lq_Inspect v)) (i_message ids)
               (i_attempt ids) (i_recipient ids) actor (lq_Reason v) at_]> (feedback_links db) |>) db' /\
    pb_RecipientID out = i_recipient ids /\ pb_AttemptID out = i_attempt ids /\ pb_SourceTrust out = "UNVERIFIED"%string /\
    (latest_review (pb_ID out) db = None -> pb_State out = PENDING_REVIEW /\ pb_Revision out = 0).

Lemma new_projection db id l at_ f : feedback_reports db !! fl_feedback_id l = Some f ->
  in_conflict f db = false -> feedback_reviews db !! fl_feedback_id l = None ->
  projection id (db <| feedback_links := <[id := l]> (feedback_links db) |>) = Some at_ ->
  pb_ID at_ = id /\ pb_RecipientID at_ = fl_recipient_id l /\ pb_AttemptID at_ = fl_attempt_id l /\
  pb_SourceTrust at_ = "UNVERIFIED"%string /\ (latest_review id db = None -> pb_State at_ = PENDING_REVIEW /\ pb_Revision at_ = 0).
Proof.
  intros Hf Hc Hr. unfold projection. simpl. rewrite lookup_insert_eq, Hf. intros [= <-]. simpl. do 4 (split; [done|]).
  unfold latest_review, publication_state, in_conflict in *. simpl. intros ->. by rewrite Hc, Hr.
Qed.

Lemma Link_run v actor w db k0 e k db' : Link v actor w (k0, db) = inr (e, (k, db')) ->
  exists out, e = Commit (inr out) /\ linked v actor db out db'.
Proof.
  unfold Link. intros H.
  destruct (_ || _) eqn:Eg in H; [done|]. rewrite !orb_false_iff, !negb_false_iff in Eg. destruct Eg as [[[Hack _] _] _].
  destruct (canonical_ids (lq_Inspect v)) as [ids|] eqn:Eids; [|done]. destruct (negb _) in H; [done|].
  apply run_bind in H as (u1 & k1 & db1 & H1 & H). apply run_query in H1 as [-> _].
  apply run_bind in H as (raw & k2 & db2 & H1 & H). apply run_row in H1 as [-> [t1 Hraw]].
  destruct (feedback_reports db !! i_feedback ids) as [f|] eqn:Ef; [|done]. injection Hraw as <-.
  apply run_bind in H as (u2 & k3 & db3 & H1 & H). apply run_guard in H1 as [Hdig ->]. apply String.eqb_eq in Hdig.
  apply run_bind in H as (insp & k4 & db4 & H1 & H). apply run_query in H1 as [-> [t2 Hinsp]].
  destruct insp as [x|x]; [done|]. symmetry in Hinsp.
  apply run_bind in H as (u3 & k5 & db5 & H1 & H). apply run_guard in H1 as [Hlink ->].
  apply run_bind in H as (ex & k6 & db6 & H1 & H). apply run_query in H1 as [-> [t3 Hex]].
  apply run_bind in H as (u4 & k7 & db7 & H1 & H). apply run_refuse in H1 as [-> ->].
  apply run_bind in H as (id & k8 & db8 & H1 & H). apply run_fresh in H1 as ->.
  apply run_bind in H as (u5 & k9 & db9 & H1 & H). apply run_stmt in H1 as [t4 H1]. set (l := MkFeedbackLink _ _ _ _ _ _ _ _) in H1.
  destruct (link_allowed l db) eqn:Eal; [|done]. destruct (negb _) in H1; [|done]. cbn [andb] in H1.
  destruct (insert_row _ _ _) as [rows|] eqn:E; [|done]. apply insert_row_some in E as [Hn ->]. injection H1 as _ <-.
  apply run_bind in H as (u6 & k10 & db10 & H1 & H). apply run_event in H1.
  apply run_bind in H as (out & k11 & db11 & H2 & H). apply run_row in H2 as [-> [t5 Hout]].
  apply run_ret in H as [-> ->]. exists out. split; [done|]. rewrite (noted_projection _ _ _ _ _ _ _ _ id H1) in Hout.
  assert (exists m, messages db !! i_message ids = Some m) as [m Hm].
  { assert (Ha := Eal). unfold link_allowed in Ha. apply andb_true_iff in Ha as [_ Ha]. cbn [fl_message_id l] in Ha.
    destruct (messages db !! i_message ids) as [m|]; [eauto|done]. }
  destruct (linkable_associated _ _ _ _ _ _ _ _ m l Hinsp Hlink Ef Hdig Eal eq_refl Hm) as (a & ar & r & Hassoc).
  destruct (ev_open _ _ _ _ _ _ _ _ _ _ Hassoc) as [Hc Hr].
  destruct (new_projection db id l out f Ef Hc Hr Hout) as (<- & E1 & E2 & E3 & E4).
  exists ids, f, m, a, ar, r, (at_clock t4). do 3 (split; [done|]). split; [|auto 10].
  intros j x0 Hj [Hj1 Hj2]. symmetry in Hex. eapply exists_row_false in Hex; [|exact Hj]. simpl in Hex.
  rewrite Hj1, Hj2, Z.eqb_refl, andb_true_r in Hex. by apply bool_decide_eq_false in Hex.
Qed.

(** C15. An association rests on evidence.  When [Link] returns a publication,
    the operator acknowledged that the source is unverified, the stored bytes
    have the digest the request names, the evidence is neither in conflict nor
    dismissed, the recipient is one of the attempt's, its current and its
    attempt's status are [SMTP_ACCEPTED] with a final 2xx reply, no later
    attempt exists and the report is not older than the attempt; the report
    names that mailbox in exactly one block (or did not parse, and the
    association is explicitly manual); no link existed for that block; and the
    transaction added exactly this link, one event, its notice when the website
    has an enabled endpoint, and one audit entry. *)
Theorem link_rests_on_evidence w v actor db out db' :
  transact w (Link v actor) db = (inr out, db') ->
  linked v actor db out db'.
Proof. apply run_committed. intros e k d. apply Link_run. Qed.

(** ** What a review rests on *)

Definition latest_revision (latest : option (Z * LinkReview)) : Z := match latest with Some (n, _) => n | None => 0 end.

Lemma projection_some id db p : projection id db = Some p ->
  exists l f, feedback_links db !! id = Some l /\ feedback_reports db !! fl_feedback_id l = Some f /\ pb_ID p = id /\
    pb_RecipientID p = fl_recipient_id l /\ pb_AttemptID p = fl_attempt_id l /\ pb_CreatedAt p = fl_created_at l /\
    pb_SourceTrust p = "UNVERIFIED"%string /\ pb_Revision p = latest_revision (latest_review id db) /\
    pb_State p = publication_state (fl_feedback_id l) f (latest_review id db) db.
Proof.
  unfold projection. destruct (feedback_links db !! id) as [l|]; [|done].
  destruct (feedback_reports db !! fl_feedback_id l) as [f|] eqn:Ef; [|done]. intros [= <-]. exists l, f. simpl. auto 10.
Qed.

(** A review with the next number is the latest. *)
Lemma latest_insert id r db : let n := latest_revision (latest_review id db) + 1 in
  latest_review id (db <| feedback_link_reviews := <[(id, n) := r]> (feedback_link_reviews db) |>) = Some (n, r).
Proof.
  intros n. set (db' := db <| feedback_link_reviews := _ |>).
  assert (Hin : feedback_link_reviews db' !! (id, n) = Some r) by apply lookup_insert_eq.
  destruct (latest_review id db') as [[m x]|] eqn:El; [|by rewrite (latest_review_none _ _ El n) in Hin].
  apply latest_review_some in El as [Hm Hmax]. specialize (Hmax n r Hin).
  destruct (decide (m = n)) as [->|Hne]; [by rewrite Hin in Hm; injection Hm as ->|]. exfalso.
  unfold db' in Hm. simpl in Hm. rewrite lookup_insert_ne in Hm by congruence. unfold n in *.
  destruct (latest_review id db) as [[j y]|] eqn:E; [|by rewrite (latest_review_none _ _ E m) in Hm].
  apply latest_review_some in E as [_ Hj]. specialize (Hj m x Hm). simpl in *. lia.
Qed.

(** What [Review] did when it returns [out] *)
Definition decided (id : string) (v : ReviewRequest) (actor : string) (db : DB) (out : Publication) (db' : DB) : Prop :=
  exists uid action p l f at_,
    canonical_id id = Some uid /\ action_of (vq_Action v) = Some action /\ vq_AcknowledgeUnverified v = true /\
    projection uid db = Some p /\ pb_Revision p = vq_ExpectedRevision v /\ pb_Revision out = pb_Revision p + 1 /\
    feedback_links db !! uid = Some l /\ feedback_reports db !! fl_feedback_id l = Some f /\
    feedback_link_reviews db !! (uid, pb_Revision out) = None /\
    noted "FEEDBACK_REVIEWED" actor uid (fl_message_id l) (fl_recipient_id l) (fl_attempt_id l)
      (db <| feedback_link_reviews := <[(uid, pb_Revision out) := MkLinkReview action actor (vq_Reason v) at_]> (feedback_link_reviews db) |>)
      db' /\
    projection uid db' = Some out /\
    match action with
    | CONFIRM_FAILURE =>
        pb_State p = PENDING_REVIEW /\ pb_State out = FAILURE_CONFIRMED_BY_OPERATOR /\
        in_conflict f db = false /\ feedback_reviews db !! fl_feedback_id l = None /\
        (fr_parsed f = None \/ reported_failure f (fl_report_index l) = true) /\
        exists r a, recipients db !! fl_recipient_id l = Some r /\ r_status r = SMTP_ACCEPTED /\
          delivery_attempts db !! fl_attempt_id l = Some a /\ newer_attempt (fl_recipient_id l) (a_attempt_number a) db = false
    | WITHDRAW =>
        pb_State p <> WITHDRAWN /\
        (pb_State out = WITHDRAWN \/ pb_State p = EVIDENCE_CONFLICT /\ pb_State out = EVIDENCE_CONFLICT)
    end.

(** The new state *)
Lemma reviewed_state uid db p out r l f :
  projection uid db = Some p -> feedback_links db !! uid = Some l -> feedback_reports db !! fl_feedback_id l = Some f ->
  projection uid (db <| feedback_link_reviews := <[(uid, pb_Revision p + 1) := r]> (feedback_link_reviews db) |>) = Some out ->
  pb_Revision out = pb_Revision p + 1 /\
  (pb_State p = PENDING_REVIEW -> in_conflict f db = false /\ feedback_reviews db !! fl_feedback_id l = None) /\
  pb_State out = if in_conflict f db then pb_State p else if not_null (feedback_reviews db !! fl_feedback_id l) then pb_State p
                 else match lr_action r with WITHDRAW => WITHDRAWN | CONFIRM_FAILURE => FAILURE_CONFIRMED_BY_OPERATOR end.
Proof.
  intros Hp Hl Hf Hout. apply projection_some in Hp as (l' & f' & Hl' & Hf' & _ & _ & _ & _ & _ & Erev & Est).
  rewrite Hl in Hl'. injection Hl' as <-. rewrite Hf in Hf'. injection Hf' as <-. rewrite Erev in *.
  apply projection_some in Hout as (l' & f' & Hl' & Hf' & _ & _ & _ & _ & _ & Erev' & Est'). simpl in Hl', Hf'.
  rewrite Hl in Hl'. injection Hl' as <-. rewrite Hf in Hf'. injection Hf' as <-. rewrite latest_insert in Erev', Est'.
  split; [done|]. unfold publication_state in Est, Est'.
  change (in_conflict f (db <| feedback_link_reviews := _ |>)) with (in_conflict f db) in Est'. simpl in Est'.
  rewrite Est', Est. destruct (in_conflict f db); [done|]. destruct (feedback_reviews db !! fl_feedback_id l); done.
Qed.

Lemma Review_run id v actor w db k0 e k db' : Review id v actor w (k0, db) = inr (e, (k, db')) ->
  exists out, e = Commit (inr out) /\ decided id v actor db out db'.
Proof.
  unfold Review. intros H. destruct (canonical_id id) as [uid|] eqn:Eid; [|done].
  destruct (action_of (vq_Action v)) as [action|] eqn:Eac; [|done].
  destruct (_ || _) eqn:Eg in H; [done|]. rewrite !orb_false_iff, !negb_false_iff in Eg. destruct Eg as [[[[Hack _] _] _] _].
  apply run_bind in H as (u1 & k1 & db1 & H1 & H). apply run_query in H1 as [-> _].
  apply run_bind in H as (p & k2 & db2 & H1 & H). apply run_row in H1 as [-> [t1 Hp]].
  apply run_bind in H as (u2 & k3 & db3 & H1 & H). apply run_guard in H1 as [Hrev ->].
  unfold reviewable in Hrev. rewrite !andb_true_iff, Z.eqb_eq in Hrev. destruct Hrev as [[[Hrev Hw] Hc] _].
  pose proof (projection_some uid db p Hp) as (l & f & Hl & Hf & _ & Er & Ea & _).
  apply run_bind in H as (u3 & k4 & db4 & H1 & H).
  assert (db4 = db /\ (action = CONFIRM_FAILURE -> (fr_parsed f = None \/ reported_failure f (fl_report_index l) = true) /\
    exists r a, recipients db !! fl_recipient_id l = Some r /\ r_status r = SMTP_ACCEPTED /\
      delivery_attempts db !! fl_attempt_id l = Some a /\ newer_attempt (fl_recipient_id l) (a_attempt_number a) db = false)) as [-> Hev].
  { destruct (bool_decide_reflect (action = CONFIRM_FAILURE)) as [->|Hne]; [|apply run_ret in H1 as [_ ->]; done].
    apply run_bind in H1 as (rep & k5 & db5 & H2 & H1). apply run_row in H2 as [-> [t2 H2]]. rewrite Hl in H2. simpl in H2.
    rewrite Hf in H2. injection H2 as <-.
    apply run_bind in H1 as (u4 & k6 & db6 & H2 & H1). apply run_refuse in H2 as [Hrep ->]. simpl in Hrep.
    apply run_bind in H1 as (st & k7 & db7 & H2 & H1). apply run_row in H2 as [-> [t3 H2]].
    apply run_guard in H1 as [-> ->]. split; [done|]. intros _. rewrite Er, Ea in H2.
    destruct (recipients db !! fl_recipient_id l) as [r|]; [|done]. destruct (delivery_attempts db !! fl_attempt_id l) as [a|]; [|done].
    simpl in H2. injection H2 as H2. apply andb_true_iff in H2 as [H2 H3]. apply bool_decide_eq_true in H2. apply negb_true_iff in H3.
    split; [|eauto 10]. destruct (fr_parsed f); [right|by left]. simpl in Hrep. by apply negb_false_iff in Hrep. }
  apply run_bind in H as (u4 & k5 & db5 & H2 & H). apply run_stmt in H2 as [t4 H2].
  destruct (review_allowed _ _ _ _); [|done]. destruct (insert_row _ _ _) as [rows|] eqn:E; [|done].
  apply insert_row_some in E as [Hn ->]. injection H2 as _ <-.
  apply run_bind in H as (mid & k6 & db6 & H2 & H). apply run_row in H2 as [-> [t5 H2]]. simpl in H2. rewrite Hl in H2. injection H2 as <-.
  apply run_bind in H as (u5 & k7 & db7 & H2 & H). apply run_event in H2. rewrite Er, Ea in H2.
  apply run_bind in H as (out & k8 & db8 & H3 & H). apply run_row in H3 as [-> [t6 Hout]].
  apply run_ret in H as [-> ->]. exists out. split; [done|]. assert (Hout' := Hout).
  rewrite (noted_projection _ _ _ _ _ _ _ _ uid H2) in Hout'.
  destruct (reviewed_state uid db p out _ l f Hp Hl Hf Hout') as (E1 & E2 & E3). rewrite <- E1 in Hn, H2. cbn [lr_action] in E3.
  exists uid, action, p, l, f, (at_clock t4). do 11 (split; [done|]).
  apply negb_true_iff, bool_decide_eq_false in Hw. destruct action.
  - assert (Hpend : pb_State p = PENDING_REVIEW) by (by destruct (pb_State p)).
    destruct (E2 Hpend) as [Hc1 Hc2]. rewrite Hc1, Hc2 in E3. simpl in E3. destruct (Hev eq_refl) as [Hev1 Hev2]. auto 10.
  - split; [done|]. destruct (projection_some uid db p Hp) as (l' & f' & Hl' & Hf' & _ & _ & _ & _ & _ & _ & Est).
    rewrite Hl in Hl'. injection Hl' as <-. rewrite Hf in Hf'. injection Hf' as <-. unfold publication_state in Est.
    destruct (in_conflict f db); [right; by rewrite E3|]. left. destruct (feedback_reviews db !! _); done.
Qed.

(** A review rests on the revision and the evidence it saw.  When [Review]
    returns a publication, the operator acknowledged that the source is
    unverified and named the current revision, which grows by one, and the
    transaction added exactly this review, one event and one audit entry.  A
    failure is confirmed only for a pending publication whose evidence is
    neither in conflict nor dismissed and, when it parsed, reports a permanent
    failure in the linked block, while the recipient is still [SMTP_ACCEPTED]
    and has no later attempt; a withdrawal never applies to one already
    withdrawn. *)
Theorem review_rests_on_evidence w id v actor db out db' :
  transact w (Review id v actor) db = (inr out, db') -> decided id v actor db out db'.
Proof. apply run_committed. intros e k d. apply Review_run. Qed.

(** ** The life of a publication *)

Definition rank (s : PubState) : Z :=
  match s with PENDING_REVIEW => 0 | FAILURE_CONFIRMED_BY_OPERATOR => 1 | WITHDRAWN => 2 | EVIDENCE_CONFLICT => 3 end.

Lemma latest_standing id db : well_reviewed (feedback_link_reviews db) ->
  match latest_review id db with
  | None => True
  | Some (n, r) => n = 1 \/ n = 2 /\ lr_action r = WITHDRAW
  end.
Proof.
  intros Hw. destruct (latest_review id db) as [[n r]|] eqn:E; [|done]. apply latest_review_some in E as [Hn _].
  destruct (Hw _ _ _ Hn) as [->|(-> & H & _)]; auto.
Qed.

(** A later database keeps the latest review, or has withdrawn a confirmation. *)
Lemma latest_grows id db db' n r : feedback_link_reviews db ⊆ feedback_link_reviews db' -> well_reviewed (feedback_link_reviews db') ->
  latest_review id db = Some (n, r) ->
  latest_review id db' = Some (n, r) \/
  n = 1 /\ lr_action r = CONFIRM_FAILURE /\ exists r', latest_review id db' = Some (2, r') /\ lr_action r' = WITHDRAW.
Proof.
  intros Hsub Hw Hl. apply latest_review_some in Hl as [Hn _]. pose proof (lookup_weaken _ _ _ _ Hn Hsub) as Hn'.
  destruct (latest_review id db') as [[m x]|] eqn:E; [|by rewrite (latest_review_none _ _ E n) in Hn'].
  apply latest_review_some in E as [Hm Hmax]. specialize (Hmax n r Hn').
  destruct (Hw _ _ _ Hm) as [->|(-> & Hx & r1 & Hr1 & Hc)]; destruct (Hw _ _ _ Hn') as [->|(-> & Hr & _)]; try lia.
  - left. by rewrite Hn' in Hm; injection Hm as ->.
  - right. split; [done|]. rewrite Hn' in Hr1. injection Hr1 as ->. eauto.
  - left. by rewrite Hn' in Hm; injection Hm as ->.
Qed.

Lemma conflict_grows f db db' : feedback_reports db ⊆ feedback_reports db' -> in_conflict f db = true -> in_conflict f db' = true.
Proof.
  intros Hsub. unfold in_conflict. rewrite !exists_row_true. intros (k & g & Hk & Hg). exists k, g. split; [|done].
  by eapply lookup_weaken.
Qed.

(** The state, from a conflict, a dismissal and the latest review *)
Definition standing (conflict dismissed : bool) (latest : option (Z * LinkReview)) : PubState :=
  if conflict then EVIDENCE_CONFLICT else if dismissed then WITHDRAWN
  else match latest with
       | Some (_, r) => match lr_action r with WITHDRAW => WITHDRAWN | CONFIRM_FAILURE => FAILURE_CONFIRMED_BY_OPERATOR end
       | None => PENDING_REVIEW
       end.

Lemma standing_grows (c c' d d' : bool) (la la' : option (Z * LinkReview)) :
  match la with None => True | Some (n, r) => n = 1 \/ n = 2 /\ lr_action r = WITHDRAW end ->
  match la' with None => True | Some (n, r) => n = 1 \/ n = 2 /\ lr_action r = WITHDRAW end ->
  (c = true -> c' = true) -> (d = true -> d' = true) ->
  (forall n r, la = Some (n, r) -> la' = Some (n, r) \/
     n = 1 /\ lr_action r = CONFIRM_FAILURE /\ exists r', la' = Some (2, r') /\ lr_action r' = WITHDRAW) ->
  rank (standing c d la) <= rank (standing c' d' la') /\
  0 <= latest_revision la <= latest_revision la' /\ latest_revision la' <= 2 /\
  (standing c' d' la' = FAILURE_CONFIRMED_BY_OPERATOR -> latest_revision la' = 1) /\
  (standing c' d' la' = PENDING_REVIEW -> latest_revision la' = 0).
Proof.
  intros Hs Hs' Hc Hd Hg.
  assert (Hl : match la with
    | Some (n, r) => 0 <= n /\ (la' = la \/ n = 1 /\ lr_action r = CONFIRM_FAILURE /\ exists r', la' = Some (2, r') /\ lr_action r' = WITHDRAW)
    | None => True
    end) by (destruct la as [[n r]|]; [|done]; split; [lia|auto]).
  clear Hg. unfold standing, latest_revision.
  destruct c, c'; try discriminate (Hc eq_refl); destruct d, d'; try discriminate (Hd eq_refl);
    (destruct la as [[n r]|]; [destruct Hl as [Hn [->|(-> & Ha & r' & -> & Hw)]]|destruct la' as [[n' r']|]]);
    rewrite ?Ha, ?Hw; repeat match goal with H : _ \/ _ |- _ => destruct H as [->|[-> ->]] end; try destruct (lr_action _);
    simpl; repeat split; try lia; done.
Qed.

(** The life of a publication.  Along any sequence of feedback
    transactions a publication keeps its recipient, attempt and date and stays
    of unverified trust; its state only moves from pending over confirmed to
    withdrawn, or to a conflict of the evidence, never back; its revision only
    grows and is at most 2; and a confirmed failure has exactly one review. *)
Theorem publication_lifecycle db db' id p :
  well_reviewed (feedback_link_reviews db) -> feedback_run db db' -> projection id db = Some p ->
  exists p', projection id db' = Some p' /\
    pb_RecipientID p' = pb_RecipientID p /\ pb_AttemptID p' = pb_AttemptID p /\ pb_CreatedAt p' = pb_CreatedAt p /\
    pb_SourceTrust p' = "UNVERIFIED"%string /\ rank (pb_State p) <= rank (pb_State p') /\
    0 <= pb_Revision p <= pb_Revision p' /\ pb_Revision p' <= 2 /\
    (pb_State p' = FAILURE_CONFIRMED_BY_OPERATOR -> pb_Revision p' = 1) /\ (pb_State p' = PENDING_REVIEW -> pb_Revision p' = 0).
Proof.
  intros Hw Hrun Hp. apply run_advisory in Hrun. pose proof (ad_reviewed _ _ Hrun Hw) as Hw'.
  destruct Hrun as [_ Hrep Hrev Hlinks Hlr _ _ _ _ _ _ _ _].
  apply projection_some in Hp as (l & f & Hl & Hf & _ & E1 & E2 & E3 & _ & E4 & E5).
  assert (exists p', projection id db' = Some p') as [p' Hp'].
  { unfold projection. rewrite (lookup_weaken _ _ _ _ Hl Hlinks), (lookup_weaken _ _ _ _ Hf Hrep). eauto. }
  exists p'. split; [done|]. apply projection_some in Hp' as (l' & f' & Hl' & Hf' & _ & F1 & F2 & F3 & Ft & F4 & F5).
  rewrite (lookup_weaken _ _ _ _ Hl Hlinks) in Hl'. injection Hl' as <-.
  rewrite (lookup_weaken _ _ _ _ Hf Hrep) in Hf'. injection Hf' as <-.
  do 3 (split; [congruence|]). split; [done|]. rewrite E4, E5, F4, F5. clear E4 E5 F4 F5.
  pose proof (latest_standing id db Hw) as Hs. pose proof (latest_standing id db' Hw') as Hs'.
  apply standing_grows; try done; [by apply conflict_grows| |intros n r; by apply latest_grows].
  destruct (feedback_reviews db !! fl_feedback_id l) as [x|] eqn:Ex; [|done]. by rewrite (lookup_weaken _ _ _ _ Ex Hrev).
Qed.

End Assessment.

(** ** The scenario *)

#[local] Existing Instance desk_parser.
#[local] Existing Instance desk_mime.
#[local] Existing Instance dsn_addresses.

Lemma desk_link_run : transact (desk_world 3) (Link (MkLinkRequest desk_inspect "bounce" true false) "op") (snd desk_import)
  = (fst desk_link, snd desk_link).
Proof. unfold desk_link. apply surjective_pairing. Qed.
Lemma desk_confirm_run : transact (desk_world 4) (Review (uuid_text 30004) (MkReviewRequest 0 "CONFIRM_FAILURE" "seen" true) "op") (snd desk_link)
  = (fst desk_confirm, snd desk_confirm).
Proof. unfold desk_confirm. apply surjective_pairing. Qed.
Lemma desk_withdraw_run : transact (desk_world 5) (Review (uuid_text 30004) (MkReviewRequest 1 "WITHDRAW" "mistake" true) "op") (snd desk_confirm)
  = (fst desk_withdraw, snd desk_withdraw).
Proof. unfold desk_withdraw. apply surjective_pairing. Qed.

Lemma link_rests_on_evidence_witness :
  match fst desk_link with inr out => linked (MkLinkRequest desk_inspect "bounce" true false) "op" (snd desk_import) out (snd desk_link) | inl _ => False end.
Proof.
  destruct (fst desk_link) as [e|out] eqn:E; [vm_compute in E; discriminate E|].
  apply (link_rests_on_evidence (desk_world 3)). rewrite <- E. exact desk_link_run.
Defined.

Lemma review_rests_on_evidence_witness :
  match fst desk_confirm with
  | inr out => decided (uuid_text 30004) (MkReviewRequest 0 "CONFIRM_FAILURE" "seen" true) "op" (snd desk_link) out (snd desk_confirm)
  | inl _ => False
  end.
Proof.
  destruct (fst desk_confirm) as [e|out] eqn:E; [vm_compute in E; discriminate E|].
  apply (review_rests_on_evidence (desk_world 4)). rewrite <- E. exact desk_confirm_run.
Defined.

Lemma publication_lifecycle_witness : exists p, projection 30004 (snd desk_withdraw) = Some p /\ pb_RecipientID p = 1%N /\ pb_Revision p <= 2.
Proof.
  destruct (projection 30004 (snd desk_link)) as [p|] eqn:E; [|vm_compute in E; discriminate E].
  assert (Hr : option_map pb_RecipientID (projection 30004 (snd desk_link)) = Some 1%N) by (vm_compute; reflexivity).
  rewrite E in Hr. injection Hr as Hr.
  destruct (publication_lifecycle (snd desk_link) (snd desk_withdraw) 30004 p) as (p' & Hp' & H1 & _ & _ & _ & _ & _ & H2 & _).
  - assert (Ht : feedback_link_reviews (snd desk_link) = ∅) by (vm_compute; reflexivity). rewrite Ht. intros id n r Hn. discriminate Hn.
  - apply (rtc_l _ _ (snd desk_confirm)); [|apply rtc_once].
    + eapply feedback_transaction; [|exact desk_confirm_run]. apply op_review.
    + eapply feedback_transaction; [|exact desk_withdraw_run]. apply op_review.
  - exact E.
  - exists p'. rewrite H1. auto.
Defined.

Definition desk_seen := inspectSnapshot (demo_day + 2 * Hour) (MkIds 10000 100 7 50 1) (EncodeToString (Sha.Sum256 [x2e])) 0 (snd desk_import).

Lemma inspection_exact_witness :
  match desk_seen with inr x => as_CandidateMatches (in_Assessment x) = true /\ as_AutomaticSuppression (in_Assessment x) = false | inl _ => False end.
Proof.
  destruct desk_seen as [e|x] eqn:E; [vm_compute in E; discriminate E|].
  assert (E' := E). unfold desk_seen in E'.
  destruct (inspection_exact _ _ _ _ _ _ E') as (_ & _ & _ & _ & H). split; [|exact H]. clear E'.
  assert (Hm : match desk_seen with inr y => as_CandidateMatches (in_Assessment y) | inl _ => false end = true) by (vm_compute; reflexivity).
  rewrite E in Hm. exact Hm.
Defined.

End PublicationSpec.
