(* ===== verification/CollectSpec.v ===== *)
(** * What the collector promises

    Its checkpoint never passes a message without a receipt, whatever fails. *)

From Stdlib Require Import Sorted.
From S2P Require Import Prelude Sha256 GoText TextFacts Delivery SmtpClient Provider Database Suppression Message Queue Worker MessageRules Demo System Runs Auth Storage Paging Retention FeedbackParse Feedback Publication Collect FeedbackSpec PublicationSpec.

Module CollectSpec.

Import FeedbackParse Feedback Publication Collect FeedbackSpec PublicationSpec.

(** ** The tables of the collector in a run *)

Definition collector_tables (db : DB) := (feedback_imap_sources db, feedback_imap_receipts db).
Definition evidence_tables (db : DB) := (collector_tables db, feedback_reports db).
Lemma audit_same action actor data : respects (same evidence_tables) (Feedback.audit action actor data).
Proof.
  unfold Feedback.audit. apply respects_bind; [apply respects_fresh|]. intros id.
  apply respects_stmt; [exact (same_trans _)|]. intros t db [] db' H.
  destruct (insert_row _ _ _); [|done]. by injection H as <-.
Qed.

Lemma invalidate_same hit : respects (same evidence_tables) (invalidate hit).
Proof.
  unfold invalidate. apply respects_bind; [apply respects_query|]. intros links. apply respects_forM. intros kl.
  apply respects_bind; [apply respects_fresh|]. intros id.
  apply respects_stmt; [exact (same_trans _)|]. intros t db [] db' H.
  destruct (insert_event _ _ _ _) as [d|] eqn:E; [|done]. injection H as <-. by apply insert_event_some in E as (_ & outbox & _ & ->).
Qed.

Section Collector.
  Context {parser : UuidParser} {addresses : MailParser} {mime : Mime}.

(** The evidence of an import *)
Definition evidence (v : ImportRequest) (raw : list byte) (id : UUID) (db : DB) : Prop :=
  exists f, feedback_reports db !! id = Some f /\ fr_source f = im_Source v /\
    fr_external_id f = (if String.eqb (im_ExternalID v) "" then ("sha256:" ++ EncodeToString (Sha.Sum256 raw))%string else im_ExternalID v) /\
    fr_sha256 f = EncodeToString (Sha.Sum256 raw).

Lemma importRaw_run full v raw w k db id dup k' db' : importRaw full v raw w (k, db) = inr ((id, dup), (k', db')) ->
  collector_tables db' = collector_tables db /\ evidence v raw id db' /\ (dup = true -> db' = db).
Proof.
  unfold importRaw. intros H. set (external := if String.eqb (im_ExternalID v) "" then _ else _) in H.
  set (digest := EncodeToString (Sha.Sum256 raw)) in *.
  set (p := fun f : FeedbackReport => _) in H.
  apply run_bind in H as (id0 & k1 & db1 & H1 & H). apply run_fresh in H1 as ->.
  apply run_bind in H as (ins & k2 & db2 & H1 & H). apply run_stmt in H1 as [t H1].
  destruct (exists_row _ (feedback_reports db)) eqn:Ex; simpl in H1.
  - injection H1 as <- <-. apply run_bind in H as (found & k3 & db3 & H1 & H). apply run_row in H1 as [-> [t1 H1]].
    apply run_ret in H as [[= -> ->] ->]. split; [done|]. split; [|done].
    destruct (head _) as [[u f]|] eqn:Eh; [|done]. injection H1 as <-. apply head_Some_elem_of, elem_select in Eh as [Hf Hp].
    unfold p in Hp. rewrite !andb_true_iff, !String.eqb_eq in Hp. destruct Hp as [[Hp1 Hp2] Hp3]. exists f. auto.
  - destruct (insert_row _ _ _) as [rows|] eqn:E; [|done]. apply insert_row_some in E as [Hn ->]. injection H1 as <- <-.
    apply run_bind in H as (u1 & k3 & db3 & H1 & H). apply run_refuse in H1 as [_ ->].
    apply run_bind in H as (u2 & k4 & db4 & H1 & H). apply (respects_run _ _ _ _ _ _ _ _ (invalidate_same _) eq_refl) in H1.
    apply run_bind in H as (u3 & k5 & db5 & H2 & H). apply (respects_run _ _ _ _ _ _ _ _ (audit_same _ _ _) eq_refl) in H2.
    apply run_ret in H as [[= -> ->] ->]. pose proof (same_trans _ _ _ _ H1 H2) as H3. split; [exact (f_equal fst H3)|].
    split; [|done]. unfold evidence. rewrite (f_equal snd H3 : feedback_reports db5 = _). simpl. rewrite lookup_insert_eq. eauto.
Qed.

(** What became of the message [m] *)
Definition saved (o : CollectOptions) (validity : Z) (m : MailMetadata) (outcome : Collected) (raw : list byte) (r : Receipt) (db : DB) : Prop :=
  rc_outcome r = outcome /\ rc_reported_size r = mm_Size m /\
  match outcome with
  | IMPORTED => exists id, rc_feedback_id r = Some id /\ evidence (request_for o validity (mm_UID m)) raw id db
  | _ => rc_feedback_id r = None
  end.

(** The checkpoint stands at [uid]. *)
Definition at_uid (name : string) (validity uid : Z) (db : DB) : Prop :=
  exists s, feedback_imap_sources db !! name = Some s /\ is_uid_validity s = validity /\ is_last_uid s = uid.

Definition key (o : CollectOptions) (validity uid : Z) := (co_Source o, validity, uid).

Lemma at_uid_set name validity uid uid' f db :
  (forall s, is_uid_validity (f s) = is_uid_validity s /\ is_last_uid (f s) = uid') ->
  at_uid name validity uid db -> at_uid name validity uid' (set_source name f db).
Proof.
  intros Hf (s & Hs & Hv & _). exists (f s). destruct (Hf s) as [E1 E2]. split; [|by rewrite E1].
  unfold set_source. simpl. by rewrite lookup_update, Hs, String.eqb_refl.
Qed.

(** After [saveCollected] the checkpoint is at [m], and [m] has its receipt:
    the one it had, or one for what was fetched. *)
Lemma saveCollected_run full o validity m raw outcome w k0 db e k db' p :
  saveCollected full o validity m raw outcome w (k0, db) = inr (e, (k, db')) -> at_uid (co_Source o) validity p db ->
  e = Commit (inr tt) /\ at_uid (co_Source o) validity (mm_UID m) db' /\
  (forall uid, uid <> mm_UID m -> feedback_imap_receipts db' !! key o validity uid = feedback_imap_receipts db !! key o validity uid) /\
  exists r, feedback_imap_receipts db' !! key o validity (mm_UID m) = Some r /\
    (feedback_imap_receipts db !! key o validity (mm_UID m) = Some r \/ saved o validity m outcome raw r db').
Proof.
  unfold saveCollected. fold (key o validity (mm_UID m)). intros H Hat.
  apply run_bind in H as (known & k1 & db1 & H1 & H). apply run_query in H1 as [-> [t1 Hk]].
  destruct (feedback_imap_receipts db !! key o validity (mm_UID m)) as [r|] eqn:Er; simpl in Hk; subst known.
  { apply run_bind in H as (u & k2 & db2 & H1 & H). apply run_stmt in H1 as [t2 H1]. injection H1 as _ <-.
    apply run_ret in H as [-> ->]. split; [done|]. split; [by eapply at_uid_set|]. split; [done|]. exists r. auto. }
  apply run_bind in H as (ch & k2 & db2 & H1 & H). apply run_stmt in H1 as [t2 H1].
  apply run_bind in H as (u1 & k3 & db3 & H2 & H). apply run_guard in H2 as [-> ->].
  assert (Hat2 : at_uid (co_Source o) validity (mm_UID m) db2 /\ feedback_imap_receipts db2 = feedback_imap_receipts db).
  { destruct (feedback_imap_sources db !! co_Source o); [|done]. destruct (_ && _); [|done]. injection H1 as <-.
    split; [|done]. by eapply at_uid_set. }
  clear H1. destruct Hat2 as [Hat2 Hrc2].
  apply run_bind in H as (id & k4 & db4 & H1 & H).
  assert (Himp : collector_tables db4 = collector_tables db2 /\
    match outcome with
    | IMPORTED => exists u, id = Some u /\ evidence (request_for o validity (mm_UID m)) raw u db4
    | _ => id = None
    end).
  { destruct (bool_decide_reflect (outcome = IMPORTED)) as [->|Hne].
    - apply run_bind in H1 as ([u dup] & k5 & db5 & H2 & H1). apply importRaw_run in H2 as (H2 & H3 & _).
      apply run_ret in H1 as [-> ->]. eauto.
    - apply run_ret in H1 as [-> ->]. by destruct outcome. }
  clear H1. destruct Himp as [Ht4 Himp].
  apply run_bind in H as (u2 & k5 & db5 & H1 & H). apply run_stmt in H1 as [t3 H1].
  destruct (insert_row _ _ _) as [rows|] eqn:E; [|done]. apply insert_row_some in E as [Hn ->]. injection H1 as _ <-.
  apply run_bind in H as (u3 & k6 & db6 & H1 & H). apply (respects_run _ _ _ _ _ _ _ _ (audit_same _ _ _) eq_refl) in H1.
  apply run_ret in H as [-> ->]. split; [done|].
  assert (Es : feedback_imap_sources db6 = feedback_imap_sources db2)
    by (rewrite <- (f_equal fst Ht4 : feedback_imap_sources db4 = feedback_imap_sources db2); exact (f_equal (fun x => fst (fst x)) H1)).
  assert (Ec : feedback_imap_receipts db6 = <[key o validity (mm_UID m) := MkReceipt outcome (mm_Size m) id]> (feedback_imap_receipts db)).
  { rewrite <- Hrc2, <- (f_equal snd Ht4 : feedback_imap_receipts db4 = feedback_imap_receipts db2). exact (f_equal (fun x => snd (fst x)) H1). }
  split; [unfold at_uid; by rewrite Es|]. rewrite Ec. split.
  - intros uid Hne. rewrite lookup_insert_ne; [done|]. unfold key. congruence.
  - eexists. split; [apply lookup_insert_eq|]. right. split; [done|]. split; [done|]. simpl.
    destruct outcome; [|done..]. destruct Himp as (u & -> & Hev). exists u. split; [done|].
    unfold evidence. by rewrite (f_equal snd H1 : feedback_reports db6 = feedback_reports db4).
Qed.

(** [m] has a receipt: the one of [db0], or one for what the mailbox gave. *)
Definition settled (box : Mailbox) (o : CollectOptions) (validity : Z) (db0 db : DB) (m : MailMetadata) : Prop :=
  exists r, feedback_imap_receipts db !! key o validity (mm_UID m) = Some r /\
    (feedback_imap_receipts db0 !! key o validity (mm_UID m) = Some r \/
     exists outcome raw, fetch box m = inr (outcome, raw) /\ saved o validity m outcome raw r db).

Lemma settled_mono box o validity db0 db db' m : advisory db db' -> settled box o validity db0 db m -> settled box o validity db0 db' m.
Proof.
  intros Ha (r & Hr & Hs). exists r. split; [by eapply lookup_weaken, (ad_receipts _ _ Ha)|]. destruct Hs as [Hs|(outcome & raw & Hf & H1 & H2 & H3)]; [by left|].
  right. exists outcome, raw. do 3 (split; [done|]). destruct outcome; try done. destruct H3 as (id & Hid & f & Hrep & H4). exists id. split; [done|].
  exists f. split; [|done]. by eapply lookup_weaken, (ad_reports _ _ Ha).
Qed.

Definition increasing : list MailMetadata -> Prop := StronglySorted (fun a b => mm_UID a < mm_UID b).

(** The loop: wherever it stops, everything up to the checkpoint is settled. *)
Lemma collect_all_settles sn box o validity db0 l : forall k out db e out' db' p,
  collect_all sn k box o validity l out db = (e, out', db') -> at_uid (co_Source o) validity p db ->
  increasing l -> Forall (fun m => p < mm_UID m) l ->
  (forall uid, p < uid -> feedback_imap_receipts db !! key o validity uid = feedback_imap_receipts db0 !! key o validity uid) ->
  exists q, at_uid (co_Source o) validity q db' /\ p <= q /\ (q = p \/ exists m, m ∈ l /\ q = mm_UID m) /\
    (forall m, m ∈ l -> mm_UID m <= q \/ e = None -> settled box o validity db0 db' m).
Proof.
  induction l as [|m l IH]; intros k out db e out' db' p H Hat Hinc Hlow Hfresh; simpl in H.
  { injection H as <- _ <-. exists p. split; [done|]. split; [lia|]. split; [by left|]. intros m Hm. by apply elem_of_nil in Hm. }
  apply Forall_cons in Hlow as [Hm Hlow].
  assert (Hstay : forall m', m' ∈ m :: l -> mm_UID m' <= p -> settled box o validity db0 db m').
  { intros m' Hin Hle. apply elem_of_cons in Hin as [->|Hin]; [lia|]. rewrite Forall_forall in Hlow. specialize (Hlow m' Hin). lia. }
  destruct (fetch box m) as [x|[outcome raw]] eqn:Ef.
  { injection H as <- _ <-. exists p. split; [done|]. split; [lia|]. split; [by left|]. intros m' Hin [Hle|]; [by apply Hstay|done]. }
  destruct (transact _ _ db) as [r db1] eqn:Et.
  assert (Hadv : advisory db db1) by (eapply feedback_advisory; [|exact Et]; constructor).
  apply (transact_cases (fun d => at_uid (co_Source o) validity (mm_UID m) d /\
    (forall uid, uid <> mm_UID m -> feedback_imap_receipts d !! key o validity uid = feedback_imap_receipts db !! key o validity uid) /\
    settled box o validity db0 d m)) in Et.
  2:{ intros x k1 d Hrun. destruct (saveCollected_run _ _ _ _ _ _ _ _ _ _ _ _ p Hrun Hat) as (-> & H1 & H2 & rc & H3 & H4).
      split; [eauto|]. split; [done|]. split; [done|]. exists rc. split; [done|]. rewrite Hfresh in H4 by done. destruct H4; eauto 10. }
  destruct Et as [(Hat1 & Hrest & Hset)|(-> & x & ->)].
  - inversion Hinc as [|? ? Hinc' Hall]; subst.
    assert (Hbelow : forall m', m' ∈ l -> mm_UID m < mm_UID m') by (rewrite Forall_forall in Hall; done).
    destruct r as [x|u].
    + injection H as <- _ <-. exists (mm_UID m). split; [done|]. split; [lia|]. split; [right; exists m; set_solver|].
      intros m' Hin [Hle|]; [|done]. apply elem_of_cons in Hin as [->|Hin]; [done|]. specialize (Hbelow m' Hin). lia.
    + pose proof (collect_all_run _ _ _ _ _ _ _ _ _ _ _ H) as Hrun. apply run_advisory in Hrun.
      destruct (IH _ _ _ _ _ _ (mm_UID m) H Hat1 Hinc' ltac:(by rewrite Forall_forall)) as (q & Hq & Hle & Hwhere & Hall').
      { intros uid Hlt. rewrite Hrest by lia. apply Hfresh. lia. }
      exists q. split; [done|]. split; [lia|]. split; [destruct Hwhere as [->|(m' & Hin & ->)]; right; [exists m|exists m']; set_solver|].
      intros m' Hin Hc. apply elem_of_cons in Hin as [->|Hin]; [|by apply Hall']. by eapply settled_mono.
  - injection H as <- _ <-. exists p. split; [done|]. split; [lia|]. split; [by left|]. intros m' Hin [Hle|]; [by apply Hstay|done].
Qed.

(** A window that was checked is strictly increasing. *)
Lemma window_ok_increasing start stop l : forall previous, window_ok start stop previous l = true ->
  StronglySorted (fun a b => uid_leb a b = true) l ->
  Forall (fun m => start <= mm_UID m <= stop) l /\ increasing l /\
  forall u, previous = Some u -> Forall (fun m => u <= mm_UID m) l -> Forall (fun m => u < mm_UID m) l.
Proof.
  induction l as [|m l IH]; intros previous Hok Hs; simpl in Hok; [repeat split; constructor|].
  apply andb_true_iff in Hok as [Hm Hok]. rewrite negb_true_iff, !orb_false_iff in Hm. destruct Hm as [[[H1 H2] _] H4].
  inversion Hs as [|? ? Hs' Hall]; subst. destruct (IH (Some (mm_UID m)) Hok Hs') as (Hr & Hi & Hstrict).
  assert (Hlow : Forall (fun x => mm_UID m < mm_UID x) l).
  { apply Hstrict; [done|]. eapply Forall_impl; [exact Hall|]. unfold uid_leb. intros x Hx. lia. }
  split; [constructor; [lia|done]|]. split; [by constructor|]. intros u -> Hu. apply Forall_cons in Hu as [Hu _].
  apply bool_decide_eq_false in H4. assert (u <> mm_UID m) by congruence.
  constructor; [lia|]. eapply Forall_impl; [exact Hlow|]. simpl. lia.
Qed.

(** ** Where a run starts *)

Definition base (o : CollectOptions) (validity : Z) (db : DB) : Z :=
  match feedback_imap_sources db !! co_Source o with
  | Some s => if is_uid_validity s =? validity then is_last_uid s else 0
  | None => 0
  end.

(** The checkpoint of this epoch, if the source is in it, stands at [uid]. *)
Definition stands (o : CollectOptions) (validity uid : Z) (db : DB) : Prop :=
  forall s, feedback_imap_sources db !! co_Source o = Some s -> is_uid_validity s = validity -> is_last_uid s = uid.

Lemma stands_base o validity db : stands o validity (base o validity db) db.
Proof. intros s Hs Hv. unfold base. by rewrite Hs, Hv, Z.eqb_refl. Qed.

Lemma at_uid_stands o validity uid db : at_uid (co_Source o) validity uid db -> stands o validity uid db.
Proof. intros (s & Hs & _ & Hu) s' Hs' _. rewrite Hs in Hs'. by injection Hs' as <-. Qed.

Definition checkpoints (db : DB) := (fun s => (is_uid_validity s, is_last_uid s)) <$> feedback_imap_sources db.

Lemma stands_checkpoints o validity uid db db' : same checkpoints db db' -> stands o validity uid db -> stands o validity uid db'.
Proof.
  intros Hc Hst s Hs Hv. pose proof (f_equal (lookup (co_Source o)) Hc) as E. unfold checkpoints in E. rewrite !lookup_fmap, Hs in E.
  simpl in E. destruct (feedback_imap_sources db !! co_Source o) as [s0|] eqn:E0; [|done]. injection E as E1 E2.
  rewrite E2. apply Hst; [done|congruence].
Qed.

Lemma alert_checkpoints source validity kind : respects (same checkpoints) (collectorAlert source validity kind).
Proof.
  unfold collectorAlert. apply respects_bind; [|intros inserted; apply respects_bind; [|intros; apply respects_ret]].
  - apply respects_stmt; [exact (same_trans _)|]. intros t db b db' H. by destruct (bool_decide _); injection H as _ <-.
  - destruct inserted; [|apply respects_ret]. apply respects_bind; [|intros charged; apply respects_bind].
    + apply respects_stmt; [exact (same_trans _)|]. intros t db b db' H.
      destruct (feedback_imap_sources db !! source) as [s|]; [|by injection H as _ <-].
      destruct (is_records s <? 10000); injection H as _ <-; [|done]. apply map_eq. intros k. unfold checkpoints. simpl.
      rewrite !lookup_fmap, lookup_update. destruct (feedback_imap_sources db !! k); [|done]. simpl. by destruct (String.eqb k source).
    + destruct charged; [apply respects_ret|apply respects_raise].
    + intros []. intros db0 w k db a k' db' H Hrun. apply (respects_run _ _ _ _ _ _ _ _ (audit_same _ _ _) eq_refl) in Hrun.
      unfold same, checkpoints in *. rewrite (f_equal (fun x => fst (fst x)) Hrun : feedback_imap_sources db' = feedback_imap_sources db).
      exact H.
Qed.

Lemma alert_stands w o validity uid source v kind db r db' :
  transact w (collectorAlert source v kind) db = (r, db') -> stands o validity uid db -> stands o validity uid db'.
Proof.
  intros Ht. apply stands_checkpoints. eapply respects_transact; [exact (same_refl _)|apply alert_checkpoints|exact Ht].
Qed.

Lemma initialize_run o validity w k0 db e k db' : initialize o validity w (k0, db) = inr (e, (k, db')) ->
  (e = Commit (inr (Ready (base o validity db))) /\ at_uid (co_Source o) validity (base o validity db) db') \/
  exists p, e = Rollback (inr p) /\ forall last, p <> Ready last.
Proof.
  unfold initialize. intros H. apply run_bind in H as (ins & k1 & db1 & H1 & H). apply run_stmt in H1 as [t1 H1].
  apply run_bind in H as (s & k2 & db2 & H2 & H). apply run_row in H2 as [-> [t2 Hs]].
  assert (Eb : base o validity db = base o validity db1).
  { unfold base. destruct (feedback_imap_sources db !! co_Source o) eqn:E; injection H1 as <- <-; [by rewrite E|].
    simpl. rewrite lookup_insert_eq. simpl. by destruct (validity =? validity). }
  rewrite Eb. clear Eb H1. destruct (negb (String.eqb _ _)); [apply run_ret in H as [-> ->]; right; eexists; split; [done|done]|].
  destruct (CollectorMaxRecords <=? is_records s); [apply run_ret in H as [-> ->]; right; eexists; split; [done|done]|].
  destruct (_ && _); [apply run_ret in H as [-> ->]; right; eexists; split; [done|done]|].
  apply run_bind in H as (u1 & k3 & db3 & H1 & H). apply run_bind in H as (u2 & k4 & db4 & H2 & H). apply run_ret in H as [-> ->].
  left. unfold base. rewrite Hs. assert (Es : feedback_imap_sources db4 = feedback_imap_sources db3).
  { destruct ins; [|by apply run_ret in H2 as [_ ->]]. apply (respects_run _ _ _ _ _ _ _ _ (audit_same _ _ _) eq_refl) in H2.
    exact (f_equal (fun x => fst (fst x)) H2). }
  clear H2. destruct (Z.eqb_spec (is_uid_validity s) validity) as [Ev|Ev]; simpl in H1 |- *.
  - apply run_ret in H1 as [_ ->]. split; [done|]. exists s. by rewrite Es.
  - split; [done|]. apply run_bind in H1 as (u3 & k5 & db5 & H2 & H1). apply run_stmt in H2 as [t3 H2]. injection H2 as _ <-.
    apply (respects_run _ _ _ _ _ _ _ _ (audit_same _ _ _) eq_refl) in H1.
    unfold at_uid. rewrite Es, (f_equal (fun x => fst (fst x)) H1 : feedback_imap_sources db3 = _). simpl.
    eexists. rewrite lookup_update, Hs, String.eqb_refl. done.
Qed.

Lemma initializeSource_stands w w' o validity db e last db' : initializeSource w w' o validity db = (e, last, db') ->
  stands o validity (base o validity db) db' /\
  (e = None -> last = base o validity db /\ at_uid (co_Source o) validity last db').
Proof.
  unfold initializeSource. destruct (transact w _ db) as [r db1] eqn:Et.
  assert (H : (db1 = db /\ forall last, r <> inr (Ready last)) \/
              at_uid (co_Source o) validity (base o validity db) db1 /\ forall p, r = inr p -> p = Ready (base o validity db)).
  { unfold transact in Et. destruct (initialize _ _ _ _) as [x|[x [k d]]] eqn:E; [injection Et as <- <-; left; done|].
    apply initialize_run in E as [[-> Hat]|(p & -> & Hp)].
    - destruct (w_commit w); injection Et as <- <-; [right; split; [done|congruence]|by left|right; done].
    - injection Et as <- <-. left. split; [done|]. intros n [= E]. by apply (Hp n). }
  destruct H as [[-> Hr]|[Hat Hr]].
  - destruct r as [x|[n|n|x n]]; [intros [= <- <- <-]; split; [apply stands_base|done]|by destruct (Hr n)| |intros [= <- <- <-]; split; [apply stands_base|done]].
    destruct (transact w' _ db) as [[x|u] db2] eqn:Ea; intros [= <- <- <-]; (split; [|done]); eapply alert_stands; eauto using stands_base.
  - pose proof (at_uid_stands _ _ _ _ Hat) as Hst. destruct r as [x|p]; [intros [= <- <- <-]; split; [done|done]|].
    rewrite (Hr p eq_refl). intros [= <- <- <-]. auto.
Qed.

Definition window_end (o : CollectOptions) (next last : Z) : Z := if next <=? last + co_Batch o then next - 1 else last + co_Batch o.

Lemma advance_run o stop w k0 db e k db' p validity : advance o stop w (k0, db) = inr (e, (k, db')) ->
  at_uid (co_Source o) validity p db ->
  e = Commit (inr tt) /\ at_uid (co_Source o) validity stop db' /\ feedback_imap_receipts db' = feedback_imap_receipts db /\
  feedback_reports db' = feedback_reports db.
Proof.
  unfold advance. intros H Hat. apply run_bind in H as (u & k1 & db1 & H1 & H). apply run_stmt in H1 as [t H1]. injection H1 as _ <-.
  apply run_ret in H as [-> ->]. split; [done|]. split; [by eapply at_uid_set|done].
Qed.

(** What a run did: the checkpoint it left, and everything up to it settled *)
Definition gapless (box : Mailbox) (o : CollectOptions) (validity next last : Z) (e : option DBErr) (db0 db' : DB) : Prop :=
  exists q, stands o validity q db' /\ last <= q <= Z.max last (window_end o next last) /\ (e = None -> q = window_end o next last) /\
    forall ms m, mb_Metadata box (last + 1) (window_end o next last) = Some ms -> m ∈ ms -> last < mm_UID m <= q ->
      settled box o validity db0 db' m.

Lemma gapless_start box o validity next last x db0 db' : stands o validity last db' -> gapless box o validity next last (Some x) db0 db'.
Proof. intros Hs. exists last. split; [done|]. split; [lia|]. split; [done|]. intros ms m _ _ Hm. lia. Qed.

Lemma collect_window_gapless sn box o validity next last db e out db' :
  0 <= last -> last < next -> next < 2 ^ 32 -> 1 <= co_Batch o -> at_uid (co_Source o) validity last db ->
  collect_window sn box o validity next last db = (e, out, db') -> gapless box o validity next last e db db'.
Proof.
  intros H0 Hlt Hmax Hb Hat. unfold collect_window. fold (window_end o next last). set (stop := window_end o next last).
  assert (Hstop : last <= stop) by (unfold stop, window_end; destruct (next <=? _) eqn:E; lia).
  rewrite (Z.mod_small (last + 1)) by lia. pose proof (at_uid_stands _ _ _ _ Hat) as Hst.
  destruct (Z.eqb_spec stop last) as [Es|Hne].
  { intros [= <- _ <-]. exists last. split; [done|]. split; [lia|]. split; [done|]. intros ms m _ _ Hm. lia. }
  destruct (mb_Metadata box (last + 1) stop) as [ms|] eqn:Em; [|intros [= <- _ <-]; by apply gapless_start].
  destruct (co_Batch o <? _); [intros [= <- _ <-]; by apply gapless_start|].
  destruct (window_ok _ _ _ _) eqn:Ew; [cbn [negb]|intros [= <- _ <-]; by apply gapless_start].
  destruct (window_ok_increasing _ _ _ _ Ew) as (Hrange & Hinc & _).
  { apply sort_by_sorted; unfold uid_leb; intros; lia. }
  destruct (collect_all _ _ _ _ _ _ _ _) as [[e1 out1] db1] eqn:Ec.
  destruct (collect_all_settles _ _ _ _ db _ _ _ _ _ _ _ last Ec Hat Hinc) as (q & Hq & Hle & Hwhere & Hset); [|done|].
  { eapply Forall_impl; [exact Hrange|]. simpl. lia. }
  assert (Hqs : q <= stop).
  { destruct Hwhere as [->|(m & Hm & ->)]; [done|]. rewrite Forall_forall in Hrange. specialize (Hrange m Hm). lia. }
  assert (Hpart : forall x, gapless box o validity next last (Some x) db db1).
  { intros x. exists q. split; [by apply at_uid_stands|]. fold stop. split; [lia|]. split; [done|]. intros ms' m Hms Hm [_ Hu].
    rewrite Em in Hms. injection Hms as <-. apply Hset; [by apply elem_sort_by|by left]. }
  destruct e1 as [x|]; [intros [= <- _ <-]; apply Hpart|].
  destruct (transact _ _ db1) as [r db2] eqn:Et.
  assert (Hadv : advisory db1 db2) by (eapply feedback_advisory; [|exact Et]; constructor).
  apply (transact_cases (at_uid (co_Source o) validity stop)) in Et.
  2:{ intros x k d Hrun. destruct (advance_run _ _ _ _ _ _ _ _ q validity Hrun Hq) as (-> & Hd & _). eauto. }
  assert (Hfull : forall z, at_uid (co_Source o) validity stop db2 -> gapless box o validity next last z db db2).
  { intros z Hd. exists stop. split; [by apply at_uid_stands|]. fold stop. split; [lia|]. split; [done|]. intros ms' m Hms Hm _.
    rewrite Em in Hms. injection Hms as <-. eapply settled_mono; [exact Hadv|]. apply Hset; [by apply elem_sort_by|by right]. }
  destruct Et as [Hd|(-> & x & ->)]; [|intros [= <- _ <-]; apply Hpart]. destruct r; intros [= <- _ <-]; by apply Hfull.
Qed.

(** Settled with respect to an earlier database *)
Lemma gapless_from box o validity next last e db db1 db' :
  feedback_imap_receipts db1 = feedback_imap_receipts db ->
  gapless box o validity next last e db1 db' -> gapless box o validity next last e db db'.
Proof.
  intros E (q & H1 & H2 & H3 & H4). exists q. do 3 (split; [done|]). intros ms m Hms Hm Hu.
  destruct (H4 ms m Hms Hm Hu) as (r & Hr & Hd). exists r. by rewrite <- E.
Qed.

Lemma initialize_receipts o validity : respects (same feedback_imap_receipts) (initialize o validity).
Proof.
  assert (Ha : forall action actor data, respects (same feedback_imap_receipts) (Feedback.audit action actor data)).
  { intros action actor data db0 w k db a k' db' H Hrun. apply (respects_run _ _ _ _ _ _ _ _ (audit_same _ _ _) eq_refl) in Hrun.
    unfold same in *. by rewrite (f_equal (fun x => snd (fst x)) Hrun : feedback_imap_receipts db' = feedback_imap_receipts db). }
  unfold initialize. apply respects_bind.
  { apply respects_stmt; [exact (same_trans _)|]. intros t db b db' H.
    by destruct (feedback_imap_sources db !! _); injection H as _ <-. }
  intros ins. apply respects_bind; [apply respects_query_row|]. intros s.
  do 3 (case_match; [apply respects_ret|]).
  apply respects_bind; [case_match; [|apply respects_ret]; apply respects_bind; [|auto]; by apply respects_exec; [exact (same_trans _)|]|].
  intros []. apply respects_bind; [case_match; [auto|apply respects_ret]|]. intros []. apply respects_ret.
Qed.

Lemma initializeSource_receipts w w' o validity db last db' : initializeSource w w' o validity db = (None, last, db') ->
  feedback_imap_receipts db' = feedback_imap_receipts db.
Proof.
  unfold initializeSource. destruct (transact w _ db) as [[x|[n|n|x n]] db1] eqn:Et; try done.
  - intros [= _ <-]. exact (respects_transact _ (same_refl _) _ _ _ _ _ (initialize_receipts _ _) Et).
  - by destruct (transact w' _ db1) as [[x|u] db2].
Qed.

(** C14. The collector leaves no gaps.  However a run of [Collect] ends - an
    error of the server, of the database, a lost answer to a commit, a stop
    between any two messages - the checkpoint it leaves for this mailbox epoch
    has not moved back or past the window, and every message the server listed
    up to it has its receipt: the one from an earlier run, or one that records
    what was fetched, with the exact bytes' digest as evidence when they were
    imported.  A run without an error leaves the checkpoint at the end of the
    window. *)
Theorem collector_leaves_no_gaps sn o box validity next db e out db' :
  sn_open sn = Some box -> mb_Select box = Some (validity, next) -> next < 2 ^ 32 -> 0 <= base o validity db ->
  Collect sn o db = (e, out, db') ->
  gapless box o validity next (base o validity db) e db db'.
Proof.
  intros Hopen Hsel Hnext Hbase. unfold Collect. rewrite Hopen, Hsel.
  assert (Hno : forall x, gapless box o validity next (base o validity db) (Some x) db db)
    by (intros x; apply gapless_start, stands_base).
  destruct (_ || _) eqn:Eg; [intros [= <- _ <-]; apply Hno|]. rewrite !orb_false_iff in Eg. destruct Eg as [[_ Hb] _].
  destruct (sn_conn sn); [cbn [negb]|intros [= <- _ <-]; apply Hno]. destruct (sn_lock sn) as [[|]|]; try (intros [= <- _ <-]; apply Hno).
  destruct ((validity =? 0) || _); [intros [= <- _ <-]; apply Hno|]. destruct (_ && _); [intros [= <- _ <-]; apply Hno|].
  destruct (initializeSource _ _ _ _ _) as [[[x|] last] db1] eqn:Ei;
    destruct (initializeSource_stands _ _ _ _ _ _ _ _ Ei) as [Hst Hready]; [intros [= <- _ <-]; by apply gapless_start|].
  destruct (Hready eq_refl) as [-> Hat]. destruct (Z.leb_spec next (base o validity db)).
  - destruct (transact _ _ db1) as [[x|u] db2] eqn:Ea; intros [= <- _ <-]; apply gapless_start; by eapply alert_stands.
  - intros Hc. apply (gapless_from _ _ _ _ _ _ _ db1); [by eapply initializeSource_receipts|].
    eapply collect_window_gapless; try exact Hc; try done; lia.
Qed.

End Collector.

(** ** A mailbox: a report, a message that is too large, and one that cannot be read *)

Definition box_mail : list MailMetadata := [MkMailMetadata 7 4; MkMailMetadata 3 1; MkMailMetadata 5 (2 * 2 ^ 20)].
Definition demo_box : Mailbox :=
  MkMailbox (Some (1, 9)) (fun _ _ => Some box_mail) (fun uid => if uid =? 3 then Some (Some [x2e]) else None).
Definition box_options : CollectOptions := MkCollectOptions "dsn" (EncodeToString (Sha.Sum256 [x2e])) 50 0.
Definition box_session : Session :=
  MkSession true (Some true) (Some demo_box) (desk_world 11) (desk_world 12) (fun k => desk_world (13 + N.of_nat k)) (fun _ => false) (desk_world 20).
Definition box_run := Collect (mime := desk_mime) box_session box_options desk_db.

Example box_example :
  fst (fst box_run) = Some (ErrText "IMAP body fetch failed; checkpoint retained") /\
  option_map (fun s => (is_last_uid s, is_records s, is_stored_bytes s)) (feedback_imap_sources (snd box_run) !! "dsn"%string) = Some (5, 2, 1) /\
  map (fun uid => option_map rc_outcome (feedback_imap_receipts (snd box_run) !! ("dsn"%string, 1, uid))) [3; 5; 7]
    = [Some IMPORTED; Some OVERSIZE; None].
Proof. vm_compute. done. Qed.

Lemma box_run_eq : Collect (mime := desk_mime) box_session box_options desk_db = (fst (fst box_run), snd (fst box_run), snd box_run).
Proof. unfold box_run. generalize (Collect (mime := desk_mime) box_session box_options desk_db). by intros [[e out] db]. Qed.

Lemma collector_leaves_no_gaps_witness :
  gapless demo_box box_options 1 9 (base box_options 1 desk_db) (fst (fst box_run)) desk_db (snd box_run).
Proof.
  apply (collector_leaves_no_gaps (parser := desk_parser) (addresses := dsn_addresses) (mime := desk_mime) box_session box_options demo_box 1 9 desk_db (fst (fst box_run))
    (snd (fst box_run)) (snd box_run)); [reflexivity|reflexivity|lia|vm_compute; discriminate|exact box_run_eq].
Defined.

End CollectSpec.
