(* ===== verification/ProviderAdmin.v ===== *)
(** * Administration of providers: [internal/provider]

    [Create] and [Manage] write the providers the queue chooses from,
    [ManageQuotaGroup] and [AttachQuotaGroup] the groups that share a quota,
    and [RecordEvidence] what operators claim about a provider.  Changes are
    fenced by the revision the operator saw; a trigger advances it with every
    update.

    Identifiers arrive as text.  Which texts [net.ParseIP] takes for an address
    is an argument, like the parsers of identifiers and URLs; [rand] is what
    the system's generator filled the nonce with. *)

From S2P Require Import Prelude Sha256 GoText TextFacts Calendar Delivery SmtpClient Provider Database UuidText WebhookHttp Message AesGcm Credentials Retention.

Module ProviderAdmin.

Import Encryption.

Class IPParser := ParseIP : string -> bool.

Definition ErrConflict : DBErr := ErrText "provider revision conflict".
Definition ErrInvalid : DBErr := ErrText "invalid provider request".

Definition max_int32 : Z := 2147483647.

(** ** Validation: [provider.go] *)

Definition breaks : string := String (Ascii.ascii_of_nat 13) (String (Ascii.ascii_of_nat 10) EmptyString).

Section Validation.
  Context {ips : IPParser}.

(** One domain, lower case *)
Definition canonical_domain (d : string) : option string :=
  let d := ToLower (TrimSpace d) in
  if String.eqb d "" || ContainsAny d (breaks ++ " @/:*") || ParseIP d then None else Some d.

Fixpoint canonical_domains (l : list string) : option (list string) :=
  match l with
  | [] => Some []
  | d :: rest => d ← canonical_domain d; ds ← canonical_domains rest; Some (d :: ds)
  end.

(** [Validate] rewrites the domains in place: the result is what the caller's
    slice holds afterwards. *)
Definition Validate (p : Provider) (password : string) (domains : list string) : option (list string) :=
  if String.eqb (pv_Name p) "" || String.eqb (pv_Host p) "" || ContainsAny (pv_Host p) (breaks ++ " /@")
     || (pv_Port p <? 1) || (65535 <? pv_Port p) || String.eqb (pv_Username p) ""
     || ContainsAny (pv_Username p) (breaks ++ String nul EmptyString) || String.eqb password "" || (4096 <? String.length password)%nat
  then None
  else if negb (String.eqb (pv_Security p) "starttls") && negb (String.eqb (pv_Security p) "implicit_tls") then None
  else if (pv_Timeout p <? Second) || (5 * Minute <? pv_Timeout p) || (pv_MaxConnections p <? 1) || (32 <? pv_MaxConnections p) then None
  else if (pv_HourlyLimit p <? 0) || (pv_DailyLimit p <? 0) || (max_int32 <? pv_HourlyLimit p) || (max_int32 <? pv_DailyLimit p) then None
  else if (length domains =? 0)%nat then None
  else canonical_domains domains.

(** [NULLIF(x,0)] *)
Definition nullif_zero (x : Z) : option Z := if x =? 0 then None else Some x.

(** The [INSERT]: a used identifier or name is a violation. *)
Definition insert_provider (id : UUID) (row : ProviderRow) (db : DB) : option DB :=
  if exists_row (fun _ p => String.eqb (p_name p) (p_name row)) (providers db) then None
  else rows ← insert_row id row (providers db); Some (db <| providers := rows |>).

(** [Create] *)
Definition Create (b : Box) (rand : option (list byte)) (p : Provider) (password : string) (domains : list string) : M (TxEnd UUID) :=
  match Validate p password domains with
  | None => raise (ErrText "invalid provider settings")
  | Some domains =>
      id ← fresh;
      match Seal b rand (uuid_text id) password with
      | None => raise (ErrText "seal")
      | Some (ciphertext, nonce) =>
          stmt (fun _ db =>
            db' ← insert_provider id (MkProviderRow (pv_Name p) true (pv_Host p) (pv_Port p) (pv_Security p) (pv_Username p) ciphertext nonce
                    (pv_Priority p) (nullif_zero (pv_HourlyLimit p)) (nullif_zero (pv_DailyLimit p)) (pv_MaxConnections p)
                    (pv_Timeout p / Second) domains true None 1) db;
            Some (tt, db'));;
          mret (Commit (inr id))
      end
  end.

(** ** [manage.go] *)

Record Settings := MkSettings {
  st_Name : string; st_Host : string; st_Port : Z; st_Security : string; st_Username : string; st_Priority : Z;
  st_MaxConnections : Z; st_TimeoutSeconds : Z; st_HourlyLimit : Z; st_DailyLimit : Z; st_FromDomains : list string; st_Enabled : bool }.
#[export] Instance eta_Settings : Eta Settings := fun s =>
  MkSettings (st_Name s) (st_Host s) (st_Port s) (st_Security s) (st_Username s) (st_Priority s) (st_MaxConnections s)
    (st_TimeoutSeconds s) (st_HourlyLimit s) (st_DailyLimit s) (st_FromDomains s) (st_Enabled s).

(** [Settings.provider] *)
Definition provider (s : Settings) : Provider :=
  MkProvider 0 (st_Name s) (st_Host s) (st_Security s) (st_Username s) (st_Port s) (st_Priority s) (st_MaxConnections s)
    (st_HourlyLimit s) (st_DailyLimit s) (i64 (st_TimeoutSeconds s * Second)) [] [].

Inductive Action := create | configure | credentials.
#[export] Instance Action_eq_dec : EqDecision Action.
Proof. solve_decision. Defined.
Definition action_name (a : Action) : string :=
  match a with create => "PROVIDER_CREATE" | configure => "PROVIDER_CONFIGURE" | credentials => "PROVIDER_CREDENTIALS" end.
Definition action_of (s : string) : option Action :=
  if String.eqb s "create" then Some create else if String.eqb s "configure" then Some configure
  else if String.eqb s "credentials" then Some credentials else None.
Definition writes_settings (a : Action) : bool := match a with credentials => false | _ => true end.
Definition writes_password (a : Action) : bool := match a with configure => false | _ => true end.

(** Who and why, in at most 128 and 2048 bytes *)
Definition signed_by (actor reason : string) : bool :=
  negb (String.eqb (TrimSpace actor) "") && (String.length actor <=? 128)%nat && negb (String.eqb (TrimSpace reason) "")
  && (String.length reason <=? 2048)%nat && ValidString (actor ++ reason) && negb (has_nul (actor ++ reason)).

(** The settings with their domains as [Validate] left them *)
Definition checked_settings (s : Settings) : option Settings :=
  if (128 <? String.length (st_Name s))%nat || (253 <? String.length (st_Host s))%nat || (320 <? String.length (st_Username s))%nat
     || (100 <? length (st_FromDomains s))%nat || (st_Priority s <? -2147483648) || (max_int32 <? st_Priority s)
     || (st_TimeoutSeconds s <? 1) || (300 <? st_TimeoutSeconds s)
     || existsb (fun d => (253 <? String.length d)%nat) (st_FromDomains s)
  then None
  else domains ← Validate (provider s) "validation-only" (st_FromDomains s); Some (s <| st_FromDomains := domains |>).

Definition password_ok (password : string) : bool :=
  negb (String.eqb password "") && (String.length password <=? 4096)%nat && ValidString password
  && negb (ContainsAny password (breaks ++ String nul EmptyString)).

(** The columns [configure] sets *)
Definition configured (s : Settings) (p : ProviderRow) : ProviderRow :=
  p <| p_name := st_Name s |> <| p_enabled := st_Enabled s |> <| p_host := st_Host s |> <| p_port := st_Port s |>
    <| p_security := st_Security s |> <| p_username := st_Username s |> <| p_priority := st_Priority s |>
    <| p_max_connections := st_MaxConnections s |> <| p_timeout_seconds := st_TimeoutSeconds s |>
    <| p_from_domains := st_FromDomains s |> <| p_hourly_limit := nullif_zero (st_HourlyLimit s) |>
    <| p_daily_limit := nullif_zero (st_DailyLimit s) |>.

Definition new_provider (s : Settings) (sealed : list byte * list byte) : ProviderRow :=
  MkProviderRow (st_Name s) (st_Enabled s) (st_Host s) (st_Port s) (st_Security s) (st_Username s) (fst sealed) (snd sealed)
    (st_Priority s) (nullif_zero (st_HourlyLimit s)) (nullif_zero (st_DailyLimit s)) (st_MaxConnections s) (st_TimeoutSeconds s)
    (st_FromDomains s) true None 1.

(** [UPDATE providers SET f WHERE id=id RETURNING revision], with the trigger
    that advances the revision; a name another provider has is a violation. *)
Definition update_provider (id : UUID) (f : ProviderRow -> ProviderRow) (db : DB) : option (Z * DB) :=
  p ← providers db !! id;
  let p' := (f p) <| p_revision := p_revision p + 1 |> in
  if exists_row (fun k q => negb (k =? id)%N && String.eqb (p_name q) (p_name p')) (providers db) then None
  else Some (p_revision p', db <| providers := <[id := p']> (providers db) |>).

Definition settings_json (s : Settings) : json :=
  JObj [("name", JStr (st_Name s)); ("host", JStr (st_Host s)); ("port", JNum (st_Port s)); ("security", JStr (st_Security s));
        ("username", JStr (st_Username s)); ("priority", JNum (st_Priority s)); ("max_connections", JNum (st_MaxConnections s));
        ("timeout_seconds", JNum (st_TimeoutSeconds s)); ("hourly_limit", JNum (st_HourlyLimit s));
        ("daily_limit", JNum (st_DailyLimit s)); ("from_domains", JArr (map JStr (st_FromDomains s)));
        ("enabled", JBool (st_Enabled s))]%string.

(** [quotaAudit] and the same statement in [Manage] *)
Definition quotaAudit (action actor : string) (data : json) : M unit :=
  id ← fresh;
  stmt (fun _ db => rows ← insert_row id (MkAudit action actor data) (maintenance_audit db);
                    Some (tt, db <| maintenance_audit := rows |>)).

Context {parser : UuidParser}.

(** [uuid.Parse], not Nil, in its text up to case *)
Definition provider_id (id : string) : option UUID :=
  match ParseUUID id with
  | Some u => if negb (u =? 0)%N && EqualFold (uuid_text u) id then Some u else None
  | None => None
  end.

(** The transaction of [Manage] *)
Definition manage_tx (action : Action) (id : string) (u : UUID) (expected : Z) (s : Settings) (sealed : list byte * list byte)
    (actor reason : string) : M (TxEnd Z) :=
  revision ← match action with
    | create => stmt (fun _ db => db' ← insert_provider u (new_provider s sealed) db; Some (1, db'))
    | _ =>
        revision ← query_row (fun _ db => option_map p_revision (providers db !! u));
        (if revision =? expected then mret tt else raise ErrConflict);;
        stmt (fun _ db => update_provider u (match action with
            | configure => configured s
            | _ => fun p => p <| p_password_ciphertext := fst sealed |> <| p_nonce := snd sealed |>
            end) db)
    end;
  quotaAudit (action_name action) actor
    (JObj (app [("expected_revision", JNum expected); ("provider_id", JStr id); ("reason", JStr reason); ("revision", JNum revision)]
             (if writes_settings action then [("settings", settings_json s)] else []))%string);;
  mret (Commit (inr revision)).

(** [Manage]; [box] is [None] for a missing key ring. *)
Definition Manage (box : option Box) (rand : option (list byte)) (action id : string) (expected : Z) (s : Settings)
    (password actor reason : string) : M (TxEnd Z) :=
  match provider_id id with
  | None => raise ErrInvalid
  | Some u =>
      if negb (signed_by actor reason) then raise ErrInvalid
      else match action_of action with
      | None => raise ErrInvalid
      | Some a =>
          if negb (bool_decide (a = create)) && (expected <? 1) then raise ErrInvalid
          else match (if writes_settings a then checked_settings s else Some s) with
          | None => raise ErrInvalid
          | Some s =>
              if writes_password a then
                match box with
                | None => raise ErrInvalid
                | Some b =>
                    if negb (password_ok password) then raise ErrInvalid
                    else match Seal b rand id password with
                    | None => raise (ErrText "seal")
                    | Some sealed => manage_tx a id u expected s sealed actor reason
                    end
                end
              else manage_tx a id u expected s ([], []) actor reason
          end
      end
  end.

(** ** [quota_group.go] *)

Record QuotaGroupSettings := MkQuotaGroupSettings { qs_Name : string; qs_HourlyLimit : Z; qs_DailyLimit : Z }.

(** [validQuotaID]: in canonical text *)
Definition validQuotaID (id : string) : option UUID :=
  match ParseUUID id with
  | Some u => if negb (u =? 0)%N && String.eqb (uuid_text u) id then Some u else None
  | None => None
  end.
Definition validQuotaAudit (actor reason : string) : bool := signed_by actor reason.

Definition limit_ok (x : Z) : bool := (0 <=? x) && (x <=? max_int32).

Definition group_ok (make : bool) (expected : Z) (s : QuotaGroupSettings) : bool :=
  negb (String.eqb (TrimSpace (qs_Name s)) "") && (String.length (qs_Name s) <=? 128)%nat && ValidString (qs_Name s)
  && negb (ContainsAny (qs_Name s) (breaks ++ String nul EmptyString)) && limit_ok (qs_HourlyLimit s) && limit_ok (qs_DailyLimit s)
  && (make || (1 <=? expected)) && (negb make || (expected =? 0)).

Definition name_taken (id : UUID) (name : string) (db : DB) : bool :=
  exists_row (fun k g => negb (k =? id)%N && String.eqb (g_name g) name) (provider_quota_groups db).

Definition group_json (s : QuotaGroupSettings) : json :=
  JObj [("name", JStr (qs_Name s)); ("hourly_limit", JNum (qs_HourlyLimit s)); ("daily_limit", JNum (qs_DailyLimit s))]%string.

(** [ManageQuotaGroup]; [make]: create *)
Definition ManageQuotaGroup (make : bool) (id : string) (expected : Z) (s : QuotaGroupSettings) (actor reason : string) : M (TxEnd Z) :=
  match validQuotaID id with
  | None => raise ErrInvalid
  | Some gid =>
      if negb (validQuotaAudit actor reason) || negb (group_ok make expected s) then raise ErrInvalid
      else
        rev ← (if make then
                 stmt (fun _ db =>
                   if name_taken gid (qs_Name s) db then None
                   else rows ← insert_row gid (MkQuotaGroup (qs_Name s) (qs_HourlyLimit s) (qs_DailyLimit s) 1) (provider_quota_groups db);
                        Some (1, db <| provider_quota_groups := rows |>))
               else
                 rev ← query_row (fun _ db => option_map g_revision (provider_quota_groups db !! gid));
                 (if rev =? expected then mret tt else raise ErrConflict);;
                 stmt (fun _ db =>
                   g ← provider_quota_groups db !! gid;
                   if name_taken gid (qs_Name s) db then None
                   else Some (g_revision g + 1, db <| provider_quota_groups :=
                          <[gid := MkQuotaGroup (qs_Name s) (qs_HourlyLimit s) (qs_DailyLimit s) (g_revision g + 1)]> (provider_quota_groups db) |>)));
        quotaAudit (if make then "PROVIDER_QUOTA_GROUP_CREATED" else "PROVIDER_QUOTA_GROUP_CONFIGURED") actor
          (JObj [("expected_revision", JNum expected); ("group_id", JId gid); ("reason", JStr reason); ("revision", JNum rev);
                 ("settings", group_json s)]%string);;
        mret (Commit (inr rev))
  end.

(** [AttachQuotaGroup] *)
Definition AttachQuotaGroup (pid gid : string) (expected : Z) (actor reason : string) : M (TxEnd Z) :=
  match validQuotaID pid, validQuotaID gid with
  | Some p, Some g =>
      if (expected <? 1) || negb (validQuotaAudit actor reason) then raise ErrInvalid
      else
        current ← query_row (fun _ db => option_map (fun r => (p_revision r, p_quota_group_id r)) (providers db !! p));
        (if (fst current =? expected) && is_null (snd current) then mret tt else raise ErrConflict);;
        query_row (fun _ db => provider_quota_groups db !! g);;
        rev ← stmt (fun _ db => update_provider p (fun r => r <| p_quota_group_id := Some g |>) db);
        quotaAudit "PROVIDER_QUOTA_GROUP_ATTACHED" actor
          (JObj [("expected_revision", JNum expected); ("group_id", JId g); ("provider_id", JId p); ("reason", JStr reason);
                 ("revision", JNum rev)]%string);;
        mret (Commit (inr rev))
  | _, _ => raise ErrInvalid
  end.

(** ** [evidence.go] *)

Record Evidence := MkEvidence {
  ev_Topic : string; ev_Value : string; ev_Source : string; ev_SourceURL : string; ev_ObservedAt : Message.Zoned }.

Definition in_text (lo hi : Z) (s : string) : bool :=
  match ParseInt s with Some n => (lo <=? n) && (n <=? hi) && String.eqb (FormatInt n) s | None => false end.

(** [Evidence.Validate]; the year is that of the zone *)
Definition evidence_valid {urls : URLParser} (now : Time) (e : Evidence) : bool :=
  let at_ := Message.z_at (ev_ObservedAt e) in
  let local := at_ + Message.z_offset (ev_ObservedAt e) * Second in
  negb (IsZero at_ || (local <? 0) || (year_10000 <=? local) || (now + 5 * Minute <? at_))
  && (if String.eqb (ev_Topic e) "max_message_bytes" then in_text 1 (2 ^ 30) (ev_Value e)
      else if String.eqb (ev_Topic e) "max_recipients" then in_text 1 100000 (ev_Value e)
      else if one_of (ev_Topic e) ["smtputf8"; "8bitmime"; "provider_dkim_signing"]%string
      then one_of (ev_Value e) ["supported"; "unsupported"; "unknown"]%string
      else false)
  && one_of (ev_Source e) ["operator_report"; "provider_documentation"]%string
  && negb (String.eqb (ev_Source e) "provider_documentation" && String.eqb (ev_SourceURL e) "")
  && (String.eqb (ev_SourceURL e) ""
      || match url_Parse (ev_SourceURL e) with
         | Some u => (String.length (ev_SourceURL e) <=? 2048)%nat && ValidString (ev_SourceURL e) && String.eqb (u_Scheme u) "https"
                     && negb (String.eqb (u_Hostname u) "") && negb (u_User u) && String.eqb (u_RawQuery u) "" && negb (u_ForceQuery u)
                     && String.eqb (u_Fragment u) "" && negb (ContainsAny (ev_SourceURL e) (breaks ++ String nul EmptyString))
         | None => false
         end).

Definition evidence_json (e : Evidence) : json :=
  JObj [("topic", JStr (ev_Topic e)); ("value", JStr (ev_Value e)); ("source", JStr (ev_Source e));
        ("source_url", JStr (ev_SourceURL e)); ("observed_at", JNum (Message.z_at (ev_ObservedAt e)))]%string.

(** [RecordEvidence]; [now] is the clock of the process. *)
Definition RecordEvidence {urls : URLParser} (now : Time) (id : string) (expected : Z) (e : Evidence) (actor reason : string)
  : M (TxEnd unit) :=
  match validQuotaID id with
  | None => raise ErrInvalid
  | Some pid =>
      if (expected <? 1) || negb (validQuotaAudit actor reason) || negb (evidence_valid now e) then raise ErrInvalid
      else
        revision ← query_row (fun _ db => option_map p_revision (providers db !! pid));
        (if revision =? expected then mret tt else raise ErrConflict);;
        quotaAudit "PROVIDER_CAPABILITY_EVIDENCE" actor
          (JObj [("affects_delivery", JBool false); ("evidence", evidence_json e); ("provider_id", JId pid);
                 ("provider_revision", JNum revision); ("reason", JStr reason); ("trust", JStr "operator_claim")]%string);;
        mret (Commit (inr tt))
  end.

End Validation.

End ProviderAdmin.
