(* ===== verification/ProviderSpec.v ===== *)
(** * What the administration of providers promises

    Changes are fenced by revisions, keep every provider well-formed and its
    quota membership for good, and touch no delivery. *)

From S2P Require Import Prelude Sha256 GoText TextFacts Calendar Delivery SmtpClient Provider Database UuidText WebhookHttp Suppression Message Queue Worker QueueOps QueueSpec Demo System Runs AesGcm Credentials Retention ArchiveSpec ProviderAdmin.

Module ProviderSpec.

Import Encryption ProviderAdmin.
#[local] Opaque uuid_text.

(** ** Well-formed providers *)

Section Spec.
  Context {ips : IPParser} {parser : UuidParser} {urls : URLParser}.

Definition domain_ok (d : string) : Prop :=
  d <> EmptyString /\ ToLower d = d /\ ContainsAny d (breaks ++ " @/:*") = false /\ ParseIP d = false.
Definition limit_valid (l : option Z) : Prop := forall n, l = Some n -> 1 <= n <= max_int32.

Record row_valid (p : ProviderRow) : Prop := {
  rv_name : p_name p <> EmptyString;
  rv_host : p_host p <> EmptyString /\ ContainsAny (p_host p) (breaks ++ " /@") = false;
  rv_port : 1 <= p_port p <= 65535;
  rv_username : p_username p <> EmptyString;
  rv_security : p_security p = "starttls"%string \/ p_security p = "implicit_tls"%string;
  rv_timeout : 1 <= p_timeout_seconds p <= 300;
  rv_connections : 1 <= p_max_connections p <= 32;
  rv_limits : limit_valid (p_hourly_limit p) /\ limit_valid (p_daily_limit p);
  rv_domains : p_from_domains p <> [] /\ Forall domain_ok (p_from_domains p);
  rv_revision : 1 <= p_revision p }.

(** The tables as a whole: rows are well-formed, names are unique, and a group
    a provider belongs to is there. *)
Record registry (db : DB) : Prop := {
  reg_valid : forall id p, providers db !! id = Some p -> row_valid p;
  reg_names : forall i j p q, providers db !! i = Some p -> providers db !! j = Some q -> p_name p = p_name q -> i = j;
  reg_groups : forall i j g h, provider_quota_groups db !! i = Some g -> provider_quota_groups db !! j = Some h ->
    g_name g = g_name h -> i = j;
  reg_members : forall id p g, providers db !! id = Some p -> p_quota_group_id p = Some g -> is_Some (provider_quota_groups db !! g) }.

(** ** Validation *)

Lemma canonical_domains_ok l ds : canonical_domains l = Some ds -> length ds = length l /\ Forall domain_ok ds.
Proof.
  revert ds. induction l as [|d l IH]; intros ds; simpl; [by intros [= <-]|].
  unfold canonical_domain. set (e := ToLower (TrimSpace d)). destruct (_ || _) eqn:Eb; [done|]. simpl.
  destruct (canonical_domains l) as [ds'|]; [|done]. simpl. intros [= <-]. destruct (IH ds' eq_refl) as [Hl Hall].
  simpl. rewrite Hl. split; [done|]. constructor; [|done]. rewrite !orb_false_iff in Eb. destruct Eb as [[E1 E2] E3].
  split; [by apply String.eqb_neq|]. split; [apply ToLower_idem|done].
Qed.

Lemma Validate_ok p password domains ds : Validate p password domains = Some ds ->
  pv_Name p <> EmptyString /\ (pv_Host p <> EmptyString /\ ContainsAny (pv_Host p) (breaks ++ " /@") = false) /\
  1 <= pv_Port p <= 65535 /\ pv_Username p <> EmptyString /\
  (pv_Security p = "starttls"%string \/ pv_Security p = "implicit_tls"%string) /\
  Second <= pv_Timeout p <= 5 * Minute /\ 1 <= pv_MaxConnections p <= 32 /\
  0 <= pv_HourlyLimit p <= max_int32 /\ 0 <= pv_DailyLimit p <= max_int32 /\ ds <> [] /\ Forall domain_ok ds.
Proof.
  unfold Validate. destruct (String.eqb (pv_Name p) "" || _ || _ || _ || _ || _ || _ || _ || _) eqn:E1; [done|].
  destruct (_ && negb (String.eqb (pv_Security p) "implicit_tls")) eqn:E2; [done|].
  destruct ((pv_Timeout p <? Second) || _ || _ || _) eqn:E3; [done|].
  destruct ((pv_HourlyLimit p <? 0) || _ || _ || _) eqn:E4; [done|].
  destruct (length domains =? 0)%nat eqn:E5; [done|]. intros Hd.
  apply canonical_domains_ok in Hd as [Hl Hall]. rewrite !orb_false_iff in E1. rewrite !orb_false_iff in E3. rewrite !orb_false_iff in E4. rewrite andb_false_iff, !negb_false_iff, !String.eqb_eq in E2.
  rewrite !String.eqb_neq in E1. destruct E1 as [[[[[[[[A1 A2] A3] A4] A5] A6] A7] A8] A9]. destruct E3 as [[[B1 B2] B3] B4].
  destruct E4 as [[[C1 C2] C3] C4]. apply Nat.eqb_neq in E5.
  split; [done|]. split; [done|]. split; [lia|]. split; [done|]. split; [done|]. split; [lia|]. split; [lia|]. split; [lia|]. split; [lia|].
  split; [|done]. intros ->. by rewrite <- Hl in E5.
Qed.

Lemma nullif_valid x : 0 <= x <= max_int32 -> limit_valid (nullif_zero x).
Proof. intros Hx n. unfold nullif_zero. destruct (Z.eqb_spec x 0); [done|]. intros [= <-]. lia. Qed.

Lemma checked_settings_ok s s' : checked_settings s = Some s' ->
  1 <= st_TimeoutSeconds s' <= 300 /\ s' = s <| st_FromDomains := st_FromDomains s' |> /\
  Validate (provider s) "validation-only" (st_FromDomains s) = Some (st_FromDomains s').
Proof.
  unfold checked_settings. destruct (_ || _) eqn:E; [done|]. destruct (Validate _ _ _) as [ds|] eqn:Ev; [|done]. simpl. intros [= <-].
  rewrite !orb_false_iff in E. destruct E as [[[[[[[[_ _] _] _] _] _] E1] E2] _]. simpl. split; [lia|done].
Qed.

Lemma configured_valid s s' p : checked_settings s = Some s' -> row_valid p -> row_valid (configured s' p).
Proof.
  intros Hc [_ _ _ _ _ _ _ _ _ Hrev]. apply checked_settings_ok in Hc as (Ht & Es & Hv).
  apply Validate_ok in Hv as (V1 & V2 & V3 & V4 & V5 & V6 & V7 & V8 & V9 & V10 & V11). rewrite Es. unfold configured. simpl in *.
  rewrite Es in Ht. simpl in Ht. split; simpl; try done. split; by apply nullif_valid.
Qed.

Lemma new_provider_valid s s' sealed : checked_settings s = Some s' -> row_valid (new_provider s' sealed).
Proof.
  intros Hc. apply checked_settings_ok in Hc as (Ht & Es & Hv).
  apply Validate_ok in Hv as (V1 & V2 & V3 & V4 & V5 & V6 & V7 & V8 & V9 & V10 & V11). rewrite Es. unfold new_provider. simpl in *.
  rewrite Es in Ht. simpl in Ht. split; simpl; try done. split; by apply nullif_valid.
Qed.

Lemma row_valid_same p p' : row_valid p -> 1 <= p_revision p' ->
  p' = p <| p_password_ciphertext := p_password_ciphertext p' |> <| p_nonce := p_nonce p' |>
         <| p_quota_group_id := p_quota_group_id p' |> <| p_revision := p_revision p' |> -> row_valid p'.
Proof. intros [V1 V2 V3 V4 V5 V6 V7 V8 V9 V10] Hr ->. by split. Qed.

(** ** What administration may change *)

Record administers (db db' : DB) : Prop := {
  ad_frame : exists ps gs rows, db' = db <| providers := ps |> <| provider_quota_groups := gs |> <| maintenance_audit := rows |>;
  ad_audit : maintenance_audit db ⊆ maintenance_audit db';
  ad_rows : forall id p, providers db !! id = Some p -> exists p', providers db' !! id = Some p' /\
    (p' = p \/ p_revision p < p_revision p') /\ (forall g, p_quota_group_id p = Some g -> p_quota_group_id p' = Some g);
  ad_groups : forall id g, provider_quota_groups db !! id = Some g -> exists g', provider_quota_groups db' !! id = Some g' /\
    (g' = g \/ g_revision g < g_revision g');
  ad_registry : registry db -> registry db' }.

Lemma administers_refl db : administers db db.
Proof.
  split; try done; [|eauto 6|eauto]. exists (providers db), (provider_quota_groups db), (maintenance_audit db). by destruct db.
Qed.

Lemma administers_trans a b c : administers a b -> administers b c -> administers a c.
Proof.
  intros [(ps & gs & rows & Ea) A1 A2 A3 A4] [(ps' & gs' & rows' & Eb) B1 B2 B3 B4]. split; [|by etrans| | |auto].
  - exists ps', gs', rows'. by rewrite Eb, Ea.
  - intros id p Hp. destruct (A2 id p Hp) as (q & Hq & Hr & Hg). destruct (B2 id q Hq) as (r & Hrow & Hr' & Hg').
    exists r. split; [done|]. split; [|auto]. destruct Hr as [->|Hr], Hr' as [->|Hr']; auto; right; lia.
  - intros id g Hg. destruct (A3 id g Hg) as (g1 & H1 & Hr). destruct (B3 id g1 H1) as (g2 & H2 & Hr').
    exists g2. split; [done|]. destruct Hr as [->|Hr], Hr' as [->|Hr']; auto; right; lia.
Qed.

#[local] Instance administers_preorder : PreOrder administers.
Proof. split; [exact administers_refl|exact administers_trans]. Qed.

(** Other programs do not notice. *)
Lemma administers_elsewhere db db' : administers db db' -> elsewhere db db'.
Proof.
  intros [(ps & gs & rows & ->) _ _ _ _]. split; try done.
  - intros mid m Hm. exists m. done.
  - split; [done|]. simpl. congruence.
Qed.

(** An audit entry *)
Lemma administers_audit db id a rows : insert_row id a (maintenance_audit db) = Some rows -> administers db (db <| maintenance_audit := rows |>).
Proof.
  intros H. apply insert_row_some in H as [Hn ->]. split; simpl; [|by apply insert_subseteq|eauto 6|eauto|intros [R1 R2 R3 R4]; by split].
  exists (providers db), (provider_quota_groups db), (<[id := a]> (maintenance_audit db)). by destruct db.
Qed.

(** A provider written: new, or over the row that was there *)
Lemma administers_put db id p' :
  (forall k q, providers db !! k = Some q -> k <> id -> p_name q <> p_name p') ->
  (registry db -> row_valid p') ->
  (forall g, p_quota_group_id p' = Some g -> is_Some (provider_quota_groups db !! g) \/
             exists p, providers db !! id = Some p /\ p_quota_group_id p = Some g) ->
  (forall p, providers db !! id = Some p -> p_revision p < p_revision p' /\
             forall g, p_quota_group_id p = Some g -> p_quota_group_id p' = Some g) ->
  administers db (db <| providers := <[id := p']> (providers db) |>).
Proof.
  intros Hname Hvalid Hgroup Hold. split; simpl; [|done| |eauto|].
  - exists (<[id := p']> (providers db)), (provider_quota_groups db), (maintenance_audit db). by destruct db.
  - intros k q Hq. destruct (decide (k = id)) as [->|Hne].
    + rewrite lookup_insert_eq. exists p'. split; [done|]. destruct (Hold q Hq). auto.
    + rewrite lookup_insert_ne by done. eauto.
  - intros HR. specialize (Hvalid HR). destruct HR as [R1 R2 R3 R4]. split; simpl; [| |done|].
    + intros k q. rewrite lookup_insert_Some. intros [[<- <-]|[_ Hq]]; [done|eauto].
    + intros i j q r. rewrite !lookup_insert_Some. intros [[<- <-]|[Hi Hq]] [[<- <-]|[Hj Hr]] Hn; [done| | |eauto].
      * by destruct (Hname j r Hr (not_eq_sym Hj)).
      * by destruct (Hname i q Hq (not_eq_sym Hi)).
    + intros k q g. rewrite lookup_insert_Some. intros [[<- <-]|[_ Hq]] Hg; [|eauto].
      destruct (Hgroup g Hg) as [|(p & Hp & Hpg)]; eauto.
Qed.

(** The same for a group *)
Lemma administers_group db id g' :
  (forall k q, provider_quota_groups db !! k = Some q -> k <> id -> g_name q <> g_name g') ->
  (forall g, provider_quota_groups db !! id = Some g -> g_revision g < g_revision g') ->
  administers db (db <| provider_quota_groups := <[id := g']> (provider_quota_groups db) |>).
Proof.
  intros Hname Hold. split; simpl; [|done|eauto 6| |].
  - exists (providers db), (<[id := g']> (provider_quota_groups db)), (maintenance_audit db). by destruct db.
  - intros k q Hq. destruct (decide (k = id)) as [->|Hne].
    + rewrite lookup_insert_eq. exists g'. split; [done|]. right. by apply Hold.
    + rewrite lookup_insert_ne by done. eauto.
  - intros [R1 R2 R3 R4]. split; simpl; [done|done| |].
    + intros i j q r. rewrite !lookup_insert_Some. intros [[<- <-]|[Hi Hq]] [[<- <-]|[Hj Hr]] Hn; [done| | |eauto].
      * by destruct (Hname j r Hr (not_eq_sym Hj)).
      * by destruct (Hname i q Hq (not_eq_sym Hi)).
    + intros k q g Hq Hg. destruct (decide (g = id)) as [->|Hne]; [rewrite lookup_insert_eq; eauto|].
      rewrite lookup_insert_ne by done. eauto.
Qed.

(** ** The statements *)

Lemma insert_provider_some id row db db' : insert_provider id row db = Some db' ->
  providers db !! id = None /\ (forall k q, providers db !! k = Some q -> p_name q <> p_name row) /\
  db' = db <| providers := <[id := row]> (providers db) |>.
Proof.
  unfold insert_provider. destruct (exists_row _ _) eqn:E; [done|]. destruct (insert_row _ _ _) as [rows|] eqn:Ei; [|done]. simpl.
  intros [= <-]. apply insert_row_some in Ei as [Hn ->]. split; [done|]. split; [|done]. intros k q Hq.
  pose proof (exists_row_false _ _ _ _ E Hq) as Hk. by apply String.eqb_neq in Hk.
Qed.

Lemma update_provider_some id f db rev db' : update_provider id f db = Some (rev, db') ->
  exists p, providers db !! id = Some p /\ rev = p_revision p + 1 /\
    (forall k q, providers db !! k = Some q -> k <> id -> p_name q <> p_name ((f p) <| p_revision := rev |>)) /\
    db' = db <| providers := <[id := (f p) <| p_revision := rev |>]> (providers db) |>.
Proof.
  unfold update_provider. destruct (providers db !! id) as [p|] eqn:Hp; [|done]. cbn [mbind option_bind]. cbv zeta.
  destruct (exists_row _ _) eqn:E; [done|]. intros [= <- <-]. exists p. do 2 (split; [done|]). split; [|done].
  intros k q Hq Hne. pose proof (exists_row_false _ _ _ _ E Hq) as Hk. apply andb_false_iff in Hk as [Hk|Hk].
  - by rewrite negb_false_iff, N.eqb_eq in Hk.
  - by apply String.eqb_neq in Hk.
Qed.

Lemma insert_administers id row db db' : row_valid row -> p_quota_group_id row = None ->
  insert_provider id row db = Some db' -> administers db db'.
Proof.
  intros Hv Hg H. apply insert_provider_some in H as (Hn & Hname & ->). apply administers_put; [eauto|done| |]; congruence.
Qed.

Lemma update_administers id f db rev db' :
  (forall p, row_valid p -> row_valid ((f p) <| p_revision := p_revision p + 1 |>)) ->
  (forall p g, providers db !! id = Some p -> p_quota_group_id (f p) = Some g ->
     is_Some (provider_quota_groups db !! g) \/ p_quota_group_id p = Some g) ->
  (forall p g, providers db !! id = Some p -> p_quota_group_id p = Some g -> p_quota_group_id (f p) = Some g) ->
  update_provider id f db = Some (rev, db') -> administers db db'.
Proof.
  intros Hv Hin Hkeep H. apply update_provider_some in H as (p & Hp & -> & Hname & ->). apply administers_put; simpl.
  - done.
  - intros [R1 _ _ _]. apply Hv. eauto.
  - intros g Hg. destruct (Hin p g Hp Hg); eauto.
  - intros q Hq. assert (q = p) as -> by congruence. split; [lia|]. eauto.
Qed.

Lemma quotaAudit_run ac actor data w k db u k' db' : quotaAudit ac actor data w (k, db) = inr (u, (k', db')) ->
  exists id, maintenance_audit db !! id = None /\
    db' = db <| maintenance_audit := <[id := MkAudit ac actor data]> (maintenance_audit db) |>.
Proof.
  intros H. apply run_bind in H as (id & k1 & d1 & H1 & H2). apply run_fresh in H1 as ->. apply run_stmt in H2 as [t H2].
  destruct (insert_row _ _ _) as [rows|] eqn:E; [|done]. injection H2 as _ <-. apply insert_row_some in E as [Hn ->]. eauto.
Qed.

Lemma audited ac actor data w k db u k' db' : quotaAudit ac actor data w (k, db) = inr (u, (k', db')) -> administers db db'.
Proof.
  intros H. apply quotaAudit_run in H as (id & Hn & ->). apply (administers_audit _ id (MkAudit ac actor data)). unfold insert_row. by rewrite Hn.
Qed.

(** ** [Manage] *)

(** The row an action leaves, from the one it found *)
Definition managed_row (a : Action) (s : Settings) (sealed : list byte * list byte) (p : ProviderRow) : ProviderRow :=
  match a with
  | create => new_provider s sealed
  | configure => configured s p
  | credentials => p <| p_password_ciphertext := fst sealed |> <| p_nonce := snd sealed |>
  end.

Definition manage_entry (a : Action) (id : string) (expected rev : Z) (s : Settings) (actor reason : string) : Audit :=
  MkAudit (action_name a) actor
    (JObj (app [("expected_revision", JNum expected); ("provider_id", JStr id); ("reason", JStr reason); ("revision", JNum rev)]
             (if writes_settings a then [("settings", settings_json s)] else []))%string).

(** Exactly what a successful change writes *)
Definition managed (a : Action) (id : string) (u : UUID) (expected : Z) (s : Settings) (sealed : list byte * list byte)
    (actor reason : string) (db : DB) (rev : Z) (db' : DB) : Prop :=
  exists p' aid,
    match a with
    | create => providers db !! u = None /\ rev = 1 /\ p' = new_provider s sealed
    | _ => exists p, providers db !! u = Some p /\ p_revision p = expected /\ rev = expected + 1 /\
             p' = (managed_row a s sealed p) <| p_revision := rev |>
    end /\
    (forall k q, providers db !! k = Some q -> k <> u -> p_name q <> p_name p') /\
    maintenance_audit db !! aid = None /\
    db' = db <| providers := <[u := p']> (providers db) |>
             <| maintenance_audit := <[aid := manage_entry a id expected rev s actor reason]> (maintenance_audit db) |>.

Lemma manage_tx_run a id u expected s sealed actor reason w k db e k' db' :
  manage_tx a id u expected s sealed actor reason w (k, db) = inr (e, (k', db')) ->
  exists rev, e = Commit (inr rev) /\ managed a id u expected s sealed actor reason db rev db'.
Proof.
  intros H. apply run_bind in H as (rev & k1 & d1 & H1 & H). apply run_bind in H as ([] & k2 & d2 & H2 & H).
  apply run_ret in H as [-> ->]. exists rev. split; [done|]. apply quotaAudit_run in H2 as (aid & Hn & ->).
  assert (Hd : exists p', d1 = db <| providers := <[u := p']> (providers db) |> /\
    (forall k q, providers db !! k = Some q -> k <> u -> p_name q <> p_name p') /\
    match a with
    | create => providers db !! u = None /\ rev = 1 /\ p' = new_provider s sealed
    | _ => exists p, providers db !! u = Some p /\ p_revision p = expected /\ rev = expected + 1 /\
             p' = (managed_row a s sealed p) <| p_revision := rev |>
    end).
  { destruct a.
    1: apply run_stmt in H1 as [t H1]; destruct (insert_provider _ _ _) as [d|] eqn:E; [|done]; injection H1 as <- <-;
       apply insert_provider_some in E as (Hnone & Hname & ->); exists (new_provider s sealed); split; [done|]; split; [eauto|done].
    all: apply run_bind in H1 as (r & k3 & d3 & H3 & H1); apply run_row in H3 as [-> [t H3]];
      apply run_bind in H1 as ([] & k4 & d4 & H4 & H1); apply run_guard in H4 as [Hr ->]; apply Z.eqb_eq in Hr as ->;
      apply run_stmt in H1 as [t' H1]; apply update_provider_some in H1 as (p & Hp & -> & Hname & ->);
      rewrite Hp in H3; injection H3 as <-; eexists; (split; [reflexivity|]); (split; [exact Hname|]); exists p; (split; [exact Hp|]); (split; [reflexivity|]); split; reflexivity. }
  destruct Hd as (p' & -> & Hname & Hcase). exists p', aid. eauto.
Qed.

(** What was checked before the transaction, and what was sealed *)
Definition vetted (box : option Box) (rand : option (list byte)) (action id : string) (s : Settings) (password actor reason : string)
    (a : Action) (u : UUID) (s' : Settings) (sealed : list byte * list byte) : Prop :=
  action_of action = Some a /\ provider_id id = Some u /\ signed_by actor reason = true /\
  (if writes_settings a then checked_settings s = Some s' else s' = s) /\
  (writes_password a = true -> password_ok password = true /\ exists b, box = Some b /\ Seal b rand id password = Some sealed).

Lemma Manage_run box rand action id expected s password actor reason w k db e k' db' :
  Manage box rand action id expected s password actor reason w (k, db) = inr (e, (k', db')) ->
  exists a u s' sealed rev, e = Commit (inr rev) /\ vetted box rand action id s password actor reason a u s' sealed /\
    managed a id u expected s' sealed actor reason db rev db'.
Proof.
  unfold Manage. destruct (provider_id id) as [u|] eqn:Eu; [|done]. destruct (signed_by actor reason) eqn:Es; [|done]. cbn [negb].
  destruct (action_of action) as [a|] eqn:Ea; [|done]. destruct (_ && (expected <? 1)); [done|].
  destruct (if writes_settings a then checked_settings s else Some s) as [s'|] eqn:Ec; [|done].
  assert (Hset : if writes_settings a then checked_settings s = Some s' else s' = s) by (destruct (writes_settings a); congruence).
  destruct (writes_password a) eqn:Ew.
  - destruct box as [b|]; [|done]. destruct (password_ok password) eqn:Ep; [|done]. cbn [negb].
    destruct (Seal b rand id password) as [sealed|] eqn:Eseal; [|done]. intros H. apply manage_tx_run in H as (rev & -> & Hm).
    exists a, u, s', sealed, rev. split; [done|]. split; [|done]. do 4 (split; [done|]). eauto.
  - intros H. apply manage_tx_run in H as (rev & -> & Hm). exists a, u, s', ([], []), rev. split; [done|]. split; [|done].
    do 4 (split; [done|]). congruence.
Qed.

Lemma managed_administers a id u expected s s' sealed actor reason db rev db' :
  (if writes_settings a then checked_settings s = Some s' else s' = s) ->
  managed a id u expected s' sealed actor reason db rev db' -> administers db db'.
Proof.
  intros Hs (p' & aid & Hcase & Hname & Hn & ->).
  apply (administers_trans _ (db <| providers := <[u := p']> (providers db) |>)).
  - destruct a; simpl in Hs.
    + destruct Hcase as (Hnone & _ & ->). apply administers_put; [done| |done|congruence]. intros _. by eapply new_provider_valid.
    + destruct Hcase as (p & Hp & <- & -> & ->). apply administers_put; simpl; [done| |eauto|].
      * intros [R1 _ _ _]. specialize (R1 _ _ Hp). apply (row_valid_same (configured s' p)); simpl; [by eapply configured_valid| |done].
        destruct R1. lia.
      * intros q Hq. assert (q = p) as -> by congruence. split; [lia|done].
    + destruct Hcase as (p & Hp & <- & -> & ->). apply administers_put; simpl; [done| |eauto|].
      * intros [R1 _ _ _]. specialize (R1 _ _ Hp). apply (row_valid_same p); simpl; [done| |done]. destruct R1. lia.
      * intros q Hq. assert (q = p) as -> by congruence. split; [lia|done].
  - apply (administers_audit (db <| providers := <[u := p']> (providers db) |>) aid (manage_entry a id expected rev s' actor reason)).
    unfold insert_row. simpl. by rewrite Hn.
Qed.

Definition administered {A} (body : M (TxEnd A)) : Prop := forall w db r db', transact w body db = (r, db') -> administers db db'.

(** A body that ends in a commit of what it administered *)
Lemma administered_body {A} (body : M (TxEnd A)) :
  (forall w k db e k' db', body w (k, db) = inr (e, (k', db')) -> (exists a, e = Commit (inr a)) /\ administers db db') ->
  administered body.
Proof.
  intros Hb w db r db' Hrun. destruct (transact_cases (administers db) w body db r db') as [|[-> _]]; try done.
  intros e k d. apply Hb.
Qed.

Lemma Manage_administered box rand action id expected s password actor reason :
  administered (Manage box rand action id expected s password actor reason).
Proof.
  apply administered_body. intros w k db e k' db' H. apply Manage_run in H as (a & u & s' & sealed & rev & -> & Hv & Hm).
  destruct Hv as (_ & _ & _ & Hs & _). split; [eauto|]. by eapply managed_administers.
Qed.

Lemma created_valid p password domains ds ciphertext nonce : Validate p password domains = Some ds ->
  row_valid (MkProviderRow (pv_Name p) true (pv_Host p) (pv_Port p) (pv_Security p) (pv_Username p) ciphertext nonce
    (pv_Priority p) (nullif_zero (pv_HourlyLimit p)) (nullif_zero (pv_DailyLimit p)) (pv_MaxConnections p)
    (pv_Timeout p / Second) ds true None 1).
Proof.
  intros Hv. apply Validate_ok in Hv as (V1 & V2 & V3 & V4 & V5 & V6 & V7 & V8 & V9 & V10 & V11). split; simpl; try done.
  - split; [apply Z.div_le_lower_bound|apply Z.div_le_upper_bound]; unfold Minute, Second in *; lia.
  - split; by apply nullif_valid.
Qed.

Lemma Create_administered b rand p password domains : administered (Create b rand p password domains).
Proof.
  apply administered_body. intros w k db e k' db'. unfold Create. destruct (Validate p password domains) as [ds|] eqn:Ev; [|done].
  intros H. apply run_bind in H as (id & k1 & d1 & H1 & H). apply run_fresh in H1 as ->.
  destruct (Seal _ _ _ _) as [[ct nonce]|]; [|done]. apply run_bind in H as ([] & k2 & d2 & H2 & H). apply run_ret in H as [-> ->].
  split; [eauto|]. apply run_stmt in H2 as [t H2]. destruct (insert_provider _ _ _) as [d|] eqn:E; [|done]. injection H2 as <-.
  eapply insert_administers; [| |exact E]; [|reflexivity]. by eapply created_valid.
Qed.

Lemma name_taken_false id name db k g : name_taken id name db = false ->
  provider_quota_groups db !! k = Some g -> k <> id -> g_name g <> name.
Proof.
  intros E Hg Hne. pose proof (exists_row_false _ _ _ _ E Hg) as Hk. apply andb_false_iff in Hk as [Hk|Hk].
  - by rewrite negb_false_iff, N.eqb_eq in Hk.
  - by apply String.eqb_neq in Hk.
Qed.

Lemma ManageQuotaGroup_administered make id expected s actor reason : administered (ManageQuotaGroup make id expected s actor reason).
Proof.
  apply administered_body. intros w k db e k' db'. unfold ManageQuotaGroup. destruct (validQuotaID id) as [gid|]; [|done].
  destruct (_ || _); [done|]. intros H. apply run_bind in H as (rev & k1 & d1 & H1 & H).
  apply run_bind in H as ([] & k2 & d2 & H2 & H). apply run_ret in H as [-> ->]. split; [eauto|]. apply audited in H2.
  apply (administers_trans _ d1); [|done]. clear H2. destruct make.
  - apply run_stmt in H1 as [t H1]. destruct (name_taken _ _ _) eqn:En; [done|].
    destruct (insert_row _ _ _) as [rows|] eqn:E; [|done]. injection H1 as _ <-. apply insert_row_some in E as [Hn ->].
    apply administers_group; [intros; by eapply name_taken_false|congruence].
  - apply run_bind in H1 as (r & k3 & d3 & H3 & H1). apply run_row in H3 as [-> [t H3]].
    apply run_bind in H1 as ([] & k4 & d4 & H4 & H1). apply run_guard in H4 as [_ ->]. apply run_stmt in H1 as [t' H1].
    destruct (provider_quota_groups db !! gid) as [g|] eqn:Eg; [|done]. cbn [mbind option_bind] in H1.
    destruct (name_taken _ _ _) eqn:En; [done|]. injection H1 as _ <-.
    apply administers_group; simpl; [intros; by eapply name_taken_false|]. intros q Hq. assert (q = g) as -> by congruence. lia.
Qed.

Lemma AttachQuotaGroup_administered pid gid expected actor reason : administered (AttachQuotaGroup pid gid expected actor reason).
Proof.
  apply administered_body. intros w k db e k' db'. unfold AttachQuotaGroup. destruct (validQuotaID pid) as [p|]; [|done].
  destruct (validQuotaID gid) as [g|]; [|done]. destruct (_ || _); [done|]. intros H.
  apply run_bind in H as ([rev0 old] & k1 & d1 & H1 & H). apply run_row in H1 as [-> [t H1]].
  apply run_bind in H as ([] & k2 & d2 & H2 & H). apply run_guard in H2 as [Hc ->].
  apply run_bind in H as (grp & k3 & d3 & H3 & H). apply run_row in H3 as [-> [t3 H3]].
  apply run_bind in H as (rev & k4 & d4 & H4 & H). apply run_bind in H as ([] & k5 & d5 & H5 & H). apply run_ret in H as [-> ->].
  split; [eauto|]. apply audited in H5. apply (administers_trans _ d4); [|done]. clear H5. apply run_stmt in H4 as [t4 H4].
  apply andb_true_iff in Hc as [_ Hnull]. simpl in Hnull.
  eapply update_administers; [| | |exact H4]; simpl.
  - intros r Hr. apply (row_valid_same r); simpl; [done| |done]. destruct Hr. lia.
  - intros r g' _ [= <-]. left. eauto.
  - intros r g' Hr Hg'. rewrite Hr in H1. injection H1 as _ <-. by rewrite Hg' in Hnull.
Qed.

Lemma RecordEvidence_administered now id expected ev actor reason : administered (RecordEvidence now id expected ev actor reason).
Proof.
  apply administered_body. intros w k db e k' db'. unfold RecordEvidence. destruct (validQuotaID id) as [pid|]; [|done].
  destruct (_ || _); [done|]. intros H. apply run_bind in H as (rev & k1 & d1 & H1 & H). apply run_row in H1 as [-> [t H1]].
  apply run_bind in H as ([] & k2 & d2 & H2 & H). apply run_guard in H2 as [_ ->].
  apply run_bind in H as ([] & k3 & d3 & H3 & H). apply run_ret in H as [-> ->]. split; [eauto|]. by apply audited in H3.
Qed.

(** A rotation re-seals rows that are there. *)
Lemma rotated_same b id p p' : rotated b id p p' ->
  p_name p' = p_name p /\ p_quota_group_id p' = p_quota_group_id p /\ (p' = p \/ p_revision p' = p_revision p + 1) /\
  (row_valid p -> row_valid p').
Proof.
  intros (password & _ & _ & _ & Hr & E). rewrite E. do 2 (split; [done|]). rewrite <- E. split; [done|]. intros Hv.
  destruct Hr as [->|Hr]; [done|]. apply (row_valid_same p); [done|destruct Hv; lia|]. rewrite E at 1. f_equal. by rewrite E.
Qed.

Lemma rotation_administers b db db' : all_rotated b db db' -> maintenance_audit db ⊆ maintenance_audit db' -> administers db db'.
Proof.
  intros [(ps & rows & ->) Hall] Haudit. simpl in *.
  assert (Hback : forall id p', ps !! id = Some p' -> exists p, providers db !! id = Some p /\ rotated b id p p').
  { intros id p' Hp'. specialize (Hall id). destruct (providers db !! id) as [p|]; [|congruence].
    destruct Hall as (q & Hq & Hrot). assert (q = p') as -> by congruence. eauto. }
  split; simpl; [|done| |eauto|].
  - exists ps, (provider_quota_groups db), rows. by destruct db.
  - intros id p Hp. specialize (Hall id). rewrite Hp in Hall. destruct Hall as (p' & Hp' & Hrot). exists p'. split; [done|].
    apply rotated_same in Hrot as (_ & Hg & Hr & _). split; [destruct Hr; [by left|right; lia]|]. intros g Hpg. by rewrite Hg.
  - intros [R1 R2 R3 R4]. split; simpl; [| |done|].
    + intros id p' Hp'. destruct (Hback id p' Hp') as (p & Hp & Hrot). apply rotated_same in Hrot as (_ & _ & _ & Hv). eauto.
    + intros i j p' q' Hi Hj Hn. destruct (Hback i p' Hi) as (p & Hp & Hp1). destruct (Hback j q' Hj) as (q & Hq & Hq1).
      apply rotated_same in Hp1 as (Np & _). apply rotated_same in Hq1 as (Nq & _). apply (R2 i j p q); congruence.
    + intros id p' g Hp' Hg. destruct (Hback id p' Hp') as (p & Hp & Hrot). apply rotated_same in Hrot as (_ & Eg & _).
      apply (R4 id p); congruence.
Qed.

Definition audit_grows (db db' : DB) : Prop := maintenance_audit db ⊆ maintenance_audit db'.

Lemma audit_grows_refl db : audit_grows db db.
Proof. unfold audit_grows. done. Qed.
Lemma audit_grows_trans a b c : audit_grows a b -> audit_grows b c -> audit_grows a c.
Proof. unfold audit_grows. apply transitivity. Qed.

Lemma rotate_records_audit b rand ap records report : respects audit_grows (rotate_records b rand ap records report).
Proof.
  assert (Hor : forall A (o : option A), respects audit_grows (or_fail o))
    by (intros A [a|]; [by apply respects_ret|apply respects_raise]).
  revert report. induction records as [|[id r] rest IH]; intros report; cbn [rotate_records]; [by apply respects_ret|].
  apply respects_bind; [apply Hor|]. intros v. apply respects_bind; [apply Hor|]. intros plain. cbv zeta.
  destruct (String.eqb _ _); [apply IH|]. apply respects_bind; [|intros _; apply IH].
  destruct ap; [|by apply respects_ret]. apply respects_bind; [apply Hor|]. intros [ct env].
  apply (respects_exec _ audit_grows_trans). intros t db. unfold audit_grows. done.
Qed.

Lemma rotation_audit b rand actor reason ap noRuntime : respects audit_grows (RotateProviders b rand actor reason ap noRuntime).
Proof.
  pose proof audit_grows_refl as Hr.
  unfold RotateProviders. destruct (rotation_refused b actor reason); [apply respects_raise|].
  destruct (negb noRuntime); [apply respects_raise|]. apply respects_bind; [by apply respects_query|]. intros records.
  apply respects_bind; [destruct (_ <? _); [apply respects_raise|by apply respects_ret]|]. intros _.
  apply respects_bind; [apply rotate_records_audit|]. intros report. destruct (negb ap); [by apply respects_ret|]. apply respects_bind; [apply respects_fresh|]. intros id.
  apply respects_bind; [|intros _; by apply respects_ret]. apply (respects_stmt _ audit_grows_trans). intros t db [] db' H.
  destruct (insert_row _ _ _) as [rows|] eqn:E; [|done]. injection H as <-. apply insert_row_some in E as [Hn ->].
  by apply insert_subseteq.
Qed.

(** ** Sequences of operations *)

(** One operation, whatever becomes of it.  The key ring of a rotation was
    accepted by [NewRing] and the nonces are random and 12 bytes long. *)
Inductive provider_op (db db' : DB) : Prop :=
| op_create w b rand p password domains r : transact w (Create b rand p password domains) db = (r, db') -> provider_op db db'
| op_manage w box rand action id expected s password actor reason r :
    transact w (Manage box rand action id expected s password actor reason) db = (r, db') -> provider_op db db'
| op_group w make id expected s actor reason r :
    transact w (ManageQuotaGroup make id expected s actor reason) db = (r, db') -> provider_op db db'
| op_attach w pid gid expected actor reason r :
    transact w (AttachQuotaGroup pid gid expected actor reason) db = (r, db') -> provider_op db db'
| op_evidence w now id expected e actor reason r :
    transact w (RecordEvidence now id expected e actor reason) db = (r, db') -> provider_op db db'
| op_rotate w act ks b rand actor reason ap noRuntime r :
    NewRing act ks = Some b -> (forall id nonce, rand id = Some nonce -> length nonce = 12%nat) ->
    transact w (RotateProviders b rand actor reason ap noRuntime) db = (r, db') -> provider_op db db'.

Lemma op_administers db db' : provider_op db db' -> administers db db'.
Proof.
  intros [w b rand p password domains r H|w box rand action id expected s password actor reason r H|w make id expected s actor reason r H
         |w pid gid expected actor reason r H|w now id expected e actor reason r H|w act ks b rand actor reason ap noRuntime r Hring Hrand H].
  - by eapply Create_administered.
  - by eapply Manage_administered.
  - by eapply ManageQuotaGroup_administered.
  - by eapply AttachQuotaGroup_administered.
  - by eapply RecordEvidence_administered.
  - destruct ap.
    + pose proof (respects_transact audit_grows audit_grows_refl _ _ _ _ _ (rotation_audit b rand actor reason true noRuntime) H) as Ha.
      apply NewRing_well_formed in Hring. eapply Rotate_outcome in H as [->|H]; [done| |done|done]. by eapply rotation_administers.
    + pose proof (Rotate_dry w b rand actor reason noRuntime db) as Hd. rewrite H in Hd. simpl in Hd. by subst.
Qed.

(** C16. Providers stay well-formed.  Any sequence of provider operations
    (creation, configuration, new credentials, quota groups, evidence, key
    rotation), committed or not, leaves every table but the providers, their
    groups and the audit alone, so that for the delivery system it is a step of
    another program.  A provider or group never disappears, a row that changes
    has a larger revision, a provider keeps the quota group it joined, the
    audit only grows; and the tables stay well-formed: ports, timeouts,
    connections and limits in range, TLS required, sender domains canonical
    and present, names unique, groups of members present. *)
Theorem provider_administration db db' ws : rtc provider_op db db' ->
  administers db db' /\ (registry db -> registry db') /\ step (MkState db ws) (MkState db' ws).
Proof.
  intros Hrun. assert (Ha : administers db db').
  { induction Hrun as [|a b c H _ IH]; [done|]. etrans; [by apply op_administers|done]. }
  split; [done|]. split; [apply Ha|]. by apply step_elsewhere, administers_elsewhere.
Qed.

(** A change is fenced by its revision.  A request to create, configure or
    re-credential a provider either fails and changes nothing, or writes
    exactly one provider row and one audit entry: the row has the checked
    settings or the sealed password and nothing else new, an update found the
    revision the operator expected and leaves the next one, and a creation
    found the identifier unused.  The audit entry is a function of the
    request without its password, and the stored credential opens to that
    password under the text the request named the provider with.  After an
    update, a second one that expects the same revision changes nothing. *)
Theorem manage_fenced w box rand action id expected s password actor reason db r db' :
  transact w (Manage box rand action id expected s password actor reason) db = (r, db') ->
  (db' = db /\ exists e, r = inl e) \/
  exists a u s' sealed rev,
    (r = inr rev \/ exists e, r = inl e) /\ vetted box rand action id s password actor reason a u s' sealed /\
    managed a id u expected s' sealed actor reason db rev db' /\
    (forall b act ks nonce, box = Some b -> NewRing act ks = Some b -> rand = Some nonce -> length nonce = 12%nat ->
       writes_password a = true -> Open b id (fst sealed) (snd sealed) = Some password) /\
    (a <> create -> forall w2 box2 rand2 action2 id2 s2 password2 actor2 reason2 r2 db2,
       provider_id id2 = Some u -> action_of action2 <> Some create ->
       transact w2 (Manage box2 rand2 action2 id2 expected s2 password2 actor2 reason2) db' = (r2, db2) ->
       db2 = db' /\ exists e, r2 = inl e).
Proof.
  intros Hrun. unfold transact in Hrun.
  destruct (Manage box rand action id expected s password actor reason w (0%nat, db)) as [e|[e [k d]]] eqn:E;
    [injection Hrun as <- <-; eauto|].
  apply Manage_run in E as (a & u & s' & sealed & rev & -> & Hv & Hm).
  assert (Hr : (db' = db /\ exists e, r = inl e) \/ (db' = d /\ (r = inr rev \/ exists e, r = inl e)))
    by (destruct (w_commit w); injection Hrun as <- <-; eauto 6).
  destruct Hr as [|[-> Hr]]; [by left|]. right. exists a, u, s', sealed, rev. do 3 (split; [done|]). split.
  - intros b act ks nonce -> Hring -> Hn Hw. destruct Hv as (_ & _ & _ & _ & Hp). destruct (Hp Hw) as (_ & b' & [= <-] & Hs).
    destruct (Open_sealed b b nonce id password (NewRing_well_formed _ _ _ Hring) Hn eq_refl) as (ct & env & H1 & _ & H2).
    rewrite H1 in Hs. by injection Hs as <-.
  - intros Hnc w2 box2 rand2 action2 id2 s2 password2 actor2 reason2 r2 db2 Hid Hact Hrun2.
    eapply (transact_cases (fun _ => False)) in Hrun2 as [[]|Hsame]; [done|].
    intros e2 k2 d2 H2. apply Manage_run in H2 as (a2 & u2 & s2' & sealed2 & rev2 & -> & (Ha2 & Hu2 & _) & Hm2).
    exfalso. assert (u2 = u) as -> by congruence. destruct Hm as (p' & aid & Hcase & _ & _ & ->).
    destruct Hm2 as (p2 & aid2 & Hcase2 & _). simpl in Hcase2. rewrite lookup_insert_eq in Hcase2.
    destruct a; [done| |]; destruct Hcase as (p & _ & _ & -> & ->);
      (destruct a2; [done| |]; destruct Hcase2 as (q & [= <-] & Hq & _); simpl in Hq; lia).
Qed.

End Spec.

(** ** A provider created, put into a group, and configured *)

Definition no_ips : IPParser := fun _ => false.
Definition folding_parser : UuidParser := fun s => ArchiveSpec.ArchiveSpec.canonical_parser (ToLower s).
Definition no_urls : URLParser := fun _ => None.

Definition empty_registry : DB := demo_providers <| providers := ∅ |>.
Definition desk_settings : Settings :=
  MkSettings "main" "smtp.example" 465 "implicit_tls" "user" 0 4 30 100 0 [" Example.COM"%string] true.
Definition desk_tx (n : N) : World :=
  MkWorld 0 (fun _ => 0) (fun _ => 0) (fun k => (1000 * n + N.of_nat k)%N) (fun _ => false) (fun _ _ => false) (fun _ _ => false) Z.of_N (fun _ => "{}"%string) (fun _ => EmptyString) Committed.

Definition desk_manage n action id expected db :=
  transact (desk_tx n) (Manage (ips := no_ips) (parser := folding_parser) (Some demo_box) (Some demo_nonce) action id expected desk_settings
    "secret" "ops" "setup") db.
Definition desk_created := desk_manage 1 "create" (uuid_text 10) 0 empty_registry.
Definition desk_grouped := transact (desk_tx 2) (ManageQuotaGroup (parser := folding_parser) true (uuid_text 20) 0
  (MkQuotaGroupSettings "shared" 50 0) "ops" "setup") (snd desk_created).
Definition desk_attached := transact (desk_tx 3) (AttachQuotaGroup (parser := folding_parser) (uuid_text 10) (uuid_text 20) 1 "ops" "setup")
  (snd desk_grouped).
Definition desk_configured := desk_manage 4 "configure" (uuid_text 10) 2 (snd desk_attached).

Example desk_outcomes :
  fst desk_created = inr 1 /\ fst desk_grouped = inr 1 /\ fst desk_attached = inr 2 /\ fst desk_configured = inr 3 /\
  fst (desk_manage 5 "credentials" (uuid_text 10) 2 (snd desk_configured)) = inl ErrConflict /\
  option_map p_from_domains (providers (snd desk_configured) !! 10%N) = Some ["example.com"%string] /\
  option_map p_quota_group_id (providers (snd desk_configured) !! 10%N) = Some (Some 20%N).
Proof. vm_compute. done. Qed.

Lemma empty_registry_ok : registry (ips := no_ips) empty_registry.
Proof. split; simpl; intros *; by rewrite lookup_empty. Qed.

Lemma provider_administration_witness : registry (ips := no_ips) (snd desk_configured).
Proof.
  refine (proj1 (proj2 (provider_administration (ips := no_ips) (parser := folding_parser) (urls := no_urls)
    empty_registry (snd desk_configured) ∅ _)) empty_registry_ok).
  eapply rtc_l; [eapply op_manage; unfold desk_created, desk_manage; apply surjective_pairing|].
  eapply rtc_l; [eapply op_group; unfold desk_grouped; apply surjective_pairing|].
  eapply rtc_l; [eapply op_attach; unfold desk_attached; apply surjective_pairing|].
  eapply rtc_l; [eapply op_manage; unfold desk_configured, desk_manage; apply surjective_pairing|apply rtc_refl].
Defined.

Lemma manage_fenced_witness :
  snd (desk_manage 5 "credentials" (uuid_text 10) 2 (snd desk_configured)) = snd desk_configured.
Proof.
  pose proof (proj1 (proj2 (proj2 (proj2 desk_outcomes)))) as Hok.
  destruct (manage_fenced (ips := no_ips) (parser := folding_parser) (desk_tx 4) (Some demo_box) (Some demo_nonce) "configure" (uuid_text 10) 2
    desk_settings "secret" "ops" "setup" (snd desk_attached) (fst desk_configured) (snd desk_configured))
    as [[_ [e He]]|(a & u & s' & sealed & rev & _ & (Ha & Hu & _) & _ & _ & Hfence)].
  - unfold desk_configured, desk_manage. apply surjective_pairing.
  - rewrite Hok in He. discriminate He.
  - refine (proj1 (Hfence _ (desk_tx 5) (Some demo_box) (Some demo_nonce) "credentials"%string (uuid_text 10) desk_settings "secret"%string
      "ops"%string "setup"%string (fst (desk_manage 5 "credentials" (uuid_text 10) 2 (snd desk_configured))) _ Hu _ _)).
    + intros ->. discriminate Ha.
    + discriminate.
    + unfold desk_manage. apply surjective_pairing.
Defined.

(** ** A defect *)

(** [Manage] takes an identifier in any case and seals the password for the
    text it was given, but the worker and the rotation open it for the text the
    database gives back, which is lower case.  A provider created with an
    upper-case identifier is accepted, its credential does not open, and no
    rotation succeeds from then on. *)
Theorem uppercase_credential_lost :
  let id := "00000000-0000-0000-0000-00000000000A"%string in
  let (r, db) := desk_manage 1 "create" id 0 empty_registry in
  let opened text := option_map (fun p => Open demo_box text (p_password_ciphertext p) (p_nonce p)) (providers db !! 10%N) in
  r = inr 1 /\ opened id = Some (Some "secret"%string) /\ opened (uuid_text 10) = Some None /\
  fst (transact demo_tx (RotateProviders demo_box (fun _ => Some demo_nonce) "ops" "yearly" true true) db) = inl fail.
Proof. vm_compute. done. Qed.

End ProviderSpec.
