(* ===== verification/JsonTokens.v ===== *)
(** * JSON read token by token

    [uniqueJSON] of [internal/api/admin.go] and the decoders of
    [send_json.go], [send_templates.go] and [send_attachments.go] read requests
    with [json.Decoder.Token] and [More], so as to refuse duplicate keys before
    anything is decoded.

    A [Decoder] is what is left of the text as tokens, and whether the text
    ends there or goes on with something that is not JSON.  [Token] skips
    commas and colons; it fails at what is not JSON, and at the end.  [More] is
    false before a closing delimiter.  Which tokens a text has is
    [encoding/json]'s, an argument; so is [strings.ToLower], which knows more
    letters than ASCII. *)

From S2P Require Import Prelude GoText.

Module JsonTokens.

Inductive Tok := TDelim (c : ascii) | TStr (s : string) | TScalar.

Record Decoder := MkDecoder { d_left : list Tok; d_eof : bool }.

(** [json.NewDecoder] of a text *)
Class Tokenizer := NewDecoder : list byte -> Decoder.
Class LowerCase := lower_case : string -> string.

Definition Token (d : Decoder) : option (Tok * Decoder) :=
  match d_left d with [] => None | t :: rest => Some (t, MkDecoder rest (d_eof d)) end.
(** [Token] answers [io.EOF] *)
Definition at_eof (d : Decoder) : bool := match d_left d with [] => d_eof d | _ => false end.

Definition closing (t : Tok) : bool := match t with TDelim c => Ascii.eqb c "]" || Ascii.eqb c "}" | _ => false end.
Definition More (d : Decoder) : bool := match d_left d with [] => false | t :: _ => negb (closing t) end.

(** The closing delimiter that ends a loop over [More] *)
Definition close (c : ascii) (d : Decoder) : option Decoder :=
  match Token d with
  | Some (TDelim x, d) => if Ascii.eqb x c then Some d else None
  | _ => None
  end.

(** ** [uniqueJSON] *)

Section Unique.
  Context {lower : LowerCase}.

(** The closure [value] and its two loops; one unit of fuel per token *)
Fixpoint value (fuel depth : nat) (d : Decoder) : option Decoder :=
  match fuel with
  | O => None
  | S k =>
      if (16 <? depth)%nat then None
      else match Token d with
      | None => None
      | Some (TDelim c, d) =>
          if Ascii.eqb c "{" then members k depth [] d
          else if Ascii.eqb c "[" then items k depth d
          else None
      | Some (_, d) => Some d
      end
  end
with members (fuel depth : nat) (seen : list string) (d : Decoder) : option Decoder :=
  match fuel with
  | O => None
  | S k =>
      if More d then
        match Token d with
        | Some (TStr key, d) =>
            if existsb (String.eqb (lower_case key)) seen then None
            else d ← value k (S depth) d; members k depth (lower_case key :: seen) d
        | _ => None
        end
      else close "}" d
  end
with items (fuel depth : nat) (d : Decoder) : option Decoder :=
  match fuel with
  | O => None
  | S k => if More d then d ← value k (S depth) d; items k depth d else close "]" d
  end.

Definition uniqueJSON (d : Decoder) : bool :=
  match value (2 * S (length (d_left d))) 0 d with
  | Some d => at_eof d
  | None => false
  end.

End Unique.

(** ** The documents behind the tokens *)

Inductive tree := Text (s : string) | Scalar | Object (fields : list (string * tree)) | Array (elements : list tree).

Fixpoint flatten (v : tree) : list Tok :=
  match v with
  | Text s => [TStr s]
  | Scalar => [TScalar]
  | Object fields =>
      TDelim "{" :: (fix go l := match l with [] => [TDelim "}"] | (k, x) :: rest => TStr k :: flatten x ++ go rest end) fields
  | Array elements =>
      TDelim "[" :: (fix go l := match l with [] => [TDelim "]"] | x :: rest => flatten x ++ go rest end) elements
  end.

Definition flatten_fields : list (string * tree) -> list Tok :=
  fix go l := match l with [] => [TDelim "}"] | (k, x) :: rest => TStr k :: flatten x ++ go rest end.
Definition flatten_elements : list tree -> list Tok :=
  fix go l := match l with [] => [TDelim "]"] | x :: rest => flatten x ++ go rest end.

Lemma flatten_object fields : flatten (Object fields) = TDelim "{" :: flatten_fields fields.
Proof. reflexivity. Qed.
Lemma flatten_array elements : flatten (Array elements) = TDelim "[" :: flatten_elements elements.
Proof. reflexivity. Qed.

(** Induction that reaches into fields and elements *)
Section Induction.
  Context (P : tree -> Prop).
  Context (HT : forall s, P (Text s)) (HS : P Scalar).
  Context (HO : forall fields, Forall (fun kx => P (snd kx)) fields -> P (Object fields)).
  Context (HA : forall elements, Forall P elements -> P (Array elements)).

Lemma tree_induction v : P v.
Proof.
  revert v. fix IH 1. intros [s| |fields|elements]; [apply HT|apply HS|apply HO|apply HA].
  - induction fields as [|[k x] rest IHf]; constructor; [apply IH|exact IHf].
  - induction elements as [|x rest IHe]; constructor; [apply IH|exact IHe].
Qed.

End Induction.

(** ** [uniqueJSON] accepts exactly documents without repeated keys *)

Section UniqueSpec.
  Context {lower : LowerCase}.

(** No object has two keys that differ in case only, and nothing is nested
    deeper than 16. *)
Inductive plain : nat -> tree -> Prop :=
| plain_text depth s : (depth <= 16)%nat -> plain depth (Text s)
| plain_scalar depth : (depth <= 16)%nat -> plain depth Scalar
| plain_object depth fields : (depth <= 16)%nat -> NoDup (map (fun kx => lower_case (fst kx)) fields) ->
    Forall (fun kx => plain (S depth) (snd kx)) fields -> plain depth (Object fields)
| plain_array depth elements : (depth <= 16)%nat -> Forall (plain (S depth)) elements -> plain depth (Array elements).

Lemma plain_depth depth v : plain depth v -> (depth <= 16)%nat.
Proof. by intros []. Qed.

Lemma close_some c d d' : close c d = Some d' -> d_left d = TDelim c :: d_left d' /\ d_eof d' = d_eof d.
Proof.
  unfold close, Token. destruct (d_left d) as [|[x| |] rest]; try done. destruct (Ascii.eqb_spec x c); [|done].
  intros [= <-]. subst. done.
Qed.

Lemma seen_false key seen : existsb (String.eqb key) seen = false -> key ∉ seen.
Proof.
  intros H Hin. assert (existsb (String.eqb key) seen = true); [|congruence]. apply existsb_exists.
  exists key. rewrite String.eqb_refl. by rewrite list_elem_of_In in Hin.
Qed.

(** What was read is a document. *)
Definition reads (d d' : Decoder) (toks : list Tok) : Prop := d_left d = toks ++ d_left d' /\ d_eof d' = d_eof d.

Lemma value_sound fuel :
  (forall depth d d', value fuel depth d = Some d' -> exists v, reads d d' (flatten v) /\ plain depth v) /\
  (forall depth seen d d', members fuel depth seen d = Some d' -> exists fields, reads d d' (flatten_fields fields) /\
     NoDup (map (fun kx => lower_case (fst kx)) fields) /\ (forall kx, kx ∈ fields -> lower_case (fst kx) ∉ seen) /\
     Forall (fun kx => plain (S depth) (snd kx)) fields) /\
  (forall depth d d', items fuel depth d = Some d' -> exists elements, reads d d' (flatten_elements elements) /\
     Forall (plain (S depth)) elements).
Proof.
  induction fuel as [|k (IHv & IHm & IHi)]; [done|]. unfold reads in *. split; [|split].
  - intros depth d d'. cbn [value]. destruct (Nat.ltb_spec 16 depth) as [|Hd]; [done|]. unfold Token.
    destruct (d_left d) as [|[c|s|] rest] eqn:El; [done| | |].
    + destruct (Ascii.eqb_spec c "{") as [->|_].
      { intros H. apply IHm in H as (fields & (H1 & H2) & H3 & _ & H5). exists (Object fields). rewrite flatten_object.
        simpl in *. rewrite H1. split; [done|]. by constructor. }
      destruct (Ascii.eqb_spec c "[") as [->|_]; [|done]. intros H. apply IHi in H as (elements & (H1 & H2) & H3).
      exists (Array elements). rewrite flatten_array. simpl in *. rewrite H1. split; [done|]. by constructor.
    + intros [= <-]. exists (Text s). split; [done|]. by constructor.
    + intros [= <-]. exists Scalar. split; [done|]. by constructor.
  - intros depth seen d d'. cbn [members]. destruct (More d).
    + unfold Token. destruct (d_left d) as [|[c|key|] rest] eqn:El; try done.
      destruct (existsb _ seen) eqn:Es; [done|]. apply seen_false in Es.
      destruct (value k (S depth) _) as [d1|] eqn:Ev; [|done]. cbn [mbind option_bind]. intros H.
      apply IHv in Ev as (x & (H1 & H2) & Hx). apply IHm in H as (fields & (H3 & H4) & H5 & H6 & H7). simpl in *.
      exists ((key, x) :: fields). cbn [flatten_fields]. fold flatten_fields. cbn [app]. rewrite H1, H3, <- app_assoc. split; [split; [done|congruence]|].
      split; [|split].
      * simpl. apply NoDup_cons. split; [|done]. intros Hin. apply list_elem_of_fmap in Hin as (kx & E & Hkx).
        apply (H6 kx Hkx). rewrite <- E. by left.
      * intros kx Hkx. apply elem_of_cons in Hkx as [->|Hkx]; [done|]. specialize (H6 kx Hkx).
        rewrite not_elem_of_cons in H6. tauto.
      * by constructor.
    + intros H. apply close_some in H as [H1 H2]. exists []. split; [done|]. split; [constructor|]. split; [|constructor].
      intros kx Hkx. by apply not_elem_of_nil in Hkx.
  - intros depth d d'. cbn [items]. destruct (More d).
    + destruct (value k (S depth) d) as [d1|] eqn:Ev; [|done]. cbn [mbind option_bind]. intros H.
      apply IHv in Ev as (x & (H1 & H2) & Hx). apply IHi in H as (elements & (H3 & H4) & H5).
      exists (x :: elements). cbn [flatten_elements]. fold flatten_elements. rewrite H1, H3, <- app_assoc.
      split; [split; [done|congruence]|]. by constructor.
    + intros H. apply close_some in H as [H1 H2]. exists []. split; [done|constructor].
Qed.

Lemma seen_true key seen : key ∉ seen -> existsb (String.eqb key) seen = false.
Proof.
  intros H. destruct (existsb (String.eqb key) seen) eqn:E; [|done]. apply existsb_exists in E as (x & Hx & Ex).
  apply String.eqb_eq in Ex as <-. destruct H. by apply list_elem_of_In.
Qed.

Lemma flatten_cons v : exists t rest, flatten v = t :: rest /\ closing t = false.
Proof. destruct v as [s| |fields|elements]; [exists (TStr s), []|exists TScalar, []|rewrite flatten_object|rewrite flatten_array]; eauto. Qed.

Lemma flatten_elements_pos l : (1 <= length (flatten_elements l))%nat.
Proof. induction l as [|x l IH]; [done|]. cbn [flatten_elements]. fold flatten_elements. rewrite length_app. lia. Qed.

(** With two units of fuel per token, every such document is accepted. *)
Lemma value_complete v : forall fuel depth rest e, plain depth v -> (2 * length (flatten v) <= fuel)%nat ->
  value fuel depth (MkDecoder (flatten v ++ rest) e) = Some (MkDecoder rest e).
Proof.
  induction v as [s| |fields IH|elements IH] using tree_induction; intros fuel depth rest e Hp Hf;
    pose proof (plain_depth _ _ Hp) as Hd; (destruct fuel as [|fuel]; [simpl in Hf; lia|]); cbn [value];
    (destruct (Nat.ltb_spec 16 depth) as [|_]; [lia|]); [done|done| |].
  - rewrite flatten_object in *. cbn [app Token d_left d_eof]. inversion Hp as [| |? ? _ Hnd Hall|]; subst. clear Hp.
    assert (Hgen : forall seen k, (forall kx, kx ∈ fields -> lower_case (fst kx) ∉ seen) -> (2 * length (flatten_fields fields) <= k)%nat ->
      members k depth seen (MkDecoder (flatten_fields fields ++ rest) e) = Some (MkDecoder rest e)).
    { clear Hf. induction fields as [|[key x] fields IHf]; intros seen k Hseen Hk; (destruct k as [|k]; [simpl in Hk; lia|]); [done|].
      cbn [flatten_fields] in *. fold flatten_fields in *. cbn [app length members More Token d_left d_eof closing negb] in *.
      rewrite length_app in Hk. apply Forall_cons in IH as [Hx IH]. apply Forall_cons in Hall as [Px Hall]. simpl in Hx, Px, Hnd.
      apply NoDup_cons in Hnd as [Hk1 Hnd]. rewrite seen_true by (apply (Hseen (key, x)); by left).
      rewrite <- app_assoc, Hx by (done || lia). cbn [mbind option_bind]. apply IHf; [done|done|done| |lia].
      intros kx Hkx. rewrite not_elem_of_cons. split; [|apply Hseen; by right]. intros E. apply Hk1.
      apply list_elem_of_fmap. by exists kx. }
    apply Hgen; [intros; apply not_elem_of_nil|]. simpl in Hf. lia.
  - rewrite flatten_array in *. cbn [app Token d_left d_eof]. inversion Hp as [| | |? ? _ Hall]; subst. clear Hp.
    assert (Hgen : forall k, (2 * length (flatten_elements elements) <= k)%nat ->
      items k depth (MkDecoder (flatten_elements elements ++ rest) e) = Some (MkDecoder rest e)).
    { clear Hf. induction elements as [|x elements IHf]; intros k Hk;
        (destruct k as [|k]; [match type of Hk with context [flatten_elements ?l] => pose proof (flatten_elements_pos l) end; lia|]); [done|].
      cbn [flatten_elements] in *. fold flatten_elements in *. cbn [items]. rewrite length_app in Hk.
      apply Forall_cons in IH as [Hx IH]. apply Forall_cons in Hall as [Px Hall].
      rewrite <- app_assoc. destruct (flatten_cons x) as (t & ts & Et & Ht).
      assert (HM : More (MkDecoder (flatten x ++ flatten_elements elements ++ rest) e) = true)
        by (unfold More; rewrite Et; cbn; by rewrite Ht).
      pose proof (flatten_elements_pos elements) as Hpos.
      rewrite HM, Hx by (done || lia). cbn [mbind option_bind]. apply IHf; [done|done|].
      rewrite Et in Hk. simpl in Hk. lia. }
    apply Hgen. simpl in Hf. lia.
Qed.

(** [uniqueJSON] accepts a token stream exactly when it is one whole JSON
    document, followed by nothing, in which no object repeats a key up to
    letter case and nothing is nested deeper than sixteen; the fuel of the
    model never runs out. *)
Theorem uniqueJSON_exact d :
  uniqueJSON d = true <-> exists v, d = MkDecoder (flatten v) true /\ plain 0 v.
Proof.
  unfold uniqueJSON. split.
  - destruct (value _ 0 d) as [d'|] eqn:E; [|done]. apply (proj1 (value_sound _)) in E as (v & [H1 H2] & Hv). unfold at_eof.
    destruct (d_left d') eqn:El; [|done]. intros He. exists v. split; [|done]. rewrite app_nil_r in H1. destruct d. simpl in *. congruence.
  - intros (v & -> & Hv). cbn [d_left]. rewrite <- (app_nil_r (flatten v)) at 2.
    rewrite value_complete by (done || lia). done.
Qed.

End UniqueSpec.

End JsonTokens.
