(* ===== verification/JsonMessage.v ===== *)
(** * The message of a website as JSON

    The decoders of [internal/api/send_json.go], [send_templates.go] and
    [send_attachments.go].  They read the body token by token, so that unknown
    and repeated fields are refused at every level; the theorem says which
    documents they accept and what they read from them. *)

From S2P Require Import Prelude GoText TextFacts JsonTokens.

Module JsonMessage.

Import JsonTokens.

(** ** The data *)

Record jsonAttachment := MkAttachment { at_Filename : string; at_ContentType : string; at_ContentBase64 : string }.
#[export] Instance eta_jsonAttachment : Eta jsonAttachment := fun a =>
  MkAttachment (at_Filename a) (at_ContentType a) (at_ContentBase64 a).

Record jsonTemplateReference := MkReference {
  tr_ID : string; tr_Language : string; tr_Version : string; tr_Variables : gmap string string }.
#[export] Instance eta_jsonTemplateReference : Eta jsonTemplateReference := fun t =>
  MkReference (tr_ID t) (tr_Language t) (tr_Version t) (tr_Variables t).

Record jsonMessage := MkJsonMessage {
  jm_Date : string; jm_Subject : string; jm_FromName : string; jm_ReplyTo : string; jm_Text : string; jm_HTML : string;
  jm_Attachments : list jsonAttachment; jm_Template : option jsonTemplateReference }.
#[export] Instance eta_jsonMessage : Eta jsonMessage := fun m =>
  MkJsonMessage (jm_Date m) (jm_Subject m) (jm_FromName m) (jm_ReplyTo m) (jm_Text m) (jm_HTML m) (jm_Attachments m) (jm_Template m).

Definition jsonMessageLimit : Z := Z.shiftl 32 10.

(** ** Names and languages of templates *)

Definition in_range (lo hi : N) (c : ascii) : bool := (lo <=? N_of_ascii c)%N && (N_of_ascii c <=? hi)%N.
Definition is_lower : ascii -> bool := in_range 97 122.
Definition is_digit : ascii -> bool := in_range 48 57.

Definition templateName (s : string) : bool :=
  match s with
  | EmptyString => false
  | String c rest => (String.length s <=? 32)%nat && is_lower c && all_chars (fun c => is_lower c || is_digit c || Ascii.eqb c "_") rest
  end.

(** One subtag; only the first has letters alone *)
Definition language_part (first : bool) (part : string) : bool :=
  (1 <=? String.length part)%nat && (String.length part <=? 8)%nat
  && all_chars (fun c => is_lower c || negb first && is_digit c) part.
Definition templateLanguage (s : string) : bool :=
  String.eqb s ""
  || (String.length s <=? 35)%nat
     && match Split s "-" with
        | [] => true
        | first :: rest => language_part true first && forallb (language_part false) rest
        end.

(** ** The decoders *)

(** The loop over the fields of an object: every key once; [step] reads the
    value.  One unit of fuel per field. *)
Fixpoint fields_loop {A} (step : string -> A -> Decoder -> option (A * Decoder)) (fuel : nat) (seen : list string) (a : A) (d : Decoder)
  : option (A * list string * Decoder) :=
  match fuel with
  | O => None
  | S k =>
      if More d then
        match Token d with
        | Some (TStr key, d) =>
            if existsb (String.eqb key) seen then None
            else '(a, d) ← step key a d; fields_loop step k (key :: seen) a d
        | _ => None
        end
      else d ← close "}" d; Some (a, seen, d)
  end.

Definition open (c : ascii) (d : Decoder) : option Decoder := close c d.

Definition read_object {A} (step : string -> A -> Decoder -> option (A * Decoder)) (a : A) (d : Decoder) : option (A * list string * Decoder) :=
  d ← open "{" d; fields_loop step (S (length (d_left d))) [] a d.

(** A value that is a string *)
Definition read_text (d : Decoder) : option (string * Decoder) :=
  match Token d with Some (TStr s, d) => Some (s, d) | _ => None end.

(** [decodeTemplateVariables]: the map and the bytes in it so far *)
Definition variable_step (key : string) (a : gmap string string * Z) (d : Decoder) : option (gmap string string * Z * Decoder) :=
  let '(out, total) := a in
  if negb (templateName key) || (16 <=? size out)%nat then None
  else
    '(v, d) ← read_text d;
    if (1024 <? String.length v)%nat then None
    else
      let total := total + Z.of_nat (String.length v) in
      if 8192 <? total then None else Some (<[key := v]> out, total, d).
Definition decodeTemplateVariables (d : Decoder) : option (gmap string string * Decoder) :=
  '(a, _, d) ← read_object variable_step (∅, 0) d; Some (fst a, d).

(** [decodeJSONTemplate] *)
Definition template_step (key : string) (t : jsonTemplateReference) (d : Decoder) : option (jsonTemplateReference * Decoder) :=
  if String.eqb key "variables" then '(vs, d) ← decodeTemplateVariables d; Some (t <| tr_Variables := vs |>, d)
  else
    '(v, d) ← read_text d;
    if String.eqb key "id" then Some (t <| tr_ID := v |>, d)
    else if String.eqb key "version" then Some (t <| tr_Version := v |>, d)
    else if String.eqb key "language" then Some (t <| tr_Language := v |>, d)
    else None.
Definition has (k : string) (seen : list string) : bool := existsb (String.eqb k) seen.
Definition decodeJSONTemplate (d : Decoder) : option (jsonTemplateReference * Decoder) :=
  '(t, seen, d) ← read_object template_step (MkReference "" "" "" ∅) d;
  if negb (has "id" seen) || negb (has "version" seen) || negb (has "variables" seen) || negb (templateLanguage (tr_Language t))
  then None else Some (t, d).

(** [decodeJSONAttachments] *)
Definition attachment_step (key : string) (a : jsonAttachment) (d : Decoder) : option (jsonAttachment * Decoder) :=
  '(v, d) ← read_text d;
  if String.eqb key "filename" then Some (a <| at_Filename := v |>, d)
  else if String.eqb key "content_type" then Some (a <| at_ContentType := v |>, d)
  else if String.eqb key "content_base64" then Some (a <| at_ContentBase64 := v |>, d)
  else None.
Definition decode_attachment (d : Decoder) : option (jsonAttachment * Decoder) :=
  '(a, seen, d) ← read_object attachment_step (MkAttachment "" "" "") d;
  if (length seen =? 3)%nat then Some (a, d) else None.
Fixpoint attachments_loop (fuel : nat) (out : list jsonAttachment) (d : Decoder) : option (list jsonAttachment * Decoder) :=
  match fuel with
  | O => None
  | S k =>
      if More d then
        if (length out =? 4)%nat then None
        else '(a, d) ← decode_attachment d; attachments_loop k (out ++ [a]) d
      else d ← close "]" d; Some (out, d)
  end.
Definition decodeJSONAttachments (d : Decoder) : option (list jsonAttachment * Decoder) :=
  d ← open "[" d; attachments_loop (S (length (d_left d))) [] d.

(** [decodeJSONMessage] *)
Definition message_step (key : string) (m : jsonMessage) (d : Decoder) : option (jsonMessage * Decoder) :=
  if String.eqb key "template" then '(t, d) ← decodeJSONTemplate d; Some (m <| jm_Template := Some t |>, d)
  else if String.eqb key "attachments" then '(l, d) ← decodeJSONAttachments d; Some (m <| jm_Attachments := l |>, d)
  else
    '(v, d) ← read_text d;
    if String.eqb key "date" then Some (m <| jm_Date := v |>, d)
    else if String.eqb key "subject" then Some (m <| jm_Subject := v |>, d)
    else if String.eqb key "from_name" then Some (m <| jm_FromName := v |>, d)
    else if String.eqb key "reply_to" then Some (m <| jm_ReplyTo := v |>, d)
    else if String.eqb key "text" then Some (m <| jm_Text := v |>, d)
    else if String.eqb key "html" then Some (m <| jm_HTML := v |>, d)
    else None.

Definition empty_message : jsonMessage := MkJsonMessage "" "" "" "" "" "" [] None.
Definition decodeJSONMessage {tokenizer : Tokenizer} (raw : list byte) : option jsonMessage :=
  if negb (ValidString (string_of_list_byte raw)) then None
  else
    '(m, seen, d) ← read_object message_step empty_message (NewDecoder raw);
    if match jm_Template m with Some _ => true | None => false end && (has "subject" seen || has "text" seen || has "html" seen) then None
    else if at_eof d then Some m else None.

(** ** What the decoders accept *)

(** A decoder reads the documents of a relation: exactly those tokens. *)
Definition decodes {A} (f : Decoder -> option (A * Decoder)) (R : tree -> A -> Prop) : Prop :=
  forall d a d', f d = Some (a, d') <-> exists v, reads d d' (flatten v) /\ R v a.

(** The fields of an object, one after the other *)
Inductive runs {A} (S : string -> A -> tree -> A -> Prop) : A -> list (string * tree) -> A -> Prop :=
| runs_nil a : runs S a [] a
| runs_cons a k v b fields c : S k a v b -> runs S b fields c -> runs S a ((k, v) :: fields) c.

Lemma close_reads c d d' : close c d = Some d' <-> reads d d' [TDelim c].
Proof.
  split; [apply close_some|]. intros [H1 H2]. unfold close, Token. rewrite H1. simpl. rewrite Ascii.eqb_refl.
  destruct d'. simpl in *. by subst.
Qed.

Lemma reads_trans d1 d2 d3 a b : reads d1 d2 a -> reads d2 d3 b -> reads d1 d3 (a ++ b).
Proof. intros [H1 H2] [H3 H4]. split; [by rewrite H1, H3, app_assoc|congruence]. Qed.

Lemma reads_cons d d' t ts : reads d d' (t :: ts) -> reads d (MkDecoder (ts ++ d_left d') (d_eof d)) [t] /\
  reads (MkDecoder (ts ++ d_left d') (d_eof d)) d' ts.
Proof. intros [H1 H2]. split; split; simpl; done. Qed.

Lemma reads_app d d' a b : reads d d' (a ++ b) -> exists d1, reads d d1 a /\ reads d1 d' b.
Proof.
  intros [H1 H2]. exists (MkDecoder (b ++ d_left d') (d_eof d)). split; split; simpl; try done. by rewrite H1, <- app_assoc.
Qed.

Lemma reads_token d d' t : reads d d' [t] <-> Token d = Some (t, d').
Proof.
  unfold reads, Token. split.
  - intros [-> H]. simpl. destruct d'. simpl in *. by subst.
  - destruct (d_left d); [done|]. intros [= -> <-]. done.
Qed.

Lemma read_text_decodes : decodes read_text (fun v s => v = Text s).
Proof.
  intros d s d'. unfold read_text. split.
  - destruct (Token d) as [[[c|x|] d1]|] eqn:E; try done. intros [= -> ->]. exists (Text s). split; [by apply reads_token|done].
  - intros (v & H & ->). simpl in H. apply reads_token in H as ->. done.
Qed.

Section Fields.
  Context {A : Type} (step : string -> A -> Decoder -> option (A * Decoder)) (S : string -> A -> tree -> A -> Prop).
  Hypothesis Hstep : forall key a, decodes (step key a) (fun v b => S key a v b).

Lemma fields_loop_sound fuel : forall seen a d b seen' d', fields_loop step fuel seen a d = Some (b, seen', d') ->
  exists fields, reads d d' (flatten_fields fields) /\ runs S a fields b /\ NoDup (map fst fields) /\
    (forall k, k ∈ map fst fields -> k ∉ seen) /\ seen' = reverse (map fst fields) ++ seen.
Proof.
  induction fuel as [|k IH]; [done|]. intros seen a d b seen' d'. cbn [fields_loop]. destruct (More d).
  - destruct (Token d) as [[[c|key|] d1]|] eqn:Et; try done. destruct (existsb _ seen) eqn:Es; [done|]. apply seen_false in Es.
    destruct (step key a d1) as [[a1 d2]|] eqn:E1; [|done]. cbn [mbind option_bind]. intros H.
    apply IH in H as (fields & H1 & H2 & H3 & H4 & ->). apply Hstep in E1 as (v & Hv & HS). apply reads_token in Et.
    exists ((key, v) :: fields). split; [exact (reads_trans _ _ _ [TStr key] _ Et (reads_trans _ _ _ _ _ Hv H1))|].
    split; [by econstructor|]. simpl. split; [|split].
    + apply NoDup_cons. split; [|done]. intros Hin. apply (H4 key Hin). by left.
    + intros x [->|Hx]%elem_of_cons; [done|]. specialize (H4 x Hx). rewrite not_elem_of_cons in H4. tauto.
    + by rewrite reverse_cons, <- app_assoc.
  - destruct (close "}" d) as [d1|] eqn:Ec; [|done]. simpl. intros [= <- <- <-]. exists []. apply close_reads in Ec.
    split; [done|]. split; [constructor|]. split; [constructor|]. split; [|done]. intros k0 Hk. by apply not_elem_of_nil in Hk.
Qed.

Lemma More_reads d d' t ts : reads d d' (t :: ts) -> More d = negb (closing t).
Proof. intros [H _]. unfold More. by rewrite H. Qed.

Lemma fields_loop_complete fields : forall fuel seen a d b d', (length fields < fuel)%nat ->
  reads d d' (flatten_fields fields) -> runs S a fields b -> NoDup (map fst fields) -> (forall k, k ∈ map fst fields -> k ∉ seen) ->
  fields_loop step fuel seen a d = Some (b, reverse (map fst fields) ++ seen, d').
Proof.
  induction fields as [|[key v] fields IH]; intros fuel seen a d b d' Hf Hr Hrun Hnd Hseen;
    (destruct fuel as [|k]; [simpl in Hf; lia|]); cbn [fields_loop].
  - rewrite (More_reads _ _ _ _ Hr). simpl. apply close_reads in Hr as ->. simpl. by inversion Hrun.
  - cbn [flatten_fields] in Hr. fold flatten_fields in Hr. rewrite (More_reads _ _ _ _ Hr). simpl negb. cbv iota.
    apply reads_cons in Hr as [H1 H2]. apply reads_token in H1 as ->. simpl in Hnd. apply NoDup_cons in Hnd as [Hk Hnd].
    rewrite seen_true by (apply Hseen; by left). apply reads_app in H2 as (d2 & H3 & H4). inversion Hrun; subst.
    rewrite (proj2 (Hstep key a _ _ d2)) by eauto. cbn [mbind option_bind].
    rewrite (IH k (key :: seen) b0 d2 b d'); [|simpl in Hf; lia|done|done|done|].
    + simpl. by rewrite reverse_cons, <- app_assoc.
    + intros x Hx. rewrite not_elem_of_cons. split; [|apply Hseen; by right]. by intros ->.
Qed.

Lemma flatten_fields_length fields : (length fields < length (flatten_fields fields))%nat.
Proof.
  induction fields as [|[k v] fields IH]; [simpl; lia|]. cbn [flatten_fields]. fold flatten_fields. simpl. rewrite length_app. lia.
Qed.

Lemma read_object_spec a d b seen d' : read_object step a d = Some (b, seen, d') <->
  exists fields, reads d d' (flatten (Object fields)) /\ runs S a fields b /\ NoDup (map fst fields) /\ seen = reverse (map fst fields).
Proof.
  unfold read_object, open. split.
  - destruct (close "{" d) as [d1|] eqn:Ec; [|done]. cbn [mbind option_bind]. intros H. apply close_reads in Ec.
    apply fields_loop_sound in H as (fields & H1 & H2 & H3 & _ & ->). exists fields. rewrite app_nil_r, flatten_object.
    split; [|done]. exact (reads_trans _ _ _ [TDelim "{"] _ Ec H1).
  - intros (fields & H1 & H2 & H3 & ->). rewrite flatten_object in H1. apply reads_cons in H1 as [H0 H1].
    apply close_reads in H0 as ->. cbn [mbind option_bind].
    rewrite (fields_loop_complete fields _ [] a _ b d'); [by rewrite app_nil_r| |done|done|done|intros; apply not_elem_of_nil].
    simpl. pose proof (flatten_fields_length fields). rewrite length_app. lia.
Qed.

End Fields.

(** ** Reading an object by its keys *)

Fixpoint field (k : string) (fields : list (string * tree)) : option tree :=
  match fields with
  | [] => None
  | (key, v) :: rest => if String.eqb key k then Some v else field k rest
  end.

Lemma field_none k fields : k ∉ map fst fields -> field k fields = None.
Proof.
  induction fields as [|[key v] fields IH]; [done|]. simpl. rewrite not_elem_of_cons. intros [H1 H2].
  destruct (String.eqb_spec key k); [congruence|auto].
Qed.

Lemma field_some k fields : is_Some (field k fields) <-> k ∈ map fst fields.
Proof.
  induction fields as [|[key v] fields IH]; simpl; [split; [by intros []|intros H; by apply not_elem_of_nil in H]|].
  rewrite elem_of_cons. destruct (String.eqb_spec key k) as [->|Hne]; [split; eauto|]. rewrite IH. split; [auto|]. by intros [->|].
Qed.

Lemma has_reverse k (l : list string) : has k (reverse l) = true <-> k ∈ l.
Proof.
  unfold has. rewrite existsb_exists, <- (elem_of_reverse k l). split.
  - intros (x & Hx & E). apply String.eqb_eq in E as <-. by apply list_elem_of_In.
  - intros H. exists k. rewrite String.eqb_refl. split; [by apply list_elem_of_In|done].
Qed.

(** A field that is a string, or the default when it is missing *)
Definition text_at (k : string) (fields : list (string * tree)) (default s : string) : Prop :=
  match field k fields with Some v => v = Text s | None => s = default end.

(** ** Variables *)

Definition total (kvs : list (string * string)) : Z := foldr (fun kv n => Z.of_nat (String.length (snd kv)) + n) 0 kvs.

Record variables_ok (kvs : list (string * string)) : Prop := {
  vo_names : Forall (fun kv => templateName (fst kv) = true) kvs;
  vo_distinct : NoDup (map fst kvs);
  vo_count : (length kvs <= 16)%nat;
  vo_sizes : Forall (fun kv => (String.length (snd kv) <= 1024)%nat) kvs;
  vo_total : total kvs <= 8192 }.

Definition text_fields (kvs : list (string * string)) : list (string * tree) := map (fun kv => (fst kv, Text (snd kv))) kvs.
Definition is_variables (v : tree) (m : gmap string string) : Prop :=
  exists kvs, v = Object (text_fields kvs) /\ variables_ok kvs /\ m = list_to_map kvs.

Definition variable_field (key : string) (a : gmap string string * Z) (v : tree) (b : gmap string string * Z) : Prop :=
  templateName key = true /\ (size (fst a) < 16)%nat /\ exists s, v = Text s /\ (String.length s <= 1024)%nat /\
    snd a + Z.of_nat (String.length s) <= 8192 /\ b = (<[key := s]> (fst a), snd a + Z.of_nat (String.length s)).

Lemma variable_step_decodes key a : decodes (variable_step key a) (fun v b => variable_field key a v b).
Proof.
  intros d b d'. destruct a as [out t]. unfold variable_step, variable_field. cbn [fst snd].
  destruct (templateName key); cbn [negb orb]; [|split; [done|intros (v & _ & [=] & _)]].
  destruct (Nat.leb_spec 16 (size out)) as [Hs|Hs]; [split; [done|intros (v & _ & _ & H & _); lia]|].
  split.
  - destruct (read_text d) as [[s d1]|] eqn:E; [|done]. cbn [mbind option_bind]. apply read_text_decodes in E as (v & Hr & ->).
    destruct (Nat.ltb_spec 1024 (String.length s)); [done|]. destruct (Z.ltb_spec 8192 (t + Z.of_nat (String.length s))); [done|].
    intros [= <- <-]. exists (Text s). eauto 10.
  - intros (v & Hr & _ & _ & s & -> & Hl & Ht & ->). rewrite (proj2 (read_text_decodes d s d')) by eauto. cbn [mbind option_bind].
    destruct (Nat.ltb_spec 1024 (String.length s)); [lia|]. destruct (Z.ltb_spec 8192 (t + Z.of_nat (String.length s))); [lia|done].
Qed.

Lemma variables_runs fields : forall out t m t', NoDup (map fst fields) -> (forall k, k ∈ map fst fields -> out !! k = None) ->
  runs variable_field (out, t) fields (m, t') <->
  exists kvs, fields = text_fields kvs /\ Forall (fun kv => templateName (fst kv) = true) kvs /\
    (kvs = [] \/ size out + length kvs <= 16)%nat /\ Forall (fun kv => (String.length (snd kv) <= 1024)%nat) kvs /\
    (kvs = [] \/ t + total kvs <= 8192) /\ t' = t + total kvs /\ m = list_to_map (reverse kvs) ∪ out.
Proof.
  induction fields as [|[key v] fields IH]; intros out t m t' Hnd Hfresh.
  - split.
    + inversion 1; subst. exists []. simpl. rewrite map_empty_union. repeat split; auto; lia.
    + intros ([|kv kvs] & E & _ & _ & _ & _ & -> & ->); [|done]. simpl. rewrite map_empty_union, Z.add_0_r. constructor.
  - simpl in Hnd, Hfresh. apply NoDup_cons in Hnd as [Hk Hnd].
    assert (Hk0 : out !! key = None) by (apply Hfresh; by left).
    assert (Hfresh' : forall s k, k ∈ map fst fields -> <[key := s]> out !! k = None).
    { intros s k Hin. rewrite lookup_insert_ne by (intros ->; done). apply Hfresh. by right. }
    split.
    + inversion 1 as [|? ? ? b ? ? HS Hrun]; subst. destruct HS as (Hn & Hsz & s & -> & Hl & Ht & ->). simpl in *.
      apply IH in Hrun as (kvs & -> & H1 & H2 & H3 & H4 & -> & ->); [|done|auto]. exists ((key, s) :: kvs).
      rewrite map_size_insert_None in H2 by done.
      split; [done|]. split; [by constructor|]. split; [right; simpl; destruct H2 as [->|]; simpl; lia|].
      split; [by constructor|]. split; [right; simpl; destruct H4 as [->|]; simpl; lia|]. split; [simpl; lia|].
      rewrite reverse_cons, list_to_map_app. simpl. rewrite <- map_union_assoc. f_equal.
      by rewrite <- insert_union_l, map_empty_union.
    + intros ([|[k' s] kvs] & E & H1 & H2 & H3 & H4 & -> & ->); [done|]. simpl in E. injection E as -> -> ->.
      apply Forall_cons in H1 as [Hn H1]. apply Forall_cons in H3 as [Hl H3]. simpl in *.
      destruct H2 as [|H2]; [done|]. destruct H4 as [|H4]; [done|].
      assert (Htot : 0 <= total kvs) by (clear; induction kvs; simpl; lia).
      eapply runs_cons.
      { split; [done|]. split; [simpl; lia|]. exists s. split; [done|]. split; [done|]. simpl. split; [lia|done]. }
      simpl. apply IH; [done|auto|]. exists kvs. rewrite map_size_insert_None by done.
      split; [done|]. split; [done|]. split; [right; lia|]. split; [done|]. split; [right; lia|]. split; [lia|].
      rewrite reverse_cons, list_to_map_app. simpl. rewrite <- map_union_assoc. f_equal.
      by rewrite <- insert_union_l, map_empty_union.
Qed.

Lemma text_fields_keys kvs : map fst (text_fields kvs) = map fst kvs.
Proof. unfold text_fields. rewrite map_map. done. Qed.

Lemma decodeTemplateVariables_decodes : decodes decodeTemplateVariables is_variables.
Proof.
  intros d m d'. unfold decodeTemplateVariables. split.
  - destruct (read_object _ _ _) as [[[[m' t'] seen] d1]|] eqn:E; [|done]. simpl. intros [= <- <-].
    apply (read_object_spec _ _ variable_step_decodes) in E as (fields & Hr & Hrun & Hnd & _). exists (Object fields). split; [done|].
    apply variables_runs in Hrun as (kvs & -> & H1 & H2 & H3 & H4 & _ & ->); [|done|done]. exists kvs. split; [done|].
    rewrite text_fields_keys in Hnd. rewrite map_union_empty. split.
    + split; try done; [destruct H2 as [->|H2]; simpl in *; [lia|]; rewrite map_size_empty in H2; lia|].
      destruct H4 as [->|]; simpl; lia.
    + apply list_to_map_proper; [|apply reverse_Permutation].
      change (NoDup (map fst (reverse kvs))). by rewrite (Permutation_map fst (reverse_Permutation kvs)).
  - intros (v & Hr & kvs & -> & [V1 V2 V3 V4 V5] & ->).
    rewrite (proj2 (read_object_spec _ _ variable_step_decodes (∅, 0) d (list_to_map kvs, total kvs) (reverse (map fst kvs)) d')); [done|].
    exists (text_fields kvs). rewrite text_fields_keys. split; [done|]. split; [|done].
    apply variables_runs; [by rewrite text_fields_keys|done|]. exists kvs. rewrite map_size_empty, map_union_empty.
    split; [done|]. split; [done|]. split; [right; lia|]. split; [done|]. split; [right; lia|]. split; [lia|].
    apply list_to_map_proper; [done|]. symmetry. apply reverse_Permutation.
Qed.

(** ** Decoders in sequence *)

Lemma decodes_bind {A B} (f : Decoder -> option (A * Decoder)) (R : tree -> A -> Prop) (g : A -> B) d b d' :
  decodes f R -> ('(x, d) ← f d; Some (g x, d)) = Some (b, d') <-> exists v, reads d d' (flatten v) /\ exists x, R v x /\ b = g x.
Proof.
  intros Hf. split.
  - destruct (f d) as [[x d1]|] eqn:E; [|done]. simpl. intros [= <- <-]. apply Hf in E as (v & Hr & Hx). eauto 6.
  - intros (v & Hr & x & Hx & ->). rewrite (proj2 (Hf d x d')) by eauto. done.
Qed.

Lemma decodes_text_bind {B} (g : string -> option B) d b d' :
  ('(x, d) ← read_text d; match g x with Some y => Some (y, d) | None => None end) = Some (b, d') <->
  exists v, reads d d' (flatten v) /\ exists x, v = Text x /\ g x = Some b.
Proof.
  split.
  - destruct (read_text d) as [[x d1]|] eqn:E; [|done]. simpl. destruct (g x) as [y|] eqn:Eg; [|done]. intros [= <- <-].
    apply read_text_decodes in E as (v & Hr & ->). eauto 6.
  - intros (v & Hr & x & -> & Hg). rewrite (proj2 (read_text_decodes d x d')) by eauto. simpl. by rewrite Hg.
Qed.

(** ** Template references *)

Definition template_field (key : string) (t : jsonTemplateReference) (v : tree) (t' : jsonTemplateReference) : Prop :=
  if String.eqb key "variables" then exists vs, is_variables v vs /\ t' = t <| tr_Variables := vs |>
  else exists s, v = Text s /\
    (if String.eqb key "id" then Some (t <| tr_ID := s |>)
     else if String.eqb key "version" then Some (t <| tr_Version := s |>)
     else if String.eqb key "language" then Some (t <| tr_Language := s |>)
     else None) = Some t'.

Lemma template_step_decodes key t : decodes (template_step key t) (fun v t' => template_field key t v t').
Proof.
  intros d b d'. unfold template_step, template_field. destruct (String.eqb key "variables").
  - apply (decodes_bind _ _ (fun vs => t <| tr_Variables := vs |>)), decodeTemplateVariables_decodes.
  - rewrite <- (decodes_text_bind (fun s => if String.eqb key "id" then Some (t <| tr_ID := s |>)
     else if String.eqb key "version" then Some (t <| tr_Version := s |>)
     else if String.eqb key "language" then Some (t <| tr_Language := s |>) else None)).
    destruct (read_text d) as [[x d1]|]; [|done]. simpl. by repeat destruct (String.eqb key _).
Qed.

Definition template_keys : list string := ["id"; "version"; "language"; "variables"]%string.

(** The same, by lookup *)
Definition template_fields (t0 : jsonTemplateReference) (fields : list (string * tree)) (t : jsonTemplateReference) : Prop :=
  Forall (fun kv => fst kv ∈ template_keys) fields /\
  text_at "id" fields (tr_ID t0) (tr_ID t) /\ text_at "version" fields (tr_Version t0) (tr_Version t) /\
  text_at "language" fields (tr_Language t0) (tr_Language t) /\
  match field "variables" fields with Some v => is_variables v (tr_Variables t) | None => tr_Variables t = tr_Variables t0 end.

(** Case analysis on the key of the first field of an object with distinct keys *)
Ltac first_field H :=
  unfold text_at in *; cbn [field String.eqb Ascii.eqb Bool.eqb] in *; rewrite ?(field_none _ _ H) in *; simpl in *.

(** A constant in a list of constants *)
Ltac known_key := repeat first [left | right].

Lemma template_runs fields : forall t0 t, NoDup (map fst fields) -> runs template_field t0 fields t <-> template_fields t0 fields t.
Proof.
  induction fields as [|[key v] fields IH]; intros t0 t Hnd.
  - split; [by inversion 1; subst; repeat split; constructor|]. intros (_ & E1 & E2 & E3 & E4). unfold text_at in *. simpl in *.
    replace t with t0; [constructor|]. destruct t0, t. simpl in *. congruence.
  - simpl in Hnd. apply NoDup_cons in Hnd as [Hk Hnd]. unfold template_fields. split.
    + inversion 1 as [|? ? ? b ? ? HS Hrun]; subst. apply IH in Hrun as (H1 & H2 & H3 & H4 & H5); [|done]. unfold template_field in HS.
      destruct (String.eqb_spec key "variables") as [->|];
        [|destruct (String.eqb_spec key "id") as [->|]; [|destruct (String.eqb_spec key "version") as [->|];
           [|destruct (String.eqb_spec key "language") as [->|]]]]; (destruct HS as (x & Hx & E));
        (try (subst v; injection E as <-)); (try discriminate E); try subst b; first_field Hk; subst;
        (split; [constructor; [known_key|done]|]); auto.
    + rewrite Forall_cons. intros ((Hkey & H1) & H2 & H3 & H4 & H5). simpl in Hkey. unfold template_keys in Hkey.
      rewrite !elem_of_cons, elem_of_nil in Hkey. destruct Hkey as [->|[->|[->|[->|[]]]]]; first_field Hk.
      * apply (runs_cons _ _ _ _ (t0 <| tr_ID := tr_ID t |>)); [exists (tr_ID t); done|]. apply IH; [done|]. unfold template_fields. first_field Hk. done.
      * apply (runs_cons _ _ _ _ (t0 <| tr_Version := tr_Version t |>)); [exists (tr_Version t); done|]. apply IH; [done|]. unfold template_fields. first_field Hk. done.
      * apply (runs_cons _ _ _ _ (t0 <| tr_Language := tr_Language t |>)); [exists (tr_Language t); done|]. apply IH; [done|]. unfold template_fields. first_field Hk. done.
      * apply (runs_cons _ _ _ _ (t0 <| tr_Variables := tr_Variables t |>)); [exists (tr_Variables t); done|]. apply IH; [done|]. unfold template_fields. first_field Hk. done.
Qed.

Definition is_template (v : tree) (t : jsonTemplateReference) : Prop :=
  exists fields, v = Object fields /\ NoDup (map fst fields) /\ template_fields (MkReference "" "" "" ∅) fields t /\
    (forall k, k ∈ ["id"; "version"; "variables"]%string -> k ∈ map fst fields) /\ templateLanguage (tr_Language t) = true.

Lemma decodeJSONTemplate_decodes : decodes decodeJSONTemplate is_template.
Proof.
  intros d t d'. unfold decodeJSONTemplate.
  assert (Hcond : forall keys (t : jsonTemplateReference),
    (negb (has "id" (reverse keys)) || negb (has "version" (reverse keys)) || negb (has "variables" (reverse keys))
     || negb (templateLanguage (tr_Language t))) = false <->
    (forall k, k ∈ ["id"; "version"; "variables"]%string -> k ∈ keys) /\ templateLanguage (tr_Language t) = true).
  { intros keys t0. rewrite !orb_false_iff, !negb_false_iff, !has_reverse. split.
    - intros (((H1 & H2) & H3) & H4). split; [|done]. intros k. rewrite !elem_of_cons, elem_of_nil. by intros [->|[->|[->|[]]]].
    - intros [H1 H2]. repeat split; try done; apply H1; set_solver. }
  split.
  - destruct (read_object _ _ _) as [[[t1 seen] d1]|] eqn:E; [|done]. cbn [mbind option_bind].
    apply (read_object_spec _ _ template_step_decodes) in E as (fields & Hr & Hrun & Hnd & ->).
    destruct (_ || _) eqn:Ec; [done|]. intros [= <- <-]. apply Hcond in Ec. apply template_runs in Hrun; [|done].
    exists (Object fields). split; [done|]. exists fields. tauto.
  - intros (v & Hr & fields & -> & Hnd & Hf & Hk & Hl).
    rewrite (proj2 (read_object_spec _ _ template_step_decodes (MkReference "" "" "" ∅) d t (reverse (map fst fields)) d'));
      [|exists fields; split; [done|]; split; [by apply template_runs|done]]. cbn [mbind option_bind].
    by rewrite (proj2 (Hcond (map fst fields) t)).
Qed.

(** ** Attachments *)

Definition attachment_field (key : string) (a : jsonAttachment) (v : tree) (a' : jsonAttachment) : Prop :=
  exists s, v = Text s /\
    (if String.eqb key "filename" then Some (a <| at_Filename := s |>)
     else if String.eqb key "content_type" then Some (a <| at_ContentType := s |>)
     else if String.eqb key "content_base64" then Some (a <| at_ContentBase64 := s |>)
     else None) = Some a'.

Lemma attachment_step_decodes key a : decodes (attachment_step key a) (fun v a' => attachment_field key a v a').
Proof.
  intros d b d'. unfold attachment_step, attachment_field.
  rewrite <- (decodes_text_bind (fun s => if String.eqb key "filename" then Some (a <| at_Filename := s |>)
     else if String.eqb key "content_type" then Some (a <| at_ContentType := s |>)
     else if String.eqb key "content_base64" then Some (a <| at_ContentBase64 := s |>) else None)).
  destruct (read_text d) as [[x d1]|]; [|done]. simpl. by repeat destruct (String.eqb key _).
Qed.

Definition attachment_keys : list string := ["filename"; "content_type"; "content_base64"]%string.

Definition attachment_fields (a0 : jsonAttachment) (fields : list (string * tree)) (a : jsonAttachment) : Prop :=
  Forall (fun kv => fst kv ∈ attachment_keys) fields /\
  text_at "filename" fields (at_Filename a0) (at_Filename a) /\
  text_at "content_type" fields (at_ContentType a0) (at_ContentType a) /\
  text_at "content_base64" fields (at_ContentBase64 a0) (at_ContentBase64 a).

Lemma attachment_runs fields : forall a0 a, NoDup (map fst fields) -> runs attachment_field a0 fields a <-> attachment_fields a0 fields a.
Proof.
  induction fields as [|[key v] fields IH]; intros a0 a Hnd.
  - split; [by inversion 1; subst; repeat split; constructor|]. intros (_ & E1 & E2 & E3). unfold text_at in *. simpl in *.
    replace a with a0; [constructor|]. destruct a0, a. simpl in *. congruence.
  - simpl in Hnd. apply NoDup_cons in Hnd as [Hk Hnd]. unfold attachment_fields. split.
    + inversion 1 as [|? ? ? b ? ? HS Hrun]; subst. apply IH in Hrun as (H1 & H2 & H3 & H4); [|done]. destruct HS as (x & -> & E).
      destruct (String.eqb_spec key "filename") as [->|]; [|destruct (String.eqb_spec key "content_type") as [->|];
        [|destruct (String.eqb_spec key "content_base64") as [->|]; [|done]]]; injection E as <-; first_field Hk; subst;
        (split; [constructor; [known_key|done]|]); auto.
    + rewrite Forall_cons. intros ((Hkey & H1) & H2 & H3 & H4). simpl in Hkey. unfold attachment_keys in Hkey.
      rewrite !elem_of_cons, elem_of_nil in Hkey. destruct Hkey as [->|[->|[->|[]]]]; first_field Hk.
      * apply (runs_cons _ _ _ _ (a0 <| at_Filename := at_Filename a |>)); [exists (at_Filename a); done|].
        apply IH; [done|]. unfold attachment_fields. first_field Hk. done.
      * apply (runs_cons _ _ _ _ (a0 <| at_ContentType := at_ContentType a |>)); [exists (at_ContentType a); done|].
        apply IH; [done|]. unfold attachment_fields. first_field Hk. done.
      * apply (runs_cons _ _ _ _ (a0 <| at_ContentBase64 := at_ContentBase64 a |>)); [exists (at_ContentBase64 a); done|].
        apply IH; [done|]. unfold attachment_fields. first_field Hk. done.
Qed.

(** Exactly the three fields, in any order *)
Definition is_attachment (v : tree) (a : jsonAttachment) : Prop :=
  exists fields, v = Object fields /\ map fst fields ≡ₚ attachment_keys /\
    field "filename" fields = Some (Text (at_Filename a)) /\ field "content_type" fields = Some (Text (at_ContentType a)) /\
    field "content_base64" fields = Some (Text (at_ContentBase64 a)).

Lemma attachment_keys_distinct : NoDup attachment_keys.
Proof. unfold attachment_keys. repeat constructor; set_solver. Qed.

Lemma text_at_some k fields s x : k ∈ map fst fields -> text_at k fields s x <-> field k fields = Some (Text x).
Proof. intros H. apply field_some in H as [v Hv]. unfold text_at. rewrite Hv. split; congruence. Qed.

Lemma all_keys fields : NoDup (map fst fields) -> Forall (fun kv => fst kv ∈ attachment_keys) fields ->
  length (reverse (map fst fields)) = 3%nat <-> map (@fst string tree) fields ≡ₚ attachment_keys.
Proof.
  intros Hnd Hall. rewrite length_reverse. split; [|intros ->; done]. intros Hl.
  apply submseteq_length_Permutation; [|rewrite Hl; done]. apply NoDup_submseteq; [done|]. intros k Hk.
  apply list_elem_of_fmap in Hk as (kv & -> & Hkv). rewrite Forall_forall in Hall. by apply Hall.
Qed.

Lemma decode_attachment_decodes : decodes decode_attachment is_attachment.
Proof.
  intros d a d'. unfold decode_attachment. split.
  - destruct (read_object _ _ _) as [[[a1 seen] d1]|] eqn:E; [|done]. cbn [mbind option_bind].
    apply (read_object_spec _ _ attachment_step_decodes) in E as (fields & Hr & Hrun & Hnd & ->).
    destruct (Nat.eqb_spec (length (reverse (map fst fields))) 3) as [Hl|]; [|done]. intros [= <- <-].
    apply attachment_runs in Hrun as (H1 & H2 & H3 & H4); [|done]. apply all_keys in Hl; [|done|done].
    exists (Object fields). split; [done|]. exists fields. split; [done|]. split; [done|].
    rewrite !text_at_some in * by (rewrite Hl; unfold attachment_keys; set_solver). done.
  - intros (v & Hr & fields & -> & Hp & H2 & H3 & H4).
    assert (Hnd : NoDup (map fst fields)) by (rewrite Hp; apply attachment_keys_distinct).
    assert (Hall : Forall (fun kv => fst kv ∈ attachment_keys) fields).
    { apply Forall_forall. intros kv Hkv. rewrite <- Hp. apply list_elem_of_fmap. by exists kv. }
    rewrite (proj2 (read_object_spec _ _ attachment_step_decodes (MkAttachment "" "" "") d a (reverse (map fst fields)) d')).
    + cbn [mbind option_bind]. by rewrite (proj2 (all_keys fields Hnd Hall) Hp).
    + exists fields. split; [done|]. split; [|done]. apply attachment_runs; [done|]. split; [done|].
      rewrite !text_at_some by (rewrite Hp; unfold attachment_keys; set_solver). done.
Qed.

Definition is_attachments (v : tree) (l : list jsonAttachment) : Prop :=
  exists vs, v = Array vs /\ Forall2 is_attachment vs l /\ (length l <= 4)%nat.

Lemma attachments_sound fuel : forall out d l d', (length out <= 4)%nat -> attachments_loop fuel out d = Some (l, d') ->
  exists vs rest, reads d d' (flatten_elements vs) /\ Forall2 is_attachment vs rest /\ l = out ++ rest /\ (length l <= 4)%nat.
Proof.
  induction fuel as [|k IH]; [done|]. intros out d l d' Hout. cbn [attachments_loop]. destruct (More d).
  - destruct (Nat.eqb_spec (length out) 4); [done|]. destruct (decode_attachment d) as [[a d1]|] eqn:E; [|done].
    cbn [mbind option_bind]. intros H. apply decode_attachment_decodes in E as (v & Hr & Ha).
    apply IH in H as (vs & rest & H1 & H2 & -> & H4); [|rewrite length_app; simpl; lia].
    exists (v :: vs), (a :: rest). split; [exact (reads_trans _ _ _ _ _ Hr H1)|]. split; [by constructor|].
    rewrite <- app_assoc in *. done.
  - destruct (close "]" d) as [d1|] eqn:E; [|done]. simpl. intros [= <- <-]. apply close_reads in E.
    exists [], []. rewrite app_nil_r. split; [done|]. split; [constructor|done].
Qed.

Lemma attachments_complete vs : forall rest fuel out d d', (length vs < fuel)%nat -> reads d d' (flatten_elements vs) ->
  Forall2 is_attachment vs rest -> (length (out ++ rest) <= 4)%nat -> attachments_loop fuel out d = Some (out ++ rest, d').
Proof.
  induction vs as [|v vs IH]; intros rest fuel out d d' Hf Hr H2 Hl; (destruct fuel as [|k]; [simpl in Hf; lia|]); cbn [attachments_loop].
  - rewrite (More_reads _ _ _ _ Hr). simpl. apply close_reads in Hr as ->. inversion H2; subst. by rewrite app_nil_r.
  - inversion H2 as [|? a ? rest' Ha Hrest]; subst. cbn [flatten_elements] in Hr. fold flatten_elements in Hr.
    assert (HM : More d = true).
    { destruct (flatten_cons v) as (t & ts & Et & Ht). rewrite Et in Hr. rewrite (More_reads _ _ _ _ Hr). by rewrite Ht. }
    rewrite HM. rewrite length_app in Hl. simpl in Hl. destruct (Nat.eqb_spec (length out) 4); [lia|].
    apply reads_app in Hr as (d1 & H3 & H4). rewrite (proj2 (decode_attachment_decodes d a d1)) by eauto. cbn [mbind option_bind].
    rewrite (IH rest' k (out ++ [a]) d1 d'); [by rewrite <- app_assoc|simpl in Hf; lia|done|done|].
    rewrite !length_app. simpl. lia.
Qed.

Lemma flatten_elements_length vs : (length vs < length (flatten_elements vs))%nat.
Proof.
  induction vs as [|v vs IH]; [simpl; lia|]. cbn [flatten_elements]. fold flatten_elements. rewrite length_app.
  destruct (flatten_cons v) as (t & ts & -> & _). simpl. lia.
Qed.

Lemma decodeJSONAttachments_decodes : decodes decodeJSONAttachments is_attachments.
Proof.
  intros d l d'. unfold decodeJSONAttachments, open. split.
  - destruct (close "[" d) as [d1|] eqn:E; [|done]. cbn [mbind option_bind]. intros H. apply close_reads in E.
    apply attachments_sound in H as (vs & rest & H1 & H2 & -> & H4); [|simpl; lia]. exists (Array vs). rewrite flatten_array.
    split; [exact (reads_trans _ _ _ [TDelim "["] _ E H1)|]. by exists vs.
  - intros (v & Hr & vs & -> & H2 & Hl). rewrite flatten_array in Hr. apply reads_cons in Hr as [H0 H1].
    apply close_reads in H0 as ->. cbn [mbind option_bind]. rewrite (attachments_complete vs l _ [] _ d'); [done| |done|done|done].
    simpl. rewrite length_app. pose proof (flatten_elements_length vs). lia.
Qed.

(** ** The message *)

Definition put_text (key : string) (m : jsonMessage) (v : string) : option jsonMessage :=
  if String.eqb key "date" then Some (m <| jm_Date := v |>)
  else if String.eqb key "subject" then Some (m <| jm_Subject := v |>)
  else if String.eqb key "from_name" then Some (m <| jm_FromName := v |>)
  else if String.eqb key "reply_to" then Some (m <| jm_ReplyTo := v |>)
  else if String.eqb key "text" then Some (m <| jm_Text := v |>)
  else if String.eqb key "html" then Some (m <| jm_HTML := v |>)
  else None.

Definition message_field (key : string) (m : jsonMessage) (v : tree) (m' : jsonMessage) : Prop :=
  if String.eqb key "template" then exists t, is_template v t /\ m' = m <| jm_Template := Some t |>
  else if String.eqb key "attachments" then exists l, is_attachments v l /\ m' = m <| jm_Attachments := l |>
  else exists s, v = Text s /\ put_text key m s = Some m'.

Lemma message_step_decodes key m : decodes (message_step key m) (fun v m' => message_field key m v m').
Proof.
  intros d b d'. unfold message_step, message_field. destruct (String.eqb key "template").
  { apply (decodes_bind _ _ (fun t => m <| jm_Template := Some t |>)), decodeJSONTemplate_decodes. }
  destruct (String.eqb key "attachments").
  { apply (decodes_bind _ _ (fun l => m <| jm_Attachments := l |>)), decodeJSONAttachments_decodes. }
  rewrite <- (decodes_text_bind (put_text key m)). unfold put_text.
  destruct (read_text d) as [[x d1]|]; [|done]. simpl. by repeat destruct (String.eqb key _).
Qed.

Definition message_keys : list string :=
  ["date"; "subject"; "from_name"; "reply_to"; "text"; "html"; "attachments"; "template"]%string.

Definition message_fields (m0 : jsonMessage) (fields : list (string * tree)) (m : jsonMessage) : Prop :=
  Forall (fun kv => fst kv ∈ message_keys) fields /\
  text_at "date" fields (jm_Date m0) (jm_Date m) /\ text_at "subject" fields (jm_Subject m0) (jm_Subject m) /\
  text_at "from_name" fields (jm_FromName m0) (jm_FromName m) /\ text_at "reply_to" fields (jm_ReplyTo m0) (jm_ReplyTo m) /\
  text_at "text" fields (jm_Text m0) (jm_Text m) /\ text_at "html" fields (jm_HTML m0) (jm_HTML m) /\
  match field "attachments" fields with Some v => is_attachments v (jm_Attachments m) | None => jm_Attachments m = jm_Attachments m0 end /\
  match field "template" fields with
  | Some v => exists t, jm_Template m = Some t /\ is_template v t
  | None => jm_Template m = jm_Template m0
  end.

(** The next state after the first field, which determines it *)
Definition after_field (key : string) (m0 m : jsonMessage) : jsonMessage :=
  if String.eqb key "template" then m0 <| jm_Template := jm_Template m |>
  else if String.eqb key "attachments" then m0 <| jm_Attachments := jm_Attachments m |>
  else default m0 (put_text key m0 (
    if String.eqb key "date" then jm_Date m else if String.eqb key "subject" then jm_Subject m
    else if String.eqb key "from_name" then jm_FromName m else if String.eqb key "reply_to" then jm_ReplyTo m
    else if String.eqb key "text" then jm_Text m else jm_HTML m)).

Lemma message_runs fields : forall m0 m, NoDup (map fst fields) -> runs message_field m0 fields m <-> message_fields m0 fields m.
Proof.
  induction fields as [|[key v] fields IH]; intros m0 m Hnd.
  - split; [by inversion 1; subst; repeat split; constructor|]. intros (_ & E1 & E2 & E3 & E4 & E5 & E6 & E7 & E8).
    unfold text_at in *. simpl in *. replace m with m0; [constructor|]. destruct m0, m. simpl in *. congruence.
  - simpl in Hnd. apply NoDup_cons in Hnd as [Hk Hnd]. unfold message_fields. split.
    + inversion 1 as [|? ? ? b ? ? HS Hrun]; subst. apply IH in Hrun as (H1 & H2 & H3 & H4 & H5 & H6 & H7 & H8 & H9); [|done].
      unfold message_field, put_text in HS.
      destruct (String.eqb_spec key "template") as [->|]; [|destruct (String.eqb_spec key "attachments") as [->|]];
        [..|destruct HS as (x & -> & E);
            repeat match type of E with (if String.eqb key ?k then _ else _) = _ => destruct (String.eqb_spec key k) as [->|] end; [..|done];
            injection E as <-];
        try (destruct HS as (x & Hx & ->)); first_field Hk; subst;
        (split; [constructor; [known_key|done]|]); repeat (split; [done|]); eauto.
    + rewrite Forall_cons. intros ((Hkey & H1) & H2). simpl in Hkey. apply (runs_cons _ _ _ _ (after_field key m0 m)).
      * unfold message_keys in Hkey. rewrite !elem_of_cons, elem_of_nil in Hkey. unfold message_field, after_field.
        destruct Hkey as [->|[->|[->|[->|[->|[->|[->|[->|[]]]]]]]]]; first_field Hk;
          destruct H2 as (H2 & H3 & H4 & H5 & H6 & H7 & H8 & H9); eauto.
        destruct H9 as (t & -> & Ht). eauto.
      * apply IH; [done|]. unfold message_fields. split; [done|].
        unfold message_keys in Hkey. rewrite !elem_of_cons, elem_of_nil in Hkey. unfold after_field, put_text.
        destruct Hkey as [->|[->|[->|[->|[->|[->|[->|[->|[]]]]]]]]]; first_field Hk; tauto.
Qed.

(** ** What is accepted *)

(** The message a document stands for *)
Definition is_message (v : tree) (m : jsonMessage) : Prop :=
  exists fields, v = Object fields /\ NoDup (map fst fields) /\ message_fields empty_message fields m /\
    (is_Some (field "template" fields) -> forall k, k ∈ ["subject"; "text"; "html"]%string -> field k fields = None).

(** C22. A JSON message is read exactly as it is written.  [decodeJSONMessage]
    accepts a body exactly when it is valid UTF-8 and one whole JSON object
    whose fields are all known and occur once, with texts where texts are
    expected, at most four attachments of exactly three fields each, and a
    template reference (with at most sixteen variables of bounded size) only
    where no subject, text or html is given; and every component of the result
    is the value of its field, or empty without one. *)
Theorem decodeJSONMessage_exact {tokenizer : Tokenizer} raw m :
  decodeJSONMessage raw = Some m <->
  ValidString (string_of_list_byte raw) = true /\ exists v, NewDecoder raw = MkDecoder (flatten v) true /\ is_message v m.
Proof.
  unfold decodeJSONMessage. destruct (ValidString _); cbn [negb]; [|split; [done|by intros [? _]]].
  assert (Hcond : forall fields, message_fields empty_message fields m ->
    match jm_Template m with Some _ => true | None => false end
      && (has "subject" (reverse (map fst fields)) || has "text" (reverse (map fst fields)) || has "html" (reverse (map fst fields))) = false <->
    (is_Some (field "template" fields) -> forall k, k ∈ ["subject"; "text"; "html"]%string -> field k fields = None)).
  { intros fields (_ & _ & _ & _ & _ & _ & _ & _ & Ht).
    assert (Hs : is_Some (field "template" fields) <-> match jm_Template m with Some _ => true | None => false end = true).
    { destruct (field "template" fields) as [v|]; [destruct Ht as (t & -> & _); split; eauto|]. simpl in Ht. rewrite Ht. split; [by intros [? [=]]|done]. }
    rewrite andb_false_iff. rewrite Hs. destruct (jm_Template m) as [t|]; [|split; [done|by left]].
    assert (Hn : forall k, has k (reverse (map fst fields)) = false <-> field k fields = None).
    { intros k. rewrite <- not_true_iff_false, has_reverse, <- field_some. destruct (field k fields) as [x|]; split; try done.
      intros H. destruct H. eauto. }
    rewrite !orb_false_iff, !Hn. split.
    - intros [|[[H1 H2] H3]] _ k; [done|]. rewrite !elem_of_cons, elem_of_nil. by intros [->|[->|[->|[]]]].
    - intros H. right. repeat split; apply H; try done; set_solver. }
  split.
  - destruct (read_object _ _ _) as [[[m1 seen] d1]|] eqn:E; [|done]. cbn [mbind option_bind].
    apply (read_object_spec _ _ message_step_decodes) in E as (fields & Hr & Hrun & Hnd & ->). apply message_runs in Hrun; [|done].
    destruct (_ && _) eqn:Ec; [done|]. unfold at_eof. destruct (d_left d1) eqn:El; [|done]. destruct (d_eof d1) eqn:Ee; [|done].
    intros [= ->]. split; [done|]. exists (Object fields). split; [|exists fields; split; [done|]; split; [done|]; split; [done|]; by apply Hcond].
    destruct Hr as [H1 H2]. destruct (NewDecoder raw) as [l e]. simpl in *. rewrite El, app_nil_r in H1. congruence.
  - intros (_ & v & Hd & fields & -> & Hnd & Hf & Ht). rewrite Hd.
    rewrite (proj2 (read_object_spec _ _ message_step_decodes empty_message (MkDecoder (flatten (Object fields)) true) m
      (reverse (map fst fields)) (MkDecoder [] true))).
    + cbn [mbind option_bind]. by rewrite (proj2 (Hcond fields Hf) Ht).
    + exists fields. split; [split; [by rewrite app_nil_r|done]|]. split; [by apply message_runs|done].
Qed.

End JsonMessage.
