(* ===== verification/Templates.v ===== *)
(** * Templates of a website: [internal/api/send_templates.go]

    Templates are content-addressed: the version is a hash of everything else.
    Placeholders are literal names between double braces; a text is expanded in
    one pass.  The HTML part is compiled and executed by [html/template], which
    is an argument. *)

From stdpp Require Import sorting.
From S2P Require Import Prelude Sha256 GoText TextFacts Delivery SmtpClient Provider Database Suppression Message MessageRules Auth AesGcm Credentials Fingerprint JsonTokens JsonMessage.

Module Templates.

Import JsonTokens JsonMessage.

(** ** Text *)

(** [strings.Cut] at the first occurrence of [sep] *)
Fixpoint Cut (s sep : string) : option (string * string) :=
  if HasPrefix s sep then Some (EmptyString, drop (String.length sep) s)
  else match s with
  | EmptyString => None
  | String c rest => match Cut rest sep with Some (before, after) => Some (String c before, after) | None => None end
  end.
Definition Contains (s sub : string) : bool := match Cut s sub with Some _ => true | None => false end.

(** [unicode.IsControl] of no character of a valid UTF-8 text: the controls of
    ASCII, and U+0080 to U+009F, which begin with C2. *)
Fixpoint no_control (s : string) : bool :=
  match s with
  | EmptyString => true
  | String c rest =>
      negb ((N_of_ascii c <? 32)%N || (N_of_ascii c =? 127)%N)
      && negb ((N_of_ascii c =? 194)%N && match rest with String d _ => in_range 128 159 d | EmptyString => false end)
      && no_control rest
  end.

(** [safeJSONHeader] of [send_json.go] *)
Definition safeJSONHeader (s : string) (limit : nat) : bool := ValidString s && (String.length s <=? limit)%nat && no_control s.

(** ** Templates *)

Class HtmlTemplates := MkHtmlTemplates {
  compiled : Type;
  html_parse : string -> option compiled;
  html_execute : compiled -> gmap string string -> option string }.

Section Templates.
  Context {html : HtmlTemplates}.

Record SendTemplate := MkTemplate {
  te_ID : string; te_Language : string; te_Version : string; te_Subject : string; te_Text : string; te_HTML : string;
  te_Variables : list string; te_compiled : option compiled }.
#[global] Instance eta_SendTemplate : Eta SendTemplate := fun t =>
  MkTemplate (te_ID t) (te_Language t) (te_Version t) (te_Subject t) (te_Text t) (te_HTML t) (te_Variables t) (te_compiled t).

(** ** [TemplateVersion] *)

(** [binary.BigEndian.PutUint64] of a length *)
Fixpoint big_endian (k : nat) (n : N) : list byte :=
  match k with O => [] | S j => byte_of_N (N.shiftr n (8 * N.of_nat j)) :: big_endian j n end.
Definition prefixed (s : string) : list byte := big_endian 8 (N.of_nat (String.length s)) ++ bytes_of s.

Definition version_fields (t : SendTemplate) : list string :=
  [te_ID t; te_Subject t; te_Text t; te_HTML t] ++ (if String.eqb (te_Language t) "" then [] else [te_Language t])
  ++ sort_by String.leb (te_Variables t).
Definition version_input (t : SendTemplate) : list byte :=
  bytes_of (if String.eqb (te_Language t) "" then "relaytale.template.v1" else "relaytale.template.v2")
  ++ x00 :: concat (map prefixed (version_fields t)).
Definition TemplateVersion (t : SendTemplate) : string := EncodeToString (Sha.Sum256 (version_input t)).

(** ** Sources *)

Definition open_braces : string := "{{".
Definition close_braces : string := "}}".

(** The source for [html/template], and the names used; one unit of fuel per
    placeholder *)
Fixpoint source_loop (fuel : nat) (source : string) (names used : gset string) (as_html : bool) : option (string * gset string) :=
  match fuel with
  | O => None
  | S k =>
      match Cut source open_braces with
      | None => if Contains source close_braces then None else Some (source, used)
      | Some (before, after) =>
          if Contains before close_braces then None
          else match Cut after close_braces with
          | None => None
          | Some (name, rest) =>
              if negb (bool_decide (name ∈ names)) then None
              else match source_loop k rest names ({[name]} ∪ used) as_html with
              | None => None
              | Some (out, used) =>
                  let hole := if as_html then ("{{index . " ++ String "034" (name ++ String "034" "}}"))%string
                              else (open_braces ++ name ++ close_braces)%string in
                  Some ((before ++ hole ++ out)%string, used)
              end
          end
      end
  end.
Definition templateSource (source : string) (names used : gset string) (as_html : bool) : option (string * gset string) :=
  source_loop (S (String.length source)) source names used as_html.

(** ** [prepareTemplates] *)

Definition limit16 : nat := Z.to_nat (Z.shiftl 16 10).

Fixpoint variable_names (names : gset string) (l : list string) : option (gset string) :=
  match l with
  | [] => Some names
  | name :: rest => if negb (templateName name) || bool_decide (name ∈ names) then None else variable_names ({[name]} ∪ names) rest
  end.

Definition template_key (t : SendTemplate) : string := (te_ID t ++ ":" ++ te_Version t)%string.

Definition prepare_one (seen : list string) (t : SendTemplate) : option SendTemplate :=
  if negb (templateName (te_ID t)) || negb (templateLanguage (te_Language t)) || negb (String.eqb (te_Version t) (TemplateVersion t))
     || existsb (String.eqb (template_key t)) seen || negb (safeJSONHeader (te_Subject t) 256)
     || (limit16 <? String.length (te_Text t))%nat || (limit16 <? String.length (te_HTML t))%nat
     || negb (ValidString (te_Text t)) || negb (ValidString (te_HTML t))
     || (String.eqb (te_Text t) "" && String.eqb (te_HTML t) "") || (16 <? length (te_Variables t))%nat
  then None
  else
    names ← variable_names ∅ (te_Variables t);
    '(_, used) ← templateSource (te_Subject t) names ∅ false;
    '(_, used) ← templateSource (te_Text t) names used false;
    '(source, used) ← templateSource (te_HTML t) names used true;
    if negb (size used =? size names)%nat then None
    else
      c ← html_parse source;
      _ ← html_execute c (set_to_map (fun name => (name, "value"%string)) names);
      Some (t <| te_compiled := Some c |>).

Fixpoint prepare_all (seen : list string) (catalog : list SendTemplate) : option (list SendTemplate) :=
  match catalog with
  | [] => Some []
  | t :: rest => t' ← prepare_one seen t; rest' ← prepare_all (template_key t :: seen) rest; Some (t' :: rest')
  end.
(** The result is what the slice holds afterwards. *)
Definition prepareTemplates (catalog : list SendTemplate) : option (list SendTemplate) :=
  if (8 <? length catalog)%nat then None else prepare_all [] catalog.

Definition templateVersions (catalog : list SendTemplate) : json :=
  JArr (map (fun t => JObj [("id", JStr (te_ID t)); ("language", JStr (te_Language t)); ("version", JStr (te_Version t))]%string) catalog).

(** ** [resolveJSONTemplate] *)

(** [templateOutput.Write]: what is written, within 16 KiB *)
Definition Write (b p : string) : option string :=
  if (limit16 <? String.length b + String.length p)%nat then None else Some (b ++ p)%string.

(** The closure [expand] *)
Fixpoint expand_loop (fuel : nat) (values : gmap string string) (b source : string) : option string :=
  match fuel with
  | O => None
  | S k =>
      match Cut source open_braces with
      | None => Write b source
      | Some (before, after) =>
          b ← Write b before;
          (* without a closing brace the name is all of the rest *)
          let (name, rest) := match Cut after close_braces with Some nr => nr | None => (after, EmptyString) end in
          b ← Write b (default EmptyString (values !! name));
          expand_loop k values b rest
      end
  end.
Definition expand (values : gmap string string) (source : string) : option string :=
  expand_loop (S (String.length source)) values EmptyString source.

Definition matches_reference (ref : jsonTemplateReference) (t : SendTemplate) : bool :=
  String.eqb (te_ID t) (tr_ID ref) && String.eqb (te_Version t) (tr_Version ref) && String.eqb (te_Language t) (tr_Language ref).

Definition resolve_with (v : jsonMessage) (ref : jsonTemplateReference) (t : SendTemplate) : option jsonMessage :=
  match te_compiled t with
  | None => None
  | Some c =>
      if negb (size (tr_Variables ref) =? length (te_Variables t))%nat then None
      else if negb (forallb (fun name => not_null (tr_Variables ref !! name)) (te_Variables t)) then None
      else
        subject ← expand (tr_Variables ref) (te_Subject t);
        text ← expand (tr_Variables ref) (te_Text t);
        body ← html_execute c (tr_Variables ref);
        body ← Write EmptyString body;
        if Contains body "#ZgotmplZ" then None
        else Some (v <| jm_Subject := subject |> <| jm_Text := text |> <| jm_HTML := body |>)
  end.

Definition resolveJSONTemplate (v : jsonMessage) (catalog : list SendTemplate) : option jsonMessage :=
  match jm_Template v with
  | None => Some v
  | Some ref =>
      match List.find (matches_reference ref) catalog with
      | None => None
      | Some t => resolve_with v ref t
      end
  end.

(** ** Templates as JSON: [VersionTemplateJSON], [PreviewTemplateJSON]

    Decoding into the struct, with unknown fields refused, is [encoding/json]'s. *)

Class TemplateDecoder := decode_template : list byte -> option SendTemplate.
Context {tokenizer : Tokenizer} {lower : LowerCase} {decoder : TemplateDecoder}.

Definition VersionTemplateJSON (raw : list byte) : option SendTemplate :=
  if (32768 <? Z.of_nat (length raw)) || negb (ValidString (string_of_list_byte raw)) || negb (uniqueJSON (NewDecoder raw)) then None
  else
    t ← decode_template raw;
    let t := if String.eqb (te_Version t) "" then t <| te_Version := TemplateVersion t |> else t in
    _ ← prepareTemplates [t]; Some t.

Definition reference_to (t : SendTemplate) (values : gmap string string) : jsonTemplateReference :=
  MkReference (te_ID t) (te_Language t) (te_Version t) values.

Definition PreviewTemplateJSON (source variables : list byte) : option jsonMessage :=
  t ← VersionTemplateJSON source;
  if (16384 <? Z.of_nat (length variables)) || negb (ValidString (string_of_list_byte variables)) then None
  else
    '(values, d) ← decodeTemplateVariables (NewDecoder variables);
    if negb (at_eof d) then None
    else
      catalog ← prepareTemplates [t];
      v ← resolveJSONTemplate (empty_message <| jm_Template := Some (reference_to t values) |>) catalog;
      if safeJSONHeader (jm_Subject v) 256 then Some v else None.

(** ** Cutting *)

Lemma append_empty_r s : (s ++ EmptyString)%string = s.
Proof. induction s as [|c s IH]; [done|]. rewrite append_cons. by f_equal. Qed.

Lemma HasPrefix_split s p : HasPrefix s p = true -> s = (p ++ drop (String.length p) s)%string.
Proof.
  unfold HasPrefix. revert s. induction p as [|c p IH]; intros s; [by destruct s|]. destruct s as [|x s]; [done|]. simpl.
  destruct (ascii_dec c x) as [->|]; [|done]. intros H. rewrite append_cons. f_equal. by apply IH.
Qed.

Lemma Cut_some s sep a b : Cut s sep = Some (a, b) -> s = (a ++ sep ++ b)%string.
Proof.
  revert a b. induction s as [|c s IH]; intros a b; cbn [Cut].
  - destruct (HasPrefix "" sep) eqn:E; [|done]. intros [= <- <-]. rewrite append_nil. by apply HasPrefix_split.
  - destruct (HasPrefix (String c s) sep) eqn:E.
    + intros [= <- <-]. rewrite append_nil. by apply HasPrefix_split.
    + destruct (Cut s sep) as [[x y]|]; [|done]. intros [= <- <-]. rewrite append_cons. f_equal. by apply IH.
Qed.

(** What comes before the cut does not contain the separator. *)
Lemma prefix_app_l s t p : HasPrefix s p = true -> HasPrefix (s ++ t) p = true.
Proof. intros H. rewrite (HasPrefix_split s p H), append_assoc. apply prefix_append. Qed.

Lemma Cut_before s sep a b : Cut s sep = Some (a, b) -> sep <> EmptyString -> Cut a sep = None.
Proof.
  intros H Hne. revert a b H. induction s as [|c s IH]; intros a b; cbn [Cut].
  - destruct (HasPrefix "" sep) eqn:E; [|done]. destruct sep; done.
  - destruct (HasPrefix (String c s) sep) eqn:E; [intros [= <- <-]; by destruct sep|].
    destruct (Cut s sep) as [[x y]|] eqn:Es; [|done]. intros [= <- <-]. cbn [Cut].
    destruct (HasPrefix (String c x) sep) eqn:Ex; [|by rewrite (IH x y)].
    apply (prefix_app_l _ (sep ++ y)) in Ex. rewrite append_cons, <- (Cut_some _ _ _ _ Es) in Ex. congruence.
Qed.

Lemma Cut_length s sep a b : Cut s sep = Some (a, b) -> String.length s = (String.length a + String.length sep + String.length b)%nat.
Proof. intros ->%Cut_some. rewrite !length_append. lia. Qed.

(** ** Pieces of a source *)

Inductive piece := Lit (s : string) | Hole (name : string).

Definition spell (p : piece) : string := match p with Lit s => s | Hole n => (open_braces ++ n ++ close_braces)%string end.
Definition unparse (ps : list piece) : string := foldr (fun p s => spell p ++ s)%string EmptyString ps.
Definition filled (values : gmap string string) (p : piece) : string :=
  match p with Lit s => s | Hole n => default EmptyString (values !! n) end.
Definition fill (values : gmap string string) (ps : list piece) : string := foldr (fun p s => filled values p ++ s)%string EmptyString ps.
Definition holes (ps : list piece) : gset string := foldr (fun p X => match p with Lit _ => X | Hole n => {[n]} ∪ X end) ∅ ps.

(** Literals are free of both kinds of braces. *)
Definition literal_ok (p : piece) : Prop :=
  match p with Lit s => Contains s open_braces = false /\ Contains s close_braces = false | Hole n => Contains n close_braces = false end.

(** How the loops cut a source: literal, hole, literal, hole, ... *)
Inductive parsed : string -> list piece -> Prop :=
| parsed_end s : Cut s open_braces = None -> Contains s close_braces = false -> parsed s [Lit s]
| parsed_hole s before after name rest ps : Cut s open_braces = Some (before, after) -> Contains before close_braces = false ->
    Cut after close_braces = Some (name, rest) -> parsed rest ps -> parsed s (Lit before :: Hole name :: ps).

Lemma parsed_spec s ps : parsed s ps -> s = unparse ps /\ Forall literal_ok ps.
Proof.
  induction 1 as [s H1 H2|s before after name rest ps H1 H2 H3 Hp [IH1 IH2]].
  - cbn [unparse foldr spell]. split; [by rewrite append_empty_r|].
    constructor; [|done]. split; [|done]. unfold Contains. by rewrite H1.
  - split.
    + rewrite (Cut_some _ _ _ _ H1) at 1. rewrite (Cut_some _ _ _ _ H3) at 1. cbn [unparse foldr spell]. rewrite !append_assoc.
      fold (unparse ps). by rewrite <- IH1.
    + constructor; [|constructor; [|done]].
      * split; [|done]. unfold Contains. by rewrite (Cut_before _ _ _ _ H1).
      * simpl. unfold Contains. by rewrite (Cut_before _ _ _ _ H3).
Qed.

Lemma parsed_det s ps qs : parsed s ps -> parsed s qs -> ps = qs.
Proof.
  intros H. revert qs. induction H as [s H1 H2|s before after name rest ps H1 H2 H3 Hp IH]; intros qs; inversion 1; subst; try congruence.
  simplify_eq. do 2 f_equal. eauto.
Qed.

Lemma source_parsed fuel : forall source names used b out used', source_loop fuel source names used b = Some (out, used') ->
  exists ps, parsed source ps /\ holes ps ⊆ names /\ used' = used ∪ holes ps.
Proof.
  induction fuel as [|k IH]; [done|]. intros source names used b out used'. cbn [source_loop].
  destruct (Cut source open_braces) as [[before after]|] eqn:Ec.
  - destruct (Contains before close_braces) eqn:Eb; [done|]. destruct (Cut after close_braces) as [[name rest]|] eqn:Ea; [|done].
    case_bool_decide as Hn; [|done]. cbn [negb]. destruct (source_loop k rest names _ b) as [[o u]|] eqn:E; [|done].
    intros [= _ <-]. apply IH in E as (ps & Hp & Hsub & ->). exists (Lit before :: Hole name :: ps).
    split; [by eapply parsed_hole|]. simpl. set_solver.
  - destruct (Contains source close_braces) eqn:Eb; [done|]. intros [= _ <-]. exists [Lit source].
    split; [by apply parsed_end|]. simpl. set_solver.
Qed.

Lemma source_complete source ps names b : parsed source ps -> holes ps ⊆ names -> forall fuel used, (String.length source < fuel)%nat ->
  exists out, source_loop fuel source names used b = Some (out, used ∪ holes ps).
Proof.
  induction 1 as [s H1 H2|s before after name rest ps H1 H2 H3 Hp IH]; intros Hsub fuel used Hf;
    (destruct fuel as [|k]; [lia|]); cbn [source_loop]; rewrite H1.
  - rewrite H2. exists s. do 2 f_equal. simpl. set_solver.
  - rewrite H2, H3. rewrite bool_decide_eq_true_2 by (simpl in Hsub; set_solver). cbn [negb].
    destruct (IH ltac:(simpl in Hsub; set_solver) k ({[name]} ∪ used)) as (out & ->).
    { apply Cut_length in H1, H3. simpl in H1, H3. lia. }
    eexists. do 2 f_equal. simpl. set_solver.
Qed.

(** Expansion fills the holes, in one pass, if the result is small enough. *)
Lemma Write_spec b p : Write b p = if (limit16 <? String.length (b ++ p))%nat then None else Some (b ++ p)%string.
Proof. unfold Write. by rewrite length_append. Qed.

Lemma expand_parsed values source ps : parsed source ps -> forall fuel b, (String.length source < fuel)%nat ->
  (String.length b <= limit16)%nat ->
  expand_loop fuel values b source = if (limit16 <? String.length (b ++ fill values ps))%nat then None else Some (b ++ fill values ps)%string.
Proof.
  intros Hp. induction Hp as [s H1 H2|s before after name rest ps H1 H2 H3 Hp IH]; intros fuel b Hf Hb;
    (destruct fuel as [|k]; [lia|]); cbn [expand_loop]; rewrite H1.
  - rewrite Write_spec. cbn [fill foldr filled]. by rewrite append_empty_r.
  - rewrite H3, Write_spec. cbn [fill foldr filled]. fold (fill values ps). rewrite <- !append_assoc.
    set (x := default EmptyString (values !! name)) in *.
    destruct (Nat.ltb_spec limit16 (String.length (b ++ before))) as [Hl|Hl].
    { simpl. destruct (Nat.ltb_spec limit16 (String.length (((b ++ before) ++ x) ++ fill values ps))) as [|Hx]; [done|].
      rewrite !length_append in *. lia. }
    cbn [mbind option_bind]. rewrite Write_spec. destruct (Nat.ltb_spec limit16 (String.length ((b ++ before) ++ x))) as [Hl2|Hl2].
    { simpl. destruct (Nat.ltb_spec limit16 (String.length (((b ++ before) ++ x) ++ fill values ps))) as [|Hx]; [done|].
      rewrite !length_append in *. lia. }
    cbn [mbind option_bind]. apply IH; [|done]. apply Cut_length in H1, H3. simpl in H1, H3. lia.
Qed.

(** ** A prepared catalogue *)

Lemma variable_names_spec l : forall names names', variable_names names l = Some names' ->
  NoDup l /\ Forall (fun n => templateName n = true) l /\ (forall n, n ∈ l -> n ∉ names) /\ names' = list_to_set l ∪ names.
Proof.
  induction l as [|x l IH]; intros names names'; cbn [variable_names].
  - intros [= <-]. split; [constructor|]. split; [constructor|]. split; [intros n Hn; by apply not_elem_of_nil in Hn|set_solver].
  - destruct (templateName x) eqn:Et; [|done]. case_bool_decide as Hx; [done|]. cbn [negb orb]. intros H.
    apply IH in H as (H1 & H2 & H3 & ->). split; [|split; [by constructor|split]].
    + constructor; [|done]. intros Hin. specialize (H3 x Hin). set_solver.
    + intros n [->|Hn]%elem_of_cons; [done|]. specialize (H3 n Hn). set_solver.
    + simpl. set_solver.
Qed.

(** A template as [prepareTemplates] leaves it: its version is its content's,
    the variables are those the three sources use, each once, and the compiled
    form is that of its own HTML source. *)
Record prepared (t : SendTemplate) : Prop := {
  pr_id : templateName (te_ID t) = true /\ templateLanguage (te_Language t) = true;
  pr_version : te_Version t = TemplateVersion t;
  pr_names : NoDup (te_Variables t) /\ Forall (fun n => templateName n = true) (te_Variables t);
  pr_sources : exists subject text body source c,
    parsed (te_Subject t) subject /\ parsed (te_Text t) text /\ parsed (te_HTML t) body /\
    list_to_set (te_Variables t) = holes subject ∪ holes text ∪ holes body /\
    (exists used, templateSource (te_HTML t) (list_to_set (te_Variables t)) used true = Some (source, list_to_set (te_Variables t))) /\
    html_parse source = Some c /\ te_compiled t = Some c }.

Lemma prepare_one_spec seen t t' : prepare_one seen t = Some t' ->
  prepared t' /\ t' = t <| te_compiled := te_compiled t' |> /\ template_key t ∉ seen.
Proof.
  unfold prepare_one. destruct (_ || (16 <? _)%nat) eqn:E; [done|].
  destruct (variable_names ∅ (te_Variables t)) as [names|] eqn:En; [|done]. cbn [mbind option_bind].
  destruct (templateSource (te_Subject t) names ∅ false) as [[o1 u1]|] eqn:E1; [|done]. cbn [mbind option_bind].
  destruct (templateSource (te_Text t) names u1 false) as [[o2 u2]|] eqn:E2; [|done]. cbn [mbind option_bind].
  destruct (templateSource (te_HTML t) names u2 true) as [[source u3]|] eqn:E3; [|done]. cbn [mbind option_bind].
  destruct (Nat.eqb_spec (size u3) (size names)) as [Hsz|]; [|done]. cbn [negb].
  destruct (html_parse source) as [c|] eqn:Ep; [|done]. cbn [mbind option_bind].
  destruct (html_execute c _) as [dummy|]; [|done]. cbn [mbind option_bind]. intros [= <-].
  rewrite !orb_false_iff, !negb_false_iff in E. destruct E as ((((((((((Hid & Hlang) & Hv) & Hseen) & _) & _) & _) & _) & _) & _) & _).
  apply variable_names_spec in En as (H1 & H2 & _ & ->). rewrite union_empty_r_L in *.
  pose proof E3 as E3'. apply source_parsed in E1 as (p1 & P1 & S1 & ->), E2 as (p2 & P2 & S2 & ->), E3 as (p3 & P3 & S3 & ->).
  rewrite union_empty_l_L in *.
  assert (Hnames : (list_to_set (te_Variables t) : gset string) = holes p1 ∪ holes p2 ∪ holes p3).
  { symmetry. apply set_subseteq_size_eq; [set_solver|lia]. }
  split; [|split; [done|by apply seen_false in Hseen]]. split.
  - done.
  - change (te_Version t = TemplateVersion t). by apply String.eqb_eq.
  - done.
  - exists p1, p2, p3, source, c. simpl. rewrite <- Hnames in E3'. do 4 (split; [done|]). split; [eauto|done].
Qed.

Lemma prepare_all_spec catalog : forall seen catalog', prepare_all seen catalog = Some catalog' ->
  Forall prepared catalog' /\ NoDup (map template_key catalog') /\ (forall t, t ∈ catalog' -> template_key t ∉ seen) /\
  Forall2 (fun t t' => t' = t <| te_compiled := te_compiled t' |>) catalog catalog'.
Proof.
  induction catalog as [|t catalog IH]; intros seen catalog'; cbn [prepare_all].
  - intros [= <-]. split; [constructor|]. split; [constructor|]. split; [|constructor]. intros t Ht. by apply not_elem_of_nil in Ht.
  - destruct (prepare_one seen t) as [t'|] eqn:E; [|done]. cbn [mbind option_bind].
    destruct (prepare_all _ catalog) as [rest|] eqn:Er; [|done]. simpl. intros [= <-].
    apply prepare_one_spec in E as (Hp & Et & Hs). apply IH in Er as (H1 & H2 & H3 & H4).
    assert (Hkey : template_key t' = template_key t) by (rewrite Et; done).
    split; [by constructor|]. split; [|split; [|by constructor]].
    + simpl. apply NoDup_cons. split; [|done]. intros Hin. apply list_elem_of_fmap in Hin as (x & Ex & Hx).
      apply (H3 x Hx). rewrite <- Ex, Hkey. by left.
    + intros x [->|Hx]%elem_of_cons; [by rewrite Hkey|]. specialize (H3 x Hx). rewrite not_elem_of_cons in H3. tauto.
Qed.

Lemma find_matching ref catalog t : NoDup (map template_key catalog) ->
  List.find (matches_reference ref) catalog = Some t <-> t ∈ catalog /\ matches_reference ref t = true.
Proof.
  intros Hnd. split.
  - intros H. apply List.find_some in H as [H1 H2]. split; [by apply list_elem_of_In|done].
  - induction catalog as [|x catalog IH]; intros [Hin Hm]; [by apply not_elem_of_nil in Hin|]. simpl in *.
    apply NoDup_cons in Hnd as [Hx Hnd]. destruct (matches_reference ref x) eqn:Ex.
    + apply elem_of_cons in Hin as [->|Hin]; [done|]. destruct Hx. apply list_elem_of_fmap. exists t. split; [|done].
      unfold matches_reference, template_key in *. bsimpl. destruct Hm as [[M1 M2] _], Ex as [[X1 X2] _]. congruence.
    + apply elem_of_cons in Hin as [->|Hin]; [congruence|]. by apply IH.
Qed.

(** The reference has a value for each variable, and for nothing else. *)
Lemma values_complete (m : gmap string string) l : NoDup l ->
  (negb (size m =? length l)%nat = false /\ negb (forallb (fun n => not_null (m !! n)) l) = false) <-> dom m = list_to_set l.
Proof.
  intros Hnd. rewrite !negb_false_iff, Nat.eqb_eq, forallb_forall.
  assert (Hd : (forall x, In x l -> not_null (m !! x) = true) <-> list_to_set l ⊆ dom m).
  { split; intros H x Hx.
    - apply elem_of_list_to_set, list_elem_of_In, H in Hx. apply elem_of_dom. by destruct (m !! x).
    - assert (x ∈ dom m) as Hm by (apply H, elem_of_list_to_set, list_elem_of_In, Hx). apply elem_of_dom in Hm as [y ->]. done. }
  rewrite Hd, <- (size_dom m). split.
  - intros [Hs Hsub]. symmetry. apply set_subseteq_size_eq; [done|]. rewrite size_list_to_set by done. lia.
  - intros ->. rewrite size_list_to_set by done. done.
Qed.

Definition expanded (values : gmap string string) (ps : list piece) (s : string) : Prop :=
  s = fill values ps /\ (String.length s <= limit16)%nat.

Lemma expand_exact values source ps s : parsed source ps -> expand values source = Some s <-> expanded values ps s.
Proof.
  intros Hp. unfold expand, expanded. rewrite (expand_parsed values source ps Hp) by (simpl; lia). rewrite append_nil.
  destruct (Nat.ltb_spec limit16 (String.length (fill values ps))); split; try done; [intros [-> ?]; lia|by intros [= <-]|by intros [-> _]].
Qed.

(** Templates are filled in and nothing more.  For a message that refers
    to a template of a prepared catalogue, resolution succeeds exactly when
    the referenced version is there, the reference gives a value to each of
    its variables and to nothing else, and the results are within 16 KiB; then
    subject and text are the template's literal pieces with each placeholder
    replaced by its value, in one pass, so that values are never read as
    placeholders; the HTML is what the compiled template of that version gives
    for these values; and the message is otherwise unchanged.  The variables of
    a prepared template are exactly the names in its sources. *)
Theorem resolve_exact catalog catalog' v ref v' :
  prepareTemplates catalog = Some catalog' -> jm_Template v = Some ref ->
  resolveJSONTemplate v catalog' = Some v' <->
  exists t c subject text body_source body,
    t ∈ catalog' /\ matches_reference ref t = true /\ prepared t /\ te_compiled t = Some c /\
    parsed (te_Subject t) subject /\ parsed (te_Text t) text /\ parsed (te_HTML t) body_source /\
    dom (tr_Variables ref) = holes subject ∪ holes text ∪ holes body_source /\
    expanded (tr_Variables ref) subject (jm_Subject v') /\ expanded (tr_Variables ref) text (jm_Text v') /\
    html_execute c (tr_Variables ref) = Some body /\ (String.length body <= limit16)%nat /\ Contains body "#ZgotmplZ" = false /\
    v' = v <| jm_Subject := jm_Subject v' |> <| jm_Text := jm_Text v' |> <| jm_HTML := body |>.
Proof.
  unfold prepareTemplates, resolveJSONTemplate. destruct (8 <? length catalog)%nat; [done|]. intros Hcat ->.
  apply prepare_all_spec in Hcat as (Hall & Hnd & _ & _). rewrite Forall_forall in Hall. split.
  - destruct (List.find _ _) as [t|] eqn:Ef; [|done]. apply find_matching in Ef as [Hin Hm]; [|done].
    pose proof (Hall t Hin) as Hp. destruct (pr_sources t Hp) as (p1 & p2 & p3 & source & c & P1 & P2 & P3 & Hn & _ & _ & Hc).
    unfold resolve_with. rewrite Hc. destruct (negb (size _ =? _)%nat) eqn:E1; [done|]. destruct (negb (forallb _ _)) eqn:E2; [done|].
    pose proof (proj1 (values_complete _ _ (proj1 (pr_names t Hp))) (conj E1 E2)) as Hd.
    destruct (expand _ (te_Subject t)) as [subject|] eqn:X1; [|done]. destruct (expand _ (te_Text t)) as [text|] eqn:X2; [|done].
    cbn [mbind option_bind]. destruct (html_execute c _) as [body|] eqn:X3; [|done]. cbn [mbind option_bind]. rewrite Write_spec, append_nil.
    destruct (Nat.ltb_spec limit16 (String.length body)) as [|Hb]; [done|]. cbn [mbind option_bind].
    destruct (Contains body _) eqn:X4; [done|]. intros [= <-].
    apply (expand_exact _ _ _ _ P1) in X1. apply (expand_exact _ _ _ _ P2) in X2.
    exists t, c, p1, p2, p3, body. simpl. rewrite Hd, Hn. done.
  - intros (t & c & p1 & p2 & p3 & body & Hin & Hm & Hp & Hc & P1 & P2 & P3 & Hd & X1 & X2 & X3 & Hb & X4 & ->).
    rewrite (proj2 (find_matching ref catalog' t Hnd)) by done. unfold resolve_with. rewrite Hc.
    assert (Hn : dom (tr_Variables ref) = list_to_set (te_Variables t)).
    { destruct (pr_sources t Hp) as (q1 & q2 & q3 & source & c' & Q1 & Q2 & Q3 & Hn & _). rewrite Hd, Hn.
      by rewrite (parsed_det _ _ _ P1 Q1), (parsed_det _ _ _ P2 Q2), (parsed_det _ _ _ P3 Q3). }
    apply values_complete in Hn as [-> ->]; [|apply Hp]. simpl in X1, X2.
    rewrite (proj2 (expand_exact _ _ _ _ P1) X1), (proj2 (expand_exact _ _ _ _ P2) X2). cbn [mbind option_bind]. rewrite X3. cbn [mbind option_bind].
    rewrite Write_spec, append_nil. destruct (Nat.ltb_spec limit16 (String.length body)); [lia|]. cbn [mbind option_bind]. by rewrite X4.
Qed.

(** ** The version is the content's *)

#[local] Instance leb_trans : Transitive (fun a b : string => String.leb a b = true).
Proof. intros a b c. rewrite !le_str_compare. apply string_compare_trans. Qed.
#[local] Instance leb_antisym : AntiSymm (=) (fun a b : string => String.leb a b = true).
Proof. intros a b. apply String.leb_antisym. Qed.

Lemma sorted_names l : StronglySorted (fun a b : string => String.leb a b = true) (sort_by String.leb l).
Proof. apply sort_by_sorted; [apply String.leb_total|]. intros a b c. apply leb_trans. Qed.

Lemma sort_names_eq l l' : l ≡ₚ l' <-> sort_by String.leb l = sort_by String.leb l'.
Proof.
  split.
  - intros H. apply (StronglySorted_unique (fun a b => String.leb a b = true)); [apply sorted_names|apply sorted_names|].
    by rewrite !sort_by_perm.
  - intros H. by rewrite <- (sort_by_perm String.leb l), H, sort_by_perm.
Qed.

Lemma big_endian_length k n : length (big_endian k n) = k.
Proof. induction k as [|k IH]; simpl; congruence. Qed.

Lemma byte_of_N_inj a b : byte_of_N a = byte_of_N b -> (a mod 256 = b mod 256)%N.
Proof.
  unfold byte_of_N. intros H. assert (Ha := N.mod_lt a 256 ltac:(done)). assert (Hb := N.mod_lt b 256 ltac:(done)).
  destruct (Byte.of_N (a mod 256)) as [x|] eqn:Ea; [|apply Byte.of_N_None_iff in Ea; lia].
  destruct (Byte.of_N (b mod 256)) as [y|] eqn:Eb; [|apply Byte.of_N_None_iff in Eb; lia].
  apply Byte.to_of_N in Ea, Eb. congruence.
Qed.

Lemma big_endian_inj k n m : big_endian k n = big_endian k m -> (n mod 256 ^ N.of_nat k = m mod 256 ^ N.of_nat k)%N.
Proof.
  induction k as [|k IH]; [by rewrite !N.mod_1_r|]. cbn [big_endian]. intros [= H1 H2]. apply IH in H2. apply byte_of_N_inj in H1.
  rewrite !N.shiftr_div_pow2 in H1.
  assert (Hp : (2 ^ (8 * N.of_nat k) = 256 ^ N.of_nat k)%N) by (rewrite N.pow_mul_r; done). rewrite Hp in H1.
  replace (256 ^ N.of_nat (S k))%N with (256 ^ N.of_nat k * 256)%N by (rewrite Nat2N.inj_succ, N.pow_succ_r'; lia).
  rewrite !N.Div0.mod_mul_r. congruence.
Qed.

Lemma prefixed_inj s s' l l' : (N.of_nat (String.length s) < 2 ^ 64)%N -> (N.of_nat (String.length s') < 2 ^ 64)%N ->
  prefixed s ++ l = prefixed s' ++ l' -> s = s' /\ l = l'.
Proof.
  intros Hs Hs' H. unfold prefixed in H. rewrite <- !app_assoc in H. apply app_inj_1 in H as [H1 H2]; [|by rewrite !big_endian_length].
  apply big_endian_inj in H1. change (256 ^ N.of_nat 8)%N with (2 ^ 64)%N in H1. rewrite !N.mod_small in H1 by done. apply Nat2N.inj in H1.
  apply app_inj_1 in H2 as [H2 H3]; [|by rewrite !Encryption.length_bytes]. split; [by apply Fingerprint.Fingerprint.bytes_of_inj|done].
Qed.

Lemma prefixed_list_inj l l' : Forall (fun s => (N.of_nat (String.length s) < 2 ^ 64)%N) l -> Forall (fun s => (N.of_nat (String.length s) < 2 ^ 64)%N) l' ->
  concat (map prefixed l) = concat (map prefixed l') -> l = l'.
Proof.
  revert l'. induction l as [|s l IH]; intros [|s' l'] Hl Hl' H; [done|done|done|].
  apply Forall_cons in Hl as [Hs Hl], Hl' as [Hs' Hl']. simpl in H. apply prefixed_inj in H as [-> H]; [|done|done]. f_equal. by apply IH.
Qed.

(** Everything but the version and the compiled form, variables in any order *)
Definition same_content (t t' : SendTemplate) : Prop :=
  te_ID t = te_ID t' /\ te_Language t = te_Language t' /\ te_Subject t = te_Subject t' /\ te_Text t = te_Text t' /\
  te_HTML t = te_HTML t' /\ te_Variables t ≡ₚ te_Variables t'.
(** Sizes that fit the eight bytes of a length *)
Definition sized (t : SendTemplate) : Prop := Forall (fun s => (N.of_nat (String.length s) < 2 ^ 64)%N) (version_fields t).

Lemma version_input_same t t' : sized t -> sized t' -> version_input t = version_input t' <-> same_content t t'.
Proof.
  intros Ht Ht'. unfold same_content. split.
  - intros H. unfold version_input in H. apply app_inj_1 in H as [H1 H2].
    2: { rewrite !Encryption.length_bytes. by destruct (String.eqb (te_Language t) ""), (String.eqb (te_Language t') ""). }
    apply (f_equal (@tl byte)) in H2.
    change (concat (map prefixed (version_fields t)) = concat (map prefixed (version_fields t'))) in H2. apply prefixed_list_inj in H2; [|done|done]. apply Fingerprint.Fingerprint.bytes_of_inj in H1. unfold version_fields in H2.
    destruct (String.eqb_spec (te_Language t) "") as [El|El], (String.eqb_spec (te_Language t') "") as [El'|El']; try done; simpl in H2.
    + injection H2 as E1 E2 E3 E4 E5. apply sort_names_eq in E5. rewrite El, El'. done.
    + injection H2 as E1 E2 E3 E4 E5 E6. apply sort_names_eq in E6. done.
  - intros (E1 & E2 & E3 & E4 & E5 & E6%sort_names_eq). unfold version_input, version_fields. by rewrite E1, E2, E3, E4, E5, E6.
Qed.

(** A version stands for one content.  Templates with the same
    identifier, language, subject, texts and set of variables have the same
    version; and templates with the same version agree in all of these, unless
    SHA-256 collides on the two encodings. *)
Theorem version_identifies t t' : sized t -> sized t' ->
  (same_content t t' -> TemplateVersion t = TemplateVersion t') /\
  (TemplateVersion t = TemplateVersion t' ->
   same_content t t' \/ version_input t <> version_input t' /\ Sha.Sum256 (version_input t) = Sha.Sum256 (version_input t')).
Proof.
  intros Ht Ht'. unfold TemplateVersion. split.
  - intros H. apply version_input_same in H; [|done|done]. by rewrite H.
  - intros H. apply EncodeToString_inj in H. destruct (decide (version_input t = version_input t')) as [E|]; [|by right].
    left. by apply version_input_same.
Qed.

End Templates.

(** ** A welcome message *)

#[local] Instance demo_html : HtmlTemplates := MkHtmlTemplates string Some (fun c _ => Some c).

Definition demo_content (names : list string) : SendTemplate :=
  MkTemplate "welcome" "en" "" "Hello {{name}}" "Dear {{name}}, your code is {{code}}." "" names None.
Definition demo_template : SendTemplate :=
  (demo_content ["name"; "code"]%string) <| te_Version := TemplateVersion (demo_content ["name"; "code"]%string) |>.
Definition demo_catalog : list SendTemplate := default [] (prepareTemplates [demo_template]).
Definition demo_reference : jsonTemplateReference :=
  MkReference "welcome" "en" (te_Version demo_template) {["name"%string := "{{code}}"%string; "code"%string := "1234"%string]}.
Definition demo_request : jsonMessage := empty_message <| jm_Template := Some demo_reference |>.

Example demo_resolution :
  prepareTemplates [demo_template] = Some demo_catalog /\
  option_map jm_Text (resolveJSONTemplate demo_request demo_catalog) = Some "Dear {{code}}, your code is 1234."%string.
Proof. vm_compute. done. Qed.

Lemma resolve_exact_witness :
  exists v t ps, resolveJSONTemplate demo_request demo_catalog = Some v /\ t ∈ demo_catalog /\ parsed (te_Text t) ps /\ expanded (tr_Variables demo_reference) ps (jm_Text v).
Proof.
  destruct (resolveJSONTemplate demo_request demo_catalog) as [v|] eqn:E; [|vm_compute in E; discriminate E]. exists v.
  destruct (proj1 (resolve_exact [demo_template] demo_catalog demo_request demo_reference v (proj1 demo_resolution) eq_refl) E)
    as (t & c & ps & qs & bs & body & H1 & H2 & H3 & H4 & H5 & H6 & H7 & H8 & H9 & H10 & _).
  exists t, qs. split; [reflexivity|]. split; [exact H1|]. split; [exact H6|exact H10].
Defined.

Lemma version_identifies_witness :
  TemplateVersion (demo_content ["name"; "code"]%string) = TemplateVersion (demo_content ["code"; "name"]%string).
Proof.
  apply (proj1 (version_identifies (demo_content ["name"; "code"]%string) (demo_content ["code"; "name"]%string)
    ltac:(repeat constructor) ltac:(repeat constructor))).
  repeat split. apply perm_swap.
Defined.

End Templates.
