(* ===== verification/SendJson.v ===== *)
(** * Messages built from JSON: [internal/api/send_json.go]

    A website may describe its message as JSON instead of sending it whole.
    The reader decodes the description, fills in a template, and renders the
    message; the theorem says that whatever was posted, the result consists of
    proper lines and its header is exactly the one the code writes.

    Functions of the standard library are arguments ([StdText]): [time.Parse]
    for RFC 3339, the text of a [mail.Address], encoded words and media types. *)

From S2P Require Import Prelude Sha256 GoText TextFacts JsonText Calendar Delivery SmtpStream SmtpClient Provider Database Auth Suppression Message WebhookHttp Storage Queue QueueOps MessageOps Worker Demo Frames SubmitRules Receive MessageRules AesGcm Credentials Fingerprint ApiReceive JsonTokens JsonMessage Templates.

Module SendJson.

Import JsonTokens JsonMessage Templates Message.

Class StdText := MkStdText {
  ParseRFC3339 : string -> option Zoned;               (* time.Parse *)
  address_text : string -> string -> string;           (* mail.Address.String: name, address *)
  encoded_word : string -> string;                     (* mime.QEncoding.Encode *)
  ParseMediaType : string -> option (string * list (string * string));
  attachment_disposition : string -> string }.         (* mime.FormatMediaType *)

Inductive JsonErr := errJSONMessage | ErrTooLarge | ErrBody.

(** ** Text of dates and of the canonical document *)

Definition weekdays : list string := ["Mon"; "Tue"; "Wed"; "Thu"; "Fri"; "Sat"; "Sun"]%string.
Definition months : list string := ["Jan"; "Feb"; "Mar"; "Apr"; "May"; "Jun"; "Jul"; "Aug"; "Sep"; "Oct"; "Nov"; "Dec"]%string.

(** [Format(time.RFC1123Z)] in UTC; Go's zero time was a Monday. *)
Definition RFC1123Z (t : Time) : string :=
  let '(y, m, d) := civil t in
  (nth (Z.to_nat (t / (24 * Hour) mod 7)) weekdays "" ++ ", " ++ pad 2 d ++ " " ++ nth (Z.to_nat (m - 1)) months "" ++ " " ++ pad 4 y
   ++ " " ++ pad 2 (t / Hour mod 24) ++ ":" ++ pad 2 (t / Minute mod 60) ++ ":" ++ pad 2 (t / Second mod 60) ++ " +0000")%string.

Example RFC1123Z_example : RFC1123Z ((739868 * 24 + 23) * Hour + 61 * Second) = "Thu, 10 Sep 2026 23:01:01 +0000"%string.
Proof. vm_compute. done. Qed.

Definition marshal_attachment (a : jsonAttachment) : string :=
  object [("filename", quoted (at_Filename a)); ("content_type", quoted (at_ContentType a)); ("content_base64", quoted (at_ContentBase64 a))]%string.
(** A map is written in the order of its keys. *)
Definition key_leb (x y : string * string) : bool := String.leb (fst x) (fst y).
Definition marshal_variables (m : gmap string string) : string :=
  object (map (fun kv => (fst kv, quoted (snd kv))) (sort_by key_leb (map_to_list m))).
Definition marshal_template (t : jsonTemplateReference) : string :=
  object ([("id", quoted (tr_ID t))] ++ (if String.eqb (tr_Language t) "" then [] else [("language", quoted (tr_Language t))])
          ++ [("version", quoted (tr_Version t)); ("variables", marshal_variables (tr_Variables t))])%list%string.
Definition marshal_message (v : jsonMessage) : string :=
  object ([("date", quoted (jm_Date v)); ("subject", quoted (jm_Subject v)); ("from_name", quoted (jm_FromName v));
           ("reply_to", quoted (jm_ReplyTo v)); ("text", quoted (jm_Text v)); ("html", quoted (jm_HTML v))]
          ++ (match jm_Attachments v with [] => [] | l => [("attachments", array (map marshal_attachment l))] end)
          ++ (match jm_Template v with None => [] | Some t => [("template", marshal_template t)] end))%list%string.
Definition marshal_canonical (version : Z) (v : jsonMessage) (from : string) (to : list string) (identity key : string) : string :=
  object [("Version", FormatInt version); ("Message", marshal_message v); ("From", quoted from); ("To", array (map quoted to));
          ("Identity", quoted identity); ("Key", quoted key)]%string.

(** ** Attachments: [normalizeJSONAttachments] *)

Section Render.
  Context {std : StdText} {html : HtmlTemplates} {addresses : MailParser}.

Definition attachment_name_ok (a : jsonAttachment) : bool :=
  safeJSONHeader (at_Filename a) 120 && negb (String.eqb (TrimSpace (at_Filename a)) "") && negb (String.eqb (at_Filename a) ".")
  && negb (String.eqb (at_Filename a) "..") && negb (ContainsAny (at_Filename a) (String "/" (String "092" ""))) && safeJSONHeader (at_ContentType a) 100.

Definition kind_ok (kind : string) (params : list (string * string)) : bool :=
  (length params =? 0)%nat && Contains kind "/" && negb (Contains kind "*") && negb (HasPrefix kind "multipart/") && negb (HasPrefix kind "message/").

(** [EncodedLen(16<<10)] *)
Definition encoded_limit : nat := Z.to_nat 21848.

(** The loop, with the bytes decoded so far *)
Fixpoint normalize (total : Z) (l : list jsonAttachment) : option (list jsonAttachment) :=
  match l with
  | [] => Some []
  | a :: rest =>
      if negb (attachment_name_ok a) then None
      else match ParseMediaType (at_ContentType a) with
      | None => None
      | Some (kind, params) =>
          if negb (kind_ok kind params) then None
          else if (encoded_limit <? String.length (at_ContentBase64 a))%nat || ContainsAny (at_ContentBase64 a) Auth.line_breaks then None
          else match base64_decode (at_ContentBase64 a) with
          | None => None
          | Some decoded =>
              if negb (String.eqb (base64 decoded) (at_ContentBase64 a)) then None
              else
                let total := total + Z.of_nat (length decoded) in
                if 16384 <? total then None
                else rest ← normalize total rest; Some (a <| at_ContentType := kind |> :: rest)
          end
      end
  end.
Definition normalizeJSONAttachments (l : list jsonAttachment) : option (list jsonAttachment) :=
  if (4 <? length l)%nat then None else normalize 0 l.

(** ** [renderJSONMessage] *)

Definition quote_mark : string := String "034" EmptyString.

(** The base64 text in lines of 76; the fuel is its length. *)
Fixpoint wrap (fuel : nat) (s : string) : list string :=
  match fuel with
  | O => [s]
  | S k => if (76 <? String.length s)%nat then take 76 s :: wrap k (drop 76 s) else [s]
  end.
Definition wrapped (s : string) : list string := wrap (String.length s) s.

(** The closure [part] *)
Definition part (kind content : string) : list string :=
  ["Content-Type: text/" ++ kind ++ "; charset=utf-8"; "Content-Transfer-Encoding: base64"; ""]%string ++ wrapped (base64 (bytes_of content)).

Fixpoint to_lines (start : string) (to : list string) : list string :=
  match to with
  | [] => [start]
  | [a] => [start ++ address_text "" a]%string
  | a :: rest => (start ++ address_text "" a ++ ",")%string :: to_lines " " rest
  end.

Definition version_of (v : jsonMessage) : Z :=
  let version := match jm_Attachments v with [] => 1 | _ => 2 end in
  match jm_Template v with None => version | Some t => if String.eqb (tr_Language t) "" then 3 else 4 end.

(** The fields of the header before those of the content *)
Definition header_lines (date : Time) (v : jsonMessage) (from : string) (to : list string) (tag : string) : list string :=
  ["Date: " ++ RFC1123Z date; "From: " ++ address_text (jm_FromName v) from]%string ++ to_lines "To: " to
  ++ ["Subject: " ++ encoded_word (jm_Subject v); "Message-ID: <" ++ tag ++ "@relaytale.invalid>";
      "X-RelayTale-Builder: json-v" ++ FormatInt (version_of v); "MIME-Version: 1.0"]%string
  ++ match jm_Template v with
     | None => []
     | Some t => (if String.eqb (tr_Language t) "" then [] else ["Content-Language: " ++ tr_Language t]%string)
                 ++ ["X-RelayTale-Template: " ++ tr_ID t; "X-RelayTale-Template-Version: " ++ tr_Version t]%string
     end
  ++ (if String.eqb (jm_ReplyTo v) "" then [] else ["Reply-To: " ++ address_text "" (jm_ReplyTo v)]%string).

Definition mixed (tag : string) : string := "relaytale-json-v2-mixed-" ++ take 40 tag.
Definition alternative (tag : string) : string := "relaytale-json-v1-" ++ take 40 tag.
Definition multipart (kind boundary : string) : list string :=
  ["Content-Type: multipart/" ++ kind ++ ";"; " boundary=" ++ quote_mark ++ boundary ++ quote_mark; ""; "--" ++ boundary]%string.

Definition content_lines (v : jsonMessage) (tag : string) : list string :=
  if negb (String.eqb (jm_Text v) "") && negb (String.eqb (jm_HTML v) "") then
    multipart "alternative" (alternative tag) ++ part "plain" (jm_Text v) ++ ["--" ++ alternative tag]%string
    ++ part "html" (jm_HTML v) ++ ["--" ++ alternative tag ++ "--"]%string
  else if negb (String.eqb (jm_Text v) "") then part "plain" (jm_Text v)
  else part "html" (jm_HTML v).

Definition attachment_lines (tag : string) (a : jsonAttachment) : list string :=
  ["--" ++ mixed tag; "Content-Type: " ++ at_ContentType a; "Content-Disposition: " ++ attachment_disposition (at_Filename a);
   "Content-Transfer-Encoding: base64"; ""]%string ++ wrapped (at_ContentBase64 a).

Definition body_lines (v : jsonMessage) (tag : string) : list string :=
  match jm_Attachments v with
  | [] => content_lines v tag
  | l => multipart "mixed" (mixed tag) ++ content_lines v tag ++ concat (map (attachment_lines tag) l) ++ ["--" ++ mixed tag ++ "--"]%string
  end.

Definition line (s : string) : list byte := bytes_of s ++ [CR; LF].

(** What is checked of the description, and its normal form *)
Definition normal_message (v : jsonMessage) : option (Time * jsonMessage) :=
  match ParseRFC3339 (jm_Date v) with
  | None => None
  | Some z =>
      let date := z_at z in
      if (date <? Hook.unix_epoch * Second) || (year_10000 <=? date) || negb (date mod Second =? 0)
         || negb (safeJSONHeader (jm_Subject v) 256) || negb (safeJSONHeader (jm_FromName v) 128) || negb (safeJSONHeader (jm_ReplyTo v) 254)
         || (limit16 <? String.length (jm_Text v))%nat || (limit16 <? String.length (jm_HTML v))%nat
         || (String.eqb (jm_Text v) "" && String.eqb (jm_HTML v) "")
      then None
      else
        reply ← (if String.eqb (jm_ReplyTo v) "" then Some EmptyString else Auth.CanonicalAddress (jm_ReplyTo v));
        attachments ← (match jm_Attachments v with [] => Some [] | l => normalizeJSONAttachments l end);
        Some (date, v <| jm_Date := RFC3339 date |> <| jm_ReplyTo := reply |> <| jm_Attachments := attachments |>)
  end.

Definition renderJSONMessage (v : jsonMessage) (from : string) (to : list string) (identity key : string) : option (list byte) :=
  '(date, v) ← normal_message v;
  let tag := EncodeToString (Sha.Sum256 (bytes_of (marshal_canonical (version_of v) v from to identity key))) in
  Some (concat (map line (header_lines date v from to tag ++ body_lines v tag))).

(** ** [jsonMessageReader]: all of the body, then the message *)

Context {tokenizer : Tokenizer}.

Definition build (raw : list byte) (ok : bool) (from : string) (to : list string) (identity key : string) (catalog : list SendTemplate)
  : JsonErr + list byte :=
  if jsonMessageLimit <? Z.of_nat (length raw) then inl ErrTooLarge
  else if negb ok then inl ErrBody
  else match decodeJSONMessage raw with
  | None => inl errJSONMessage
  | Some v =>
      match resolveJSONTemplate v catalog with
      | None => inl errJSONMessage
      | Some v => match renderJSONMessage v from to identity key with None => inl errJSONMessage | Some eml => inr eml end
      end
  end.

End Render.

(** ** Text without line breaks *)

Definition tidy (s : string) : Prop := forall c, c ∈ list_ascii_of_string s -> c <> "010"%char /\ c <> "013"%char.

Definition tidy_char (c : ascii) : bool := negb (Ascii.eqb c "010") && negb (Ascii.eqb c "013").

Lemma tidy_all s : tidy s <-> all_chars tidy_char s = true.
Proof.
  rewrite all_chars_elem. unfold tidy, tidy_char. split; intros H c Hc; specialize (H c Hc).
  - destruct (Ascii.eqb_spec c "010"), (Ascii.eqb_spec c "013"); tauto.
  - destruct (Ascii.eqb_spec c "010"), (Ascii.eqb_spec c "013"); done.
Qed.

Lemma tidy_of (p : ascii -> bool) s : (forall c, p c = true -> tidy_char c = true) -> all_chars p s = true -> tidy s.
Proof. intros Hp Hs. apply tidy_all. rewrite all_chars_elem in *. auto. Qed.

Lemma tidy_append a b : tidy (a ++ b) <-> tidy a /\ tidy b.
Proof. unfold tidy. setoid_rewrite elem_append. split; [auto|]. intros [Ha Hb] c [H|H]; auto. Qed.

Lemma tidy_take_drop n s : tidy s -> tidy (take n s) /\ tidy (drop n s).
Proof. rewrite <- (take_drop n s) at 1. by rewrite tidy_append. Qed.

Lemma tidy_line_breaks s : tidy s <-> ContainsAny s Auth.line_breaks = false.
Proof.
  rewrite tidy_all. induction s as [|c s IH]; [done|]. cbn [all_chars ContainsAny]. rewrite andb_true_iff, orb_false_iff, IH.
  unfold tidy_char. simpl. rewrite orb_false_r, orb_false_iff, andb_true_iff, !negb_true_iff. done.
Qed.

Lemma tidy_plain s : tidy s -> plain_line (bytes_of s).
Proof.
  intros H. unfold plain_line, bytes_of, list_byte_of_string.
  split; intros Hin; apply list_elem_of_fmap in Hin as (c & E & Hc); destruct (H c Hc) as [H1 H2].
  - apply H2. apply (f_equal ascii_of_byte) in E. by rewrite ascii_of_byte_of_ascii in E.
  - apply H1. apply (f_equal ascii_of_byte) in E. by rewrite ascii_of_byte_of_ascii in E.
Qed.

(** Character classes the code writes *)
Lemma hex_tidy bs : tidy (EncodeToString bs).
Proof.
  apply tidy_all. induction bs as [|b bs IH]; [done|]. cbn [EncodeToString all_chars]. rewrite IH, andb_true_r.
  by destruct b; vm_compute.
Qed.

Lemma base64_tidy bs : tidy (base64 bs).
Proof.
  assert (Hd : forall n k, tidy_char (base64_char (N.shiftr n k mod 64)) = true).
  { intros n k. pose proof (Auth.base64_digit (N.shiftr n k mod 64) ltac:(apply N.mod_upper_bound; lia)) as H.
    unfold tidy_char. destruct (Ascii.eqb_spec (base64_char (N.shiftr n k mod 64)) "010") as [E|]; [by rewrite E in H|].
    destruct (Ascii.eqb_spec (base64_char (N.shiftr n k mod 64)) "013") as [E|]; [by rewrite E in H|done]. }
  apply tidy_all. revert bs. fix IH 1. intros [|a [|b [|c rest]]]; cbn [base64 all_chars]; rewrite ?Hd; [done|done|done|apply IH].
Qed.

Lemma pad_tidy w n : tidy (pad w n).
Proof.
  apply tidy_all. unfold pad. set (go := fix go (w : nat) (n : Z) (acc : string) : string := _).
  assert (H : forall w n acc, all_chars tidy_char acc = true -> all_chars tidy_char (go w n acc) = true); [|by apply H].
  clear. induction w as [|k IH]; intros n acc Hacc; [done|]. cbn. apply IH. cbn [all_chars]. rewrite Hacc, andb_true_r.
  assert (Hm := Z.mod_pos_bound n 10 ltac:(lia)).
  assert (Hc : n mod 10 = 0 \/ n mod 10 = 1 \/ n mod 10 = 2 \/ n mod 10 = 3 \/ n mod 10 = 4 \/ n mod 10 = 5 \/ n mod 10 = 6 \/
    n mod 10 = 7 \/ n mod 10 = 8 \/ n mod 10 = 9) by lia.
  repeat destruct Hc as [->|Hc]; try done. by rewrite Hc.
Qed.

Lemma nth_tidy n l : Forall tidy l -> tidy (nth n l "").
Proof. intros H. revert n. induction H as [|x l Hx _ IH]; intros [|n]; simpl; try done; by intros c Hc%elem_of_nil. Qed.

Ltac all_tidy := repeat match goal with |- _ /\ _ => split end.
Ltac tidy_const := apply tidy_all; reflexivity.

Lemma RFC1123Z_tidy t : tidy (RFC1123Z t).
Proof.
  unfold RFC1123Z. destruct (civil t) as [[y m] d]. rewrite !tidy_append.
  all_tidy; try apply pad_tidy; try tidy_const; apply nth_tidy; repeat (constructor; [tidy_const|]); constructor.
Qed.

Lemma name_tidy s : templateName s = true -> tidy s.
Proof.
  destruct s as [|c s]; [done|]. unfold templateName. rewrite !andb_true_iff. intros ((_ & Hc) & Hs).
  apply (tidy_of (fun c => is_lower c || is_digit c || Ascii.eqb c "_")); [by intros [[] [] [] [] [] [] [] []]|].
  cbn [all_chars]. by rewrite Hc, Hs.
Qed.

Lemma split_chars sep s : forall cur c, c ∈ list_ascii_of_string s -> c = sep \/ exists part, part ∈ split_at sep cur s /\ c ∈ list_ascii_of_string part.
Proof.
  induction s as [|x s IH]; intros cur c Hc; [by apply elem_of_nil in Hc|]. cbn [list_ascii_of_string split_at] in *.
  apply elem_of_cons in Hc as [->|Hc]; destruct (Ascii.eqb_spec x sep) as [->|Hne].
  - by left.
  - right. assert (H : forall cur, x ∈ list_ascii_of_string cur -> exists part, part ∈ split_at sep cur s /\ x ∈ list_ascii_of_string part).
    { clear IH. assert (Hrev : forall y, x ∈ list_ascii_of_string y -> x ∈ list_ascii_of_string (string_rev EmptyString y)).
      { intros y. rewrite <- (string_rev_rev y) at 1. generalize (string_rev EmptyString y). clear. intros z.
        induction z as [|a z IHz]; [done|]. cbn [string_rev]. rewrite string_rev_append, elem_append. simpl. rewrite !elem_of_cons, elem_of_nil. tauto. }
      induction s as [|y s IHs]; intros cur' Hx; cbn [split_at].
      - eexists. split; [by left|by apply Hrev].
      - destruct (Ascii.eqb y sep); [eexists; split; [by left|by apply Hrev]|]. apply IHs. by right. }
    apply H. by left.
  - destruct (IH EmptyString c Hc) as [->|(part & Hp & Hin)]; [by left|]. right. exists part. split; [by right|done].
  - by apply IH.
Qed.

Lemma language_tidy s : templateLanguage s = true -> tidy s.
Proof.
  unfold templateLanguage. destruct (String.eqb_spec s "") as [->|_]; [intros _; tidy_const|]. cbn [orb]. rewrite andb_true_iff.
  intros [_ H] c Hc. destruct (split_chars "-" s EmptyString c Hc) as [->|(part & Hp & Hin)]; [done|]. fold (Split s "-") in Hp.
  destruct (Split s "-") as [|first rest]; [by apply elem_of_nil in Hp|]. rewrite andb_true_iff, forallb_forall in H.
  assert (Hpart : exists b, language_part b part = true).
  { destruct H as [H1 H2]. apply elem_of_cons in Hp as [->|Hp]; [by exists true|]. exists false. by apply H2, list_elem_of_In. }
  destruct Hpart as [b Hb]. unfold language_part in Hb. rewrite !andb_true_iff in Hb. destruct Hb as [_ Hb].
  revert c Hin Hc. cut (tidy part); [intros Ht c Hin _; by apply Ht|].
  apply (tidy_of (fun c => is_lower c || negb b && is_digit c)); [|done]. destruct b; by intros [[] [] [] [] [] [] [] []].
Qed.

Lemma safe_tidy s n : safeJSONHeader s n = true -> tidy s.
Proof.
  unfold safeJSONHeader. rewrite !andb_true_iff. intros [_ H]. apply tidy_all. induction s as [|c s IH]; [done|].
  cbn [no_control] in H. rewrite !andb_true_iff in H. destruct H as [[H1 _] H2]. cbn [all_chars]. rewrite IH by done. rewrite andb_true_r.
  unfold tidy_char. destruct (Ascii.eqb_spec c "010") as [->|]; [done|]. by destruct (Ascii.eqb_spec c "013") as [->|].
Qed.

Lemma lower_tidy s : tidy s -> tidy (ToLower s).
Proof.
  rewrite !tidy_all. induction s as [|c s IH]; [done|]. cbn [all_chars ToLower]. rewrite !andb_true_iff. intros [H1 H2].
  split; [|auto]. revert H1. by destruct c as [[] [] [] [] [] [] [] []].
Qed.

Lemma canonical_tidy {addresses : MailParser} s a : Auth.CanonicalAddress s = Some a -> tidy a.
Proof.
  unfold Auth.CanonicalAddress. destruct (_ || _) eqn:E; [done|]. apply orb_false_iff in E as [_ E]. apply tidy_line_breaks in E.
  repeat case_match; try done. intros [= <-]. apply tidy_append. split; [apply (proj1 (tidy_take_drop (S _) s E))|].
  apply lower_tidy, (proj2 (tidy_take_drop (S _) s E)).
Qed.

(** ** The lines of a message *)

(** What the library documents of these functions, as far as line breaks go *)
Class TidyText (std : StdText) : Prop := {
  tt_address : forall name a, tidy name -> tidy a -> tidy (address_text name a);
  tt_word : forall s, tidy s -> tidy (encoded_word s);
  tt_kind : forall s kind params, ParseMediaType s = Some (kind, params) -> tidy s -> tidy kind;
  tt_disposition : forall s, tidy s -> tidy (attachment_disposition s) }.

Ltac each_line := repeat match goal with |- Forall _ (_ :: _) => apply Forall_cons; split | |- Forall _ [] => apply Forall_nil_2 end.

Section Lines.
  Context {std : StdText} {tidy_text : TidyText std} {html : HtmlTemplates} {addresses : MailParser}.

Lemma wrap_tidy fuel s : tidy s -> Forall tidy (wrap fuel s).
Proof.
  revert s. induction fuel as [|k IH]; intros s Hs; cbn [wrap]; [by constructor|].
  destruct (76 <? String.length s)%nat; [|by constructor]. destruct (tidy_take_drop 76 s Hs). constructor; [done|auto].
Qed.

Lemma wrap_concat fuel s : String.concat "" (wrap fuel s) = s.
Proof.
  revert s. induction fuel as [|k IH]; intros s; [done|]. cbn [wrap]. destruct (76 <? String.length s)%nat eqn:E; [|done].
  specialize (IH (drop 76 s)). destruct (wrap k (drop 76 s)) as [|x l] eqn:Ew; [by destruct k; cbn in Ew; case_match|].
  change (String.concat "" (take 76 s :: x :: l)) with (take 76 s ++ "" ++ String.concat "" (x :: l))%string.
  rewrite IH, append_nil. apply take_drop.
Qed.

Lemma part_tidy kind content : tidy kind -> Forall tidy (part kind content).
Proof.
  intros Hk. unfold part. apply Forall_app. split; [|apply wrap_tidy, base64_tidy].
  each_line; try tidy_const. rewrite !tidy_append. all_tidy; [tidy_const|done|tidy_const].
Qed.

Lemma to_lines_tidy start to : tidy start -> Forall tidy to -> Forall tidy (to_lines start to).
Proof.
  intros Hs Hto. revert start Hs. induction Hto as [|a to Ha Hto IH]; intros start Hs; cbn [to_lines]; [by constructor|].
  assert (Hadr : tidy (address_text "" a)) by (apply tt_address; [tidy_const|done]).
  destruct to as [|b to].
  - constructor; [|done]. rewrite tidy_append. done.
  - constructor; [rewrite !tidy_append; all_tidy; [done|done|tidy_const]|]. apply IH. tidy_const.
Qed.

(** A description whose texts have no line breaks *)
Record tidy_message (v : jsonMessage) : Prop := {
  tm_subject : tidy (jm_Subject v); tm_name : tidy (jm_FromName v); tm_reply : tidy (jm_ReplyTo v);
  tm_attachments : Forall (fun a => tidy (at_Filename a) /\ tidy (at_ContentType a) /\ tidy (at_ContentBase64 a)) (jm_Attachments v);
  tm_template : forall t, jm_Template v = Some t -> tidy (tr_ID t) /\ tidy (tr_Language t) /\ tidy (tr_Version t) }.

Lemma normalize_tidy l : forall total l', normalize total l = Some l' ->
  Forall (fun a => tidy (at_Filename a) /\ tidy (at_ContentType a) /\ tidy (at_ContentBase64 a)) l'.
Proof.
  induction l as [|a l IH]; intros total l'; cbn [normalize]; [intros [= <-]; constructor|].
  destruct (attachment_name_ok a) eqn:En; [|done]. destruct (ParseMediaType (at_ContentType a)) as [[kind params]|] eqn:Ek; [|done]. cbn [negb].
  destruct (kind_ok kind params); [|done]. cbn [negb]. destruct (_ || _) eqn:Eb; [done|].
  destruct (base64_decode _) as [decoded|]; [|done]. destruct (negb _); [done|]. cbv zeta. destruct (16384 <? _); [done|].
  destruct (normalize _ l) as [rest|] eqn:Er; [|done]. cbn [mbind option_bind]. intros [= <-]. apply IH in Er. constructor; [|done]. simpl.
  apply orb_false_iff in Eb as [_ Eb]. apply tidy_line_breaks in Eb.
  unfold attachment_name_ok in En. rewrite !andb_true_iff in En. destruct En as (((((H1 & _) & _) & _) & _) & H2).
  split; [by eapply safe_tidy|]. split; [|done]. eapply tt_kind; [exact Ek|by eapply safe_tidy].
Qed.

Lemma normal_tidy v date v' : (forall t, jm_Template v = Some t -> tidy (tr_ID t) /\ tidy (tr_Language t) /\ tidy (tr_Version t)) ->
  normal_message v = Some (date, v') -> tidy_message v' /\ jm_Template v' = jm_Template v /\ jm_Subject v' = jm_Subject v /\
    jm_FromName v' = jm_FromName v /\ jm_Text v' = jm_Text v /\ jm_HTML v' = jm_HTML v.
Proof.
  intros Ht. unfold normal_message. destruct (ParseRFC3339 _) as [z|]; [|done]. cbv zeta. destruct (_ || _) eqn:E; [done|].
  destruct (if String.eqb (jm_ReplyTo v) "" then _ else _) as [reply|] eqn:Er; [|done]. cbn [mbind option_bind].
  destruct (match jm_Attachments v with [] => _ | _ => _ end) as [attachments|] eqn:Ea; [|done]. cbn [mbind option_bind]. intros [= _ <-].
  rewrite !orb_false_iff, !negb_false_iff in E. destruct E as ((((((_ & H1) & H2) & _) & _) & _) & _).
  split; [|done]. split; simpl.
  - by eapply safe_tidy.
  - by eapply safe_tidy.
  - destruct (String.eqb (jm_ReplyTo v) ""); [injection Er as <-; tidy_const|by eapply canonical_tidy].
  - destruct (jm_Attachments v); [injection Ea as <-; constructor|]. unfold normalizeJSONAttachments in Ea.
    destruct (4 <? _)%nat; [done|]. by eapply normalize_tidy.
  - done.
Qed.

Lemma version_tidy v : tidy (FormatInt (version_of v)).
Proof.
  unfold version_of. destruct (jm_Template v) as [t|]; [destruct (String.eqb (tr_Language t) "")|destruct (jm_Attachments v)]; tidy_const.
Qed.

Lemma header_tidy date v from to tag : tidy_message v -> tidy from -> Forall tidy to -> tidy tag -> Forall tidy (header_lines date v from to tag).
Proof.
  intros [H1 H2 H3 _ H5] Hf Hto Htag. unfold header_lines. rewrite !Forall_app. all_tidy.
  - each_line; rewrite tidy_append; (split; [tidy_const|]); [apply RFC1123Z_tidy|by apply tt_address].
  - apply to_lines_tidy; [tidy_const|done].
  - each_line; try tidy_const; rewrite !tidy_append; all_tidy; try tidy_const; [by apply tt_word|done|apply version_tidy].
  - destruct (jm_Template v) as [t|]; [|constructor]. destruct (H5 t eq_refl) as (T1 & T2 & T3). apply Forall_app. split.
    + destruct (String.eqb (tr_Language t) ""); each_line. rewrite tidy_append. split; [tidy_const|done].
    + each_line; rewrite tidy_append; (split; [tidy_const|done]).
  - destruct (String.eqb (jm_ReplyTo v) ""); each_line. rewrite tidy_append. split; [tidy_const|].
    apply tt_address; [tidy_const|done].
Qed.

Lemma boundary_tidy tag : tidy tag -> tidy (mixed tag) /\ tidy (alternative tag).
Proof.
  intros H. destruct (tidy_take_drop 40 tag H) as [Ht _]. unfold mixed, alternative. rewrite !tidy_append. all_tidy; try done; tidy_const.
Qed.

Lemma multipart_tidy kind b : tidy kind -> tidy b -> Forall tidy (multipart kind b).
Proof. intros Hk Hb. unfold multipart. each_line; rewrite ?tidy_append; all_tidy; try done; tidy_const. Qed.

Lemma body_tidy v tag : tidy_message v -> tidy tag -> Forall tidy (body_lines v tag).
Proof.
  intros [_ _ _ H4 _] Htag. destruct (boundary_tidy tag Htag) as [Hm Ha].
  assert (Hplain : tidy "plain") by tidy_const. assert (Hhtml : tidy "html") by tidy_const.
  assert (Hc : Forall tidy (content_lines v tag)).
  { unfold content_lines. destruct (_ && _); [|destruct (negb _); by apply part_tidy]. rewrite !Forall_app. all_tidy.
    - apply multipart_tidy; [tidy_const|done].
    - by apply part_tidy.
    - each_line. rewrite tidy_append. split; [tidy_const|done].
    - by apply part_tidy.
    - each_line. rewrite !tidy_append. all_tidy; try done; tidy_const. }
  unfold body_lines. destruct (jm_Attachments v) as [|a l] eqn:El; [done|]. rewrite <- El in *. rewrite !Forall_app. all_tidy; [| | |].
  - apply multipart_tidy; [tidy_const|done].
  - done.
  - apply Forall_concat, Forall_map. eapply Forall_impl; [exact H4|]. intros x (X1 & X2 & X3). unfold attachment_lines. apply Forall_app.
    split; [|by apply wrap_tidy]. each_line; rewrite ?tidy_append; all_tidy; try done; try tidy_const. by apply tt_disposition.
  - each_line. rewrite !tidy_append. all_tidy; try done; tidy_const.
Qed.

(** The content starts with two fields and the empty line. *)
Lemma body_head v tag : exists a b rest, body_lines v tag = a :: b :: ""%string :: rest /\ a <> ""%string /\ b <> ""%string.
Proof.
  unfold body_lines, content_lines, part, multipart.
  destruct (jm_Attachments v); [destruct (_ && _); [|destruct (negb _)]|]; eexists _, _, _; split; try reflexivity; done.
Qed.

End Lines.

Lemma lines_concat ls : concat (map line ls) = of_lines (map bytes_of ls).
Proof. unfold of_lines, line. by rewrite map_map. Qed.

(** The first empty line of proper lines *)
Lemma blank_end_lines ls rest : Forall plain_line ls -> Forall (fun l => l <> []) ls ->
  Receive.blank_end [] (of_lines ls ++ [CR; LF] ++ rest) = Some (length (of_lines ls) + 2)%nat.
Proof.
  intros Hp Hne. induction Hp as [|l ls [Hcr Hlf] Hp IH]; [done|]. apply Forall_cons in Hne as [Hl Hne].
  unfold of_lines. cbn [map concat]. fold (of_lines ls). rewrite <- !app_assoc. rewrite (Receive.blank_end_line [] l) by done. cbn [app].
  destruct l as [|b l]; [done|]. cbn [Receive.blank_end is_byte].
  change (is_byte CR LF) with false. change (is_byte LF LF) with true. cbv iota.
  rewrite (bool_decide_eq_false_2 ((b :: l) ++ [CR] = [])) by done.
  rewrite (bool_decide_eq_false_2 ((b :: l) ++ [CR] = [CR])).
  2: { intros E. apply (f_equal (@length byte)) in E. rewrite length_app in E. simpl in E. lia. }
  cbn [orb]. specialize (IH Hne). cbn [app] in IH. rewrite IH. cbn [option_map]. f_equal. rewrite !length_app. simpl. lia.
Qed.

Section Built.
  Context {std : StdText} {tidy_text : TidyText std} {html : HtmlTemplates} {addresses : MailParser} {tokenizer : Tokenizer}.

Lemma resolved_template catalog catalog' v v' : prepareTemplates catalog = Some catalog' -> resolveJSONTemplate v catalog' = Some v' ->
  forall t, jm_Template v' = Some t -> tidy (tr_ID t) /\ tidy (tr_Language t) /\ tidy (tr_Version t).
Proof.
  unfold prepareTemplates, resolveJSONTemplate. destruct (8 <? _)%nat; [done|]. intros Hp.
  apply prepare_all_spec in Hp as (Hall & _). rewrite Forall_forall in Hall. destruct (jm_Template v) as [ref|] eqn:Er.
  2: { intros [= <-] t Ht. congruence. }
  destruct (List.find _ _) as [t|] eqn:Ef; [|done]. apply List.find_some in Ef as [Hin Hm]. apply list_elem_of_In, Hall in Hin.
  unfold resolve_with. destruct (te_compiled t); [|done]. destruct (negb _); [done|]. destruct (negb _); [done|].
  destruct (expand _ (te_Subject t)); [|done]. destruct (expand _ (te_Text t)); [|done]. cbn [mbind option_bind].
  destruct (html_execute _ _); [|done]. cbn [mbind option_bind]. destruct (Write _ _); [|done]. cbn [mbind option_bind].
  destruct (Contains _ _); [done|]. intros [= <-] x Hx. simpl in Hx. rewrite Er in Hx. injection Hx as <-.
  unfold matches_reference in Hm. rewrite !andb_true_iff, !String.eqb_eq in Hm. destruct Hm as [[<- <-] <-].
  destruct (pr_id t Hin) as [H1 H2]. rewrite (pr_version t Hin). split; [by apply name_tidy|]. split; [by apply language_tidy|apply hex_tidy].
Qed.

Lemma header_nonempty date v from to tag : Forall (fun l => l <> ""%string) (header_lines date v from to tag).
Proof.
  assert (Hto : forall start, start <> ""%string -> Forall (fun l => l <> ""%string) (to_lines start to)).
  { induction to as [|a to IH]; intros start Hs; cbn [to_lines]; [by each_line|].
    destruct start as [|c start]; [done|]. destruct to; each_line; try done. by apply IH. }
  unfold header_lines. rewrite !Forall_app. all_tidy; each_line; try done; [by apply Hto| |].
  - destruct (jm_Template v); [|constructor]. apply Forall_app. split; [destruct (String.eqb _ _)|]; each_line; done.
  - destruct (String.eqb _ _); each_line; done.
Qed.

(** Proper lines, of which the first empty one is after the header *)
Lemma rendered_lines h a b rest : Forall tidy (h ++ a :: b :: ""%string :: rest) -> Forall (fun l => l <> ""%string) (h ++ [a; b]) ->
  let eml := of_lines (map bytes_of ((h ++ [a; b]) ++ ""%string :: rest)) in
  canonical eml /\ Receive.blank_end [] eml = Some (length (of_lines (map bytes_of (h ++ [a; b]))) + 2)%nat.
Proof.
  replace (h ++ a :: b :: ""%string :: rest) with ((h ++ [a; b]) ++ ""%string :: rest) by (by rewrite <- app_assoc).
  generalize (h ++ [a; b]). clear h. intros h Ht Hne.
  assert (Hall : Forall plain_line (map bytes_of (h ++ ""%string :: rest))).
  { apply Forall_map. eapply Forall_impl; [exact Ht|]. intros s. apply tidy_plain. }
  cbv zeta. split.
  - eexists. split; [|by split]. rewrite map_app. intros [_ E]%app_nil. done.
  - rewrite map_app in Hall |- *. apply Forall_app in Hall as [Hh _]. unfold of_lines at 1. rewrite map_app, concat_app.
    fold (of_lines (map bytes_of h)). cbn [map concat]. rewrite <- app_assoc. apply blank_end_lines; [done|].
    apply Forall_map. eapply Forall_impl; [exact Hne|]. intros s Hs E. apply Hs. by destruct s.
Qed.

(** C21. A message built from JSON has the header the code writes, and proper
    lines.  Whatever a website posts, with templates that were accepted: the
    message rendered from it consists of lines that end in CRLF and contain no
    other CR or LF, so that it can be transmitted as it is; and what a reader
    finds before the first empty line is exactly the fields written by the
    code for the decoded, resolved and normalized description, followed by two
    lines of content fields.  No text of the request can add a field or end
    the header. *)
Theorem json_message_lines catalog catalog' raw ok from to identity key eml :
  prepareTemplates catalog = Some catalog' -> tidy from -> Forall tidy to ->
  build raw ok from to identity key catalog' = inr eml ->
  exists v0 v1 date v content rest,
    decodeJSONMessage raw = Some v0 /\ resolveJSONTemplate v0 catalog' = Some v1 /\ normal_message v1 = Some (date, v) /\
    let tag := EncodeToString (Sha.Sum256 (bytes_of (marshal_canonical (version_of v) v from to identity key))) in
    let header := header_lines date v from to tag ++ content in
    length content = 2%nat /\
    eml = of_lines (map bytes_of (header ++ ""%string :: rest)) /\ canonical eml /\
    Receive.blank_end [] eml = Some (length (of_lines (map bytes_of header)) + 2)%nat.
Proof.
  intros Hcat Hfrom Hto. unfold build. destruct (_ <? _); [done|]. destruct (negb ok); [done|].
  destruct (decodeJSONMessage raw) as [v0|]; [|done]. destruct (resolveJSONTemplate v0 catalog') as [v1|] eqn:Er; [|done].
  unfold renderJSONMessage. destruct (normal_message v1) as [[date v]|] eqn:En; [|done]. cbn [mbind option_bind].
  intros Heml. apply (inj inr) in Heml. subst eml.
  pose proof (normal_tidy v1 date v (resolved_template _ _ _ _ Hcat Er) En) as [Hv _].
  exists v0, v1, date, v.
  pose proof (hex_tidy (Sha.Sum256 (bytes_of (marshal_canonical (version_of v) v from to identity key)))) as Htag. revert Htag. cbv zeta.
  generalize (EncodeToString (Sha.Sum256 (bytes_of (marshal_canonical (version_of v) v from to identity key)))). intros tag Htag.
  pose proof (header_nonempty date v from to tag) as Hne. pose proof (header_tidy date v from to tag Hv Hfrom Hto Htag) as Hh.
  pose proof (body_tidy v tag Hv Htag) as Hbody. destruct (body_head v tag) as (a & b & rest & Eb & Ha & Hb). rewrite Eb in *.
  exists [a; b], rest. do 4 (split; [done|]). rewrite lines_concat.
  generalize dependent (header_lines date v from to tag). intros h Hne Hh.
  assert (E : h ++ a :: b :: ""%string :: rest = (h ++ [a; b]) ++ ""%string :: rest) by (by rewrite <- app_assoc).
  split; [by rewrite E|]. rewrite E. apply rendered_lines; apply Forall_app; [done|]. split; [done|]. by each_line.
Qed.

End Built.

(** *** A concrete message *)

Definition demo_std : StdText :=
  MkStdText (fun _ => Some (MkZoned ((739868 * 24 + 23) * Hour) 0)) (fun name a => (name ++ "<" ++ a ++ ">")%string) (fun s => s)
    (fun s => Some (s, [])) (fun s => ("attachment; filename=" ++ s)%string).
#[local] Instance demo_tidy_text : TidyText demo_std.
Proof.
  split; simpl.
  - intros name a Hn Ha. rewrite !tidy_append. all_tidy; try done; tidy_const.
  - done.
  - by intros s kind params [= -> <-].
  - intros s Hs. change (tidy ("attachment; filename=" ++ s)). rewrite tidy_append. split; [tidy_const|done].
Qed.
Definition demo_html : HtmlTemplates := MkHtmlTemplates unit (fun _ => Some tt) (fun _ _ => Some "<p>Hi</p>"%string).
Definition demo_addresses : MailParser := fun s => Some (EmptyString, s).
Definition demo_tokens : Tokenizer := fun _ =>
  MkDecoder [TDelim "{"; TStr "date"; TStr "2026-09-10T23:00:00Z"; TStr "subject"; TStr "Hello"; TStr "text"; TStr "Hi"; TDelim "}"] true.
Definition demo_build : JsonErr + list byte :=
  @build demo_std demo_html demo_addresses demo_tokens [] true "a@x" ["b@y"; "c@z"] "site" "key-1" [].

Lemma json_message_lines_witness :
  exists eml, demo_build = inr eml /\ canonical eml /\ Receive.blank_end [] eml = Some 313%nat.
Proof.
  destruct demo_build as [e|eml] eqn:E; [exfalso; vm_compute in E; discriminate E|]. exists eml. split; [reflexivity|].
  pose proof (@json_message_lines demo_std demo_tidy_text demo_html demo_addresses demo_tokens [] [] [] true "a@x" ["b@y"; "c@z"]%string "site" "key-1" eml
    eq_refl ltac:(tidy_const) ltac:(each_line; tidy_const) E) as (v0 & v1 & date & v & content & rest & _ & _ & _ & _ & _ & Hc & _).
  split; [exact Hc|]. apply (inj inr) in E. rewrite <- E. vm_compute. reflexivity.
Defined.

End SendJson.
