(* ===== verification/Catalog.v ===== *)
(** * The template catalogue: [internal/api/template_catalog.go],
    [template_retirement.go], [template_drafts.go]

    Published templates, retirements and drafts are rows that are only ever
    added, each with an audit row written in the same transaction.  A website
    may have a bounded number of them.  At startup the published templates that
    are not retired are loaded beside those of the configuration.

    Texts are ordered by their bytes.  The checks the database makes of a row
    repeat checks of the code; a statement that fails for another reason is one
    of the faults of the [World]. *)

From S2P Require Import Prelude Sha256 GoText TextFacts JsonText Delivery SmtpClient Provider Database Retention Suppression Message MessageRules Auth AesGcm Credentials Fingerprint JsonTokens JsonMessage Templates.

Module Catalog.

Import JsonTokens JsonMessage Templates Message.

Definition ErrTemplateCatalog : DBErr := ErrText "invalid template publication, identity or catalog limits".
Definition ErrTemplateDraftConflict : DBErr := ErrText "template draft revision changed".

(** The code answers [e] for any failure of [m]. *)
Definition failing {A} (e : DBErr) (m : M A) : M A := fun w s => match m w s with inl _ => inl e | inr r => inr r end.

(** ** Audit rows *)

Definition data_text (a : Audit) (key s : string) : bool := bool_decide (json_text (Some (au_data a)) key = Some (Database.TStr s)).
(** A number compares as its text. *)
Definition data_number (a : Audit) (key : string) (z : Z) : bool :=
  bool_decide (json_text (Some (au_data a)) key = Some (TNum z)) || data_text a key (FormatInt z).
(** [data ? key] *)
Definition has_key (a : Audit) (key : string) : bool :=
  match au_data a with JObj fields => not_null (json_get key fields) | _ => false end.

Definition audit_of (db : DB) (id : UUID) (p : Audit -> bool) : bool :=
  match maintenance_audit db !! id with Some a => p a | None => false end.

Definition names_row (a : Audit) (action : string) (identity : UUID) (name version : string) : bool :=
  String.eqb (au_action a) action && data_text a "api_key_id" (uuid_text identity) && data_text a "id" name && data_text a "version" version.

Definition draft_audit (identity : UUID) (name : string) (revision : Z) (d : TemplateDraftRow) (a : Audit) : bool :=
  names_row a "TEMPLATE_DRAFT_SAVED" identity name (td_version d) && data_number a "revision" revision
  && data_text a "definition_sha256" (td_definition_sha256 d).

(** The draft a publication says it comes from *)
Definition from_draft (db : DB) (identity : UUID) (name version : string) (v : TemplateVersionRow) (a : Audit) : bool :=
  exists_row (fun k d => bool_decide (fst k = (identity, name)) && audit_of db (td_audit_id d) (draft_audit identity name (snd k) d)
                         && data_number a "draft_revision" (snd k) && String.eqb (td_version d) version
                         && String.eqb (td_definition_sha256 d) (tv_definition_sha256 v)) (api_template_drafts db).

Definition published_audit (identity : UUID) (name version : string) (v : TemplateVersionRow) (a : Audit) : bool :=
  names_row a "TEMPLATE_PUBLISHED" identity name version && data_text a "definition_sha256" (tv_definition_sha256 v).
Definition publication_valid (db : DB) (identity : UUID) (name version : string) (v : TemplateVersionRow) : bool :=
  audit_of db (tv_audit_id v) (fun a => published_audit identity name version v a
                                         && (negb (has_key a "draft_revision") || from_draft db identity name version v a)).
Definition retirement_valid (db : DB) (identity : UUID) (name version : string) (r : TemplateRetirement) : bool :=
  audit_of db (tq_audit_id r) (fun a => names_row a "TEMPLATE_RETIRED" identity name version).

(** ** Rows of a website *)

Definition of_website {R B : Type} (identity : UUID) (k : UUID * string * B) (_ : R) : bool := bool_decide (fst (fst k) = identity).
Definition versions_of (identity : UUID) (db : DB) : list (UUID * string * string * TemplateVersionRow) :=
  select (of_website identity) (api_template_versions db).
Definition active_of (identity : UUID) (db : DB) : list (UUID * string * string * TemplateVersionRow) :=
  select (fun k v => of_website identity k v && is_null (api_template_retirements db !! k)) (api_template_versions db).
Definition octets (rows : list (UUID * string * string * TemplateVersionRow)) : Z :=
  sum_of (fun kv => Z.of_nat (String.length (tv_definition (snd kv)))) rows.
Definition retirements_of (identity : UUID) (db : DB) := select (of_website identity) (api_template_retirements db).
Definition drafts_of (identity : UUID) (db : DB) := select (of_website identity) (api_template_drafts db).
Definition draft_octets (rows : list (UUID * string * Z * TemplateDraftRow)) : Z :=
  sum_of (fun kd => Z.of_nat (String.length (td_definition (snd kd)))) rows.

(** [ORDER BY template_id, version] *)
Definition version_leb (x y : UUID * string * string * TemplateVersionRow) : bool :=
  let '(_, n, v, _) := x in let '(_, n', v', _) := y in
  if String.eqb n n' then String.leb v v' else String.leb n n'.

(** The revision with the highest number, [ORDER BY revision DESC LIMIT 1] *)
Definition revision_geb (x y : UUID * string * Z * TemplateDraftRow) : bool := snd (fst y) <=? snd (fst x).
Definition latest_draft (identity : UUID) (name : string) (db : DB) : option (Z * TemplateDraftRow) :=
  option_map (fun kd => (snd (fst kd), snd kd))
    (head (sort_by revision_geb (select (fun k _ => bool_decide (fst k = (identity, name))) (api_template_drafts db)))).

(** [DISTINCT ON (template_id) ... ORDER BY template_id, revision DESC] *)
Definition is_latest (identity : UUID) (db : DB) (k : UUID * string * Z) : bool :=
  bool_decide (fst (fst k) = identity)
  && negb (exists_row (fun k' _ => bool_decide (fst k' = fst k) && (snd k <? snd k')) (api_template_drafts db)).
Definition heads_of (identity : UUID) (db : DB) := select (fun k _ => is_latest identity db k) (api_template_drafts db).

Section Catalog.
  Context {html : HtmlTemplates} {tokenizer : Tokenizer} {lower : LowerCase} {decoder : TemplateDecoder} {parser : UuidParser}.

(** [uuid.Parse], not Nil, in canonical text *)
Definition website_id (s : string) : option UUID :=
  match ParseUUID s with
  | Some u => if negb (u =? 0)%N && String.eqb (uuid_text u) s then Some u else None
  | None => None
  end.

(** [json.Marshal] of a template; without variables the slice is nil. *)
Definition marshal_template (t : SendTemplate) : string :=
  object ([("id", quoted (te_ID t))] ++ (if String.eqb (te_Language t) "" then [] else [("language", quoted (te_Language t))])
          ++ [("version", quoted (te_Version t)); ("subject", quoted (te_Subject t)); ("text", quoted (te_Text t)); ("html", quoted (te_HTML t));
              ("variables", match te_Variables t with [] => "null" | l => array (map quoted l) end)])%list%string.

Definition sorted_template (t : SendTemplate) : SendTemplate := t <| te_Variables := sort_by String.leb (te_Variables t) |>.
Definition canonicalTemplate (t : SendTemplate) : option string :=
  let raw := marshal_template (sorted_template t) in
  if 32768 <? Z.of_nat (String.length raw) then None else Some raw.

(** [hex.EncodeToString] of the digest of a definition *)
Definition definition_hash (definition : string) : string := EncodeToString (Sha.Sum256 (bytes_of definition)).

(** The template a stored definition holds, if it is the one of the row *)
Definition stored_template (name version definition hash : string) : option SendTemplate :=
  if negb (String.eqb (definition_hash definition) hash) then None
  else
    t ← VersionTemplateJSON (bytes_of definition);
    if String.eqb (te_ID t) name && String.eqb (te_Version t) version then Some t else None.

(** ** Publication *)

Definition locked_website (identity : UUID) : M (option ApiKey) :=
  query (fun _ db => k ← api_keys db !! identity; if String.eqb (k_prefix k) "rts_" then Some k else None).

Definition audit_row (action actor : string) (data : list (string * json)) : M UUID :=
  id ← fresh;
  stmt (fun _ db => rows ← insert_row id (MkAudit action actor (JObj data)) (maintenance_audit db); Some (tt, db <| maintenance_audit := rows |>));;
  mret id.

Definition publishTemplateTx (identity : UUID) (t : SendTemplate) (definition actor reason : string) (provenance : list (string * json)) : M bool :=
  k ← locked_website identity;
  guard ErrTemplateCatalog (match k with Some k => k_enabled k | None => false end);;
  row ← query (fun _ db => v ← api_template_versions db !! (identity, te_ID t, te_Version t);
                           _ ← maintenance_audit db !! tv_audit_id v;
                           Some (tv_definition v, publication_valid db identity (te_ID t) (te_Version t) v));
  match row with
  | Some (stored, valid) => guard ErrTemplateCatalog (valid && String.eqb stored definition);; mret true
  | None =>
      let len := Z.of_nat (String.length definition) in
      use ← query (fun _ db => (length (versions_of identity db), octets (versions_of identity db)));
      guard ErrTemplateCatalog (negb ((64 <=? fst use)%nat || (524288 <? snd use + len)));;
      invalid ← query (fun _ db => existsb (fun kr => let '(_, n, v, r) := kr in
                                            not_null (maintenance_audit db !! tq_audit_id r) && negb (retirement_valid db identity n v r))
                                     (retirements_of identity db));
      guard ErrTemplateCatalog (negb invalid);;
      active ← query (fun _ db => (length (active_of identity db), octets (active_of identity db)));
      guard ErrTemplateCatalog (negb ((8 <=? fst active)%nat || (65536 <? snd active + len)));;
      let hash := definition_hash definition in
      audit ← audit_row "TEMPLATE_PUBLISHED" actor
                ([("api_key_id", JStr (uuid_text identity)); ("id", JStr (te_ID t)); ("version", JStr (te_Version t));
                  ("language", JStr (te_Language t)); ("definition_sha256", JStr hash); ("reason", JStr reason)]%string ++ provenance);
      stmt (fun at_ db => rows ← insert_row (identity, te_ID t, te_Version t)
                                   (MkTemplateVersionRow (te_Language t) definition hash (at_now at_) audit) (api_template_versions db);
                          Some (tt, db <| api_template_versions := rows |>));;
      mret false
  end.

(** [json.Unmarshal] gives the struct the strict decoder gave. *)
Definition supplied_version (raw : list byte) : string := match decode_template raw with Some t => te_Version t | None => EmptyString end.

Definition PublishTemplate (identity : string) (raw : list byte) (actor reason : string) : M (TxEnd bool) :=
  match website_id identity with
  | None => raise ErrTemplateCatalog
  | Some id =>
      if negb (safeJSONHeader actor 128) || String.eqb actor "" || negb (safeJSONHeader reason 256) || String.eqb reason ""
      then raise ErrTemplateCatalog
      else match VersionTemplateJSON raw with
      | None => raise ErrTemplateCatalog
      | Some t =>
          if String.eqb (supplied_version raw) "" then raise ErrTemplateCatalog
          else match canonicalTemplate t with
          | None => raise ErrTemplateCatalog
          | Some definition => replayed ← publishTemplateTx id t definition actor reason []; mret (Commit (inr replayed))
          end
      end
  end.

(** ** Retirement *)

(** Nothing is left when hexadecimal digits are trimmed from both ends. *)
Definition is_version (s : string) : bool := (String.length s =? 64)%nat && all_chars (fun c => is_digit c || in_range 97 102 c) s.

Definition reviewer_ok (actor reason : string) : bool :=
  negb (String.eqb (TrimSpace actor) "") && safeJSONHeader actor 128 && negb (String.eqb (TrimSpace reason) "") && safeJSONHeader reason 256.

Definition RetireTemplate (identity name version actor reason : string) : M (TxEnd bool) :=
  match website_id identity with
  | None => raise ErrTemplateCatalog
  | Some id =>
      if negb (templateName name) || negb (is_version version) || negb (reviewer_ok actor reason) then raise ErrTemplateCatalog
      else
        k ← failing ErrTemplateCatalog (query (fun _ db => api_keys db !! id));
        guard ErrTemplateCatalog (match k with Some k => String.eqb (k_prefix k) "rts_" | None => false end);;
        valid ← failing ErrTemplateCatalog (query (fun _ db => v ← api_template_versions db !! (id, name, version);
                                   a ← maintenance_audit db !! tv_audit_id v;
                                   Some (published_audit id name version v a
                                         && match api_template_retirements db !! (id, name, version) with
                                            | None => true
                                            | Some r => retirement_valid db id name version r
                                            end)));
        guard ErrTemplateCatalog (match valid with Some b => b | None => false end);;
        state ← query (A := bool * bool) (fun _ db => (not_null (api_template_versions db !! (id, name, version)),
                                    not_null (api_template_retirements db !! (id, name, version))));
        guard ErrTemplateCatalog (fst state);;
        if (snd state : bool) then mret (Commit (inr true))
        else
          audit ← audit_row "TEMPLATE_RETIRED" actor
                    [("api_key_id", JStr (uuid_text id)); ("id", JStr name); ("version", JStr version); ("reason", JStr reason)]%string;
          stmt (fun at_ db => rows ← insert_row (id, name, version) (MkTemplateRetirement (at_now at_) audit) (api_template_retirements db);
                              Some (tt, db <| api_template_retirements := rows |>));;
          mret (Commit (inr false))
  end.

(** ** Startup: [loadPublishedTemplates] *)

Record Listed := MkListed { li_name : string; li_version : string; li_row : TemplateVersionRow; li_valid : bool; li_retired : bool; li_retirement : bool }.

Definition listed (db : DB) (identity : UUID) (kv : UUID * string * string * TemplateVersionRow) : Listed :=
  let '(_, n, v, row) := kv in
  let r := api_template_retirements db !! (identity, n, v) in
  MkListed n v row (publication_valid db identity n v row) (not_null r)
    (match r with None => true | Some r => retirement_valid db identity n v r end).
Definition listing (identity : UUID) (db : DB) : list Listed :=
  map (listed db identity)
    (firstn 65 (sort_by version_leb (select (fun k v => of_website identity k v && not_null (maintenance_audit db !! tv_audit_id v))
                                      (api_template_versions db)))).

Definition same_version (name version : string) (t : SendTemplate) : bool := String.eqb (te_ID t) name && String.eqb (te_Version t) version.

(** The loop over the rows: [count], [totalSize], [size], [key.Templates] *)
Fixpoint load_loop (count : nat) (total size : Z) (templates : list SendTemplate) (rows : list Listed) : option (list SendTemplate * Z) :=
  match rows with
  | [] => Some (templates, size)
  | r :: rest =>
      if (64 <? S count)%nat || negb (li_valid r) || negb (li_retirement r) then None
      else match stored_template (li_name r) (li_version r) (tv_definition (li_row r)) (tv_definition_sha256 (li_row r)) with
      | None => None
      | Some t =>
          let len := Z.of_nat (String.length (tv_definition (li_row r))) in
          if negb (String.eqb (te_Language t) (tv_language (li_row r))) || (524288 <? total + len) then None
          else if li_retired r then
            if existsb (same_version (li_name r) (li_version r)) templates then None else load_loop (S count) (total + len) size templates rest
          else if 65536 <? size + len then None
          else load_loop (S count) (total + len) (size + len)
                 (if existsb (same_version (te_ID t) (te_Version t)) templates then templates else templates ++ [t]) rest
      end
  end.

Definition loadPublishedTemplates (identity : UUID) (templates : list SendTemplate) : M (list SendTemplate * Z) :=
  rows ← query (fun _ db => listing identity db);
  '(templates, size) ← lift ErrTemplateCatalog (load_loop 0 0 0 templates rows);
  templates ← lift ErrTemplateCatalog (prepareTemplates templates);
  mret (templates, size).

(** ** Drafts *)

Definition draftIdentity (identity actor reason : string) : option UUID :=
  if reviewer_ok actor reason then website_id identity else None.

Definition lockDraftIdentity (identity : UUID) : M unit :=
  k ← query_row (fun _ db => k ← api_keys db !! identity; if String.eqb (k_prefix k) "rts_" then Some k else None);
  guard ErrTemplateCatalog (k_enabled k).

(** The state of [verifyDrafts]; the identity and the name are [None] before the first row. *)
Record Verified := MkVerified {
  vd_identity : option UUID; vd_name : option string; vd_count : Z; vd_size : Z; vd_latest : Z; vd_ids : Z; vd_previous : Z; vd_previousSize : Z }.

Definition same_identity (s : Verified) (id : UUID) : bool := bool_decide (vd_identity s = Some id).
Definition verify_draft (db : DB) (s : Verified) (kd : UUID * string * Z * TemplateDraftRow) : option Verified :=
  let '(id, name, revision, d) := kd in
  if negb (same_identity s id) && (65536 <? vd_latest s + vd_previousSize s) then None
  else
    let s := if same_identity s id then s else MkVerified (Some id) None 0 0 0 0 0 0 in
    let s := if bool_decide (vd_name s = Some name) then s
             else MkVerified (Some id) (Some name) (vd_count s) (vd_size s) (vd_latest s + vd_previousSize s) (vd_ids s + 1) 0 0 in
    let len := Z.of_nat (String.length (td_definition d)) in
    let count := vd_count s + 1 in
    let size := vd_size s + len in
    if negb (revision =? vd_previous s + 1) || (64 <? count) || (524288 <? size) || (8 <? vd_ids s)
       || negb (audit_of db (td_audit_id d) (draft_audit id name revision d))
       || negb (match api_keys db !! id with Some k => String.eqb (k_prefix k) "rts_" | None => false end)
       || negb (not_null (stored_template name (td_version d) (td_definition d) (td_definition_sha256 d)))
    then None
    else Some (MkVerified (Some id) (Some name) count size (vd_latest s) (vd_ids s) revision len).

(** [ORDER BY api_key_id, template_id, revision]; a UUID sorts as its number. *)
Definition draft_leb (x y : UUID * string * Z * TemplateDraftRow) : bool :=
  let '(i, n, r, _) := x in let '(i', n', r', _) := y in
  if (i =? i')%N then if String.eqb n n' then r <=? r' else String.leb n n' else (i <=? i')%N.

Fixpoint verify_drafts (db : DB) (s : Verified) (rows : list (UUID * string * Z * TemplateDraftRow)) : option Verified :=
  match rows with [] => Some s | kd :: rest => s ← verify_draft db s kd; verify_drafts db s rest end.
Definition drafts_valid (db : DB) (identity : option UUID) : bool :=
  let rows := sort_by draft_leb (select (fun k d => match identity with Some i => of_website i k d | None => true end
                                                    && not_null (api_keys db !! fst (fst k)) && not_null (maintenance_audit db !! td_audit_id d))
                                   (api_template_drafts db)) in
  match verify_drafts db (MkVerified None None 0 0 0 0 0 0) rows with
  | Some s => vd_latest s + vd_previousSize s <=? 65536
  | None => false
  end.
Definition verifyDrafts (identity : option UUID) : M unit :=
  ok ← query (fun _ db => drafts_valid db identity); guard ErrTemplateCatalog ok.

Definition SaveTemplateDraft (identity : string) (expected : Z) (raw : list byte) (actor reason : string) : M (TxEnd (Z * bool)) :=
  match draftIdentity identity actor reason with
  | None => raise ErrTemplateCatalog
  | Some id =>
      if (expected <? 0) || (64 <? expected) then raise ErrTemplateCatalog
      else match VersionTemplateJSON raw with
      | None => raise ErrTemplateCatalog
      | Some t =>
          match canonicalTemplate t with
          | None => raise ErrTemplateCatalog
          | Some definition =>
              lockDraftIdentity id;;
              verifyDrafts (Some id);;
              latest ← query (fun _ db => latest_draft id (te_ID t) db);
              let current := match latest with Some (r, _) => r | None => 0 end in
              let stored := match latest with Some (_, d) => td_definition d | None => EmptyString end in
              if String.eqb stored definition && ((expected =? current) || (expected + 1 =? current)) then mret (Commit (inr (current, true)))
              else if negb (expected =? current) then raise ErrTemplateDraftConflict
              else
                let len := Z.of_nat (String.length definition) in
                use ← query (fun _ db => (length (drafts_of id db), draft_octets (drafts_of id db)));
                heads ← query (fun _ db => (length (heads_of id db), draft_octets (heads_of id db)));
                guard ErrTemplateCatalog
                  (negb ((64 <=? fst use)%nat || (524288 <? snd use + len) || ((current =? 0) && (8 <=? fst heads)%nat)
                         || (65536 <? snd heads - Z.of_nat (String.length stored) + len)));;
                let revision := current + 1 in
                let hash := definition_hash definition in
                audit ← audit_row "TEMPLATE_DRAFT_SAVED" actor
                          [("api_key_id", JStr (uuid_text id)); ("id", JStr (te_ID t)); ("revision", JNum revision);
                           ("version", JStr (te_Version t)); ("definition_sha256", JStr hash); ("reason", JStr reason)]%string;
                stmt (fun at_ db => rows ← insert_row (id, te_ID t, revision)
                                             (MkTemplateDraftRow (te_Version t) definition hash (at_now at_) audit) (api_template_drafts db);
                                    Some (tt, db <| api_template_drafts := rows |>));;
                mret (Commit (inr (revision, false)))
          end
      end
  end.

Definition GetTemplateDraft (identity name : string) (revision : Z) : M (TxEnd SendTemplate) :=
  match draftIdentity identity "reader" "review" with
  | None => raise ErrTemplateCatalog
  | Some id =>
      if negb (templateName name) || (revision <? 1) || (64 <? revision) then raise ErrTemplateCatalog
      else
        verifyDrafts (Some id);;
        d ← query_row (fun _ db => api_template_drafts db !! (id, name, revision));
        match VersionTemplateJSON (bytes_of (td_definition d)) with
        | None => raise (ErrText "invalid JSON message")
        | Some t => mret (Commit (inr t))
        end
  end.

Definition PublishTemplateDraft (identity name : string) (revision : Z) (version actor reason : string) : M (TxEnd bool) :=
  match draftIdentity identity actor reason with
  | None => raise ErrTemplateCatalog
  | Some id =>
      if negb (templateName name) || (revision <? 1) || (64 <? revision) || negb (String.length version =? 64)%nat then raise ErrTemplateCatalog
      else
        lockDraftIdentity id;;
        verifyDrafts (Some id);;
        '(latest, d) ← query_row (fun _ db => latest_draft id name db);
        if negb (latest =? revision) then raise ErrTemplateDraftConflict
        else match VersionTemplateJSON (bytes_of (td_definition d)) with
        | None => raise ErrTemplateCatalog
        | Some t =>
            if negb (String.eqb (te_Version t) version) then raise ErrTemplateCatalog
            else
              replayed ← publishTemplateTx id t (td_definition d) actor reason [("draft_revision", JNum revision)]%string;
              mret (Commit (inr replayed))
        end
  end.

(** ** Listings and verification *)

Record PublishedTemplate := MkPublished {
  pt_ID : string; pt_Version : string; pt_Language : string; pt_Bytes : Z; pt_PublishedAt : Time; pt_AuditID : UUID; pt_RetiredAt : option Time }.
Definition ListPublishedTemplates (identity : string) : M (list PublishedTemplate) :=
  match website_id identity with
  | None => raise ErrTemplateCatalog
  | Some id =>
      out ← query (fun _ db =>
        map (fun kv => let '(_, n, v, row) := kv in
               MkPublished n v (tv_language row) (Z.of_nat (String.length (tv_definition row))) (tv_published_at row) (tv_audit_id row)
                 (option_map tq_retired_at (api_template_retirements db !! (id, n, v))))
          (firstn 65 (sort_by version_leb (versions_of id db))));
      guard ErrTemplateCatalog (length out <=? 64)%nat;;
      mret out
  end.

Record TemplateDraft := MkTemplateDraft { dr_ID : string; dr_Revision : Z; dr_Version : string; dr_Bytes : Z; dr_SavedAt : Time; dr_AuditID : UUID }.
Definition ListTemplateDrafts (identity : string) : M (list TemplateDraft) :=
  match draftIdentity identity "reader" "listing" with
  | None => raise ErrTemplateCatalog
  | Some id =>
      out ← query (fun _ db =>
        map (fun kd => let '(_, n, r, d) := kd in
               MkTemplateDraft n r (td_version d) (Z.of_nat (String.length (td_definition d))) (td_saved_at d) (td_audit_id d))
          (sort_by draft_leb (heads_of id db)));
      guard ErrTemplateCatalog (length out <=? 8)%nat;;
      mret out
  end.

(** [verifyTemplateRetirements] *)
Definition retirements_valid (db : DB) : bool :=
  forallb (fun kr => let '(i, n, v, r) := kr in is_null (maintenance_audit db !! tq_audit_id r) || retirement_valid db i n v r)
    (map_to_list (api_template_retirements db)).

(** The state of [VerifyPublishedTemplates] *)
Record Counted := MkCounted { ct_last : option UUID; ct_count : Z; ct_size : Z; ct_activeCount : Z; ct_activeSize : Z }.
Definition verify_version (db : DB) (s : Counted) (kv : UUID * string * string * TemplateVersionRow) : option Counted :=
  let '(id, n, v, row) := kv in
  let s := if bool_decide (ct_last s = Some id) then s else MkCounted (Some id) 0 0 0 0 in
  let len := Z.of_nat (String.length (tv_definition row)) in
  let retired := not_null (api_template_retirements db !! (id, n, v)) in
  let count := ct_count s + 1 in
  let activeCount := if retired then ct_activeCount s else ct_activeCount s + 1 in
  let activeSize := if retired then ct_activeSize s else ct_activeSize s + len in
  let size := ct_size s + len in
  if (8 <? activeCount) || (65536 <? activeSize) || (64 <? count) || (524288 <? size)
     || negb (match api_keys db !! id with Some k => String.eqb (k_prefix k) "rts_" | None => false end)
     || negb (publication_valid db id n v row)
     || negb (match stored_template n v (tv_definition row) (tv_definition_sha256 row) with
              | Some t => String.eqb (te_Language t) (tv_language row)
              | None => false
              end)
  then None
  else Some (MkCounted (Some id) count size activeCount activeSize).
Fixpoint verify_versions (db : DB) (s : Counted) (rows : list (UUID * string * string * TemplateVersionRow)) : bool :=
  match rows with [] => true | kv :: rest => match verify_version db s kv with Some s => verify_versions db s rest | None => false end end.

Definition catalog_leb (x y : UUID * string * string * TemplateVersionRow) : bool :=
  if (fst (fst (fst x)) =? fst (fst (fst y)))%N then version_leb x y else (fst (fst (fst x)) <=? fst (fst (fst y)))%N.
Definition VerifyPublishedTemplates : M unit :=
  ok ← query (fun _ db => verify_versions db (MkCounted None 0 0 0 0)
                (sort_by catalog_leb (select (fun k v => not_null (api_keys db !! fst (fst k)) && not_null (maintenance_audit db !! tv_audit_id v))
                                        (api_template_versions db))));
  guard ErrTemplateCatalog ok;;
  ok ← query (fun _ db => retirements_valid db);
  guard ErrTemplateCatalog ok;;
  verifyDrafts None.

End Catalog.

End Catalog.
