(* ===== verification/CatalogSpec.v ===== *)
(** * The template catalogue keeps its promises

    The invariant of the tables of templates, and what startup loads from
    them. *)

From S2P Require Import Prelude Sha256 GoText TextFacts JsonText Delivery SmtpClient Provider Database Retention Suppression Message Queue QueueSpec QueueOps MessageOps MessageRules Auth AesGcm Credentials Fingerprint JsonTokens JsonMessage Templates Demo Catalog.

Module CatalogSpec.

Import JsonTokens JsonMessage Templates Message Catalog.

(** ** Selections of a table with one more row *)

Section Selections.
  Context {K R : Type} `{Countable K}.

Lemma select_insert (p : K -> R -> bool) t k r : t !! k = None ->
  select p (<[k := r]> t) ≡ₚ (if p k r then [(k, r)] else []) ++ select p t.
Proof.
  intros Hk. unfold select. rewrite (filter_perm _ _ _ (map_to_list_insert t k r Hk)). simpl. by destruct (p k r).
Qed.

Lemma select_weaker (p q : K -> R -> bool) t : (forall k r, p k r = true -> q k r = true) -> exists l, select q t ≡ₚ select p t ++ l.
Proof.
  intros Hpq. unfold select. induction (map_to_list t) as [|[k r] l [m IH]]; [by exists []|]. simpl. specialize (Hpq k r).
  destruct (p k r) eqn:Ep; [rewrite Hpq by done|destruct (q k r)]; simpl.
  - exists m. by rewrite IH.
  - exists ((k, r) :: m). rewrite IH. apply Permutation_middle.
  - by exists m.
Qed.

End Selections.

#[global] Instance sum_of_proper {R} (f : R -> Z) : Proper ((≡ₚ) ==> (=)) (sum_of f).
Proof. intros l l'. apply sum_permutation. Qed.

Lemma sum_of_app {R} (f : R -> Z) l l' : sum_of f (l ++ l') = sum_of f l + sum_of f l'.
Proof. unfold sum_of. induction l as [|x l IH]; simpl; lia. Qed.

Lemma sum_of_nonneg {R} (f : R -> Z) l : (forall x, 0 <= f x) -> 0 <= sum_of f l.
Proof. intros Hf. unfold sum_of. induction l as [|x l IH]; simpl; [lia|]. specialize (Hf x). lia. Qed.

(** ** Rows that stay valid when rows are added *)

(** Nothing was removed or changed. *)
Record grows (db db' : DB) : Prop := {
  gr_versions : api_template_versions db ⊆ api_template_versions db';
  gr_retirements : api_template_retirements db ⊆ api_template_retirements db';
  gr_drafts : api_template_drafts db ⊆ api_template_drafts db';
  gr_audits : maintenance_audit db ⊆ maintenance_audit db' }.

#[global] Instance grows_preorder : PreOrder grows.
Proof. split; [intros db; by split|]. intros d1 d2 d3 [] []. split; by etrans. Qed.

Lemma audit_grows db db' id p : grows db db' -> audit_of db id p = true -> audit_of db' id p = true.
Proof.
  intros [_ _ _ Ha] H. unfold audit_of in *. destruct (maintenance_audit db !! id) as [a|] eqn:E; [|done].
  by rewrite (lookup_weaken _ _ _ _ E Ha).
Qed.

Lemma audit_weaken db id (p q : Audit -> bool) : (forall a, p a = true -> q a = true) -> audit_of db id p = true -> audit_of db id q = true.
Proof. intros Hpq. unfold audit_of. destruct (_ !! id); [apply Hpq|done]. Qed.

Lemma from_draft_grows db db' i n v row a : grows db db' -> from_draft db i n v row a = true -> from_draft db' i n v row a = true.
Proof.
  intros Hg. unfold from_draft. rewrite !exists_row_true. intros (k & d & Hk & Hp). exists k, d.
  split; [apply (lookup_weaken _ _ _ _ Hk), Hg|]. rewrite !andb_true_iff in *. destruct Hp as ((((H1 & H2) & H3) & H4) & H5).
  do 4 (try split); try done. by apply (audit_grows db).
Qed.

Lemma publication_grows db db' i n v row : grows db db' -> publication_valid db i n v row = true -> publication_valid db' i n v row = true.
Proof.
  intros Hg H. apply (audit_grows _ _ _ _ Hg) in H. revert H. apply audit_weaken. intros a. rewrite !andb_true_iff, !orb_true_iff.
  intros [H1 [H2|H2]]; (split; [done|]); [by left|right; by apply (from_draft_grows db)].
Qed.

Lemma retirement_grows db db' i n v r : grows db db' -> retirement_valid db i n v r = true -> retirement_valid db' i n v r = true.
Proof. apply audit_grows. Qed.

Section Spec.
  Context {html : HtmlTemplates} {tokenizer : Tokenizer} {lower : LowerCase} {decoder : TemplateDecoder} {parser : UuidParser}.

(** ** The invariant *)

Record website_ok (db : DB) (i : UUID) : Prop := {
  wo_key : (versions_of i db <> [] \/ drafts_of i db <> []) -> exists k, api_keys db !! i = Some k /\ k_prefix k = "rts_"%string;
  wo_rows : forall n v row, api_template_versions db !! (i, n, v) = Some row ->
    publication_valid db i n v row = true /\
    exists t, stored_template n v (tv_definition row) (tv_definition_sha256 row) = Some t /\ te_Language t = tv_language row;
  wo_total : (length (versions_of i db) <= 64)%nat /\ octets (versions_of i db) <= 524288;
  wo_active : (length (active_of i db) <= 8)%nat /\ octets (active_of i db) <= 65536;
  wo_retired : forall n v r, api_template_retirements db !! (i, n, v) = Some r ->
    is_Some (api_template_versions db !! (i, n, v)) /\ retirement_valid db i n v r = true;
  wo_drafts : forall n r d, api_template_drafts db !! (i, n, r) = Some d ->
    1 <= r /\ (1 < r -> is_Some (api_template_drafts db !! (i, n, r - 1))) /\
    audit_of db (td_audit_id d) (draft_audit i n r d) = true /\
    is_Some (stored_template n (td_version d) (td_definition d) (td_definition_sha256 d));
  wo_draft_total : (length (drafts_of i db) <= 64)%nat /\ draft_octets (drafts_of i db) <= 524288 }.

Definition catalog_ok (db : DB) : Prop := forall i, website_ok db i.

(** Rows of other tables do not matter; audit rows may be added. *)
Lemma ok_elsewhere db db' : catalog_ok db -> grows db db' ->
  api_template_versions db' = api_template_versions db -> api_template_retirements db' = api_template_retirements db ->
  api_template_drafts db' = api_template_drafts db ->
  (forall i k, api_keys db !! i = Some k -> exists k', api_keys db' !! i = Some k' /\ k_prefix k' = k_prefix k) ->
  catalog_ok db'.
Proof.
  intros Hok Hg Ev Er Ed Hk i. destruct (Hok i) as [H1 H2 H3 H4 H5 H6 H7].
  split; unfold versions_of, active_of, drafts_of in *; rewrite ?Ev, ?Er, ?Ed; try done.
  - intros H. destruct (H1 H) as (k & Hki & Hp). destruct (Hk _ _ Hki) as (k' & Hk' & Hp'). exists k'. split; [done|congruence].
  - intros n v row Hrow. destruct (H2 n v row Hrow) as [Hp Ht]. split; [by apply (publication_grows db)|done].
  - intros n v r Hr. destruct (H5 n v r Hr) as [Hv Hp]. split; [done|by apply (retirement_grows db)].
  - intros n r d Hd. destruct (H6 n r d Hd) as (D1 & D2 & D3 & D4). do 2 (split; [done|]). split; [by apply (audit_grows db)|done].
Qed.

(** Counts and sizes with one more row *)
Lemma octets_insert (p : UUID * string * string -> TemplateVersionRow -> bool) t k row : t !! k = None ->
  length (select p (<[k := row]> t)) = ((if p k row then 1 else 0) + length (select p t))%nat /\
  octets (select p (<[k := row]> t)) = (if p k row then Z.of_nat (String.length (tv_definition row)) else 0) + octets (select p t).
Proof.
  intros Hk. unfold octets. rewrite (select_insert p t k row Hk), length_app, sum_of_app. destruct (p k row); [|done]. split; [done|]. unfold sum_of at 1. simpl. lia.
Qed.

Lemma octets_weaker (p q : UUID * string * string -> TemplateVersionRow -> bool) t : (forall k r, p k r = true -> q k r = true) ->
  (length (select p t) <= length (select q t))%nat /\ octets (select p t) <= octets (select q t).
Proof.
  intros Hpq. destruct (select_weaker p q t Hpq) as [l Hl]. unfold octets. split; [rewrite Hl, length_app; lia|]. rewrite Hl, sum_of_app.
  pose proof (sum_of_nonneg (fun kv : UUID * string * string * TemplateVersionRow => Z.of_nat (String.length (tv_definition (snd kv)))) l
    ltac:(intros; apply Nat2Z.is_nonneg)). lia.
Qed.

Lemma select_same {K R} `{Countable K} (p q : K -> R -> bool) (t : gmap K R) :
  (forall k r, t !! k = Some r -> p k r = q k r) -> select p t = select q t.
Proof.
  intros Hpq. unfold select. assert (Hin : forall kr, kr ∈ map_to_list t -> p (fst kr) (snd kr) = q (fst kr) (snd kr)).
  { intros [k r] Hkr. apply elem_of_map_to_list in Hkr. by apply Hpq. }
  induction (map_to_list t) as [|kr l IH]; [done|]. simpl. rewrite (Hin kr) by left. rewrite IH; [done|]. intros x Hx. apply Hin. by right.
Qed.

(** *** A new version *)

Definition with_version (k : UUID * string * string) (row : TemplateVersionRow) (db : DB) : DB :=
  db <| api_template_versions := <[k := row]> (api_template_versions db) |>.

Lemma with_version_grows k row db : api_template_versions db !! k = None -> grows db (with_version k row db).
Proof. intros Hk. split; simpl; [by apply insert_subseteq|done..]. Qed.

Lemma add_version db i n v row t : catalog_ok db -> api_template_versions db !! (i, n, v) = None ->
  (exists k, api_keys db !! i = Some k /\ k_prefix k = "rts_"%string) ->
  publication_valid db i n v row = true ->
  stored_template n v (tv_definition row) (tv_definition_sha256 row) = Some t -> te_Language t = tv_language row ->
  let len := Z.of_nat (String.length (tv_definition row)) in
  (length (versions_of i db) < 64)%nat -> octets (versions_of i db) + len <= 524288 ->
  (length (active_of i db) < 8)%nat -> octets (active_of i db) + len <= 65536 ->
  catalog_ok (with_version (i, n, v) row db).
Proof.
  intros Hok Hfree Hkey Hpub Hst Hlang len C1 C2 C3 C4 j. destruct (Hok j) as [H1 H2 H3 H4 H5 H6 H7].
  pose proof (with_version_grows (i, n, v) row db Hfree) as Hg.
  assert (Hret : api_template_retirements db !! (i, n, v) = None).
  { destruct (api_template_retirements db !! (i, n, v)) as [r|] eqn:E; [|done]. destruct (wo_retired _ _ (Hok i) _ _ _ E) as [[x Hx] _]. congruence. }
  destruct (octets_insert (of_website j) (api_template_versions db) (i, n, v) row Hfree) as [Lv Ov].
  destruct (octets_insert (fun k x => of_website j k x && is_null (api_template_retirements db !! k)) (api_template_versions db) (i, n, v) row Hfree) as [La Oa].
  fold (versions_of j db) in Lv, Ov. fold (active_of j db) in La, Oa. simpl in La, Oa. rewrite Hret in La, Oa.
  unfold of_website at 2 in Lv. unfold of_website at 2 in Ov. unfold of_website at 2 in La. unfold of_website at 2 in Oa. simpl in Lv, Ov, La, Oa.
  split.
  - intros Hne. destruct (decide (i = j)) as [<-|Hij]; [done|]. apply H1. destruct Hne as [Hne|]; [left|by right].
    intros E. apply Hne. apply nil_length_inv. unfold versions_of at 1. simpl. rewrite Lv, E. rewrite bool_decide_eq_false_2 by done. done.
  - simpl. intros n' v' row'. rewrite lookup_insert_Some. intros [[E <-]|[_ Hrow]].
    + injection E as -> -> ->. split; [by apply (publication_grows db)|eauto].
    + destruct (H2 _ _ _ Hrow) as [Hp Ht]. split; [by apply (publication_grows db)|done].
  - unfold versions_of at 1 2. simpl. rewrite Lv, Ov. case_bool_decide as E; simpl in E; [subst j|simpl]; lia.
  - unfold active_of at 1 2. simpl. rewrite La, Oa. rewrite !andb_true_r. case_bool_decide as E; simpl in E; [subst j|simpl]; lia.
  - simpl. intros n' v' r Hr. destruct (H5 _ _ _ Hr) as [Hv Hp]. split; [|by apply (retirement_grows db)].
    rewrite lookup_insert_is_Some'. by right.
  - simpl. intros n' r d Hd. destruct (H6 _ _ _ Hd) as (D1 & D2 & D3 & D4). do 2 (split; [done|]). split; [by apply (audit_grows db)|done].
  - done.
Qed.

(** *** A retirement *)

Definition with_retirement (k : UUID * string * string) (r : TemplateRetirement) (db : DB) : DB :=
  db <| api_template_retirements := <[k := r]> (api_template_retirements db) |>.

Lemma with_retirement_grows k r db : api_template_retirements db !! k = None -> grows db (with_retirement k r db).
Proof. intros Hk. split; simpl; [done|by apply insert_subseteq|done..]. Qed.

Lemma add_retirement db i n v r : catalog_ok db -> api_template_retirements db !! (i, n, v) = None ->
  is_Some (api_template_versions db !! (i, n, v)) -> retirement_valid db i n v r = true -> catalog_ok (with_retirement (i, n, v) r db).
Proof.
  intros Hok Hfree Hv Hr j. destruct (Hok j) as [H1 H2 H3 H4 H5 H6 H7]. pose proof (with_retirement_grows (i, n, v) r db Hfree) as Hg.
  split; [done| |done| | | |done].
  - intros n' v' row Hrow. destruct (H2 _ _ _ Hrow) as [Hp Ht]. split; [by apply (publication_grows db)|done].
  - destruct (octets_weaker (fun k x => of_website j k x && is_null (<[(i, n, v) := r]> (api_template_retirements db) !! k))
      (fun k x => of_website j k x && is_null (api_template_retirements db !! k)) (api_template_versions db)) as [L O].
    { intros k x. rewrite !andb_true_iff. intros [Hw Hn]. split; [done|]. destruct (decide ((i, n, v) = k)) as [<-|Hk]; [by rewrite Hfree|].
      by rewrite lookup_insert_ne in Hn. }
    fold (active_of j db) in L, O. unfold active_of at 1 2. simpl. lia.
  - simpl. intros n' v' r'. rewrite lookup_insert_Some. intros [[E <-]|[_ Hr']].
    + injection E as -> -> ->. split; [done|by apply (retirement_grows db)].
    + destruct (H5 _ _ _ Hr') as [Hv' Hp]. split; [done|by apply (retirement_grows db)].
  - simpl. intros n' r' d Hd. destruct (H6 _ _ _ Hd) as (D1 & D2 & D3 & D4). do 2 (split; [done|]). split; [by apply (audit_grows db)|done].
Qed.

(** *** A revision of a draft *)

Definition with_draft (k : UUID * string * Z) (d : TemplateDraftRow) (db : DB) : DB :=
  db <| api_template_drafts := <[k := d]> (api_template_drafts db) |>.

Lemma with_draft_grows k d db : api_template_drafts db !! k = None -> grows db (with_draft k d db).
Proof. intros Hk. split; simpl; [done|done|by apply insert_subseteq|done]. Qed.

Lemma add_draft db i n r d : catalog_ok db -> api_template_drafts db !! (i, n, r) = None ->
  (exists k, api_keys db !! i = Some k /\ k_prefix k = "rts_"%string) ->
  1 <= r -> (1 < r -> is_Some (api_template_drafts db !! (i, n, r - 1))) ->
  audit_of db (td_audit_id d) (draft_audit i n r d) = true ->
  is_Some (stored_template n (td_version d) (td_definition d) (td_definition_sha256 d)) ->
  (length (drafts_of i db) < 64)%nat -> draft_octets (drafts_of i db) + Z.of_nat (String.length (td_definition d)) <= 524288 ->
  catalog_ok (with_draft (i, n, r) d db).
Proof.
  intros Hok Hfree Hkey Hr Hprev Ha Hst C1 C2 j. destruct (Hok j) as [H1 H2 H3 H4 H5 H6 H7].
  pose proof (with_draft_grows (i, n, r) d db Hfree) as Hg.
  pose proof (select_insert (of_website j) (api_template_drafts db) (i, n, r) d Hfree) as Hsel.
  fold (drafts_of j db) in Hsel. fold (drafts_of j (with_draft (i, n, r) d db)) in Hsel. unfold of_website in Hsel. simpl in Hsel.
  split.
  - intros Hne. destruct (decide (i = j)) as [<-|Hij]; [done|]. apply H1. destruct Hne as [|Hne]; [by left|right].
    intros E. apply Hne. apply Permutation_nil. rewrite Hsel, E. by rewrite bool_decide_eq_false_2.
  - intros n' v' row Hrow. destruct (H2 _ _ _ Hrow) as [Hp Ht]. split; [by apply (publication_grows db)|done].
  - done.
  - done.
  - simpl. intros n' v' r' Hr'. destruct (H5 _ _ _ Hr') as [Hv' Hp]. split; [done|by apply (retirement_grows db)].
  - simpl. intros n' r' d'. rewrite !lookup_insert_Some, !lookup_insert_is_Some'. intros [[E <-]|[_ Hd]].
    + injection E as <- <- <-. split; [done|]. split; [intros; right; auto|]. split; [by apply (audit_grows db)|done].
    + destruct (H6 _ _ _ Hd) as (D1 & D2 & D3 & D4). split; [done|]. split; [intros; right; auto|]. split; [by apply (audit_grows db)|done].
  - unfold draft_octets in *. split.
    + rewrite Hsel, length_app. case_bool_decide as E; simpl; [subst j|]; lia.
    + rewrite Hsel, sum_of_app. case_bool_decide as E; [subst j; unfold sum_of at 1; simpl|]; try lia. unfold sum_of at 1. simpl. lia.
Qed.

(** ** A definition reads back as the template

    What [encoding/json] does with one template: its text has the tokens of the
    document, is valid UTF-8, and decodes to it again. *)

Definition document (t : SendTemplate) : tree :=
  Object ([("id", Text (te_ID t))] ++ (if String.eqb (te_Language t) "" then [] else [("language", Text (te_Language t))])
          ++ [("version", Text (te_Version t)); ("subject", Text (te_Subject t)); ("text", Text (te_Text t)); ("html", Text (te_HTML t));
              ("variables", match te_Variables t with [] => Scalar | l => Array (map Text l) end)])%list%string.

Record encodes (t : SendTemplate) : Prop := {
  enc_tokens : NewDecoder (bytes_of (marshal_template t)) = MkDecoder (flatten (document t)) true;
  enc_valid : ValidString (marshal_template t) = true;
  enc_decode : decode_template (bytes_of (marshal_template t)) = Some (t <| te_compiled := None |>) }.

(** [strings.ToLower] leaves these names alone. *)
Definition field_names : list string := ["id"; "language"; "version"; "subject"; "text"; "html"; "variables"]%string.
Context (Hlower : Forall (fun s => lower_case s = s) field_names).

Lemma document_plain t : plain 0 (document t).
Proof.
  pose proof Hlower as H. unfold field_names in H. rewrite !Forall_cons in H. destruct H as (L1 & L2 & L3 & L4 & L5 & L6 & L7 & _).
  apply plain_object; [lia| |].
  - destruct (String.eqb (te_Language t) ""); simpl; rewrite ?L1, ?L2, ?L3, ?L4, ?L5, ?L6, ?L7; by apply (bool_decide_unpack _).
  - apply Forall_app. split; [repeat constructor|]. apply Forall_app. split; [destruct (String.eqb _ _); repeat constructor; simpl; lia|].
    do 4 (apply Forall_cons; split; [apply plain_text; lia|]). apply Forall_cons. split; [|constructor]. cbn [snd].
    destruct (te_Variables t) as [|x l]; [constructor; lia|]. apply plain_array; [lia|]. apply Forall_map, Forall_true. intros y. constructor. lia.
Qed.

Lemma document_unique t : uniqueJSON (MkDecoder (flatten (document t)) true) = true.
Proof.
  unfold uniqueJSON. cbn [d_left]. rewrite <- (app_nil_r (flatten (document t))) at 2.
  rewrite value_complete; [done|apply document_plain|lia].
Qed.

Lemma variable_names_complete l : forall names, NoDup l -> Forall (fun n => templateName n = true) l -> (forall n, n ∈ l -> n ∉ names) ->
  variable_names names l = Some (list_to_set l ∪ names).
Proof.
  induction l as [|x l IH]; intros names Hnd Hall Hfree; [cbn; f_equal; set_solver|]. cbn [variable_names].
  apply NoDup_cons in Hnd as [Hx Hnd]. apply Forall_cons in Hall as [Hn Hall]. rewrite Hn.
  rewrite bool_decide_eq_false_2 by (apply Hfree; by left). cbn [negb orb]. rewrite IH; [f_equal; set_solver|done|done|].
  intros n Hin. rewrite not_elem_of_union, not_elem_of_singleton. split; [by intros ->|]. apply Hfree. by right.
Qed.

(** Preparing does not depend on the order of the variables. *)
Lemma prepare_sorted t x : prepare_one [] t = Some x -> exists y, prepare_one [] ((sorted_template t) <| te_compiled := None |>) = Some y.
Proof.
  unfold prepare_one. set (t' := (sorted_template t) <| te_compiled := None |>).
  assert (Hv : TemplateVersion t' = TemplateVersion t).
  { unfold TemplateVersion, version_input. do 5 f_equal. unfold version_fields. simpl.
    assert (Hs : sort_by String.leb (sort_by String.leb (te_Variables t)) = sort_by String.leb (te_Variables t))
      by (apply sort_names_eq; by rewrite sort_by_perm). by rewrite Hs. }
  rewrite Hv. change (te_ID t') with (te_ID t). change (te_Language t') with (te_Language t). change (te_Version t') with (te_Version t).
  change (te_Subject t') with (te_Subject t). change (te_Text t') with (te_Text t). change (te_HTML t') with (te_HTML t).
  assert (Hl : length (te_Variables t') = length (te_Variables t)) by (unfold t'; simpl; by rewrite sort_by_perm). rewrite Hl.
  destruct (_ || (16 <? _)%nat); [done|]. destruct (variable_names ∅ (te_Variables t)) as [names|] eqn:En; [|done]. cbn [mbind option_bind].
  apply variable_names_spec in En as (N1 & N2 & _ & ->).
  assert (Hn : variable_names ∅ (te_Variables t') = Some (list_to_set (te_Variables t) ∪ ∅)).
  { unfold t'. simpl. rewrite variable_names_complete.
    - do 2 f_equal. apply leibniz_equiv. by rewrite sort_by_perm.
    - by rewrite sort_by_perm.
    - by rewrite sort_by_perm.
    - intros n _. apply not_elem_of_empty. }
  rewrite Hn. cbn [mbind option_bind].
  destruct (templateSource (te_Subject t) _ ∅ false) as [[o1 u1]|]; [|done]. cbn [mbind option_bind].
  destruct (templateSource (te_Text t) _ u1 false) as [[o2 u2]|]; [|done]. cbn [mbind option_bind].
  destruct (templateSource (te_HTML t) _ u2 true) as [[source u3]|]; [|done]. cbn [mbind option_bind].
  destruct (negb (size u3 =? _)%nat); [done|]. destruct (html_parse source) as [c|]; [|done]. cbn [mbind option_bind].
  destruct (html_execute c _); [|done]. eauto.
Qed.

Lemma prepare_single t x : prepareTemplates [t] = Some x <-> exists y, x = [y] /\ prepare_one [] t = Some y.
Proof.
  unfold prepareTemplates. cbn [length Nat.ltb Nat.leb prepare_all]. destruct (prepare_one [] t) as [y|]; simpl.
  - split; [intros [= <-]; eauto|]. by intros (z & -> & [= ->]).
  - split; [done|]. by intros (z & _ & ?).
Qed.

Lemma version_json_spec raw t : VersionTemplateJSON raw = Some t -> exists y, prepare_one [] t = Some y.
Proof.
  unfold VersionTemplateJSON. destruct (_ || negb (uniqueJSON _)); [done|]. destruct (decode_template raw) as [t0|]; [|done]. cbn [mbind option_bind].
  destruct (prepareTemplates [_]) as [x|] eqn:E; [|done]. cbn [mbind option_bind]. intros [= <-]. apply prepare_single in E as (y & _ & Hy). eauto.
Qed.

Lemma prepared_version t y : prepare_one [] t = Some y -> te_Version t = TemplateVersion t.
Proof. intros H. apply prepare_one_spec in H as (Hp & E & _). pose proof (pr_version y Hp) as Hv. rewrite E in Hv. exact Hv. Qed.

Lemma version_length t : String.length (TemplateVersion t) = 64%nat.
Proof. unfold TemplateVersion. by rewrite EncodeToString_length, Sha.Sum256_length. Qed.

Lemma version_nonempty t : TemplateVersion t <> EmptyString.
Proof. intros E. apply (f_equal String.length) in E. by rewrite version_length in E. Qed.

Lemma reads_back raw t definition : VersionTemplateJSON raw = Some t -> canonicalTemplate t = Some definition -> encodes (sorted_template t) ->
  stored_template (te_ID t) (te_Version t) definition (definition_hash definition) = Some ((sorted_template t) <| te_compiled := None |>).
Proof.
  intros Ht Hc [E1 E2 E3]. apply version_json_spec in Ht as (y & Hy). unfold canonicalTemplate in Hc.
  destruct (Z.ltb_spec 32768 (Z.of_nat (String.length (marshal_template (sorted_template t))))) as [|Hlen]; [done|]. injection Hc as <-.
  pose proof (prepare_sorted t y Hy) as (y' & Hy').
  assert (Hv : te_Version ((sorted_template t) <| te_compiled := None |>) = te_Version t) by done.
  assert (Hid : te_ID ((sorted_template t) <| te_compiled := None |>) = te_ID t) by done.
  set (t' := (sorted_template t) <| te_compiled := None |>) in *. clearbody t'.
  unfold stored_template. rewrite String.eqb_refl. cbn [negb]. unfold VersionTemplateJSON.
  rewrite Encryption.length_bytes, E1, document_unique, E3. unfold bytes_of at 1. rewrite string_of_list_byte_of_string, E2.
  destruct (Z.ltb_spec 32768 (Z.of_nat (String.length (marshal_template (sorted_template t))))) as [|_]; [lia|]. cbn [orb negb mbind option_bind].
  rewrite Hv. destruct (String.eqb_spec (te_Version t) "") as [E|_].
  { rewrite (prepared_version t y Hy) in E. by apply version_nonempty in E. }
  rewrite (proj2 (prepare_single t' [y'])) by eauto. cbn [mbind option_bind]. by rewrite Hv, Hid, !String.eqb_refl.
Qed.

(** ** The operations *)

Definition with_audit (id : UUID) (a : Audit) (db : DB) : DB := db <| maintenance_audit := <[id := a]> (maintenance_audit db) |>.

Lemma with_audit_grows id a db : maintenance_audit db !! id = None -> grows db (with_audit id a db).
Proof. intros Hk. split; simpl; [done..|by apply insert_subseteq]. Qed.

Lemma with_audit_ok id a db : maintenance_audit db !! id = None -> catalog_ok db -> catalog_ok (with_audit id a db).
Proof. intros Hk Hok. apply (ok_elsewhere db); [done|by apply with_audit_grows|done..|]. intros i k Hi. by exists k. Qed.

Lemma triple_audit_row action actor data db0 : triple (fun db => db = db0) (audit_row action actor data)
  (fun id db => maintenance_audit db0 !! id = None /\ db = with_audit id (MkAudit action actor (JObj data)) db0).
Proof.
  unfold audit_row. step (fun (_ : UUID) db => db = db0); [apply triple_fresh|].
  step (fun (_ : unit) db => maintenance_audit db0 !! a = None /\ db = with_audit a (MkAudit action actor (JObj data)) db0).
  - apply triple_stmt. intros t db [] db' -> H. destruct (insert_row a _ _) as [rows|] eqn:E; [|done].
    apply insert_row_some in E as [E ->]. injection H as <-. done.
  - by apply triple_return.
Qed.

Lemma triple_failing {A} P e (m : M A) Q : triple P m Q -> triple P (failing e m) Q.
Proof.
  intros H w k db a k' db' HP Hm. unfold failing in Hm. destruct (m w (k, db)) as [e'|r] eqn:E; [done|]. injection Hm as ->.
  by eapply H.
Qed.

(** What a publication did *)
Definition publication_result (k : UUID * string * string) (definition : string) (replayed : bool) (db0 db : DB) : Prop :=
  if replayed then db = db0 /\ exists row, api_template_versions db0 !! k = Some row /\ tv_definition row = definition
  else api_template_versions db0 !! k = None /\
       exists row, tv_definition row = definition /\ api_template_versions db = <[k := row]> (api_template_versions db0) /\
                   api_template_retirements db = api_template_retirements db0 /\ api_template_drafts db = api_template_drafts db0.

(** Where a publication comes from: nowhere in particular, or a draft *)
Definition provenance_ok (db : DB) (i : UUID) (n v hash : string) (provenance : list (string * json)) : Prop :=
  provenance = [] \/ exists r d, provenance = [("draft_revision"%string, JNum r)] /\ api_template_drafts db !! (i, n, r) = Some d /\
    td_version d = v /\ td_definition_sha256 d = hash.

Lemma new_publication_valid db i n v language definition actor reason provenance id at_ :
  catalog_ok db -> maintenance_audit db !! id = None -> provenance_ok db i n v (definition_hash definition) provenance ->
  let a := MkAudit "TEMPLATE_PUBLISHED" actor (JObj
    ([("api_key_id", JStr (uuid_text i)); ("id", JStr n); ("version", JStr v); ("language", JStr language);
      ("definition_sha256", JStr (definition_hash definition)); ("reason", JStr reason)]%string ++ provenance)) in
  publication_valid (with_audit id a db) i n v (MkTemplateVersionRow language definition (definition_hash definition) at_ id) = true.
Proof.
  intros Hok Hfree Hprov a. unfold publication_valid, audit_of. cbn [tv_audit_id with_audit].
  assert (Ha : maintenance_audit (with_audit id a db) !! id = Some a) by (simpl; apply lookup_insert_eq). rewrite Ha.
  apply andb_true_iff. split.
  - unfold published_audit, names_row, data_text. cbn [tv_definition_sha256]. rewrite !andb_true_iff. repeat split; try done; by apply bool_decide_eq_true_2.
  - destruct Hprov as [->|(r & d & -> & Hd & Hv & Hh)]; [done|]. apply orb_true_iff. right. unfold from_draft. apply exists_row_true.
    exists (i, n, r), d. split; [done|]. cbn [fst snd tv_definition_sha256]. rewrite Hv, Hh, !String.eqb_refl, !andb_true_r.
    rewrite !andb_true_iff. split; [split|].
    + by apply bool_decide_eq_true_2.
    + destruct (wo_drafts _ _ (Hok i) _ _ _ Hd) as (_ & _ & Hau & _). apply (audit_grows db); [by apply with_audit_grows|done].
    + unfold data_number. apply orb_true_iff. left. by apply bool_decide_eq_true_2.
Qed.

Definition kept (db0 : DB) (db : DB) : Prop := catalog_ok db /\ grows db0 db.

Lemma publishTemplateTx_ok i t definition actor reason provenance t' db0 :
  catalog_ok db0 -> provenance_ok db0 i (te_ID t) (te_Version t) (definition_hash definition) provenance ->
  stored_template (te_ID t) (te_Version t) definition (definition_hash definition) = Some t' -> te_Language t' = te_Language t ->
  triple (fun db => db = db0) (publishTemplateTx i t definition actor reason provenance)
    (fun replayed db => kept db0 db /\ publication_result (i, te_ID t, te_Version t) definition replayed db0 db).
Proof.
  intros Hok Hprov Hst Hlang. unfold publishTemplateTx.
  step (fun k db => db = db0 /\ forall x, k = Some x -> api_keys db0 !! i = Some x /\ k_prefix x = "rts_"%string).
  { apply triple_query. intros _ db ->. split; [done|]. intros x. destruct (api_keys db0 !! i) as [y|]; [|done]. cbn [mbind option_bind].
    destruct (String.eqb_spec (k_prefix y) "rts_") as [E|]; [|done]. by intros [= ->]. }
  step (fun (_ : unit) db => db = db0 /\ exists x, api_keys db0 !! i = Some x /\ k_prefix x = "rts_"%string).
  { destruct a as [x|]; [|apply triple_raise]. destruct (k_enabled x); [|apply triple_raise]. apply triple_return. intros db [-> H]. eauto. }
  apply triple_pure. intros Hkey.
  step (fun (row : option (string * bool)) db => db = db0 /\ match row with
    | Some (stored, _) => exists v, api_template_versions db0 !! (i, te_ID t, te_Version t) = Some v /\ tv_definition v = stored
    | None => api_template_versions db0 !! (i, te_ID t, te_Version t) = None end).
  { apply triple_query. intros _ db ->. split; [done|]. destruct (api_template_versions db0 !! _) as [v|] eqn:E; [|done]. cbn [mbind option_bind].
    destruct (wo_rows _ _ (Hok i) _ _ _ E) as [Hp _]. unfold publication_valid, audit_of in Hp.
    destruct (maintenance_audit db0 !! tv_audit_id v); [|done]. cbn [mbind option_bind]. eauto. }
  destruct a1 as [[stored valid]|].
  { apply triple_pure. intros (v & Hv & Hdef). step (fun (_ : unit) db => db = db0 /\ valid && String.eqb stored definition = true);
      [apply triple_guard|]. apply triple_return. intros db [-> Hg]. apply andb_true_iff in Hg as [_ Hg]. apply String.eqb_eq in Hg.
    split; [by split|]. split; [done|]. exists v. split; [done|congruence]. }
  apply triple_pure. intros Hfree.
  step (fun use db => db = db0 /\ use = (length (versions_of i db0), octets (versions_of i db0))); [apply triple_query; by intros _ db ->|].
  apply triple_pure. intros ->. cbn [fst snd].
  eapply triple_bind; [apply triple_guard|]. intros []. apply triple_pure. intros C1.
  step (fun (_ : bool) db => db = db0); [apply triple_query; by intros _ db ->|].
  eapply triple_bind; [apply triple_guard|]. intros []. apply triple_pure. intros _.
  step (fun use db => db = db0 /\ use = (length (active_of i db0), octets (active_of i db0))); [apply triple_query; by intros _ db ->|].
  apply triple_pure. intros ->. cbn [fst snd].
  eapply triple_bind; [apply triple_guard|]. intros []. apply triple_pure. intros C2.
  rewrite negb_true_iff, orb_false_iff, Nat.leb_gt, Z.ltb_ge in C1, C2.
  eapply triple_bind; [apply triple_audit_row|]. intros id. apply triple_from. intros db1 [Hid ->].
  set (db1 := with_audit id _ db0).
  step (fun (_ : unit) db => exists at_, db = with_version (i, te_ID t, te_Version t)
    (MkTemplateVersionRow (te_Language t) definition (definition_hash definition) at_ id) db1).
  { apply triple_stmt. intros at_ db [] db' -> H. destruct (insert_row _ _ _) as [rows|] eqn:E; [|done].
    apply insert_row_some in E as [_ ->]. injection H as <-. by exists (at_now at_). }
  apply triple_return. intros db [at_ ->]. set (row := MkTemplateVersionRow _ _ _ _ _).
  assert (Hg1 : grows db0 db1) by (by apply with_audit_grows).
  split; [split|].
  - apply (add_version db1 i (te_ID t) (te_Version t) row t'); try done.
    + by apply with_audit_ok.
    + by apply new_publication_valid.
    + change (versions_of i db1) with (versions_of i db0). lia.
    + change (octets (versions_of i db0) + Z.of_nat (String.length definition) <= 524288). lia.
    + change (active_of i db1) with (active_of i db0). lia.
    + change (octets (active_of i db0) + Z.of_nat (String.length definition) <= 65536). lia.
  - etrans; [exact Hg1|by apply with_version_grows].
  - split; [done|]. by exists row.
Qed.

(** [encoding/json] writes and reads the template of this text. *)
Definition writable (raw : list byte) : Prop := forall t, VersionTemplateJSON raw = Some t -> encodes (sorted_template t).

Lemma PublishTemplate_ok identity raw actor reason db0 : catalog_ok db0 -> writable raw ->
  triple (fun db => db = db0) (PublishTemplate identity raw actor reason)
    (fun e db => kept db0 db /\ exists i t definition replayed, e = Commit (inr replayed) /\ website_id identity = Some i /\
       VersionTemplateJSON raw = Some t /\ canonicalTemplate t = Some definition /\
       publication_result (i, te_ID t, te_Version t) definition replayed db0 db).
Proof.
  intros Hok Hw. unfold PublishTemplate. destruct (website_id identity) as [i|] eqn:Ei; [|apply triple_raise].
  destruct (_ || _); [apply triple_raise|]. destruct (VersionTemplateJSON raw) as [t|] eqn:Et; [|apply triple_raise].
  destruct (String.eqb _ _); [apply triple_raise|]. destruct (canonicalTemplate t) as [definition|] eqn:Ec; [|apply triple_raise].
  eapply triple_bind.
  - eapply publishTemplateTx_ok; [done|by left|by apply (reads_back raw); [| |apply Hw]|done].
  - intros replayed. apply triple_return. intros db [Hk Hr]. split; [done|]. by exists i, t, definition, replayed.
Qed.

(** What a retirement did *)
Definition retirement_result (k : UUID * string * string) (replayed : bool) (db0 db : DB) : Prop :=
  is_Some (api_template_versions db0 !! k) /\
  if replayed then db = db0 /\ is_Some (api_template_retirements db0 !! k)
  else api_template_retirements db0 !! k = None /\ exists r, api_template_retirements db = <[k := r]> (api_template_retirements db0) /\
         api_template_versions db = api_template_versions db0 /\ api_template_drafts db = api_template_drafts db0.

Lemma new_retirement_valid db i n v actor reason id at_ :
  let a := MkAudit "TEMPLATE_RETIRED" actor (JObj
    [("api_key_id", JStr (uuid_text i)); ("id", JStr n); ("version", JStr v); ("reason", JStr reason)]%string) in
  retirement_valid (with_audit id a db) i n v (MkTemplateRetirement at_ id) = true.
Proof.
  intros a. unfold retirement_valid, audit_of. cbn [tq_audit_id].
  assert (Ha : maintenance_audit (with_audit id a db) !! id = Some a) by (simpl; apply lookup_insert_eq). rewrite Ha.
  unfold names_row, data_text. rewrite !andb_true_iff. repeat split; try done; by apply bool_decide_eq_true_2.
Qed.

Lemma RetireTemplate_ok identity name version actor reason db0 : catalog_ok db0 ->
  triple (fun db => db = db0) (RetireTemplate identity name version actor reason)
    (fun e db => kept db0 db /\ exists i replayed, e = Commit (inr replayed) /\ website_id identity = Some i /\
       retirement_result (i, name, version) replayed db0 db).
Proof.
  intros Hok. unfold RetireTemplate. destruct (website_id identity) as [i|] eqn:Ei; [|apply triple_raise].
  destruct (_ || _); [apply triple_raise|].
  step (fun (_ : option ApiKey) db => db = db0); [apply triple_failing, triple_query; by intros _ db ->|].
  eapply triple_bind; [apply triple_guard_|]. intros [].
  step (fun (_ : option bool) db => db = db0); [apply triple_failing, triple_query; by intros _ db ->|].
  eapply triple_bind; [apply triple_guard_|]. intros [].
  step (fun s db => db = db0 /\ s = (not_null (api_template_versions db0 !! (i, name, version)), not_null (api_template_retirements db0 !! (i, name, version))));
    [apply triple_query; by intros _ db ->|]. apply triple_pure. intros ->. cbn [fst snd].
  eapply triple_bind; [apply triple_guard|]. intros []. apply triple_pure. intros Hv.
  destruct (api_template_versions db0 !! (i, name, version)) as [row|] eqn:Erow; [|done].
  destruct (api_template_retirements db0 !! (i, name, version)) as [r|] eqn:Er; cbn [not_null].
  { apply triple_return. intros db ->. split; [by split|]. exists i, true. do 2 (split; [done|]). split; [by eexists|]. split; [done|by exists r]. }
  eapply triple_bind; [apply triple_audit_row|]. intros id. apply triple_from. intros db1 [Hid ->]. set (db1 := with_audit id _ db0).
  step (fun (_ : unit) db => exists at_, db = with_retirement (i, name, version) (MkTemplateRetirement at_ id) db1).
  { apply triple_stmt. intros at_ db [] db' -> H. destruct (insert_row _ _ _) as [rows|] eqn:E; [|done].
    apply insert_row_some in E as [_ ->]. injection H as <-. by exists (at_now at_). }
  apply triple_return. intros db [at_ ->]. split; [split|].
  - apply add_retirement; [by apply with_audit_ok|done|by exists row|apply new_retirement_valid].
  - etrans; [by apply with_audit_grows|by apply with_retirement_grows].
  - exists i, false. do 2 (split; [done|]). split; [by exists row|]. split; [done|]. by eexists.
Qed.

(** What saving a draft did *)
Definition save_result (i : UUID) (n definition : string) (expected revision : Z) (replayed : bool) (db0 db : DB) : Prop :=
  let current := match latest_draft i n db0 with Some (r, _) => r | None => 0 end in
  if replayed then db = db0 /\ revision = current /\ (expected = current \/ expected + 1 = current) /\
    exists d, latest_draft i n db0 = Some (revision, d) /\ td_definition d = definition
  else expected = current /\ revision = current + 1 /\ api_template_drafts db0 !! (i, n, revision) = None /\
    exists d, td_definition d = definition /\ api_template_drafts db = <[(i, n, revision) := d]> (api_template_drafts db0) /\
      api_template_versions db = api_template_versions db0 /\ api_template_retirements db = api_template_retirements db0.

Lemma latest_draft_some i n db r d : latest_draft i n db = Some (r, d) -> api_template_drafts db !! (i, n, r) = Some d.
Proof.
  unfold latest_draft. intros H. destruct (head _) as [[[[i' n'] r'] d']|] eqn:E; [|done]. simpl in H. injection H as -> ->.
  assert (Hin : (i', n', r, d) ∈ sort_by revision_geb (select (fun k _ => bool_decide (fst k = (i, n))) (api_template_drafts db)))
    by (destruct (sort_by _ _); [done|]; injection E as ->; by left).
  apply elem_sort_by, elem_select in Hin as [Hin Hp]. apply bool_decide_eq_true_1 in Hp. simpl in Hp. injection Hp as -> ->. done.
Qed.

Lemma new_draft_audit db i n r version definition actor reason id at_ :
  let a := MkAudit "TEMPLATE_DRAFT_SAVED" actor (JObj
    [("api_key_id", JStr (uuid_text i)); ("id", JStr n); ("revision", JNum r); ("version", JStr version);
     ("definition_sha256", JStr (definition_hash definition)); ("reason", JStr reason)]%string) in
  let d := MkTemplateDraftRow version definition (definition_hash definition) at_ id in
  audit_of (with_audit id a db) id (draft_audit i n r d) = true.
Proof.
  intros a d. unfold audit_of. assert (Ha : maintenance_audit (with_audit id a db) !! id = Some a) by (simpl; apply lookup_insert_eq). rewrite Ha.
  unfold draft_audit, names_row, data_number, data_text. rewrite !andb_true_iff, orb_true_iff. repeat split; try done; try left; by apply bool_decide_eq_true_2.
Qed.

Lemma lockDraftIdentity_ok i db0 : triple (fun db => db = db0) (lockDraftIdentity i)
  (fun _ db => db = db0 /\ exists k, api_keys db0 !! i = Some k /\ k_prefix k = "rts_"%string).
Proof.
  unfold lockDraftIdentity. step (fun (_ : ApiKey) db => db = db0 /\ exists k, api_keys db0 !! i = Some k /\ k_prefix k = "rts_"%string).
  - apply triple_query_row. intros _ db k -> H. split; [done|]. destruct (api_keys db0 !! i) as [x|]; [|done]. cbn [mbind option_bind] in H.
    destruct (String.eqb_spec (k_prefix x) "rts_"); [|done]. eauto.
  - apply triple_guard_.
Qed.

Lemma verifyDrafts_ok o db0 : triple (fun db => db = db0) (verifyDrafts o) (fun _ db => db = db0).
Proof. unfold verifyDrafts. step (fun (_ : bool) db => db = db0); [apply triple_query; by intros _ db ->|apply triple_guard_]. Qed.

Lemma SaveTemplateDraft_ok identity expected raw actor reason db0 : catalog_ok db0 -> writable raw ->
  triple (fun db => db = db0) (SaveTemplateDraft identity expected raw actor reason)
    (fun e db => kept db0 db /\ exists i t definition revision replayed, e = Commit (inr (revision, replayed)) /\ website_id identity = Some i /\
       VersionTemplateJSON raw = Some t /\ canonicalTemplate t = Some definition /\
       save_result i (te_ID t) definition expected revision replayed db0 db).
Proof.
  intros Hok Hw. unfold SaveTemplateDraft, draftIdentity. destruct (reviewer_ok _ _); [|apply triple_raise].
  destruct (website_id identity) as [i|] eqn:Ei; [|apply triple_raise]. destruct (_ || (64 <? expected)); [apply triple_raise|].
  destruct (VersionTemplateJSON raw) as [t|] eqn:Et; [|apply triple_raise].
  destruct (canonicalTemplate t) as [definition|] eqn:Ec; [|apply triple_raise].
  eapply triple_bind; [apply lockDraftIdentity_ok|]. intros []. apply triple_pure. intros Hkey.
  eapply triple_bind; [apply verifyDrafts_ok|]. intros [].
  step (fun latest db => db = db0 /\ latest = latest_draft i (te_ID t) db0); [apply triple_query; by intros _ db ->|]. apply triple_pure. intros ->.
  set (current := match latest_draft i (te_ID t) db0 with Some (r, _) => r | None => 0 end).
  set (stored := match latest_draft i (te_ID t) db0 with Some (_, d) => td_definition d | None => EmptyString end).
  assert (Hdef : definition <> EmptyString).
  { unfold canonicalTemplate in Ec. destruct (_ <? _); [done|]. by injection Ec as <-. }
  destruct (String.eqb stored definition && _) eqn:Erep.
  { apply triple_return. intros db ->. split; [by split|]. exists i, t, definition, current, true. do 4 (split; [done|]).
    apply andb_true_iff in Erep as [Es Ex]. apply String.eqb_eq in Es. rewrite orb_true_iff, !Z.eqb_eq in Ex. do 3 (split; [done|]).
    unfold stored, current in *. destruct (latest_draft i (te_ID t) db0) as [[r d]|]; [eauto|congruence]. }
  clear Erep. destruct (Z.eqb_spec expected current) as [Eexp|]; [|apply triple_raise]. cbn [negb].
  step (fun use db => db = db0 /\ use = (length (drafts_of i db0), draft_octets (drafts_of i db0))); [apply triple_query; by intros _ db ->|].
  apply triple_pure. intros ->. cbn [fst snd]. step (fun (_ : nat * Z) db => db = db0); [apply triple_query; by intros _ db ->|].
  eapply triple_bind; [apply triple_guard|]. intros []. apply triple_pure. intros C. rewrite negb_true_iff, !orb_false_iff, Nat.leb_gt, Z.ltb_ge in C.
  destruct C as [[[C1 C2] _] _].
  eapply triple_bind; [apply triple_audit_row|]. intros id. apply triple_from. intros db1 [Hid ->]. set (db1 := with_audit id _ db0).
  step (fun (_ : unit) db => api_template_drafts db0 !! (i, te_ID t, current + 1) = None /\ exists at_, db = with_draft (i, te_ID t, current + 1)
    (MkTemplateDraftRow (te_Version t) definition (definition_hash definition) at_ id) db1).
  { apply triple_stmt. intros at_ db [] db' -> H. destruct (insert_row _ _ _) as [rows|] eqn:E; [|done].
    apply insert_row_some in E as [E ->]. injection H as <-. split; [exact E|]. by exists (at_now at_). }
  apply triple_return. intros db [Hfree [at_ ->]].
  assert (Hcur : 0 <= current /\ (0 < current -> is_Some (api_template_drafts db0 !! (i, te_ID t, current)))).
  { unfold current. destruct (latest_draft i (te_ID t) db0) as [[r d]|] eqn:E; [|done]. apply latest_draft_some in E.
    destruct (wo_drafts _ _ (Hok i) _ _ _ E) as [H1 _]. split; [lia|]. by exists d. }
  split; [split|].
  - apply add_draft; [by apply with_audit_ok|done|done|lia| |apply new_draft_audit| |done|done].
    + intros H. replace (current + 1 - 1) with current by lia. apply Hcur. lia.
    + eexists. by apply (reads_back raw t definition Et Ec), Hw.
  - etrans; [by apply with_audit_grows|by apply with_draft_grows].
  - exists i, t, definition, (current + 1), false. do 4 (split; [done|]). split; [done|]. split; [done|]. split; [done|]. eexists. split; [|split; [reflexivity|done]]. done.
Qed.

Lemma stored_template_inv n v definition hash t : stored_template n v definition hash = Some t ->
  hash = definition_hash definition /\ VersionTemplateJSON (bytes_of definition) = Some t /\ te_ID t = n /\ te_Version t = v.
Proof.
  unfold stored_template. destruct (String.eqb_spec (definition_hash definition) hash) as [<-|]; [|done]. cbn [negb].
  destruct (VersionTemplateJSON _) as [x|]; [|done]. cbn [mbind option_bind].
  destruct (String.eqb_spec (te_ID x) n), (String.eqb_spec (te_Version x) v); try done. by intros [= ->].
Qed.

Lemma PublishTemplateDraft_ok identity name revision version actor reason db0 : catalog_ok db0 ->
  triple (fun db => db = db0) (PublishTemplateDraft identity name revision version actor reason)
    (fun e db => kept db0 db /\ exists i d replayed, e = Commit (inr replayed) /\ website_id identity = Some i /\
       latest_draft i name db0 = Some (revision, d) /\ publication_result (i, name, version) (td_definition d) replayed db0 db).
Proof.
  intros Hok. unfold PublishTemplateDraft, draftIdentity. destruct (reviewer_ok _ _); [|apply triple_raise].
  destruct (website_id identity) as [i|] eqn:Ei; [|apply triple_raise]. destruct (_ || _); [apply triple_raise|].
  eapply triple_bind; [apply lockDraftIdentity_ok|]. intros []. apply triple_pure. intros _.
  eapply triple_bind; [apply verifyDrafts_ok|]. intros [].
  step (fun rd db => db = db0 /\ latest_draft i name db0 = Some rd); [apply triple_query_row; by intros _ db a ->|].
  destruct a as [latest d]. apply triple_pure. intros Hl. destruct (Z.eqb_spec latest revision) as [->|]; [|apply triple_raise]. cbn [negb].
  pose proof (latest_draft_some _ _ _ _ _ Hl) as Hd. destruct (wo_drafts _ _ (Hok i) _ _ _ Hd) as (_ & _ & _ & t & Hst).
  pose proof (stored_template_inv _ _ _ _ _ Hst) as (Eh & Ev & En & Evv). rewrite Ev.
  destruct (String.eqb_spec (te_Version t) version) as [<-|]; [|apply triple_raise]. cbn [negb]. eapply triple_bind.
  - apply (publishTemplateTx_ok i t (td_definition d) actor reason _ t db0 Hok); [|by rewrite En, <- Eh, Evv|done].
    right. exists revision, d. rewrite En, Evv, <- Eh. done.
  - intros replayed. apply triple_return. intros db [Hk Hr]. split; [done|]. exists i, d, replayed. rewrite En in Hr. done.
Qed.

(** ** Runs *)

Inductive catalog_op : forall {A : Type}, M (TxEnd A) -> Prop :=
| op_publish identity raw actor reason : writable raw -> catalog_op (PublishTemplate identity raw actor reason)
| op_retire identity name version actor reason : catalog_op (RetireTemplate identity name version actor reason)
| op_save identity expected raw actor reason : writable raw -> catalog_op (SaveTemplateDraft identity expected raw actor reason)
| op_publish_draft identity name revision version actor reason : catalog_op (PublishTemplateDraft identity name revision version actor reason).

Inductive catalog_step : DB -> DB -> Prop :=
| step_op A (body : M (TxEnd A)) w db r db' : catalog_op body -> transact w body db = (r, db') -> catalog_step db db'
| step_other db db' : api_template_versions db' = api_template_versions db -> api_template_retirements db' = api_template_retirements db ->
    api_template_drafts db' = api_template_drafts db -> maintenance_audit db ⊆ maintenance_audit db' ->
    (forall i k, api_keys db !! i = Some k -> exists k', api_keys db' !! i = Some k' /\ k_prefix k' = k_prefix k) -> catalog_step db db'.

Lemma op_kept {A} (body : M (TxEnd A)) w db r db' : catalog_op body -> catalog_ok db -> transact w body db = (r, db') -> kept db db'.
Proof.
  intros Hop Hok Hrun. assert (Ht : triple (fun d => d = db) body (fun _ => kept db)).
  { destruct Hop; (eapply triple_conseq;
      [first [by apply PublishTemplate_ok|by apply RetireTemplate_ok|by apply SaveTemplateDraft_ok|by apply PublishTemplateDraft_ok]|done|];
      by intros e d [Hd _]). }
  destruct (transact_triple _ _ _ _ _ _ _ Ht eq_refl Hrun) as [->|(r' & Hk & _)]; [by split|done].
Qed.

Lemma step_kept db db' : catalog_step db db' -> catalog_ok db -> kept db db'.
Proof.
  intros [A body w d r d' Hop Hrun|d d' Hv Hr Hd Ha Hk] Hok; [by eapply op_kept|].
  assert (Hg : grows d d') by (split; [by rewrite Hv|by rewrite Hr|by rewrite Hd|done]). split; [by eapply ok_elsewhere|done].
Qed.

(** ** Startup *)

Lemma row_template db i n v row : catalog_ok db -> api_template_versions db !! (i, n, v) = Some row ->
  publication_valid db i n v row = true /\ exists t y, stored_template n v (tv_definition row) (tv_definition_sha256 row) = Some t /\
    te_Language t = tv_language row /\ te_ID t = n /\ te_Version t = v /\ prepare_one [] t = Some y.
Proof.
  intros Hok Hrow. destruct (wo_rows _ _ (Hok i) _ _ _ Hrow) as (Hp & t & Hst & Hl). split; [done|].
  apply stored_template_inv in Hst as Hinv. destruct Hinv as (_ & Hj & Hn & Hv). apply version_json_spec in Hj as (y & Hy). eauto 10.
Qed.

(** The template of a row *)
Definition template_of (kv : UUID * string * string * TemplateVersionRow) : option SendTemplate :=
  let '(_, n, v, row) := kv in stored_template n v (tv_definition row) (tv_definition_sha256 row).
Definition is_active (db : DB) (kv : UUID * string * string * TemplateVersionRow) : bool := is_null (api_template_retirements db !! fst kv).

(** A configured template is of the row's version. *)
Definition named_in (static : list SendTemplate) (kv : UUID * string * string * TemplateVersionRow) : bool :=
  let '(_, n, v, _) := kv in existsb (same_version n v) static.

Lemma version_among n v l : existsb (same_version n v) l = true <-> exists t, t ∈ l /\ te_ID t = n /\ te_Version t = v.
Proof.
  rewrite existsb_exists. unfold same_version. split.
  - intros (t & Ht & E). apply andb_true_iff in E as [E1 E2]. apply String.eqb_eq in E1, E2. exists t. split; [by apply list_elem_of_In|done].
  - intros (t & Ht & <- & <-). exists t. rewrite !String.eqb_refl. split; [by apply list_elem_of_In|done].
Qed.

(** What the loop over the rows gives: it stops at a configured template that
    was retired, and adds the active ones that are not configured. *)
Lemma load_loop_complete db i static rows : catalog_ok db ->
  (forall k row, (k, row) ∈ rows -> fst (fst k) = i /\ api_template_versions db !! k = Some row) -> NoDup (map fst rows) ->
  forall count total size added,
  (count + length rows <= 64)%nat -> total + octets rows <= 524288 -> size + octets (List.filter (is_active db) rows) <= 65536 ->
  (forall t, t ∈ added -> (i, te_ID t, te_Version t) ∉ map fst rows) ->
  load_loop count total size (static ++ added) (map (listed db i) rows)
  = if existsb (fun kv => negb (is_active db kv) && named_in static kv) rows then None
    else Some (static ++ added ++ omap template_of (List.filter (fun kv => is_active db kv && negb (named_in static kv)) rows),
               size + octets (List.filter (is_active db) rows)).
Proof.
  intros Hok. induction rows as [|[[[i' n] v] row] rows IH]; intros Hrows Hnd count total size added Hc Ht Hs Hdis.
  { simpl. rewrite app_nil_r. unfold octets. simpl. by rewrite Z.add_0_r. }
  destruct (Hrows (i', n, v) row ltac:(by left)) as [Ei Hrow]. simpl in Ei. subst i'.
  destruct (row_template _ _ _ _ _ Hok Hrow) as (Hp & t & y & Hst & Hl & Hn & Hv & _).
  assert (Hoct : octets ((i, n, v, row) :: rows) = Z.of_nat (String.length (tv_definition row)) + octets rows) by done.
  cbn [map length] in *. apply NoDup_cons in Hnd as [Hnew Hnd].
  assert (Hpos : 0 <= octets rows) by (apply sum_of_nonneg; intros; apply Nat2Z.is_nonneg).
  assert (Hno : existsb (same_version n v) (static ++ added) = existsb (same_version n v) static).
  { rewrite existsb_app. destruct (existsb (same_version n v) added) eqn:E; [|by rewrite orb_false_r].
    apply version_among in E as (x & Hx & <- & <-). exfalso. apply (Hdis x Hx). by left. }
  assert (Hrest : forall x, x ∈ added -> (i, te_ID x, te_Version x) ∉ map fst rows).
  { intros x Hx. specialize (Hdis x Hx). rewrite not_elem_of_cons in Hdis. tauto. }
  cbn [load_loop listed li_valid li_retirement li_name li_version li_row li_retired].
  destruct (Nat.ltb_spec 64 (S count)) as [|_]; [lia|]. rewrite Hp, Hst, Hl, String.eqb_refl. cbn [orb negb].
  assert (Hret : (match api_template_retirements db !! (i, n, v) with None => true | Some r => retirement_valid db i n v r end) = true).
  { destruct (api_template_retirements db !! (i, n, v)) as [r|] eqn:E; [|done]. by apply (wo_retired _ _ (Hok i) _ _ _ E). }
  rewrite Hret. cbn [negb]. destruct (Z.ltb_spec 524288 (total + Z.of_nat (String.length (tv_definition row)))) as [|_]; [lia|].
  assert (Ha : is_active db (i, n, v, row) = is_null (api_template_retirements db !! (i, n, v))) by done.
  assert (Hnm : named_in static (i, n, v, row) = existsb (same_version n v) static) by done.
  cbn [existsb List.filter] in Hs |- *. rewrite Ha in Hs. rewrite Ha, Hnm, Hn, Hv, Hno. clear Ha Hnm.
  destruct (api_template_retirements db !! (i, n, v)) as [r|] eqn:Er; cbn [not_null is_null negb andb orb] in *.
  - destruct (existsb (same_version n v) static); cbn [orb]; [done|].
    apply IH; [intros; apply Hrows; by right|done|lia|lia|done|done].
  - set (act := List.filter (is_active db) rows) in *.
    assert (Hact : octets ((i, n, v, row) :: act) = Z.of_nat (String.length (tv_definition row)) + octets act) by done. rewrite Hact in *.
    assert (Hapos : 0 <= octets act) by (apply sum_of_nonneg; intros; apply Nat2Z.is_nonneg).
    destruct (Z.ltb_spec 65536 (size + Z.of_nat (String.length (tv_definition row)))) as [|_]; [lia|].
    destruct (existsb (same_version n v) static) eqn:Es; cbn [negb].
    + rewrite IH; [|intros; apply Hrows; by right|done|lia|lia|unfold act in *; lia|done]. fold act. by rewrite Z.add_assoc.
    + rewrite <- app_assoc. rewrite IH; [|intros; apply Hrows; by right|done|lia|lia|unfold act in *; lia|].
      * fold act. set (fresh := List.filter _ rows). destruct (existsb _ rows); [done|].
        assert (Ho : omap template_of ((i, n, v, row) :: fresh) = t :: omap template_of fresh) by (cbn; by rewrite Hst).
        rewrite Ho. by rewrite <- app_assoc, Z.add_assoc.
      * intros x. rewrite elem_of_app, list_elem_of_singleton. intros [Hx| ->]; [by apply Hrest|by rewrite Hn, Hv].
Qed.

(** Templates that can be prepared alone can be prepared together. *)
Lemma prepare_one_seen seen t : template_key t ∉ seen -> prepare_one seen t = prepare_one [] t.
Proof. intros H. unfold prepare_one. by rewrite (seen_true _ _ H). Qed.

Lemma prepare_all_complete l : Forall (fun t => is_Some (prepare_one [] t)) l -> NoDup (map template_key l) ->
  forall seen, (forall t, t ∈ l -> template_key t ∉ seen) -> prepare_all seen l = Some (omap (prepare_one []) l).
Proof.
  intros Hall. induction Hall as [|t l [y Hy] Hall IH]; intros Hnd seen Hseen; [done|]. simpl in Hnd. apply NoDup_cons in Hnd as [Hk Hnd].
  cbn [prepare_all]. rewrite prepare_one_seen by (apply Hseen; by left). rewrite Hy. cbn [mbind option_bind]. rewrite IH; [|done|].
  - cbn. by rewrite Hy.
  - intros x Hx. rewrite not_elem_of_cons. split; [|apply Hseen; by right]. intros E. apply Hk. apply list_elem_of_fmap. by exists x.
Qed.

(** Different versions have different keys. *)
Lemma append_split (b d : string) : String.length b = String.length d -> forall a c : string, (a ++ b)%string = (c ++ d)%string -> a = c /\ b = d.
Proof.
  intros Hl. assert (Hshort : forall (x : ascii) (y a b' : string), String.length b' = String.length y -> b' <> String x (a ++ y)).
  { clear. intros x y a b' Hl E. apply (f_equal String.length) in E. simpl in E. rewrite length_append in E. lia. }
  induction a as [|x a IH]; intros [|y c] E; rewrite ?append_nil in E; [done| | |].
  - rewrite append_cons in E. by apply (Hshort (y) d c b Hl) in E.
  - rewrite append_cons in E. symmetry in E. by apply (Hshort x b a d (eq_sym Hl)) in E.
  - rewrite !append_cons in E. injection E as -> E. apply IH in E as [-> ->]. done.
Qed.

Lemma template_key_inj t t' : String.length (te_Version t) = String.length (te_Version t') ->
  template_key t = template_key t' -> te_ID t = te_ID t' /\ te_Version t = te_Version t'.
Proof.
  intros L E. unfold template_key in E. apply append_split in E as [E1 E2]; [|rewrite !length_append; congruence].
  split; [done|]. by injection E2.
Qed.

(** The rows of the website, in the order they are loaded *)
Definition loading (i : UUID) (db : DB) : list (UUID * string * string * TemplateVersionRow) :=
  List.filter (is_active db) (sort_by version_leb (versions_of i db)).

Lemma loading_perm i db : loading i db ≡ₚ active_of i db.
Proof.
  unfold loading, active_of, versions_of. rewrite (filter_perm _ _ _ (sort_by_perm version_leb _)). unfold select, is_active.
  induction (map_to_list (api_template_versions db)) as [|[k row] l IH]; [done|]. simpl.
  destruct (of_website i k row); simpl; [|done]. destruct (is_null _); [by constructor|done].
Qed.

Lemma listing_all i db : catalog_ok db -> listing i db = map (listed db i) (sort_by version_leb (versions_of i db)).
Proof.
  intros Hok. unfold listing. f_equal. unfold versions_of at 1.
  rewrite (select_same _ (of_website i)).
  - apply firstn_all2. rewrite sort_by_perm. pose proof (proj1 (wo_total _ _ (Hok i))) as H. unfold versions_of in H. lia.
  - intros [[i' n] v] row Hrow. unfold of_website. simpl. case_bool_decide as E; [|done]. subst i'. simpl.
    destruct (row_template _ _ _ _ _ Hok Hrow) as (Hp & _). unfold publication_valid, audit_of in Hp.
    by destruct (maintenance_audit db !! tv_audit_id row).
Qed.

(** The templates of the active rows can be prepared, each and together. *)
Lemma loading_row i db kv : kv ∈ loading i db <-> exists n v row, kv = (i, n, v, row) /\ api_template_versions db !! (i, n, v) = Some row /\
  api_template_retirements db !! (i, n, v) = None.
Proof.
  rewrite loading_perm. destruct kv as [[[i' n] v] row]. unfold active_of. rewrite elem_select, andb_true_iff. unfold of_website. simpl. split.
  - intros (H1 & H2 & H3). apply bool_decide_eq_true_1 in H2 as ->. exists n, v, row. split; [done|]. split; [done|].
    by destruct (api_template_retirements db !! (i, n, v)).
  - intros (n' & v' & row' & [= -> -> -> ->] & H1 & H2). rewrite H2. split; [done|]. split; [by apply bool_decide_eq_true_2|done].
Qed.

Lemma loading_keys i db : NoDup (map fst (loading i db)).
Proof.
  assert (Hp : map fst (loading i db) ≡ₚ map fst (active_of i db)) by (apply fmap_Permutation, loading_perm). rewrite Hp. apply select_nodup.
Qed.

Lemma length_omap {A B} (f : A -> option B) l : (length (omap f l) <= length l)%nat.
Proof. induction l as [|x l IH]; [done|]. cbn. destruct (f x); simpl; unfold omap in *; lia. Qed.

Lemma elem_templates i db t : t ∈ omap template_of (loading i db) <-> exists kv, kv ∈ loading i db /\ template_of kv = Some t.
Proof. apply list_elem_of_omap. Qed.

Lemma templates_distinct db i rows : catalog_ok db -> (forall kv, kv ∈ rows -> kv ∈ loading i db) -> NoDup (map fst rows) ->
  Forall (fun t => is_Some (prepare_one [] t)) (omap template_of rows) /\ NoDup (map template_key (omap template_of rows)).
Proof.
  intros Hok. induction rows as [|kv rows IH]; intros Hin Hnd; [by split; constructor|]. simpl in Hnd. apply NoDup_cons in Hnd as [Hk Hnd].
  destruct IH as [IH1 IH2]; [intros; apply Hin; by right|done|].
  destruct (proj1 (loading_row i db kv) (Hin kv ltac:(by left))) as (n & v & row & -> & Hrow & _).
  destruct (row_template _ _ _ _ _ Hok Hrow) as (_ & t & y & Hst & _ & Hn & Hv & Hy).
  assert (Ho : omap template_of ((i, n, v, row) :: rows) = t :: omap template_of rows) by (cbn; by rewrite Hst). rewrite Ho.
  split; [constructor; [by exists y|done]|]. simpl. apply NoDup_cons. split; [|done]. intros Hmem. apply list_elem_of_fmap in Hmem as (x & Ex & Hx).
  apply list_elem_of_omap in Hx as (kv & Hkv & Ekv).
  destruct (proj1 (loading_row i db kv) (Hin kv ltac:(by right))) as (n' & v' & row' & -> & Hrow' & _).
  destruct (row_template _ _ _ _ _ Hok Hrow') as (_ & t' & y' & Hst' & _ & Hn' & Hv' & Hy'). simpl in Ekv. rewrite Hst' in Ekv. injection Ekv as ->.
  apply template_key_inj in Ex as [E1 E2].
  - apply Hk. apply list_elem_of_fmap. exists (i, n', v', row'). split; [|done]. simpl. congruence.
  - rewrite (prepared_version _ _ Hy), (prepared_version _ _ Hy'), !version_length. done.
Qed.

(** Without rows the invariant holds. *)
Lemma catalog_empty db : api_template_versions db = ∅ -> api_template_retirements db = ∅ -> api_template_drafts db = ∅ -> catalog_ok db.
Proof.
  intros Ev Er Ed i. split; unfold versions_of, active_of, drafts_of; rewrite ?Ev, ?Er, ?Ed; unfold select; rewrite ?map_to_list_empty; simpl.
  - by intros [|].
  - intros n v row. by rewrite lookup_empty.
  - split; [lia|done].
  - split; [lia|done].
  - intros n v r. by rewrite lookup_empty.
  - intros n r d. by rewrite lookup_empty.
  - split; [lia|done].
Qed.

(** The published templates that startup adds to the configured ones *)
Definition published_only (i : UUID) (static : list SendTemplate) (db : DB) : list SendTemplate :=
  omap template_of (List.filter (fun kv => negb (named_in static kv)) (loading i db)).
(** A configured version that was published and then retired *)
Definition retired_static (i : UUID) (static : list SendTemplate) (db : DB) : bool :=
  existsb (fun t => not_null (api_template_versions db !! (i, te_ID t, te_Version t))
                    && not_null (api_template_retirements db !! (i, te_ID t, te_Version t))) static.

Lemma filter_both {A} (p q : A -> bool) l : List.filter (fun x => p x && q x) l = List.filter q (List.filter p l).
Proof. induction l as [|x l IH]; [done|]. simpl. destruct (p x); simpl; [|done]. destruct (q x); by rewrite IH. Qed.

Lemma retired_static_rows i static db :
  existsb (fun kv => negb (is_active db kv) && named_in static kv) (sort_by version_leb (versions_of i db)) = retired_static i static db.
Proof.
  apply eq_iff_eq_true. unfold retired_static. rewrite !existsb_exists. split.
  - intros ([[[i' n] v] row] & Hin & E). apply list_elem_of_In, elem_sort_by in Hin. unfold versions_of in Hin. apply elem_select in Hin as [Hrow Hi].
    unfold of_website in Hi. apply bool_decide_eq_true_1 in Hi. simpl in Hi. subst i'. apply andb_true_iff in E as [E1 E2].
    apply version_among in E2 as (t & Ht & <- & <-). exists t. split; [by apply list_elem_of_In|]. rewrite Hrow. cbn [not_null andb].
    unfold is_active in E1. simpl in E1. by destruct (api_template_retirements db !! _).
  - intros (t & Ht & E). apply andb_true_iff in E as [E1 E2]. destruct (api_template_versions db !! _) as [row|] eqn:Hrow; [|done].
    exists (i, te_ID t, te_Version t, row). split.
    + apply list_elem_of_In, elem_sort_by. unfold versions_of. apply elem_select. split; [done|]. unfold of_website. by apply bool_decide_eq_true_2.
    + unfold is_active. simpl. destruct (api_template_retirements db !! _); [|done]. cbn [is_null negb andb]. apply version_among.
      exists t. split; [by apply list_elem_of_In|done].
Qed.

Lemma published_row i static db t : t ∈ published_only i static db <-> exists n v row, api_template_versions db !! (i, n, v) = Some row /\
  api_template_retirements db !! (i, n, v) = None /\ (forall t1, t1 ∈ static -> ~ (te_ID t1 = n /\ te_Version t1 = v)) /\
  stored_template n v (tv_definition row) (tv_definition_sha256 row) = Some t.
Proof.
  unfold published_only. rewrite list_elem_of_omap. split.
  - intros (kv & Hkv & Et). apply list_elem_of_In, filter_In in Hkv as [Hkv Hn]. apply list_elem_of_In, loading_row in Hkv as (n & v & row & -> & H1 & H2).
    exists n, v, row. do 2 (split; [done|]). split; [|done]. intros t1 Ht1 [E1 E2]. apply negb_true_iff in Hn. simpl in Hn.
    apply not_true_iff_false in Hn. apply Hn, version_among. by exists t1.
  - intros (n & v & row & H1 & H2 & H3 & H4). exists (i, n, v, row). split; [|done]. apply list_elem_of_In, filter_In.
    split; [apply list_elem_of_In, loading_row; by exists n, v, row|]. simpl. apply negb_true_iff, not_true_iff_false. intros E.
    apply version_among in E as (t1 & Ht1 & E). by apply (H3 t1).
Qed.

Lemma filter_keys {A B} (p : A * B -> bool) l : NoDup (map fst l) -> NoDup (map fst (List.filter p l)).
Proof.
  induction l as [|x l IH]; [done|]. simpl. intros H. apply NoDup_cons in H as [Hk H]. destruct (p x); [|by apply IH]. simpl. apply NoDup_cons.
  split; [|by apply IH]. intros Hm. apply Hk. apply list_elem_of_fmap in Hm as (y & Ey & Hy). apply list_elem_of_In, filter_In in Hy as [Hy _].
  apply list_elem_of_fmap. exists y. split; [done|by apply list_elem_of_In].
Qed.

(** Configured and published templates have different keys. *)
Lemma merged_distinct db i static : catalog_ok db -> Forall (fun t => is_Some (prepare_one [] t)) static -> NoDup (map template_key static) ->
  Forall (fun t => is_Some (prepare_one [] t)) (static ++ published_only i static db) /\
  NoDup (map template_key (static ++ published_only i static db)) /\ (length (published_only i static db) <= 8)%nat.
Proof.
  intros Hok Hs Hd. set (rows := List.filter (fun kv => negb (named_in static kv)) (loading i db)).
  assert (Hin : forall kv, kv ∈ rows -> kv ∈ loading i db).
  { intros kv Hkv. apply list_elem_of_In, filter_In in Hkv as [Hkv _]. by apply list_elem_of_In. }
  pose proof (filter_keys (fun kv => negb (named_in static kv)) _ (loading_keys i db)) as Hnd. fold rows in Hnd.
  destruct (templates_distinct db i rows Hok Hin Hnd) as [Hp Hq]. fold (published_only i static db) in Hp, Hq. split; [by apply Forall_app|]. split.
  - rewrite map_app. apply NoDup_app. split; [done|]. split; [|done]. intros key H1 H2.
    apply list_elem_of_fmap in H1 as (t1 & -> & H1). apply list_elem_of_fmap in H2 as (t2 & E & H2).
    rewrite Forall_forall in Hs, Hp. destruct (Hs t1 H1) as [y1 Y1]. destruct (Hp t2 H2) as [y2 Y2].
    apply template_key_inj in E as [E1 E2]; [|by rewrite (prepared_version _ _ Y1), (prepared_version _ _ Y2), !version_length].
    apply published_row in H2 as (n & v & row & Hrow & _ & Hno & Hst). apply stored_template_inv in Hst as (_ & _ & <- & <-). by apply (Hno t1 H1).
  - etrans; [apply length_omap|]. etrans; [apply filter_length_le|]. rewrite loading_perm. apply (wo_active _ _ (Hok i)).
Qed.

(** C24. Startup loads what is configured and what is published and not
    retired.  In a catalogue that satisfies the invariant, for a key whose
    configured templates each prepare and have different versions: loading
    fails with the statement, or as a catalogue error exactly when a configured
    version was published and retired, or there are more than eight templates
    in all; otherwise it changes nothing, and the result is the prepared
    configured templates followed by those of the website's published versions
    that are not retired and not configured: each once, each equal to the
    stored definition, none missing and nothing else; the size reported is that
    of all active definitions.  A key without configured templates therefore
    always loads. *)
Theorem startup_templates db i static w k :
  catalog_ok db -> Forall (fun t => is_Some (prepare_one [] t)) static -> NoDup (map template_key static) ->
  let own := published_only i static db in
  let loaded := omap (prepare_one []) (static ++ own) in
  loadPublishedTemplates i static w (k, db) =
    (if w_fault w k then inl ErrSQL
     else if retired_static i static db || (8 <? length static + length own)%nat then inl ErrTemplateCatalog
     else inr (loaded, octets (active_of i db), (S k, db))) /\
  Forall prepared loaded /\ NoDup (map template_key loaded) /\ (length own <= 8)%nat /\
  (forall t, t ∈ own <-> exists n v row, api_template_versions db !! (i, n, v) = Some row /\
     api_template_retirements db !! (i, n, v) = None /\ (forall t1, t1 ∈ static -> ~ (te_ID t1 = n /\ te_Version t1 = v)) /\
     stored_template n v (tv_definition row) (tv_definition_sha256 row) = Some t) /\
  (forall t, t ∈ loaded <-> exists t0, (t0 ∈ static \/ t0 ∈ own) /\ prepare_one [] t0 = Some t).
Proof.
  intros Hok Hs Hd own loaded. destruct (merged_distinct db i static Hok Hs Hd) as (Hprep & Hdist & Hlen). fold own in Hprep, Hdist, Hlen.
  assert (Hall : prepare_all [] (static ++ own) = Some loaded) by (apply prepare_all_complete; [done|done|intros t _; apply not_elem_of_nil]).
  split; [|split; [|split; [|split; [done|split]]]].
  - unfold loadPublishedTemplates, query, stmt. unfold mbind at 1, M_bind at 1. destruct (w_fault w k); [done|].
    pose proof (load_loop_complete db i static (sort_by version_leb (versions_of i db)) Hok) as HL.
    rewrite (listing_all i db Hok). rewrite <- (app_nil_r static) at 1.
    rewrite HL; clear HL; [| | |rewrite sort_by_perm; apply (wo_total _ _ (Hok i))| | |].
    + rewrite retired_static_rows. destruct (retired_static i static db); cbn [orb]; [done|].
      assert (Hsz : 0 + octets (List.filter (is_active db) (sort_by version_leb (versions_of i db))) = octets (active_of i db)).
      { rewrite Z.add_0_l. unfold octets. apply sum_of_proper, loading_perm. }
      rewrite Hsz, filter_both. cbn [app lift]. fold (loading i db). fold (published_only i static db). fold own.
      unfold mbind at 1, M_bind at 1, mret at 1, M_ret at 1. unfold prepareTemplates. rewrite length_app.
      destruct (8 <? _)%nat; [done|]. by rewrite Hall.
    + intros [[i' n] v] row Hin. apply elem_sort_by in Hin. unfold versions_of in Hin. apply elem_select in Hin as [Hrow Hi].
      unfold of_website in Hi. by apply bool_decide_eq_true_1 in Hi.
    + assert (Hp : map fst (sort_by version_leb (versions_of i db)) ≡ₚ map fst (versions_of i db)) by (apply fmap_Permutation, sort_by_perm).
      rewrite Hp. apply select_nodup.
    + unfold octets. rewrite sort_by_perm. pose proof (proj2 (wo_total _ _ (Hok i))) as H. unfold octets in H. lia.
    + fold (loading i db). unfold octets. rewrite loading_perm. pose proof (proj2 (wo_active _ _ (Hok i))) as H. unfold octets in H. lia.
    + intros t Ht. by apply not_elem_of_nil in Ht.
  - by apply prepare_all_spec in Hall as (H & _).
  - by apply prepare_all_spec in Hall as (_ & H & _).
  - apply published_row.
  - intros t. unfold loaded. rewrite list_elem_of_omap. setoid_rewrite elem_of_app. done.
Qed.

(** C23. The catalogue of templates.  From a catalogue that satisfies the
    invariant, any sequence of publications, retirements, saved drafts and
    published drafts, by any callers and however their transactions end,
    interleaved with anything that leaves these tables alone, leads to one that
    satisfies it: every website has at most 64 versions of 512 KiB in all, of
    which at most 8 of 64 KiB are active; every row's definition still decodes
    to the template it names, under its hash, with its audit row, and for one
    that says so, the draft it came from; drafts are numbered from one without
    gaps.  No version, retirement, draft or audit row ever changes or goes. *)
Theorem catalog_invariant db db' : catalog_ok db -> rtc catalog_step db db' -> catalog_ok db' /\ grows db db'.
Proof.
  intros Hok Hrun. induction Hrun as [|d1 d2 d3 Hstep Hrun IH]; [by split|].
  destruct (step_kept _ _ Hstep Hok) as [Hok2 Hg]. destruct (IH Hok2) as [Hok3 Hg3]. split; [done|by etrans].
Qed.

End Spec.

(** ** A website publishes a template, and gives it up *)

#[local] Instance shop_html : HtmlTemplates := MkHtmlTemplates string Some (fun c _ => Some c).
Definition shop_content : SendTemplate := MkTemplate "welcome" "" "" "Hello {{name}}" "Dear {{name}}." "" ["name"]%string None.
Definition shop_version : string := Eval vm_compute in TemplateVersion shop_content.
Definition shop_template : SendTemplate := MkTemplate "welcome" "" shop_version "Hello {{name}}" "Dear {{name}}." "" ["name"]%string None.
#[local] Instance shop_lower : LowerCase := fun s => s.
#[local] Instance shop_tokens : Tokenizer := fun _ => MkDecoder (flatten (document shop_template)) true.
#[local] Instance shop_decoder : TemplateDecoder := fun _ => Some shop_template.
#[local] Instance shop_parser : UuidParser := fun s => if String.eqb s (uuid_text 50) then Some 50%N else None.
Definition shop_raw : list byte := bytes_of (marshal_template shop_template).

Definition shop_db : DB := demo_db <| api_keys := {[50%N := MkApiKey "rts_" "production" true 0 0 0 ""]} |>.
Definition shop_publish := transact (demo_world demo_day 5000) (PublishTemplate (uuid_text 50) shop_raw "ops" "first") shop_db.
Definition shop_retire := transact (demo_world (demo_day + Second) 6000)
  (RetireTemplate (uuid_text 50) "welcome" shop_version "ops" "done") (snd shop_publish).

Example shop_runs : fst shop_publish = inr false /\ fst shop_retire = inr false.
Proof. vm_compute. done. Qed.

Lemma shop_lower_ok : Forall (fun s => lower_case s = s) field_names.
Proof. by repeat constructor. Qed.

Lemma shop_encodes : encodes shop_template.
Proof. split; [reflexivity|vm_compute; reflexivity|reflexivity]. Qed.

Lemma shop_writable : writable shop_raw.
Proof.
  intros t Ht. assert (E : VersionTemplateJSON shop_raw = Some shop_template) by (vm_compute; reflexivity).
  rewrite E in Ht. injection Ht as <-. exact shop_encodes.
Qed.

Lemma shop_publish_run : transact (demo_world demo_day 5000) (PublishTemplate (uuid_text 50) shop_raw "ops" "first") shop_db
  = (fst shop_publish, snd shop_publish).
Proof. unfold shop_publish. apply surjective_pairing. Qed.

Lemma shop_retire_run : transact (demo_world (demo_day + Second) 6000) (RetireTemplate (uuid_text 50) "welcome" shop_version "ops" "done") (snd shop_publish)
  = (fst shop_retire, snd shop_retire).
Proof. unfold shop_retire. apply surjective_pairing. Qed.

Lemma shop_steps : rtc catalog_step shop_db (snd shop_retire).
Proof.
  apply (rtc_l _ shop_db (snd shop_publish)); [exact (step_op _ _ _ _ _ _ (op_publish _ _ _ _ shop_writable) shop_publish_run)|].
  apply rtc_once. exact (step_op _ _ _ _ _ _ (op_retire _ _ _ _ _) shop_retire_run).
Qed.

Lemma shop_published : catalog_ok (snd shop_publish).
Proof.
  exact (proj1 (op_kept shop_lower_ok _ _ _ _ _ (op_publish _ _ _ _ shop_writable) (catalog_empty shop_db eq_refl eq_refl eq_refl) shop_publish_run)).
Qed.

Lemma catalog_invariant_witness : catalog_ok (snd shop_retire) /\ grows shop_db (snd shop_retire).
Proof. exact (catalog_invariant shop_lower_ok shop_db (snd shop_retire) (catalog_empty shop_db eq_refl eq_refl eq_refl) shop_steps). Defined.

(** With a configured template beside the published one; and a configured one that was retired *)
Definition shop_bye_version : string := Eval vm_compute in TemplateVersion (MkTemplate "farewell" "" "" "Bye" "Bye." "" [] None).
Definition shop_bye : SendTemplate := MkTemplate "farewell" "" shop_bye_version "Bye" "Bye." "" [] None.

Lemma shop_bye_ready : Forall (fun t => is_Some (prepare_one [] t)) [shop_bye] /\ NoDup (map template_key [shop_bye]).
Proof. split; [constructor; [vm_compute; by eexists|constructor]|]. apply NoDup_singleton. Qed.

Lemma shop_template_ready : Forall (fun t => is_Some (prepare_one [] t)) [shop_template] /\ NoDup (map template_key [shop_template]).
Proof. split; [constructor; [vm_compute; by eexists|constructor]|]. apply NoDup_singleton. Qed.

Lemma shop_retired : catalog_ok (snd shop_retire).
Proof. exact (proj1 (op_kept shop_lower_ok _ _ _ _ _ (op_retire _ _ _ _ _) shop_published shop_retire_run)). Qed.

Lemma startup_templates_witness :
  (exists loaded, loadPublishedTemplates 50 [shop_bye] (demo_world demo_day 7000) (0%nat, snd shop_publish)
                  = inr (loaded, octets (active_of 50 (snd shop_publish)), (1%nat, snd shop_publish)) /\ length loaded = 2%nat) /\
  loadPublishedTemplates 50 [shop_template] (demo_world demo_day 7000) (0%nat, snd shop_retire) = inl ErrTemplateCatalog.
Proof.
  split.
  - destruct (startup_templates (snd shop_publish) 50 [shop_bye] (demo_world demo_day 7000) 0 shop_published (proj1 shop_bye_ready) (proj2 shop_bye_ready)) as [H _].
    assert (Hc : retired_static 50 [shop_bye] (snd shop_publish) || (8 <? length [shop_bye] + length (published_only 50 [shop_bye] (snd shop_publish)))%nat = false)
      by (vm_compute; reflexivity).
    rewrite Hc in H. eexists. split; [exact H|]. vm_compute. reflexivity.
  - destruct (startup_templates (snd shop_retire) 50 [shop_template] (demo_world demo_day 7000) 0 shop_retired (proj1 shop_template_ready) (proj2 shop_template_ready))
      as [H _].
    assert (Hc : retired_static 50 [shop_template] (snd shop_retire) || (8 <? length [shop_template] + length (published_only 50 [shop_template] (snd shop_retire)))%nat = true)
      by (vm_compute; reflexivity).
    rewrite Hc in H. exact H.
Defined.

End CatalogSpec.
