(* ===== verification/SendKeys.v ===== *)
(** * Keys of websites: [internal/api/send.go], startup

    [ParseSendKeys] reads the keys of the configuration; [NewSendHandler]
    writes them to the database in one transaction before anything is served.
    Decoding into the structs, with unknown fields refused, is
    [encoding/json]'s, an argument. *)

From S2P Require Import Prelude Sha256 GoText TextFacts JsonText Delivery SmtpClient Provider Database Retention Suppression Message MessageRules Auth Admission AesGcm Credentials Fingerprint Queue QueueOps MessageOps JsonTokens JsonMessage Templates Demo Catalog CatalogSpec.

Module SendKeys.

Import JsonTokens JsonMessage Templates Message Catalog CatalogSpec.

Section Keys.
  Context {html : HtmlTemplates}.

Record SendKey := MkSendKey {
  sk_UsePublishedTemplates : bool; sk_Templates : list SendTemplate; sk_Environment : string; sk_Streams : list StreamPolicy;
  sk_Budget : SubmissionBudget; sk_ID : string; sk_Token : string; sk_AllowedFrom : list string }.
#[global] Instance eta_SendKey : Eta SendKey := fun k =>
  MkSendKey (sk_UsePublishedTemplates k) (sk_Templates k) (sk_Environment k) (sk_Streams k) (sk_Budget k) (sk_ID k) (sk_Token k) (sk_AllowedFrom k).

Class KeysDecoder := decode_keys : list byte -> option (list SendKey).

Context {tokenizer : Tokenizer} {lower : LowerCase} {decoder : TemplateDecoder} {keys : KeysDecoder} {parser : UuidParser} {addresses : MailParser}.

(** ** [ParseSendKeys] *)

Definition bearer_token (s : string) : bool :=
  (String.length s =? 68)%nat && HasPrefix s "rts_"
  && match DecodeString (drop 4 s) with
     | Some b => (length b =? 32)%nat && String.eqb (EncodeToString b) (drop 4 s)
     | None => false
     end.

(** Canonical and different *)
Fixpoint distinct_addresses (seen : list string) (l : list string) : option (list string) :=
  match l with
  | [] => Some []
  | a :: rest =>
      c ← Auth.CanonicalAddress a;
      if existsb (String.eqb c) seen then None else rest ← distinct_addresses (c :: seen) rest; Some (c :: rest)
  end.

Definition prepare_key (ids tokens : list string) (k : SendKey) : option SendKey :=
  let environment := if String.eqb (sk_Environment k) "" then "production"%string else sk_Environment k in
  if negb (one_of environment ["production"; "sandbox"]%string) then None
  else
    templates ← prepareTemplates (sk_Templates k);
    streams ← CanonicalStreams (sk_Streams k);
    if negb (budget_valid (sk_Budget k)) then None
    else
      _ ← website_id (sk_ID k);
      if existsb (String.eqb (sk_ID k)) ids || existsb (String.eqb (sk_Token k)) tokens || negb (bearer_token (sk_Token k))
         || (length (sk_AllowedFrom k) =? 0)%nat || (32 <? length (sk_AllowedFrom k))%nat
      then None
      else
        allowed ← distinct_addresses [] (sk_AllowedFrom k);
        Some (k <| sk_Environment := environment |> <| sk_Templates := templates |> <| sk_Streams := streams |> <| sk_AllowedFrom := allowed |>).

Fixpoint prepare_keys (ids tokens : list string) (l : list SendKey) : option (list SendKey) :=
  match l with
  | [] => Some []
  | k :: rest => k' ← prepare_key ids tokens k; rest' ← prepare_keys (sk_ID k :: ids) (sk_Token k :: tokens) rest; Some (k' :: rest')
  end.

Definition ParseSendKeys (raw : string) : option (list SendKey) :=
  if String.eqb (TrimSpace raw) "" then Some []
  else if 65536 <? Z.of_nat (String.length raw) then None
  else if negb (uniqueJSON (NewDecoder (bytes_of raw))) then None
  else
    l ← decode_keys (bytes_of raw);
    if (length l =? 0)%nat || (32 <? length l)%nat then None else prepare_keys [] [] l.

(** ** [sendIdentity] *)

Record limiter := MkLimiter { lm_tokens : Admission.float64; lm_updated : Time; lm_active : Z }.

(** [acquire] and [release]; each holds the mutex. *)
Definition acquire (now : Time) (p : limiter) : bool * limiter :=
  let tokens := Admission.fadd (lm_tokens p) (Admission.Seconds (now - lm_updated p)) in
  let tokens := if Admission.flt (Admission.of_int 10) tokens then Admission.of_int 10 else tokens in
  if (2 <=? lm_active p) || Admission.flt tokens (Admission.of_int 1) then (false, MkLimiter tokens now (lm_active p))
  else (true, MkLimiter (Admission.fsub tokens (Admission.of_int 1)) now (lm_active p + 1)).
Definition release (p : limiter) : limiter := MkLimiter (lm_tokens p) (lm_updated p) (lm_active p - 1).
Definition new_limiter (now : Time) : limiter := MkLimiter (Admission.of_int 10) now 0.

(** The key without its token, the digest of the token *)
Record sendIdentity := MkIdentity { id_key : SendKey; id_digest : list byte; id_limiter : limiter }.

(** ** The transaction of [NewSendHandler]

    It is reached with at least one key and a receiver that has a store, a
    database and a limit between 1 byte and 100 MiB; without keys the handler
    is not mounted. *)

Definition key_digest (k : SendKey) : list byte := Sha.Sum256 (bytes_of (sk_Token k)).
Definition key_row (k : SendKey) : ApiKey :=
  MkApiKey "rts_" (sk_Environment k) true (sb_Minute (sk_Budget k)) (sb_Hour (sk_Budget k)) (sb_Day (sk_Budget k)) (EncodeToString (key_digest k)).

(** [INSERT INTO api_keys ... ON CONFLICT(id) DO UPDATE ... WHERE ...].  The
    hash is unique; a new key gets its normal stream from a trigger. *)
Definition upsert_key (id : UUID) (k : SendKey) (db : DB) : option DB :=
  let row := key_row k in
  match api_keys db !! id with
  | Some old =>
      if String.eqb (k_prefix old) "rts_" && String.eqb (k_environment old) (sk_Environment k) then
        if exists_row (fun j r => negb (bool_decide (j = id)) && String.eqb (k_key_hash r) (k_key_hash row)) (api_keys db) then None
        else Some (db <| api_keys := <[id := MkApiKey (k_prefix old) (k_environment old) true (k_minute_limit row) (k_hour_limit row)
                                            (k_day_limit row) (k_key_hash row)]> (api_keys db) |>)
      else Some db
  | None =>
      if exists_row (fun _ r => String.eqb (k_key_hash r) (k_key_hash row)) (api_keys db) then None
      else
        streams ← insert_row (id, "normal"%string) (MkStreamRow true 1 0 0 0) (api_message_streams db);
        Some (db <| api_keys := <[id := row]> (api_keys db) |> <| api_message_streams := streams |>)
  end.

Definition stream_row (p : StreamPolicy) : StreamRow :=
  MkStreamRow true (sp_Weight p) (sb_Minute (sp_Budget p)) (sb_Hour (sp_Budget p)) (sb_Day (sp_Budget p)).
Definition disabled (r : StreamRow) : StreamRow :=
  MkStreamRow false (sm_weight r) (sm_minute_limit r) (sm_hour_limit r) (sm_day_limit r).

Definition budget_json (b : SubmissionBudget) : json :=
  JObj [("minute", JNum (sb_Minute b)); ("hour", JNum (sb_Hour b)); ("day", JNum (sb_Day b))]%string.
Definition stream_json (p : StreamPolicy) : json :=
  JObj [("name", JStr (sp_Name p)); ("weight", JNum (sp_Weight p)); ("budget", budget_json (sp_Budget p))]%string.
Definition configured_json (k : SendKey) : list (string * json) :=
  [("id", JStr (sk_ID k)); ("allowed_from", JArr (map JStr (sk_AllowedFrom k))); ("budget", budget_json (sk_Budget k));
   ("streams", JArr (map stream_json (sk_Streams k))); ("environment", JStr (sk_Environment k)); ("templates", templateVersions (sk_Templates k))]%string.

(** One key; the bytes of published templates so far *)
Definition synchronize_key (id : UUID) (k : SendKey) (published : Z) : M (sendIdentity * Z) :=
  failing (ErrText "send API identity synchronization failed") (stmt (fun _ db => db ← upsert_key id k db; Some (tt, db)));;
  row ← failing (ErrText "send API identity conflicts with an existing key")
          (query_row (fun _ db => r ← api_keys db !! id; if String.eqb (k_prefix r) "rts_" && k_enabled r then Some r else None));
  guard (ErrText "send API identity conflicts with an existing key")
    (String.eqb (k_key_hash row) (EncodeToString (key_digest k)) && String.eqb (k_environment row) (sk_Environment k));;
  '(templates, n) ← (if sk_UsePublishedTemplates k
                     then failing (ErrText "published template catalog unavailable or invalid") (loadPublishedTemplates id (sk_Templates k))
                     else mret (sk_Templates k, 0));
  guard (ErrText "published template catalog exceeds startup limit") (published + n <=? 65536);;
  let k := k <| sk_Templates := templates |> in
  exec (fun _ db => db <| api_message_streams :=
    update (fun key _ => bool_decide (fst key = id) && negb (String.eqb (snd key) "normal")) disabled (api_message_streams db) |>);;
  forM (sk_Streams k) (fun p =>
    exec (fun _ db => db <| api_message_streams := <[(id, sp_Name p) := stream_row p]> (api_message_streams db) |>));;
  failing (ErrText "send API configuration audit failed") (audit_row "API_SEND_CONFIGURED" "startup_config" (configured_json k));;
  now ← gotime;
  mret (MkIdentity (k <| sk_Token := EmptyString |>) (key_digest k) (new_limiter now), published + n).

Fixpoint synchronize (published : Z) (l : list SendKey) : M (list sendIdentity) :=
  match l with
  | [] => mret []
  | k :: rest =>
      match website_id (sk_ID k) with
      | None => raise ErrSQL
      | Some id => '(p, published) ← synchronize_key id k published; people ← synchronize published rest; mret (p :: people)
      end
  end.

Definition NewSendHandler (l : list SendKey) : M (TxEnd (list sendIdentity)) :=
  people ← synchronize 0 l; mret (Commit (inr people)).

(** ** What the configuration leaves in the database *)

(** The streams of the key are those of its policies; others are disabled. *)
Definition streams_match (id : UUID) (k : SendKey) (db : DB) : Prop :=
  (forall p, p ∈ sk_Streams k -> api_message_streams db !! (id, sp_Name p) = Some (stream_row p)) /\
  (forall n r, n ∉ map sp_Name (sk_Streams k) -> n <> "normal"%string -> api_message_streams db !! (id, n) = Some r -> sm_enabled r = false).

Definition others_kept (id : UUID) (db0 db : DB) : Prop :=
  (forall j, j <> id -> api_keys db !! j = api_keys db0 !! j) /\
  (forall key, fst key <> id -> api_message_streams db !! key = api_message_streams db0 !! key).

Definition hash_unused (id : UUID) (k : SendKey) (db : DB) : Prop :=
  forall j r, api_keys db !! j = Some r -> j <> id -> k_key_hash r <> EncodeToString (key_digest k).

Lemma upsert_key_spec id k db db' row : upsert_key id k db = Some db' -> api_keys db' !! id = Some row ->
  String.eqb (k_prefix row) "rts_" && k_enabled row = true ->
  String.eqb (k_key_hash row) (EncodeToString (key_digest k)) && String.eqb (k_environment row) (sk_Environment k) = true ->
  row = key_row k /\ others_kept id db db' /\ hash_unused id k db.
Proof.
  unfold upsert_key. rewrite !andb_true_iff, !String.eqb_eq. intros H Hrow [Hp He] [Hh Henv]. destruct (api_keys db !! id) as [old|] eqn:Eold.
  - destruct (String.eqb_spec (k_prefix old) "rts_") as [Ep|Ep], (String.eqb_spec (k_environment old) (sk_Environment k)) as [Ee|Ee]; cbn [andb] in H;
      try (injection H as <-; congruence).
    destruct (exists_row _ _) eqn:Eu; [done|]. injection H as <-. simpl in Hrow. rewrite lookup_insert_eq in Hrow. injection Hrow as <-.
    split; [|split; [split|]].
    + unfold key_row. by rewrite Ep, Ee.
    + intros j Hj. simpl. by rewrite lookup_insert_ne.
    + done.
    + intros j r Hj Hne E. apply (exists_row_false _ _ j r) in Eu; [|done]. cbv beta in Eu. rewrite bool_decide_eq_false_2 in Eu by done. cbn [negb andb] in Eu.
      by rewrite E, String.eqb_refl in Eu.
  - destruct (exists_row _ _) eqn:Eu; [done|]. destruct (insert_row _ _ _) as [streams|] eqn:Es; [|done]. cbn [mbind option_bind] in H.
    injection H as <-. simpl in Hrow. rewrite lookup_insert_eq in Hrow. injection Hrow as <-. apply insert_row_some in Es as [_ ->].
    split; [done|]. split; [split|].
    + intros j Hj. simpl. by rewrite lookup_insert_ne.
    + intros [j n] Hj. simpl in *. rewrite lookup_insert_ne; [done|]. congruence.
    + intros j r Hj Hne E. apply (exists_row_false _ _ j r) in Eu; [|done]. simpl in Eu. by rewrite E, String.eqb_refl in Eu.
Qed.

Lemma synchronize_streams id (l : list StreamPolicy) db0 : NoDup (map sp_Name l) ->
  triple (fun db => db = db0) (forM l (fun p => exec (fun _ db => db <| api_message_streams := <[(id, sp_Name p) := stream_row p]> (api_message_streams db) |>)))
    (fun _ db => api_keys db = api_keys db0 /\ maintenance_audit db = maintenance_audit db0 /\ messages db = messages db0 /\
       (forall p, p ∈ l -> api_message_streams db !! (id, sp_Name p) = Some (stream_row p)) /\
       (forall key, (forall p, p ∈ l -> key <> (id, sp_Name p)) -> api_message_streams db !! key = api_message_streams db0 !! key)).
Proof.
  revert db0. induction l as [|p l IH]; intros db0 Hnd; cbn [forM].
  - apply triple_return. intros db ->. split; [done|]. split; [done|]. split; [done|]. split; [|done]. intros p Hp. by apply not_elem_of_nil in Hp.
  - simpl in Hnd. apply NoDup_cons in Hnd as [Hp Hnd].
    step (fun (_ : unit) db => db = db0 <| api_message_streams := <[(id, sp_Name p) := stream_row p]> (api_message_streams db0) |>);
      [apply triple_exec; by intros t db ->|].
    eapply triple_conseq; [apply (IH (db0 <| api_message_streams := <[(id, sp_Name p) := stream_row p]> (api_message_streams db0) |>) Hnd)|done|]. intros [] db (K1 & K2 & K3 & K4 & K5). simpl in *. do 3 (split; [done|]). split.
    + intros q [->|Hq]%elem_of_cons; [|auto]. rewrite K5; [by rewrite lookup_insert_eq|]. intros r Hr E. injection E as E.
      apply Hp. apply list_elem_of_fmap. by exists r.
    + intros key Hkey. rewrite K5 by (intros q Hq; apply Hkey; by right). rewrite lookup_insert_ne; [done|]. intros E. apply (Hkey p); [by left|done].
Qed.

Lemma loadPublishedTemplates_reads id templates db0 : triple (fun db => db = db0) (loadPublishedTemplates id templates) (fun _ db => db = db0).
Proof.
  unfold loadPublishedTemplates. step (fun (_ : list Listed) db => db = db0); [apply triple_query; by intros t db ->|].
  eapply triple_bind; [apply triple_lift_|]. intros [ts n]. eapply triple_bind; [apply triple_lift_|]. intros ts'. by apply triple_return.
Qed.

(** One key is written, the others are not. *)
Definition synchronized (id : UUID) (k : SendKey) (p : sendIdentity) (db0 db : DB) : Prop :=
  api_keys db !! id = Some (key_row k) /\ streams_match id k db /\ others_kept id db0 db /\ hash_unused id k db0 /\
  id_digest p = key_digest k /\ id_key p = k <| sk_Templates := sk_Templates (id_key p) |> <| sk_Token := EmptyString |>.

Lemma synchronize_key_ok id k published db0 : NoDup (map sp_Name (sk_Streams k)) ->
  triple (fun db => db = db0) (synchronize_key id k published) (fun pn db => synchronized id k (fst pn) db0 db).
Proof.
  intros Hnd. unfold synchronize_key.
  step (fun (_ : unit) db => upsert_key id k db0 = Some db).
  { apply triple_failing, triple_stmt. intros t db [] db' -> H. destruct (upsert_key id k db0) as [d|]; [|done]. by injection H as ->. }
  apply triple_from. intros db1 Hup.
  step (fun row db => db = db1 /\ api_keys db1 !! id = Some row /\ String.eqb (k_prefix row) "rts_" && k_enabled row = true).
  { apply triple_failing, triple_query_row. intros t db row -> H. split; [done|]. destruct (api_keys db1 !! id) as [r|]; [|done]. cbn [mbind option_bind] in H.
    destruct (_ && _) eqn:E; [|done]. by injection H as <-. }
  apply triple_pure. intros [Hrow Hp]. eapply triple_bind; [apply triple_guard|]. intros []. apply triple_pure. intros Hh.
  destruct (upsert_key_spec id k db0 db1 a0 Hup Hrow Hp Hh) as (-> & [Hk1 Hk2] & Hun). clear Hup Hp Hh.
  step (fun (_ : list SendTemplate * Z) db => db = db1).
  { destruct (sk_UsePublishedTemplates k); [apply triple_failing, loadPublishedTemplates_reads|by apply triple_return]. }
  match goal with x : list SendTemplate * Z |- _ => destruct x as [templates n] end. eapply triple_bind; [apply triple_guard_|]. intros []. cbv zeta.
  change (sk_Streams (k <| sk_Templates := templates |>)) with (sk_Streams k).
  step (fun (_ : unit) db => db = db1 <| api_message_streams :=
    update (fun key _ => bool_decide (fst key = id) && negb (String.eqb (snd key) "normal")) disabled (api_message_streams db1) |>);
    [apply triple_exec; by intros t db ->|].
  eapply triple_bind; [by apply synchronize_streams|]. intros [].
  apply triple_from. intros db2 (K1 & _ & _ & K4 & K5). simpl in K1, K5.
  eapply triple_bind; [apply triple_failing, triple_audit_row|]. intros aid. apply triple_from. intros db3 [_ ->].
  step (fun (_ : Time) db => db = with_audit aid (MkAudit "API_SEND_CONFIGURED" "startup_config"
    (JObj (configured_json (k <| sk_Templates := templates |>)))) db2); [apply triple_gotime|].
  apply triple_return. intros db ->. unfold synchronized. cbn [fst id_digest id_key]. change (api_keys (with_audit _ _ db2)) with (api_keys db2).
  split; [by rewrite K1|]. split; [split|split; [split|split; [done|done]]].
  - exact K4.
  - intros m r Hm Hne Hr. change (api_message_streams db2 !! (id, m) = Some r) in Hr. rewrite K5 in Hr.
    + rewrite lookup_update in Hr. simpl in Hr. rewrite bool_decide_eq_true_2 in Hr by done.
      destruct (String.eqb_spec m "normal") as [->|]; [done|]. cbn [negb andb] in Hr. destruct (api_message_streams db1 !! (id, m)); [|done]. by injection Hr as <-.
    + intros q Hq E. injection E as ->. apply Hm. apply list_elem_of_fmap. by exists q.
  - intros j Hj. rewrite <- Hk1 by done. change (api_keys db2 !! j = api_keys db1 !! j). by rewrite K1.
  - intros [j m] Hj. rewrite <- Hk2 by done. change (api_message_streams db2 !! (j, m) = api_message_streams db1 !! (j, m)). simpl in Hj. rewrite K5.
    + rewrite lookup_update. simpl. rewrite bool_decide_eq_false_2 by done. simpl. by destruct (api_message_streams db1 !! (j, m)).
    + intros q Hq E. injection E as E _. done.
Qed.

(** *** All keys *)

Lemma website_id_text s u : website_id s = Some u -> uuid_text u = s.
Proof.
  unfold website_id. destruct (ParseUUID s) as [x|]; [|done]. destruct (negb (x =? 0)%N && String.eqb (uuid_text x) s) eqn:E; [|done].
  intros [= <-]. apply andb_true_iff in E as [_ E]. by apply String.eqb_eq.
Qed.

(** What is known of a key of the configuration *)
Record key_ok (k : SendKey) : Prop := {
  ko_id : is_Some (website_id (sk_ID k));
  ko_token : bearer_token (sk_Token k) = true;
  ko_environment : sk_Environment k = "production"%string \/ sk_Environment k = "sandbox"%string;
  ko_streams : NoDup (map sp_Name (sk_Streams k)) /\ "normal"%string ∈ map sp_Name (sk_Streams k);
  ko_templates : exists raw, prepareTemplates raw = Some (sk_Templates k);
  ko_senders : sk_AllowedFrom k <> [] /\ NoDup (sk_AllowedFrom k) /\ Forall (fun a => exists raw, Auth.CanonicalAddress raw = Some a) (sk_AllowedFrom k) }.

Lemma distinct_addresses_spec l : forall seen l', distinct_addresses seen l = Some l' ->
  length l' = length l /\ NoDup l' /\ (forall a, a ∈ l' -> a ∉ seen) /\ Forall2 (fun raw a => Auth.CanonicalAddress raw = Some a) l l'.
Proof.
  induction l as [|a l IH]; intros seen l'; cbn [distinct_addresses].
  - intros [= <-]. split; [done|]. split; [constructor|]. split; [|constructor]. intros a Ha. by apply not_elem_of_nil in Ha.
  - destruct (Auth.CanonicalAddress a) as [c|] eqn:Ec; [|done]. cbn [mbind option_bind]. destruct (existsb _ seen) eqn:Es; [done|].
    destruct (distinct_addresses (c :: seen) l) as [rest|] eqn:Er; [|done]. cbn [mbind option_bind]. intros [= <-].
    apply IH in Er as (H1 & H2 & H3 & H4). apply seen_false in Es. split; [simpl; congruence|]. split; [|split].
    + constructor; [|done]. intros Hin. specialize (H3 c Hin). rewrite not_elem_of_cons in H3. tauto.
    + intros x [->|Hx]%elem_of_cons; [done|]. specialize (H3 x Hx). rewrite not_elem_of_cons in H3. tauto.
    + by constructor.
Qed.

Lemma prepare_key_spec ids tokens k k' : prepare_key ids tokens k = Some k' ->
  key_ok k' /\ sk_ID k' = sk_ID k /\ sk_Token k' = sk_Token k /\ sk_ID k ∉ ids /\ sk_Token k ∉ tokens.
Proof.
  unfold prepare_key. set (env := if String.eqb (sk_Environment k) "" then _ else _).
  destruct (one_of env _) eqn:Ee; [|done]. cbn [negb]. apply one_of_true in Ee.
  destruct (prepareTemplates (sk_Templates k)) as [ts|] eqn:Et; [|done]. cbn [mbind option_bind].
  destruct (CanonicalStreams (sk_Streams k)) as [ss|] eqn:Es; [|done]. cbn [mbind option_bind].
  destruct (negb (budget_valid _)); [done|]. destruct (website_id (sk_ID k)) as [id|] eqn:Ei; [|done]. cbn [mbind option_bind].
  destruct (_ || (32 <? length (sk_AllowedFrom k))%nat) eqn:E; [done|].
  destruct (distinct_addresses [] (sk_AllowedFrom k)) as [allowed|] eqn:Ea; [|done]. cbn [mbind option_bind]. intros [= <-].
  rewrite !orb_false_iff, negb_false_iff in E. destruct E as ((((E1 & E2) & E3) & E4) & _). apply seen_false in E1, E2.
  split; [|done]. pose proof (Forms.CanonicalStreams_spec (sk_Streams k)) as Hs. rewrite Es in Hs. destruct Hs as (_ & [_ Hnd] & Hn & _).
  apply distinct_addresses_spec in Ea as (A1 & A2 & _ & A4). split.
  - by exists id.
  - done.
  - simpl. rewrite !elem_of_cons, elem_of_nil in Ee. tauto.
  - done.
  - by exists (sk_Templates k).
  - simpl. split; [intros ->; by rewrite <- A1 in E4|]. split; [done|]. clear -A4. induction A4; constructor; eauto.
Qed.

Lemma prepare_keys_spec l : forall ids tokens l', prepare_keys ids tokens l = Some l' ->
  Forall key_ok l' /\ NoDup (map sk_ID l') /\ NoDup (map sk_Token l') /\ (forall k, k ∈ l' -> sk_ID k ∉ ids /\ sk_Token k ∉ tokens).
Proof.
  induction l as [|k l IH]; intros ids tokens l'; cbn [prepare_keys].
  - intros [= <-]. split; [constructor|]. split; [constructor|]. split; [constructor|]. intros k Hk. by apply not_elem_of_nil in Hk.
  - destruct (prepare_key ids tokens k) as [k'|] eqn:E; [|done]. cbn [mbind option_bind].
    destruct (prepare_keys _ _ l) as [rest|] eqn:Er; [|done]. simpl. intros [= <-].
    apply prepare_key_spec in E as (Hk & E1 & E2 & E3 & E4). apply IH in Er as (H1 & H2 & H3 & H4).
    split; [by constructor|]. simpl. rewrite E1, E2. split; [|split].
    + apply NoDup_cons. split; [|done]. intros Hin. apply list_elem_of_fmap in Hin as (x & Ex & Hx). destruct (H4 x Hx) as [H5 _].
      rewrite <- Ex in H5. apply H5. by left.
    + apply NoDup_cons. split; [|done]. intros Hin. apply list_elem_of_fmap in Hin as (x & Ex & Hx). destruct (H4 x Hx) as [_ H5].
      rewrite <- Ex in H5. apply H5. by left.
    + intros x [->|Hx]%elem_of_cons; [by rewrite E1, E2|]. destruct (H4 x Hx) as [H5 H6]. rewrite not_elem_of_cons in H5, H6. tauto.
Qed.

(** An identity as configured: its row and streams in the database *)
Definition in_force (k : SendKey) (p : sendIdentity) (db : DB) : Prop :=
  id_digest p = key_digest k /\ id_key p = k <| sk_Templates := sk_Templates (id_key p) |> <| sk_Token := EmptyString |> /\
  exists id, website_id (sk_ID k) = Some id /\ api_keys db !! id = Some (key_row k) /\ streams_match id k db.

Lemma in_force_kept id k p db db' : in_force k p db -> others_kept id db db' -> website_id (sk_ID k) <> Some id -> in_force k p db'.
Proof.
  intros (H1 & H2 & j & Hj & Hr & S1 & S2) [O1 O2] Hne. split; [done|]. split; [done|]. assert (Hji : j <> id) by congruence.
  exists j. split; [done|]. rewrite O1 by done. split; [done|]. split.
  - intros q Hq. rewrite O2 by done. auto.
  - intros n r Hn Hnn. rewrite O2 by done. eauto.
Qed.

Lemma synchronize_ok l : Forall key_ok l -> NoDup (map sk_ID l) -> forall published done_ db0,
  Forall (fun kp => in_force (fst kp) (snd kp) db0) done_ -> NoDup (map (fun kp => id_digest (snd kp)) done_) ->
  (forall kp, kp ∈ done_ -> sk_ID (fst kp) ∉ map sk_ID l) ->
  triple (fun db => db = db0) (synchronize published l)
    (fun people db => Forall (fun kp => in_force (fst kp) (snd kp) db) (done_ ++ combine l people) /\
       NoDup (map (fun kp => id_digest (snd kp)) (done_ ++ combine l people)) /\ length people = length l /\
       (forall j, uuid_text j ∉ map sk_ID l -> api_keys db !! j = api_keys db0 !! j /\
          forall n, api_message_streams db !! (j, n) = api_message_streams db0 !! (j, n))).
Proof.
  intros Hall. induction Hall as [|k l Hk Hall IH]; intros Hnd published done_ db0 Hdone Hdig Hdis; cbn [synchronize].
  - apply triple_return. intros db ->. rewrite app_nil_r. done.
  - simpl in Hnd. apply NoDup_cons in Hnd as [Hkl Hnd]. destruct (website_id (sk_ID k)) as [id|] eqn:Ei; [|apply triple_raise].
    eapply triple_bind; [apply synchronize_key_ok, Hk|]. intros [p n]. apply triple_from. intros db1 (S1 & S2 & S3 & S4 & S5 & S6). cbn [fst] in *.
    assert (Hnew : in_force k p db1) by (split; [done|split; [done|by exists id]]).
    assert (Hold : Forall (fun kp => in_force (fst kp) (snd kp) db1) done_).
    { rewrite Forall_forall in *. intros kp Hkp. apply (in_force_kept id _ _ db0); [auto|done|]. intros E.
      apply website_id_text in E. apply website_id_text in Ei. apply (Hdis kp Hkp). simpl. rewrite <- E, Ei. by left. }
    assert (Hfresh : forall kp, kp ∈ done_ -> id_digest (snd kp) <> id_digest p).
    { intros kp Hkp E. rewrite Forall_forall in Hdone. destruct (Hdone kp Hkp) as (D1 & _ & j & Hj & Hr & _).
      apply (S4 j _ Hr); [|simpl; congruence]. intros ->. apply website_id_text in Hj. apply website_id_text in Ei.
      apply (Hdis kp Hkp). simpl. rewrite <- Hj, Ei. by left. }
    eapply triple_bind; [apply (IH Hnd n (done_ ++ [(k, p)]) db1)|].
    + apply Forall_app. split; [done|]. apply Forall_cons. by split; [|apply Forall_nil_2].
    + rewrite map_app. apply NoDup_app. split; [done|]. split; [|apply NoDup_singleton]. intros d Hd Hin. cbn [map snd] in Hin.
      apply list_elem_of_singleton in Hin. subst d. apply list_elem_of_fmap in Hd as (kp & E & Hkp). exact (Hfresh kp Hkp (eq_sym E)).
    + intros kp. rewrite elem_of_app, list_elem_of_singleton. intros [Hkp| ->]; [|done]. specialize (Hdis kp Hkp). simpl in Hdis.
      rewrite not_elem_of_cons in Hdis. tauto.
    + intros people. apply triple_return. intros db (R1 & R2 & R3 & R4). rewrite <- app_assoc in R1, R2. simpl. split; [done|]. split; [done|].
      split; [by rewrite R3|]. intros j Hj. rewrite not_elem_of_cons in Hj. destruct Hj as [Hj1 Hj2].
      assert (Hji : j <> id) by (intros ->; exact (Hj1 (website_id_text _ _ Ei))). destruct (R4 j Hj2) as [-> R5].
      split; [by apply S3|]. intros m. rewrite R5. by apply S3.
Qed.

(** C25. Startup puts the configured keys in force.  When the keys of the
    configuration parse and the handler starts, every key of it has, after one
    committed transaction, an enabled row with the digest of its token, its
    environment and its budget; its streams are exactly those configured, with
    their weights and budgets, and every other one is disabled.  The identities
    the handler serves are those keys, in order, without their tokens; no two
    of them share a digest, so that a token names one website; and rows and
    streams of websites that are not configured are untouched. *)
Theorem startup_configuration raw l w db people db' :
  ParseSendKeys raw = Some l -> transact w (NewSendHandler l) db = (inr people, db') ->
  length people = length l /\ (forall k p, (k, p) ∈ combine l people -> key_ok k /\ in_force k p db') /\ NoDup (map id_digest people) /\
  (forall j, uuid_text j ∉ map sk_ID l -> api_keys db' !! j = api_keys db !! j /\
     forall n, api_message_streams db' !! (j, n) = api_message_streams db !! (j, n)).
Proof.
  intros Hparse Hrun. assert (Hl : Forall key_ok l /\ NoDup (map sk_ID l)).
  { unfold ParseSendKeys in Hparse. destruct (String.eqb _ _); [injection Hparse as <-; split; constructor|]. destruct (_ <? _); [done|].
    destruct (negb _); [done|]. destruct (decode_keys _) as [l0|]; [|done]. cbn [mbind option_bind] in Hparse. destruct (_ || _); [done|].
    by apply prepare_keys_spec in Hparse as (H1 & H2 & _). }
  destruct Hl as [Hall Hnd].
  assert (Ht : triple (fun d => d = db) (NewSendHandler l) (fun e d => exists people, e = Commit (inr people) /\
    Forall (fun kp => in_force (fst kp) (snd kp) d) (combine l people) /\ NoDup (map (fun kp => id_digest (snd kp)) (combine l people)) /\
    length people = length l /\ (forall j, uuid_text j ∉ map sk_ID l -> api_keys d !! j = api_keys db !! j /\
          forall n, api_message_streams d !! (j, n) = api_message_streams db !! (j, n)))).
  { unfold NewSendHandler. eapply triple_bind; [apply (synchronize_ok l Hall Hnd 0 [] db); [constructor|constructor|]|].
    - intros kp Hkp. by apply not_elem_of_nil in Hkp.
    - intros ps. apply triple_return. intros d H. simpl in H. by exists ps. }
  destruct (transact_value _ _ _ _ _ _ _ Ht eq_refl Hrun) as [(ps & E & H1 & H2 & H3 & H4)|(d & (ps & E & _) & _)]; [|done].
  injection E as ->. split; [done|]. split; [|split; [|done]].
  - intros k p Hkp. rewrite Forall_forall in H1. rewrite Forall_forall in Hall. split; [|by apply (H1 (k, p))]. apply Hall. 
    apply list_elem_of_In. apply list_elem_of_In in Hkp. by eapply in_combine_l.
  - assert (E : map (fun kp : SendKey * sendIdentity => id_digest (snd kp)) (combine l ps) = map id_digest ps).
    { clear -H3. revert l H3. induction ps as [|p ps IH]; intros [|k l] Hl; try done. simpl. f_equal. apply IH. by injection Hl. }
    by rewrite <- E.
Qed.


End Keys.

(** ** A configuration with one key *)

#[local] Instance site_html : HtmlTemplates := MkHtmlTemplates string Some (fun c _ => Some c).
#[local] Instance site_tokens : Tokenizer := fun _ => MkDecoder [TScalar] true.
#[local] Instance site_lower : LowerCase := fun s => s.
#[local] Instance site_decoder : TemplateDecoder := fun _ => None.
#[local] Instance site_parser : UuidParser := fun s => if String.eqb s (uuid_text 50) then Some 50%N else None.
#[local] Instance site_addresses : MailParser := fun s => Some (EmptyString, s).
Definition site_key : SendKey :=
  MkSendKey false [] "" [MkStreamPolicy "otp" 8 (MkSubmissionBudget 0 0 0)] (MkSubmissionBudget 5 0 0) (uuid_text 50)
    ("rts_" ++ EncodeToString (repeat x41 32)) ["shop@Example.COM"]%string.
#[local] Instance site_keys : KeysDecoder := fun _ => Some [site_key].

Definition site_start := transact (demo_world demo_day 8000) (NewSendHandler (default [] (ParseSendKeys "keys"))) demo_db.

Lemma startup_configuration_witness :
  match fst site_start with
  | inr people => length people = 1%nat /\ NoDup (map id_digest people)
  | inl _ => False
  end.
Proof.
  destruct (ParseSendKeys "keys") as [l|] eqn:El; [|vm_compute in El; discriminate El].
  assert (Hone : length (default [] (ParseSendKeys "keys")) = 1%nat) by (vm_compute; reflexivity).
  assert (Hok : (match fst site_start with inr _ => true | inl _ => false end) = true) by (vm_compute; reflexivity).
  unfold site_start in *. rewrite El in *. cbn [default from_option id] in *.
  destruct (transact _ (NewSendHandler l) demo_db) as [[e|people] db'] eqn:E; [discriminate Hok|]. cbn [fst].
  destruct (startup_configuration "keys" l (demo_world demo_day 8000) demo_db people db' El E) as (H1 & _ & H2 & _).
  split; [exact (eq_trans H1 Hone)|exact H2].
Defined.

End SendKeys.
