(* ===== verification/HttpSend.v ===== *)
(** * Requests of websites: [internal/api/send.go], [send_cancel.go]

    A request is routed, admitted (a slot of the process, the key's token
    bucket), authenticated by its bearer token, and then served.  Submissions
    and cancellations are modelled to the end; the routes that only read, and
    the simulations of the sandbox (the file [Sandbox]), are handed on
    ([Handed]).

    The state that requests share is the [Server]: [enter] takes a slot and a
    token, [leave] gives them back when the request is over; what happens in
    between changes files and database only.  [mime.ParseMediaType] and
    [time.Parse] are arguments ([StdText]). *)

From S2P Require Import Prelude Sha256 GoText TextFacts JsonText Calendar Delivery SmtpStream SmtpClient Provider Database Auth Suppression Message WebhookHttp Storage Queue QueueOps MessageOps Worker Demo Frames SubmitRules Receive Retention MessageRules AesGcm Credentials Fingerprint Admission ApiReceive JsonTokens JsonMessage Templates SendJson Catalog SendKeys.

Module HttpSend.

Import JsonTokens JsonMessage Templates SendJson Message Catalog SendKeys.

(** ** Requests and answers *)

Record Request := MkRequest {
  rq_Path : string; rq_RawPath : string; rq_RawQuery : string; rq_Method : string;
  rq_Values : string -> list string;          (* Header.Values *)
  rq_ContentLength : Z; rq_Body : Reader }.
Definition Get (r : Request) (name : string) : string := match rq_Values r name with v :: _ => v | [] => EmptyString end.

(** [respond] with the code and the status; Retry-After; Allow *)
Inductive Answer :=
| Status (code : Z) (status : string) (retry : option Z) (allow : option string)
| AcceptedMessage (result : EnqueueResult) (sandbox : bool)
| CancelledMessage (id : UUID) (replay : bool).
Definition respond (code : Z) (status : string) : Answer := Status code status None None.
Definition retry (code : Z) (status : string) (seconds : Z) : Answer := Status code status (Some seconds) None.

(** The next step of a handler that may have answered *)
Definition continue {A B} (m : Answer + A) (f : A -> Answer + B) : Answer + B := match m with inl a => inl a | inr x => f x end.
Notation "x <~ m ; k" := (continue m (fun x => k)) (at level 20, m at level 100, k at level 200, right associativity).
Definition require (ok : bool) (a : Answer) : Answer + unit := if ok then inr tt else inl a.

(** ** Routes *)

Definition messages_path : string := "/v1/messages/".
Definition HasSuffix (s suffix : string) : bool :=
  (String.length suffix <=? String.length s)%nat && String.eqb (drop (String.length s - String.length suffix) s) suffix.
Definition TrimSuffix (s suffix : string) : string := if HasSuffix s suffix then take (String.length s - String.length suffix) s else s.
Definition TrimPrefix (s prefix : string) : string := if HasPrefix s prefix then drop (String.length prefix) s else s.

(** The identifier before a suffix of the path *)
Definition id_before (path suffix : string) : string :=
  if HasPrefix path messages_path && HasSuffix path suffix then
    let id := TrimSuffix (TrimPrefix path messages_path) suffix in
    if Contains id "/" then EmptyString else id
  else EmptyString.

(** [sandboxRoute] of [sandbox.go] *)
Definition sandboxRoute (path : string) : string * string * bool :=
  if negb (HasPrefix path messages_path) then (EmptyString, EmptyString, false)
  else match Cut (TrimPrefix path messages_path) "/" with
  | Some (id, op) => (id, op, one_of op ["inspection"; "simulations"]%string)
  | None => (TrimPrefix path messages_path, EmptyString, false)
  end.

Record Route := MkRoute {
  ro_cancel : string; ro_feedback : string; ro_readID : string; ro_list : bool; ro_statistics : bool;
  ro_sandboxID : string; ro_operation : string; ro_auxiliary : bool; ro_read : bool }.

Definition route (r : Request) : Route :=
  let path := rq_Path r in
  let feedback := id_before path "/feedback" in
  let readID := TrimPrefix path messages_path in
  let list := String.eqb path "/v1/messages" && String.eqb (rq_Method r) "GET" in
  let statistics := String.eqb path "/v1/statistics" in
  let '(sandboxID, operation, auxiliary) := sandboxRoute path in
  let read := HasPrefix path messages_path && negb (String.eqb readID "") && negb (Contains readID "/") in
  MkRoute (id_before path "/cancel") feedback readID list statistics sandboxID operation auxiliary
    (read || list || statistics || negb (String.eqb feedback "")).

(** Requests that only read have slots and tokens of their own. *)
Definition reading (ro : Route) : bool := ro_read ro || ro_auxiliary ro && String.eqb (ro_operation ro) "inspection".

(** Path, method and origin *)
Definition screen (r : Request) : Answer + Route :=
  let ro := route r in
  if negb (String.eqb (rq_Path r) "/v1/messages") && negb (ro_read ro) && negb (ro_auxiliary ro) && String.eqb (ro_cancel ro) ""
  then inl (respond 404 "404 page not found")
  else
    let method := if reading ro then "GET"%string else "POST"%string in
    if negb (String.eqb (rq_Method r) method)
    then inl (Status 405 "method_not_allowed" None (Some (if String.eqb (rq_Path r) "/v1/messages" then "GET, POST"%string else method)))
    else if negb (String.eqb (Get r "Origin") "") || String.eqb (Get r "Sec-Fetch-Site") "cross-site"
    then inl (respond 403 "browser_submission_forbidden")
    else inr ro.

Section Send.
  Context {std : StdText} {html : HtmlTemplates} {addresses : MailParser} {headers : Receive.HeaderParser} {tokenizer : Tokenizer}
    {parser : UuidParser}.

(** ** Admission and authentication *)

(** The identities with their limiters, those of the reads, the slots taken *)
Record Server := MkServer { sv_people : list sendIdentity; sv_reads : gmap string limiter; sv_slots : Z; sv_readSlots : Z }.
Definition new_server (now : Time) (people : list sendIdentity) : Server :=
  MkServer people (list_to_map (map (fun p => (sk_ID (id_key p), new_limiter now)) people)) 0 0.

Record Session := MkSession { se_who : nat; se_route : Route }.

(** The last identity with this digest *)
Fixpoint last_match (supplied : list byte) (i : nat) (people : list sendIdentity) (who : option nat) : option nat :=
  match people with
  | [] => who
  | p :: rest => last_match supplied (S i) rest (if bool_decide (supplied = id_digest p) then Some i else who)
  end.
Definition authenticate (r : Request) (people : list sendIdentity) : option nat :=
  match rq_Values r "Authorization" with
  | [v] => if HasPrefix v "Bearer " && (String.length v =? 75)%nat
           then last_match (Sha.Sum256 (bytes_of (drop 7 v))) 0 people None else None
  | _ => None
  end.

Definition set_limiter (l : limiter) (p : sendIdentity) : sendIdentity := MkIdentity (id_key p) (id_digest p) l.
Definition limiter_of (rd : bool) (p : sendIdentity) (sv : Server) : limiter :=
  if rd then default (new_limiter 0) (sv_reads sv !! sk_ID (id_key p)) else id_limiter p.
Definition put_limiter (rd : bool) (i : nat) (p : sendIdentity) (l : limiter) (sv : Server) : Server :=
  if rd then MkServer (sv_people sv) (<[sk_ID (id_key p) := l]> (sv_reads sv)) (sv_slots sv) (sv_readSlots sv)
  else MkServer (<[i := set_limiter l p]> (sv_people sv)) (sv_reads sv) (sv_slots sv) (sv_readSlots sv).
Definition add_slot (rd : bool) (d : Z) (sv : Server) : Server :=
  if rd then MkServer (sv_people sv) (sv_reads sv) (sv_slots sv) (sv_readSlots sv + d)
  else MkServer (sv_people sv) (sv_reads sv) (sv_slots sv + d) (sv_readSlots sv).

(** Until the request is admitted; a slot taken in vain is given back.  One
    step: while a refused request still holds its slot the handler admits fewer
    others, never more. *)
Definition enter (now : Time) (r : Request) (sv : Server) : (Answer + Session) * Server :=
  match screen r with
  | inl a => (inl a, sv)
  | inr ro =>
      if 4 <=? (if reading ro then sv_readSlots sv else sv_slots sv) then (inl (retry 429 "busy" 1), sv)
      else match authenticate r (sv_people sv) with
      | None => (inl (respond 401 "invalid_credentials"), sv)
      | Some i =>
          match sv_people sv !! i with
          | None => (inl (respond 401 "invalid_credentials"), sv)
          | Some p =>
              let '(ok, l) := acquire now (limiter_of (reading ro) p sv) in
              let sv := put_limiter (reading ro) i p l sv in
              if ok then (inr (MkSession i ro), add_slot (reading ro) 1 sv)
              else (inl (retry 429 "rate_or_concurrency_limit" 1), sv)
          end
      end
  end.

(** The deferred releases *)
Definition leave (se : Session) (sv : Server) : Server :=
  match sv_people sv !! se_who se with
  | None => sv
  | Some p =>
      let rd := reading (se_route se) in
      add_slot rd (-1) (put_limiter rd (se_who se) p (release (limiter_of rd p sv)) sv)
  end.

(** ** The headers of a submission *)

Definition replacement (r : Request) : Answer + option UUID :=
  match rq_Values r "X-RelayTale-Replaces" with
  | [] => inr None
  | [v] => match website_id v with Some id => inr (Some id) | None => inl (respond 400 "invalid_replacement") end
  | _ => inl (respond 400 "invalid_replacement")
  end.

(** Whether the body is JSON *)
Definition media_type (r : Request) : Answer + bool :=
  match rq_Values r "Content-Type", ParseMediaType (Get r "Content-Type") with
  | [_], Some (media, []) =>
      if negb (one_of media ["message/rfc822"; "application/json"]%string) || negb (length (rq_Values r "Content-Encoding") =? 0)%nat
      then inl (respond 415 "use_message_rfc822_or_json")
      else inr (String.eqb media "application/json")
  | _, _ => inl (respond 415 "use_message_rfc822_or_json")
  end.

Definition idempotency_key (r : Request) : Answer + string :=
  match rq_Values r "Idempotency-Key" with
  | [key] => if ApiReceive.key_ok key then inr key else inl (respond 400 "invalid_idempotency_key")
  | _ => inl (respond 400 "invalid_idempotency_key")
  end.

Definition stream_of (k : SendKey) (r : Request) : Answer + string :=
  match rq_Values r "X-RelayTale-Stream" with
  | [] => inr "normal"%string
  | [v] => if String.eqb v "" then inl (respond 400 "invalid_stream") else inr v
  | _ => inl (respond 400 "invalid_stream")
  end.
Definition permitted_stream (k : SendKey) (stream : string) : Answer + unit :=
  _ <~ require (not_null (CanonicalStream stream)) (respond 400 "invalid_stream");
  require (existsb (fun p => String.eqb (sp_Name p) stream) (sk_Streams k)) (respond 403 "stream_not_allowed").

Definition instant (r : Request) (name status : string) : Answer + Zoned :=
  match rq_Values r name with
  | [] => inr Zero
  | [v] => match ParseRFC3339 v with
           | Some z => if negb (not_null (CanonicalExpiry z)) || IsZero (z_at z) then inl (respond 400 status) else inr z
           | None => inl (respond 400 status)
           end
  | _ => inl (respond 400 status)
  end.

Definition businessHeaders (r : Request) : option Business :=
  match rq_Values r "X-RelayTale-Client-Reference" with
  | [] => Canonical (MkBusiness "" (rq_Values r "X-RelayTale-Tag"))
  | [v] => if String.eqb v "" then None else Canonical (MkBusiness v (rq_Values r "X-RelayTale-Tag"))
  | _ => None
  end.

Definition account_of (k : SendKey) : Auth.Account := Auth.MkAccount 0 (sk_AllowedFrom k).

Definition envelope (k : SendKey) (r : Request) : Answer + string * list string :=
  match rq_Values r "X-RelayTale-From", rq_Values r "X-RelayTale-To" with
  | [from], (_ :: _) as to =>
      if (100 <? length to)%nat then inl (respond 400 "invalid_envelope")
      else match Auth.CanonicalAddress from with
      | None => inl (respond 400 "invalid_envelope")
      | Some sender =>
          if negb (Auth.Allows (account_of k) sender) then inl (respond 403 "sender_denied")
          else match distinct_addresses [] to with
          | None => inl (respond 400 "invalid_recipients")
          | Some recipients => inr (sender, recipients)
          end
      end
  | _, _ => inl (respond 400 "invalid_envelope")
  end.

Record Submitted := MkSubmitted {
  sb_replaces : option UUID; sb_json : bool; sb_key : string; sb_stream : string; sb_schedule : Zoned; sb_expiry : Zoned;
  sb_business : Business; sb_sender : string; sb_recipients : list string }.

(** The checks in their order *)
Definition submitted (MaxBytes : Z) (k : SendKey) (r : Request) : Answer + Submitted :=
  replaces <~ replacement r;
  json <~ media_type r;
  _ <~ require (String.eqb (rq_RawQuery r) "") (respond 400 "invalid_query");
  key <~ idempotency_key r;
  stream <~ stream_of k r;
  _ <~ permitted_stream k stream;
  schedule <~ instant r "X-RelayTale-Schedule-At" "invalid_schedule";
  expiry <~ instant r "X-RelayTale-Expires-At" "invalid_expiry";
  business <~ (match businessHeaders r with Some b => inr b | None => inl (respond 400 "invalid_business_reference") end);
  envelope <~ envelope k r;
  _ <~ require (rq_ContentLength r <=? MaxBytes) (respond 413 "message_too_large");
  _ <~ require (negb json || (rq_ContentLength r <=? jsonMessageLimit)) (respond 413 "message_too_large");
  inr (MkSubmitted replaces json key stream schedule expiry business (fst envelope) (snd envelope)).

(** ** The payload *)

(** Whether a reader ends without an error *)
Fixpoint ends_well (r : Reader) : bool :=
  match r with
  | [] => true
  | step :: rest => match rd_err step with NoReadError => ends_well rest | EOF => true | ReadFailed => false end
  end.

Definition buffer_size : nat := Z.to_nat 32768.

(** [bytes.Reader.Read] into a buffer of 32 KiB; the context may end before any of them. *)
Fixpoint chunks (fuel : nat) (cancelled : nat -> bool) (i : nat) (bs : list byte) : Reader :=
  match fuel, bs with
  | S k, _ :: _ => MkRead (cancelled i) (firstn buffer_size bs) NoReadError :: chunks k cancelled (S i) (skipn buffer_size bs)
  | _, _ => [MkRead (cancelled i) bs EOF]
  end.

(** The reader for the receiver, and the error building the message gave *)
Definition payload (cancelled : nat -> bool) (k : SendKey) (s : Submitted) (body : Reader) : Reader * option JsonErr :=
  if sb_json s then
    match build (ApiReceive.delivered body) (ends_well body) (sb_sender s) (sb_recipients s) (sk_ID k) (sb_key s) (sk_Templates k) with
    | inl e => ([MkRead (cancelled 0%nat) [] ReadFailed], Some e)
    | inr eml => (chunks (length eml) cancelled 0 eml, None)
    end
  else (body, None).

(** ** Errors as answers *)

Definition unavailable : Answer := retry 503 "retry_same_request_and_key" 1.

Definition submission_answer (e : DBErr) : Answer :=
  match e with
  | ErrControlNotFound => respond 404 "message_not_found"
  | ErrNotCancellable => respond 409 "message_not_cancellable"
  | ErrInvalidSchedule => respond 422 "schedule_out_of_range"
  | ErrScheduleCapacity => retry 429 "schedule_capacity_exhausted" 60
  | ErrExpiredSubmission => respond 410 "expiry_elapsed"
  | ErrInvalidExpiry => respond 422 "expiry_out_of_range"
  | ErrInvalidSubmission => respond 400 "invalid_message"
  | ErrStreamDenied => respond 403 "stream_not_allowed"
  | ErrStreamBudget => retry 429 "stream_budget_exhausted" 60
  | ErrSubmissionBudget => retry 429 "recipient_budget_exhausted" 60
  | ErrSubmissionBatchTooLarge => respond 422 "recipient_batch_exceeds_budget"
  | ErrSubmissionDisabled => respond 401 "invalid_credentials"
  | ErrIdempotencyConflict => respond 409 "idempotency_conflict"
  | _ => unavailable
  end.

Definition error_answer (e : ApiReceive.ApiErr) (json : option JsonErr) : Answer :=
  match e with
  | ApiReceive.Submission_ e => submission_answer e
  | ApiReceive.Refused Receive.ErrSenderDenied => respond 403 "sender_denied"
  | ApiReceive.Refused Receive.ErrInvalidMessage => respond 400 "invalid_message"
  | ApiReceive.Refused (Receive.ErrArchive Storage.ErrTooLarge) | ApiReceive.TooLarge => respond 413 "message_too_large"
  | ApiReceive.Unreadable =>
      match json with
      | Some errJSONMessage => respond 400 "invalid_json_message"
      | Some ErrTooLarge => respond 413 "message_too_large"
      | _ => unavailable
      end
  | _ => unavailable
  end.

(** ** Serving *)

(** What the system gives one request: the database the key is checked in, or
    [None] if that fails; when the context ends; the receiver's answers *)
Record Env := MkEnv {
  ev_checked : option DB; ev_cancelled : nat -> bool; ev_io : ApiReceive.Io; ev_calls : Storage.Calls; ev_world : World; ev_seen : DB }.

Record Receiver := MkReceiver { rv_MaxBytes : Z; rv_root : string; rv_limit : Z }.

(** [SELECT enabled AND key_hash=$2 FROM api_keys WHERE id=$1] *)
Definition key_enabled (p : sendIdentity) (db : option DB) : Answer + UUID :=
  match db, website_id (sk_ID (id_key p)) with
  | Some db, Some id =>
      match api_keys db !! id with
      | Some row => if k_enabled row && String.eqb (k_key_hash row) (EncodeToString (id_digest p)) then inr id
                    else inl (respond 401 "invalid_credentials")
      | None => inl (respond 401 "invalid_credentials")
      end
  | _, _ => inl (respond 503 "unavailable")
  end.

(** [cancelWebsiteMessage] *)
Definition cancelWebsiteMessage (w : World) (r : Request) (identity : UUID) (id : string) (db : DB) : Answer * DB :=
  match website_id id with
  | None => (respond 404 "message_not_found", db)
  | Some mid =>
      if negb (String.eqb (rq_RawQuery r) "") || negb (String.eqb (rq_RawPath r) "") || negb (length (rq_Values r "Content-Encoding") =? 0)%nat
      then (respond 400 "invalid_query", db)
      else if negb (length (ApiReceive.delivered (rq_Body r)) =? 0)%nat || negb (ends_well (rq_Body r))
      then (respond 400 "empty_body_required", db)
      else
        let (res, db') := transact w (CancelPending identity mid) db in
        (match res with
         | inr replay => CancelledMessage mid replay
         | inl ErrControlNotFound => respond 404 "message_not_found"
         | inl ErrNotCancellable => respond 409 "message_not_cancellable"
         | inl ErrSubmissionDisabled => respond 401 "invalid_credentials"
         | inl _ => respond 503 "unavailable"
         end, db')
  end.

(** A submission, once the key is known to be enabled *)
Definition submit (ev : Env) (rv : Receiver) (p : sendIdentity) (identity : UUID) (r : Request) (fs : Storage.Files) (db : DB)
  : Answer * Storage.Files * DB :=
  match submitted (rv_MaxBytes rv) (id_key p) r with
  | inl a => (a, fs, db)
  | inr s =>
      let (reader, json) := payload (ev_cancelled ev) (id_key p) s (rq_Body r) in
      let '(res, fs', db') :=
        ApiReceive.ReceiveReplacing (ev_io ev) (rv_MaxBytes rv) (rv_root rv) (rv_limit rv) (ev_calls ev) (ev_world ev) (account_of (id_key p))
          (sb_sender s) (sb_recipients s) reader identity (sb_key s) (sb_stream s) (sb_expiry s) (sb_schedule s) (sb_replaces s)
          [sb_business s] (ev_seen ev) fs db in
      (match res with
       | inl e => error_answer e json
       | inr x => AcceptedMessage x (String.eqb (sk_Environment (id_key p)) "sandbox")
       end, fs', db')
  end.

Inductive Served := Answered (a : Answer) | Handed.

(** From the admitted request to its answer *)
Definition serve (ev : Env) (rv : Receiver) (p : sendIdentity) (ro : Route) (r : Request) (fs : Storage.Files) (db : DB)
  : Served * Storage.Files * DB :=
  if ro_auxiliary ro || ro_read ro then (Handed, fs, db)
  else match key_enabled p (ev_checked ev) with
  | inl a => (Answered a, fs, db)
  | inr identity =>
      if negb (String.eqb (ro_cancel ro) "") then
        let (a, db') := cancelWebsiteMessage (ev_world ev) r identity (ro_cancel ro) db in (Answered a, fs, db')
      else let '(a, fs', db') := submit ev rv p identity r fs db in (Answered a, fs', db')
  end.

(** ** What an answer means *)

(** What the checks of the headers establish *)
Record admissible (k : SendKey) (s : Submitted) : Prop := {
  ad_sender : (exists raw, Auth.CanonicalAddress raw = Some (sb_sender s)) /\ Auth.Allows (account_of k) (sb_sender s) = true;
  ad_recipients : sb_recipients s <> [] /\ (length (sb_recipients s) <= 100)%nat /\ NoDup (sb_recipients s) /\
    Forall (fun a => exists raw, Auth.CanonicalAddress raw = Some a) (sb_recipients s);
  ad_stream : sb_stream s ∈ map sp_Name (sk_Streams k);
  ad_key : ApiReceive.key_ok (sb_key s) = true;
  ad_replaces : sb_replaces s <> Some 0%N }.

Lemma answered_inr {A B} (m : Answer + A) (f : A -> Answer + B) y : continue m f = inr y -> exists x, m = inr x /\ f x = inr y.
Proof. destruct m as [a|x]; [done|]. simpl. eauto. Qed.

Lemma required_inr ok a x : require ok a = inr x -> ok = true.
Proof. by destruct ok. Qed.

Lemma website_id_nonzero v id : website_id v = Some id -> id <> 0%N.
Proof.
  unfold website_id. destruct (ParseUUID v) as [u|]; [|done]. destruct (N.eqb_spec u 0) as [|Hu]; [done|]. cbn [negb andb].
  destruct (String.eqb _ _); [|done]. by intros [= <-].
Qed.

Lemma envelope_checked k r sender recipients : envelope k r = inr (sender, recipients) ->
  (exists raw, Auth.CanonicalAddress raw = Some sender) /\ Auth.Allows (account_of k) sender = true /\
  recipients <> [] /\ (length recipients <= 100)%nat /\ NoDup recipients /\ Forall (fun a => exists raw, Auth.CanonicalAddress raw = Some a) recipients.
Proof.
  unfold envelope. destruct (rq_Values r "X-RelayTale-From") as [|from [|]]; [done| |by destruct (rq_Values r "X-RelayTale-To")].
  destruct (rq_Values r "X-RelayTale-To") as [|t ts] eqn:Eto; [done|]. destruct (Nat.ltb_spec 100 (length (t :: ts))) as [|Hl]; [done|].
  destruct (Auth.CanonicalAddress from) as [s|] eqn:Es; [|done]. destruct (Auth.Allows (account_of k) s) eqn:Ea; [|done]. cbn [negb].
  destruct (distinct_addresses [] (t :: ts)) as [rs|] eqn:Er; [|done]. intros [= <- <-].
  apply distinct_addresses_spec in Er as (L & Hnd & _ & H2). split; [eauto|]. split; [done|]. split; [by intros ->|]. split; [lia|]. split; [done|].
  clear -H2. induction H2; constructor; eauto.
Qed.

Lemma submitted_ok MaxBytes k r s : submitted MaxBytes k r = inr s -> admissible k s.
Proof.
  unfold submitted. intros H. repeat (apply answered_inr in H as (? & ? & H)). injection H as <-.
  match goal with Hr : replacement r = inr ?x |- _ => rename Hr into Hrep end.
  match goal with Hr : idempotency_key r = inr ?x |- _ => rename Hr into Hkey end.
  match goal with Hr : permitted_stream k _ = inr _ |- _ => rename Hr into Hstr end.
  match goal with Hr : envelope k r = inr ?x |- _ => destruct x as [sender recipients]; apply envelope_checked in Hr as (E1 & E2 & E3 & E4 & E5 & E6) end.
  split; simpl; [done|done| | |].
  - unfold permitted_stream in Hstr. apply answered_inr in Hstr as (u & _ & Hstr). apply required_inr, existsb_exists in Hstr as (q & Hq & E).
    apply String.eqb_eq in E. apply list_elem_of_fmap. exists q. split; [done|]. by apply list_elem_of_In.
  - unfold idempotency_key in Hkey. destruct (rq_Values r "Idempotency-Key") as [|key [|]]; [done| |done].
    destruct (ApiReceive.key_ok key) eqn:Ek; [|done]. by injection Hkey as <-.
  - unfold replacement in Hrep. destruct (rq_Values r "X-RelayTale-Replaces") as [|v [|]]; [by injection Hrep as <-| |done].
    destruct (website_id v) as [id|] eqn:Ei; [|done]. injection Hrep as <-. apply website_id_nonzero in Ei. congruence.
Qed.

Lemma chunks_delivered cancelled bs : forall fuel i, (length bs <= fuel)%nat -> ApiReceive.delivered (chunks fuel cancelled i bs) = bs.
Proof.
  assert (Hpos : (0 < buffer_size)%nat) by (unfold buffer_size; lia). intros fuel. revert bs.
  induction fuel as [|k IH]; intros bs i Hf; [destruct bs; [done|simpl in Hf; lia]|].
  destruct bs as [|b bs]; [done|]. cbn [chunks ApiReceive.delivered rd_data rd_err]. rewrite IH; [apply firstn_skipn|].
  rewrite length_skipn. cbn [length] in *. lia.
Qed.

(** The bytes the receiver reads are the body, or the message built from it. *)
Definition read_message (k : SendKey) (s : Submitted) (r : Request) (data : list byte) : Prop :=
  if sb_json s
  then build (ApiReceive.delivered (rq_Body r)) (ends_well (rq_Body r)) (sb_sender s) (sb_recipients s) (sk_ID k) (sb_key s) (sk_Templates k) = inr data
  else data = ApiReceive.delivered (rq_Body r).

Lemma snapshot_unreadable MaxBytes write c : exists e, ApiReceive.snapshot MaxBytes write [MkRead c [] ReadFailed] = inl e.
Proof. unfold ApiReceive.snapshot. cbn. destruct c; eauto. Qed.

(** A refusal, with an error code *)
Definition refusal (a : Answer) : Prop := match a with Status code _ _ _ => 400 <= code < 600 | _ => False end.

Lemma respond_refusal code status : 400 <= code < 600 -> refusal (respond code status).
Proof. done. Qed.

Lemma continue_refusal {A B} (m : Answer + A) (f : A -> Answer + B) a : continue m f = inl a ->
  (forall b, m = inl b -> refusal b) -> (forall x, m = inr x -> f x = inl a -> refusal a) -> refusal a.
Proof. destruct m as [b|x]; simpl; [intros [= ->]; auto|eauto]. Qed.

Lemma require_refusal ok a b : require ok a = inl b -> refusal a -> refusal b.
Proof. destruct ok; [done|]. by intros [= <-]. Qed.

Ltac refused := repeat case_match; intros; simplify_eq; try done; by apply respond_refusal.

Lemma submitted_refusal MaxBytes k r a : submitted MaxBytes k r = inl a -> refusal a.
Proof.
  unfold submitted. intros H.
  repeat (eapply continue_refusal in H; [exact H| |clear H; intros ? _ H]).
  all: try (intros b Hb; apply (require_refusal _ _ _ Hb); by apply respond_refusal).
  - intros b. unfold replacement. refused.
  - intros b. unfold media_type. refused.
  - intros b. unfold idempotency_key. refused.
  - intros b. unfold stream_of. refused.
  - intros b Hb. unfold permitted_stream in Hb. eapply continue_refusal in Hb; [exact Hb| |].
    + intros c Hc. apply (require_refusal _ _ _ Hc). by apply respond_refusal.
    + intros y _ Hx. apply (require_refusal _ _ _ Hx). by apply respond_refusal.
  - intros b. unfold instant. refused.
  - intros b. unfold instant. refused.
  - intros b. refused.
  - intros b. unfold envelope. refused.
  - done.
Qed.

Lemma error_refusal e json : refusal (error_answer e json).
Proof. unfold error_answer, submission_answer, unavailable, retry, respond. by repeat case_match. Qed.

(** What was received: the key was enabled under this token, the headers were
    admissible, and the receiver was given exactly this message. *)
Definition received (ev : Env) (rv : Receiver) (p : sendIdentity) (r : Request) (fs : Storage.Files) (db : DB)
    (res : ApiReceive.ApiErr + EnqueueResult) (fs' : Storage.Files) (db' : DB) : Prop :=
  exists identity checked row s reader,
    website_id (sk_ID (id_key p)) = Some identity /\ ev_checked ev = Some checked /\ api_keys checked !! identity = Some row /\
    k_enabled row = true /\ k_key_hash row = EncodeToString (id_digest p) /\
    submitted (rv_MaxBytes rv) (id_key p) r = inr s /\ admissible (id_key p) s /\
    (forall x, res = inr x -> read_message (id_key p) s r (ApiReceive.delivered reader)) /\
    ApiReceive.submission_outcome (ev_io ev) (rv_MaxBytes rv) (rv_root rv) (rv_limit rv) (ev_world ev) (account_of (id_key p)) (sb_sender s)
      (sb_recipients s) reader identity (sb_key s) (sb_stream s) (sb_expiry s) (sb_schedule s) (sb_replaces s) [sb_business s]
      (ev_seen ev) fs db res fs' db'.

Lemma prepare_unreadable io MaxBytes account from rcpts c key stream expiresAt scheduleAt replaces business :
  exists e, ApiReceive.prepare io MaxBytes account from rcpts [MkRead c [] ReadFailed] key stream expiresAt scheduleAt replaces business = inl e.
Proof.
  unfold ApiReceive.prepare. destruct (ApiReceive.options _ _ _ _ _ _) as [e|[b st]]; [eauto|].
  destruct (negb _); [eauto|]. destruct (_ || _); [eauto|]. destruct (negb _); [eauto|]. destruct (negb _); [eauto|].
  destruct (snapshot_unreadable MaxBytes (ApiReceive.io_write io) c) as [e ->]. eauto.
Qed.

Lemma payload_read cancelled k s r reader json :
  payload cancelled k s (rq_Body r) = (reader, json) -> read_message k s r (ApiReceive.delivered reader) \/ exists c, reader = [MkRead c [] ReadFailed].
Proof.
  unfold payload, read_message. destruct (sb_json s); [|intros [= <- <-]; by left].
  destruct (build _ _ _ _ _ _ _) as [e|eml] eqn:Eb; intros [= <- <-]; [eauto|]. left. by rewrite chunks_delivered.
Qed.

Lemma key_enabled_spec p checked identity : key_enabled p checked = inr identity -> exists db row,
  website_id (sk_ID (id_key p)) = Some identity /\ checked = Some db /\ api_keys db !! identity = Some row /\
  k_enabled row = true /\ k_key_hash row = EncodeToString (id_digest p).
Proof.
  unfold key_enabled. destruct checked as [d|]; [|done]. destruct (website_id _) as [id|]; [|done].
  destruct (api_keys d !! id) as [row|] eqn:Er; [|done]. destruct (k_enabled row && _) eqn:E; [|done]. intros [= <-].
  apply andb_true_iff in E as [E1 E2]. apply String.eqb_eq in E2. eauto 10.
Qed.

(** A cancellation that fails has no effect, unless its commit's answer was lost. *)
Lemma cancel_failed w identity mid db e db' : transact w (CancelPending identity mid) db = (inl e, db') ->
  db' = db \/ w_commit w = CommitUncertain.
Proof.
  assert (Ht : triple (fun _ => True) (CancelPending identity mid) (fun e _ => exists b, e = Commit (inr b))).
  { unfold CancelPending. step (fun (_ : unit) (_ : DB) => True); [apply triple_any|].
    step (fun (_ : bool) (_ : DB) => True); [apply triple_any|]. apply triple_return. by eauto. }
  unfold transact. destruct (CancelPending identity mid w (0%nat, db)) as [e'|[x [k d]]] eqn:E; [intros [= _ <-]; by left|].
  destruct (Ht _ _ _ _ _ _ I E) as [b ->]. destruct (w_commit w); [done|intros [= _ <-]; by left|by right].
Qed.

(** C19. The answers to websites.  However a submission or cancellation that
    was admitted is answered: 202 means that the key is enabled in the database
    under this token's digest, that the sender is allowed to this key, the
    recipients are canonical, different and at most a hundred, the stream is
    one of the key's, and that the message, which is the body as it was sent,
    or the one built from its JSON with the key's templates, was entered or
    found as [submission_outcome] says; a confirmation of a cancellation is
    given only by its committed transaction, and changes no file; every other
    answer has an error code, and then existing files are unchanged, and the
    database is unchanged, unless the answer of the commit was lost.  An error
    before the receiver or the cancelling transaction was reached changes
    nothing at all. *)
Theorem http_answers ev rv p ro r fs db a fs' db' :
  serve ev rv p ro r fs db = (Answered a, fs', db') ->
  match a with
  | AcceptedMessage x sandbox =>
      sandbox = String.eqb (sk_Environment (id_key p)) "sandbox" /\ received ev rv p r fs db (inr x) fs' db'
  | CancelledMessage mid replay =>
      fs' = fs /\ exists identity, website_id (sk_ID (id_key p)) = Some identity /\
        transact (ev_world ev) (CancelPending identity mid) db = (inr replay, db')
  | Status code _ _ _ =>
      400 <= code < 600 /\ fs ⊆ fs' /\ (db' = db \/ w_commit (ev_world ev) = CommitUncertain) /\
      (fs' = fs /\ db' = db \/ (exists e, received ev rv p r fs db (inl e) fs' db') \/
       fs' = fs /\ exists identity mid e, website_id (sk_ID (id_key p)) = Some identity /\
         transact (ev_world ev) (CancelPending identity mid) db = (inl e, db'))
  end.
Proof.
  unfold serve. destruct (_ || _); [done|]. destruct (key_enabled p (ev_checked ev)) as [b|identity] eqn:Ek.
  { intros [= <- <- <-]. assert (Hb : refusal b).
    { revert Ek. unfold key_enabled. refused. }
    destruct b as [code| |]; try done. split; [done|]. split; [done|]. split; by left. }
  apply key_enabled_spec in Ek as (checked & row & K1 & K2 & K3 & K4 & K5).
  destruct (String.eqb (ro_cancel ro) ""); cbn [negb].
  - unfold submit. destruct (submitted (rv_MaxBytes rv) (id_key p) r) as [b|s] eqn:Es.
    { apply submitted_refusal in Es. intros [= <- <- <-]. destruct b as [code| |]; try done. split; [done|]. split; [done|]. split; by left. }
    destruct (payload (ev_cancelled ev) (id_key p) s (rq_Body r)) as [reader json] eqn:Ep.
    destruct (ApiReceive.ReceiveReplacing _ _ _ _ _ _ _ _ _ _ _ _ _ _ _ _ _ _ _ _) as [[res fs1] db1] eqn:Er. intros [= <- <- <-].
    apply ApiReceive.ReceiveReplacing_outcome in Er as Ho. apply submitted_ok in Es as Ha.
    assert (Hrec : received ev rv p r fs db res fs1 db1).
    { exists identity, checked, row, s, reader. do 7 (split; [done|]). split; [|done]. intros x ->.
      apply payload_read in Ep as [|[c ->]]; [done|]. destruct Ho as (s1 & f1 & d1 & Hp & _).
      destruct (prepare_unreadable (ev_io ev) (rv_MaxBytes rv) (account_of (id_key p)) (sb_sender s) (sb_recipients s) c (sb_key s) (sb_stream s)
        (sb_expiry s) (sb_schedule s) (sb_replaces s) [sb_business s]) as [e He]. congruence. }
    destruct res as [e|x]; [|done]. pose proof (error_refusal e json) as Hc. destruct (error_answer e json) as [code| |]; try done.
    split; [done|]. destruct Ho as (Hsub & Hdb & _). split; [done|]. split; [|right; left; by exists e].
    destruct Hdb as [|(_ & ? & _)]; [by left|by right].
  - unfold cancelWebsiteMessage. destruct (website_id (ro_cancel ro)) as [mid|]; [|intros [= <- <- <-]; simpl; split; [lia|split; [done|split; by left]]].
    destruct (_ || negb (length (rq_Values r _) =? 0)%nat); [intros [= <- <- <-]; simpl; split; [lia|split; [done|split; by left]]|].
    destruct (_ || _); [intros [= <- <- <-]; simpl; split; [lia|split; [done|split; by left]]|].
    destruct (transact (ev_world ev) (CancelPending identity mid) db) as [res d] eqn:Et. intros [= <- <- <-].
    destruct res as [e|replay]; [|by split; [|exists identity]].
    pose proof (cancel_failed _ _ _ _ _ _ Et) as Hc.
    destruct e; simpl; (split; [lia|split; [done|split; [done|right; right; split; [done|by exists identity, mid; eexists]]]]).
Qed.

(** ** Requests at the same time *)

(** The server, and the requests being served *)
Record Running := MkRunning { ru_server : Server; ru_sessions : gmap N (Request * Session) }.

Inductive http_step : Running -> Running -> Prop :=
| step_enter now r sv ss n se sv' : enter now r sv = (inr se, sv') -> ss !! n = None ->
    http_step (MkRunning sv ss) (MkRunning sv' (<[n := (r, se)]> ss))
| step_refuse now r sv ss a sv' : enter now r sv = (inl a, sv') -> http_step (MkRunning sv ss) (MkRunning sv' ss)
| step_leave sv ss n r se : ss !! n = Some (r, se) -> http_step (MkRunning sv ss) (MkRunning (leave se sv) (delete n ss)).

(** How many sessions satisfy [q] *)
Definition in_use (q : Session -> bool) (m : gmap N (Request * Session)) : Z := Z.of_nat (size (filter (fun x => q (snd (snd x)) = true) m)).

Lemma in_use_insert q m n r se : m !! n = None -> in_use q (<[n := (r, se)]> m) = in_use q m + (if q se then 1 else 0).
Proof.
  intros Hn. unfold in_use. destruct (q se) eqn:E.
  - rewrite map_filter_insert_True by done. rewrite map_size_insert_None; [lia|]. apply map_lookup_filter_None. by left.
  - rewrite map_filter_insert_False by (simpl; congruence). rewrite delete_id by done. lia.
Qed.

Lemma in_use_delete q m n r se : m !! n = Some (r, se) -> in_use q (delete n m) = in_use q m - (if q se then 1 else 0).
Proof. intros Hn. rewrite <- (insert_delete_id m n (r, se) Hn) at 2. rewrite in_use_insert by apply lookup_delete_eq. lia. Qed.

Definition by_kind (rd : bool) (se : Session) : bool := Bool.eqb (reading (se_route se)) rd.
Definition by_key (rd : bool) (i : nat) (se : Session) : bool := by_kind rd se && (se_who se =? i)%nat.

(** The bearer token of a request *)
Definition bears (r : Request) (digest : list byte) : Prop :=
  exists token, rq_Values r "Authorization" = [("Bearer " ++ token)%string] /\ String.length token = 68%nat /\ Sha.Sum256 (bytes_of token) = digest.

Lemma last_match_some supplied people : forall i who j, last_match supplied i people who = Some j ->
  who = Some j \/ exists p, people !! (j - i)%nat = Some p /\ (i <= j)%nat /\ id_digest p = supplied.
Proof.
  induction people as [|p people IH]; intros i who j; cbn [last_match]; [by left|]. intros H. apply IH in H as [H|(q & Hq & Hi & Hd)].
  - case_bool_decide as Ed; [|by left]. injection H as <-. right. exists p. rewrite Nat.sub_diag. split; [done|]. split; [lia|done].
  - right. exists q. split; [|split; [lia|done]]. replace (j - i)%nat with (S (j - S i)) by lia. done.
Qed.

Lemma authenticate_some r people i : authenticate r people = Some i -> exists p, people !! i = Some p /\ bears r (id_digest p).
Proof.
  unfold authenticate. destruct (rq_Values r "Authorization") as [|v [|]] eqn:Ev; [done| |done].
  destruct (HasPrefix v "Bearer ") eqn:Hp; [|done]. destruct (Nat.eqb_spec (String.length v) 75) as [Hl|]; [|done]. cbn [andb].
  intros H. apply last_match_some in H as [|(p & Hi & _ & Hd)]; [done|]. rewrite Nat.sub_0_r in Hi. exists p. split; [done|].
  apply HasPrefix_split in Hp. change (String.length "Bearer ") with 7%nat in Hp. exists (drop 7 v). split; [by rewrite Ev, <- Hp|]. split; [|done].
  apply (f_equal String.length) in Hp. rewrite length_append in Hp. change (String.length "Bearer ") with 7%nat in Hp. lia.
Qed.

(** ** The invariant of the server *)

Record server_ok (start : list sendIdentity) (ru : Running) : Prop := {
  so_keys : map id_key (sv_people (ru_server ru)) = map id_key start /\ map id_digest (sv_people (ru_server ru)) = map id_digest start;
  so_slots : sv_slots (ru_server ru) = in_use (by_kind false) (ru_sessions ru) /\ sv_slots (ru_server ru) <= 4;
  so_readSlots : sv_readSlots (ru_server ru) = in_use (by_kind true) (ru_sessions ru) /\ sv_readSlots (ru_server ru) <= 4;
  so_active : forall i p, sv_people (ru_server ru) !! i = Some p -> forall rd,
    lm_active (limiter_of rd p (ru_server ru)) = in_use (by_key rd i) (ru_sessions ru) /\ in_use (by_key rd i) (ru_sessions ru) <= 2;
  so_reads : forall i p, sv_people (ru_server ru) !! i = Some p -> is_Some (sv_reads (ru_server ru) !! sk_ID (id_key p));
  so_sessions : forall n r se, ru_sessions ru !! n = Some (r, se) -> screen r = inr (se_route se) /\
    exists p, start !! se_who se = Some p /\ bears r (id_digest p) }.

Lemma acquire_active now l ok l' : acquire now l = (ok, l') -> lm_active l' = lm_active l + (if ok then 1 else 0) /\ (ok = true -> lm_active l < 2).
Proof.
  unfold acquire. destruct (Z.leb_spec 2 (lm_active l)); cbn [orb].
  - intros [= <- <-]. simpl. split; [lia|done].
  - destruct (Admission.flt _ (Admission.of_int 1)); intros [= <- <-]; simpl; split; [lia|done|lia|done].
Qed.

Lemma put_people rd i p l sv : sv_people sv !! i = Some p ->
  map id_key (sv_people (put_limiter rd i p l sv)) = map id_key (sv_people sv) /\
  map id_digest (sv_people (put_limiter rd i p l sv)) = map id_digest (sv_people sv).
Proof.
  intros Hi. unfold put_limiter. destruct rd; [done|]. cbn [sv_people].
  assert (Hf : forall A (f : sendIdentity -> A), f (set_limiter l p) = f p -> map f (<[i := set_limiter l p]> (sv_people sv)) = map f (sv_people sv)).
  { intros A f Hfp. change (f <$> <[i := set_limiter l p]> (sv_people sv) = f <$> sv_people sv). rewrite list_fmap_insert, Hfp.
    apply list_insert_id. by rewrite list_lookup_fmap, Hi. }
  split; by apply Hf.
Qed.

(** A limiter is its identity's and its kind's alone. *)
Lemma limiter_put rd i p l sv rd' j q : NoDup (map (fun x => sk_ID (id_key x)) (sv_people sv)) -> sv_people sv !! i = Some p ->
  sv_people (put_limiter rd i p l sv) !! j = Some q ->
  limiter_of rd' q (put_limiter rd i p l sv) = if decide (j = i /\ rd' = rd) then l
    else match sv_people sv !! j with Some q0 => limiter_of rd' q0 sv | None => limiter_of rd' q sv end.
Proof.
  intros Hnd Hi Hj. unfold put_limiter, limiter_of in *. destruct rd; cbn [sv_people sv_reads] in *.
  - rewrite Hj. destruct rd'; [|destruct (decide (j = i /\ false = true)) as [[_ ?]|]; done].
    destruct (decide (j = i /\ true = true)) as [[-> _]|Hne].
    + rewrite Hi in Hj. injection Hj as ->. by rewrite lookup_insert_eq.
    + rewrite lookup_insert_ne; [done|]. intros E. apply Hne. split; [|done].
      apply (NoDup_lookup (map (fun x => sk_ID (id_key x)) (sv_people sv)) j i (sk_ID (id_key q)) Hnd).
      * change (((fun x => sk_ID (id_key x)) <$> sv_people sv) !! j = Some (sk_ID (id_key q))). by rewrite list_lookup_fmap, Hj.
      * change (((fun x => sk_ID (id_key x)) <$> sv_people sv) !! i = Some (sk_ID (id_key q))). by rewrite list_lookup_fmap, Hi, <- E.
  - destruct (decide (j = i)) as [->|Hji].
    + rewrite list_lookup_insert_eq in Hj by (by eapply lookup_lt_Some). injection Hj as <-. rewrite Hi. cbn [id_key id_limiter set_limiter].
      destruct rd'; [|by destruct (decide (i = i /\ false = false)) as [|[]]]. by destruct (decide (i = i /\ true = false)) as [[_ ?]|].
    + rewrite list_lookup_insert_ne in Hj by done. rewrite Hj. destruct (decide (j = i /\ rd' = false)) as [[-> _]|]; [done|]. done.
Qed.

Lemma people_ids start sv : map id_key (sv_people sv) = map id_key start -> map (fun x => sk_ID (id_key x)) (sv_people sv) = map (fun x => sk_ID (id_key x)) start.
Proof.
  intros E. assert (H : forall l : list sendIdentity, map (fun x => sk_ID (id_key x)) l = map sk_ID (map id_key l)) by (intros; by rewrite map_map).
  by rewrite !H, E.
Qed.

Lemma add_slot_people rd d sv : sv_people (add_slot rd d sv) = sv_people sv.
Proof. by destruct rd. Qed.
Lemma add_slot_reads rd d sv : sv_reads (add_slot rd d sv) = sv_reads sv.
Proof. by destruct rd. Qed.
Lemma add_slot_limiter rd d sv rd' q : limiter_of rd' q (add_slot rd d sv) = limiter_of rd' q sv.
Proof. unfold limiter_of. by rewrite add_slot_reads. Qed.

Lemma put_slots rd i p l sv : sv_slots (put_limiter rd i p l sv) = sv_slots sv /\ sv_readSlots (put_limiter rd i p l sv) = sv_readSlots sv.
Proof. by destruct rd. Qed.

Lemma put_reads rd i p l sv key : is_Some (sv_reads sv !! key) -> is_Some (sv_reads (put_limiter rd i p l sv) !! key).
Proof. intros H. destruct rd; [|done]. simpl. rewrite lookup_insert_is_Some'. by right. Qed.

Lemma people_lookup start sv i p : map id_digest (sv_people sv) = map id_digest start -> sv_people sv !! i = Some p ->
  exists q, start !! i = Some q /\ id_digest q = id_digest p.
Proof.
  intros E Hi. assert (H : (id_digest <$> start) !! i = Some (id_digest p)).
  { change (map id_digest start !! i = Some (id_digest p)). rewrite <- E. change ((id_digest <$> sv_people sv) !! i = Some (id_digest p)).
    by rewrite list_lookup_fmap, Hi. }
  rewrite list_lookup_fmap in H. destruct (start !! i) as [q|]; [|done]. injection H as H. eauto.
Qed.

(** Setting a limiter and the slots, with the sessions they then count *)
Lemma put_ok start sv ss ss' rd i p l d :
  NoDup (map (fun x => sk_ID (id_key x)) start) -> server_ok start (MkRunning sv ss) -> sv_people sv !! i = Some p ->
  lm_active l = in_use (by_key rd i) ss' -> in_use (by_key rd i) ss' <= 2 ->
  (forall j rd', j <> i \/ rd' <> rd -> in_use (by_key rd' j) ss' = in_use (by_key rd' j) ss) ->
  in_use (by_kind rd) ss' = in_use (by_kind rd) ss + d -> in_use (by_kind (negb rd)) ss' = in_use (by_kind (negb rd)) ss ->
  in_use (by_kind rd) ss + d <= 4 ->
  (forall n r se, ss' !! n = Some (r, se) -> screen r = inr (se_route se) /\ exists q, start !! se_who se = Some q /\ bears r (id_digest q)) ->
  server_ok start (MkRunning (add_slot rd d (put_limiter rd i p l sv)) ss').
Proof.
  intros Hnd [[K1 K2] [S1 S2] [R1 R2] A Rd Se] Hi Hl Hle Hother Hk Hk' Hmax Hse. cbn [ru_server ru_sessions] in *.
  assert (Hnd' : NoDup (map (fun x => sk_ID (id_key x)) (sv_people sv))) by (by rewrite (people_ids start)).
  destruct (put_people rd i p l sv Hi) as [P1 P2]. destruct (put_slots rd i p l sv) as [Q1 Q2].
  assert (Hlook : forall j q, sv_people (put_limiter rd i p l sv) !! j = Some q -> exists q0, sv_people sv !! j = Some q0 /\ id_key q = id_key q0).
  { intros j q Hj. destruct rd; [eauto|]. unfold put_limiter in Hj. cbn [sv_people] in Hj. destruct (decide (j = i)) as [->|Hne].
    - rewrite list_lookup_insert_eq in Hj by (by eapply lookup_lt_Some). injection Hj as <-. eauto.
    - rewrite list_lookup_insert_ne in Hj by done. eauto. }
  split; cbn [ru_server ru_sessions].
  - rewrite add_slot_people, P1, P2. done.
  - destruct rd; simpl in Hk, Hk' |- *; lia.
  - destruct rd; simpl in Hk, Hk' |- *; lia.
  - intros j q Hj rd'. rewrite add_slot_people in Hj. rewrite add_slot_limiter, (limiter_put rd i p l sv rd' j q) by done.
    destruct (decide (j = i /\ rd' = rd)) as [[-> ->]|Hne]; [done|]. destruct (Hlook j q Hj) as (q0 & Hq0 & _). rewrite Hq0.
    rewrite Hother by (destruct (decide (j = i)), (decide (rd' = rd)); tauto). by apply A.
  - intros j q Hj. rewrite add_slot_people in Hj. rewrite add_slot_reads. apply put_reads. destruct (Hlook j q Hj) as (q0 & Hq0 & ->). by apply (Rd j).
  - done.
Qed.

Lemma by_key_ne rd i j rd' se : se_who se = i -> reading (se_route se) = rd -> j <> i \/ rd' <> rd -> by_key rd' j se = false.
Proof.
  intros <- <- H. unfold by_key, by_kind. destruct (Nat.eqb_spec (se_who se) j), (reading (se_route se)), rd'; try done; by destruct H.
Qed.

Lemma http_step_ok start ru ru' : NoDup (map (fun x => sk_ID (id_key x)) start) -> server_ok start ru -> http_step ru ru' -> server_ok start ru'.
Proof.
  intros Hnd Hok Hst. destruct Hst as [now r sv ss n se sv' He Hn|now r sv ss a sv' He|sv ss n r se Hn].
  - unfold enter in He. destruct (screen r) as [a|ro] eqn:Es; [done|]. set (rd := reading ro) in *.
    destruct (Z.leb_spec 4 (if rd then sv_readSlots sv else sv_slots sv)) as [|Hs]; [done|].
    destruct (authenticate r (sv_people sv)) as [i|] eqn:Ea; [|done]. destruct (sv_people sv !! i) as [p|] eqn:Ei; [|done].
    destruct (acquire now (limiter_of rd p sv)) as [ok l] eqn:Eq. destruct ok; [|done]. injection He as <- <-.
    apply acquire_active in Eq as [Eq1 Eq2]. pose proof (so_active _ _ Hok i p Ei rd) as [A1 A2]. cbn [ru_server ru_sessions] in *.
    assert (Hkind : by_kind rd (MkSession i ro) = true) by (unfold by_kind; simpl; apply Bool.eqb_reflx).
    assert (Hkey : by_key rd i (MkSession i ro) = true) by (unfold by_key; rewrite Hkind; simpl; apply Nat.eqb_refl).
    apply put_ok with (ss := ss); try done.
    + rewrite in_use_insert, Hkey by done. lia.
    + rewrite in_use_insert, Hkey by done. specialize (Eq2 eq_refl). lia.
    + intros j rd' Hne. rewrite in_use_insert by done. rewrite (by_key_ne rd i) by done. lia.
    + rewrite in_use_insert, Hkind by done. lia.
    + rewrite in_use_insert by done. unfold by_kind at 2. simpl. unfold rd. destruct (reading ro); simpl; lia.
    + destruct Hok as [_ [S1 _] [R1 _] _ _ _]. cbn [ru_server ru_sessions] in *. destruct rd; lia.
    + intros m r' se' Hm. apply lookup_insert_Some in Hm as [[<- [= <- <-]]|[_ Hm]]; [|by apply (so_sessions _ _ Hok m)]. split; [done|].
      apply authenticate_some in Ea as (q & Hq & Hb). rewrite Ei in Hq. injection Hq as <-.
      destruct (people_lookup start sv i p (proj2 (so_keys _ _ Hok)) Ei) as (q & Hq & Hd). exists q. by rewrite Hd.
  - unfold enter in He. destruct (screen r) as [b|ro] eqn:Es; [by injection He as <- <-|]. set (rd := reading ro) in *.
    destruct (4 <=? _); [by injection He as <- <-|]. destruct (authenticate r (sv_people sv)) as [i|] eqn:Ea; [|by injection He as <- <-].
    destruct (sv_people sv !! i) as [p|] eqn:Ei; [|by injection He as <- <-].
    destruct (acquire now (limiter_of rd p sv)) as [ok l] eqn:Eq. destruct ok; [done|]. injection He as <- <-.
    apply acquire_active in Eq as [Eq1 _]. pose proof (so_active _ _ Hok i p Ei rd) as [A1 A2]. cbn [ru_server ru_sessions] in *.
    assert (E0 : put_limiter rd i p l sv = add_slot rd 0 (put_limiter rd i p l sv)).
    { destruct rd; simpl; unfold add_slot, put_limiter; simpl; by rewrite Z.add_0_r. }
    rewrite E0. apply put_ok with (ss := ss); try done; try lia.
    + destruct Hok as [_ [S1 S2] [R1 R2] _ _ _]. cbn [ru_server ru_sessions] in *. destruct rd; lia.
    + by apply (so_sessions _ _ Hok).
  - unfold leave. destruct (so_sessions _ _ Hok n r se Hn) as (_ & q & Hq & _). cbn [ru_server ru_sessions] in *.
    assert (Hp : is_Some (sv_people sv !! se_who se)).
    { apply lookup_lt_is_Some. apply lookup_lt_Some in Hq. pose proof (f_equal length (proj2 (so_keys _ _ Hok))) as Hlen.
      rewrite !length_map in Hlen. cbn [ru_server] in Hlen. lia. }
    destruct Hp as [p Hp]. rewrite Hp. set (rd := reading (se_route se)) in *. pose proof (so_active _ _ Hok _ p Hp rd) as [A1 A2]. cbn [ru_server ru_sessions] in *.
    assert (Hkind : by_kind rd se = true) by (unfold by_kind; apply Bool.eqb_reflx).
    assert (Hkey : by_key rd (se_who se) se = true) by (unfold by_key; rewrite Hkind; simpl; apply Nat.eqb_refl).
    apply put_ok with (ss := ss); try done.
    + rewrite (in_use_delete _ _ _ _ _ Hn), Hkey. simpl. lia.
    + rewrite (in_use_delete _ _ _ _ _ Hn), Hkey. lia.
    + intros j rd' Hne. rewrite (in_use_delete _ _ _ _ _ Hn). rewrite (by_key_ne rd (se_who se)) by done. lia.
    + rewrite (in_use_delete _ _ _ _ _ Hn), Hkind. lia.
    + rewrite (in_use_delete _ _ _ _ _ Hn). unfold by_kind at 2. unfold rd. destruct (reading (se_route se)); simpl; lia.
    + destruct Hok as [_ [S1 S2] [R1 R2] _ _ _]. cbn [ru_server ru_sessions] in *. destruct rd; lia.
    + intros m r' se' Hm. apply lookup_delete_Some in Hm as [_ Hm]. by apply (so_sessions _ _ Hok m).
Qed.

Lemma server_start now start : NoDup (map (fun x => sk_ID (id_key x)) start) -> Forall (fun p => lm_active (id_limiter p) = 0) start ->
  server_ok start (MkRunning (new_server now start) ∅).
Proof.
  intros Hnd Hzero. assert (H0 : forall q, in_use q ∅ = 0) by (intros q; unfold in_use; by rewrite map_filter_empty).
  assert (Hreads : forall p, p ∈ start -> sv_reads (new_server now start) !! sk_ID (id_key p) = Some (new_limiter now)).
  { intros p Hp. simpl. apply elem_of_list_to_map_1.
    - rewrite map_map. done.
    - apply list_elem_of_fmap. by exists p. }
  split; cbn [ru_server ru_sessions]; rewrite ?H0; try done.
  - intros i p Hi rd. rewrite H0. split; [|lia]. apply list_elem_of_lookup_2 in Hi. destruct rd; simpl.
    + unfold limiter_of. by rewrite Hreads.
    + rewrite Forall_forall in Hzero. by apply Hzero.
  - intros i p Hi. apply list_elem_of_lookup_2 in Hi. rewrite Hreads by done. by eexists.
Qed.

(** C20. Requests are admitted within limits, and only with a key's token.
    From the start, whatever requests come and however they overlap: at most
    four submissions and four reads are in progress, at most two of each for
    one key; the slots and the keys' counters are exactly those of the requests
    in progress, so that none is lost; the keys and digests never change; and
    every request being served carries one authorization header with a bearer
    token whose digest is that of its key, on a route and with a method that
    are allowed. *)
Theorem http_admission now start ru :
  NoDup (map (fun x => sk_ID (id_key x)) start) -> Forall (fun p => lm_active (id_limiter p) = 0) start ->
  rtc http_step (MkRunning (new_server now start) ∅) ru ->
  server_ok start ru /\ in_use (by_kind false) (ru_sessions ru) <= 4 /\ in_use (by_kind true) (ru_sessions ru) <= 4 /\
  forall i p, start !! i = Some p -> forall rd, in_use (by_key rd i) (ru_sessions ru) <= 2.
Proof.
  intros Hnd Hzero Hrun. assert (Hok : server_ok start ru).
  { pose proof (server_start now start Hnd Hzero) as H0. revert H0. induction Hrun as [|x y z Hxy Hyz IH]; [done|]. intros Hx. apply IH.
    by eapply http_step_ok. }
  split; [done|]. destruct Hok as [[K1 _] [S1 S2] [R1 R2] A _ _]. split; [lia|]. split; [lia|]. intros i p Hi rd.
  assert (Hp : is_Some (sv_people (ru_server ru) !! i)).
  { apply lookup_lt_is_Some. apply lookup_lt_Some in Hi. apply (f_equal length) in K1. rewrite !length_map in K1. lia. }
  destruct Hp as [q Hq]. by apply (A i q Hq).
Qed.

End Send.

(** ** A website sends a message *)

#[local] Instance site_html : HtmlTemplates := MkHtmlTemplates string Some (fun c _ => Some c).
#[local] Instance site_tokens : Tokenizer := fun _ => MkDecoder [] true.
#[local] Instance site_ids : UuidParser := fun s => if String.eqb s (uuid_text 50) then Some 50%N else None.

Definition site_token : string := "rts_" ++ EncodeToString (repeat x41 32).
Definition site_sender : SendKey :=
  MkSendKey false [] "production" [MkStreamPolicy "normal" 1 (MkSubmissionBudget 0 0 0)] (MkSubmissionBudget 0 0 0) (uuid_text 50) ""
    ["f@example.com"]%string.
Definition site_identity : sendIdentity := MkIdentity site_sender (Sha.Sum256 (bytes_of site_token)) (new_limiter demo_day).
Definition site_fields : list (string * string) :=
  [("Authorization", "Bearer " ++ site_token); ("Content-Type", "message/rfc822"); ("Idempotency-Key", "k1");
   ("X-RelayTale-From", "f@example.com"); ("X-RelayTale-To", "a@example.org")]%string.
Definition site_request : Request :=
  MkRequest "/v1/messages" "" "" "POST" (fun name => map snd (List.filter (fun kv => String.eqb (fst kv) name) site_fields)) (-1) ApiReceive.site_reader.
Definition site_checked : DB :=
  site_db <| api_keys := {[50%N := MkApiKey "rts_" "production" true 2 0 0 (EncodeToString (id_digest site_identity))]} |>.
Definition site_env : Env :=
  MkEnv (Some site_checked) (fun _ => false) (ApiReceive.site_io 300) Storage.demo_calls (demo_world (demo_day + Second) 9000) site_checked.
Definition site_receiver : Receiver := MkReceiver 1000 "data" 1000.
Definition site_run :=
  serve (std := demo_std) (addresses := Receive.demo_addresses) (headers := Receive.demo_headers) site_env site_receiver site_identity
    (route site_request) site_request ∅ site_checked.

Lemma site_served :
  serve (std := demo_std) (addresses := Receive.demo_addresses) (headers := Receive.demo_headers) site_env site_receiver site_identity
    (route site_request) site_request ∅ site_checked
  = (Answered (AcceptedMessage (MkEnqueueResult 300 false) false), snd (fst site_run), snd site_run).
Proof. vm_compute. reflexivity. Qed.

Lemma http_answers_witness :
  received (std := demo_std) (addresses := Receive.demo_addresses) (headers := Receive.demo_headers) site_env site_receiver site_identity site_request
    ∅ site_checked (inr (MkEnqueueResult 300 false)) (snd (fst site_run)) (snd site_run).
Proof.
  destruct (http_answers (std := demo_std) (addresses := Receive.demo_addresses) (headers := Receive.demo_headers) site_env site_receiver
    site_identity (route site_request) site_request ∅ site_checked (AcceptedMessage (MkEnqueueResult 300 false) false)
    (snd (fst site_run)) (snd site_run) site_served) as [_ H].
  exact H.
Defined.

Definition site_entered := enter (demo_day + Second) site_request (new_server demo_day [site_identity]).

Lemma site_enters : enter (demo_day + Second) site_request (new_server demo_day [site_identity]) = (inr (MkSession 0 (route site_request)), snd site_entered).
Proof. vm_compute. reflexivity. Qed.

Lemma http_admission_witness :
  server_ok [site_identity] (MkRunning (snd site_entered) (<[1%N := (site_request, MkSession 0 (route site_request))]> ∅)).
Proof.
  refine (proj1 (http_admission demo_day [site_identity] _ _ _ _)).
  - apply NoDup_singleton.
  - apply Forall_singleton. reflexivity.
  - apply rtc_once. exact (step_enter _ _ _ _ _ _ _ site_enters (lookup_empty 1%N)).
Defined.

End HttpSend.
