(* ===== verification/Sandbox.v ===== *)
(** * Simulations of the sandbox: [internal/api/sandbox.go]

    A website with a sandbox key has a recipient of one of its messages be
    given an outcome: a row of [sandbox_simulations] and an event of the same
    name, in one transaction, once for an idempotency key ([simulateSandbox]).
    Nothing is delivered and no state of a message changes; the event is
    captured for the website's webhook, as every event is.  The insertion of
    a row is checked by the trigger of migration 00021 ([simulation_allowed]).

    Decoding the body into its struct with [encoding/json] is an argument
    ([SimulationDecoder]). *)

From S2P Require Import Prelude Sha256 GoText TextFacts Delivery SmtpStream Database Message Storage QueueOps Demo Retention SubmitRules ApiReceive JsonTokens Templates SendJson Catalog SendKeys HttpSend.

Module Sandbox.

Import JsonTokens Templates SendJson Message Catalog SendKeys HttpSend.

Record simulationRequest := MkSimulationRequest { sr_RecipientID : string; sr_Outcome : string }.

(** Strict decoding of exactly one value *)
Class SimulationDecoder := decode_simulation : list byte -> option simulationRequest.

(** [simulationKinds]; no entry is the empty text. *)
Definition simulationKinds (outcome : string) : string :=
  if String.eqb outcome "accepted" then "SANDBOX_SIMULATED_ACCEPTED"
  else if String.eqb outcome "temporary_failure" then "SANDBOX_SIMULATED_TEMP_FAILED"
  else if String.eqb outcome "permanent_failure" then "SANDBOX_SIMULATED_PERM_FAILED"
  else if String.eqb outcome "delivery_unknown" then "SANDBOX_SIMULATED_UNKNOWN"
  else if String.eqb outcome "bounce" then "SANDBOX_SIMULATED_BOUNCE"
  else EmptyString.

(** What is answered: an error, or the event and whether it is a replay. *)
Inductive SimulationAnswer := Refused (a : Answer) | Simulated (event : UUID) (replayed : bool).

(** ** The transaction *)

(** The errors of these statements are answered differently. *)
Definition ErrUnavailable : DBErr := ErrText "unavailable".
Definition or_unavailable {A} (m : M A) : M A := fun w s => match m w s with inl _ => inl ErrUnavailable | inr x => inr x end.

Definition simulations_of (mid : UUID) (db : DB) : nat := size (filter (fun kv : UUID * string * Simulation => (kv.1.1 =? mid)%N = true) (sandbox_simulations db)).

Definition simulation_data (outcome : string) : json :=
  JObj [("simulation", JBool true); ("environment", JStr "sandbox"); ("outcome", JStr outcome)]%string.
Definition is_simulation_data (data : json) (outcome : string) : bool :=
  match data with JObj fields => (length fields =? 3)%nat | _ => false end
  && bool_decide (json_text (Some data) "simulation" = Some (Database.TBool true))
  && bool_decide (json_text (Some data) "environment" = Some (Database.TStr "sandbox"))
  && bool_decide (json_text (Some data) "outcome" = Some (Database.TStr outcome)).

(** The event is the evidence of this simulation. *)
Definition evidence (mid : UUID) (s : Simulation) (e : EventRow) : bool :=
  bool_decide (e_recipient_id e = Some (si_recipient_id s)) && (e_message_id e =? mid)%N
  && String.eqb (e_event_type e) (simulationKinds (si_outcome s)) && String.eqb (e_source e) "sandbox" && is_simulation_data (e_data e) (si_outcome s).

Definition in_sandbox (mid : UUID) (db : DB) : bool :=
  match messages db !! mid with Some m => String.eqb (m_environment m) "sandbox" | None => false end.
Definition is_recipient (mid rid : UUID) (db : DB) : bool :=
  match recipients db !! rid with Some r => (r_message_id r =? mid)%N | None => false end.

(** [validate_sandbox_simulation], and the event is of no other row *)
Definition simulation_allowed (mid : UUID) (s : Simulation) (db : DB) : bool :=
  in_sandbox mid db && (simulations_of mid db <? 100)%nat && is_recipient mid (si_recipient_id s) db
  && match events db !! si_event_id s with Some e => evidence mid s e | None => false end
  && forallb (fun kv : UUID * string * Simulation => negb (si_event_id kv.2 =? si_event_id s)%N) (map_to_list (sandbox_simulations db)).

#[local] Opaque uuid_text Sha.Sum256 EncodeToString.

Section Sandbox.
  Context {std : StdText} {html : HtmlTemplates} {tokenizer : Tokenizer} {lower : LowerCase} {parser : UuidParser} {simulations : SimulationDecoder}.

Definition key_sha256 (key : string) : string := EncodeToString (Sha.Sum256 (bytes_of key)).

Definition rolled_back (a : Answer) : M (TxEnd SimulationAnswer) := mret (Rollback (inr (Refused a))).

Definition simulate_tx (p : sendIdentity) (identity mid rid : UUID) (key : string) (request : simulationRequest) : M (TxEnd SimulationAnswer) :=
  or_unavailable (exec (fun _ db => db));;          (* SET LOCAL synchronous_commit=on *)
  enabled ← or_unavailable (query (fun _ db => row ← api_keys db !! identity;
    Some (k_enabled row && String.eqb (k_prefix row) "rts_" && String.eqb (k_key_hash row) (EncodeToString (id_digest p))
          && String.eqb (k_environment row) "sandbox")));
  if negb (default false enabled) then rolled_back (respond 401 "invalid_credentials")
  else
    found ← or_unavailable (query (fun _ db => match messages db !! mid with
      | Some m => bool_decide (m_api_key_id m = Some identity) && String.eqb (m_environment m) "sandbox" | None => false end));
    if negb found then rolled_back (respond 404 "not_found")
    else
      row ← or_unavailable (query (fun _ db => sandbox_simulations db !! (mid, key_sha256 key)));
      match row with
      | Some s =>
          if negb (String.eqb (uuid_text (si_recipient_id s)) (sr_RecipientID request)) || negb (String.eqb (si_outcome s) (sr_Outcome request))
          then rolled_back (respond 409 "idempotency_conflict")
          else mret (Rollback (inr (Simulated (si_event_id s) true)))
      | None =>
          count ← or_unavailable (query (fun _ db => simulations_of mid db));
          if (100 <=? count)%nat then rolled_back (respond 409 "simulation_limit")
          else
            known ← or_unavailable (query (fun _ db => is_recipient mid rid db));
            if negb known then rolled_back (respond 404 "recipient_not_found")
            else
              event ← fresh;
              record_event event (fun t => MkEventRow mid (Some rid) None (simulationKinds (sr_Outcome request)) (at_now t) "sandbox"
                (simulation_data (sr_Outcome request)) None);;
              stmt (fun _ db =>
                let s := MkSimulation rid (sr_Outcome request) event in
                if negb (simulation_allowed mid s db) then None
                else rows ← insert_row (mid, key_sha256 key) s (sandbox_simulations db); Some (tt, db <| sandbox_simulations := rows |>));;
              mret (Commit (inr (Simulated event false)))
      end.

(** ** The request *)

(** [sandboxRequest] *)
Definition sandboxRequest (p : sendIdentity) (r : Request) (id : string) : Answer + UUID :=
  if negb (String.eqb (sk_Environment (id_key p)) "sandbox") then inl (respond 403 "sandbox_identity_required")
  else match website_id id with
  | Some mid =>
      if negb (String.eqb (rq_RawPath r) "") || negb (String.eqb (rq_RawQuery r) "") || negb (length (rq_Values r "Content-Encoding") =? 0)%nat
      then inl (respond 400 "invalid_request") else inr mid
  | None => inl (respond 400 "invalid_request")
  end.

Definition simulation_media (r : Request) : Answer + unit :=
  match rq_Values r "Content-Type", ParseMediaType (Get r "Content-Type") with
  | [_], Some (media, []) => require (String.eqb media "application/json") (respond 415 "use_application_json")
  | _, _ => inl (respond 415 "use_application_json")
  end.

(** The body: at most 512 bytes of JSON without duplicate keys *)
Definition simulation_body (r : Request) : Answer + simulationRequest * UUID :=
  let raw := ApiReceive.delivered (rq_Body r) in
  if negb (ends_well (rq_Body r)) || (512 <? length raw)%nat || negb (uniqueJSON (NewDecoder raw)) then inl (respond 400 "invalid_simulation")
  else match decode_simulation raw with
  | Some request =>
      match website_id (sr_RecipientID request) with
      | Some rid => if String.eqb (simulationKinds (sr_Outcome request)) "" then inl (respond 400 "invalid_simulation") else inr (request, rid)
      | None => inl (respond 400 "invalid_simulation")
      end
  | None => inl (respond 400 "invalid_simulation")
  end.

Definition simulation_checked (p : sendIdentity) (r : Request) (id : string) : Answer + UUID * string * (simulationRequest * UUID) :=
  mid <~ sandboxRequest p r id;
  _ <~ simulation_media r;
  key <~ idempotency_key r;
  request <~ simulation_body r;
  inr (mid, key, request).

Definition tx_answer (res : DBErr + SimulationAnswer) : SimulationAnswer :=
  match res with
  | inr a => a
  | inl (ErrText _) => Refused (respond 503 "unavailable")
  | inl _ => Refused (respond 503 "retry_same_request_and_key")
  end.

Definition simulateSandbox (w : World) (p : sendIdentity) (r : Request) (id : string) (db : DB) : SimulationAnswer * DB :=
  match simulation_checked p r id with
  | inl a => (Refused a, db)
  | inr (mid, key, (request, rid)) =>
      match website_id (sk_ID (id_key p)) with
      | None => (Refused (respond 503 "unavailable"), db)
      | Some identity =>
          let (res, db') := transact w (simulate_tx p identity mid rid key request) db in
          (tx_answer res, db')
      end
  end.

(** ** What the ledger holds *)

Record simulations_ok (db : DB) : Prop := {
  so_rows : forall mid h s, sandbox_simulations db !! (mid, h) = Some s ->
    in_sandbox mid db = true /\ is_recipient mid (si_recipient_id s) db = true /\ simulationKinds (si_outcome s) <> EmptyString /\
    exists e, events db !! si_event_id s = Some e /\ evidence mid s e = true;
  so_once : forall k k' s s', sandbox_simulations db !! k = Some s -> sandbox_simulations db !! k' = Some s' ->
    si_event_id s = si_event_id s' -> k = k';
  so_ledger : forall id e outcome, events db !! id = Some e -> e_event_type e = simulationKinds outcome -> simulationKinds outcome <> EmptyString ->
    exists k s, sandbox_simulations db !! k = Some s /\ si_event_id s = id;
  so_limit : forall mid, (simulations_of mid db <= 100)%nat }.

(** Nothing else changed, and nothing recorded was: events and simulations
    are added, and notices of new events to the outbox. *)
Definition only_simulations (db db' : DB) : Prop :=
  db' = db <| events := events db' |> <| sandbox_simulations := sandbox_simulations db' |> <| webhook_outbox := webhook_outbox db' |> /\
  notified db db' /\ sandbox_simulations db ⊆ sandbox_simulations db'.

(** The message is one of the enabled sandbox key with this token. *)
Definition owns_message (p : sendIdentity) (identity mid : UUID) (db : DB) : Prop :=
  (exists row, api_keys db !! identity = Some row /\ k_enabled row = true /\ k_prefix row = "rts_"%string /\
     k_key_hash row = EncodeToString (id_digest p) /\ k_environment row = "sandbox"%string) /\
  (exists m, messages db !! mid = Some m /\ m_api_key_id m = Some identity /\ m_environment m = "sandbox"%string).

(** One event, with its notice, and one row are added. *)
Definition simulated_event (mid rid : UUID) (outcome : string) (at_ : Time) : EventRow :=
  MkEventRow mid (Some rid) None (simulationKinds outcome) at_ "sandbox" (simulation_data outcome) None.

Definition recorded (mid rid : UUID) (key outcome : string) (event : UUID) (db db' : DB) : Prop :=
  exists at_ outbox, events db !! event = None /\ sandbox_simulations db !! (mid, key_sha256 key) = None /\
    simulation_allowed mid (MkSimulation rid outcome event) (db <| events := events db' |>) = true /\
    captures event (simulated_event mid rid outcome at_) db outbox /\
    db' = with_event event (simulated_event mid rid outcome at_) outbox db
            <| sandbox_simulations := <[(mid, key_sha256 key) := MkSimulation rid outcome event]> (sandbox_simulations db) |>.

Definition tx_outcome (p : sendIdentity) (identity mid rid : UUID) (key : string) (request : simulationRequest) (db : DB)
    (r : TxEnd SimulationAnswer) (db' : DB) : Prop :=
  match r with
  | Rollback (inr (Refused a)) => refusal a
  | Rollback (inr (Simulated event replayed)) => replayed = true /\ owns_message p identity mid db /\
      exists s, sandbox_simulations db !! (mid, key_sha256 key) = Some s /\ uuid_text (si_recipient_id s) = sr_RecipientID request /\
        si_outcome s = sr_Outcome request /\ si_event_id s = event
  | Commit (inr (Simulated event replayed)) => replayed = false /\ owns_message p identity mid db /\ recorded mid rid key (sr_Outcome request) event db db'
  | _ => False
  end.

Lemma triple_unavailable {A} P (m : M A) Q : triple P m Q -> triple P (or_unavailable m) Q.
Proof. intros H w k db a k' db' HP E. unfold or_unavailable in E. destruct (m w (k, db)) as [e|x] eqn:Em; [done|]. injection E as ->. by eapply H. Qed.

(** A query, whose answer is about the database it is made in *)
Lemma triple_ask {A} db0 (f : At -> DB -> A) : triple (fun db => db = db0) (or_unavailable (query f)) (fun a db => db = db0 /\ exists t, a = f t db0).
Proof. apply triple_unavailable, triple_query. intros t db ->. eauto. Qed.

Lemma triple_refused p identity mid rid key request db0 code status : 400 <= code < 600 ->
  triple (fun db => db = db0) (rolled_back (respond code status)) (tx_outcome p identity mid rid key request db0).
Proof. intros H. apply triple_return. intros db _. exact H. Qed.
#[local] Ltac refuses := apply triple_refused; clear; lia.

Lemma simulate_tx_outcome p identity mid rid key request db0 :
  triple (fun db => db = db0) (simulate_tx p identity mid rid key request) (tx_outcome p identity mid rid key request db0).
Proof.
  unfold simulate_tx. step (fun (_ : unit) db => db = db0); [by apply triple_unavailable, triple_exec|].
  eapply triple_bind; [apply triple_ask|]. intros enabled. apply triple_pure. intros [_ He].
  destruct (default false enabled) eqn:Ee; cbn [negb]; [|refuses].
  eapply triple_bind; [apply triple_ask|]. intros found. apply triple_pure. intros [_ Hf].
  destruct found; cbn [negb]; [|refuses].
  assert (Ho : owns_message p identity mid db0).
  { split.
    - destruct enabled as [b|]; [|discriminate Ee]. change (default false (Some b)) with b in Ee. rewrite Ee in He.
      destruct (api_keys db0 !! identity) as [row|]; [|discriminate He]. apply (inj Some) in He. symmetry in He.
      apply andb_true_iff in He as [He K4]. apply andb_true_iff in He as [He K3]. apply andb_true_iff in He as [K1 K2].
      apply String.eqb_eq in K2, K3, K4. exists row. by repeat split.
    - destruct (messages db0 !! mid) as [m|]; [|discriminate Hf]. symmetry in Hf. apply andb_true_iff in Hf as [M1 M2].
      apply bool_decide_eq_true in M1. apply String.eqb_eq in M2. by exists m. }
  clear Ee He Hf enabled. eapply triple_bind; [apply triple_ask|]. intros row. apply triple_pure. intros [_ Hr]. destruct row as [s|].
  { match goal with |- context [if ?b then _ else _] => destruct b eqn:E end.
    { refuses. }
    apply orb_false_iff in E as [E1 E2]. apply negb_false_iff, String.eqb_eq in E1, E2.
    apply triple_return. intros db ->. split; [reflexivity|]. split; [exact Ho|]. exists s. split; [symmetry; exact Hr|]. by repeat split. }
  eapply triple_bind; [apply triple_ask|]. intros count. apply triple_pure. intros [_ Hc].
  destruct (Nat.leb_spec 100 count); [refuses|].
  eapply triple_bind; [apply triple_ask|]. intros known. apply triple_pure. intros [_ Hk].
  destruct known; cbn [negb]; [|refuses].
  eapply triple_bind; [apply triple_fresh|]. intros event.
  set (E1 := fun db => events db0 !! event = None /\ exists at_ outbox, captures event (simulated_event mid rid (sr_Outcome request) at_) db0 outbox /\
    db = with_event event (simulated_event mid rid (sr_Outcome request) at_) outbox db0).
  step (fun (_ : unit) => E1).
  { apply triple_record. intros t db outbox -> Hn Hcap. split; [exact Hn|]. by exists (at_now t), outbox. }
  step (fun (_ : unit) db => recorded mid rid key (sr_Outcome request) event db0 db).
  { apply triple_stmt. intros t db [] db' (En & at_ & outbox & Hcap & ->).
    destruct (simulation_allowed _ _ _) eqn:Ea; cbn [negb]; [|done]. unfold insert_row. cbn [sandbox_simulations].
    change (sandbox_simulations (with_event _ _ _ db0)) with (sandbox_simulations db0). rewrite <- Hr. cbn. intros E.
    apply (inj Some) in E. injection E as <-. exists at_, outbox. split; [done|]. split; [by symmetry|]. split; [exact Ea|done]. }
  apply triple_return. intros db Hrec. done.
Qed.

(** ** The ledger through a simulation *)

Lemma simulations_insert mid h s db db' n : sandbox_simulations db !! (mid, h) = None ->
  sandbox_simulations db' = <[(mid, h) := s]> (sandbox_simulations db) ->
  simulations_of n db' = (simulations_of n db + if (mid =? n)%N then 1 else 0)%nat.
Proof.
  intros Hn E. unfold simulations_of. rewrite E. destruct (N.eqb_spec mid n) as [Em|Em].
  - rewrite map_filter_insert_True by (cbn; by apply N.eqb_eq). rewrite map_size_insert_None; [lia|]. apply map_lookup_filter_None. by left.
  - rewrite map_filter_insert_False by (cbn; by apply not_true_iff_false, N.eqb_neq). rewrite delete_id by done. lia.
Qed.

Lemma recorded_ok mid rid key outcome event db db' :
  recorded mid rid key outcome event db db' -> simulationKinds outcome <> EmptyString -> simulations_ok db ->
  simulations_ok db' /\ only_simulations db db' /\ sandbox_simulations db' !! (mid, key_sha256 key) = Some (MkSimulation rid outcome event).
Proof.
  intros (at_ & outbox & Hn & Hs & Ha & Hcap & E) Hk [O1 O2 O3 O4]. unfold simulation_allowed in Ha.
  set (h := key_sha256 key) in *. clearbody h. set (s := MkSimulation rid outcome event) in *.
  set (e := simulated_event mid rid outcome at_) in *.
  assert (Ee : events db' = <[event := e]> (events db)) by by rewrite E.
  assert (Es : sandbox_simulations db' = <[(mid, h) := s]> (sandbox_simulations db)) by by rewrite E.
  assert (Em : forall n, in_sandbox n db' = in_sandbox n db) by by rewrite E.
  assert (Er : forall n r, is_recipient n r db' = is_recipient n r db) by by rewrite E.
  repeat (apply andb_true_iff in Ha as [Ha ?]). rename H into A5, H0 into A4, H1 into A3, H2 into A2, Ha into A1.
  change (events (_ <| events := _ |>)) with (events db') in A4. change (si_event_id s) with event in *. rewrite Ee, lookup_insert_eq in A4.
  change (sandbox_simulations (_ <| events := _ |>)) with (sandbox_simulations db) in A5. apply Nat.ltb_lt in A2.
  change (simulations_of mid _) with (simulations_of mid db) in A2.
  assert (Hfresh : forall k s', sandbox_simulations db !! k = Some s' -> si_event_id s' <> event).
  { intros k s' Hk' Eq. rewrite forallb_forall in A5. specialize (A5 (k, s')). cbn [snd] in A5. rewrite Eq, N.eqb_refl in A5.
    assert (H : false = true); [|discriminate H]. apply A5. by apply list_elem_of_In, elem_of_map_to_list. }
  split; [split; rewrite ?Es, ?Ee|split; [|by rewrite Es, lookup_insert_eq]].
  - intros n g t Ht. rewrite Em, Er. apply lookup_insert_Some in Ht as [[[= <- <-] <-]|[_ Ht]].
    + split; [exact A1|]. split; [exact A3|]. split; [exact Hk|]. exists e. change (si_event_id s) with event. by rewrite lookup_insert_eq.
    + destruct (O1 n g t Ht) as (B1 & B2 & B3 & e' & B4 & B5). split; [exact B1|]. split; [exact B2|]. split; [exact B3|]. exists e'.
      split; [|exact B5]. rewrite lookup_insert_ne; [exact B4|]. intros Eq. by apply (Hfresh _ _ Ht).
  - intros k k' t t' Ht Ht' Eq. apply lookup_insert_Some in Ht as [[<- <-]|[_ Ht]], Ht' as [[<- <-]|[_ Ht']]; [done| | |by eapply O2].
    + by destruct (Hfresh _ _ Ht').
    + by destruct (Hfresh _ _ Ht).
  - intros id e' o He Ht Ho. apply lookup_insert_Some in He as [[<- <-]|[_ He]]; [exists (mid, h), s; by rewrite lookup_insert_eq|].
    destruct (O3 id e' o He Ht Ho) as (k & t & Hk' & Et). exists k, t. split; [|exact Et]. rewrite lookup_insert_ne; [exact Hk'|]. by intros <-; rewrite Hs in Hk'.
  - intros n. rewrite (simulations_insert mid h s db _ n Hs Es). pose proof (O4 n). destruct (N.eqb_spec mid n) as [<-|]; lia.
  - split; [by rewrite E|]. split; [|by rewrite Es; apply insert_subseteq]. eapply notified_trans; [by apply notified_event|].
    apply notified_same; by rewrite E.
Qed.

Lemma only_refl db : only_simulations db db.
Proof. split; [by destruct db|]. split; [apply notified_refl|done]. Qed.

Lemma only_trans db1 db2 db3 : only_simulations db1 db2 -> only_simulations db2 db3 -> only_simulations db1 db3.
Proof.
  intros (E1 & E2 & E3) (F1 & F2 & F3). split; [|split; [by eapply notified_trans|by etrans]]. rewrite F1, E1. by destruct db1.
Qed.

Lemma simulation_checked_kind p r id mid key request rid :
  simulation_checked p r id = inr (mid, key, (request, rid)) ->
  uuid_text rid = sr_RecipientID request /\ simulationKinds (sr_Outcome request) <> EmptyString.
Proof.
  unfold simulation_checked. intros H. repeat (apply answered_inr in H as (? & ? & H)). apply (inj inr) in H. injection H as -> -> ->.
  match goal with Hb : simulation_body r = _ |- _ => revert Hb end. unfold simulation_body. repeat case_match; try done.
  intros Hb. apply (inj inr) in Hb. injection Hb as -> ->. split; [|by apply String.eqb_neq].
  match goal with Hw : website_id _ = Some rid |- _ => revert Hw end. unfold website_id. repeat case_match; try done.
  intros [= <-]. bsimpl. naive_solver.
Qed.

Lemma simulation_refusal p r id a : simulation_checked p r id = inl a -> refusal a.
Proof.
  unfold simulation_checked. intros H. repeat (eapply continue_refusal in H; [exact H| |clear H; intros ? _ H]); [| | | |done].
  all: intros b; unfold sandboxRequest, simulation_media, require, idempotency_key, simulation_body.
  all: repeat case_match; intros Hb; first [discriminate Hb|apply (inj inl) in Hb as <-; by apply respond_refusal].
Qed.

(** What an answer says of the databases before and after *)
Definition answer_ok (w : World) (p : sendIdentity) (r : Request) (id : string) (a : SimulationAnswer) (db db' : DB) : Prop :=
  match a with
  | Simulated event replayed => exists mid key request rid identity s,
      simulation_checked p r id = inr (mid, key, (request, rid)) /\ website_id (sk_ID (id_key p)) = Some identity /\ owns_message p identity mid db /\
      sandbox_simulations db' !! (mid, key_sha256 key) = Some s /\
      uuid_text (si_recipient_id s) = sr_RecipientID request /\ si_outcome s = sr_Outcome request /\ si_event_id s = event /\
      (if replayed then db' = db else recorded mid rid key (sr_Outcome request) event db db')
  | Refused a => refusal a /\ (db' = db \/ w_commit w = CommitUncertain /\ exists mid key request rid identity event,
      simulation_checked p r id = inr (mid, key, (request, rid)) /\ website_id (sk_ID (id_key p)) = Some identity /\ owns_message p identity mid db /\
      recorded mid rid key (sr_Outcome request) event db db')
  end.

Lemma tx_answer_error e : exists a, tx_answer (inl e) = Refused a /\ refusal a.
Proof. destruct e; eexists; (split; [reflexivity|by apply respond_refusal]). Qed.

Lemma simulate_step w p r id db a db' : simulations_ok db -> simulateSandbox w p r id db = (a, db') ->
  simulations_ok db' /\ only_simulations db db' /\ answer_ok w p r id a db db'.
Proof.
  intros Hok. unfold simulateSandbox. destruct (simulation_checked p r id) as [b|[[mid key] [request rid]]] eqn:Ec.
  { intros [= <- <-]. split; [exact Hok|]. split; [apply only_refl|]. split; [by eapply simulation_refusal|left; reflexivity]. }
  destruct (website_id (sk_ID (id_key p))) as [identity|] eqn:Ei; [|intros [= <- <-]; split; [exact Hok|]; split; [apply only_refl|]; split; [apply respond_refusal; clear; lia|left; reflexivity]].
  destruct (transact w _ db) as [res d] eqn:Et. intros [= Ha <-].
  destruct (simulation_checked_kind _ _ _ _ _ _ _ Ec) as [Ht Hk]. pose proof (simulate_tx_outcome p identity mid rid key request db) as Htr.
  unfold transact in Et. destruct (simulate_tx p identity mid rid key request w (0%nat, db)) as [e|[end_ [k db1]]] eqn:Eb.
  { clear Eb. injection Et as <- <-. destruct (tx_answer_error e) as (b & Eb & Hb). rewrite Eb in Ha. subst a.
    split; [exact Hok|]. split; [apply only_refl|]. split; [exact Hb|left; reflexivity]. }
  specialize (Htr w 0%nat db end_ k db1 eq_refl Eb). clear Eb. destruct end_ as [[e|[b|event replayed]]|[e|[b|event replayed]]]; try destruct Htr.
  - destruct H0 as (Ho & Hrec). subst replayed. destruct (recorded_ok _ _ _ _ _ _ _ Hrec Hk Hok) as (R1 & R2 & R3).
    destruct (w_commit w) eqn:Ew; injection Et as <- <-; subst a.
    + split; [exact R1|]. split; [exact R2|]. exists mid, key, request, rid, identity, (MkSimulation rid (sr_Outcome request) event).
      do 4 (split; [assumption|]). split; [exact Ht|]. split; [reflexivity|]. split; [reflexivity|exact Hrec].
    + split; [exact Hok|]. split; [apply only_refl|]. split; [apply respond_refusal; clear; lia|left; reflexivity].
    + split; [exact R1|]. split; [exact R2|]. split; [apply respond_refusal; clear; lia|]. right. split; [exact Ew|].
      exists mid, key, request, rid, identity, event. do 3 (split; [assumption|]). exact Hrec.
  - injection Et as <- <-. subst a. split; [exact Hok|]. split; [apply only_refl|]. split; [exact Htr|left; reflexivity].
  - injection Et as <- <-. destruct H0 as (Ho & s & S1 & S2 & S3 & S4). subst a replayed. split; [exact Hok|]. split; [apply only_refl|].
    exists mid, key, request, rid, identity, s. do 7 (split; [assumption|]). reflexivity.
Qed.

(** Requests one after the other, of any keys *)
Definition Call : Type := World * sendIdentity * Request * string.
Fixpoint simulate_all (calls : list Call) (db : DB) : DB :=
  match calls with
  | [] => db
  | (w, p, r, id) :: rest => simulate_all rest (snd (simulateSandbox w p r id db))
  end.

Lemma simulate_all_ok calls : forall db, simulations_ok db -> simulations_ok (simulate_all calls db) /\ only_simulations db (simulate_all calls db).
Proof.
  induction calls as [|[[[w p] r] id] calls IH]; intros db Hok; cbn [simulate_all]; [split; [done|apply only_refl]|].
  destruct (simulateSandbox w p r id db) as [a db1] eqn:E. destruct (simulate_step _ _ _ _ _ _ _ Hok E) as (H1 & H2 & _).
  destruct (IH db1 H1) as [H3 H4]. split; [done|by eapply only_trans].
Qed.

(** C26. The sandbox only simulates.  After any requests of any keys, however
    their transactions end: events and simulations are only added, the outbox
    only gains fresh notices of the added events, and messages, recipients,
    attempts and every other table are as they were; each simulation belongs to a recipient of a sandbox message, has an
    event of its own that says so, every such event has its row, and a message
    has at most a hundred.  The next request is answered with an event only if
    the message is one of the enabled sandbox key with this token; the row
    under its idempotency key then names this recipient, outcome and event,
    and was added by this request or, on a replay, found, and nothing changed.
    An error leaves everything as it was, unless the commit's answer was lost. *)
Theorem sandbox_only_simulates calls w p r id db a db' :
  simulations_ok db -> simulateSandbox w p r id (simulate_all calls db) = (a, db') ->
  simulations_ok db' /\ only_simulations db db' /\ answer_ok w p r id a (simulate_all calls db) db'.
Proof.
  intros Hok E. destruct (simulate_all_ok calls db Hok) as [H1 H2]. destruct (simulate_step _ _ _ _ _ _ _ H1 E) as (H3 & H4 & H5).
  split; [done|]. split; [by eapply only_trans|done].
Qed.

End Sandbox.

(** ** A bounce is simulated, and asked for again *)

#[local] Instance box_html : HtmlTemplates := MkHtmlTemplates string Some (fun c _ => Some c).
#[local] Instance box_tokens : Tokenizer := fun _ => MkDecoder [TScalar] true.
#[local] Instance box_lower : LowerCase := fun s => s.
#[local] Instance box_ids : UuidParser := fun s =>
  if String.eqb s (uuid_text 50) then Some 50%N else if String.eqb s (uuid_text 100) then Some 100%N
  else if String.eqb s (uuid_text 1) then Some 1%N else None.
#[local] Instance box_body : SimulationDecoder := fun _ => Some (MkSimulationRequest (uuid_text 1) "bounce").
#[local] Instance box_std : StdText := demo_std.

Definition box_identity : sendIdentity :=
  MkIdentity (MkSendKey false [] "sandbox" [] (MkSubmissionBudget 0 0 0) (uuid_text 50) "" []) (Sha.Sum256 (bytes_of "token")) (new_limiter demo_day).
Definition box_db : DB :=
  demo_db <| messages := {[100%N := demo_message <| m_source_type := "api" |> <| m_api_key_id := Some 50%N |> <| m_environment := "sandbox" |>]} |>
          <| api_keys := {[50%N := MkApiKey "rts_" "sandbox" true 0 0 0 (EncodeToString (id_digest box_identity))]} |>.
Definition box_fields : list (string * string) := [("Content-Type", "application/json"); ("Idempotency-Key", "k1")]%string.
Definition box_request : Request :=
  MkRequest ("/v1/messages/" ++ uuid_text 100 ++ "/simulations") "" "" "POST"
    (fun name => map snd (List.filter (fun kv => String.eqb (fst kv) name) box_fields)) 2 [SmtpStream.MkRead false [x7b; x7d] SmtpStream.EOF].
Definition box_first := simulateSandbox (demo_world demo_day 500) box_identity box_request (uuid_text 100) box_db.
Definition box_calls : list Call := [(demo_world demo_day 500, box_identity, box_request, uuid_text 100)].

Lemma box_first_answer : fst box_first = Simulated 506 false.
Proof. vm_compute. reflexivity. Qed.

Lemma box_again : simulateSandbox (demo_world (demo_day + Second) 600) box_identity box_request (uuid_text 100) (simulate_all box_calls box_db)
  = (Simulated 506 true, simulate_all box_calls box_db).
Proof. vm_compute. reflexivity. Qed.

Lemma box_ok : simulations_ok box_db.
Proof.
  split.
  - intros mid h s H. change (sandbox_simulations box_db) with (∅ : gmap (UUID * string) Simulation) in H. by rewrite lookup_empty in H.
  - intros k k' s s' H. change (sandbox_simulations box_db) with (∅ : gmap (UUID * string) Simulation) in H. by rewrite lookup_empty in H.
  - intros id e o H. change (events box_db) with (∅ : gmap UUID EventRow) in H. by rewrite lookup_empty in H.
  - intros mid. unfold simulations_of. change (sandbox_simulations box_db) with (∅ : gmap (UUID * string) Simulation).
    rewrite map_filter_empty, map_size_empty. lia.
Qed.

Lemma sandbox_only_simulates_witness :
  fst box_first = Simulated 506 false /\
  answer_ok (demo_world (demo_day + Second) 600) box_identity box_request (uuid_text 100) (Simulated 506 true) (simulate_all box_calls box_db)
    (simulate_all box_calls box_db).
Proof.
  split; [exact box_first_answer|].
  exact (proj2 (proj2 (sandbox_only_simulates box_calls (demo_world (demo_day + Second) 600) box_identity box_request (uuid_text 100) box_db
    (Simulated 506 true) (simulate_all box_calls box_db) box_ok box_again))).
Defined.

End Sandbox.
