(* ===== verification/ServeMux.v ===== *)
(** * Routing by [net/http.ServeMux]

    The administration API registers patterns of a method and a path, in which
    a segment in braces stands for any one segment.  The mux matches the
    escaped path segment by segment, each unescaped by itself, while the checks
    of the code look at the unescaped path: [mux_path] says how they agree.

    Only what the patterns of this program use is modelled: no hosts, no
    patterns with a trailing slash or a wildcard for the rest. *)

From S2P Require Import Prelude GoText TextFacts.

Module ServeMux.

(** ** Escaping: [net/url] *)

Definition percent : ascii := "%".
Definition slash : ascii := "/".

Definition unhex (c : ascii) : option N :=
  let n := N_of_ascii c in
  if ((48 <=? n) && (n <=? 57))%N then Some (n - 48)%N
  else if ((97 <=? n) && (n <=? 102))%N then Some (n - 87)%N
  else if ((65 <=? n) && (n <=? 70))%N then Some (n - 55)%N
  else None.

(** [url.PathUnescape] *)
Fixpoint unescape (s : string) : option string :=
  match s with
  | EmptyString => Some EmptyString
  | String c rest =>
      if Ascii.eqb c percent then
        match rest with
        | String a (String b rest) =>
            hi ← unhex a; lo ← unhex b; out ← unescape rest; Some (String (ascii_of_N (16 * hi + lo)) out)
        | _ => None
        end
      else out ← unescape rest; Some (String c out)
  end.

Definition alphanumeric (c : ascii) : bool :=
  let n := N_of_ascii c in
  ((48 <=? n) && (n <=? 57) || (65 <=? n) && (n <=? 90) || (97 <=? n) && (n <=? 122))%N.
Definition among (chars : string) (c : ascii) : bool := existsb (Ascii.eqb c) (list_ascii_of_string chars).
Definition shouldEscape (c : ascii) : bool := negb (alphanumeric c || among "-_.~$&+,/:;=@" c).

Definition hex_digit (n : N) : ascii := ascii_of_N (if (n <? 10)%N then 48 + n else 55 + n)%N.
Fixpoint escape (s : string) : string :=
  match s with
  | EmptyString => EmptyString
  | String c rest =>
      if shouldEscape c
      then String percent (String (hex_digit (N_of_ascii c / 16)) (String (hex_digit (N_of_ascii c mod 16)) (escape rest)))
      else String c (escape rest)
  end.

Definition validEncoded (s : string) : bool := all_chars (fun c => among "!$&'()*+,;=:@[]%" c || negb (shouldEscape c)) s.

(** [URL.EscapedPath] *)
Definition EscapedPath (path raw : string) : string :=
  if negb (String.eqb raw "") && validEncoded raw && bool_decide (unescape raw = Some path) then raw
  else if String.eqb path "*" then "*" else escape path.

(** ** Matching *)

(** [cleanPath] changes nothing: rooted, and no empty, [.] or [..] segment
    before the end. *)
Definition dots (s : string) : bool := String.eqb s "." || String.eqb s "..".
Fixpoint clean_segments (l : list string) : bool :=
  match l with
  | [] => true
  | [s] => negb (dots s)
  | s :: rest => negb (String.eqb s "") && negb (dots s) && clean_segments rest
  end.
Definition rooted (p : string) : option string := match p with String c rest => if Ascii.eqb c slash then Some rest else None | EmptyString => None end.
Definition clean (p : string) : bool := match rooted p with Some rest => clean_segments (Split rest slash) | None => false end.

(** [firstSegment], repeatedly: what is left after the last slash counts as a slash. *)
Definition segment (s : string) : string := if String.eqb s "" then "/" else default s (unescape s).
Definition segments (p : string) : list string := map segment (Split (default EmptyString (rooted p)) slash).

(** A segment of a pattern in braces *)
Definition wildcard (s : string) : option string :=
  match s with
  | String c rest => if Ascii.eqb c "{" then Some (take (String.length rest - 1) rest) else None
  | EmptyString => None
  end.
Definition PathValues : Type := list (string * string).
Fixpoint match_segments (pattern path : list string) : option PathValues :=
  match pattern, path with
  | [], [] => Some []
  | p :: ps, s :: ss =>
      match wildcard p with
      | Some name => if String.eqb s "/" then None else vs ← match_segments ps ss; Some ((name, s) :: vs)
      | None => if String.eqb p s then match_segments ps ss else None
      end
  | _, _ => None
  end.
Definition match_pattern (pattern : string) (path : list string) : option PathValues := match_segments (segments pattern) path.

(** [GET] answers [HEAD] too. *)
Definition match_method (pattern method : string) : bool :=
  String.eqb pattern method || String.eqb pattern "GET" && String.eqb method "HEAD".

Inductive Routed (H : Type) := Handle (h : H) (values : PathValues) | Moved | MethodNotAllowed | NotFound.
Arguments Handle {H} h values.
Arguments Moved {H}.
Arguments MethodNotAllowed {H}.
Arguments NotFound {H}.

Fixpoint find_pattern {H} (patterns : list (string * string * H)) (method : string) (path : list string) : option (H * PathValues) :=
  match patterns with
  | [] => None
  | (m, p, h) :: rest =>
      match (if match_method m method then match_pattern p path else None) with
      | Some vs => Some (h, vs)
      | None => find_pattern rest method path
      end
  end.

(** [ServeMux.Handler]; no two patterns of this program match the same request. *)
Definition ServeHTTP {H} (patterns : list (string * string * H)) (method path raw : string) : Routed H :=
  let p := EscapedPath path raw in
  if negb (String.eqb method "CONNECT") && negb (clean p) then Moved
  else match find_pattern patterns method (segments p) with
  | Some (h, vs) => Handle h vs
  | None => if existsb (fun mph => bool_decide (is_Some (match_pattern (snd (fst mph)) (segments p)))) patterns
            then MethodNotAllowed else NotFound
  end.

(** ** Escaping and unescaping *)

Lemma unhex_digit n : (n < 16)%N -> unhex (hex_digit n) = Some n.
Proof.
  intros Hn. assert (H : In n (map N.of_nat (seq 0 16))) by (apply in_map_iff; exists (N.to_nat n); split; [lia|apply in_seq; lia]).
  simpl in H. repeat (destruct H as [<-|H]; [reflexivity|]). done.
Qed.

Lemma path_unescape s : unescape (escape s) = Some s.
Proof.
  induction s as [|c s IH]; [done|]. cbn [escape]. destruct (shouldEscape c) eqn:E.
  - cbn [unescape]. rewrite Ascii.eqb_refl. pose proof (N_ascii_bounded c) as Hb.
    rewrite !unhex_digit by (apply N.mod_lt; done) || (apply N.Div0.div_lt_upper_bound; lia). cbn [mbind option_bind]. rewrite IH. cbn [mbind option_bind].
    do 2 f_equal. rewrite <- N.div_mod by done. apply ascii_N_embedding.
  - cbn [unescape]. destruct (Ascii.eqb_spec c percent) as [->|]; [done|]. by rewrite IH.
Qed.

Lemma unescape_EscapedPath path raw : unescape (EscapedPath path raw) = Some path.
Proof.
  unfold EscapedPath. destruct (_ && bool_decide _) eqn:E.
  - apply andb_true_iff in E as [_ E]. by apply bool_decide_eq_true_1 in E.
  - destruct (String.eqb_spec path "*") as [->|]; [done|apply path_unescape].
Qed.

(** No escape runs over a slash. *)
Lemma unescape_slash n a b out : (String.length a <= n)%nat -> unescape (a ++ String slash b) = Some out ->
  exists a' b', unescape a = Some a' /\ unescape b = Some b' /\ out = (a' ++ String slash b')%string.
Proof.
  revert a out. induction n as [|n IH]; intros a out Hn H.
  - destruct a; [|simpl in Hn; lia]. rewrite append_nil in H. cbn [unescape] in H.
    destruct (unescape b) as [b'|]; [|done]. cbn in H. injection H as <-. exists EmptyString, b'. done.
  - destruct a as [|c a]; [by apply (IH EmptyString); [simpl; lia|]|]. rewrite append_cons in H. cbn [unescape] in H |- *. simpl in Hn.
    destruct (Ascii.eqb c percent) eqn:Ec.
    + destruct a as [|x [|y a]].
      * rewrite append_nil in H. by destruct b.
      * rewrite append_cons, append_nil in H. destruct (unhex x); [|done]. done.
      * rewrite !append_cons in H. destruct (unhex x) as [hi|]; [|done]. destruct (unhex y) as [lo|]; [|done]. cbn [mbind option_bind] in H |- *.
        destruct (unescape (a ++ _)) as [o|] eqn:Eo; [|done]. cbn [mbind option_bind] in H. injection H as <-.
        destruct (IH a o) as (a' & b' & -> & -> & ->); [simpl in Hn; lia|done|]. cbn [mbind option_bind].
        eexists _, b'. split; [done|]. split; [done|]. by rewrite append_cons.
    + destruct (unescape (a ++ _)) as [o|] eqn:Eo; [|done]. cbn [mbind option_bind] in H. injection H as <-.
      destruct (IH a o) as (a' & b' & -> & -> & ->); [lia|done|]. cbn [mbind option_bind].
      eexists _, b'. split; [done|]. split; [done|]. by rewrite append_cons.
Qed.

Lemma Split_slash a b : (forall c, c ∈ list_ascii_of_string a -> c <> slash) -> Split (a ++ String slash b) slash = a :: Split b slash.
Proof. intros Ha. unfold Split. rewrite (split_at_two slash EmptyString a b Ha). by rewrite string_rev_rev. Qed.

Lemma first_slash s : (forall c, c ∈ list_ascii_of_string s -> c <> slash) \/
  exists a b, s = (a ++ String slash b)%string /\ forall c, c ∈ list_ascii_of_string a -> c <> slash.
Proof.
  induction s as [|c s IH]; [left; intros c Hc; by apply elem_of_nil in Hc|]. destruct (Ascii.eqb_spec c slash) as [->|Hne].
  { right. exists EmptyString, s. split; [done|]. intros c Hc. by apply elem_of_nil in Hc. }
  destruct IH as [IH|(a & b & -> & Ha)]; [left|right].
  - intros x Hx. apply elem_of_cons in Hx as [->|Hx]; auto.
  - exists (String c a), b. split; [done|]. intros x Hx. apply elem_of_cons in Hx as [->|Hx]; auto.
Qed.

(** Unescaping a path is unescaping its segments. *)
Lemma unescape_Split n s out : (String.length s <= n)%nat -> unescape s = Some out ->
  exists l, Forall2 (fun raw x => unescape raw = Some x) (Split s slash) l /\ l <> [] /\ out = Join l "/".
Proof.
  revert s out. induction n as [|n IH]; intros s out Hn H.
  - destruct s; [|simpl in Hn; lia]. exists [out]. split; [by repeat constructor|done].
  - destruct (first_slash s) as [Hs|(a & b & -> & Ha)].
    + exists [out]. split; [|done]. unfold Split. rewrite split_at_clean by done. cbn [string_rev]. rewrite string_rev_rev. by repeat constructor.
    + apply (unescape_slash (String.length a)) in H as (a' & b' & Ea & Eb & ->); [|done]. rewrite length_append in Hn. simpl in Hn.
      destruct (IH b b') as (l & Hl & Hne & ->); [lia|done|]. exists (a' :: l). rewrite Split_slash by done. split; [by constructor|].
      split; [done|]. by destruct l.
Qed.

Lemma unescape_empty s : unescape s = Some EmptyString -> s = EmptyString.
Proof.
  destruct s as [|c s]; [done|]. cbn [unescape]. destruct (Ascii.eqb c percent).
  - destruct s as [|a [|b s]]; [done|done|]. destruct (unhex a); [|done]. destruct (unhex b); [|done]. cbn. by destruct (unescape s).
  - cbn. by destruct (unescape s).
Qed.

(** An empty segment counts as a slash. *)
Definition ending (s : string) : string := if String.eqb s "" then "/" else s.

Lemma segment_ending raw s : unescape raw = Some s -> segment raw = ending s.
Proof.
  intros H. unfold segment, ending. destruct (String.eqb_spec raw "") as [->|Hr]; [by injection H as <-|].
  destruct (String.eqb_spec s "") as [->|]; [by apply unescape_empty in H|]. by rewrite H.
Qed.

Lemma match_ending ps l vs : Forall (fun p => p <> "/"%string) ps -> match_segments ps (map ending l) = Some vs -> match_segments ps l = Some vs.
Proof.
  intros Hps. revert l vs. induction Hps as [|p ps Hp Hps IH]; intros [|s l] vs; try done. cbn [map match_segments].
  destruct (wildcard p) as [name|].
  - destruct (String.eqb (ending s) "/") eqn:E; [done|]. destruct (match_segments ps (map ending l)) as [vs'|] eqn:Em; [|done].
    rewrite (IH _ _ Em). unfold ending in *. destruct (String.eqb s "") eqn:Es; [done|]. by rewrite E.
  - unfold ending at 1. destruct (String.eqb_spec s "") as [->|]; [|destruct (String.eqb p s); eauto].
    by destruct (String.eqb_spec p "/") as [->|].
Qed.

Lemma find_pattern_some {H} (patterns : list (string * string * H)) method path h vs : find_pattern patterns method path = Some (h, vs) ->
  exists m p, (m, p, h) ∈ patterns /\ match_method m method = true /\ match_pattern p path = Some vs.
Proof.
  induction patterns as [|[[m p] h'] rest IH]; [done|]. cbn [find_pattern]. destruct (match_method m method) eqn:Em.
  - destruct (match_pattern p path) as [vs'|] eqn:Ep.
    + intros [= <- <-]. exists m, p. split; [by left|done].
    + intros Hf. destruct (IH Hf) as (m' & p' & Hin & Hr). exists m', p'. split; [by right|done].
  - intros Hf. destruct (IH Hf) as (m' & p' & Hin & Hr). exists m', p'. split; [by right|done].
Qed.

(** The handler that was found is one whose pattern the unescaped path has. *)
Lemma mux_path {H} (patterns : list (string * string * H)) method path raw h vs :
  ServeHTTP patterns method path raw = Handle h vs ->
  exists m p, (m, p, h) ∈ patterns /\ match_method m method = true /\
    (method <> "CONNECT"%string -> Forall (fun x => x <> "/"%string) (segments p) ->
     exists l, path = String slash (Join l "/") /\ match_segments (segments p) l = Some vs).
Proof.
  unfold ServeHTTP. cbv zeta. intros Hs. destruct (_ && negb (clean _)) eqn:Ec; [done|].
  destruct (find_pattern _ _ _) as [[h' vs']|] eqn:Ef; [|by destruct (existsb _ _)]. injection Hs as -> ->.
  apply find_pattern_some in Ef as (m & p & Hin & Hm & Hp). exists m, p. split; [done|]. split; [done|]. intros Hne Hps.
  rewrite (proj2 (String.eqb_neq _ _) Hne) in Ec. simpl in Ec. apply negb_false_iff in Ec. unfold clean in Ec.
  pose proof (unescape_EscapedPath path raw) as Hu. unfold match_pattern, segments in Hp. fold (segments p) in Hp.
  destruct (EscapedPath path raw) as [|c rest]; [done|]. unfold rooted in *. destruct (Ascii.eqb_spec c slash) as [->|]; [|done]. cbn [default] in Hp. unfold id in Hp.
  change (unescape (String slash rest)) with (out ← unescape rest; Some (String slash out)) in Hu.
  destruct (unescape rest) as [out|] eqn:Er; [|done]. cbn [mbind option_bind] in Hu. injection Hu as <-.
  destruct (unescape_Split _ _ _ (Nat.le_refl _) Er) as (l & Hl & _ & ->). exists l. split; [done|]. apply match_ending; [done|].
  rewrite <- Hp. f_equal. clear -Hl. revert Hl. generalize (Split rest slash). intros raws Hl.
  induction Hl as [|raw s raws l Hs Hl IH]; [done|]. cbn [map]. by rewrite IH, (segment_ending _ _ Hs).
Qed.

End ServeMux.
