(* ===== verification/HttpAdmin.v ===== *)
(** * The administration API: [internal/api/admin.go], [admin_write.go],
      [admin_quota_groups.go], [feedback_publication.go], [admin_templates.go]

    A request is authenticated by a bearer token ([bearer]) or by a session of
    the console, checked against the role of who sent it, routed, and served by
    one handler.  The handlers that change something are modelled to the end,
    and those that read templates; the other readers are handed on ([Handed]).

    Decoding a body into a struct, with unknown fields refused, is
    [encoding/json]'s: an argument per struct ([BodyDecoder]). *)

From S2P Require Import Prelude Sha256 GoText TextFacts JsonText Calendar Delivery SmtpStream SmtpClient Provider Database Auth Suppression Message WebhookHttp Storage Queue AesGcm Credentials Retention ApiReceive FeedbackParse Feedback Publication ProviderAdmin JsonTokens JsonMessage Templates SendJson Catalog HttpSend ServeMux.

Module HttpAdmin.

Import JsonTokens JsonMessage Templates SendJson Catalog ServeMux.
Import HttpSend(Request, rq_Path, rq_RawPath, rq_RawQuery, rq_Method, rq_Values, rq_Body, Get, HasSuffix, ends_well).

(** ** Principals *)

Record Principal := MkPrincipal { pr_ID : string; pr_Role : string; pr_Token : string }.
Record credential := MkCredential { cr_id : string; cr_role : string; cr_hash : list byte }.

(** The principals, and whether the text ends after them *)
Class PrincipalsDecoder := decode_principals : string -> option (list Principal * bool).

Definition id_char (c : ascii) : bool := alphanumeric c || among "._-" c.
Definition token_char (c : ascii) : bool := in_range 33 126 c.
Definition roles : list string := ["viewer"; "operator"; "admin"]%string.
Definition principal_ok (p : Principal) : bool :=
  (1 <=? String.length (pr_ID p))%nat && (String.length (pr_ID p) <=? 128)%nat && all_chars id_char (pr_ID p)
  && one_of (pr_Role p) roles && (32 <=? String.length (pr_Token p))%nat && (String.length (pr_Token p) <=? 512)%nat
  && all_chars token_char (pr_Token p).
Fixpoint principals_ok (ids tokens : list string) (l : list Principal) : bool :=
  match l with
  | [] => true
  | p :: rest => principal_ok p && negb (one_of (pr_ID p) ids) && negb (one_of (pr_Token p) tokens)
                 && principals_ok (pr_ID p :: ids) (pr_Token p :: tokens) rest
  end.
Definition ParsePrincipals {decoder : PrincipalsDecoder} (raw : string) : option (list Principal) :=
  if String.eqb raw "" then Some []
  else if (32768 <? Z.of_nat (String.length raw)) then None
  else match decode_principals raw with
  | Some (out, true) =>
      if (1 <=? length out)%nat && (length out <=? 32)%nat && principals_ok [] [] out then Some out else None
  | _ => None
  end.
Definition credentials (l : list Principal) : list credential :=
  map (fun p => MkCredential (pr_ID p) (pr_Role p) (Sha.Sum256 (bytes_of (pr_Token p)))) l.

(** ** Answers *)

Inductive Handler :=
| TemplateIdentities | TemplateDraftList | TemplateDraftSave | TemplateDraftSource | TemplateDraftPublish | TemplateDraftPreview
| TemplateVersionList | TemplateVersionRetire | CapacityStatistics | QuotaGroups | QuotaGroup | WriteQuotaGroup | AttachQuotaGroup
| FeedbackLink | FeedbackLinks | FeedbackReview | FeedbackList | FeedbackCapacity | FeedbackDetail | FeedbackExplain
| FeedbackCandidates | Providers | Provider | CreateProvider | ConfigureProvider | RotateProvider | Messages | Message
| Recipients | Attempts | Events | Suppressions | AddSuppression | ReleaseSuppression | Resolve.

Inductive Reply {html : HtmlTemplates} :=
| Status (code : Z) (status : string)
| Output (code : Z) (v : json)
| Published (code : Z) (p : Publication.Publication)
| Drafts (items : list TemplateDraft)
| Versions (items : list PublishedTemplate)
| Source (t : SendTemplate)
| Preview (identity : string) (revision : Z) (t : SendTemplate) (v : jsonMessage)
| NotRouted
| Handed (h : Handler).
Arguments Reply : clear implicits.

(** ** Bodies *)

Record CreateBody := MkCreateBody { cb_ID : string; cb_Settings : ProviderAdmin.Settings; cb_Password : string; cb_Reason : string }.
Record ConfigureBody := MkConfigureBody { cf_Expected : Z; cf_Settings : ProviderAdmin.Settings; cf_Reason : string }.
Record RotateBody := MkRotateBody { rb_Expected : Z; rb_Password : string; rb_Reason : string }.
Record SuppressBody := MkSuppressBody { sb_Email : string; sb_Category : string; sb_Reason : string; sb_ExpiresAt : option Time }.
Record ReleaseBody := MkReleaseBody { lb_Reason : string }.
Record ResolveBody := MkResolveBody { vb_Expected : string; vb_Action : string; vb_Reason : string; vb_Acknowledge : bool }.
Record GroupBody := MkGroupBody { gb_ID : string; gb_Expected : Z; gb_Settings : ProviderAdmin.QuotaGroupSettings; gb_Reason : string }.
Record AttachBody := MkAttachBody { tb_GroupID : string; tb_Expected : Z; tb_Reason : string }.
Record SaveBody := MkSaveBody { vs_Expected : option Z; vs_Template : list byte; vs_Reason : string }.
Record PublishBody := MkPublishBody { pb_Revision : Z; pb_Version : string; pb_Reason : string }.
Record RetireBody := MkRetireBody { eb_Reason : string; eb_Acknowledge : bool }.
Record LoginBody := MkLoginBody { nb_ID : string; nb_Password : string }.
Record PreviewBody := MkPreviewBody { wb_Revision : Z; wb_Version : string; wb_Language : string; wb_Variables : list byte }.

Inductive Shape : Type -> Type :=
| CreateShape : Shape CreateBody | ConfigureShape : Shape ConfigureBody | RotateShape : Shape RotateBody
| SuppressShape : Shape SuppressBody | ReleaseShape : Shape ReleaseBody | ResolveShape : Shape ResolveBody
| GroupShape : Shape GroupBody | AttachShape : Shape AttachBody
| LinkShape : Shape Publication.LinkRequest | ReviewShape : Shape Publication.ReviewRequest
| SaveShape : Shape SaveBody | PublishShape : Shape PublishBody | RetireShape : Shape RetireBody | PreviewShape : Shape PreviewBody
| LoginShape : Shape LoginBody.
Class BodyDecoder := decode_body : forall {A}, Shape A -> list byte -> option A.

Section Admin.
  Context {std : StdText} {html : HtmlTemplates} {tokenizer : Tokenizer} {lower : LowerCase} {decoder : TemplateDecoder}
    {bodies : BodyDecoder} {parser : UuidParser} {addresses : MailParser} {mime : FeedbackParse.Mime} {ips : ProviderAdmin.IPParser}.

Definition respond (code : Z) (status : string) : Reply html := Status code status.

(** A handler that may have answered already *)
Definition after {A} (db : DB) (m : Reply html + A) (f : A -> Reply html * DB) : Reply html * DB :=
  match m with inl a => (a, db) | inr x => f x end.

Definition limitedBody {A} (s : Shape A) (r : Request) (limit : Z) : Reply html + A :=
  match ParseMediaType (Get r "Content-Type") with
  | Some (media, _) =>
      if negb (String.eqb media "application/json") then inl (respond 415 "json_required")
      else
        let raw := ApiReceive.delivered (rq_Body r) in
        if negb (ends_well (rq_Body r)) || (limit <? Z.of_nat (length raw)) || negb (ValidString (string_of_list_byte raw))
           || negb (uniqueJSON (NewDecoder raw))
        then inl (respond 400 "invalid_json")
        else match decode_body s raw with Some v => inr v | None => inl (respond 400 "invalid_json") end
  | None => inl (respond 415 "json_required")
  end.
Definition body {A} (s : Shape A) (r : Request) : Reply html + A := limitedBody s r 16384.

Definition PathValue (values : PathValues) (name : string) : string :=
  match List.find (fun kv => String.eqb (fst kv) name) values with Some (_, v) => v | None => EmptyString end.
(** The text of the identifier and what it was read as *)
Definition pathID (values : PathValues) : Reply html + string * UUID :=
  let id := PathValue values "id" in
  match ParseUUID id with Some u => inr (id, u) | None => inl (respond 400 "invalid_id") end.

(** [errors.Is] for the errors that are texts *)
Definition is_error (target e : DBErr) : bool :=
  match target, e with ErrText a, ErrText b => String.eqb a b | _, _ => false end.

(** [failure]; whether an error of the database is a violation of a unique index *)
Definition failure (violation : bool) (e : DBErr) : Reply html :=
  match e with
  | ErrNoRows => respond 404 "not_found"
  | ErrExpired => respond 409 "message_expired"
  | ErrActive | ErrStale | ErrBlocked | ErrStaleResolution => respond 409 "state_conflict"
  | ErrSQL => if violation then respond 409 "state_conflict" else respond 503 "operation_failed"
  | _ => if is_error ProviderAdmin.ErrInvalid e then respond 400 "invalid_request"
         else if is_error ProviderAdmin.ErrConflict e then respond 409 "state_conflict"
         else respond 503 "operation_failed"
  end.
Definition publicationFailure (violation : bool) (e : DBErr) : Reply html :=
  if is_error Feedback.ErrInvalidPublication e then respond 400 "invalid_request"
  else if is_error Feedback.ErrPublication e then respond 409 "feedback_conflict"
  else failure violation e.
Definition templateFailure (violation : bool) (e : DBErr) : Reply html :=
  if is_error ErrTemplateDraftConflict e then respond 409 "draft_revision_conflict"
  else if is_error ErrTemplateCatalog e then respond 400 "invalid_template_or_limits"
  else failure violation e.

(** ** What the system gives one request

    The transaction of the handler, the clock and the nonce of the process, the
    database a query before it sees ([None]: it fails), and that of one after. *)
Record Env := MkEnv {
  ev_world : World; ev_violation : bool; ev_now : Time; ev_rand : option (list byte); ev_lookup : option DB; ev_heads : World * DB }.

Definition answered {A} (fail : DBErr -> Reply html) (ok : A -> Reply html) (x : (DBErr + A) * DB) : Reply html * DB :=
  (match fst x with inl e => fail e | inr a => ok a end, snd x).
Definition run {A} (ev : Env) (fail : bool -> DBErr -> Reply html) (tx : M (TxEnd A)) (ok : A -> Reply html) (db : DB) : Reply html * DB :=
  answered (fail (ev_violation ev)) ok (transact (ev_world ev) tx db).

(** ** [admin_write.go] *)

Definition validReason (s : string) : bool :=
  negb (String.eqb (TrimSpace s) "") && (String.length s <=? 2048)%nat && ValidString s && negb (Encryption.has_nul s).

Definition revised (code : Z) (id : string) (rev : Z) : Reply html := Output code (JObj [("id", JStr id); ("revision", JNum rev)]%string).
Definition no_settings : ProviderAdmin.Settings := ProviderAdmin.MkSettings "" "" 0 "" "" 0 0 0 0 0 [] false.

Definition createProvider (ev : Env) (box : option Encryption.Box) (actor : string) (r : Request) (db : DB) : Reply html * DB :=
  after db (body CreateShape r) (fun v =>
    run ev failure (ProviderAdmin.Manage box (ev_rand ev) "create" (cb_ID v) 0 (cb_Settings v) (cb_Password v) actor (cb_Reason v))
      (revised 201 (cb_ID v)) db).

Definition configureProvider (ev : Env) (box : option Encryption.Box) (actor : string) (values : PathValues) (r : Request) (db : DB) : Reply html * DB :=
  after db (pathID values) (fun id => after db (body ConfigureShape r) (fun v =>
    run ev failure (ProviderAdmin.Manage box (ev_rand ev) "configure" (fst id) (cf_Expected v) (cf_Settings v) "" actor (cf_Reason v))
      (revised 200 (fst id)) db)).

Definition rotateProvider (ev : Env) (box : option Encryption.Box) (actor : string) (values : PathValues) (r : Request) (db : DB) : Reply html * DB :=
  after db (pathID values) (fun id => after db (body RotateShape r) (fun v =>
    run ev failure (ProviderAdmin.Manage box (ev_rand ev) "credentials" (fst id) (rb_Expected v) no_settings (rb_Password v) actor (rb_Reason v))
      (revised 200 (fst id)) db)).

Definition email_ok (email : string) : bool :=
  match ParseAddress email with
  | Some (_, address) => String.eqb address email && (String.length email <=? 320)%nat && negb (ContainsAny email Feedback.line_breaks)
                         && ValidString email
  | None => false
  end.

Definition addSuppression (ev : Env) (actor : string) (r : Request) (db : DB) : Reply html * DB :=
  after db (body SuppressShape r) (fun v =>
    if negb (email_ok (sb_Email v)) || negb (one_of (sb_Category v) Suppression.categories) || negb (validReason (sb_Reason v))
       || match sb_ExpiresAt v with Some t => negb (ev_now ev <? t) | None => false end
    then (respond 400 "invalid_request", db)
    else run ev failure (Suppression.Add (sb_Email v) (sb_Category v) actor (sb_Reason v) (sb_ExpiresAt v))
           (fun id => Output 201 (JObj [("id", JId id)]%string)) db).

Definition releaseSuppression (ev : Env) (actor : string) (values : PathValues) (r : Request) (db : DB) : Reply html * DB :=
  after db (pathID values) (fun id => after db (body ReleaseShape r) (fun v =>
    if negb (validReason (lb_Reason v)) then (respond 400 "invalid_request", db)
    else run ev failure (Suppression.Release (snd id) actor (lb_Reason v))
           (fun _ => Output 200 (JObj [("id", JStr (fst id)); ("status", JStr "released")]%string)) db)).

Definition action_of (s : string) : option Queue.ResolveAction :=
  if String.eqb s "retry" then Some Queue.retry else if String.eqb s "mark-delivered" then Some Queue.mark_delivered
  else if String.eqb s "mark-failed" then Some Queue.mark_failed else None.

Definition resolve (ev : Env) (actor : string) (values : PathValues) (r : Request) (db : DB) : Reply html * DB :=
  after db (pathID values) (fun id => after db (body ResolveShape r) (fun v =>
    match ParseUUID (vb_Expected v), action_of (vb_Action v) with
    | Some _, Some action =>
        if negb (validReason (vb_Reason v)) || (String.eqb (vb_Action v) "retry" && negb (vb_Acknowledge v)) then (respond 400 "invalid_request", db)
        else run ev failure (Queue.ResolveUnknown (Queue.MkResolution (snd id) (vb_Expected v) action actor (vb_Reason v) (vb_Acknowledge v)))
               (fun audit => Output 200 (JObj [("audit_id", JId audit)]%string)) db
    | _, _ => (respond 400 "invalid_request", db)
    end)).

(** ** [admin_quota_groups.go] *)

Definition writeQuotaGroup (ev : Env) (actor : string) (values : PathValues) (r : Request) (db : DB) : Reply html * DB :=
  after db (body GroupShape r) (fun v =>
    let create := String.eqb (rq_Method r) "POST" in
    after db (if create then inr (gb_ID v)
              else match pathID values with
              | inl a => inl a
              | inr (id, _) => if negb (String.eqb (gb_ID v) "") && negb (String.eqb (gb_ID v) id) then inl (respond 400 "invalid_request") else inr id
              end) (fun id =>
      run ev failure (ProviderAdmin.ManageQuotaGroup create id (gb_Expected v) (gb_Settings v) actor (gb_Reason v))
        (revised (if create then 201 else 200) id) db)).

Definition attachQuotaGroup (ev : Env) (actor : string) (values : PathValues) (r : Request) (db : DB) : Reply html * DB :=
  after db (pathID values) (fun id => after db (body AttachShape r) (fun v =>
    run ev failure (ProviderAdmin.AttachQuotaGroup (fst id) (tb_GroupID v) (tb_Expected v) actor (tb_Reason v))
      (fun rev => Output 200 (JObj [("id", JStr (fst id)); ("quota_group_id", JStr (tb_GroupID v)); ("revision", JNum rev)]%string)) db)).

(** ** [feedback_publication.go] *)

Definition feedbackLink (ev : Env) (actor : string) (values : PathValues) (r : Request) (db : DB) : Reply html * DB :=
  after db (pathID values) (fun id => after db (body LinkShape r) (fun v =>
    if negb (String.eqb (Feedback.iq_FeedbackID (Publication.lq_Inspect v)) (fst id)) then (respond 400 "invalid_request", db)
    else run ev publicationFailure (Publication.Link v actor) (Published 201) db)).

Definition feedbackReview (ev : Env) (actor : string) (values : PathValues) (r : Request) (db : DB) : Reply html * DB :=
  after db (pathID values) (fun id => after db (body ReviewShape r) (fun v =>
    run ev publicationFailure (Publication.Review (fst id) v actor) (Published 200) db)).

(** ** [admin_templates.go] *)

(** [templateIdentity]; the answer of its query for the website *)
Definition templateIdentity (ev : Env) (values : PathValues) (r : Request) : Reply html + string :=
  match pathID values with
  | inl a => inl a
  | inr (id, u) =>
      if negb (String.eqb (rq_RawQuery r) "") then inl (respond 400 "invalid_query")
      else match ev_lookup ev with
      | None => inl (failure (ev_violation ev) ErrSQL)
      | Some db =>
          match api_keys db !! u with
          | Some k => if String.eqb (k_prefix k) "rts_" then inr id else inl (failure (ev_violation ev) ErrNoRows)
          | None => inl (failure (ev_violation ev) ErrNoRows)
          end
      end
  end.

Definition templateDraftSave (ev : Env) (actor : string) (values : PathValues) (r : Request) (db : DB) : Reply html * DB :=
  after db (limitedBody SaveShape r (Z.shiftl 34 10)) (fun v =>
    match vs_Expected v, vs_Template v with
    | Some expected, (_ :: _) as template =>
        after db (templateIdentity ev values r) (fun id =>
          run ev templateFailure (SaveTemplateDraft id expected template actor (vs_Reason v))
            (fun rr => Output 200 (JObj [("saved", JBool true); ("revision", JNum (fst rr)); ("replayed", JBool (snd rr));
                                         ("activation", JStr "draft_only")]%string)) db)
    | _, _ => (respond 400 "invalid_request", db)
    end).

Definition templateDraftPublish (ev : Env) (actor : string) (values : PathValues) (r : Request) (db : DB) : Reply html * DB :=
  after db (body PublishShape r) (fun v => after db (templateIdentity ev values r) (fun id =>
    run ev templateFailure (PublishTemplateDraft id (PathValue values "name") (pb_Revision v) (pb_Version v) actor (pb_Reason v))
      (fun replayed => Output 200 (JObj [("published", JBool true); ("replayed", JBool replayed);
                                         ("activation", JStr "explicit_identity_opt_in_and_restart")]%string)) db)).

Definition templateVersionRetire (ev : Env) (actor : string) (values : PathValues) (r : Request) (db : DB) : Reply html * DB :=
  after db (body RetireShape r) (fun v =>
    if negb (eb_Acknowledge v) then (respond 400 "retry_window_acknowledgement_required", db)
    else after db (templateIdentity ev values r) (fun id =>
      run ev templateFailure (RetireTemplate id (PathValue values "name") (PathValue values "version") actor (eb_Reason v))
        (fun replayed => Output 200 (JObj [("retired", JBool true); ("replayed", JBool replayed); ("activation", JStr "restart_required")]%string)) db)).

(** Reads; a read-only transaction, and a query of its own *)
Definition read_draft (ev : Env) (id name : string) (revision : Z) (db : DB) : DBErr + SendTemplate :=
  fst (transact (ev_world ev) (GetTemplateDraft id name revision) db).
Definition read_rows {A} (w : World) (m : M A) (db : DB) : DBErr + A := match m w (0%nat, db) with inl e => inl e | inr (a, _) => inr a end.

Definition templateDraftList (ev : Env) (values : PathValues) (r : Request) (db : DB) : Reply html :=
  match templateIdentity ev values r with
  | inl a => a
  | inr id => match read_rows (ev_world ev) (ListTemplateDrafts id) db with
              | inl e => templateFailure (ev_violation ev) e
              | inr items => Drafts items
              end
  end.
Definition templateVersionList (ev : Env) (values : PathValues) (r : Request) (db : DB) : Reply html :=
  match templateIdentity ev values r with
  | inl a => a
  | inr id => match read_rows (ev_world ev) (ListPublishedTemplates id) db with
              | inl e => templateFailure (ev_violation ev) e
              | inr items => Versions items
              end
  end.

Definition revision_of (s : string) : option Z :=
  match ParseInt s with
  | Some n => if (1 <=? n) && (n <=? 64) && String.eqb (FormatInt n) s then Some n else None
  | None => None
  end.
Definition templateDraftSource (ev : Env) (who : credential) (values : PathValues) (r : Request) (db : DB) : Reply html :=
  if String.eqb (cr_role who) "viewer" then respond 403 "forbidden"
  else
    let name := PathValue values "name" in
    match revision_of (PathValue values "revision") with
    | Some revision =>
        if negb (templateName name) then respond 400 "invalid_revision"
        else match templateIdentity ev values r with
        | inl a => a
        | inr id => match read_draft ev id name revision db with
                    | inl e => templateFailure (ev_violation ev) e
                    | inr t => Source t
                    end
        end
    | None => respond 400 "invalid_revision"
    end.

Definition templateDraftPreview (ev : Env) (values : PathValues) (r : Request) (db : DB) : Reply html :=
  match body PreviewShape r with
  | inl a => a
  | inr v =>
      match templateIdentity ev values r with
      | inl a => a
      | inr id =>
          match read_draft ev id (PathValue values "name") (wb_Revision v) db with
          | inl e => templateFailure (ev_violation ev) e
          | inr source =>
              if negb (String.eqb (te_Version source) (wb_Version v)) || negb (String.eqb (te_Language source) (wb_Language v))
              then respond 400 "invalid_template_preview"
              else match read_rows (fst (ev_heads ev)) (ListTemplateDrafts id) (snd (ev_heads ev)) with
              | inl e => templateFailure (ev_violation ev) e
              | inr heads =>
                  if negb (existsb (fun h => String.eqb (dr_ID h) (te_ID source) && (dr_Revision h =? wb_Revision v)) heads)
                  then respond 409 "draft_revision_conflict"
                  else match PreviewTemplateJSON (bytes_of (Catalog.marshal_template source)) (wb_Variables v) with
                  | None => respond 400 "invalid_template_preview"
                  | Some m => Preview id (wb_Revision v) source m
                  end
              end
          end
      end
  end.

(** ** Routing and roles: [operations] *)

Definition patterns : list (string * string * Handler) :=
  [("GET", "/admin/v1/template-identities", TemplateIdentities);
   ("GET", "/admin/v1/templates/{id}/drafts", TemplateDraftList);
   ("POST", "/admin/v1/templates/{id}/drafts", TemplateDraftSave);
   ("GET", "/admin/v1/templates/{id}/drafts/{name}/revisions/{revision}", TemplateDraftSource);
   ("POST", "/admin/v1/templates/{id}/drafts/{name}/publish", TemplateDraftPublish);
   ("POST", "/admin/v1/templates/{id}/drafts/{name}/preview", TemplateDraftPreview);
   ("GET", "/admin/v1/templates/{id}/versions", TemplateVersionList);
   ("POST", "/admin/v1/templates/{id}/versions/{name}/{version}/retire", TemplateVersionRetire);
   ("GET", "/admin/v1/statistics", CapacityStatistics);
   ("GET", "/admin/v1/provider-quota-groups", QuotaGroups);
   ("GET", "/admin/v1/provider-quota-groups/{id}", QuotaGroup);
   ("POST", "/admin/v1/provider-quota-groups", WriteQuotaGroup);
   ("PUT", "/admin/v1/provider-quota-groups/{id}", WriteQuotaGroup);
   ("POST", "/admin/v1/providers/{id}/quota-group", AttachQuotaGroup);
   ("POST", "/admin/v1/feedback/{id}/links", FeedbackLink);
   ("GET", "/admin/v1/feedback/{id}/links", FeedbackLinks);
   ("POST", "/admin/v1/feedback-links/{id}/reviews", FeedbackReview);
   ("GET", "/admin/v1/feedback", FeedbackList);
   ("GET", "/admin/v1/feedback-capacity", FeedbackCapacity);
   ("GET", "/admin/v1/feedback/{id}", FeedbackDetail);
   ("GET", "/admin/v1/feedback/{id}/explanation", FeedbackExplain);
   ("GET", "/admin/v1/feedback/{id}/candidates", FeedbackCandidates);
   ("GET", "/admin/v1/providers", Providers);
   ("GET", "/admin/v1/providers/{id}", Provider);
   ("POST", "/admin/v1/providers", CreateProvider);
   ("PUT", "/admin/v1/providers/{id}", ConfigureProvider);
   ("POST", "/admin/v1/providers/{id}/credentials", RotateProvider);
   ("GET", "/admin/v1/messages", Messages);
   ("GET", "/admin/v1/messages/{id}", Message);
   ("GET", "/admin/v1/messages/{id}/recipients", Recipients);
   ("GET", "/admin/v1/messages/{id}/attempts", Attempts);
   ("GET", "/admin/v1/messages/{id}/events", Events);
   ("GET", "/admin/v1/suppressions", Suppressions);
   ("POST", "/admin/v1/suppressions", AddSuppression);
   ("POST", "/admin/v1/suppressions/{id}/release", ReleaseSuppression);
   ("POST", "/admin/v1/recipients/{id}/resolve-unknown", Resolve)]%string.

Definition handle (ev : Env) (box : option Encryption.Box) (who : credential) (h : Handler) (values : PathValues) (r : Request) (db : DB) : Reply html * DB :=
  let actor := cr_id who in
  match h with
  | CreateProvider => createProvider ev box actor r db
  | ConfigureProvider => configureProvider ev box actor values r db
  | RotateProvider => rotateProvider ev box actor values r db
  | AddSuppression => addSuppression ev actor r db
  | ReleaseSuppression => releaseSuppression ev actor values r db
  | Resolve => resolve ev actor values r db
  | WriteQuotaGroup => writeQuotaGroup ev actor values r db
  | AttachQuotaGroup => attachQuotaGroup ev actor values r db
  | FeedbackLink => feedbackLink ev actor values r db
  | FeedbackReview => feedbackReview ev actor values r db
  | TemplateDraftSave => templateDraftSave ev actor values r db
  | TemplateDraftPublish => templateDraftPublish ev actor values r db
  | TemplateVersionRetire => templateVersionRetire ev actor values r db
  | TemplateDraftList => (templateDraftList ev values r db, db)
  | TemplateVersionList => (templateVersionList ev values r db, db)
  | TemplateDraftSource => (templateDraftSource ev who values r db, db)
  | TemplateDraftPreview => (templateDraftPreview ev values r db, db)
  | _ => (Handed h, db)
  end.

Definition writing (r : Request) : bool := negb (String.eqb (rq_Method r) "GET") && negb (String.eqb (rq_Method r) "HEAD").
Definition admin_path (path : string) : bool :=
  HasPrefix path "/admin/v1/feedback" || HasPrefix path "/admin/v1/providers" || HasPrefix path "/admin/v1/provider-quota-groups"
  || HasPrefix path "/admin/v1/templates/" && (HasSuffix path "/publish" || HasSuffix path "/retire").
Definition forbidden (who : credential) (r : Request) : bool :=
  writing r && (String.eqb (cr_role who) "viewer" || admin_path (rq_Path r) && negb (String.eqb (cr_role who) "admin")).

(** [busy]: eight requests are being served *)
Definition operations (ev : Env) (box : option Encryption.Box) (busy : bool) (who : credential) (r : Request) (db : DB) : Reply html * DB :=
  if forbidden who r then (respond 403 "forbidden", db)
  else if busy then (respond 503 "busy", db)
  else match ServeHTTP patterns (rq_Method r) (rq_Path r) (rq_RawPath r) with
  | Handle h values => handle ev box who h values r db
  | _ => (NotRouted, db)
  end.

(** ** Bearer tokens *)

Definition last_credential (hash : list byte) (creds : list credential) : option credential :=
  fold_left (fun who c => if bool_decide (hash = cr_hash c) then Some c else who) creds None.

Definition bearer_credential (creds : list credential) (r : Request) : option credential :=
  match Cut (Get r "Authorization") " " with
  | Some (scheme, token) =>
      if EqualFold scheme "Bearer" && (String.length token <=? 512)%nat && (length (rq_Values r "Authorization") =? 1)%nat
      then last_credential (Sha.Sum256 (bytes_of token)) creds else None
  | None => None
  end.

Definition bearer (creds : list credential) (ev : Env) (box : option Encryption.Box) (busy : bool) (r : Request) (db : DB) : Reply html * DB :=
  match bearer_credential creds r with
  | None => (respond 401 "unauthorized", db)
  | Some who =>
      if negb (String.eqb (Get r "Origin") "") || String.eqb (Get r "Sec-Fetch-Site") "cross-site"
      then (respond 403 "browser_origin_not_supported", db)
      else operations ev box busy who r db
  end.

End Admin.

End HttpAdmin.
