(* ===== verification/Console.v ===== *)
(** * The console: [internal/api/browser.go]

    Users sign in with a password and get a session: a cookie whose SHA-256 is
    the key of the session, and a CSRF token.  A request of a session under
    [/console/api/] is one of the administration API, made by the session's
    user.

    The state that requests share is [browserState].  A request takes its mutex
    at most twice: signing in is admitted ([admit_login]), then the password is
    verified, then the session is opened ([open_session]); in between other
    requests may run, so that [console] answers [LoggingIn] and [login] is the
    rest.  [net/url], [net.ParseIP] and the parsing of cookies are arguments. *)

From S2P Require Import Prelude Sha256 GoText TextFacts JsonText Calendar Delivery SmtpStream SmtpClient Provider Database Auth Suppression Message WebhookHttp Storage Queue Worker QueueOps QueueSpec Demo System AesGcm Credentials Retention Admission ApiReceive FeedbackParse Feedback Publication ProviderAdmin JsonTokens JsonMessage Templates SendJson Catalog HttpSend ServeMux HttpAdmin HttpAdminSpec.

Module Console.

Import JsonTokens JsonMessage Templates SendJson Catalog ServeMux HttpAdmin HttpAdminSpec.
Import HttpSend(Request, MkRequest, rq_Path, rq_RawPath, rq_RawQuery, rq_Method, rq_Values, rq_ContentLength, rq_Body, Get, TrimPrefix).

(** ** Configuration *)

Record WebUser := MkWebUser { wu_ID : string; wu_Role : string; wu_PasswordHash : string }.
Record WebConfig := MkWebConfig { wc_Origin : string; wc_Users : string }.

(** [url.Parse]: the fields of an origin *)
Record Origin := MkOrigin {
  or_Scheme : string; or_Host : string; or_Hostname : string; or_User : bool; or_Path : string; or_RawQuery : string; or_Fragment : string }.
Class Web := MkWeb {
  parse_origin : string -> option Origin;
  decode_users : string -> option (list WebUser * bool);   (* and whether the text ends after them *)
  ParseIP : string -> option Hook.Addr;
  SplitHost : string -> string;                            (* net.SplitHostPort; empty on an error *)
  ip_text : Hook.Addr -> string }.

Definition origin_ok {web : Web} (o : Origin) : bool :=
  negb (String.eqb (or_Host o) "") && negb (or_User o) && String.eqb (or_Path o) "" && String.eqb (or_RawQuery o) "" && String.eqb (or_Fragment o) ""
  && (String.eqb (or_Scheme o) "https"
      || String.eqb (or_Scheme o) "http"
         && (String.eqb (or_Hostname o) "localhost" || match ParseIP (or_Hostname o) with Some ip => Hook.IsLoopback ip | None => false end)).

(** The principal a user is validated as; nobody presents this token. *)
Definition user_principal (u : WebUser) : Principal :=
  MkPrincipal (wu_ID u) (wu_Role u) ("xxxxxxxxxxxxxxxxxxxxxxxxxxxxxxxx" ++ wu_ID u).

(** [ValidateWeb].  The users are checked as principals; the limit of 32768
    bytes on their encoding is out of reach of 32 users. *)
Definition ValidateWeb {web : Web} (c : WebConfig) : option (list WebUser) :=
  if String.eqb (wc_Origin c) "" && String.eqb (wc_Users c) "" then Some []
  else match parse_origin (wc_Origin c) with
  | None => None
  | Some o =>
      if negb (origin_ok o) || (32768 <? Z.of_nat (String.length (wc_Users c))) then None
      else match decode_users (wc_Users c) with
      | Some (users, true) =>
          if (1 <=? length users)%nat && (length users <=? 32)%nat && forallb (fun u => Auth.ValidHash (wu_PasswordHash u)) users
             && principals_ok [] [] (map user_principal users)
          then Some users else None
      | _ => None
      end
  end.

(** ** Sessions *)

Record browserSession := MkSession { bs_who : credential; bs_csrf : string; bs_expires : Time; bs_last : Time }.
Record loginSource := MkLoginSource { ls_credits : Admission.float64; ls_at : Time }.
(** Sessions by the digest of their token, sources by their name *)
Record browserState := MkBrowserState { sessions : gmap string browserSession; sources : gmap string loginSource }.

Definition digest (token : string) : string := string_of_list_byte (Sha.Sum256 (bytes_of token)).

Definition admit_login (now : Time) (source : string) (s : browserState) : bool * browserState :=
  let kept := filter (fun kv => (10 * Minute <? now - ls_at (snd kv)) = false) (sources s) in
  match (match kept !! source with
         | Some v => Some v
         | None => if 1024 <=? Z.of_nat (size kept) then None else Some (MkLoginSource (Admission.of_int 5) now)
         end) with
  | None => (false, MkBrowserState (sessions s) kept)
  | Some v =>
      let credits := Admission.fmin (Admission.of_int 5) (Admission.fadd (ls_credits v)
                       (Admission.fdiv (Admission.fmax (Admission.of_int 0) (Admission.Seconds (now - ls_at v))) (Admission.of_int 30))) in
      let allowed := negb (Admission.flt credits (Admission.of_int 1)) in
      let credits := if allowed then Admission.fsub credits (Admission.of_int 1) else credits in
      (allowed, MkBrowserState (sessions s) (<[source := MkLoginSource credits now]> kept))
  end.

(** Whether a session is over *)
Definition over (now : Time) (v : browserSession) : bool := negb (now <? bs_expires v) || (15 * Minute <? now - bs_last v).

(** [browserState.session] *)
Definition session (now : Time) (key : string) (s : browserState) : option browserSession * browserState :=
  match sessions s !! key with
  | Some v =>
      if over now v then (None, MkBrowserState (delete key (sessions s)) (sources s))
      else
        let v := MkSession (bs_who v) (bs_csrf v) (bs_expires v) now in
        (Some v, MkBrowserState (<[key := v]> (sessions s)) (sources s))
  | None => (None, MkBrowserState (delete key (sessions s)) (sources s))
  end.

(** The block under the mutex at the end of a login *)
Definition open_session (now : Time) (who : credential) (token csrf : string) (old : option string) (s : browserState) : bool * browserState :=
  let live := filter (fun kv => over now (snd kv) = false) (sessions s) in
  let live := match old with Some value => delete (digest value) live | None => live end in
  if 256 <=? Z.of_nat (size live) then (false, MkBrowserState live (sources s))
  else (true, MkBrowserState (<[digest token := MkSession who csrf (now + 30 * Minute) now]> live) (sources s)).
Definition close_session (key : string) (s : browserState) : browserState := MkBrowserState (delete key (sessions s)) (sources s).

(** [loginPeer]; an IPv6 source is its network of 64 bits. *)
Definition loginPeer {web : Web} (remote : string) : string :=
  match ParseIP (SplitHost remote) with
  | None | Some Hook.Invalid => "unknown"
  | Some ip =>
      match Hook.Unmap ip with
      | Hook.V6 a _ => ip_text (Hook.V6 (N.shiftl (N.shiftr a 64) 64) "")
      | ip => ip_text ip
      end
  end.

(** ** Requests *)

Record ConsoleRequest := MkConsoleRequest {
  cq_request : Request; cq_Host : string; cq_RemoteAddr : string; cq_Cookie : string -> option string }.

Inductive ConsoleReply {html : HtmlTemplates} :=
| Plain (rep : Reply html)
| Asset (file : string)
| LoggingIn
| SignedIn (who : credential) (csrf token : string) (expires : Time)   (* sets the cookie to the token *)
| SessionInfo (who : credential) (csrf : string) (expires : Time)
| SignedOut                                                            (* clears the cookie *)
| Expired                                                              (* clears the cookie *)
| NoPage.
Arguments ConsoleReply : clear implicits.

Section Console.
  Context {std : StdText} {html : HtmlTemplates} {tokenizer : Tokenizer} {lower : LowerCase} {decoder : TemplateDecoder}
    {bodies : BodyDecoder} {parser : UuidParser} {addresses : MailParser} {mime : FeedbackParse.Mime} {ips : ProviderAdmin.IPParser}
    {argon2 : Argon2} {web : Web}.

(** The handler's closure: users, origin and credentials *)
Record Site := MkSite { si_users : list WebUser; si_Origin : string; si_host : string; si_secure : bool; si_creds : list credential }.
Definition cookieName (site : Site) : string := if si_secure site then "__Host-relaytale_session" else "relaytale_session".

Definition error (code : Z) (status : string) : ConsoleReply html := Plain (Status code status).

Definition foreign (site : Site) (r : Request) : bool :=
  String.eqb (Get r "Sec-Fetch-Site") "cross-site" || writing r && negb (String.eqb (Get r "Origin") (si_Origin site))
  || negb (String.eqb (Get r "Origin") "") && negb (String.eqb (Get r "Origin") (si_Origin site)).

(** The request the administration API sees *)
Definition api_request (r : Request) : Request :=
  MkRequest ("/admin/v1/" ++ TrimPrefix (rq_Path r) "/console/api/") "" (rq_RawQuery r) (rq_Method r) (rq_Values r) (rq_ContentLength r) (rq_Body r).

Definition asset (r : Request) : option string :=
  if writing r then None
  else if String.eqb (rq_Path r) "/console/" then Some "index.html"%string
  else if String.eqb (rq_Path r) "/console/app.js" then Some "app.js"%string
  else if String.eqb (rq_Path r) "/console/app.css" then Some "app.css"%string
  else None.

(** What the system gives a request of the console: the clock, whether another
    login is being verified, whether the files are there, and the administration API's *)
Record ConsoleEnv := MkConsoleEnv { ce_now : Time; ce_verifying : bool; ce_files : bool; ce_busy : bool; ce_api : Env }.

(** A request with a session *)
Definition in_session (site : Site) (ce : ConsoleEnv) (box : option Encryption.Box) (q : ConsoleRequest) (s : browserState) (db : DB)
  : ConsoleReply html * browserState * DB :=
  let r := cq_request q in
  match cq_Cookie q (cookieName site) with
  | None => (error 401 "session_expired", s, db)
  | Some cookie =>
      if (128 <? String.length cookie)%nat then (error 401 "session_expired", s, db)
      else
        let key := digest cookie in
        let '(found, s) := session (ce_now ce) key s in
        match found with
        | None => (Expired, s, db)
        | Some v =>
            if writing r && negb (String.eqb (Get r "X-CSRF-Token") (bs_csrf v)) then (error 403 "csrf_required", s, db)
            else if String.eqb (rq_Path r) "/console/session" && String.eqb (rq_Method r) "GET"
            then (SessionInfo (bs_who v) (bs_csrf v) (bs_expires v), s, db)
            else if String.eqb (rq_Path r) "/console/logout" && String.eqb (rq_Method r) "POST" then (SignedOut, close_session key s, db)
            else if HasPrefix (rq_Path r) "/console/api/" then
              let (rep, db') := operations (ce_api ce) box (ce_busy ce) (bs_who v) (api_request r) db in (Plain rep, s, db')
            else (NoPage, s, db)
        end
  end.

Definition console (site : Site) (ce : ConsoleEnv) (box : option Encryption.Box) (q : ConsoleRequest) (s : browserState) (db : DB)
  : ConsoleReply html * browserState * DB :=
  let r := cq_request q in
  if negb (HasPrefix (rq_Path r) "/console/") then
    let (rep, db') := bearer (si_creds site) (ce_api ce) box (ce_busy ce) r db in (Plain rep, s, db')
  else if negb (EqualFold (cq_Host q) (si_host site)) || foreign site r then (error 403 "origin_mismatch", s, db)
  else match asset r with
  | Some file => ((if ce_files ce then Asset file else error 503 "assets_unavailable"), s, db)
  | None =>
      if String.eqb (rq_Path r) "/console/login" && String.eqb (rq_Method r) "POST" then
        let '(ok, s) := admit_login (ce_now ce) (loginPeer (cq_RemoteAddr q)) s in
        if negb ok || ce_verifying ce then (error 429 "login_throttled", s, db) else (LoggingIn, s, db)
      else in_session site ce box q s db
  end.

(** The user of that name; the last of equal ones *)
Definition find_user (users : list WebUser) (id : string) : option WebUser :=
  fold_left (fun found u => if String.eqb (wu_ID u) id then Some u else found) users None.

(** The rest of a login; [cancelled]: the client is gone *)
Definition login (site : Site) (now : Time) (cancelled : bool) (token csrf : string) (q : ConsoleRequest) (s : browserState)
  : ConsoleReply html * browserState :=
  match body LoginShape (cq_request q) with
  | inl rep => (Plain rep, s)
  | inr v =>
      let found := find_user (si_users site) (nb_ID v) in
      let hash := match found, si_users site with Some u, _ | None, u :: _ => wu_PasswordHash u | None, [] => EmptyString end in
      match Auth.Verify hash (nb_Password v), found with
      | true, Some u =>
          if cancelled then (error 503 "cancelled", s)
          else
            let who := MkCredential (wu_ID u) (wu_Role u) [] in
            let '(ok, s) := open_session now who token csrf (cq_Cookie q (cookieName site)) s in
            if ok then (SignedIn who csrf token (now + 30 * Minute), s) else (error 503 "session_capacity", s)
      | _, _ => (error 401 "invalid_login", s)
      end
  end.

(** [Management.browser] *)
Definition browser (c : WebConfig) (creds : list credential) : option Site :=
  match ValidateWeb c, parse_origin (wc_Origin c) with
  | Some users, Some o => Some (MkSite users (wc_Origin c) (or_Host o) (String.eqb (or_Scheme o) "https") creds)
  | _, _ => None
  end.

(** ** Runs *)

(** The shared state, the database, and the login being verified *)
Record Desk := MkDesk { dk_state : browserState; dk_db : DB; dk_pending : option ConsoleRequest }.
Definition pending_after (rep : ConsoleReply html) (q : ConsoleRequest) (pending : option ConsoleRequest) : option ConsoleRequest :=
  match rep with LoggingIn => Some q | _ => pending end.

(** Requests in any order, the ends of logins, and other programs *)
Inductive desk_step (site : Site) : Desk -> Desk -> Prop :=
| desk_request ce box q d rep s db :
    ce_verifying ce = not_null (dk_pending d) -> console site ce box q (dk_state d) (dk_db d) = (rep, s, db) ->
    desk_step site d (MkDesk s db (pending_after rep q (dk_pending d)))
| desk_login now cancelled token csrf q d rep s :
    dk_pending d = Some q -> login site now cancelled token csrf q (dk_state d) = (rep, s) -> desk_step site d (MkDesk s (dk_db d) None)
| desk_other d db : desk_step site d (MkDesk (dk_state d) db (dk_pending d)).

Definition desk_start (db : DB) : Desk := MkDesk (MkBrowserState ∅ ∅) db None.

(** A session of a user *)
Definition session_of (site : Site) (v : browserSession) : Prop := exists u, u ∈ si_users site /\ bs_who v = MkCredential (wu_ID u) (wu_Role u) [].

Record state_ok (site : Site) (s : browserState) : Prop := {
  so_sessions : (size (sessions s) <= 256)%nat;
  so_sources : (size (sources s) <= 1024)%nat;
  so_users : forall k v, sessions s !! k = Some v -> session_of site v }.

(** What happens to sessions apart from logins: they end, or are used again. *)
Definition used (s s' : browserState) : Prop := forall k v', sessions s' !! k = Some v' -> exists v, sessions s !! k = Some v /\
  bs_who v' = bs_who v /\ bs_csrf v' = bs_csrf v /\ bs_expires v' = bs_expires v.

Lemma used_refl s : used s s.
Proof. intros k v Hv. by exists v. Qed.

Lemma size_filter_le {V} (P : string * V -> Prop) `{forall x, base.Decision (P x)} (m : gmap string V) : (size (filter P m) <= size m)%nat.
Proof. apply map_subseteq_size, map_filter_subseteq. Qed.

Lemma admit_used now source s ok s' : admit_login now source s = (ok, s') -> sessions s' = sessions s /\ ((size (sources s) <= 1024)%nat -> (size (sources s') <= 1024)%nat).
Proof.
  unfold admit_login. cbv zeta. set (kept := filter _ (sources s)). pose proof (size_filter_le (fun kv : string * loginSource => (10 * Minute <? now - ls_at kv.2) = false) (sources s)) as Hk.
  fold kept in Hk. destruct (kept !! source) as [v|] eqn:E.
  - intros [= _ <-]. split; [done|]. cbn [sources]. intros H. rewrite map_size_insert_Some by eauto. lia.
  - destruct (1024 <=? Z.of_nat (size kept)) eqn:Es; intros [= _ <-]; (split; [done|]); cbn [sources]; intros H; [lia|].
    rewrite map_size_insert_None by done. lia.
Qed.

Lemma session_used now key s found s' : session now key s = (found, s') ->
  used s s' /\ sources s' = sources s /\ (size (sessions s') <= size (sessions s))%nat /\
  forall v, found = Some v -> exists v0, sessions s !! key = Some v0 /\ bs_who v = bs_who v0 /\ bs_csrf v = bs_csrf v0 /\
    now < bs_expires v0 /\ now - bs_last v0 <= 15 * Minute.
Proof.
  assert (Hdel : used s (MkBrowserState (delete key (sessions s)) (sources s)) /\ (size (delete key (sessions s)) <= size (sessions s))%nat).
  { split; [|apply map_subseteq_size, delete_subseteq]. intros k v Hv. cbn [sessions] in Hv. apply lookup_delete_Some in Hv as [_ Hv]. by exists v. }
  unfold session. destruct (sessions s !! key) as [v0|] eqn:E; [|intros [= <- <-]; destruct Hdel; by repeat split].
  destruct (over now v0) eqn:Eo; [intros [= <- <-]; destruct Hdel; by repeat split|]. intros [= <- <-]. unfold over in Eo.
  apply orb_false_iff in Eo as [E1 E2]. apply negb_false_iff in E1. split.
  - intros k v. cbn [sessions]. rewrite lookup_insert_Some. intros [[<- <-]|[_ Hv]]; [by exists v0|by exists v].
  - cbn [sessions sources]. rewrite map_size_insert_Some by eauto. split; [done|]. split; [done|]. intros v [= <-]. exists v0. do 3 (split; [done|]). lia.
Qed.

Lemma used_users site s s' : used s s' -> (forall k v, sessions s !! k = Some v -> session_of site v) -> forall k v, sessions s' !! k = Some v -> session_of site v.
Proof. intros Hu H k v Hv. destruct (Hu k v Hv) as (v0 & Hv0 & E & _). destruct (H k v0 Hv0) as (u & Hin & Ew). exists u. split; [done|congruence]. Qed.

(** What a session asked for that changed the database *)
Definition session_change (site : Site) (now : Time) (q : ConsoleRequest) (s : browserState) (db db' : DB) : Prop :=
  exists cookie v, EqualFold (cq_Host q) (si_host site) = true /\ Get (cq_request q) "Origin" = si_Origin site /\
    cq_Cookie q (cookieName site) = Some cookie /\ sessions s !! digest cookie = Some v /\
    now < bs_expires v /\ now - bs_last v <= 15 * Minute /\ Get (cq_request q) "X-CSRF-Token" = bs_csrf v /\
    authority (cr_id (bs_who v)) (cr_role (bs_who v)) (api_request (cq_request q)) db db'.

Lemma same_step db ws : step (MkState db ws) (MkState db ws).
Proof. by apply step_elsewhere, elsewhere_same. Qed.

(** An answer that leaves the database alone *)
Lemma unchanged site now q s s' db : used s s' -> sources s' = sources s -> (size (sessions s') <= size (sessions s))%nat ->
  used s s' /\ sources s' = sources s /\ (size (sessions s') <= size (sessions s))%nat /\ (forall ws, step (MkState db ws) (MkState db ws)) /\
  (db = db \/ session_change site now q s db db).
Proof. intros H1 H2 H3. do 3 (split; [done|]). split; [apply same_step|by left]. Qed.

Lemma in_session_cases site ce box q s db rep s' db' :
  EqualFold (cq_Host q) (si_host site) = true -> foreign site (cq_request q) = false -> in_session site ce box q s db = (rep, s', db') ->
  used s s' /\ sources s' = sources s /\ (size (sessions s') <= size (sessions s))%nat /\ (forall ws, step (MkState db ws) (MkState db' ws)) /\
  (db' = db \/ session_change site (ce_now ce) q s db db').
Proof.
  intros Hhost Hf H. pose proof (unchanged site (ce_now ce) q s s db (used_refl s) eq_refl (Nat.le_refl _)) as Hs. unfold in_session in H.
  destruct (cq_Cookie q (cookieName site)) as [cookie|] eqn:Ec; [|injection H as _ <- <-; exact Hs].
  destruct (128 <? String.length cookie)%nat; [injection H as _ <- <-; exact Hs|]. cbv zeta in H.
  destruct (session (ce_now ce) (digest cookie) s) as [found s1] eqn:Es. apply session_used in Es as (Hu & Hsrc & Hsize & Hv).
  pose proof (unchanged site (ce_now ce) q s s1 db Hu Hsrc Hsize) as Hs1.
  destruct found as [v|]; [|injection H as _ <- <-; exact Hs1]. destruct (Hv v eq_refl) as (v0 & Hv0 & Ew & Ecs & Hexp & Hidle).
  destruct (writing (cq_request q) && _) eqn:Ew' in H; [injection H as _ <- <-; exact Hs1|].
  destruct (_ && String.eqb (rq_Method _) "GET") in H; [injection H as _ <- <-; exact Hs1|].
  destruct (_ && String.eqb (rq_Method _) "POST") in H.
  { injection H as _ <- <-. apply unchanged; [|done|].
    - intros k x Hx. cbn in Hx. apply lookup_delete_Some in Hx as [_ Hx]. by apply Hu.
    - etrans; [|exact Hsize]. cbn. apply map_subseteq_size, delete_subseteq. }
  destruct (HasPrefix _ _) in H; [|injection H as _ <- <-; exact Hs1].
  destruct (operations _ _ _ _ _ _) as [r d] eqn:Eop in H. injection H as _ <- <-. apply operations_authority in Eop as (Hstep & Hauth & _).
  do 3 (split; [done|]). split; [done|]. destruct Hauth as [->|Hauth]; [by left|right]. rewrite Ew in Hauth. exists cookie, v0. split; [done|].
  assert (Hw : writing (cq_request q) = true) by (by destruct Hauth). rewrite Hw in Ew'. apply negb_false_iff, String.eqb_eq in Ew'.
  unfold foreign in Hf. rewrite Hw, !orb_false_iff in Hf. destruct Hf as [[_ Hf] _]. apply negb_false_iff, String.eqb_eq in Hf.
  do 5 (split; [done|]). split; [congruence|done].
Qed.

Lemma console_cases site ce box q s db rep s' db' : console site ce box q s db = (rep, s', db') ->
  used s s' /\ ((size (sources s) <= 1024)%nat -> (size (sources s') <= 1024)%nat) /\ (size (sessions s') <= size (sessions s))%nat /\
  (forall ws, step (MkState db ws) (MkState db' ws)) /\
  (HasPrefix (rq_Path (cq_request q)) "/console/" = true -> db' = db \/ session_change site (ce_now ce) q s db db').
Proof.
  pose proof (same_step db) as Hs. unfold console. destruct (HasPrefix _ "/console/") eqn:Ep; cbn [negb].
  2: { destruct (bearer _ _ _ _ _ _) as [r d] eqn:Eb. intros [= _ <- <-]. split; [apply used_refl|]. do 2 (split; [done|]). split; [|done].
       unfold bearer in Eb. destruct (bearer_credential _ _); [|by injection Eb as _ <-]. destruct (_ || _); [by injection Eb as _ <-|].
       by apply operations_authority in Eb as [Eb _]. }
  destruct (negb (EqualFold _ _) || foreign _ _) eqn:Eh; [intros [= _ <- <-]; split; [apply used_refl|auto 10]|].
  apply orb_false_iff in Eh as [Eh Hf]. apply negb_false_iff in Eh.
  destruct (asset _); [intros [= _ <- <-]; split; [apply used_refl|auto 10]|]. destruct (_ && _).
  - destruct (admit_login _ _ _) as [ok s1] eqn:Ea. apply admit_used in Ea as [Ea1 Ea2]. intros H.
    assert (s' = s1 /\ db' = db) as [-> ->] by (by destruct (_ || _); injection H as _ <- <-).
    split; [intros k v Hv; rewrite Ea1 in Hv; by apply used_refl|]. split; [done|]. rewrite Ea1. eauto.
  - intros H. apply in_session_cases in H as (H1 & H2 & H3 & H4 & H5); [|done..]. rewrite H2. auto.
Qed.

(** ** Logins *)

Lemma find_user_some users id u : find_user users id = Some u -> u ∈ users /\ wu_ID u = id.
Proof.
  unfold find_user. assert (Hgen : forall acc, fold_left (fun f u => if String.eqb (wu_ID u) id then Some u else f) users acc = Some u ->
    acc = Some u \/ u ∈ users /\ wu_ID u = id); [|intros H; by destruct (Hgen None H)].
  induction users as [|x users IH]; intros acc; cbn [fold_left]; [auto|]. intros H. destruct (IH _ H) as [E|[Hin Hid]].
  - destruct (String.eqb_spec (wu_ID x) id); [injection E as ->; right; split; [by left|done]|by left].
  - right. split; [by right|done].
Qed.

Lemma open_session_cases now who token csrf old s ok s' : open_session now who token csrf old s = (ok, s') ->
  sources s' = sources s /\ ((size (sessions s) <= 256)%nat -> (size (sessions s') <= 256)%nat) /\
  forall k v, sessions s' !! k = Some v -> sessions s !! k = Some v \/ k = digest token /\ v = MkSession who csrf (now + 30 * Minute) now.
Proof.
  unfold open_session. cbv zeta. set (live := match old with Some _ => _ | None => _ end).
  assert (Hsub : live ⊆ sessions s).
  { unfold live. destruct old; [etrans; [apply delete_subseteq|]|]; apply map_filter_subseteq. }
  pose proof (map_subseteq_size _ _ Hsub) as Hsz. destruct (256 <=? Z.of_nat (size live)) eqn:E; intros [= _ <-]; cbn [sessions sources]; (split; [done|]); split.
  - lia.
  - intros k v Hv. left. by apply (lookup_weaken _ _ _ _ Hv Hsub).
  - intros H. rewrite map_size_insert. destruct (live !! _); unfold id; lia.
  - intros k v. rewrite lookup_insert_Some. intros [[<- <-]|[_ Hv]]; [by right|]. left. by apply (lookup_weaken _ _ _ _ Hv Hsub).
Qed.

(** A session opened by a login *)
Definition opened (site : Site) (now : Time) (token csrf : string) (q : ConsoleRequest) (k : string) (v : browserSession) : Prop :=
  k = digest token /\ exists u password, u ∈ si_users site /\ body LoginShape (cq_request q) = inr (MkLoginBody (wu_ID u) password) /\
    Auth.Verify (wu_PasswordHash u) password = true /\ v = MkSession (MkCredential (wu_ID u) (wu_Role u) []) csrf (now + 30 * Minute) now.

Lemma login_cases site now cancelled token csrf q s rep s' : login site now cancelled token csrf q s = (rep, s') ->
  sources s' = sources s /\ ((size (sessions s) <= 256)%nat -> (size (sessions s') <= 256)%nat) /\
  forall k v, sessions s' !! k = Some v -> sessions s !! k = Some v \/ opened site now token csrf q k v.
Proof.
  unfold login. destruct (body LoginShape (cq_request q)) as [a|[id password]] eqn:Eb; [intros [= _ <-]; auto|]. cbv zeta. cbn [nb_ID nb_Password].
  destruct (find_user (si_users site) id) as [u|] eqn:Ef; [|destruct (Auth.Verify _ _); intros [= _ <-]; auto].
  apply find_user_some in Ef as [Hin <-]. destruct (Auth.Verify (wu_PasswordHash u) password) eqn:Ev; [|intros [= _ <-]; auto].
  destruct cancelled; [intros [= _ <-]; auto|]. destruct (open_session _ _ _ _ _ _) as [ok s1] eqn:Eo.
  apply open_session_cases in Eo as (H1 & H2 & H3). intros H. assert (s' = s1) as -> by (by destruct ok; injection H as _ <-).
  split; [done|]. split; [done|]. intros k v Hv. destruct (H3 k v Hv) as [|[-> ->]]; [by left|right]. split; [done|]. by exists u, password.
Qed.

Lemma desk_step_ok site d d' : desk_step site d d' -> state_ok site (dk_state d) -> state_ok site (dk_state d').
Proof.
  intros [ce box q d1 rep s db Hp H|now cancelled token csrf q d1 rep s Hp H|d1 db] [H1 H2 H3]; cbn [dk_state]; [| |done].
  - apply console_cases in H as (Hu & Hsrc & Hsz & _). split; [lia|auto|by eapply used_users].
  - apply login_cases in H as (Hsrc & Hsz & Hnew). split; [auto|by rewrite Hsrc|]. intros k v Hv. destruct (Hnew k v Hv) as [Hold|(_ & u & pw & Hin & _ & _ & ->)]; [eauto|].
    by exists u.
Qed.

Lemma browser_roles c creds site u : browser c creds = Some site -> u ∈ si_users site -> wu_Role u ∈ roles.
Proof.
  unfold browser. destruct (ValidateWeb c) as [users|] eqn:Ev; [|done]. destruct (parse_origin _) as [o|] eqn:Eo; [|done]. intros [= <-] Hu. cbn in Hu.
  unfold ValidateWeb in Ev. destruct (_ && String.eqb (wc_Users c) ""); [injection Ev as <-; by apply elem_of_nil in Hu|]. rewrite Eo in Ev.
  destruct (_ || _); [done|]. destruct (decode_users _) as [[l []]|]; [|done..]. destruct (_ && _) eqn:E; [|done]. injection Ev as ->.
  apply andb_true_iff in E as [_ E]. apply one_of_true. apply (principals_roles _ _ _ (user_principal u) E). apply list_elem_of_fmap. by exists u.
Qed.

(** C18. Sessions carry the authority of their users.  In every run of the
    console (requests, logins that end later, other programs, in any order)
    there are at most 256 sessions and 1024 sources of logins, and every session
    is one of a configured user.  A login opens a session only under the digest
    of a fresh token, for half an hour, and only for the user whose password was
    verified; nothing else opens or prolongs one.  A request of the console that changed the
    database came to the configured host, from the configured origin, with the
    cookie of a session that had not ended and was used in the last quarter of
    an hour, with its CSRF token, and the change has the authority of that
    user's role, operator or admin.  It is one step of the system. *)
Theorem console_sessions c creds site db d :
  browser c creds = Some site -> rtc (desk_step site) (desk_start db) d ->
  state_ok site (dk_state d) /\
  (forall ce box q rep s db', console site ce box q (dk_state d) (dk_db d) = (rep, s, db') ->
     used (dk_state d) s /\ (forall ws, step (MkState (dk_db d) ws) (MkState db' ws)) /\
     (HasPrefix (rq_Path (cq_request q)) "/console/" = true -> db' = dk_db d \/
        session_change site (ce_now ce) q (dk_state d) (dk_db d) db' /\
        exists u, u ∈ si_users site /\ (wu_Role u = "operator"%string \/ wu_Role u = "admin"%string) /\
          authority (wu_ID u) (wu_Role u) (api_request (cq_request q)) (dk_db d) db')) /\
  (forall now cancelled token csrf q rep s, login site now cancelled token csrf q (dk_state d) = (rep, s) ->
     forall k v, sessions s !! k = Some v -> sessions (dk_state d) !! k = Some v \/ opened site now token csrf q k v).
Proof.
  intros Hsite Hrun. assert (Hok : state_ok site (dk_state d)).
  { assert (H0 : state_ok site (dk_state (desk_start db))) by (split; [apply Nat.le_0_l|apply Nat.le_0_l|]; intros k v Hv; cbn [desk_start dk_state sessions] in Hv; by rewrite lookup_empty in Hv).
    clear Hsite. revert H0. induction Hrun as [|x y z Hxy _ IH]; [done|]. intros Hx. by eapply IH, desk_step_ok. }
  split; [done|]. split.
  - intros ce box q rep s db' H. apply console_cases in H as (Hu & _ & _ & Hstep & Hchange). split; [done|]. split; [done|]. intros Hp.
    destruct (Hchange Hp) as [->|Hc]; [by left|right]. split; [done|]. destruct Hc as (cookie & v & _ & _ & _ & Hv & _ & _ & _ & Ha).
    destruct (so_users _ _ Hok _ _ Hv) as (u & Hin & Ew). rewrite Ew in Ha. cbn [cr_id cr_role] in Ha. exists u. split; [done|]. split; [|done].
    pose proof (browser_roles _ _ _ _ Hsite Hin) as Hr. unfold roles in Hr. rewrite !elem_of_cons, elem_of_nil in Hr.
    destruct Ha as [_ Hnv _ _]. destruct Hr as [Hr|[Hr|[Hr|[]]]]; auto. congruence.
  - intros now cancelled token csrf q rep s H. apply login_cases in H as (_ & _ & H). exact H.
Qed.

End Console.

(** *** A user signs in and suppresses an address. *)

#[local] Existing Instances ops_html ops_tokens ops_lower ops_templates ops_ids ops_addresses ops_mime ops_ips.
#[local] Instance web_argon2 : Argon2 := {| IDKey := fun _ _ => repeat x00 32; IDKey_length := fun _ _ => eq_refl |}.
#[local] Instance web_bodies : BodyDecoder := fun A s _ =>
  match s in Shape A return option A with
  | SuppressShape => Some (MkSuppressBody "gone@example.org" "manual" "asked to" None)
  | LoginShape => Some (MkLoginBody "ops" "secret")
  | _ => None
  end.
Definition web_hash : string := Auth.hashPrefix ++ Auth.raw64 (repeat x41 16) ++ String Auth.dollar (Auth.raw64 (repeat x00 32)).
#[local] Instance web_demo : Web :=
  MkWeb (fun _ => Some (MkOrigin "https" "mail.example.com" "mail.example.com" false "" "" "")) (fun _ => Some ([MkWebUser "ops" "operator" web_hash], true))
    (fun _ => Some (Hook.V4 1)) (fun s => s) (fun _ => "0.0.0.1"%string).

Definition web_config : WebConfig := MkWebConfig "https://mail.example.com" "users".
Definition web_site : Site := MkSite [MkWebUser "ops" "operator" web_hash] "https://mail.example.com" "mail.example.com" true [].
Definition web_fields : list (string * string) :=
  [("Origin", "https://mail.example.com"); ("X-CSRF-Token", "csrf"); ("Content-Type", "application/json")]%string.
Definition web_request (path : string) (cookie : option string) : ConsoleRequest :=
  MkConsoleRequest (MkRequest path "" "" "POST" (fun name => map snd (List.filter (fun kv => String.eqb (fst kv) name) web_fields)) 2
                      [MkRead false (bytes_of "{}") EOF]) "mail.example.com" "0.0.0.1:5" (fun _ => cookie).
Definition web_env (now : Time) : ConsoleEnv := MkConsoleEnv now false true false ops_env.
Definition web_admitted := console (std := demo_std) web_site (web_env demo_day) None (web_request "/console/login" None) (dk_state (desk_start demo_db)) demo_db.
Definition web_login := login (std := demo_std) web_site demo_day false "token" "csrf" (web_request "/console/login" None) (snd (fst web_admitted)).
Definition web_desk : Desk := MkDesk (snd web_login) demo_db None.
Definition web_change := console (std := demo_std) web_site (web_env (demo_day + Second)) None (web_request "/console/api/suppressions" (Some "token"%string))
  (dk_state web_desk) (dk_db web_desk).

Lemma web_browser : browser web_config [] = Some web_site.
Proof. vm_compute. reflexivity. Qed.
Lemma web_admits : console (std := demo_std) web_site (web_env demo_day) None (web_request "/console/login" None) (dk_state (desk_start demo_db)) demo_db
  = (LoggingIn, snd (fst web_admitted), demo_db).
Proof. vm_compute. reflexivity. Qed.
Lemma web_logs_in : login (std := demo_std) web_site demo_day false "token" "csrf" (web_request "/console/login" None) (snd (fst web_admitted))
  = (SignedIn (MkCredential "ops" "operator" []) "csrf" "token" (demo_day + 30 * Minute), snd web_login).
Proof. vm_compute. reflexivity. Qed.
Lemma web_run : rtc (desk_step (std := demo_std) web_site) (desk_start demo_db) web_desk.
Proof.
  eapply rtc_l; [exact (desk_request _ (web_env demo_day) None _ (desk_start demo_db) _ _ _ eq_refl web_admits)|].
  apply rtc_once. exact (desk_login _ demo_day false "token" "csrf" _ (MkDesk _ demo_db _) _ _ eq_refl web_logs_in).
Qed.
Lemma web_changes : console (std := demo_std) web_site (web_env (demo_day + Second)) None (web_request "/console/api/suppressions" (Some "token"%string))
  (dk_state web_desk) (dk_db web_desk) = (Plain (Output 201 (JObj [("id", JId 5004)]%string)), snd (fst web_change), snd web_change).
Proof. vm_compute. reflexivity. Qed.

Lemma console_sessions_witness :
  size (sessions (dk_state web_desk)) = 1%nat /\
  authority "ops" "operator" (api_request (cq_request (web_request "/console/api/suppressions" (Some "token"%string)))) demo_db (snd web_change).
Proof.
  split; [vm_compute; reflexivity|].
  destruct (console_sessions (std := demo_std) web_config [] web_site demo_db web_desk web_browser web_run) as (_ & H & _).
  destruct (H _ _ _ _ _ _ web_changes) as (_ & _ & Hc).
  assert (Hnew : au_actor <$> (maintenance_audit (snd web_change) !! 5006%N) = Some "ops"%string) by (vm_compute; reflexivity).
  destruct (Hc eq_refl) as [E|[_ (u & Hu & _ & Ha)]].
  - exfalso. rewrite E in Hnew. vm_compute in Hnew. discriminate Hnew.
  - apply list_elem_of_singleton in Hu as ->. exact Ha.
Defined.

End Console.
