(* ===== verification/Config.v ===== *)
(** * Configuration: [internal/config/config.go]

    [Load] takes defaults, then the YAML file, then the environment, then the
    flags, and checks the result.  With it are modelled what it calls to read
    secrets: [encryption.NewEnvironment] and [EnvironmentKey]
    ([internal/encryption/credentials.go]), [webhook.Parse]
    ([internal/webhook/config.go]), and the parsing of the command line by the
    package [flag].

    The settings are rows of a table ([Setting]): flag, variable, kind, and the
    field of [Config] it stands for.  The code ranges over maps of pointers to
    fields in the same way; a map has no order, and only which of two errors
    is reported depends on it.

    The YAML decoder, [time.ParseDuration], [strconv.ParseInt] with base 0
    (flags, not variables) and [encoding/json]'s decoding into structs are
    arguments. *)

From S2P Require Import Prelude Sha256 GoText TextFacts JsonText Delivery SmtpClient Provider Database Auth Suppression Message WebhookHttp Webhook QueueOps Demo Retention AesGcm Credentials JsonTokens JsonMessage Templates SendJson Catalog SendKeys HttpSend ServeMux HttpAdmin Console.

Module Config.

Import JsonTokens Templates Catalog SendKeys.

(** The environment of the process and its files *)
Record Os := MkOs { LookupEnv : string -> option string; ReadFile : string -> option string }.
Definition Getenv (os : Os) (key : string) : string := default EmptyString (LookupEnv os key).

(** ** Documents without duplicate members: [uniqueJSON] of both packages

    They differ in whether the case of a name counts ([fold]).  The delimiter
    that ends the loop is taken whatever it is. *)

Section Unique.
  Context (fold : string -> string).

Definition any_token (d : Decoder) : option Decoder := option_map snd (Token d).

Fixpoint unique_value (fuel : nat) (d : Decoder) : option Decoder :=
  match fuel with
  | O => None
  | S k =>
      match Token d with
      | None => None
      | Some (TDelim c, d) =>
          if Ascii.eqb c "{" then unique_members k [] d
          else if Ascii.eqb c "[" then unique_items k d
          else None
      | Some (_, d) => Some d
      end
  end
with unique_members (fuel : nat) (seen : list string) (d : Decoder) : option Decoder :=
  match fuel with
  | O => None
  | S k =>
      if More d then
        match Token d with
        | Some (TStr key, d) =>
            if one_of (fold key) seen then None
            else d ← unique_value k d; unique_members k (fold key :: seen) d
        | _ => None
        end
      else any_token d
  end
with unique_items (fuel : nat) (d : Decoder) : option Decoder :=
  match fuel with
  | O => None
  | S k => if More d then d ← unique_value k d; unique_items k d else any_token d
  end.

Definition unique (d : Decoder) : option Decoder := unique_value (2 * S (length (d_left d))) d.

End Unique.

(** The keyring as JSON: the names of its members, and what the struct gets *)
Record RawKeyring := MkRawKeyring { rk_fields : list string; rk_config : option (string * gmap string string) }.
(** An endpoint as configured, its identifiers as text *)
Record RawEndpoint := MkRawEndpoint { re_SchemaVersion : Z; re_ID : string; re_APIKeyID : string; re_URL : string; re_Keys : list Hook.Key }.

Class Documents := MkDocuments {
  decode_keyring : string -> option RawKeyring;                        (* json.Unmarshal into a map; Decode into the struct *)
  decode_endpoints : string -> option (list RawEndpoint * bool) }.     (* and whether the text ends after them *)

(** ** The values of settings *)

Inductive Kind := IntKind | TextKind | BoolKind | DurationKind.
Inductive Value := VInt (z : Z) | VText (s : string) | VBool (b : bool) | VDuration (z : Z).

Class Numbers := MkNumbers { ParseDuration : string -> option Z; ParseInt0 : string -> option Z }.

(** [strconv.ParseBool] *)
Definition ParseBool (s : string) : option bool :=
  if one_of s ["1"; "t"; "T"; "TRUE"; "true"; "True"]%string then Some true
  else if one_of s ["0"; "f"; "F"; "FALSE"; "false"; "False"]%string then Some false
  else None.

Section Values.
  Context {numbers : Numbers}.

Definition parse_value (int : string -> option Z) (k : Kind) (s : string) : option Value :=
  match k with
  | IntKind => VInt <$> int s
  | TextKind => Some (VText s)
  | BoolKind => VBool <$> ParseBool s
  | DurationKind => VDuration <$> ParseDuration s
  end.

(** ** The command line: [flag.FlagSet.Parse]

    The values of the flags that were given, and what is left *)
Definition cut_value (name : string) : string * option string :=
  match name with
  | String c rest => match Cut rest "=" with Some (a, v) => (String c a, Some v) | None => (name, None) end
  | EmptyString => (name, None)
  end.

Fixpoint parse_flags (kinds : string -> option Kind) (args : list string) (given : gmap string Value) : option (gmap string Value * list string) :=
  match args with
  | [] => Some (given, [])
  | arg :: rest =>
      if (String.length arg <? 2)%nat || negb (HasPrefix arg "-") then Some (given, args)
      else if String.eqb arg "--" then Some (given, rest)
      else
        let name := if HasPrefix arg "--" then drop 2 arg else drop 1 arg in
        if HasPrefix name "-" || HasPrefix name "=" then None
        else
          let '(name, value) := cut_value name in
          match kinds name with
          | None => None
          | Some BoolKind =>
              v ← parse_value ParseInt0 BoolKind (default "true"%string value);
              parse_flags kinds rest (<[name := v]> given)
          | Some kind =>
              match value, rest with
              | Some value, _ => v ← parse_value ParseInt0 kind value; parse_flags kinds rest (<[name := v]> given)
              | None, value :: rest => v ← parse_value ParseInt0 kind value; parse_flags kinds rest (<[name := v]> given)
              | None, [] => None
              end
          end
  end.

End Values.

(** ** [Config] and its settings *)

Record Config := MkConfig {
  WebhookEndpoints : string; WebhookEnabled : bool; SendAPIKeys : string; AdminAPIKeys : string; WebUIOrigin : string; WebUIUsers : string;
  SMTPMaxConnections : Z; SMTPMaxConnectionsPerIP : Z; SMTPAuthPerMinute : Z; SMTPAuthBurst : Z; SMTPMaxSessionSeconds : Z; AuthConcurrency : Z;
  AuthMemoryBudget : Z; MetricsToken : string; MemoryBudget : Z; SpoolBudget : Z; SnapshotDir : string; HealthEnabled : bool; FailoverEnabled : bool;
  RetryEnabled : bool; MaintenanceInterval : Z; EMLRetentionDays : Z; DebugRetentionDays : Z; CleanupBatch : Z; WorkerCount : Z; MasterKey : string;
  SMTPAddr : string; SMTPDomain : string; SMTPCert : string; SMTPKey : string; MaxMessageBytes : Z; HTTPAddr : string; DatabaseURL : string;
  StorageDir : string; ShutdownTimeout : Z }.
#[export] Instance eta_Config : Eta Config := fun c =>
  MkConfig (WebhookEndpoints c) (WebhookEnabled c) (SendAPIKeys c) (AdminAPIKeys c) (WebUIOrigin c) (WebUIUsers c) (SMTPMaxConnections c)
  (SMTPMaxConnectionsPerIP c) (SMTPAuthPerMinute c) (SMTPAuthBurst c) (SMTPMaxSessionSeconds c) (AuthConcurrency c) (AuthMemoryBudget c) (MetricsToken
  c) (MemoryBudget c) (SpoolBudget c) (SnapshotDir c) (HealthEnabled c) (FailoverEnabled c) (RetryEnabled c) (MaintenanceInterval c) (EMLRetentionDays
  c) (DebugRetentionDays c) (CleanupBatch c) (WorkerCount c) (MasterKey c) (SMTPAddr c) (SMTPDomain c) (SMTPCert c) (SMTPKey c) (MaxMessageBytes c)
  (HTTPAddr c) (DatabaseURL c) (StorageDir c) (ShutdownTimeout c).

Definition MiB : Z := 1048576.
Definition GiB : Z := 1073741824.

Definition defaults : Config :=
  MkConfig "" false "" "" "" "" 128 8 60 20 300 2 (128 * MiB) "" (64 * MiB) (256 * MiB) "" false false false 0 180 30 100 0 "" ":587" "localhost" ""
  "" (25 * MiB) ":8080" "" "data/eml" (30 * Second).

(** A setting: its flag, its variable, and the field it stands for *)
Record Setting := MkSetting {
  st_flag : string; st_env : string; st_kind : Kind; st_get : Config -> Value; st_set : Value -> Config -> Config }.

Definition integer (flag env : string) (get : Config -> Z) (set : Z -> Config -> Config) : Setting :=
  MkSetting flag env IntKind (fun c => VInt (get c)) (fun v c => match v with VInt z => set z c | _ => c end).
Definition text (flag env : string) (get : Config -> string) (set : string -> Config -> Config) : Setting :=
  MkSetting flag env TextKind (fun c => VText (get c)) (fun v c => match v with VText x => set x c | _ => c end).
Definition switch (flag env : string) (get : Config -> bool) (set : bool -> Config -> Config) : Setting :=
  MkSetting flag env BoolKind (fun c => VBool (get c)) (fun v c => match v with VBool b => set b c | _ => c end).
Definition duration (flag env : string) (get : Config -> Z) (set : Z -> Config -> Config) : Setting :=
  MkSetting flag env DurationKind (fun c => VDuration (get c)) (fun v c => match v with VDuration z => set z c | _ => c end).

(** [guardInts]; the variable of a flag: in capitals, with underscores *)
Definition env_char (c : ascii) : ascii :=
  if Ascii.eqb c "-" then "_"%char
  else if (97 <=? N_of_ascii c)%N && (N_of_ascii c <=? 122)%N then ascii_of_N (N_of_ascii c - 32) else c.
Definition env_name (flag : string) : string := string_of_list_ascii (map env_char (list_ascii_of_string flag)).
Definition guard_int (flag : string) (get : Config -> Z) (set : Z -> Config -> Config) : Setting := integer flag (env_name flag) get set.

Definition guardInts : list Setting := [
  guard_int "smtp-max-connections" SMTPMaxConnections (fun v c => c <| SMTPMaxConnections := v |>);
  guard_int "smtp-max-connections-per-ip" SMTPMaxConnectionsPerIP (fun v c => c <| SMTPMaxConnectionsPerIP := v |>);
  guard_int "smtp-auth-per-minute" SMTPAuthPerMinute (fun v c => c <| SMTPAuthPerMinute := v |>);
  guard_int "smtp-auth-burst" SMTPAuthBurst (fun v c => c <| SMTPAuthBurst := v |>);
  guard_int "smtp-max-session-seconds" SMTPMaxSessionSeconds (fun v c => c <| SMTPMaxSessionSeconds := v |>);
  guard_int "auth-concurrency" AuthConcurrency (fun v c => c <| AuthConcurrency := v |>);
  guard_int "auth-memory-budget-bytes" AuthMemoryBudget (fun v c => c <| AuthMemoryBudget := v |>)].

(** The variables read before the secrets, and those after them *)
Definition first_settings : list Setting := [
  text "smtp-addr" "SMTP_LISTEN_ADDR" SMTPAddr (fun v c => c <| SMTPAddr := v |>);
  text "smtp-domain" "SMTP_DOMAIN" SMTPDomain (fun v c => c <| SMTPDomain := v |>);
  text "smtp-cert" "SMTP_TLS_CERT" SMTPCert (fun v c => c <| SMTPCert := v |>);
  text "smtp-key" "SMTP_TLS_KEY" SMTPKey (fun v c => c <| SMTPKey := v |>);
  text "http-addr" "HTTP_LISTEN_ADDR" HTTPAddr (fun v c => c <| HTTPAddr := v |>);
  text "database-url" "DATABASE_URL" DatabaseURL (fun v c => c <| DatabaseURL := v |>);
  text "storage-dir" "EML_STORAGE_DIR" StorageDir (fun v c => c <| StorageDir := v |>);
  duration "shutdown-timeout" "SHUTDOWN_TIMEOUT" ShutdownTimeout (fun v c => c <| ShutdownTimeout := v |>);
  integer "max-message-bytes" "MAX_MESSAGE_BYTES" MaxMessageBytes (fun v c => c <| MaxMessageBytes := v |>);
  integer "workers" "WORKER_COUNT" WorkerCount (fun v c => c <| WorkerCount := v |>);
  integer "memory-budget-bytes" "MEMORY_BUDGET_BYTES" MemoryBudget (fun v c => c <| MemoryBudget := v |>);
  integer "spool-budget-bytes" "SPOOL_BUDGET_BYTES" SpoolBudget (fun v c => c <| SpoolBudget := v |>);
  text "snapshot-dir" "SNAPSHOT_DIR" SnapshotDir (fun v c => c <| SnapshotDir := v |>)].
Definition last_settings : list Setting := guardInts ++ [
  switch "retry-enabled" "RETRY_ENABLED" RetryEnabled (fun v c => c <| RetryEnabled := v |>);
  switch "health-enabled" "HEALTH_ENABLED" HealthEnabled (fun v c => c <| HealthEnabled := v |>);
  switch "failover-enabled" "FAILOVER_ENABLED" FailoverEnabled (fun v c => c <| FailoverEnabled := v |>);
  integer "eml-retention-days" "EML_RETENTION_DAYS" EMLRetentionDays (fun v c => c <| EMLRetentionDays := v |>);
  integer "debug-retention-days" "DEBUG_RETENTION_DAYS" DebugRetentionDays (fun v c => c <| DebugRetentionDays := v |>);
  integer "cleanup-batch" "CLEANUP_BATCH" CleanupBatch (fun v c => c <| CleanupBatch := v |>);
  duration "maintenance-interval" "MAINTENANCE_INTERVAL" MaintenanceInterval (fun v c => c <| MaintenanceInterval := v |>)].
Definition settings : list Setting := first_settings ++ last_settings.

(** The flags that are defined: [-config], and one per setting *)
Definition flag_kind (name : string) : option Kind :=
  if String.eqb name "config" then Some TextKind
  else option_map st_kind (List.find (fun s => String.eqb (st_flag s) name) settings).

(** ** Errors

    The texts of the code; an error of a package it calls has one text here. *)

Definition continue {A B} (m : string + A) (f : A -> string + B) : string + B := match m with inl e => inl e | inr x => f x end.
Notation "x <~ m ; k" := (continue m (fun x => k)) (at level 20, m at level 100, k at level 200, right associativity).
Definition require (ok : bool) (e : string) : string + unit := if ok then inr tt else inl e.
Definition given {A} (o : option A) (e : string) : string + A := match o with Some a => inr a | None => inl e end.

Class YamlDecoder := decode_yaml : string -> Config -> option Config.

Section Load.
  Context {numbers : Numbers} {documents : Documents} {yaml : YamlDecoder} {html : HtmlTemplates} {tokenizer : Tokenizer} {lower : LowerCase}
    {decoder : TemplateDecoder} {keys : KeysDecoder} {parser : UuidParser} {addresses : MailParser} {principals : HttpAdmin.PrincipalsDecoder}
    {web : Console.Web} {urls : URLParser}.

(** ** Secrets of the environment *)

(** [encryption.EnvironmentKey], [NewEnvironment] *)
Definition EnvironmentKey (os : Os) : string :=
  match LookupEnv os "RELAYTALE_MASTER_KEY" with Some v => v | None => Getenv os "MAILGATEWAY_MASTER_KEY" end.

Definition NewEnvironment (os : Os) (fallback : string) : option Encryption.Box :=
  match LookupEnv os "RELAYTALE_KEYRING" with
  | None => Encryption.New fallback
  | Some raw =>
      if 16384 <? Z.of_nat (String.length raw) then None
      else
        d ← unique (fun name => name) (NewDecoder (bytes_of raw));
        if negb (at_eof d) then None
        else
          k ← decode_keyring raw;
          if negb (length (rk_fields k) =? 2)%nat || negb (one_of "active"%string (rk_fields k)) || negb (one_of "keys"%string (rk_fields k)) then None
          else '(active, keys) ← rk_config k; Encryption.NewRing active keys
  end.

(** [webhook.Parse] *)
Definition endpoint_of (e : RawEndpoint) : option Hook.Endpoint :=
  id ← website_id (re_ID e); owner ← website_id (re_APIKeyID e); Some (Hook.MkEndpoint (re_SchemaVersion e) id owner (re_URL e) (re_Keys e)).

Definition webhookParse (raw : string) : option (list Hook.Endpoint) :=
  if String.eqb raw "" then Some []
  else if 65536 <? Z.of_nat (String.length raw) then None
  else
    _ ← unique lower_case (NewDecoder (bytes_of raw));
    match decode_endpoints raw with
    | Some (out, true) =>
        if (32 <? length out)%nat then None
        else es ← mapM endpoint_of out; if Webhook.endpoints_ok [] [] es then Some es else None
    | _ => None
    end.

(** ** The layers *)

Definition from_file (os : Os) (file : string) (c : Config) : string + Config :=
  if String.eqb file "" then inr c
  else
    raw <~ given (ReadFile os file) "open config";
    given (decode_yaml raw c) "decode config".

Fixpoint from_env (os : Os) (l : list Setting) (c : Config) : string + Config :=
  match l with
  | [] => inr c
  | s :: rest =>
      match LookupEnv os (st_env s) with
      | None => from_env os rest c
      | Some raw => v <~ given (parse_value ParseInt (st_kind s) raw) ("invalid " ++ st_env s); from_env os rest (st_set s v c)
      end
  end.

(** [pre.Visit]: each field is set by one flag, so the order does not matter. *)
Fixpoint from_flags (flags : gmap string Value) (l : list Setting) (c : Config) : Config :=
  match l with
  | [] => c
  | s :: rest => from_flags flags rest (match flags !! st_flag s with Some v => st_set s v c | None => c end)
  end.

Fixpoint distinct_tokens (metrics : string) (adminKeys : list HttpAdmin.Principal) (sendKeys : list SendKey) : string + unit :=
  match sendKeys with
  | [] => inr tt
  | k :: rest =>
      if String.eqb (sk_Token k) metrics then inl "send and metrics tokens must differ"%string
      else if existsb (fun a => String.eqb (sk_Token k) (HttpAdmin.pr_Token a)) adminKeys then inl "send and admin tokens must differ"%string
      else distinct_tokens metrics adminKeys rest
  end.

(** The secrets, which only the environment gives, and what they need *)
Definition secrets (os : Os) (c : Config) : string + Config * list SendKey :=
  let c := c <| MasterKey := EnvironmentKey os |> <| MetricsToken := Getenv os "METRICS_BEARER_TOKEN" |>
             <| AdminAPIKeys := Getenv os "ADMIN_API_KEYS" |> <| WebhookEndpoints := Getenv os "WEBHOOK_ENDPOINTS" |> in
  endpoints <~ given (webhookParse (WebhookEndpoints c)) "invalid WEBHOOK_ENDPOINTS";
  c <~ (match LookupEnv os "WEBHOOK_ENABLED" with
        | Some v => if String.eqb v "" then inr c
                    else b <~ given (ParseBool v) "invalid WEBHOOK_ENABLED"; inr (c <| WebhookEnabled := b |>)
        | None => inr c
        end);
  _ <~ require (negb (WebhookEnabled c && (length endpoints =? 0)%nat)) "WEBHOOK_ENABLED requires configured endpoints";
  let c := c <| SendAPIKeys := Getenv os "SEND_API_KEYS" |> in
  sendKeys <~ given (ParseSendKeys (SendAPIKeys c)) "invalid SEND_API_KEYS";
  adminKeys <~ given (HttpAdmin.ParsePrincipals (AdminAPIKeys c)) "invalid ADMIN_API_KEYS";
  _ <~ distinct_tokens (MetricsToken c) adminKeys sendKeys;
  let c := c <| WebUIOrigin := Getenv os "WEB_UI_ORIGIN" |> <| WebUIUsers := Getenv os "WEB_UI_USERS" |> in
  _ <~ given (Console.ValidateWeb (Console.MkWebConfig (WebUIOrigin c) (WebUIUsers c))) "invalid Web UI configuration";
  _ <~ require (String.eqb (WebUIOrigin c) "" || not_null (NewEnvironment os (MasterKey c))) "Web UI requires a valid master key";
  _ <~ require (String.eqb (AdminAPIKeys c) "" || forallb (fun a => negb (String.eqb (HttpAdmin.pr_Token a) (MetricsToken c))) adminKeys)
         "admin and metrics tokens must differ";
  _ <~ require (String.eqb (AdminAPIKeys c) "" || not_null (NewEnvironment os (MasterKey c))) "management API requires a valid master key";
  inr (c, sendKeys).

(** ** The checks, in the order of the code; products wrap as in Go. *)

Definition blanks : string := String " " (String "009" (String "013" (String "010" EmptyString))).

Definition validate (os : Os) (sendKeys : list SendKey) (c : Config) : string + unit :=
  _ <~ require (negb ((SMTPMaxConnections c <? 1) || (4096 <? SMTPMaxConnections c) || (SMTPMaxConnectionsPerIP c <? 1)
                      || (SMTPMaxConnections c <? SMTPMaxConnectionsPerIP c) || (SMTPAuthPerMinute c <? 1) || (6000 <? SMTPAuthPerMinute c)
                      || (SMTPAuthBurst c <? 1) || (1000 <? SMTPAuthBurst c) || (SMTPMaxSessionSeconds c <? 1) || (3600 <? SMTPMaxSessionSeconds c)
                      || (AuthConcurrency c <? 2) || (8 <? AuthConcurrency c) || (AuthMemoryBudget c <? i64 (AuthConcurrency c * (64 * MiB)))
                      || (512 * MiB <? AuthMemoryBudget c)))
         "invalid SMTP admission or authentication memory budget";
  _ <~ require (String.eqb (MetricsToken c) ""
                || negb ((String.length (MetricsToken c) <? 32)%nat || (512 <? String.length (MetricsToken c))%nat || ContainsAny (MetricsToken c) blanks))
         "METRICS_BEARER_TOKEN must be 32..512 bytes without whitespace";
  _ <~ require (negb (FailoverEnabled c && negb (RetryEnabled c))) "FAILOVER_ENABLED requires RETRY_ENABLED";
  _ <~ require (negb (String.eqb (DatabaseURL c) "")) "DATABASE_URL is required";
  _ <~ require (negb (String.eqb (HTTPAddr c) "" || String.eqb (StorageDir c) "" || (ShutdownTimeout c <=? 0)))
         "listen address, storage directory and positive shutdown timeout are required";
  _ <~ require (negb ((0 <? length sendKeys)%nat
                      && ((100 * MiB <? MaxMessageBytes c) || (SpoolBudget c <? i64 (2 * i64 (MaxMessageBytes c + 1))))))
         "HTTP submission requires max_message_bytes <= 100 MiB and spool budget for two full payloads";
  _ <~ require (negb ((MaxMessageBytes c <=? 0) || (GiB <? MaxMessageBytes c))) "message size must be between 1 byte and 1 GiB";
  _ <~ require (negb (String.eqb (SMTPDomain c) "")) "SMTP domain is required";
  _ <~ require (negb ((WorkerCount c <? 0) || (32 <? WorkerCount c))) "WORKER_COUNT must be between 0 and 32";
  _ <~ require (negb ((MemoryBudget c <? 8 * MiB) || (16 * GiB <? MemoryBudget c) || (SpoolBudget c <? MaxMessageBytes c) || (64 * GiB <? SpoolBudget c)))
         "memory budget must be 8 MiB..16 GiB; spool budget must cover max message size and be at most 64 GiB";
  _ <~ require (negb (0 <? WorkerCount c) || not_null (NewEnvironment os (MasterKey c))) "invalid keyring configuration";
  _ <~ require (negb ((MaintenanceInterval c <? 0) || (0 <? MaintenanceInterval c) && (MaintenanceInterval c <? Minute)))
         "maintenance interval must be 0 or at least 1m";
  require (negb ((EMLRetentionDays c <? 0) || (DebugRetentionDays c <? 0) || (36500 <? EMLRetentionDays c) || (36500 <? DebugRetentionDays c)
                 || (CleanupBatch c <? 1) || (1000 <? CleanupBatch c)))
    "invalid retention days or cleanup batch".

Definition config_file (flags : gmap string Value) : string :=
  match flags !! "config"%string with Some (VText file) => file | _ => EmptyString end.

(** [Load] *)
Definition Load (os : Os) (args : list string) : string + Config :=
  parsed <~ given (parse_flags flag_kind args ∅) "invalid flags";
  let '(flags, positional) := parsed in
  _ <~ require (length positional =? 0)%nat "unexpected positional arguments";
  c <~ from_file os (config_file flags) defaults;
  c <~ from_env os first_settings c;
  cs <~ secrets os c;
  c <~ from_env os last_settings (fst cs);
  let c := from_flags flags settings c in
  _ <~ validate os (snd cs) c;
  inr c.

End Load.

End Config.
