(* ===== verification/ConfigSpec.v ===== *)
(** * What [Load] accepts

    [load_exact]: the configurations that [Load] returns are exactly those
    whose settings are each the flag's value, else the variable's, else the
    file's, else the default, whose secrets are the environment's, and which
    are within the stated limits. *)

From Stdlib Require Import Sorted.
From S2P Require Import Prelude Sha256 GoText TextFacts JsonText Delivery SmtpClient Provider Database Auth Suppression Message WebhookHttp Webhook QueueOps Demo Retention AesGcm Credentials JsonTokens JsonMessage Templates SendJson Catalog SendKeys HttpSend ServeMux HttpAdmin Console Config.

Module ConfigSpec.

Import JsonTokens Templates Catalog SendKeys Config.

(** ** Documents without repeated members are accepted, with fuel to spare *)

Section Unique.
  Context (fold : string -> string).

(** No object has two members whose names [fold] does not tell apart. *)
Inductive distinct : tree -> Prop :=
| distinct_text s : distinct (Text s)
| distinct_scalar : distinct Scalar
| distinct_object fields : NoDup (map (fun kx => fold (fst kx)) fields) -> Forall (fun kx => distinct (snd kx)) fields -> distinct (Object fields)
| distinct_array elements : Forall distinct elements -> distinct (Array elements).

Lemma unseen_name (key : string) seen : key ∉ seen -> one_of key seen = false.
Proof. intros H. apply not_true_iff_false. by rewrite one_of_true. Qed.

Lemma members_complete rest e fields :
  Forall (fun kx => forall k rest, (2 * length (flatten (snd kx)) <= k)%nat -> unique_value fold k (MkDecoder (flatten (snd kx) ++ rest) e) = Some (MkDecoder rest e)) fields ->
  NoDup (map (fun kx => fold (fst kx)) fields) -> forall seen k, (forall kx, kx ∈ fields -> fold (fst kx) ∉ seen) ->
  (2 * length (flatten_fields fields) <= k)%nat -> unique_members fold k seen (MkDecoder (flatten_fields fields ++ rest) e) = Some (MkDecoder rest e).
Proof.
  induction 1 as [|[key x] fields Hx _ IH]; intros Hnd seen k Hseen Hk; (destruct k as [|k]; [simpl in Hk; lia|]); [done|].
  cbn [flatten_fields] in *. fold flatten_fields in *. cbn [app length unique_members More Token d_left d_eof closing negb snd] in *.
  rewrite length_app in Hk. simpl in Hnd. apply NoDup_cons in Hnd as [Hk1 Hnd]. rewrite unseen_name by (apply (Hseen (key, x)); by left).
  rewrite <- app_assoc, Hx by lia. cbn [mbind option_bind]. apply IH; [done| |lia].
  intros kx Hkx. rewrite not_elem_of_cons. split; [|apply Hseen; by right]. intros E. apply Hk1, list_elem_of_fmap. by exists kx.
Qed.

Lemma items_complete rest e elements :
  Forall (fun x => forall k rest, (2 * length (flatten x) <= k)%nat -> unique_value fold k (MkDecoder (flatten x ++ rest) e) = Some (MkDecoder rest e)) elements ->
  forall k, (2 * length (flatten_elements elements) <= k)%nat -> unique_items fold k (MkDecoder (flatten_elements elements ++ rest) e) = Some (MkDecoder rest e).
Proof.
  induction 1 as [|x elements Hx _ IH]; intros k Hk;
    (destruct k as [|k]; [match type of Hk with context [flatten_elements ?l] => pose proof (flatten_elements_pos l) end; lia|]); [done|].
  cbn [flatten_elements] in *. fold flatten_elements in *. cbn [unique_items]. rewrite length_app in Hk. rewrite <- app_assoc.
  destruct (flatten_cons x) as (t & ts & Et & Ht). pose proof (flatten_elements_pos elements) as Hpos.
  assert (HM : More (MkDecoder (flatten x ++ flatten_elements elements ++ rest) e) = true) by (unfold More; rewrite Et; cbn; by rewrite Ht).
  rewrite HM, Hx by lia. cbn [mbind option_bind]. apply IH. rewrite Et in Hk. simpl in Hk. lia.
Qed.

Lemma unique_complete v rest e : distinct v -> unique fold (MkDecoder (flatten v ++ rest) e) = Some (MkDecoder rest e).
Proof.
  intros Hd. unfold unique. cbn [d_left]. rewrite length_app.
  assert (H : forall k rest, (2 * length (flatten v) <= k)%nat -> unique_value fold k (MkDecoder (flatten v ++ rest) e) = Some (MkDecoder rest e)); [|apply H; lia].
  clear rest. revert Hd. induction v as [s| |fields IH|elements IH] using tree_induction; intros Hd k rest Hk; (destruct k as [|k]; [simpl in Hk; lia|]);
    cbn [unique_value]; [done|done| |].
  - rewrite flatten_object in *. cbn [app Token d_left d_eof]. inversion Hd as [| |? Hnd Hall|]; subst. cbn [length] in Hk.
    apply members_complete; [|done|by intros ? _; apply not_elem_of_nil|lia].
    rewrite Forall_forall in *. intros kx Hkx. by apply IH, Hall.
  - rewrite flatten_array in *. cbn [app Token d_left d_eof]. inversion Hd as [| | |? Hall]; subst. cbn [length] in Hk.
    apply items_complete; [|lia]. rewrite Forall_forall in *. intros x Hx. by apply IH, Hall.
Qed.

End Unique.

(** ** Settings are independent fields *)

Definition kind_of (v : Value) : Kind := match v with VInt _ => IntKind | VText _ => TextKind | VBool _ => BoolKind | VDuration _ => DurationKind end.

Definition keeps {A} (g : Config -> A) (s : Setting) : Prop := forall v c, g (st_set s v c) = g c.

Lemma settings_get : Forall (fun s => forall v c, kind_of v = st_kind s -> st_get s (st_set s v c) = v) settings.
Proof. repeat constructor; intros [] c H; first [discriminate H|reflexivity]. Qed.

Lemma settings_kind : Forall (fun s => forall c, kind_of (st_get s c) = st_kind s) settings.
Proof. by repeat constructor. Qed.

Lemma settings_apart : ForallOrdPairs (fun s s' => keeps (st_get s) s' /\ keeps (st_get s') s) settings.
Proof. repeat constructor; intros [] c; reflexivity. Qed.

Lemma settings_flag_kind : Forall (fun s => flag_kind (st_flag s) = Some (st_kind s)) settings.
Proof. by repeat constructor. Qed.

(** The other fields *)
Definition secret_fields (c : Config) :=
  (WebhookEndpoints c, WebhookEnabled c, SendAPIKeys c, AdminAPIKeys c, WebUIOrigin c, WebUIUsers c, MetricsToken c, MasterKey c).

Lemma settings_secret : Forall (keeps secret_fields) settings.
Proof. repeat constructor; intros [] c; reflexivity. Qed.

Lemma config_ext c c' : Forall (fun s => st_get s c = st_get s c') settings -> secret_fields c = secret_fields c' -> c = c'.
Proof.
  intros H E. unfold settings, first_settings, last_settings, guardInts in H. cbn [app] in H.
  repeat (apply Forall_cons in H as [? H]). destruct c, c'. unfold secret_fields in E. cbn in *. simplify_eq. reflexivity.
Qed.

(** The two lists a setting stands between *)
Lemma apart_split l1 s l2 : ForallOrdPairs (fun s s' => keeps (st_get s) s' /\ keeps (st_get s') s) (l1 ++ s :: l2) ->
  Forall (keeps (st_get s)) l1 /\ Forall (keeps (st_get s)) l2.
Proof.
  induction l1 as [|x l1 IH]; cbn [app]; intros H; inversion H as [|? ? Hx Hl]; subst.
  - split; [constructor|]. eapply Forall_impl; [exact Hx|]. by intros ? [].
  - destruct (IH Hl) as [H1 H2]. split; [|done]. constructor; [|done]. apply Forall_app in Hx as [_ Hx]. by apply Forall_cons in Hx as [[] _].
Qed.

Section Load.
  Context {numbers : Numbers} {documents : Documents} {yaml : YamlDecoder} {html : HtmlTemplates} {tokenizer : Tokenizer} {lower : LowerCase}
    {decoder : TemplateDecoder} {keys : KeysDecoder} {parser : UuidParser} {addresses : MailParser} {principals : HttpAdmin.PrincipalsDecoder}
    {web : Console.Web} {urls : URLParser}.

Lemma load_continue {A B} (m : string + A) (f : A -> string + B) y : continue m f = inr y <-> exists x, m = inr x /\ f x = inr y.
Proof. split; [|by intros (x & -> & Hf)]. destruct m as [e|x]; [done|]. simpl. eauto. Qed.
Lemma load_require ok e u : require ok e = inr u <-> ok = true.
Proof. destruct ok, u; by split. Qed.
Lemma given_inr {A} (o : option A) e a : given o e = inr a <-> o = Some a.
Proof. destruct o; cbn; split; congruence. Qed.
Lemma require_then {B} ok e (m : string + B) y : continue (require ok e) (fun _ => m) = inr y <-> ok = true /\ m = inr y.
Proof. destruct ok; cbn; [by intuition|]. split; [done|by intros []]. Qed.
Lemma given_then {A B} (o : option A) e (f : A -> string + B) y : continue (given o e) f = inr y <-> exists a, o = Some a /\ f a = inr y.
Proof. destruct o as [a|]; cbn; [|by split; [|intros (? & ? & ?)]]. split; [eauto|]. by intros (? & [= <-] & ?). Qed.

Lemma parse_value_kind int k s v : parse_value int k s = Some v -> kind_of v = k.
Proof. destruct k; cbn; [destruct (int s)| |destruct (ParseBool s)|destruct (ParseDuration s)]; intros [= <-]; reflexivity. Qed.

(** The flags given have values of their kind. *)
Lemma parse_flags_kind kinds args : forall m flags rest, (forall name v, m !! name = Some v -> kinds name = Some (kind_of v)) ->
  parse_flags kinds args m = Some (flags, rest) -> forall name v, flags !! name = Some v -> kinds name = Some (kind_of v).
Proof.
  assert (Hins : forall (m : gmap string Value) n v, (forall name v, m !! name = Some v -> kinds name = Some (kind_of v)) ->
    kinds n = Some (kind_of v) -> forall name x, <[n := v]> m !! name = Some x -> kinds name = Some (kind_of x)).
  { intros m n v Hm Hn name x. intros [[<- <-]|[_ H]]%lookup_insert_Some; [done|by apply Hm]. }
  induction args as [args IH] using (induction_ltof1 _ (@length string)). unfold ltof in IH. intros m flags rest Hm.
  destruct args as [|arg args]; [intros [= <- <-]; exact Hm|]. cbn [parse_flags].
  destruct (_ || negb _); [intros [= <- <-]; exact Hm|]. destruct (String.eqb arg "--"); [intros [= <- <-]; exact Hm|].
  destruct (HasPrefix _ "-" || _); [done|]. destruct (cut_value _) as [name value]. destruct (kinds name) as [kind|] eqn:Ek; [|done].
  assert (Hnext : forall raw l, (length l < length (arg :: args))%nat ->
    (v ← parse_value ParseInt0 kind raw; parse_flags kinds l (<[name := v]> m)) = Some (flags, rest) ->
    forall n x, flags !! n = Some x -> kinds n = Some (kind_of x)).
  { intros raw l Hl. destruct (parse_value ParseInt0 kind raw) as [v|] eqn:Ev; [|done]. apply (IH l Hl). apply Hins; [exact Hm|].
    by rewrite (parse_value_kind _ _ _ _ Ev). }
  destruct kind, value as [value|]; try (apply Hnext; cbn; lia); destruct args; try discriminate; apply Hnext; cbn; lia.
Qed.

(** ** The layers *)

(** The variable, if it is set, can be read. *)
Definition readable (os : Os) (s : Setting) : Prop := forall raw, LookupEnv os (st_env s) = Some raw -> parse_value ParseInt (st_kind s) raw <> None.

(** The value of a setting: flag, variable, or what file and defaults gave *)
Definition env_value (os : Os) (s : Setting) (v : Value) : Value :=
  match LookupEnv os (st_env s) with Some raw => default v (parse_value ParseInt (st_kind s) raw) | None => v end.
Definition chosen (os : Os) (flags : gmap string Value) (s : Setting) (y : Config) : Value :=
  match flags !! st_flag s with Some v => v | None => env_value os s (st_get s y) end.

Lemma from_env_keeps {A} (g : Config -> A) os l : Forall (keeps g) l -> forall c c', from_env os l c = inr c' -> g c' = g c.
Proof.
  induction 1 as [|s l Hs Hl IH]; intros c c'; cbn [from_env]; [by intros [= <-]|].
  destruct (LookupEnv os (st_env s)) as [raw|]; [|apply IH]. intros H. apply given_then in H as (v & _ & H). by rewrite (IH _ _ H), Hs.
Qed.

Lemma from_env_readable os l : forall c c', from_env os l c = inr c' -> Forall (readable os) l.
Proof.
  induction l as [|s l IH]; intros c c' H; constructor; cbn [from_env] in H; unfold readable;
    destruct (LookupEnv os (st_env s)) as [raw|]; try done; try (apply given_then in H as (v & Ev & H)); try (by eapply IH).
  intros raw' [= <-]. congruence.
Qed.

Lemma from_env_total os l : Forall (readable os) l -> forall c, exists c', from_env os l c = inr c'.
Proof.
  induction 1 as [|s l Hs Hl IH]; intros c; cbn [from_env]; [eauto|]. unfold readable in Hs.
  destruct (LookupEnv os (st_env s)) as [raw|]; [|apply IH]. specialize (Hs raw eq_refl).
  destruct (parse_value ParseInt (st_kind s) raw) as [v|]; [|done]. apply IH.
Qed.

Lemma from_env_value os l1 s l2 c c' : Forall (keeps (st_get s)) l1 -> Forall (keeps (st_get s)) l2 ->
  (forall v c, kind_of v = st_kind s -> st_get s (st_set s v c) = v) ->
  from_env os (l1 ++ s :: l2) c = inr c' -> st_get s c' = env_value os s (st_get s c).
Proof.
  intros H1 H2 Hs. revert c. induction H1 as [|x l1 Hx H1 IH]; intros c H; cbn [app from_env] in H.
  - unfold env_value. destruct (LookupEnv os (st_env s)) as [raw|]; [|exact (from_env_keeps _ _ _ H2 _ _ H)].
    apply given_then in H as (v & Ev & H). rewrite Ev, (from_env_keeps _ _ _ H2 _ _ H). cbn. apply Hs. by eapply parse_value_kind.
  - destruct (LookupEnv os (st_env x)) as [raw|]; [|by apply IH]. apply given_then in H as (v & Ev & H). by rewrite (IH _ H), Hx.
Qed.

Lemma from_flags_keeps {A} (g : Config -> A) flags l : Forall (keeps g) l -> forall c, g (from_flags flags l c) = g c.
Proof.
  induction 1 as [|s l Hs Hl IH]; intros c; cbn [from_flags]; [done|]. rewrite IH. by destruct (flags !! st_flag s).
Qed.

Lemma from_flags_value flags l1 s l2 c : Forall (keeps (st_get s)) l1 -> Forall (keeps (st_get s)) l2 ->
  (forall v c, kind_of v = st_kind s -> st_get s (st_set s v c) = v) -> (forall v, flags !! st_flag s = Some v -> kind_of v = st_kind s) ->
  st_get s (from_flags flags (l1 ++ s :: l2) c) = match flags !! st_flag s with Some v => v | None => st_get s c end.
Proof.
  intros H1 H2 Hs Hk. revert c. induction H1 as [|x l1 Hx H1 IH]; intros c; cbn [app from_flags].
  - rewrite (from_flags_keeps _ _ _ H2). destruct (flags !! st_flag s) as [v|]; [|done]. by apply Hs, Hk.
  - rewrite IH. destruct (flags !! st_flag s); [done|]. by destruct (flags !! st_flag x).
Qed.

(** All layers, with the secrets read in between *)
Lemma layers os flags rest args y c1 c2 c3 : parse_flags flag_kind args ∅ = Some (flags, rest) ->
  from_env os first_settings y = inr c1 -> (forall s, s ∈ settings -> st_get s c2 = st_get s c1) -> from_env os last_settings c2 = inr c3 ->
  Forall (fun s => st_get s (from_flags flags settings c3) = chosen os flags s y) settings.
Proof.
  intros Hp H1 H2 H3. apply Forall_forall. intros s Hin. pose proof settings_get as Hget. rewrite Forall_forall in Hget. specialize (Hget s Hin).
  assert (Hk : forall v, flags !! st_flag s = Some v -> kind_of v = st_kind s).
  { intros v Hv. pose proof (parse_flags_kind _ _ _ _ _ (fun n x H => ltac:(by rewrite lookup_empty in H)) Hp _ _ Hv) as Ek.
    pose proof settings_flag_kind as Hf. rewrite Forall_forall in Hf. rewrite (Hf s Hin) in Ek. congruence. }
  pose proof (list_elem_of_split _ _ Hin) as (l1 & l2 & El). pose proof settings_apart as Ha. rewrite El in Ha.
  apply apart_split in Ha as [A1 A2]. rewrite El, (from_flags_value _ _ _ _ _ A1 A2 Hget Hk). unfold chosen. destruct (flags !! st_flag s); [done|].
  specialize (H2 s Hin). clear Hp Hk A1 A2 El l1 l2. pose proof settings_apart as Ha. unfold settings in Hin, Ha.
  apply elem_of_app in Hin as [Hin|Hin]; pose proof (list_elem_of_split _ _ Hin) as (l1 & l2 & El); rewrite El in Ha, H1 || rewrite El in Ha, H3.
  - rewrite <- app_assoc in Ha. cbn [app] in Ha. apply apart_split in Ha as [A1 A2]. apply Forall_app in A2 as [A2 A3].
    rewrite (from_env_keeps _ _ _ A3 _ _ H3), H2. exact (from_env_value _ _ _ _ _ _ A1 A2 Hget H1).
  - rewrite app_assoc in Ha. apply apart_split in Ha as [A1 A2]. apply Forall_app in A1 as [A0 A1].
    rewrite (from_env_value _ _ _ _ _ _ A1 A2 Hget H3), H2. by rewrite (from_env_keeps _ _ _ A0 _ _ H1).
Qed.

(** ** The limits *)

Record limits_ok (os : Os) (sendKeys : list SendKey) (c : Config) : Prop := {
  li_connections : 1 <= SMTPMaxConnectionsPerIP c <= SMTPMaxConnections c /\ SMTPMaxConnections c <= 4096;
  li_auth : 1 <= SMTPAuthPerMinute c <= 6000 /\ 1 <= SMTPAuthBurst c <= 1000 /\ 1 <= SMTPMaxSessionSeconds c <= 3600;
  li_memory : 2 <= AuthConcurrency c <= 8 /\ AuthConcurrency c * (64 * MiB) <= AuthMemoryBudget c <= 512 * MiB;
  li_metrics : MetricsToken c = EmptyString \/
    (32 <= String.length (MetricsToken c) <= 512)%nat /\ ContainsAny (MetricsToken c) blanks = false;
  li_failover : FailoverEnabled c = true -> RetryEnabled c = true;
  li_required : DatabaseURL c <> EmptyString /\ HTTPAddr c <> EmptyString /\ StorageDir c <> EmptyString /\ SMTPDomain c <> EmptyString /\ 0 < ShutdownTimeout c;
  li_message : 1 <= MaxMessageBytes c <= GiB /\
    (sendKeys <> [] -> MaxMessageBytes c <= 100 * MiB /\ 2 * (MaxMessageBytes c + 1) <= SpoolBudget c);
  li_workers : 0 <= WorkerCount c <= 32 /\ (0 < WorkerCount c -> NewEnvironment os (MasterKey c) <> None);
  li_budget : 8 * MiB <= MemoryBudget c <= 16 * GiB /\ MaxMessageBytes c <= SpoolBudget c <= 64 * GiB;
  li_maintenance : MaintenanceInterval c = 0 \/ Minute <= MaintenanceInterval c;
  li_retention : 0 <= EMLRetentionDays c <= 36500 /\ 0 <= DebugRetentionDays c <= 36500 /\ 1 <= CleanupBatch c <= 1000 }.

Lemma not_null_iff {A} (o : option A) : not_null o = true <-> o <> None.
Proof. destruct o; cbn; split; congruence. Qed.

(** The checks one by one *)
Lemma check_guards c : negb ((SMTPMaxConnections c <? 1) || (4096 <? SMTPMaxConnections c) || (SMTPMaxConnectionsPerIP c <? 1)
    || (SMTPMaxConnections c <? SMTPMaxConnectionsPerIP c) || (SMTPAuthPerMinute c <? 1) || (6000 <? SMTPAuthPerMinute c)
    || (SMTPAuthBurst c <? 1) || (1000 <? SMTPAuthBurst c) || (SMTPMaxSessionSeconds c <? 1) || (3600 <? SMTPMaxSessionSeconds c)
    || (AuthConcurrency c <? 2) || (8 <? AuthConcurrency c) || (AuthMemoryBudget c <? i64 (AuthConcurrency c * (64 * MiB)))
    || (512 * MiB <? AuthMemoryBudget c)) = true <->
  (1 <= SMTPMaxConnectionsPerIP c <= SMTPMaxConnections c /\ SMTPMaxConnections c <= 4096) /\
  (1 <= SMTPAuthPerMinute c <= 6000 /\ 1 <= SMTPAuthBurst c <= 1000 /\ 1 <= SMTPMaxSessionSeconds c <= 3600) /\
  (2 <= AuthConcurrency c <= 8 /\ AuthConcurrency c * (64 * MiB) <= AuthMemoryBudget c <= 512 * MiB).
Proof.
  assert (Hmul : 2 <= AuthConcurrency c <= 8 -> i64 (AuthConcurrency c * (64 * MiB)) = AuthConcurrency c * (64 * MiB)).
  { intros H. apply i64_small. unfold MiB. lia. }
  rewrite negb_true_iff, !orb_false_iff, !Z.ltb_ge. unfold MiB in *.
  split; [intros H; rewrite Hmul in H by lia; lia|intros H; rewrite Hmul by lia; lia].
Qed.

Lemma check_message sendKeys c :
  negb ((0 <? @length SendKey sendKeys)%nat && ((100 * MiB <? MaxMessageBytes c) || (SpoolBudget c <? i64 (2 * i64 (MaxMessageBytes c + 1))))) = true /\
  negb ((MaxMessageBytes c <=? 0) || (GiB <? MaxMessageBytes c)) = true <->
  1 <= MaxMessageBytes c <= GiB /\ (sendKeys <> [] -> MaxMessageBytes c <= 100 * MiB /\ 2 * (MaxMessageBytes c + 1) <= SpoolBudget c).
Proof.
  assert (Hdouble : 1 <= MaxMessageBytes c <= GiB -> i64 (2 * i64 (MaxMessageBytes c + 1)) = 2 * (MaxMessageBytes c + 1)).
  { unfold GiB. intros H. rewrite (i64_small (MaxMessageBytes c + 1)) by lia. apply i64_small. lia. }
  rewrite !negb_true_iff, andb_false_iff, !orb_false_iff, !Z.ltb_ge, Z.leb_gt. split.
  - intros [H1 H2]. rewrite Hdouble in H1 by lia. split; [lia|]. intros Hn. destruct H1 as [H1|H1]; [|lia].
    by destruct sendKeys.
  - intros [H1 H2]. rewrite Hdouble by lia. split; [|lia]. destruct sendKeys; [by left|]. right. by apply H2.
Qed.

Lemma check_metrics token :
  String.eqb token "" || negb ((String.length token <? 32)%nat || (512 <? String.length token)%nat || ContainsAny token blanks) = true <->
  token = EmptyString \/ (32 <= String.length token <= 512)%nat /\ ContainsAny token blanks = false.
Proof. rewrite orb_true_iff, String.eqb_eq, negb_true_iff, !orb_false_iff, !Nat.ltb_ge. tauto. Qed.

Lemma validate_spec os sendKeys c u : validate os sendKeys c = inr u <-> limits_ok os sendKeys c.
Proof.
  unfold validate. rewrite !require_then, load_require, check_guards, check_metrics.
  assert (E1 : negb (FailoverEnabled c && negb (RetryEnabled c)) = true <-> (FailoverEnabled c = true -> RetryEnabled c = true)).
  { destruct (FailoverEnabled c), (RetryEnabled c); cbn; intuition congruence. }
  assert (E2 : negb (0 <? WorkerCount c) || not_null (NewEnvironment os (MasterKey c)) = true <->
    (0 < WorkerCount c -> NewEnvironment os (MasterKey c) <> None)).
  { rewrite orb_true_iff, negb_true_iff, Z.ltb_ge, not_null_iff. split; [intros [H|H] Hw; [lia|exact H]|].
    intros H. destruct (Z.ltb_spec 0 (WorkerCount c)); [by right; apply H|left; lia]. }
  assert (E3 : negb ((MaintenanceInterval c <? 0) || (0 <? MaintenanceInterval c) && (MaintenanceInterval c <? Minute)) = true <->
    (MaintenanceInterval c = 0 \/ Minute <= MaintenanceInterval c)).
  { rewrite negb_true_iff, orb_false_iff, andb_false_iff, !Z.ltb_ge. change Minute with 60000000000. lia. }
  rewrite E1, E2, E3. clear E1 E2 E3. pose proof (check_message sendKeys c) as Hm. revert Hm.
  generalize (negb ((0 <? length sendKeys)%nat && ((100 * MiB <? MaxMessageBytes c) || (SpoolBudget c <? i64 (2 * i64 (MaxMessageBytes c + 1)))))).
  generalize (negb ((MaxMessageBytes c <=? 0) || (GiB <? MaxMessageBytes c))). intros b1 b2 Hm.
  rewrite !negb_true_iff, !orb_false_iff, !Z.ltb_ge, !Z.leb_gt, !String.eqb_neq. split.
  - intros (G & M & F & D & (A & T) & B2 & B1 & S & W & B & N & I & R). destruct (proj1 Hm (conj B2 B1)) as [M1 M2].
    destruct G as (G1 & G2 & G3). split; try assumption; [tauto|tauto|tauto|lia|lia].
  - intros [L1 L2 L3 L4 L5 L6 L7 [L8 L8'] L9 L10 L11]. apply Hm in L7 as [B2 B1]. do 3 (split; [tauto|]). split; [tauto|]. split; [tauto|].
    split; [exact B2|]. split; [exact B1|]. split; [tauto|]. split; [lia|]. split; [lia|]. split; [exact L8'|]. split; [exact L10|lia].
Qed.

(** ** The secrets *)

(** What [WEBHOOK_ENABLED] says, else as before *)
Definition enabled_ok (os : Os) (before after : bool) : Prop :=
  match LookupEnv os "WEBHOOK_ENABLED" with
  | Some v => if String.eqb v "" then after = before else ParseBool v = Some after
  | None => after = before
  end.

Record secrets_ok (os : Os) (enabled : bool) (sendKeys : list SendKey) (c : Config) : Prop := {
  sc_values : MasterKey c = EnvironmentKey os /\ MetricsToken c = Getenv os "METRICS_BEARER_TOKEN" /\ AdminAPIKeys c = Getenv os "ADMIN_API_KEYS" /\
    WebhookEndpoints c = Getenv os "WEBHOOK_ENDPOINTS" /\ SendAPIKeys c = Getenv os "SEND_API_KEYS" /\ WebUIOrigin c = Getenv os "WEB_UI_ORIGIN" /\
    WebUIUsers c = Getenv os "WEB_UI_USERS";
  sc_enabled : enabled_ok os enabled (WebhookEnabled c);
  sc_endpoints : exists endpoints, webhookParse (WebhookEndpoints c) = Some endpoints /\ (WebhookEnabled c = true -> endpoints <> []);
  sc_keys : ParseSendKeys (SendAPIKeys c) = Some sendKeys;
  sc_tokens : exists admins, HttpAdmin.ParsePrincipals (AdminAPIKeys c) = Some admins /\
    (forall k, k ∈ sendKeys -> sk_Token k <> MetricsToken c /\ forall a, a ∈ admins -> sk_Token k <> HttpAdmin.pr_Token a) /\
    (forall a, a ∈ admins -> HttpAdmin.pr_Token a <> MetricsToken c);
  sc_web : Console.ValidateWeb (Console.MkWebConfig (WebUIOrigin c) (WebUIUsers c)) <> None;
  sc_box : WebUIOrigin c <> EmptyString \/ AdminAPIKeys c <> EmptyString -> NewEnvironment os (MasterKey c) <> None }.

Definition with_secrets (os : Os) (enabled : bool) (c : Config) : Config :=
  c <| MasterKey := EnvironmentKey os |> <| MetricsToken := Getenv os "METRICS_BEARER_TOKEN" |> <| AdminAPIKeys := Getenv os "ADMIN_API_KEYS" |>
    <| WebhookEndpoints := Getenv os "WEBHOOK_ENDPOINTS" |> <| WebhookEnabled := enabled |> <| SendAPIKeys := Getenv os "SEND_API_KEYS" |>
    <| WebUIOrigin := Getenv os "WEB_UI_ORIGIN" |> <| WebUIUsers := Getenv os "WEB_UI_USERS" |>.

Lemma distinct_tokens_spec metrics admins sendKeys u : distinct_tokens metrics admins sendKeys = inr u <->
  forall k, k ∈ sendKeys -> sk_Token k <> metrics /\ forall a, a ∈ admins -> sk_Token k <> HttpAdmin.pr_Token a.
Proof.
  destruct u. induction sendKeys as [|k sendKeys IH]; cbn [distinct_tokens]; [by split; [intros _ k ?%not_elem_of_nil|]|].
  destruct (String.eqb_spec (sk_Token k) metrics) as [E|E].
  { split; [done|]. intros H. by destruct (H k (list_elem_of_here _ _)). }
  destruct (existsb _ admins) eqn:Ea.
  { split; [done|]. intros H. apply existsb_exists in Ea as (a & Ha & Et). apply String.eqb_eq in Et.
    by destruct (proj2 (H k (list_elem_of_here _ _)) a (proj2 (list_elem_of_In _ _) Ha)). }
  rewrite IH. split.
  - intros H k' [->|Hk]%elem_of_cons; [|by apply H]. split; [done|]. intros a Ha Et. apply not_true_iff_false in Ea. apply Ea, existsb_exists.
    exists a. split; [by apply list_elem_of_In|by apply String.eqb_eq].
  - intros H k' Hk. apply H. by apply elem_of_cons; right.
Qed.

Lemma admins_differ (raw metrics : string) admins : HttpAdmin.ParsePrincipals raw = Some admins ->
  String.eqb raw "" || forallb (fun a => negb (String.eqb (HttpAdmin.pr_Token a) metrics)) admins = true <->
  forall a, a ∈ admins -> HttpAdmin.pr_Token a <> metrics.
Proof.
  unfold HttpAdmin.ParsePrincipals. destruct (String.eqb raw ""); [intros [= <-]; by split; [intros _ a ?%not_elem_of_nil|]|]. intros _. cbn [orb].
  rewrite forallb_forall. split.
  - intros H a Ha Et. apply list_elem_of_In, H in Ha. apply negb_true_iff, String.eqb_neq in Ha. done.
  - intros H a Ha. apply negb_true_iff, String.eqb_neq, H. by apply list_elem_of_In.
Qed.

Lemma load_enabled {A} os (k : Config -> string + A) d y :
  continue (match LookupEnv os "WEBHOOK_ENABLED" with
    | Some v => if String.eqb v "" then inr d else b <~ given (ParseBool v) "invalid WEBHOOK_ENABLED"; inr (d <| WebhookEnabled := b |>)
    | None => inr d end) k = inr y <-> exists b, enabled_ok os (WebhookEnabled d) b /\ k (d <| WebhookEnabled := b |>) = inr y.
Proof.
  unfold enabled_ok. assert (Hd : d <| WebhookEnabled := WebhookEnabled d |> = d) by by destruct d.
  assert (Hsame : k d = inr y <-> exists b, b = WebhookEnabled d /\ k (d <| WebhookEnabled := b |>) = inr y).
  { split; [intros H; exists (WebhookEnabled d); by rewrite Hd|]. intros (b & -> & H). by rewrite Hd in H. }
  destruct (LookupEnv os "WEBHOOK_ENABLED") as [v|]; [|exact Hsame]. destruct (String.eqb v ""); [exact Hsame|].
  destruct (ParseBool v) as [b|]; cbn; [|by split; [|intros (b & ? & ?)]]. split; [by exists b|]. by intros (b' & [= <-] & H).
Qed.

Lemma box_needed os raw key : String.eqb raw "" || not_null (NewEnvironment os key) = true <-> (raw <> EmptyString -> NewEnvironment os key <> None).
Proof.
  rewrite orb_true_iff, String.eqb_eq, not_null_iff. split; [by intros [H|H]|]. intros H. destruct (String.eqb_spec raw ""); [by left|right; by apply H].
Qed.

Lemma secrets_spec os c c' ks : secrets os c = inr (c', ks) <-> exists b, c' = with_secrets os b c /\ secrets_ok os (WebhookEnabled c) ks c'.
Proof.
  unfold secrets. cbv zeta. split.
  - intros H. apply given_then in H as (es & Ee & H). apply load_enabled in H as (b & Hb & H). apply require_then in H as [Hr H].
    apply given_then in H as (sendKeys & Ek & H). apply given_then in H as (admins & Ea & H). apply load_continue in H as (u & Ed & H).
    apply given_then in H as (users & Eu & H). apply require_then in H as [B1 H]. apply require_then in H as [Ha H]. apply require_then in H as [B2 H].
    apply (inj inr) in H. injection H as <- <-. exists b. split; [reflexivity|]. pose proof (proj1 (box_needed _ _ _) B1) as B1'. pose proof (proj1 (box_needed _ _ _) B2) as B2'.
    pose proof (proj1 (distinct_tokens_spec _ _ _ _) Ed) as Ed'.
    pose proof (proj1 (admins_differ _ (Getenv os "METRICS_BEARER_TOKEN") _ Ea) Ha) as Ha'. apply negb_true_iff, andb_false_iff in Hr.
    split; [by repeat split|exact Hb| |exact Ek| | |].
    + exists es. split; [exact Ee|]. intros En ->. destruct Hr as [Hr|Hr]; [|done]. change (b = true) in En. change (b = false) in Hr. congruence.
    + exists admins. split; [exact Ea|]. split; [exact Ed'|exact Ha'].
    + intros E. cbn in E, Eu. congruence.
    + intros [?|?]; [by apply B1'|by apply B2'].
  - intros (b & -> & [_ Hb (es & Ee & Hes) Ek (admins & Ea & Ed & Ha) Hw Hbox]).
    apply given_then. exists es. split; [exact Ee|]. apply load_enabled. exists b. split; [exact Hb|]. apply require_then. split.
    { change (negb (b && (length es =? 0)%nat) = true). destruct b; [|done]. destruct es; [by destruct (Hes eq_refl)|done]. }
    apply given_then. exists ks. split; [exact Ek|]. apply given_then. exists admins. split; [exact Ea|]. apply load_continue. exists tt.
    split; [by apply distinct_tokens_spec|]. destruct (Console.ValidateWeb _) as [users|] eqn:Eu in Hw; [|done].
    apply given_then. exists users. split; [exact Eu|]. apply require_then. split; [apply box_needed; intros; apply Hbox; by left|].
    apply require_then. split; [by apply (admins_differ _ _ _ Ea)|]. apply require_then. split; [apply box_needed; intros; apply Hbox; by right|].
    reflexivity.
Qed.

(** ** The whole *)

(** The settings are read as they should be, and nothing else is. *)
Record loaded (os : Os) (args : list string) (flags : gmap string Value) (y : Config) (sendKeys : list SendKey) (c : Config) : Prop := {
  ld_flags : parse_flags flag_kind args ∅ = Some (flags, []);
  ld_file : from_file os (config_file flags) defaults = inr y;
  ld_readable : Forall (readable os) settings;
  ld_settings : Forall (fun s => st_get s c = chosen os flags s y) settings;
  ld_secrets : secrets_ok os (WebhookEnabled y) sendKeys c;
  ld_limits : limits_ok os sendKeys c }.

Lemma enabled_keeps l : Forall (keeps secret_fields) l -> Forall (keeps WebhookEnabled) l.
Proof. intros H. eapply Forall_impl; [exact H|]. intros s Hs v c. specialize (Hs v c). unfold secret_fields in Hs. congruence. Qed.

Lemma with_secrets_get os b c s : s ∈ settings -> st_get s (with_secrets os b c) = st_get s c.
Proof.
  intros Hs. assert (H : Forall (fun s => forall c, st_get s (with_secrets os b c) = st_get s c) settings) by by repeat constructor.
  rewrite Forall_forall in H. by apply H.
Qed.

Lemma secrets_ok_ext os b ks c c' : secret_fields c = secret_fields c' -> secrets_ok os b ks c -> secrets_ok os b ks c'.
Proof.
  intros E. unfold secret_fields in E. injection E as E1 E2 E3 E4 E5 E6 E7 E8. intros [H1 H2 H3 H4 H5 H6 H7].
  rewrite E1, E2, E3, E4, E5, E6, E7, E8 in *. by split.
Qed.

(** The configuration in which the layers end *)
Lemma layered os flags args y c1 c3 b : parse_flags flag_kind args ∅ = Some (flags, []) ->
  from_env os first_settings y = inr c1 -> from_env os last_settings (with_secrets os b c1) = inr c3 ->
  Forall (readable os) settings /\ WebhookEnabled c1 = WebhookEnabled y /\
  Forall (fun s => st_get s (from_flags flags settings c3) = chosen os flags s y) settings /\
  secret_fields (from_flags flags settings c3) = secret_fields (with_secrets os b c1).
Proof.
  intros Hp H1 H3. pose proof settings_secret as Hs. pose proof Hs as Hs'. unfold settings in Hs'. apply Forall_app in Hs' as [Hf Hl].
  split; [apply Forall_app; split; by eapply from_env_readable|]. split; [exact (from_env_keeps _ _ _ (enabled_keeps _ Hf) _ _ H1)|].
  split; [|by rewrite (from_flags_keeps _ _ _ Hs), (from_env_keeps _ _ _ Hl _ _ H3)].
  eapply layers; [exact Hp|exact H1| |exact H3]. intros s Hin. by apply with_secrets_get.
Qed.

(** C27. Configuration.  [Load] returns a configuration exactly when the
    command line, the file and every variable that is set can be read, each
    setting is the value of its flag, else of its variable, else of the file,
    else the default, the secrets are those of the environment and no other,
    tokens of websites, administrators and metrics differ, keys, endpoints and
    users are valid, a master key is there where one is needed, and every
    number is within its limits, memory and spool budgets included. *)
Theorem load_exact os args c : Load os args = inr c <-> exists flags y sendKeys, loaded os args flags y sendKeys c.
Proof.
  unfold Load. split.
  - intros H. apply given_then in H as ([flags rest] & Hp & H). apply require_then in H as [Hr H]. destruct rest; [|done].
    apply load_continue in H as (y & Hy & H). apply load_continue in H as (c1 & H1 & H). apply load_continue in H as ([c2 ks] & H2 & H).
    apply load_continue in H as (c3 & H3 & H). apply load_continue in H as (u & Hv & H). apply (inj inr) in H as <-.
    apply secrets_spec in H2 as (b & -> & Hs). destruct (layered _ _ _ _ _ _ _ Hp H1 H3) as (L1 & L2 & L3 & L4).
    exists flags, y, ks. split; [done|done|done|done| |by apply validate_spec in Hv]. rewrite <- L2. exact (secrets_ok_ext _ _ _ _ _ (eq_sym L4) Hs).
  - intros (flags & y & ks & [Hp Hy Hr Hc Hs Hl]). apply given_then. exists (flags, []). split; [exact Hp|]. apply require_then. split; [done|].
    apply load_continue. exists y. split; [exact Hy|]. pose proof Hr as Hr'. unfold settings in Hr'. apply Forall_app in Hr' as [R1 R2].
    destruct (from_env_total os _ R1 y) as [c1 H1]. destruct (from_env_total os _ R2 (with_secrets os (WebhookEnabled c) c1)) as [c3 H3].
    destruct (layered _ _ _ _ _ _ _ Hp H1 H3) as (_ & L2 & L3 & L4).
    assert (Esec : secret_fields (with_secrets os (WebhookEnabled c) c1) = secret_fields c).
    { destruct Hs as [(E1 & E2 & E3 & E4 & E5 & E6 & E7) _ _ _ _ _ _]. unfold secret_fields, with_secrets. cbn. congruence. }
    assert (Ec : from_flags flags settings c3 = c).
    { apply config_ext; [|by rewrite L4]. rewrite Forall_forall in *. intros s Hin. by rewrite L3, Hc. }
    apply load_continue. exists c1. split; [exact H1|]. apply load_continue. exists (with_secrets os (WebhookEnabled c) c1, ks).
    split; [apply secrets_spec; exists (WebhookEnabled c); split; [reflexivity|]; rewrite L2; exact (secrets_ok_ext _ _ _ _ _ (eq_sym Esec) Hs)|].
    apply load_continue. exists c3. split; [exact H3|]. cbn [snd]. rewrite Ec. apply load_continue. exists tt.
    split; [by apply validate_spec|reflexivity].
Qed.

End Load.

(** ** The environment names the database, a flag the address *)

#[local] Instance boot_numbers : Numbers := MkNumbers (fun _ => None) ParseInt.
#[local] Instance boot_documents : Documents := MkDocuments (fun _ => None) (fun _ => None).
#[local] Instance boot_yaml : YamlDecoder := fun _ c => Some (c <| CleanupBatch := 7 |> <| HTTPAddr := ":1" |>).
#[local] Instance boot_html : HtmlTemplates := MkHtmlTemplates string Some (fun c _ => Some c).
#[local] Instance boot_tokens : Tokenizer := fun _ => MkDecoder [] true.
#[local] Instance boot_lower : LowerCase := fun s => s.
#[local] Instance boot_templates : TemplateDecoder := fun _ => None.
#[local] Instance boot_keys : KeysDecoder := fun _ => None.
#[local] Instance boot_ids : UuidParser := fun _ => None.
#[local] Instance boot_addresses : MailParser := fun _ => None.
#[local] Instance boot_principals : HttpAdmin.PrincipalsDecoder := fun _ => None.
#[local] Instance boot_web : Console.Web := Console.MkWeb (fun _ => None) (fun _ => None) (fun _ => None) (fun _ => EmptyString) (fun _ => EmptyString).
#[local] Instance boot_urls : URLParser := fun _ => None.

Definition boot_os : Os :=
  MkOs (fun key => if String.eqb key "DATABASE_URL" then Some "postgres://db"%string else if String.eqb key "WORKER_COUNT" then Some "3"%string
                   else if String.eqb key "HTTP_LISTEN_ADDR" then Some ":2"%string else None)
    (fun _ => Some EmptyString).

(** Without a master key there are no workers; the flag overrides the variable, which overrides the file. *)
Example boot_workers : Load boot_os ["-config"; "relay.yaml"]%string = inl "invalid keyring configuration"%string.
Proof. vm_compute. reflexivity. Qed.
Example boot_layers : exists c, Load boot_os ["-config=relay.yaml"; "--workers"; "0"; "-retry-enabled"]%string = inr c /\
  (WorkerCount c, HTTPAddr c, CleanupBatch c, RetryEnabled c, SMTPDomain c) = (0, ":2", 7, true, "localhost")%string.
Proof. eexists. split; [vm_compute; reflexivity|reflexivity]. Qed.

End ConfigSpec.
